(* ===== verification/_CoqProject ===== *)
-Q . S2P
Prelude.v
Packet.v
CtBase.v
TcpTrack.v
TcpTrackFacts.v
CtProtos.v
Conntrack.v
ConntrackInv.v
ConntrackFacts.v
CtExpect.v
CtSteps.v
ConntrackSpec.v
CtCleanup.v
Csum.v
NatProto.v
NatCore.v
NatCsum.v
NatFacts.v
NatTranslate.v
NatHelper.v
NatHelperFacts.v
IpFrag.v
IpFragFacts.v
IpFragTable.v
IpFragSpec.v
Ftp.v
FtpFacts.v
FtpSpec.v
Irc.v
IrcSpec.v
Snmp.v
SnmpFacts.v
SnmpMessages.v
SnmpSpec.v
IpTables.v
XtMatches.v
XtTargets.v
NatHooks.v
XtFacts.v
TcpmssFacts.v
IpTablesFacts.v
IpTablesChains.v
IpTablesSpec.v
IptReplace.v
IptReplaceFacts.v
IptReplaceSpec.v
IptModules.v
Firewall.v
FirewallFacts.v
FirewallSpec.v
IptBoot.v
NfCore.v
NfCoreSpec.v
FirewallNat.v
FwHooks.v
FwHooksSpec.v
