(* ===== verification/Prelude.v ===== *)
(** * The packet path of the FVS318G firmware: connection tracking, NAT, IP tables

    The firmware is a Linux 2.6.16 for the STR9100 router board ([linux-2.6.16-star])
    with a small user space.  What makes the device a firewall is the netfilter code of
    its kernel under the rules of the boot script [userfs/firewall.sh].  This library
    models that code and proves what it does.  File names below are relative to
    [linux-2.6.16-star/] unless they start with [userfs/] or [iptables-1.4.17/]; the
    configuration is [def_config] (one little-endian ARM core, [HZ] = 100).

    ** How the parts fit together

    A packet passes the netfilter hooks PRE_ROUTING, then LOCAL_IN or FORWARD, then
    POST_ROUTING (LOCAL_OUT for the router's own packets).  At the first hook fragments
    are gathered ([ip_conntrack_defrag]) and the tracker ([ip_conntrack_in]) finds or
    creates the packet's connection and labels the packet NEW, ESTABLISHED, RELATED or
    INVALID.  NAT ([ip_nat_fn]) lets the nat table choose a mapping for the first packet
    of a connection, records it by altering the reply tuple of the conntrack, and
    rewrites every packet by that record.  The filter table ([ipt_do_table]) decides
    about the packet, mostly by its label.  At the last hook the helper of the
    connection, if it has one, looks into the payload, may expect another connection and
    rewrite the payload, and [ip_confirm] enters the connection into the hash table.
    The tracker, NAT and the tables share the conntracks; matches and targets reach them
    through the packet.

    ** Files

    - [Prelude]: machine words with their wrap-around, record update, list lemmas, the
      tactics and the hint database [words].
    - [Packet]: bytes and headers of IP, TCP, UDP and ICMP, byte order, the fields of
      [struct sk_buff] in use ([include/linux/ip.h], [tcp.h], [udp.h], [icmp.h],
      [skbuff.h]).
    - [CtBase]: tuples, [struct ip_conntrack], status bits, timers and accounting
      ([ip_conntrack.h], [ip_conntrack_tuple.h], [nf_conntrack_common.h],
      [nf_conntrack_tcp.h], [__ip_ct_refresh_acct]).
    - [TcpTrack], [TcpTrackFacts]: [net/ipv4/netfilter/ip_conntrack_proto_tcp.c].
    - [CtProtos]: [ip_conntrack_proto_udp.c], [ip_conntrack_proto_icmp.c],
      [ip_conntrack_proto_generic.c] and the dispatch over them.
    - [Conntrack]: [ip_conntrack_core.c] with the hooks of
      [ip_conntrack_standalone.c]; the state is the record [ct_state], pointers are
      [positive]s, a list node is a pair of a conntrack and a direction.
      [ConntrackInv] has the invariant, [ConntrackFacts] its preservation by every
      operation, [CtExpect] the same for expectations, [CtSteps] the tracker as a
      transition system, [ConntrackSpec] the theorems, [CtCleanup] the removal of
      connections in bulk.
    - [Csum]: the Internet checksum ([include/asm-arm/checksum.h]) as arithmetic
      modulo 65535.
    - [NatProto], [NatCore]: [ip_nat_proto_tcp.c], [ip_nat_proto_udp.c],
      [ip_nat_proto_icmp.c], [ip_nat_proto_unknown.c] and [ip_nat_core.c].  [NatCsum]
      treats checksums, [NatFacts] the choice of mappings, [NatTranslate] the
      translation of packets in both directions.
    - [NatHelper], [NatHelperFacts]: [ip_nat_helper.c], rewriting of payloads and the
      correction of sequence numbers.
    - [IpFrag]: [net/ipv4/ip_fragment.c] with the hook [ip_conntrack_defrag]; the queue of
      a datagram is a record [ipq] with its fragments in a list, the state [frag_state]
      has the hash table, the LRU list and the memory counter.  [IpFragFacts] treats one
      queue, [IpFragTable] the table and the evictor, [IpFragSpec] runs of the hook.
    - [Ftp], [FtpFacts], [FtpSpec]: the helpers [ip_conntrack_ftp.c], [ip_nat_ftp.c],
      [ip_conntrack_tftp.c] and [ip_nat_tftp.c]: parsing and printing of commands, the
      expectation, the choice of a port.  [Irc], [IrcSpec]: [ip_conntrack_irc.c] and
      [ip_nat_irc.c].  The parsers of both get the memory from the text on, and a read
      behind its end is [None]; the memory behind the packet is explicit for IRC, because
      the parser may read it.
    - [Snmp]: [ip_nat_snmp_basic.c], a BER decoder on raw pointers with blocks on the heap,
      as a monad of state and failure.  [SnmpFacts] has its calculus and what holds for any
      octets, [SnmpMessages] the messages, their encoding and the run over an encoded
      message, [SnmpSpec] the theorems.
    - [IpTables]: [ip_tables.c], loading and traversal.  The type class [IptExt] is the
      interface between the tables and their extensions; all theorems of
      [IpTablesFacts], [IpTablesChains] and [IpTablesSpec] are proved against it.
    - [XtMatches], [XtTargets]: the extensions in use ([xt_tcpudp.c], [xt_conntrack.c],
      [xt_state.c], [xt_limit.c], [xt_length.c], [xt_mark.c], [ipt_multiport.c],
      [ipt_iprange.c], [ipt_ttl.c], [ipt_tos.c]; [ipt_TCPMSS.c], [ipt_REJECT.c],
      [ipt_MASQUERADE.c], SNAT and DNAT of [ip_nat_rule.c]) and the instance of
      [IptExt] they form.  [XtFacts] and [TcpmssFacts] hold their theorems.
    - [NatHooks]: [ip_nat_standalone.c] and the rest of [ip_nat_rule.c].
    - [Firewall]: the filter and nat tables that [userfs/firewall.sh] builds.
      [FirewallFacts] shows that they load and stay in service, [FirewallSpec] and
      [FirewallNat] what they do.
    - [IptReplace]: the system calls on tables of [ip_tables.c] and [x_tables.c] (checking
      of a blob, replacing a table, counters, reading a table back) with the references
      that rules hold on modules.  The type class [XtModules] says what an extension does
      when it is found, checked and destroyed, [XtLaws] what the theorems of
      [IptReplaceFacts] and [IptReplaceSpec] ask of it; [IptModules] is the instance of the
      extensions in use.  [IptBoot]: [iptable_filter.c] with its initial table, and its
      replacement by the rules of [userfs/firewall.sh].
    - [NfCore], [NfCoreSpec]: [net/netfilter/core.c] and [net/netfilter/nf_queue.c], the
      lists of hooks, the walk over them and the queueing of packets.
    - [FwHooks], [FwHooksSpec]: the hooks of [ip_conntrack_standalone.c],
      [ip_nat_standalone.c], [iptable_filter.c], [iptable_mangle.c] and
      [net/ipv4/netfilter.c] as functions on one state, the record [kernel], and the
      path of a packet through all of them.

    ** What the theorems show

    - Tracker.  In every state reachable by packets, confirmations, timeouts, helpers,
      expectations, evictions and clean-ups the hash table, the lists, the counters and
      the reference counts agree and no pointer dangles ([ct_reachable_inv]).  Lookup
      refines an abstract map from tuples to connections ([find_refines_table]);
      confirmation, labelling, eviction and expectations do what they should
      ([confirm_spec], [in_classifies], [early_drop_spares_assured],
      [expect_related_spec]); bulk removal ends and takes exactly the selected
      connections ([cleanup_spec]) where their timers run and the hardware keeps none back,
      but not when a queued packet keeps one unconfirmed ([cleanup_spins]).
    - TCP.  [tcp_packet] makes no bad access, returns one of four verdicts and keeps its
      data well formed ([tcp_packet_safe]); the states of an open connection are reached only through
      the handshake or a pick-up ([tcp_handshake]); the modular window test is the
      test on unwrapped numbers ([tcp_window_conds_spec]), but for one bound that the
      comment includes and the code does not ([window_bound_refused]).  The lemma
      [tcp_error_accept] says which packets are let through, [tcp_in_window_td_end] what a
      segment may change.
    - NAT.  The choice of a mapping succeeds, keeps all invariants, stays in the range and
      clashes with no other connection unless there is nothing to choose or all that was
      tried is taken ([setup_info_spec], with the lemma [unique_tuple_search]); a packet
      of either direction leaves with the inverse of the opposite tuple ([nat_translates]);
      checksums verify after a rewrite exactly when they did before
      ([nat_preserves_checksums]).  Changed payloads: [mangle_tcp_spec], the lemma
      [seq_adjust_spec] and the round trip [seq_ack_roundtrip].
    - Reassembly.  Whatever packets, timeouts and evictions come, nothing is accessed that
      is not there, the evictor ends, and the memory stays bounded ([frag_run_safe]); a
      datagram that comes out is the one that was sent ([frag_run_whole]), and one whose
      fragments all arrive comes out with the last missing byte, in any order, with
      overlaps and repetitions ([frag_run_completes]).
    - Helpers.  On every packet the FTP helper returns without a read behind the payload
      and with the tracker consistent ([ftp_help_safe]), and the IRC helper does on payloads that end in a control
      character ([irc_help_safe]); what a rewritten packet announces is what is expected
      ([ftp_nat_consistent], where a port that the hardware chose may be taken, and
      [irc_nat_consistent]).  The number parser accepts exactly its
      grammar ([try_number_spec]), and printed commands are read back
      ([ftp_print_parse]).  [tftp_help_safe] is the lemma for TFTP.  The SNMP helper maps the
      addresses of every well-formed message and nothing else, and drops messages with a
      BIT STRING or a Counter64 ([snmp_translates]); it uses the heap rightly whatever
      arrives, up to a read outside the message, and as long as it runs ([snmp_books]).
    - Tables.  [mark_source_chains] ends on every table and accepts exactly those
      without loops ([mark_source_chains_decides]); the traversal of an accepted table
      ends and refines the recursive meaning of its chains if the underflow is a policy,
      which the loader does not check ([accepted_traversal]).
      Whatever sequence of system calls runs, the references on every extension and
      table are exactly those of the rules in service and of the registrations that
      were refused after their check, which are never given back ([xt_books]); a replacement takes
      effect whole or leaves everything as it was ([replace_all_or_nothing]); counters
      that are added to a table reach exactly the named entries
      ([add_counters_exact]).  A replacement by the rules of the boot script that succeeds
      puts the table of [Firewall] into service (the lemma [script_in_service]).
    - Hooks.  The lists of hooks stay sorted by priority and modules and devices are
      referenced once for every queued packet ([nf_books]); a packet taken back from the
      queue goes on behind the hook that queued it, and is lost only where a later hook
      says NF_STOP ([queue_resumes]); in whatever order
      the parts of the kernel register, each hook point has the same order
      ([boot_order]).
    - Extensions.  The token bucket of limit never exceeds its rate ([limit_rate_bound])
      and serves traffic below it (the lemma [limit_passes]), the MSS of a SYN is set or
      clamped as the rule says ([tcpmss_clamp]); port lists mean what they say (the lemma [multiport_v1_spec]).
    - The firewall.  INPUT accepts a packet exactly when it comes from the loopback or
      LAN device or belongs to an existing connection ([firewall_input]); the verdict of
      FORWARD is exact ([firewall_forward]): it accepts new connections from the WAN to
      the LAN, although the script announces that they are disabled.  Through
      all hooks together, the first packet of a LAN connection without a helper leaves with
      the router's address and its connection is entered ([lan_departs]), and an answer,
      also one that ends the connection, comes in with the address of the host behind the
      router and is forwarded ([answer_delivered]).
    - Slips of the code, each proved of the model as it is: [shnat_rst_unchecked],
      [window_bound_refused], [cleanup_spins],
      [sack_perm_reopens], [shnat_fin_ack_invalid], [tcp_options_partial_oob],
      [tcp_sack_fast_path_dead], [limit_idle_overflow], [unique_tuple_misses_port],
      [udp_checksum_lost], [icmp_range_byte_order], [self_symmetric_seen_reply],
      [jump_followed_before_check], [update_nl_slot], [shnat_port_zero],
      [irc_reads_past_end], [register_existing_leaks], [reinject_stop_lost],
      [queue_without_rerouter], [snmp_loops], [snmp_null_pointer], [snmp_counter64_refused],
      [snmp_checksum_lost], [snmp_leaks].

    ** Conventions, bounds and fuel

    Integers keep the width of the C code: each result that C reduces is wrapped by
    [u8], [u16] or [u32].  A header field is the value the core loads, in network byte
    order.  [None] stands for behaviour the C code must not show (a [BUG_ON], a read
    outside the buffer, an uninitialised value) or for missing fuel; the theorems prove
    [Some] under the stated well-formedness.  Fuel bounds a loop that is not structural:
    - option parsers take the length of the options, of which every turn uses a byte;
    - [unique_loop] takes the size of the port range, as the C loop counts;
    - [mark_source_chains] and [ipt_do_table] take any number of turns; the theorems
      give, for each table, a number that suffices, and for the tables of the firmware
      the theorems on the hooks name it;
    - the iteration over a blob in [IptReplace] takes as many turns as it has entries;
    - [nf_iterate] and the loop of [nf_hook_slow] take a turn for each hook called, a
      repeated one (NF_REPEAT) again; the firmware's hooks need at most 8 at one hook point
      (the lemma [hook_gives]);
    - [ip_ct_iterate_cleanup] needs one turn more than there are connections
      ([cleanup_spec]);
    - [ip_evictor] takes one turn more than the LRU list is long, of which every turn
      removes a queue ([frag_run_safe]);
    - [assign_port_loop] takes 65536 turns, after which its 16-bit counter is 0; [utoa]
      takes 10, the digits of a 32-bit number; [dcc_loop] takes the length of the payload;
    - the loops of the BER decoder take the length of the message, of which every turn uses
      an octet; the loop over the variables needs one turn more than there are
      ([snmp_translates]), and no number is enough for some messages ([snmp_loops]).
    The code runs with interrupts enabled on one core; an operation of the tracker under
    [ip_conntrack_lock] is one step, and the references a packet holds across steps are
    explicit in [CtSteps.ct_step].

    ** Parameters

    Allocation failures, the random part of the hash, the current time, the helper that
    the tracker calls, the room behind a packet and whether it can be copied, the route and
    the address of a device ([inet_select_addr]), the reroute after
    NAT and the hardware NAT of the STR9100 (a module that is not in the tree) are
    fields of [ct_env], [fw_world], [frag_env], [ftp_env] and [irc_env] or arguments of
    the definitions.  So are, for the tables, the registered extensions and live modules
    ([xt_env]) and the outcome of copies and allocations of a call ([syscall]), for the
    hooks the allocations that fail and the modules that are alive ([nf_env]), and the
    reroute of the mangle table.

    ** Not modelled

    The helper for PPTP (those for RTSP and H.323 are not in the tree), registration of
    extensions and the query for their revisions, the error exits of the modules' set-up,
    resizing of the connection table, the /proc interfaces, [nf_sockopt.c] and [nf_log.c],
    netlink attributes (not compiled in), what the helpers write to the log, the other
    matches and targets, the command line of [iptables] except for interface
    names, and everything of the kernel and user space that the packet path does not
    call. *)

From stdpp Require Export base tactics list gmap numbers option.
From Stdlib Require Export ZArith Lia Bool.

#[global] Open Scope Z_scope.

(** ** Record update

    [r <| f := v |>] is [r] with field [f] set to [v]; the instances are
    declared next to each record. *)
Class Update {R T} (proj : R → T) := update : T → R → R.
Declare Scope fvs_scope.
Notation "r <| f := v |>" := (update (proj:=f) v r)
  (at level 1, left associativity, f at level 9, v at level 200) : fvs_scope.
#[global] Open Scope fvs_scope.

(** ** Machine words

    An unsigned C integer of width [w] is a [Z] in [[0, 2^w)]; every arithmetic
    result that C reduces modulo [2^w] is wrapped explicitly by [u8], [u16],
    [u32] or [u64].  [s32] is the conversion to a signed 32-bit integer. *)
Definition u8 (x : Z) : Z := x mod 256.
Definition u16 (x : Z) : Z := x mod 65536.
Definition u32 (x : Z) : Z := x mod 4294967296.
Definition u64 (x : Z) : Z := x mod 18446744073709551616.
Definition s32 (x : Z) : Z :=
  if u32 x <? 2147483648 then u32 x else u32 x - 4294967296.

#[global] Arguments u8 : simpl never.
#[global] Arguments u16 : simpl never.
#[global] Arguments u32 : simpl never.
#[global] Arguments u64 : simpl never.
#[global] Arguments s32 : simpl never.

Definition is_u8 (x : Z) : Prop := 0 <= x < 256.
Definition is_u16 (x : Z) : Prop := 0 <= x < 65536.
Definition is_u32 (x : Z) : Prop := 0 <= x < 4294967296.

(** [if (flags & mask)]: some bit of [mask] is set in [x]. *)
Definition flag (x mask : Z) : bool := negb (Z.land x mask =? 0).

(** ** Arithmetic automation *)

Ltac Zify.zify_post_hook ::= Z.to_euclidean_division_equations.

(** [word_lia] is [lia] with the word operations unfolded and the boolean
    comparisons under [if] decided. *)
Ltac word_lia := unfold s32, u8, u16, u32, u64, is_u8, is_u16, is_u32 in *;
  repeat match goal with
         | |- context [if ?a <? ?b then _ else _] => destruct (Z.ltb_spec a b)
         | H : context [if ?a <? ?b then _ else _] |- _ => destruct (Z.ltb_spec a b)
         end; lia.

(** [case_bool] splits the conditionals of the goal on their boolean guards. *)
Ltac case_bool :=
  repeat match goal with
         | |- context [if ?b then _ else _] =>
             lazymatch b with
             | context [if _ then _ else _] => fail
             | _ => let E := fresh "E" in destruct b eqn:E
             end
         end.

Create HintDb words.
Create Rewrite HintDb words.

Lemma u8_range x : is_u8 (u8 x).
Proof. word_lia. Qed.
Lemma u16_range x : is_u16 (u16 x).
Proof. word_lia. Qed.
Lemma u32_range x : is_u32 (u32 x).
Proof. word_lia. Qed.
#[export] Hint Resolve u8_range u16_range u32_range : words.

Lemma u32_id x : is_u32 x → u32 x = x.
Proof. word_lia. Qed.
Lemma u32_idem x : u32 (u32 x) = u32 x.
Proof. word_lia. Qed.
Lemma u32_add_l x y : u32 (u32 x + y) = u32 (x + y).
Proof. word_lia. Qed.
Lemma u32_add_r x y : u32 (x + u32 y) = u32 (x + y).
Proof. word_lia. Qed.
#[export] Hint Rewrite u32_idem u32_add_l u32_add_r : words.

Lemma flag_testbit x n : 0 <= n → flag x (2 ^ n) = Z.testbit x n.
Proof.
  intros Hn. unfold flag. destruct (Z.testbit x n) eqn:E.
  - apply negb_true_iff, Z.eqb_neq. intros H.
    assert (Z.testbit (Z.land x (2 ^ n)) n = true) as Hb.
    { by rewrite Z.land_spec, E, Z.pow2_bits_true. }
    rewrite H, Z.bits_0 in Hb. done.
  - apply negb_false_iff, Z.eqb_eq, Z.bits_inj_iff. intros m.
    rewrite Z.land_spec, Z.bits_0, Z.pow2_bits_eqb by done.
    destruct (Z.eqb_spec n m); subst; [by rewrite E | apply andb_false_r].
Qed.

(** Bits that do not overlap. *)
Lemma lor_add a b k : 0 <= k → a mod 2 ^ k = 0 → 0 <= b < 2 ^ k → Z.lor a b = a + b.
Proof.
  intros Hk Ha Hb. assert (Z.land a b = 0) as H0; [|pose proof (Z.add_lor_land a b); lia].
  apply Z.bits_inj'. intros i Hi. rewrite Z.land_spec, Z.bits_0. destruct (Z.ltb_spec i k).
  - rewrite <- (Z.mod_pow2_bits_low a k i) by lia. by rewrite Ha, Z.bits_0.
  - replace b with (b mod 2 ^ k) by (by apply Z.mod_small). by rewrite Z.mod_pow2_bits_high, andb_false_r by lia.
Qed.

(** ** Counting references *)

(** The reference that one use is. *)
Definition one {Q} `{EqDecision Q} (me : option Q) (q : Q) : Z := if bool_decide (me = Some q) then 1 else 0.

Fixpoint sum_refs {A Q} (f : A → Q → Z) (l : list A) (q : Q) : Z :=
  match l with [] => 0 | a :: l => f a q + sum_refs f l q end.

Lemma sum_refs_app {A Q} (f : A → Q → Z) l k q : sum_refs f (l ++ k) q = sum_refs f l q + sum_refs f k q.
Proof. induction l as [|a l IH]; cbn [sum_refs app]; [done|]. rewrite IH. lia. Qed.

Lemma sum_refs_fmap {A B Q} (g : A → B) (f : B → Q → Z) l q : sum_refs f (g <$> l) q = sum_refs (λ a, f (g a)) l q.
Proof. induction l as [|a l IH]; cbn [sum_refs fmap list_fmap]; [done|]. by rewrite IH. Qed.

Lemma sum_refs_insert {A Q} (f : A → Q → Z) l i a b q : l !! i = Some a →
  sum_refs f (<[i := b]> l) q = sum_refs f l q - f a q + f b q.
Proof.
  revert i. induction l as [|c l IH]; intros [|i] Hi; [done..| |].
  - injection Hi as ->. cbn [insert list_insert sum_refs]. lia.
  - change (<[S i := b]> (c :: l)) with (c :: <[i := b]> l). cbn [sum_refs]. rewrite (IH i Hi). lia.
Qed.

Lemma sum_refs_delete {A Q} (f : A → Q → Z) l i a q : l !! i = Some a →
  sum_refs f (delete i l) q = sum_refs f l q - f a q.
Proof.
  revert i. induction l as [|c l IH]; intros [|i] Hi; [done..| |].
  - injection Hi as ->. cbn [delete list_delete sum_refs]. lia.
  - change (delete (S i) (c :: l)) with (c :: delete i l). cbn [sum_refs]. rewrite (IH i Hi). lia.
Qed.
