(* ===== verification/Packet.v ===== *)
(** * Packets: byte buffers, IP/TCP/UDP/ICMP headers and [struct sk_buff]

    A packet is the list of its bytes starting at the network header, which is
    where [skb->data] points at the netfilter hooks.  A header field is held as
    the integer the little-endian ARM core loads from memory, i.e. still in
    network byte order; [ntohs]/[ntohl] convert it exactly where the C code
    does. *)
From S2P Require Import Prelude.

(** ** Byte order: [include/linux/byteorder/swab.h] on a little-endian core *)
Definition swab16 (x : Z) : Z := (x mod 256) * 256 + (x / 256) mod 256.
Definition swab32 (x : Z) : Z :=
  (x mod 256) * 16777216 + ((x / 256) mod 256) * 65536
  + ((x / 65536) mod 256) * 256 + (x / 16777216) mod 256.
#[global] Arguments swab16 : simpl never.
#[global] Arguments swab32 : simpl never.
Definition ntohs := swab16.
Definition htons (x : Z) := swab16 (u16 x).
Definition ntohl := swab32.
Definition htonl (x : Z) := swab32 (u32 x).

Lemma swab16_involutive x : is_u16 x → swab16 (swab16 x) = x.
Proof. unfold swab16; word_lia. Qed.
Lemma swab16_range x : is_u16 (swab16 x).
Proof. unfold swab16; word_lia. Qed.
Lemma swab32_range x : is_u32 (swab32 x).
Proof. unfold swab32; word_lia. Qed.

(** The four bytes of a 32-bit word are recovered from their combination. *)
Lemma bytes4 a b c d :
  is_u8 a → is_u8 b → is_u8 c → is_u8 d →
  let w := a * 16777216 + b * 65536 + c * 256 + d in
  w mod 256 = d ∧ (w / 256) mod 256 = c ∧ (w / 65536) mod 256 = b ∧
  (w / 16777216) mod 256 = a.
Proof. intros; subst w; repeat split; word_lia. Qed.

Lemma swab32_involutive x : is_u32 x → swab32 (swab32 x) = x.
Proof.
  intros Hx. unfold swab32.
  destruct (bytes4 (x mod 256) ((x / 256) mod 256) ((x / 65536) mod 256)
              ((x / 16777216) mod 256)) as (-> & -> & -> & ->); try word_lia.
Qed.

Lemma ntohs_htons x : is_u16 x → ntohs (htons x) = x.
Proof. intros. unfold ntohs, htons. rewrite swab16_involutive; word_lia. Qed.
Lemma htons_ntohs x : is_u16 x → htons (ntohs x) = x.
Proof.
  intros. unfold ntohs, htons. pose proof (swab16_range x).
  replace (u16 (swab16 x)) with (swab16 x) by word_lia. by apply swab16_involutive.
Qed.
Lemma ntohl_htonl x : is_u32 x → ntohl (htonl x) = x.
Proof.
  intros. unfold ntohl, htonl. rewrite u32_id by done. by apply swab32_involutive.
Qed.
Lemma ntohs_range x : is_u16 (ntohs x).
Proof. apply swab16_range. Qed.
Lemma ntohl_range x : is_u32 (ntohl x).
Proof. apply swab32_range. Qed.
#[export] Hint Resolve swab16_range swab32_range ntohs_range ntohl_range : words.
#[global] Arguments ntohs : simpl never.
#[global] Arguments ntohl : simpl never.
#[global] Arguments htons : simpl never.
#[global] Arguments htonl : simpl never.

(** ** Loads and stores at a byte offset *)
Definition ld8 (d : list Z) (o : Z) : Z := default 0 (d !! Z.to_nat o).
Definition ld16 (d : list Z) (o : Z) : Z := ld8 d o + 256 * ld8 d (o + 1).
Definition ld32 (d : list Z) (o : Z) : Z := ld16 d o + 65536 * ld16 d (o + 2).
Definition st8 (o v : Z) (d : list Z) : list Z := <[Z.to_nat o := u8 v]> d.
Definition st16 (o v : Z) (d : list Z) : list Z :=
  st8 (o + 1) (v / 256) (st8 o v d).
Definition st32 (o v : Z) (d : list Z) : list Z :=
  st16 (o + 2) (v / 65536) (st16 o v d).

(** ** Headers *)
Record iphdr := mk_iphdr {
  ihl : Z; tos : Z; tot_len : Z; frag_off : Z; ttl : Z;
  protocol : Z; ip_check : Z; saddr : Z; daddr : Z }.

Definition iphdr_at (d : list Z) (o : Z) : iphdr :=
  mk_iphdr (Z.land (ld8 d o) 15) (ld8 d (o + 1)) (ld16 d (o + 2))
    (ld16 d (o + 6)) (ld8 d (o + 8)) (ld8 d (o + 9)) (ld16 d (o + 10))
    (ld32 d (o + 12)) (ld32 d (o + 16)).

(** [th_flags] is byte 13 of the header: the bit-fields [fin] to [cwr]. *)
Record tcphdr := mk_tcphdr {
  th_source : Z; th_dest : Z; th_seq : Z; th_ack_seq : Z; th_doff : Z;
  th_flags : Z; th_window : Z; th_check : Z }.

Definition TH_FIN := 1.
Definition TH_SYN := 2.
Definition TH_RST := 4.
Definition TH_PUSH := 8.
Definition TH_ACK := 16.
Definition TH_URG := 32.
Definition TH_ECE := 64.
Definition TH_CWR := 128.
Definition th_fin (t : tcphdr) : bool := Z.testbit (th_flags t) 0.
Definition th_syn (t : tcphdr) : bool := Z.testbit (th_flags t) 1.
Definition th_rst (t : tcphdr) : bool := Z.testbit (th_flags t) 2.
Definition th_ack (t : tcphdr) : bool := Z.testbit (th_flags t) 4.

Definition tcphdr_at (d : list Z) (o : Z) : tcphdr :=
  mk_tcphdr (ld16 d o) (ld16 d (o + 2)) (ld32 d (o + 4)) (ld32 d (o + 8))
    (Z.shiftr (ld8 d (o + 12)) 4) (ld8 d (o + 13)) (ld16 d (o + 14))
    (ld16 d (o + 16)).

Record udphdr := mk_udphdr { uh_source : Z; uh_dest : Z; uh_len : Z; uh_check : Z }.

Definition udphdr_at (d : list Z) (o : Z) : udphdr :=
  mk_udphdr (ld16 d o) (ld16 d (o + 2)) (ld16 d (o + 4)) (ld16 d (o + 6)).

Record icmphdr := mk_icmphdr {
  icmp_type : Z; icmp_code : Z; icmp_checksum : Z; icmp_id : Z }.

Definition icmphdr_at (d : list Z) (o : Z) : icmphdr :=
  mk_icmphdr (ld8 d o) (ld8 d (o + 1)) (ld16 d (o + 2)) (ld16 d (o + 4)).

(** ** Socket buffers

    [nfct] is the conntrack the buffer refers to, as the key of the conntrack
    in the tracker's store ([NULL] is [None]). *)
Definition CHECKSUM_NONE := 0.
Definition CHECKSUM_HW := 1.
Definition CHECKSUM_UNNECESSARY := 2.

Record sk_buff := mk_skb {
  data : list Z; ip_summed : Z; csum : Z;
  nfct : option positive; nfctinfo : Z; nfmark : Z; pkt_type : Z }.

#[export] Instance upd_data : Update data := λ v s,
  mk_skb v (ip_summed s) (csum s) (nfct s) (nfctinfo s) (nfmark s) (pkt_type s).
#[export] Instance upd_ip_summed : Update ip_summed := λ v s,
  mk_skb (data s) v (csum s) (nfct s) (nfctinfo s) (nfmark s) (pkt_type s).
#[export] Instance upd_csum : Update csum := λ v s,
  mk_skb (data s) (ip_summed s) v (nfct s) (nfctinfo s) (nfmark s) (pkt_type s).
#[export] Instance upd_nfct : Update nfct := λ v s,
  mk_skb (data s) (ip_summed s) (csum s) v (nfctinfo s) (nfmark s) (pkt_type s).
#[export] Instance upd_nfctinfo : Update nfctinfo := λ v s,
  mk_skb (data s) (ip_summed s) (csum s) (nfct s) v (nfmark s) (pkt_type s).
#[export] Instance upd_nfmark : Update nfmark := λ v s,
  mk_skb (data s) (ip_summed s) (csum s) (nfct s) (nfctinfo s) v (pkt_type s).

Definition skb_len (s : sk_buff) : Z := Z.of_nat (length (data s)).
Definition skb_iph (s : sk_buff) : iphdr := iphdr_at (data s) 0.

(** [skb_header_pointer]: the [len] bytes at [offset], or [NULL] when the
    packet is too short. *)
Definition skb_header_pointer (s : sk_buff) (offset len : Z) : option (list Z) :=
  if offset + len <=? skb_len s
  then Some (take (Z.to_nat len) (drop (Z.to_nat offset) (data s))) else None.

(** ** Internet checksum: [include/asm-arm/checksum.h]

    [csum_add] is one link of the [adds]/[adcs]/[adc] chains: 32-bit addition
    with end-around carry. *)
Definition csum_add (a b : Z) : Z := u32 (a + b) + (a + b) / 4294967296.

Fixpoint csum_partial (buf : list Z) (sum : Z) : Z :=
  match buf with
  | a :: b :: c :: d :: r =>
      csum_partial r (csum_add sum (a + 256 * b + 65536 * c + 16777216 * d))
  | [a; b; c] => csum_add (csum_add sum (a + 256 * b)) c
  | [a; b] => csum_add sum (a + 256 * b)
  | [a] => csum_add sum a
  | [] => sum
  end.

Definition csum_fold (sum : Z) : Z :=
  let t := sum + u32 (sum * 65536) in
  let s := if 4294967296 <=? t then u32 (t + 65536) else t in
  (4294967295 - s) / 65536.

Definition csum_tcpudp_magic (sa da len proto sum : Z) : Z :=
  csum_fold (csum_add (csum_add (csum_add (csum_add sum da) sa) (ntohs (u16 len)))
               (ntohs proto)).

Definition skb_checksum (s : sk_buff) (offset len sum : Z) : Z :=
  csum_partial (take (Z.to_nat len) (drop (Z.to_nat offset) (data s))) sum.

(** ** Concrete packets, for the examples and witnesses *)
Definition be16 (x : Z) : list Z := [x / 256 mod 256; x mod 256].
Definition be32 (x : Z) : list Z := be16 (x / 65536) ++ be16 (x mod 65536).

Definition ip_pkt (proto sa da : Z) (body : list Z) : sk_buff :=
  mk_skb ([69; 0] ++ be16 (20 + Z.of_nat (length body)) ++ [0; 0; 0; 0; 64; proto; 0; 0]
          ++ be32 sa ++ be32 da ++ body) CHECKSUM_UNNECESSARY 0 None 0 0 0.

Definition tcp_pkt (sa da sp dp seq ack flags win : Z) (opts payload : list Z) : sk_buff :=
  ip_pkt 6 sa da
    (be16 sp ++ be16 dp ++ be32 seq ++ be32 ack
     ++ [(5 + Z.of_nat (length opts) / 4) * 16; flags] ++ be16 win ++ [0; 0; 0; 0]
     ++ opts ++ payload).
