(* ===== verification/CtBase.v ===== *)
(** * Connection tracking data: tuples, [struct ip_conntrack], timers

    [include/linux/netfilter_ipv4/ip_conntrack_tuple.h], [ip_conntrack.h],
    [include/linux/netfilter/nf_conntrack_common.h], [nf_conntrack_tcp.h] and
    the timer/accounting part of [net/ipv4/netfilter/ip_conntrack_core.c]. *)
From S2P Require Import Prelude Packet.

(** ** Directions and packet classification *)
Inductive ip_conntrack_dir := IP_CT_DIR_ORIGINAL | IP_CT_DIR_REPLY.
#[export] Instance ip_conntrack_dir_eq_dec : EqDecision ip_conntrack_dir.
Proof. solve_decision. Defined.

Definition dir_neg (d : ip_conntrack_dir) : ip_conntrack_dir :=
  match d with
  | IP_CT_DIR_ORIGINAL => IP_CT_DIR_REPLY
  | IP_CT_DIR_REPLY => IP_CT_DIR_ORIGINAL
  end.
Definition dir_eqb (a b : ip_conntrack_dir) : bool := bool_decide (a = b).

(** [enum ip_conntrack_info]; a value of at least [IP_CT_IS_REPLY] is a packet
    of the reply direction. *)
Definition IP_CT_ESTABLISHED := 0.
Definition IP_CT_RELATED := 1.
Definition IP_CT_NEW := 2.
Definition IP_CT_IS_REPLY := 3.
Definition CTINFO2DIR (ctinfo : Z) : ip_conntrack_dir :=
  if IP_CT_IS_REPLY <=? ctinfo then IP_CT_DIR_REPLY else IP_CT_DIR_ORIGINAL.

(** Hook numbers and verdicts ([netfilter.h], [netfilter_ipv4.h]). *)
Definition NF_DROP := 0.
Definition NF_ACCEPT := 1.
Definition NF_STOLEN := 2.
Definition NF_QUEUE := 3.
Definition NF_REPEAT := 4.
Definition NF_STOP := 5.
Definition NF_MAX_VERDICT := NF_STOP.
Definition NF_IP_PRE_ROUTING := 0.
Definition NF_IP_LOCAL_IN := 1.
Definition NF_IP_FORWARD := 2.
Definition NF_IP_LOCAL_OUT := 3.
Definition NF_IP_POST_ROUTING := 4.
Definition NF_IP_NUMHOOKS := 5.

Definition IPPROTO_ICMP := 1.
Definition IPPROTO_TCP := 6.
Definition IPPROTO_UDP := 17.

(** [IP_OFFSET]: the fragment-offset part of [frag_off], host order. *)
Definition IP_OFFSET := 8191.

(** ** Status bits *)
Definition IPS_EXPECTED_BIT := 0.
Definition IPS_SEEN_REPLY_BIT := 1.
Definition IPS_ASSURED_BIT := 2.
Definition IPS_CONFIRMED_BIT := 3.
Definition IPS_SRC_NAT_BIT := 4.
Definition IPS_DST_NAT_BIT := 5.
Definition IPS_SEQ_ADJUST_BIT := 6.
Definition IPS_SRC_NAT_DONE_BIT := 7.
Definition IPS_DST_NAT_DONE_BIT := 8.
Definition IPS_DYING_BIT := 9.
Definition IPS_SRC_NAT := 16.
Definition IPS_DST_NAT := 32.
Definition IPS_NAT_MASK := 48.
Definition IPS_NAT_DONE_MASK := 384.

(** ** Tuples

    The unions [src.u] and [dst.u] are their 16-bit view [all]; for ICMP the
    low byte of [dst.u] is the type and the high byte the code. *)
Record ip_conntrack_tuple := mk_tuple {
  src_ip : Z; src_u : Z; dst_ip : Z; dst_u : Z; protonum : Z;
  dst_dir : ip_conntrack_dir }.
#[export] Instance ip_conntrack_tuple_eq_dec : EqDecision ip_conntrack_tuple.
Proof. solve_decision. Defined.

#[export] Instance upd_src_ip : Update src_ip := λ v t,
  mk_tuple v (src_u t) (dst_ip t) (dst_u t) (protonum t) (dst_dir t).
#[export] Instance upd_src_u : Update src_u := λ v t,
  mk_tuple (src_ip t) v (dst_ip t) (dst_u t) (protonum t) (dst_dir t).
#[export] Instance upd_dst_ip : Update dst_ip := λ v t,
  mk_tuple (src_ip t) (src_u t) v (dst_u t) (protonum t) (dst_dir t).
#[export] Instance upd_dst_u : Update dst_u := λ v t,
  mk_tuple (src_ip t) (src_u t) (dst_ip t) v (protonum t) (dst_dir t).

Definition tuple_icmp_type (t : ip_conntrack_tuple) : Z := (dst_u t) mod 256.
Definition tuple_icmp_code (t : ip_conntrack_tuple) : Z := (dst_u t) / 256.

Definition ip_ct_tuple_src_equal (t1 t2 : ip_conntrack_tuple) : bool :=
  (src_ip t1 =? src_ip t2) && (src_u t1 =? src_u t2).

Definition ip_ct_tuple_dst_equal (t1 t2 : ip_conntrack_tuple) : bool :=
  (dst_ip t1 =? dst_ip t2) && (dst_u t1 =? dst_u t2) && (protonum t1 =? protonum t2).

Definition ip_ct_tuple_equal (t1 t2 : ip_conntrack_tuple) : bool :=
  ip_ct_tuple_src_equal t1 t2 && ip_ct_tuple_dst_equal t1 t2.

Definition ip_ct_tuple_mask_cmp (t tuple mask : ip_conntrack_tuple) : bool :=
  negb (flag (Z.lxor (src_ip t) (src_ip tuple)) (src_ip mask)
        || flag (Z.lxor (dst_ip t) (dst_ip tuple)) (dst_ip mask)
        || flag (Z.lxor (src_u t) (src_u tuple)) (src_u mask)
        || flag (Z.lxor (dst_u t) (dst_u tuple)) (dst_u mask)
        || flag (Z.lxor (protonum t) (protonum tuple)) (protonum mask)).

(** ** Per-direction TCP window state and the TCP part of a conntrack *)
Inductive tcp_conntrack :=
  | TCP_CONNTRACK_NONE
  | TCP_CONNTRACK_SYN_SENT
  | TCP_CONNTRACK_SYN_RECV
  | TCP_CONNTRACK_ESTABLISHED
  | TCP_CONNTRACK_FIN_WAIT
  | TCP_CONNTRACK_CLOSE_WAIT
  | TCP_CONNTRACK_LAST_ACK
  | TCP_CONNTRACK_TIME_WAIT
  | TCP_CONNTRACK_CLOSE
  | TCP_CONNTRACK_LISTEN
  | TCP_CONNTRACK_MAX
  | TCP_CONNTRACK_IGNORE.
#[export] Instance tcp_conntrack_eq_dec : EqDecision tcp_conntrack.
Proof. solve_decision. Defined.

(** The value of the enumerator. *)
Definition tcp_conntrack_val (s : tcp_conntrack) : nat :=
  match s with
  | TCP_CONNTRACK_NONE => 0 | TCP_CONNTRACK_SYN_SENT => 1
  | TCP_CONNTRACK_SYN_RECV => 2 | TCP_CONNTRACK_ESTABLISHED => 3
  | TCP_CONNTRACK_FIN_WAIT => 4 | TCP_CONNTRACK_CLOSE_WAIT => 5
  | TCP_CONNTRACK_LAST_ACK => 6 | TCP_CONNTRACK_TIME_WAIT => 7
  | TCP_CONNTRACK_CLOSE => 8 | TCP_CONNTRACK_LISTEN => 9
  | TCP_CONNTRACK_MAX => 10 | TCP_CONNTRACK_IGNORE => 11
  end.

Record ip_ct_tcp_state := mk_ts {
  td_end : Z; td_maxend : Z; td_maxwin : Z; td_scale : Z; loose : Z; ts_flags : Z }.

#[export] Instance upd_td_end : Update td_end := λ v s,
  mk_ts v (td_maxend s) (td_maxwin s) (td_scale s) (loose s) (ts_flags s).
#[export] Instance upd_td_maxend : Update td_maxend := λ v s,
  mk_ts (td_end s) v (td_maxwin s) (td_scale s) (loose s) (ts_flags s).
#[export] Instance upd_td_maxwin : Update td_maxwin := λ v s,
  mk_ts (td_end s) (td_maxend s) v (td_scale s) (loose s) (ts_flags s).
#[export] Instance upd_td_scale : Update td_scale := λ v s,
  mk_ts (td_end s) (td_maxend s) (td_maxwin s) v (loose s) (ts_flags s).
#[export] Instance upd_loose : Update loose := λ v s,
  mk_ts (td_end s) (td_maxend s) (td_maxwin s) (td_scale s) v (ts_flags s).
#[export] Instance upd_ts_flags : Update ts_flags := λ v s,
  mk_ts (td_end s) (td_maxend s) (td_maxwin s) (td_scale s) (loose s) v.

(** [enum tcp_bit_set] *)
Inductive tcp_bit_set :=
  TCP_SYN_SET | TCP_SYNACK_SET | TCP_FIN_SET | TCP_ACK_SET | TCP_RST_SET | TCP_NONE_SET.
#[export] Instance tcp_bit_set_eq_dec : EqDecision tcp_bit_set.
Proof. solve_decision. Defined.
Definition tcp_bit_set_val (i : tcp_bit_set) : nat :=
  match i with
  | TCP_SYN_SET => 0 | TCP_SYNACK_SET => 1 | TCP_FIN_SET => 2
  | TCP_ACK_SET => 3 | TCP_RST_SET => 4 | TCP_NONE_SET => 5
  end.

Record ip_ct_tcp := mk_tcp {
  seen0 : ip_ct_tcp_state; seen1 : ip_ct_tcp_state;
  tcp_st : tcp_conntrack; last_dir : ip_conntrack_dir; retrans : Z;
  last_index : tcp_bit_set; last_seq : Z; last_ack : Z; last_end : Z }.

#[export] Instance upd_seen0 : Update seen0 := λ v t,
  mk_tcp v (seen1 t) (tcp_st t) (last_dir t) (retrans t) (last_index t) (last_seq t)
    (last_ack t) (last_end t).
#[export] Instance upd_seen1 : Update seen1 := λ v t,
  mk_tcp (seen0 t) v (tcp_st t) (last_dir t) (retrans t) (last_index t) (last_seq t)
    (last_ack t) (last_end t).
#[export] Instance upd_tcp_st : Update tcp_st := λ v t,
  mk_tcp (seen0 t) (seen1 t) v (last_dir t) (retrans t) (last_index t) (last_seq t)
    (last_ack t) (last_end t).
#[export] Instance upd_last_dir : Update last_dir := λ v t,
  mk_tcp (seen0 t) (seen1 t) (tcp_st t) v (retrans t) (last_index t) (last_seq t)
    (last_ack t) (last_end t).
#[export] Instance upd_retrans : Update retrans := λ v t,
  mk_tcp (seen0 t) (seen1 t) (tcp_st t) (last_dir t) v (last_index t) (last_seq t)
    (last_ack t) (last_end t).
#[export] Instance upd_last_index : Update last_index := λ v t,
  mk_tcp (seen0 t) (seen1 t) (tcp_st t) (last_dir t) (retrans t) v (last_seq t)
    (last_ack t) (last_end t).
#[export] Instance upd_last_seq : Update last_seq := λ v t,
  mk_tcp (seen0 t) (seen1 t) (tcp_st t) (last_dir t) (retrans t) (last_index t) v
    (last_ack t) (last_end t).
#[export] Instance upd_last_ack : Update last_ack := λ v t,
  mk_tcp (seen0 t) (seen1 t) (tcp_st t) (last_dir t) (retrans t) (last_index t)
    (last_seq t) v (last_end t).
#[export] Instance upd_last_end : Update last_end := λ v t,
  mk_tcp (seen0 t) (seen1 t) (tcp_st t) (last_dir t) (retrans t) (last_index t)
    (last_seq t) (last_ack t) v.

(** [seen[dir]] as an lvalue. *)
Definition seen (t : ip_ct_tcp) (d : ip_conntrack_dir) : ip_ct_tcp_state :=
  match d with IP_CT_DIR_ORIGINAL => seen0 t | IP_CT_DIR_REPLY => seen1 t end.
Definition set_seen (d : ip_conntrack_dir) (s : ip_ct_tcp_state) (t : ip_ct_tcp) : ip_ct_tcp :=
  match d with
  | IP_CT_DIR_ORIGINAL => t <| seen0 := s |>
  | IP_CT_DIR_REPLY => t <| seen1 := s |>
  end.

(** ** Timers *)
Record timer := mk_timer { pending : bool; expires : Z }.
#[export] Instance upd_pending : Update pending := λ v t, mk_timer v (expires t).
#[export] Instance upd_expires : Update expires := λ v t, mk_timer (pending t) v.

(** ** [struct ip_conntrack]

    [proto] is a union in C; a conntrack of one protocol only ever uses its own
    member, so the members the trackers use are separate fields here.
    [nat_seq0]/[nat_seq1] are [nat.info.seq[]]. *)
Record ip_nat_seq := mk_nseq { correction_pos : Z; offset_before : Z; offset_after : Z }.

Record ip_conntrack := mk_ct {
  ct_use : Z; status : Z; timeout : timer;
  packets0 : Z; bytes0 : Z; packets1 : Z; bytes1 : Z;
  ct_master : option positive; expecting : Z; ct_id : Z; ct_helper : option positive;
  proto_tcp : ip_ct_tcp; icmp_count : Z;
  nat_seq0 : ip_nat_seq; nat_seq1 : ip_nat_seq; masq_index : Z; ct_mark : Z;
  tuple_orig : ip_conntrack_tuple; tuple_reply : ip_conntrack_tuple }.

#[export] Instance upd_ct_use : Update ct_use := λ v c,
  mk_ct v (status c) (timeout c) (packets0 c) (bytes0 c) (packets1 c) (bytes1 c)
    (ct_master c) (expecting c) (ct_id c) (ct_helper c) (proto_tcp c) (icmp_count c)
    (nat_seq0 c) (nat_seq1 c) (masq_index c) (ct_mark c) (tuple_orig c) (tuple_reply c).
#[export] Instance upd_status : Update status := λ v c,
  mk_ct (ct_use c) v (timeout c) (packets0 c) (bytes0 c) (packets1 c) (bytes1 c)
    (ct_master c) (expecting c) (ct_id c) (ct_helper c) (proto_tcp c) (icmp_count c)
    (nat_seq0 c) (nat_seq1 c) (masq_index c) (ct_mark c) (tuple_orig c) (tuple_reply c).
#[export] Instance upd_timeout : Update timeout := λ v c,
  mk_ct (ct_use c) (status c) v (packets0 c) (bytes0 c) (packets1 c) (bytes1 c) (ct_master
    c) (expecting c) (ct_id c) (ct_helper c) (proto_tcp c) (icmp_count c) (nat_seq0 c)
    (nat_seq1 c) (masq_index c) (ct_mark c) (tuple_orig c) (tuple_reply c).
#[export] Instance upd_packets0 : Update packets0 := λ v c,
  mk_ct (ct_use c) (status c) (timeout c) v (bytes0 c) (packets1 c) (bytes1 c) (ct_master
    c) (expecting c) (ct_id c) (ct_helper c) (proto_tcp c) (icmp_count c) (nat_seq0 c)
    (nat_seq1 c) (masq_index c) (ct_mark c) (tuple_orig c) (tuple_reply c).
#[export] Instance upd_bytes0 : Update bytes0 := λ v c,
  mk_ct (ct_use c) (status c) (timeout c) (packets0 c) v (packets1 c) (bytes1 c)
    (ct_master c) (expecting c) (ct_id c) (ct_helper c) (proto_tcp c) (icmp_count c)
    (nat_seq0 c) (nat_seq1 c) (masq_index c) (ct_mark c) (tuple_orig c) (tuple_reply c).
#[export] Instance upd_packets1 : Update packets1 := λ v c,
  mk_ct (ct_use c) (status c) (timeout c) (packets0 c) (bytes0 c) v (bytes1 c) (ct_master
    c) (expecting c) (ct_id c) (ct_helper c) (proto_tcp c) (icmp_count c) (nat_seq0 c)
    (nat_seq1 c) (masq_index c) (ct_mark c) (tuple_orig c) (tuple_reply c).
#[export] Instance upd_bytes1 : Update bytes1 := λ v c,
  mk_ct (ct_use c) (status c) (timeout c) (packets0 c) (bytes0 c) (packets1 c) v
    (ct_master c) (expecting c) (ct_id c) (ct_helper c) (proto_tcp c) (icmp_count c)
    (nat_seq0 c) (nat_seq1 c) (masq_index c) (ct_mark c) (tuple_orig c) (tuple_reply c).
#[export] Instance upd_ct_master : Update ct_master := λ v c,
  mk_ct (ct_use c) (status c) (timeout c) (packets0 c) (bytes0 c) (packets1 c) (bytes1 c)
    v (expecting c) (ct_id c) (ct_helper c) (proto_tcp c) (icmp_count c) (nat_seq0 c)
    (nat_seq1 c) (masq_index c) (ct_mark c) (tuple_orig c) (tuple_reply c).
#[export] Instance upd_expecting : Update expecting := λ v c,
  mk_ct (ct_use c) (status c) (timeout c) (packets0 c) (bytes0 c) (packets1 c) (bytes1 c)
    (ct_master c) v (ct_id c) (ct_helper c) (proto_tcp c) (icmp_count c) (nat_seq0 c)
    (nat_seq1 c) (masq_index c) (ct_mark c) (tuple_orig c) (tuple_reply c).
#[export] Instance upd_ct_id : Update ct_id := λ v c,
  mk_ct (ct_use c) (status c) (timeout c) (packets0 c) (bytes0 c) (packets1 c) (bytes1 c)
    (ct_master c) (expecting c) v (ct_helper c) (proto_tcp c) (icmp_count c) (nat_seq0 c)
    (nat_seq1 c) (masq_index c) (ct_mark c) (tuple_orig c) (tuple_reply c).
#[export] Instance upd_ct_helper : Update ct_helper := λ v c,
  mk_ct (ct_use c) (status c) (timeout c) (packets0 c) (bytes0 c) (packets1 c) (bytes1 c)
    (ct_master c) (expecting c) (ct_id c) v (proto_tcp c) (icmp_count c) (nat_seq0 c)
    (nat_seq1 c) (masq_index c) (ct_mark c) (tuple_orig c) (tuple_reply c).
#[export] Instance upd_proto_tcp : Update proto_tcp := λ v c,
  mk_ct (ct_use c) (status c) (timeout c) (packets0 c) (bytes0 c) (packets1 c) (bytes1 c)
    (ct_master c) (expecting c) (ct_id c) (ct_helper c) v (icmp_count c) (nat_seq0 c)
    (nat_seq1 c) (masq_index c) (ct_mark c) (tuple_orig c) (tuple_reply c).
#[export] Instance upd_icmp_count : Update icmp_count := λ v c,
  mk_ct (ct_use c) (status c) (timeout c) (packets0 c) (bytes0 c) (packets1 c) (bytes1 c)
    (ct_master c) (expecting c) (ct_id c) (ct_helper c) (proto_tcp c) v (nat_seq0 c)
    (nat_seq1 c) (masq_index c) (ct_mark c) (tuple_orig c) (tuple_reply c).
#[export] Instance upd_nat_seq0 : Update nat_seq0 := λ v c,
  mk_ct (ct_use c) (status c) (timeout c) (packets0 c) (bytes0 c) (packets1 c) (bytes1 c)
    (ct_master c) (expecting c) (ct_id c) (ct_helper c) (proto_tcp c) (icmp_count c) v
    (nat_seq1 c) (masq_index c) (ct_mark c) (tuple_orig c) (tuple_reply c).
#[export] Instance upd_nat_seq1 : Update nat_seq1 := λ v c,
  mk_ct (ct_use c) (status c) (timeout c) (packets0 c) (bytes0 c) (packets1 c) (bytes1 c)
    (ct_master c) (expecting c) (ct_id c) (ct_helper c) (proto_tcp c) (icmp_count c)
    (nat_seq0 c) v (masq_index c) (ct_mark c) (tuple_orig c) (tuple_reply c).
#[export] Instance upd_masq_index : Update masq_index := λ v c,
  mk_ct (ct_use c) (status c) (timeout c) (packets0 c) (bytes0 c) (packets1 c) (bytes1 c)
    (ct_master c) (expecting c) (ct_id c) (ct_helper c) (proto_tcp c) (icmp_count c)
    (nat_seq0 c) (nat_seq1 c) v (ct_mark c) (tuple_orig c) (tuple_reply c).
#[export] Instance upd_ct_mark : Update ct_mark := λ v c,
  mk_ct (ct_use c) (status c) (timeout c) (packets0 c) (bytes0 c) (packets1 c) (bytes1 c)
    (ct_master c) (expecting c) (ct_id c) (ct_helper c) (proto_tcp c) (icmp_count c)
    (nat_seq0 c) (nat_seq1 c) (masq_index c) v (tuple_orig c) (tuple_reply c).
#[export] Instance upd_tuple_orig : Update tuple_orig := λ v c,
  mk_ct (ct_use c) (status c) (timeout c) (packets0 c) (bytes0 c) (packets1 c) (bytes1 c)
    (ct_master c) (expecting c) (ct_id c) (ct_helper c) (proto_tcp c) (icmp_count c)
    (nat_seq0 c) (nat_seq1 c) (masq_index c) (ct_mark c) v (tuple_reply c).
#[export] Instance upd_tuple_reply : Update tuple_reply := λ v c,
  mk_ct (ct_use c) (status c) (timeout c) (packets0 c) (bytes0 c) (packets1 c) (bytes1 c)
    (ct_master c) (expecting c) (ct_id c) (ct_helper c) (proto_tcp c) (icmp_count c)
    (nat_seq0 c) (nat_seq1 c) (masq_index c) (ct_mark c) (tuple_orig c) v.

Definition tuplehash (c : ip_conntrack) (d : ip_conntrack_dir) : ip_conntrack_tuple :=
  match d with IP_CT_DIR_ORIGINAL => tuple_orig c | IP_CT_DIR_REPLY => tuple_reply c end.

Definition test_bit (b : Z) (c : ip_conntrack) : bool := Z.testbit (status c) b.
Definition set_bit (b : Z) (c : ip_conntrack) : ip_conntrack :=
  c <| status := Z.setbit (status c) b |>.
Definition is_confirmed (c : ip_conntrack) : bool := test_bit IPS_CONFIRMED_BIT c.
Definition is_dying (c : ip_conntrack) : bool := test_bit IPS_DYING_BIT c.

(** [del_timer]: whether the timer was pending; it no longer is. *)
Definition del_timer (c : ip_conntrack) : bool * ip_conntrack :=
  (pending (timeout c), c <| timeout := (timeout c) <| pending := false |> |>).
Definition add_timer (c : ip_conntrack) : ip_conntrack :=
  c <| timeout := (timeout c) <| pending := true |> |>.

(** [__ip_ct_refresh_acct], built with [CONFIG_IP_NF_CT_ACCT] and without
    [CONFIG_IP_NF_CONNTRACK_EVENTS]: the event it computes has no consumer. *)
Definition __ip_ct_refresh_acct (jiffies : Z) (ct : ip_conntrack) (ctinfo : Z)
    (skb : sk_buff) (extra_jiffies : Z) (do_acct : bool) : ip_conntrack :=
  let ct :=
    if negb (is_confirmed ct)
    then ct <| timeout := (timeout ct) <| expires := extra_jiffies |> |>
    else
      let (was, ct') := del_timer ct in
      if was
      then add_timer (ct' <| timeout := (timeout ct') <| expires :=
                             u32 (jiffies + extra_jiffies) |> |>)
      else ct' in
  if do_acct then
    let len := ntohs (tot_len (skb_iph skb)) in
    match CTINFO2DIR ctinfo with
    | IP_CT_DIR_ORIGINAL =>
        ct <| packets0 := u32 (packets0 ct + 1) |> <| bytes0 := u32 (bytes0 ct + len) |>
    | IP_CT_DIR_REPLY =>
        ct <| packets1 := u32 (packets1 ct + 1) |> <| bytes1 := u32 (bytes1 ct + len) |>
    end
  else ct.

Definition ip_ct_refresh_acct (jiffies : Z) (ct : ip_conntrack) (ctinfo : Z)
    (skb : sk_buff) (extra_jiffies : Z) : ip_conntrack :=
  __ip_ct_refresh_acct jiffies ct ctinfo skb extra_jiffies true.

(** Refreshing the timer and the counters touches nothing else. *)
Lemma refresh_fields jiffies ct ctinfo skb extra b :
  let ct' := __ip_ct_refresh_acct jiffies ct ctinfo skb extra b in
  proto_tcp ct' = proto_tcp ct ∧ status ct' = status ct ∧
  tuple_orig ct' = tuple_orig ct ∧ tuple_reply ct' = tuple_reply ct ∧
  ct_use ct' = ct_use ct ∧ ct_master ct' = ct_master ct ∧ ct_helper ct' = ct_helper ct ∧
  expecting ct' = expecting ct.
Proof.
  unfold __ip_ct_refresh_acct. destruct (negb (is_confirmed ct)); simpl.
  - destruct b; [destruct (CTINFO2DIR ctinfo)|]; done.
  - destruct (pending (timeout ct)), b; try destruct (CTINFO2DIR ctinfo); done.
Qed.

Lemma refresh_status jiffies ct ctinfo skb extra :
  status (ip_ct_refresh_acct jiffies ct ctinfo skb extra) = status ct.
Proof. apply (refresh_fields jiffies ct ctinfo skb extra true). Qed.

Lemma refresh_proto jiffies ct ctinfo skb extra :
  proto_tcp (ip_ct_refresh_acct jiffies ct ctinfo skb extra) = proto_tcp ct.
Proof. apply (refresh_fields jiffies ct ctinfo skb extra true). Qed.
