(* ===== verification/TcpTrack.v ===== *)
(** * TCP connection tracking: [net/ipv4/netfilter/ip_conntrack_proto_tcp.c]

    The state table, the option parsers, window tracking ([tcp_in_window]), the
    packet handler [tcp_packet], [tcp_new] and [tcp_error].

    A result [None] means that the C code makes an access it must not make: it
    reads option bytes outside the header, hits a [BUG_ON], or dereferences the
    [NULL] entries of [tcp_timeouts]. *)
From S2P Require Import Prelude Packet CtBase.

(** ** Tunables ([ip_ct_tcp_*], sysctl) and build configuration *)
Definition HZ := 100.
Definition SECS (n : Z) := n * HZ.
Definition MINS (n : Z) := n * 60 * HZ.
Definition DAYS (n : Z) := n * 24 * 60 * 60 * HZ.

Record tcp_cfg := mk_tcp_cfg {
  be_liberal : Z; cfg_loose : Z; max_retrans : Z;
  to_syn_sent : Z; to_syn_recv : Z; to_established : Z; to_fin_wait : Z;
  to_close_wait : Z; to_last_ack : Z; to_time_wait : Z; to_close : Z;
  to_max_retrans : Z;
  CONFIG_STR9100_SHNAT : bool; shnat_hook_ready : bool }.

(** The initial values in the firmware's build and in a build without the
    STR9100 hardware-NAT option. *)
Definition tcp_defaults (shnat : bool) : tcp_cfg :=
  mk_tcp_cfg 0 3 3
    (MINS 2) (SECS 60) (if shnat then MINS 26 else DAYS 5) (MINS 2)
    (SECS 60) (SECS 30) (if shnat then SECS 2 else MINS 2) (SECS 10)
    (MINS 5)
    shnat false.

Definition tcp_timeouts (cfg : tcp_cfg) (s : tcp_conntrack) : option Z :=
  match s with
  | TCP_CONNTRACK_NONE => None
  | TCP_CONNTRACK_SYN_SENT => Some (to_syn_sent cfg)
  | TCP_CONNTRACK_SYN_RECV => Some (to_syn_recv cfg)
  | TCP_CONNTRACK_ESTABLISHED => Some (to_established cfg)
  | TCP_CONNTRACK_FIN_WAIT => Some (to_fin_wait cfg)
  | TCP_CONNTRACK_CLOSE_WAIT => Some (to_close_wait cfg)
  | TCP_CONNTRACK_LAST_ACK => Some (to_last_ack cfg)
  | TCP_CONNTRACK_TIME_WAIT => Some (to_time_wait cfg)
  | TCP_CONNTRACK_CLOSE => Some (to_close cfg)
  | TCP_CONNTRACK_LISTEN => None
  | TCP_CONNTRACK_MAX | TCP_CONNTRACK_IGNORE => None
  end.

(** ** The transition table *)
Section Table.
Local Abbreviation sNO := TCP_CONNTRACK_NONE.
Local Abbreviation sSS := TCP_CONNTRACK_SYN_SENT.
Local Abbreviation sSR := TCP_CONNTRACK_SYN_RECV.
Local Abbreviation sES := TCP_CONNTRACK_ESTABLISHED.
Local Abbreviation sFW := TCP_CONNTRACK_FIN_WAIT.
Local Abbreviation sCW := TCP_CONNTRACK_CLOSE_WAIT.
Local Abbreviation sLA := TCP_CONNTRACK_LAST_ACK.
Local Abbreviation sTW := TCP_CONNTRACK_TIME_WAIT.
Local Abbreviation sCL := TCP_CONNTRACK_CLOSE.
Local Abbreviation sIV := TCP_CONNTRACK_MAX.
Local Abbreviation sIG := TCP_CONNTRACK_IGNORE.

Definition tcp_conntracks_original : list (list tcp_conntrack) :=
  (*            sNO, sSS, sSR, sES, sFW, sCW, sLA, sTW, sCL, sLI *)
  [ (*syn*)    [sSS; sSS; sIG; sIG; sIG; sIG; sIG; sSS; sSS; sIV];
    (*synack*) [sIV; sIV; sIV; sIV; sIV; sIV; sIV; sIV; sIV; sIV];
    (*fin*)    [sIV; sIV; sFW; sFW; sLA; sLA; sLA; sTW; sCL; sIV];
    (*ack*)    [sES; sIV; sES; sES; sCW; sCW; sTW; sTW; sCL; sIV];
    (*rst*)    [sIV; sCL; sCL; sCL; sCL; sCL; sCL; sCL; sCL; sIV];
    (*none*)   [sIV; sIV; sIV; sIV; sIV; sIV; sIV; sIV; sIV; sIV] ].

Definition tcp_conntracks_reply : list (list tcp_conntrack) :=
  (*            sNO, sSS, sSR, sES, sFW, sCW, sLA, sTW, sCL, sLI *)
  [ (*syn*)    [sIV; sIV; sIV; sIV; sIV; sIV; sIV; sIV; sIV; sIV];
    (*synack*) [sIV; sSR; sSR; sIG; sIG; sIG; sIG; sIG; sIG; sIV];
    (*fin*)    [sIV; sIV; sFW; sFW; sLA; sLA; sLA; sTW; sCL; sIV];
    (*ack*)    [sIV; sIG; sSR; sES; sCW; sCW; sTW; sTW; sCL; sIV];
    (*rst*)    [sIV; sCL; sCL; sCL; sCL; sCL; sCL; sCL; sCL; sIV];
    (*none*)   [sIV; sIV; sIV; sIV; sIV; sIV; sIV; sIV; sIV; sIV] ].
End Table.

(** [tcp_conntracks[dir][index][state]]; an index outside the array is [None]. *)
Definition tcp_conntracks (d : ip_conntrack_dir) (i : tcp_bit_set) (s : tcp_conntrack)
    : option tcp_conntrack :=
  let tab := match d with
             | IP_CT_DIR_ORIGINAL => tcp_conntracks_original
             | IP_CT_DIR_REPLY => tcp_conntracks_reply
             end in
  row ← tab !! tcp_bit_set_val i; row !! tcp_conntrack_val s.

(** ** Tuples *)
Definition tcp_pkt_to_tuple (skb : sk_buff) (dataoff : Z) (tuple : ip_conntrack_tuple)
    : option ip_conntrack_tuple :=
  hp ← skb_header_pointer skb dataoff 8;
  Some (tuple <| src_u := ld16 hp 0 |> <| dst_u := ld16 hp 2 |>).

Definition tcp_invert_tuple (tuple orig : ip_conntrack_tuple) : option ip_conntrack_tuple :=
  Some (tuple <| src_u := dst_u orig |> <| dst_u := src_u orig |>).

Definition get_conntrack_index (th : tcphdr) : tcp_bit_set :=
  if th_rst th then TCP_RST_SET
  else if th_syn th then (if th_ack th then TCP_SYNACK_SET else TCP_SYN_SET)
  else if th_fin th then TCP_FIN_SET
  else if th_ack th then TCP_ACK_SET
  else TCP_NONE_SET.

(** ** Sequence arithmetic ([include/net/tcp.h]) *)
Definition before (seq1 seq2 : Z) : bool := s32 (seq1 - seq2) <? 0.
Definition after (seq1 seq2 : Z) : bool := s32 (seq2 - seq1) <? 0.

Definition segment_seq_plus_len (seq len : Z) (iph : iphdr) (th : tcphdr) : Z :=
  u32 (seq + len - (ihl iph + th_doff th) * 4
       + (if th_syn th then 1 else 0) + (if th_fin th then 1 else 0)).

#[global] Arguments before : simpl never.
#[global] Arguments after : simpl never.
#[global] Arguments segment_seq_plus_len : simpl never.

Definition MAXACKWINCONST := 66000.
Definition MAXACKWINDOW (sender : ip_ct_tcp_state) : Z :=
  if MAXACKWINCONST <? td_maxwin sender then td_maxwin sender else MAXACKWINCONST.

Definition IP_CT_TCP_FLAG_WINDOW_SCALE := 1.
Definition IP_CT_TCP_FLAG_SACK_PERM := 2.
Definition IP_CT_TCP_FLAG_CLOSE_INIT := 3.

(** ** Option parsing

    [ptr] is the part of the option block not consumed yet. *)
Definition TCPOPT_EOL := 0.
Definition TCPOPT_NOP := 1.
Definition TCPOPT_WINDOW := 3.
Definition TCPOPT_SACK_PERM := 4.
Definition TCPOPT_SACK := 5.
Definition TCPOPT_TIMESTAMP := 8.
Definition TCPOLEN_WINDOW := 3.
Definition TCPOLEN_SACK_PERM := 2.
Definition TCPOLEN_TIMESTAMP := 10.
Definition TCPOLEN_TSTAMP_ALIGNED := 12.
Definition TCPOLEN_SACK_BASE := 2.
Definition TCPOLEN_SACK_PERBLOCK := 8.
Definition sizeof_tcphdr := 20.

(** The effect of one recognised option of [tcp_options]. *)
Definition tcp_options_one (opcode opsize : Z) (ptr : list Z) (state : ip_ct_tcp_state)
    : option ip_ct_tcp_state :=
  if (opcode =? TCPOPT_SACK_PERM) && (opsize =? TCPOLEN_SACK_PERM)
  then Some (state <| ts_flags := Z.lor (ts_flags state) IP_CT_TCP_FLAG_SACK_PERM |>)
  else if (opcode =? TCPOPT_WINDOW) && (opsize =? TCPOLEN_WINDOW)
  then scale ← head ptr;
       let state := state <| td_scale := if 14 <? scale then 14 else scale |> in
       Some (state <| ts_flags := Z.lor (ts_flags state) IP_CT_TCP_FLAG_WINDOW_SCALE |>)
  else Some state.

(** The [while (length > 0)] loop.  Note that the [break] taken for a partial
    option leaves the [switch] only: the loop goes on behind the two bytes just
    read with [length] unchanged. *)
Fixpoint tcp_options_loop (fuel : nat) (ptr : list Z) (length : Z)
    (state : ip_ct_tcp_state) : option ip_ct_tcp_state :=
  match fuel with
  | O => None
  | S fuel =>
      if negb (0 <? length) then Some state else
      match ptr with
      | [] => None
      | opcode :: ptr =>
          if opcode =? TCPOPT_EOL then Some state
          else if opcode =? TCPOPT_NOP then tcp_options_loop fuel ptr (length - 1) state
          else match ptr with
               | [] => None
               | opsize :: ptr =>
                   if opsize <? 2 then Some state
                   else if length <? opsize then tcp_options_loop fuel ptr length state
                   else
                     state ← tcp_options_one opcode opsize ptr state;
                     tcp_options_loop fuel (drop (Z.to_nat (opsize - 2)) ptr)
                       (length - opsize) state
               end
      end
  end.

Definition tcp_options (skb : sk_buff) (iph : iphdr) (th : tcphdr)
    (state : ip_ct_tcp_state) : option ip_ct_tcp_state :=
  let length := th_doff th * 4 - sizeof_tcphdr in
  if length =? 0 then Some state else
  ptr ← skb_header_pointer skb (ihl iph * 4 + sizeof_tcphdr) length;
  let state := state <| ts_flags := 0 |> <| td_scale := 0 |> in
  tcp_options_loop (S (List.length ptr)) ptr length state.

(** The [for] loop over the blocks of a SACK option. *)
Fixpoint tcp_sack_blocks (n : nat) (ptr : list Z) (sack : Z) : option Z :=
  match n with
  | O => Some sack
  | S n =>
      if (List.length ptr <? 8)%nat then None else
      let tmp := ntohl (ld32 ptr 4) in
      tcp_sack_blocks n (drop 8 ptr) (if after tmp sack then tmp else sack)
  end.

Fixpoint tcp_sack_loop (fuel : nat) (ptr : list Z) (length : Z) (sack : Z) : option Z :=
  match fuel with
  | O => None
  | S fuel =>
      if negb (0 <? length) then Some sack else
      match ptr with
      | [] => None
      | opcode :: ptr =>
          if opcode =? TCPOPT_EOL then Some sack
          else if opcode =? TCPOPT_NOP then tcp_sack_loop fuel ptr (length - 1) sack
          else match ptr with
               | [] => None
               | opsize :: ptr =>
                   if opsize <? 2 then Some sack
                   else if length <? opsize then tcp_sack_loop fuel ptr length sack
                   else if (opcode =? TCPOPT_SACK)
                           && (TCPOLEN_SACK_BASE + TCPOLEN_SACK_PERBLOCK <=? opsize)
                           && ((opsize - TCPOLEN_SACK_BASE) mod TCPOLEN_SACK_PERBLOCK =? 0)
                   then tcp_sack_blocks
                          (Z.to_nat ((opsize - TCPOLEN_SACK_BASE) / TCPOLEN_SACK_PERBLOCK))
                          ptr sack
                   else tcp_sack_loop fuel (drop (Z.to_nat (opsize - 2)) ptr)
                          (length - opsize) sack
               end
      end
  end.

Definition tcp_sack (skb : sk_buff) (iph : iphdr) (th : tcphdr) (sack : Z) : option Z :=
  let length := th_doff th * 4 - sizeof_tcphdr in
  if length =? 0 then Some sack else
  ptr ← skb_header_pointer skb (ihl iph * 4 + sizeof_tcphdr) length;
  if (length =? TCPOLEN_TSTAMP_ALIGNED * 4)
     && (ld32 ptr 0 =? ntohl (TCPOPT_NOP * 16777216 + TCPOPT_NOP * 65536
                              + TCPOPT_TIMESTAMP * 256 + TCPOLEN_TIMESTAMP))
  then Some sack
  else tcp_sack_loop (S (List.length ptr)) ptr length sack.

(** ** Window tracking *)

Definition win_or_1 (win : Z) : Z := if win =? 0 then 1 else win.

(** First part of [tcp_in_window]: initialise the sender's data when its
    history is unknown, or when a (re)transmitted SYN or SYN/ACK moves it. *)
Definition tcp_init_sender (st : tcp_conntrack) (dir : ip_conntrack_dir) (skb : sk_buff)
    (iph : iphdr) (th : tcphdr) (win end_ : Z) (sender receiver : ip_ct_tcp_state)
    : option (ip_ct_tcp_state * ip_ct_tcp_state) :=
  if td_end sender =? 0 then
    if th_syn th && th_ack th then
      let sender := sender <| td_end := end_ |> <| td_maxend := end_ |>
                           <| td_maxwin := win_or_1 win |> in
      sender ← tcp_options skb iph th sender;
      if negb (flag (ts_flags sender) IP_CT_TCP_FLAG_WINDOW_SCALE
               && flag (ts_flags receiver) IP_CT_TCP_FLAG_WINDOW_SCALE)
      then Some (sender <| td_scale := 0 |>, receiver <| td_scale := 0 |>)
      else Some (sender, receiver)
    else
      let sender := sender <| td_end := end_ |> <| td_maxwin := win_or_1 win |> in
      Some (sender <| td_maxend := u32 (end_ + td_maxwin sender) |>, receiver)
  else if (bool_decide (st = TCP_CONNTRACK_SYN_SENT) && dir_eqb dir IP_CT_DIR_ORIGINAL
           || bool_decide (st = TCP_CONNTRACK_SYN_RECV) && dir_eqb dir IP_CT_DIR_REPLY)
          && after end_ (td_end sender) then
    let sender := sender <| td_end := end_ |> <| td_maxend := end_ |>
                         <| td_maxwin := win_or_1 win |> in
    sender ← tcp_options skb iph th sender;
    Some (sender, receiver)
  else Some (sender, receiver).

(** The acceptance condition: conditions I to IV of the file's comment, or a
    connection picked up in the middle. *)
Definition tcp_window_conds (seq end_ ack sack : Z) (sender receiver : ip_ct_tcp_state) : bool :=
  before seq (u32 (td_maxend sender + 1))
  && after end_ (u32 (td_end sender - td_maxwin receiver - 1))
  && before sack (u32 (td_end receiver + 1))
  && after ack (u32 (td_end receiver - MAXACKWINDOW sender)).

Definition tcp_accept (seq end_ ack sack : Z) (sender receiver : ip_ct_tcp_state) : bool :=
  negb (loose sender =? 0) || negb (loose receiver =? 0)
  || tcp_window_conds seq end_ ack sack sender receiver.

(** The update of both sides' data for an accepted segment; [win] is scaled. *)
Definition tcp_update_sender (end_ ack sack win : Z) (sender : ip_ct_tcp_state)
    : ip_ct_tcp_state :=
  let swin := u32 (win + u32 (sack - ack)) in
  let sender := if td_maxwin sender <? swin then sender <| td_maxwin := swin |> else sender in
  if after end_ (td_end sender) then sender <| td_end := end_ |> else sender.

Definition tcp_update_receiver (end_ sack win : Z) (sender receiver : ip_ct_tcp_state)
    : ip_ct_tcp_state :=
  let receiver :=
    if after end_ (td_maxend sender)
    then receiver <| td_maxwin := u32 (td_maxwin receiver + u32 (end_ - td_maxend sender)) |>
    else receiver in
  if after (u32 (sack + win)) (u32 (td_maxend receiver - 1)) then
    let receiver := receiver <| td_maxend := u32 (sack + win) |> in
    if win =? 0 then receiver <| td_maxend := u32 (td_maxend receiver + 1) |> else receiver
  else receiver.

Definition tcp_check_retrans (state : ip_ct_tcp) (dir : ip_conntrack_dir)
    (index : tcp_bit_set) (seq ack end_ : Z) : ip_ct_tcp :=
  if bool_decide (index = TCP_ACK_SET) then
    if dir_eqb (last_dir state) dir && (last_seq state =? seq)
       && (last_ack state =? ack) && (last_end state =? end_)
    then state <| retrans := u8 (retrans state + 1) |>
    else state <| last_dir := dir |> <| last_seq := seq |> <| last_ack := ack |>
               <| last_end := end_ |> <| retrans := 0 |>
  else state.

Definition tcp_in_window (cfg : tcp_cfg) (state : ip_ct_tcp) (dir : ip_conntrack_dir)
    (index : tcp_bit_set) (skb : sk_buff) (iph : iphdr) (th : tcphdr)
    : option (Z * ip_ct_tcp) :=
  let sender := seen state dir in
  let receiver := seen state (dir_neg dir) in
  let seq := ntohl (th_seq th) in
  let ack := ntohl (th_ack_seq th) in
  let win := ntohs (th_window th) in
  let end_ := segment_seq_plus_len seq (skb_len skb) iph th in
  sack ← (if flag (ts_flags receiver) IP_CT_TCP_FLAG_SACK_PERM
          then tcp_sack skb iph th ack else Some ack);
  '(sender, receiver) ←
     tcp_init_sender (tcp_st state) dir skb iph th win end_ sender receiver;
  let '(ack, sack) :=
    if negb (th_ack th) then (td_end receiver, td_end receiver)
    else if th_ack th && th_rst th && (ack =? 0) then (td_end receiver, td_end receiver)
    else (ack, sack) in
  let '(seq, end_) :=
    if (seq =? end_)
       && (negb (th_rst th)
           || ((seq =? 0) && bool_decide (tcp_st state = TCP_CONNTRACK_SYN_SENT)))
    then (td_end sender, td_end sender) else (seq, end_) in
  let writeback (state : ip_ct_tcp) (sender receiver : ip_ct_tcp_state) :=
    set_seen dir sender (set_seen (dir_neg dir) receiver state) in
  if tcp_accept seq end_ ack sack sender receiver then
    let win := if negb (th_syn th) then u32 (Z.shiftl win (td_scale sender)) else win in
    let sender := tcp_update_sender end_ ack sack win sender in
    let receiver := tcp_update_receiver end_ sack win sender receiver in
    let state := tcp_check_retrans state dir index seq ack end_ in
    let sender := if negb (loose sender =? 0)
                  then sender <| loose := u8 (loose sender - 1) |> else sender in
    Some (1, writeback state sender receiver)
  else Some (be_liberal cfg, writeback state sender receiver).

(** [ip_conntrack_tcp_update], called after NAT has changed the payload. *)
Definition ip_conntrack_tcp_update (skb : sk_buff) (conntrack : ip_conntrack)
    (dir : ip_conntrack_dir) : ip_conntrack :=
  let iph := skb_iph skb in
  let th := tcphdr_at (data skb) (ihl iph * 4) in
  let end_ := segment_seq_plus_len (ntohl (th_seq th)) (skb_len skb) iph th in
  let t := proto_tcp conntrack in
  let t := if after end_ (td_end (seen t dir))
           then set_seen dir ((seen t dir) <| td_end := end_ |>) t else t in
  conntrack <| proto_tcp := t <| last_end := end_ |> |>.

(** ** Sanity checks of a packet *)
Definition tcp_valid_flags (f : Z) : bool :=
  existsb (Z.eqb f)
    [ TH_SYN;
      Z.lor TH_SYN TH_ACK;
      Z.lor TH_SYN TH_PUSH;
      Z.lor (Z.lor TH_SYN TH_ACK) TH_PUSH;
      TH_RST;
      Z.lor TH_RST TH_ACK;
      Z.lor (Z.lor TH_RST TH_ACK) TH_PUSH;
      Z.lor TH_FIN TH_ACK;
      TH_ACK;
      Z.lor TH_ACK TH_PUSH;
      Z.lor TH_ACK TH_URG;
      Z.lor (Z.lor TH_ACK TH_URG) TH_PUSH;
      Z.lor (Z.lor TH_FIN TH_ACK) TH_PUSH;
      Z.lor (Z.lor TH_FIN TH_ACK) TH_URG;
      Z.lor (Z.lor (Z.lor TH_FIN TH_ACK) TH_URG) TH_PUSH ].

Definition tcp_error (skb : sk_buff) (hooknum : Z) : Z :=
  let iph := skb_iph skb in
  let tcplen := u32 (skb_len skb - ihl iph * 4) in
  match skb_header_pointer skb (ihl iph * 4) sizeof_tcphdr with
  | None => - NF_ACCEPT
  | Some hp =>
      let th := tcphdr_at hp 0 in
      if (th_doff th * 4 <? sizeof_tcphdr) || (tcplen <? th_doff th * 4) then - NF_ACCEPT
      else if (hooknum =? NF_IP_PRE_ROUTING)
              && negb (ip_summed skb =? CHECKSUM_UNNECESSARY)
              && negb (csum_tcpudp_magic (saddr iph) (daddr iph) tcplen IPPROTO_TCP
                         (if ip_summed skb =? CHECKSUM_HW then csum skb
                          else skb_checksum skb (ihl iph * 4) tcplen 0) =? 0)
      then - NF_ACCEPT
      else if negb (tcp_valid_flags (Z.land (th_flags th) (Z.lnot (Z.lor TH_ECE TH_CWR))))
      then - NF_ACCEPT
      else NF_ACCEPT
  end.

(** ** The packet handler

    [pr_kill] says that the handler called the conntrack's timeout function
    ([death_by_timeout]) after a successful [del_timer]; the caller's model runs
    it, nothing of the conntrack being touched afterwards.  [pr_hnat] says that
    the hardware-NAT hook was called. *)
Record packet_result := mk_pr {
  pr_ret : Z; pr_ct : ip_conntrack; pr_kill : bool; pr_hnat : bool }.

Definition kill_conntrack (ret : Z) (ct : ip_conntrack) : packet_result :=
  let (was, ct') := del_timer ct in mk_pr ret ct' was false.

(** [tcp_packet] from the label [in_window] on. *)
Definition tcp_packet_in_window (cfg : tcp_cfg) (jiffies : Z) (conntrack : ip_conntrack)
    (skb : sk_buff) (ctinfo : Z) (th : tcphdr) (index : tcp_bit_set)
    (old_state new_state : tcp_conntrack) : option packet_result :=
  let dir := CTINFO2DIR ctinfo in
  let t := (proto_tcp conntrack) <| last_index := index |> <| tcp_st := new_state |> in
  let t :=
    if bool_decide (old_state ≠ new_state)
       && (bool_decide (new_state = TCP_CONNTRACK_FIN_WAIT)
           || bool_decide (new_state = TCP_CONNTRACK_CLOSE))
    then set_seen dir ((seen t dir) <| ts_flags :=
                          Z.lor (ts_flags (seen t dir)) IP_CT_TCP_FLAG_CLOSE_INIT |>) t
    else t in
  to ← tcp_timeouts cfg new_state;
  let tmo := if (max_retrans cfg <=? retrans t) && (to_max_retrans cfg <? to)
             then to_max_retrans cfg else to in
  let conntrack := conntrack <| proto_tcp := t |> in
  if negb (test_bit IPS_SEEN_REPLY_BIT conntrack) && th_rst th
  then Some (kill_conntrack NF_ACCEPT conntrack)
  else
    let assure := test_bit IPS_SEEN_REPLY_BIT conntrack
                  && negb (test_bit IPS_ASSURED_BIT conntrack)
                  && (bool_decide (old_state = TCP_CONNTRACK_SYN_RECV)
                      || bool_decide (old_state = TCP_CONNTRACK_ESTABLISHED))
                  && bool_decide (new_state = TCP_CONNTRACK_ESTABLISHED) in
    let conntrack := if assure then set_bit IPS_ASSURED_BIT conntrack else conntrack in
    Some (mk_pr NF_ACCEPT (ip_ct_refresh_acct jiffies conntrack ctinfo skb tmo) false
            (assure && CONFIG_STR9100_SHNAT cfg && shnat_hook_ready cfg)).

(** The window check before the label [in_window]; with
    [CONFIG_STR9100_SHNAT] it is skipped for RST and FIN segments. *)
Definition tcp_packet_check (cfg : tcp_cfg) (jiffies : Z) (conntrack : ip_conntrack)
    (skb : sk_buff) (ctinfo : Z) (iph : iphdr) (th : tcphdr) (index : tcp_bit_set)
    (old_state new_state : tcp_conntrack) : option packet_result :=
  if CONFIG_STR9100_SHNAT cfg && (th_rst th || th_fin th)
  then tcp_packet_in_window cfg jiffies conntrack skb ctinfo th index old_state new_state
  else
    '(res, t) ← tcp_in_window cfg (proto_tcp conntrack) (CTINFO2DIR ctinfo) index skb iph th;
    let conntrack := conntrack <| proto_tcp := t |> in
    if res =? 0 then Some (mk_pr (- NF_ACCEPT) conntrack false false)
    else tcp_packet_in_window cfg jiffies conntrack skb ctinfo th index old_state new_state.

(** The [TCP_CONNTRACK_IGNORE] case. *)
Definition tcp_packet_ignore (conntrack : ip_conntrack) (skb : sk_buff) (iph : iphdr)
    (th : tcphdr) (dir : ip_conntrack_dir) (index : tcp_bit_set) : packet_result :=
  let t := proto_tcp conntrack in
  if bool_decide (index = TCP_SYNACK_SET) && bool_decide (last_index t = TCP_SYN_SET)
     && negb (dir_eqb (last_dir t) dir) && (ntohl (th_ack_seq th) =? last_end t)
  then kill_conntrack (- NF_DROP) conntrack
  else
    let t := t <| last_index := index |> <| last_dir := dir |>
               <| last_seq := ntohl (th_seq th) |>
               <| last_end := segment_seq_plus_len (ntohl (th_seq th)) (skb_len skb) iph th |> in
    mk_pr NF_ACCEPT (conntrack <| proto_tcp := t |>) false false.

Definition tcp_packet (cfg : tcp_cfg) (jiffies : Z) (conntrack : ip_conntrack)
    (skb : sk_buff) (ctinfo : Z) : option packet_result :=
  let iph := skb_iph skb in
  hp ← skb_header_pointer skb (ihl iph * 4) sizeof_tcphdr;
  let th := tcphdr_at hp 0 in
  let t := proto_tcp conntrack in
  let old_state := tcp_st t in
  let dir := CTINFO2DIR ctinfo in
  let index := get_conntrack_index th in
  new_state ← tcp_conntracks dir index old_state;
  let check := tcp_packet_check cfg jiffies conntrack skb ctinfo iph th index
                 old_state new_state in
  match new_state with
  | TCP_CONNTRACK_IGNORE => Some (tcp_packet_ignore conntrack skb iph th dir index)
  | TCP_CONNTRACK_MAX => Some (mk_pr (- NF_ACCEPT) conntrack false false)
  | TCP_CONNTRACK_SYN_SENT =>
      if (tcp_conntrack_val old_state <? tcp_conntrack_val TCP_CONNTRACK_TIME_WAIT)%nat
      then check
      else if flag (ts_flags (seen t dir)) IP_CT_TCP_FLAG_CLOSE_INIT
              || after (ntohl (th_seq th)) (td_end (seen t dir))
      then Some (kill_conntrack (- NF_REPEAT) conntrack)
      else Some (mk_pr (- NF_ACCEPT) conntrack false false)
  | TCP_CONNTRACK_CLOSE =>
      if bool_decide (index = TCP_RST_SET)
         && ((test_bit IPS_SEEN_REPLY_BIT conntrack
              && bool_decide (last_index t = TCP_SYN_SET))
             || (negb (test_bit IPS_ASSURED_BIT conntrack)
                 && bool_decide (last_index t = TCP_ACK_SET)))
         && (ntohl (th_ack_seq th) =? last_end t)
      then tcp_packet_in_window cfg jiffies conntrack skb ctinfo th index old_state new_state
      else check
  | _ => check
  end.

(** ** New connections *)
Definition tcp_new (cfg : tcp_cfg) (conntrack : ip_conntrack) (skb : sk_buff)
    : option (bool * ip_conntrack) :=
  let iph := skb_iph skb in
  hp ← skb_header_pointer skb (ihl iph * 4) sizeof_tcphdr;
  let th := tcphdr_at hp 0 in
  new_state ← tcp_conntracks IP_CT_DIR_ORIGINAL (get_conntrack_index th) TCP_CONNTRACK_NONE;
  if (tcp_conntrack_val TCP_CONNTRACK_MAX <=? tcp_conntrack_val new_state)%nat
  then Some (false, conntrack)
  else
    let t := proto_tcp conntrack in
    let end_ := segment_seq_plus_len (ntohl (th_seq th)) (skb_len skb) iph th in
    let s0 := (seen0 t) <| td_end := end_ |> <| td_maxwin := win_or_1 (ntohs (th_window th)) |> in
    let finish (s0 s1 : ip_ct_tcp_state) :=
      let s1 := s1 <| td_end := 0 |> <| td_maxend := 0 |> <| td_maxwin := 1 |>
                   <| td_scale := 0 |> in
      Some (true, conntrack <| proto_tcp :=
                    t <| seen0 := s0 |> <| seen1 := s1 |>
                      <| tcp_st := TCP_CONNTRACK_NONE |> <| last_index := TCP_NONE_SET |> |>) in
    if bool_decide (new_state = TCP_CONNTRACK_SYN_SENT) then
      let s0 := s0 <| td_maxend := td_end s0 |> in
      s0 ← tcp_options skb iph th s0;
      finish (s0 <| loose := 0 |>) ((seen1 t) <| ts_flags := 0 |> <| loose := 0 |>)
    else if cfg_loose cfg =? 0 then Some (false, conntrack)
    else
      let s0 := s0 <| td_maxend := u32 (td_end s0 + td_maxwin s0) |> <| td_scale := 0 |>
                   <| ts_flags := IP_CT_TCP_FLAG_SACK_PERM |>
                   <| loose := u8 (cfg_loose cfg) |> in
      finish s0 ((seen1 t) <| ts_flags := IP_CT_TCP_FLAG_SACK_PERM |>
                           <| loose := u8 (cfg_loose cfg) |>).
