(* ===== verification/TcpTrackFacts.v ===== *)
(** * TCP connection tracking: invariants, handshake, window arithmetic, findings

    Theorems about the definitions of [TcpTrack]: the packet handler is safe and
    keeps its data well formed, connections are established only by the
    handshake, the modular window test is the intended one, and what the
    firmware's modifications and two upstream slips do. *)
From S2P Require Import Prelude Packet CtBase TcpTrack.

(** ** Option parsing: safety and totality *)

(** A block in which every option fits the bytes that remain. *)
Inductive opts_ok : list Z → Prop :=
  | opts_end : opts_ok []
  | opts_eol r : opts_ok (TCPOPT_EOL :: r)
  | opts_nop r : opts_ok r → opts_ok (TCPOPT_NOP :: r)
  | opts_silly k n r : k ≠ TCPOPT_EOL → k ≠ TCPOPT_NOP → n < 2 → opts_ok (k :: n :: r)
  | opts_opt k n r : k ≠ TCPOPT_EOL → k ≠ TCPOPT_NOP → 2 <= n →
      n - 2 <= Z.of_nat (length r) → opts_ok (drop (Z.to_nat (n - 2)) r) →
      opts_ok (k :: n :: r).

(** Per-direction data within the widths of [struct ip_ct_tcp_state], with the
    RFC 1323 bound on the scale. *)
Record ts_wf (s : ip_ct_tcp_state) : Prop := {
  tw_end : is_u32 (td_end s); tw_maxend : is_u32 (td_maxend s);
  tw_maxwin : is_u32 (td_maxwin s); tw_scale : 0 <= td_scale s <= 14;
  tw_loose : is_u8 (loose s); tw_flags : 0 <= ts_flags s <= 3 }.

Record tcp_wf (t : ip_ct_tcp) : Prop := {
  tcp_wf0 : ts_wf (seen0 t); tcp_wf1 : ts_wf (seen1 t);
  tcp_wf_st : (tcp_conntrack_val (tcp_st t) ≤ 8)%nat;
  tcp_wf_retrans : is_u8 (retrans t) }.

Lemma lor_le3 a b : 0 <= a <= 3 → 0 <= b <= 3 → 0 <= Z.lor a b <= 3.
Proof.
  intros. assert (a = 0 ∨ a = 1 ∨ a = 2 ∨ a = 3) as Ha by lia.
  assert (b = 0 ∨ b = 1 ∨ b = 2 ∨ b = 3) as Hb by lia.
  destruct Ha as [-> | [-> | [-> | ->]]], Hb as [-> | [-> | [-> | ->]]];
    vm_compute; split; discriminate.
Qed.

(** [ts_solve] proves [ts_wf] of an updated state from [ts_wf] of the old one. *)
Ltac ts_solve :=
  repeat match goal with H : ts_wf _ |- _ => destruct H end;
  constructor; simpl; try apply lor_le3; auto with words;
  try (unfold IP_CT_TCP_FLAG_SACK_PERM, IP_CT_TCP_FLAG_WINDOW_SCALE,
         IP_CT_TCP_FLAG_CLOSE_INIT; word_lia).

Lemma tcp_options_one_spec opcode n ptr s :
  Forall is_u8 ptr → (n = TCPOLEN_WINDOW → ptr ≠ []) → ts_wf s →
  ∃ s', tcp_options_one opcode n ptr s = Some s' ∧ ts_wf s'.
Proof.
  intros Hb Hn Hs. unfold tcp_options_one. case_bool.
  - eexists; split; [done | ts_solve].
  - apply andb_prop in E0 as [_ E0%Z.eqb_eq].
    destruct ptr as [|sc ptr]; [by destruct (Hn E0)|].
    inversion_clear Hb. eexists; split; [done|]. simpl.
    destruct (14 <? sc) eqn:E1; ts_solve.
  - eexists; eauto.
Qed.

Lemma tcp_options_loop_ok ptr : ∀ fuel s,
  opts_ok ptr → Forall is_u8 ptr → ts_wf s → (length ptr < fuel)%nat →
  ∃ s', tcp_options_loop fuel ptr (Z.of_nat (length ptr)) s = Some s' ∧ ts_wf s'.
Proof.
  intros fuel s Hok. revert fuel s.
  induction Hok as [| r | r Hok IH | k n r Hk0 Hk1 Hn | k n r Hk0 Hk1 Hn Hfit Hok IH];
    intros [|fuel] s Hb Hs Hf; simpl in Hf; try lia; cbn [tcp_options_loop].
  - simpl. eauto.
  - destruct (0 <? _); simpl; eauto.
  - inversion_clear Hb. destruct (IH fuel s) as (s' & He & Hw); auto; [lia|].
    cbn [length]. rewrite (proj2 (Z.ltb_lt 0 _)) by lia.
    change (TCPOPT_NOP =? TCPOPT_EOL) with false.
    change (TCPOPT_NOP =? TCPOPT_NOP) with true. cbn [negb].
    replace (Z.of_nat (S (length r)) - 1) with (Z.of_nat (length r)) by lia. eauto.
  - simpl. apply Z.eqb_neq in Hk0 as ->, Hk1 as ->.
    apply Z.ltb_lt in Hn as ->. eauto.
  - apply Forall_cons_1 in Hb as [_ [_ Hb]%Forall_cons_1].
    cbn [length] in *. apply Z.eqb_neq in Hk0 as ->, Hk1 as ->.
    rewrite (proj2 (Z.ltb_lt 0 _)) by lia. cbn [negb].
    rewrite (proj2 (Z.ltb_ge n 2)), (proj2 (Z.ltb_ge _ n)) by lia.
    destruct (tcp_options_one_spec k n r s) as (s1 & -> & Hs1); auto.
    { intros -> ->. simpl in Hfit. unfold TCPOLEN_WINDOW in *. lia. }
    cbn [mbind option_bind]. destruct (IH fuel s1) as (s2 & He & Hs2); auto.
    + by apply Forall_drop.
    + rewrite length_drop. lia.
    + rewrite length_drop in He.
      replace (Z.of_nat (S (S (length r))) - n)
        with (Z.of_nat (length r - Z.to_nat (n - 2))) by lia. eauto.
Qed.

Lemma tcp_sack_blocks_ok n : ∀ ptr sack,
  (8 * n ≤ length ptr)%nat → is_u32 sack →
  ∃ s, tcp_sack_blocks n ptr sack = Some s ∧ is_u32 s.
Proof.
  induction n as [|n IH]; intros ptr sack Hl Hs; cbn [tcp_sack_blocks]; [by eauto|].
  rewrite (proj2 (Nat.ltb_ge _ _)) by lia.
  apply IH; [rewrite length_drop; lia |]. destruct (after _ _); auto with words.
Qed.

Lemma tcp_sack_loop_ok ptr : ∀ fuel sack,
  opts_ok ptr → is_u32 sack → (length ptr < fuel)%nat →
  ∃ s, tcp_sack_loop fuel ptr (Z.of_nat (length ptr)) sack = Some s ∧ is_u32 s.
Proof.
  intros fuel s Hok. revert fuel s.
  induction Hok as [| r | r Hok IH | k n r Hk0 Hk1 Hn | k n r Hk0 Hk1 Hn Hfit Hok IH];
    intros [|fuel] s Hs Hf; cbn [length] in *; try lia; cbn [tcp_sack_loop].
  - simpl. eauto.
  - destruct (0 <? _); simpl; eauto.
  - rewrite (proj2 (Z.ltb_lt 0 _)) by lia.
    change (TCPOPT_NOP =? TCPOPT_EOL) with false.
    change (TCPOPT_NOP =? TCPOPT_NOP) with true. cbn [negb].
    replace (Z.of_nat (S (length r)) - 1) with (Z.of_nat (length r)) by lia.
    apply IH; auto; lia.
  - simpl. apply Z.eqb_neq in Hk0 as ->, Hk1 as ->.
    apply Z.ltb_lt in Hn as ->. eauto.
  - apply Z.eqb_neq in Hk0 as ->, Hk1 as ->.
    rewrite (proj2 (Z.ltb_lt 0 _)) by lia. cbn [negb].
    rewrite (proj2 (Z.ltb_ge n 2)), (proj2 (Z.ltb_ge _ n)) by lia.
    destruct (_ && _ && _) eqn:E.
    + apply tcp_sack_blocks_ok; auto.
      unfold TCPOLEN_SACK_BASE, TCPOLEN_SACK_PERBLOCK. lia.
    + destruct (IH fuel s) as (s2 & He & Hs2); auto.
      * rewrite length_drop. lia.
      * rewrite length_drop in He.
        replace (Z.of_nat (S (S (length r))) - n)
          with (Z.of_nat (length r - Z.to_nat (n - 2))) by lia. eauto.
Qed.

(** ** Complete segments

    A packet with a complete TCP header whose options all fit the header. *)
Definition seg_th (skb : sk_buff) : tcphdr :=
  tcphdr_at (take 20 (drop (Z.to_nat (ihl (skb_iph skb) * 4)) (data skb))) 0.

Definition seg_opts (skb : sk_buff) : list Z :=
  take (Z.to_nat (th_doff (seg_th skb) * 4 - sizeof_tcphdr))
    (drop (Z.to_nat (ihl (skb_iph skb) * 4 + sizeof_tcphdr)) (data skb)).

Record tcp_segment (skb : sk_buff) : Prop := {
  seg_bytes : Forall is_u8 (data skb);
  seg_ihl : 5 <= ihl (skb_iph skb);
  seg_doff : 5 <= th_doff (seg_th skb);
  seg_len : ihl (skb_iph skb) * 4 + th_doff (seg_th skb) * 4 <= skb_len skb;
  seg_opts_ok : opts_ok (seg_opts skb) }.

Section Segment.
Context (skb : sk_buff) (Hseg : tcp_segment skb).
Local Abbreviation iph := (skb_iph skb).
Local Abbreviation th := (seg_th skb).

Lemma seg_header : skb_header_pointer skb (ihl iph * 4) sizeof_tcphdr
  = Some (take 20 (drop (Z.to_nat (ihl iph * 4)) (data skb))).
Proof.
  destruct Hseg. unfold skb_header_pointer. rewrite (proj2 (Z.leb_le _ _)); [done|].
  unfold sizeof_tcphdr. lia.
Qed.

Lemma seg_options : skb_header_pointer skb (ihl iph * 4 + sizeof_tcphdr)
    (th_doff th * 4 - sizeof_tcphdr) = Some (seg_opts skb).
Proof.
  destruct Hseg. unfold skb_header_pointer. rewrite (proj2 (Z.leb_le _ _)); [done|].
  unfold sizeof_tcphdr. lia.
Qed.

Lemma seg_opts_length : Z.of_nat (length (seg_opts skb)) = th_doff th * 4 - sizeof_tcphdr.
Proof.
  destruct Hseg. unfold seg_opts. rewrite length_take, length_drop.
  unfold skb_len, sizeof_tcphdr in *. lia.
Qed.

Lemma seg_opts_bytes : Forall is_u8 (seg_opts skb).
Proof. destruct Hseg. by apply Forall_take, Forall_drop. Qed.

Lemma tcp_options_ok s :
  ts_wf s → ∃ s', tcp_options skb iph th s = Some s' ∧ ts_wf s'.
Proof.
  intros Hs. unfold tcp_options. destruct (_ =? 0); [by eauto|].
  rewrite seg_options. cbn [mbind option_bind]. rewrite <- seg_opts_length.
  apply tcp_options_loop_ok; auto using seg_opts_ok, seg_opts_bytes. ts_solve.
Qed.

(** The timestamp fast path of [tcp_sack] compares the length of the options
    with [TCPOLEN_TSTAMP_ALIGNED*4] = 48, but a TCP header has at most 40 option
    bytes: on every segment the function is the option loop alone. *)
Lemma tcp_sack_fast_path_dead sack :
  th_doff th <= 15 →
  tcp_sack skb iph th sack =
  if th_doff th * 4 - sizeof_tcphdr =? 0 then Some sack
  else tcp_sack_loop (S (length (seg_opts skb))) (seg_opts skb)
         (th_doff th * 4 - sizeof_tcphdr) sack.
Proof.
  intros Hd. unfold tcp_sack. rewrite seg_options. cbn [mbind option_bind].
  rewrite (proj2 (Z.eqb_neq (_ - _) (TCPOLEN_TSTAMP_ALIGNED * 4))); [done|].
  unfold sizeof_tcphdr, TCPOLEN_TSTAMP_ALIGNED. lia.
Qed.

Lemma tcp_sack_ok sack :
  is_u32 sack → ∃ s, tcp_sack skb iph th sack = Some s ∧ is_u32 s.
Proof.
  intros Hs. unfold tcp_sack. destruct (_ =? 0); [by eauto|].
  rewrite seg_options. cbn [mbind option_bind]. destruct (_ && _); [by eauto|].
  rewrite <- seg_opts_length. apply tcp_sack_loop_ok; auto. by apply Hseg.
Qed.
End Segment.

(** ** [tcp_in_window] keeps the per-connection data well formed *)

Lemma win_or_1_range w : is_u16 w → is_u32 (win_or_1 w).
Proof. unfold win_or_1. destruct (w =? 0); word_lia. Qed.
Lemma u16_u32 w : is_u16 w → is_u32 w.
Proof. word_lia. Qed.
Lemma segment_seq_plus_len_range seq len iph th :
  is_u32 (segment_seq_plus_len seq len iph th).
Proof. apply u32_range. Qed.
#[export] Hint Resolve win_or_1_range u16_u32 segment_seq_plus_len_range : words.

Lemma seen_wf t d : tcp_wf t → ts_wf (seen t d).
Proof. intros []. by destruct d. Qed.
Lemma seen_set_seen t d s : seen (set_seen d s t) d = s.
Proof. by destruct d. Qed.
Lemma seen_set_seen_neg t d s : seen (set_seen d s t) (dir_neg d) = seen t (dir_neg d).
Proof. by destruct d. Qed.

Lemma set_seen_wf t d s : tcp_wf t → ts_wf s → tcp_wf (set_seen d s t).
Proof. intros [] ?. destruct d; constructor; done. Qed.
Lemma set_seen_other d s t :
  tcp_st (set_seen d s t) = tcp_st t ∧ last_index (set_seen d s t) = last_index t.
Proof. by destruct d. Qed.

Lemma tcp_init_sender_ok skb st d win e s r :
  tcp_segment skb → is_u16 win → is_u32 e → ts_wf s → ts_wf r →
  ∃ s' r', tcp_init_sender st d skb (skb_iph skb) (seg_th skb) win e s r = Some (s', r')
           ∧ ts_wf s' ∧ ts_wf r'.
Proof.
  intros Hseg Hw He Hs Hr. unfold tcp_init_sender.
  assert (ts_wf (s <| td_end := e |> <| td_maxend := e |> <| td_maxwin := win_or_1 win |>))
    as Hs1 by ts_solve.
  destruct (tcp_options_ok skb Hseg _ Hs1) as (s2 & Ho & Hs2).
  destruct (td_end s =? 0); [destruct (_ && _)|destruct (_ && _)]; rewrite ?Ho;
    cbn [mbind option_bind].
  - destruct (negb _); [do 2 eexists; split_and!; [done | ts_solve..] | eauto].
  - do 2 eexists; split_and!; [done | ts_solve | done].
  - eauto.
  - eauto.
Qed.

Lemma tcp_update_sender_wf e ack sack win s :
  is_u32 e → ts_wf s → ts_wf (tcp_update_sender e ack sack win s).
Proof. intros He Hs. unfold tcp_update_sender. cbn zeta. case_bool; ts_solve. Qed.

Lemma tcp_update_receiver_wf e sack win s r :
  ts_wf r → ts_wf (tcp_update_receiver e sack win s r).
Proof. intros Hr. unfold tcp_update_receiver. cbn zeta. case_bool; ts_solve. Qed.

Lemma tcp_check_retrans_wf t d i seq ack e :
  tcp_wf t → tcp_wf (tcp_check_retrans t d i seq ack e).
Proof.
  intros []. unfold tcp_check_retrans. case_bool; constructor; simpl; auto with words.
  word_lia.
Qed.
Lemma tcp_check_retrans_other t d i seq ack e :
  tcp_st (tcp_check_retrans t d i seq ack e) = tcp_st t ∧
  last_index (tcp_check_retrans t d i seq ack e) = last_index t.
Proof. unfold tcp_check_retrans. by case_bool. Qed.

Lemma tcp_in_window_ok cfg t d i skb :
  tcp_segment skb → tcp_wf t →
  ∃ res t', tcp_in_window cfg t d i skb (skb_iph skb) (seg_th skb) = Some (res, t')
            ∧ tcp_wf t' ∧ tcp_st t' = tcp_st t ∧ last_index t' = last_index t.
Proof.
  intros Hseg Ht. unfold tcp_in_window. set (th := seg_th skb). set (iph := skb_iph skb).
  set (ack0 := ntohl _). set (win0 := ntohs _). set (end0 := segment_seq_plus_len _ _ _ _).
  assert (is_u32 ack0) by apply swab32_range. assert (is_u16 win0) by apply swab16_range.
  assert (is_u32 end0) by apply u32_range. clearbody ack0 win0.
  assert (∃ sack, (if flag (ts_flags (seen t (dir_neg d))) IP_CT_TCP_FLAG_SACK_PERM
                   then tcp_sack skb iph th ack0 else Some ack0) = Some sack ∧ is_u32 sack)
    as (sack & -> & Hsack).
  { destruct (flag _ _); [apply tcp_sack_ok; auto with words | eauto with words]. }
  cbn [mbind option_bind].
  destruct (tcp_init_sender_ok skb (tcp_st t) d win0 end0 (seen t d) (seen t (dir_neg d)))
    as (s & r & Hi & Hs & Hr); auto using seen_wf with words.
  fold iph th in Hi. rewrite Hi. cbn [mbind option_bind].
  destruct (if negb (th_ack th) then _ else _) as [ack sack'].
  destruct (if (_ =? _) && _ then _ else _) as [seq end_] eqn:Eq.
  assert (is_u32 end_) as Hend.
  { revert Eq. case_bool; intros [= <- <-]; [by apply Hs | auto with words]. }
  destruct (tcp_accept _ _ _ _ _ _).
  - set (win := if negb (th_syn th) then _ else win0).
    pose proof (tcp_update_sender_wf end_ ack sack' win s Hend Hs) as Hs'.
    set (s' := tcp_update_sender _ _ _ _ _) in *. clearbody s'.
    pose proof (tcp_update_receiver_wf end_ sack' win s' r Hr) as Hr'.
    do 2 eexists. split; [done|].
    rewrite !(proj1 (set_seen_other _ _ _)), !(proj2 (set_seen_other _ _ _)).
    split; [|by apply tcp_check_retrans_other].
    repeat apply set_seen_wf; auto using tcp_check_retrans_wf.
    destruct (negb (loose s' =? 0)); [ts_solve | done].
  - do 2 eexists. split; [done|].
    rewrite !(proj1 (set_seen_other _ _ _)), !(proj2 (set_seen_other _ _ _)).
    split; [repeat apply set_seen_wf; auto | done].
Qed.

Lemma tcp_in_window_st cfg t d i skb iph th res t' :
  tcp_in_window cfg t d i skb iph th = Some (res, t') →
  tcp_st t' = tcp_st t ∧ last_index t' = last_index t.
Proof.
  unfold tcp_in_window. intros H.
  apply bind_Some in H as (sack & _ & H). apply bind_Some in H as ([s r] & _ & H).
  revert H. destruct (if negb (th_ack th) then _ else _) as [ack sack'].
  destruct (if (_ =? _) && _ then _ else _) as [seq end_].
  destruct (tcp_accept _ _ _ _ _ _); intros [= <- <-];
    rewrite !(proj1 (set_seen_other _ _ _)), !(proj2 (set_seen_other _ _ _)); [|done].
  apply tcp_check_retrans_other.
Qed.

(** ** The transition table *)

Lemma tcp_conntracks_range d i s :
  (tcp_conntrack_val s ≤ 8)%nat →
  ∃ n, tcp_conntracks d i s = Some n ∧
       (n = TCP_CONNTRACK_MAX ∨ n = TCP_CONNTRACK_IGNORE ∨
        (1 ≤ tcp_conntrack_val n ≤ 8)%nat).
Proof.
  intros H. destruct d, i, s; simpl in H; try lia; eexists; (split; [reflexivity|]);
    simpl; auto; right; right; lia.
Qed.

Lemma tcp_timeouts_some cfg s :
  (1 ≤ tcp_conntrack_val s ≤ 8)%nat → ∃ to, tcp_timeouts cfg s = Some to.
Proof. destruct s; simpl; intros; try lia; eauto. Qed.

(** ** The packet handler *)

(** What a packet may do to the status bits: nothing, or set [ASSURED] when both
    directions have been seen and the connection is established. *)
Definition status_step (old new : tcp_conntrack) (ct ct' : ip_conntrack) : Prop :=
  status ct' = status ct ∨
  test_bit IPS_SEEN_REPLY_BIT ct = true ∧ new = TCP_CONNTRACK_ESTABLISHED ∧
  (old = TCP_CONNTRACK_SYN_RECV ∨ old = TCP_CONNTRACK_ESTABLISHED) ∧
  status ct' = Z.setbit (status ct) IPS_ASSURED_BIT.

(** The TCP data of a conntrack an in-window packet leaves behind. *)
Lemma tcp_packet_in_window_spec cfg j ct skb ctinfo th i old new to :
  tcp_timeouts cfg new = Some to →
  ∃ r, tcp_packet_in_window cfg j ct skb ctinfo th i old new = Some r ∧
       pr_ret r = NF_ACCEPT ∧
       tcp_st (proto_tcp (pr_ct r)) = new ∧ last_index (proto_tcp (pr_ct r)) = i ∧
       (tcp_wf (proto_tcp ct) → (tcp_conntrack_val new ≤ 8)%nat →
        tcp_wf (proto_tcp (pr_ct r))) ∧
       status_step old new ct (pr_ct r).
Proof.
  intros Hto. unfold tcp_packet_in_window. rewrite Hto. cbn [mbind option_bind].
  set (t0 := (proto_tcp ct) <| last_index := i |> <| tcp_st := new |>).
  set (t := if _ && _ then _ else t0).
  assert (tcp_st t = new ∧ last_index t = i ∧
          (tcp_wf (proto_tcp ct) → (tcp_conntrack_val new ≤ 8)%nat → tcp_wf t))
    as (Ht1 & Ht2 & Ht3).
  { subst t. split_and!; case_bool; rewrite ?(proj1 (set_seen_other _ _ _)),
      ?(proj2 (set_seen_other _ _ _)); try done.
    - intros Hw Hn. assert (tcp_wf t0) as H0 by (destruct Hw; by constructor).
      apply set_seen_wf; [done|]. pose proof (seen_wf t0 (CTINFO2DIR ctinfo) H0). ts_solve.
    - intros [] ?. by constructor. }
  clearbody t. destruct (negb _ && _).
  - eexists; split; [done|]. simpl. split_and!; auto. by left.
  - destruct (_ && bool_decide (new = _)) eqn:E.
    + eexists; split; [done|]. simpl. rewrite refresh_proto. simpl.
      split_and!; auto. right.
      rewrite !andb_true_iff, orb_true_iff, !bool_decide_eq_true in E.
      destruct E as (((H1 & _) & H3) & ->). split_and!; auto.
      by rewrite refresh_status.
    + eexists; split; [done|]. simpl. rewrite refresh_proto. simpl. split_and!; auto.
      left. by rewrite refresh_status.
Qed.

(** What one packet does: the new state is the old one or the table's. *)
Lemma tcp_packet_check_spec cfg j ct skb ctinfo iph th i old new to r :
  tcp_timeouts cfg new = Some to →
  tcp_packet_check cfg j ct skb ctinfo iph th i old new = Some r →
  (tcp_st (proto_tcp (pr_ct r)) = tcp_st (proto_tcp ct) ∧ status (pr_ct r) = status ct) ∨
  tcp_st (proto_tcp (pr_ct r)) = new ∧
  status_step old new ct (pr_ct r).
Proof.
  intros Hto. unfold tcp_packet_check. destruct (_ && _).
  - intros H.
    destruct (tcp_packet_in_window_spec cfg j ct skb ctinfo th i old new to Hto)
      as (r' & H' & _ & ? & _ & _ & ?). rewrite H in H'. simplify_eq. by right.
  - intros H. apply bind_Some in H as ([res t] & Hw & H).
    apply tcp_in_window_st in Hw as [Hst _].
    destruct (res =? 0); [injection H as <-; by left|].
    destruct (tcp_packet_in_window_spec cfg j (ct <| proto_tcp := t |>) skb ctinfo th i
                old new to Hto) as (r' & H' & _ & ? & _ & _ & ?).
    rewrite H in H'. simplify_eq. by right.
Qed.

Lemma tcp_packet_spec cfg j ct skb ctinfo r :
  (tcp_conntrack_val (tcp_st (proto_tcp ct)) ≤ 8)%nat →
  tcp_packet cfg j ct skb ctinfo = Some r →
  let old := tcp_st (proto_tcp ct) in
  let st' := tcp_st (proto_tcp (pr_ct r)) in
  (st' = old ∧ status (pr_ct r) = status ct) ∨
  (∃ hp, skb_header_pointer skb (ihl (skb_iph skb) * 4) sizeof_tcphdr = Some hp ∧
    tcp_conntracks (CTINFO2DIR ctinfo) (get_conntrack_index (tcphdr_at hp 0)) old = Some st' ∧
    (1 ≤ tcp_conntrack_val st' ≤ 8)%nat ∧
    status_step old st' ct (pr_ct r)).
Proof.
  intros Hst H old st'. unfold tcp_packet in H.
  apply bind_Some in H as (hp & Hhp & H). apply bind_Some in H as (new & Hnew & H).
  destruct (tcp_conntracks_range (CTINFO2DIR ctinfo) (get_conntrack_index (tcphdr_at hp 0))
              old Hst) as (n & Hn & Hr).
  assert (n = new) as -> by (subst old; congruence).
  assert (new = TCP_CONNTRACK_IGNORE → st' = old ∧ status (pr_ct r) = status ct) as Hign.
  { intros ->. injection H as <-. subst st'. unfold tcp_packet_ignore, kill_conntrack.
    by case_bool. }
  destruct Hr as [->|[->|Hr]]; [injection H as <-; by left | left; by apply Hign |].
  destruct (tcp_timeouts_some cfg new Hr) as [to Hto].
  assert (∀ r', tcp_packet_check cfg j ct skb ctinfo (skb_iph skb) (tcphdr_at hp 0)
            (get_conntrack_index (tcphdr_at hp 0)) old new = Some r' → r = r' →
          (st' = old ∧ status (pr_ct r) = status ct) ∨ st' = new ∧
          status_step old new ct (pr_ct r)) as Hchk.
  { intros r' Hc ->. eapply tcp_packet_check_spec in Hc; eauto. }
  assert ((st' = old ∧ status (pr_ct r) = status ct) ∨ st' = new ∧
          status_step old new ct (pr_ct r)) as [?|[-> ?]].
  { destruct new; try (eapply Hchk; [exact H | done]); simpl in Hr; try lia.
    - destruct (_ <? _)%nat; [by eapply Hchk|]. left.
      destruct (_ || _); injection H as <-; subst st'; unfold kill_conntrack; by simpl.
    - destruct (_ && _ && _); [|by eapply Hchk].
      destruct (tcp_packet_in_window_spec cfg j ct skb ctinfo (tcphdr_at hp 0)
                  (get_conntrack_index (tcphdr_at hp 0)) old TCP_CONNTRACK_CLOSE to Hto)
        as (r' & H' & _ & ? & _ & _ & ?).
      subst old. rewrite H in H'. simplify_eq. by right. }
  - by left.
  - right. exists hp. split_and!; auto; lia.
Qed.

(** A packet is accepted; or found invalid, and the connection stays; or the connection
    gives way to a new one, and the packet is dropped or looked at again. *)
Definition tcp_verdict (r : packet_result) : Prop :=
  pr_ret r = NF_ACCEPT ∨ pr_ret r = - NF_ACCEPT ∧ pr_kill r = false ∧ pr_hnat r = false ∨
  (pr_ret r = - NF_DROP ∨ pr_ret r = - NF_REPEAT) ∧ pr_hnat r = false.

(** C21: [tcp_packet] is safe and keeps the tracker's data well formed: on every
    segment with a complete header and options that fit it, and for every
    conntrack whose TCP data is within its widths, the handler returns (it reads
    no option byte outside the header, indexes the transition table in range and
    never dereferences a [NULL] timeout) with one of its four verdicts
    ([tcp_verdict]), and the data it leaves is again within its widths, with a window
    scale of at most 14 and a state below [LISTEN]. *)
Theorem tcp_packet_safe cfg j ct skb ctinfo :
  tcp_segment skb → tcp_wf (proto_tcp ct) →
  ∃ r, tcp_packet cfg j ct skb ctinfo = Some r ∧ tcp_wf (proto_tcp (pr_ct r)) ∧ tcp_verdict r.
Proof.
  intros Hseg Hwf. unfold tcp_packet. rewrite seg_header by done. cbn [mbind option_bind].
  fold (seg_th skb). set (i := get_conntrack_index _). set (old := tcp_st (proto_tcp ct)).
  destruct (tcp_conntracks_range (CTINFO2DIR ctinfo) i old) as (new & Hn & Hr);
    [apply Hwf|]. rewrite Hn. cbn [mbind option_bind].
  assert (∀ ct', tcp_verdict (mk_pr (- NF_ACCEPT) ct' false false)) as Hinv by (intros ct'; right; by left).
  destruct Hr as [->|[->|Hr]]; [by eauto | |].
  { eexists; split; [done|]. unfold tcp_packet_ignore, kill_conntrack, tcp_verdict.
    destruct Hwf. case_bool; (split; [by constructor|]); [right; right; by split; [left|]|by left]. }
  destruct (tcp_timeouts_some cfg new Hr) as [to Hto].
  assert (∀ ct', tcp_wf (proto_tcp ct') → ∃ r, tcp_packet_in_window cfg j ct' skb ctinfo
            (seg_th skb) i old new = Some r ∧ tcp_wf (proto_tcp (pr_ct r)) ∧ tcp_verdict r) as Hin.
  { intros ct' Hct'.
    destruct (tcp_packet_in_window_spec cfg j ct' skb ctinfo (seg_th skb) i old new to Hto)
      as (r & ? & ? & _ & _ & Hw & _). exists r. split; [done|]. split; [apply Hw; [done|lia]|by left]. }
  assert (∃ r, tcp_packet_check cfg j ct skb ctinfo (skb_iph skb) (seg_th skb) i old new
               = Some r ∧ tcp_wf (proto_tcp (pr_ct r)) ∧ tcp_verdict r) as Hchk.
  { unfold tcp_packet_check. destruct (_ && _); [by apply Hin|].
    destruct (tcp_in_window_ok cfg (proto_tcp ct) (CTINFO2DIR ctinfo) i skb)
      as (res & t & -> & Ht & _); auto. cbn [mbind option_bind].
    destruct (res =? 0); [by eauto | by apply Hin]. }
  destruct new; simpl in Hr; try lia; try done.
  - destruct (_ <? _)%nat; [done|]. destruct (_ || _); eexists; split_and!; try done.
    right; right. by split; [right|].
  - destruct (_ && _ && _); [by apply Hin | done].
Qed.

(** C22: how a connection gets established.  A packet moves the tracker into
    [ESTABLISHED] only as an ACK of the original direction, from [SYN_RECV] or as
    the pick-up of an unknown connection from [NONE]; it moves it into [SYN_RECV]
    only as a SYN/ACK of the reply direction answering a SYN; and [ASSURED] is
    set only in the transition to [ESTABLISHED] of a connection that has seen
    traffic in both directions. *)
Theorem tcp_handshake cfg j ct skb ctinfo r :
  (tcp_conntrack_val (tcp_st (proto_tcp ct)) ≤ 8)%nat →
  tcp_packet cfg j ct skb ctinfo = Some r →
  let old := tcp_st (proto_tcp ct) in
  let st' := tcp_st (proto_tcp (pr_ct r)) in
  let th := seg_th skb in
  (st' = TCP_CONNTRACK_ESTABLISHED → old ≠ st' →
     CTINFO2DIR ctinfo = IP_CT_DIR_ORIGINAL ∧ get_conntrack_index th = TCP_ACK_SET ∧
     (old = TCP_CONNTRACK_NONE ∨ old = TCP_CONNTRACK_SYN_RECV)) ∧
  (st' = TCP_CONNTRACK_SYN_RECV → old ≠ st' →
     CTINFO2DIR ctinfo = IP_CT_DIR_REPLY ∧ get_conntrack_index th = TCP_SYNACK_SET ∧
     old = TCP_CONNTRACK_SYN_SENT) ∧
  (test_bit IPS_ASSURED_BIT (pr_ct r) = true → test_bit IPS_ASSURED_BIT ct = false →
     test_bit IPS_SEEN_REPLY_BIT ct = true ∧ st' = TCP_CONNTRACK_ESTABLISHED ∧
     (old = TCP_CONNTRACK_SYN_RECV ∨ old = TCP_CONNTRACK_ESTABLISHED)).
Proof.
  intros Hst H old st' th. apply tcp_packet_spec in H; [|done]. fold old st' in H.
  assert (∀ hp, skb_header_pointer skb (ihl (skb_iph skb) * 4) sizeof_tcphdr = Some hp →
            tcphdr_at hp 0 = th) as Hth.
  { intros hp. unfold skb_header_pointer. case_bool; [|done]. by intros [= <-]. }
  unfold test_bit. destruct H as [[-> Hs] | (hp & Hhp & Ht & Hr & Hs)].
  - rewrite Hs. split_and!; congruence.
  - rewrite (Hth _ Hhp) in Ht. clearbody old st' th.
    destruct (CTINFO2DIR ctinfo), (get_conntrack_index th), old; try discriminate Ht;
      injection Ht as <-; simpl in Hr; try lia;
      destruct Hs as [-> | (? & ? & ? & ->)]; split_and!; try congruence; auto.
Qed.

(** ** Window arithmetic *)

Lemma before_u32 a b :
  -2147483648 <= a - b < 2147483648 → before (u32 a) (u32 b) = (a <? b).
Proof.
  intros. unfold before. destruct (Z.ltb_spec a b); [apply Z.ltb_lt | apply Z.ltb_ge]; word_lia.
Qed.
Lemma after_u32 a b :
  -2147483648 <= b - a < 2147483648 → after (u32 a) (u32 b) = (b <? a).
Proof.
  intros. unfold after. destruct (Z.ltb_spec b a); [apply Z.ltb_lt | apply Z.ltb_ge]; word_lia.
Qed.
Lemma after_irrefl a : after a a = false.
Proof. unfold after. apply Z.ltb_ge. word_lia. Qed.

(** C23: the modular window test is a test on intervals.  Take the stream positions
    as unbounded integers ([seq], [end], [ack], [sack] of the segment, [me] and
    [te] the sender's [td_maxend] and [td_end], [re] the receiver's [td_end]) and
    let the tracker hold them modulo 2^32.  As long as no distance compared
    reaches 2^31, the test the code makes on the 32-bit words holds exactly when
    the segment intersects the window: [seq <= me], [end >= te - maxwin],
    [sack <= re] and [ack > re - MAXACKWINDOW].  The first three are conditions I to III
    of the comment at the head of the code; condition IV of the comment, [ack >= re -
    MAXACKWINDOW], has an acknowledgement at the bound itself, which the code refuses
    ([window_bound_refused]). *)
Theorem tcp_window_conds_spec seq end_ ack sack me te re s r :
  td_maxend s = u32 me → td_end s = u32 te → td_end r = u32 re →
  -2147483648 <= seq - (me + 1) < 2147483648 →
  -2147483648 <= (te - td_maxwin r - 1) - end_ < 2147483648 →
  -2147483648 <= sack - (re + 1) < 2147483648 →
  -2147483648 <= (re - MAXACKWINDOW s) - ack < 2147483648 →
  tcp_window_conds (u32 seq) (u32 end_) (u32 ack) (u32 sack) s r = true ↔
  seq <= me ∧ te - td_maxwin r <= end_ ∧ sack <= re ∧ re - MAXACKWINDOW s < ack.
Proof.
  intros Hme Hte Hre H1 H2 H3 H4. unfold tcp_window_conds. rewrite Hme, Hte, Hre.
  rewrite u32_add_l, u32_add_l.
  replace (u32 (u32 te - td_maxwin r - 1)) with (u32 (te - td_maxwin r - 1)) by word_lia.
  replace (u32 (u32 re - MAXACKWINDOW s)) with (u32 (re - MAXACKWINDOW s)) by word_lia.
  rewrite !before_u32, !after_u32 by done. rewrite !andb_true_iff, !Z.ltb_lt. lia.
Qed.

(** The comment's condition IV holds at the bound, the test of the code does not. *)
Lemma window_bound_refused seq end_ sack re s r : td_end r = u32 re →
  tcp_window_conds seq end_ (u32 (re - MAXACKWINDOW s)) sack s r = false.
Proof.
  intros Hre. unfold tcp_window_conds. rewrite Hre.
  replace (u32 (u32 re - MAXACKWINDOW s)) with (u32 (re - MAXACKWINDOW s)) by word_lia.
  by rewrite after_irrefl, andb_false_r.
Qed.

Lemma tcp_update_sender_end e ack sack win s :
  td_end (tcp_update_sender e ack sack win s)
  = if after e (td_end s) then e else td_end s.
Proof.
  unfold tcp_update_sender. cbn zeta.
  destruct (td_maxwin s <? _); simpl; by destruct (after _ _).
Qed.
Lemma tcp_update_receiver_end e sack win s r :
  td_end (tcp_update_receiver e sack win s r) = td_end r.
Proof. unfold tcp_update_receiver. cbn zeta. by case_bool. Qed.

Lemma tcp_options_one_end k n ptr s s' :
  tcp_options_one k n ptr s = Some s' → td_end s' = td_end s.
Proof.
  unfold tcp_options_one. case_bool; [by intros [= <-] | | by intros [= <-]].
  intros H. apply bind_Some in H as (? & _ & H). by injection H as <-.
Qed.
Lemma tcp_options_loop_end fuel : ∀ ptr n s s',
  tcp_options_loop fuel ptr n s = Some s' → td_end s' = td_end s.
Proof.
  induction fuel as [|fuel IH]; intros [|k [|m ptr]] n s s'; cbn [tcp_options_loop]; try done;
    case_bool; try done; try (by intros [= <-]); try apply IH.
  intros H. apply bind_Some in H as (s1 & H1 & H).
  rewrite (IH _ _ _ _ H). by eapply tcp_options_one_end.
Qed.
Lemma tcp_options_end skb iph th s s' :
  tcp_options skb iph th s = Some s' → td_end s' = td_end s.
Proof.
  unfold tcp_options. case_bool; [by intros [= <-]|].
  intros H. apply bind_Some in H as (? & _ & H). by apply tcp_options_loop_end in H.
Qed.

Lemma tcp_init_sender_end st d skb iph th win e s r s' r' :
  tcp_init_sender st d skb iph th win e s r = Some (s', r') → td_end s ≠ 0 →
  td_end r' = td_end r ∧
  (td_end s' = td_end s ∨ td_end s' = e ∧ after e (td_end s) = true).
Proof.
  unfold tcp_init_sender. intros H H0. rewrite (proj2 (Z.eqb_neq _ _) H0) in H.
  destruct (_ && after _ _) eqn:E; [|injection H as <- <-; auto].
  apply bind_Some in H as (s1 & Hs & H). injection H as <- <-.
  apply tcp_options_end in Hs. simpl in Hs. apply andb_prop in E as [_ E]. auto.
Qed.

(** The right edge of the data seen from a host only moves forward, and only
    by segments of that host: a segment checked by [tcp_in_window] leaves the
    receiver's [td_end] as it is, and the sender's [td_end], once known, is left
    or replaced by a later sequence number. *)
Lemma tcp_in_window_td_end cfg t d i skb iph th res t' :
  td_end (seen t d) ≠ 0 →
  tcp_in_window cfg t d i skb iph th = Some (res, t') →
  td_end (seen t' (dir_neg d)) = td_end (seen t (dir_neg d)) ∧
  (td_end (seen t' d) = td_end (seen t d) ∨
   after (td_end (seen t' d)) (td_end (seen t d)) = true).
Proof.
  intros H0. unfold tcp_in_window. set (e := segment_seq_plus_len _ _ _ _). intros H.
  apply bind_Some in H as (sack & _ & H). apply bind_Some in H as ([s r] & Hi & H).
  apply tcp_init_sender_end in Hi as [Hr Hs]; [|done].
  revert H. destruct (if negb (th_ack th) then _ else _) as [ack sack'].
  destruct (if (_ =? _) && _ then _ else _) as [seq end_] eqn:Ee.
  assert (end_ = e ∨ end_ = td_end s) as He.
  { revert Ee. case_bool; intros [= <- <-]; auto. }
  destruct (tcp_accept _ _ _ _ _ _); intros [= <- <-];
    rewrite seen_set_seen, seen_set_seen_neg, seen_set_seen.
  - split; [by rewrite tcp_update_receiver_end|].
    case_bool; simpl; rewrite tcp_update_sender_end;
      destruct He as [->| ->]; rewrite ?after_irrefl; destruct Hs as [->|[-> ?]];
      rewrite ?after_irrefl; auto; case_bool; auto.
  - split; [done|]. destruct Hs as [->|[-> ?]]; auto.
Qed.

(** ** What [tcp_error] lets through *)

Lemma tcp_valid_flags_bits f :
  tcp_valid_flags (Z.land f (Z.lnot (Z.lor TH_ECE TH_CWR))) = true →
  let b i := Z.testbit f i in
  (b 1 && b 0 = false) ∧ (b 1 && b 2 = false) ∧ (b 0 && b 2 = false) ∧
  (b 1 || b 2 || b 4 = true).
Proof.
  intros H b. unfold tcp_valid_flags in H. apply existsb_exists in H as (v & Hin & Hv).
  apply Z.eqb_eq in Hv.
  assert (∀ i, (i = 0 ∨ i = 1 ∨ i = 2 ∨ i = 4) → b i = Z.testbit v i) as Hb.
  { intros i Hi. rewrite <- Hv, Z.land_spec. unfold b.
    destruct Hi as [-> | [-> | [-> | ->]]]; symmetry; apply andb_true_r. }
  rewrite !Hb by tauto. clear -Hin.
  repeat (destruct Hin as [<- | Hin]; [vm_compute; auto |]). destruct Hin.
Qed.

(** A segment [tcp_error] accepts has a complete header and a flag combination
    that is not contradictory (never SYN with FIN, SYN with RST or FIN with RST),
    and is classified by the state machine ([TCP_NONE_SET] does not occur), so the
    all-invalid rows of the table are only there for packets refused before. *)
Lemma tcp_error_accept skb hooknum :
  ihl (skb_iph skb) * 4 <= skb_len skb < 4294967296 → 0 <= ihl (skb_iph skb) →
  tcp_error skb hooknum = NF_ACCEPT →
  let th := seg_th skb in
  5 <= th_doff th ∧ ihl (skb_iph skb) * 4 + th_doff th * 4 <= skb_len skb ∧
  th_syn th && th_fin th = false ∧ th_syn th && th_rst th = false ∧
  th_fin th && th_rst th = false ∧ get_conntrack_index th ≠ TCP_NONE_SET.
Proof.
  intros Hlen Hihl H th. unfold tcp_error, skb_header_pointer in H.
  destruct (_ <=? skb_len skb) eqn:Ehp; [|done].
  change (tcphdr_at _ 0) with th in H.
  destruct (_ || _) eqn:E1; [done|]. destruct (_ && _ && _); [done|].
  destruct (negb (tcp_valid_flags _)) eqn:E3; [done|]. clear H Ehp.
  apply orb_false_iff in E1 as [Ed%Z.ltb_ge El%Z.ltb_ge].
  apply negb_false_iff, tcp_valid_flags_bits in E3. cbv beta zeta in E3.
  destruct E3 as (H1 & H2 & H3 & H4).
  unfold th_syn, th_fin, th_rst. rewrite u32_id in El by word_lia.
  unfold sizeof_tcphdr in Ed. split_and!; auto; try lia.
  unfold get_conntrack_index, th_rst, th_syn, th_fin, th_ack.
  intros Hn. revert Hn. case_bool; try done.
Qed.

(** ** Partial options *)

(** An option whose length byte exceeds the option bytes that remain makes
    [tcp_options] read outside the header.  The [break] meant to stop the parse
    leaves only the [switch]; for an option block that ends in such a partial
    option the next iteration loads a byte behind the block.  (Here: two NOPs,
    a kind [k] and a length [n > 2], in a header of 24 bytes.) *)
Lemma tcp_options_partial_oob skb s k n :
  ihl (skb_iph skb) * 4 + 24 <= skb_len skb → 0 <= ihl (skb_iph skb) →
  th_doff (seg_th skb) = 6 →
  seg_opts skb = [TCPOPT_NOP; TCPOPT_NOP; k; n] →
  k ≠ TCPOPT_EOL → k ≠ TCPOPT_NOP → 2 < n →
  tcp_options skb (skb_iph skb) (seg_th skb) s = None.
Proof.
  intros Hl Hi Hd Ho Hk0 Hk1 Hn. unfold tcp_options, skb_header_pointer.
  rewrite Hd. unfold seg_opts, sizeof_tcphdr in *. rewrite Hd in Ho.
  rewrite (proj2 (Z.leb_le _ _)) by lia. cbn [mbind option_bind]. rewrite Ho.
  simpl. apply Z.eqb_neq in Hk0 as ->, Hk1 as ->. simpl.
  rewrite (proj2 (Z.ltb_ge n 2)) by lia. by rewrite (proj2 (Z.ltb_lt _ n)) by lia.
Qed.

(** ** The hardware-NAT build *)

Lemma seg_packet cfg j ct skb ctinfo new :
  tcp_segment skb →
  tcp_conntracks (CTINFO2DIR ctinfo) (get_conntrack_index (seg_th skb))
    (tcp_st (proto_tcp ct)) = Some new →
  tcp_packet cfg j ct skb ctinfo =
  let t := proto_tcp ct in
  let th := seg_th skb in
  let dir := CTINFO2DIR ctinfo in
  let i := get_conntrack_index th in
  let check := tcp_packet_check cfg j ct skb ctinfo (skb_iph skb) th i (tcp_st t) new in
  match new with
  | TCP_CONNTRACK_IGNORE => Some (tcp_packet_ignore ct skb (skb_iph skb) th dir i)
  | TCP_CONNTRACK_MAX => Some (mk_pr (- NF_ACCEPT) ct false false)
  | TCP_CONNTRACK_SYN_SENT =>
      if (tcp_conntrack_val (tcp_st t) <? tcp_conntrack_val TCP_CONNTRACK_TIME_WAIT)%nat
      then check
      else if flag (ts_flags (seen t dir)) IP_CT_TCP_FLAG_CLOSE_INIT
              || after (ntohl (th_seq th)) (td_end (seen t dir))
      then Some (kill_conntrack (- NF_REPEAT) ct)
      else Some (mk_pr (- NF_ACCEPT) ct false false)
  | TCP_CONNTRACK_CLOSE =>
      if bool_decide (i = TCP_RST_SET)
         && ((test_bit IPS_SEEN_REPLY_BIT ct && bool_decide (last_index t = TCP_SYN_SET))
             || (negb (test_bit IPS_ASSURED_BIT ct)
                 && bool_decide (last_index t = TCP_ACK_SET)))
         && (ntohl (th_ack_seq th) =? last_end t)
      then tcp_packet_in_window cfg j ct skb ctinfo th i (tcp_st t) new
      else check
  | _ => check
  end.
Proof.
  intros Hseg Hn. unfold tcp_packet. rewrite seg_header by done. cbn [mbind option_bind].
  change (tcphdr_at _ 0) with (seg_th skb). by rewrite Hn.
Qed.

(** with [CONFIG_STR9100_SHNAT], as the firmware is built, no RST is checked
    against the window: whatever its sequence number, a RST in either direction
    is accepted and closes the tracked connection. *)
Lemma shnat_rst_unchecked cfg j ct skb ctinfo :
  CONFIG_STR9100_SHNAT cfg = true → tcp_segment skb → th_rst (seg_th skb) = true →
  (1 ≤ tcp_conntrack_val (tcp_st (proto_tcp ct)) ≤ 8)%nat →
  ∃ r, tcp_packet cfg j ct skb ctinfo = Some r ∧ pr_ret r = NF_ACCEPT ∧
       tcp_st (proto_tcp (pr_ct r)) = TCP_CONNTRACK_CLOSE.
Proof.
  intros Hcfg Hseg Hrst Hst.
  assert (get_conntrack_index (seg_th skb) = TCP_RST_SET) as Hi
    by (unfold get_conntrack_index; by rewrite Hrst).
  assert (tcp_conntracks (CTINFO2DIR ctinfo) TCP_RST_SET (tcp_st (proto_tcp ct))
          = Some TCP_CONNTRACK_CLOSE) as Hn.
  { destruct (CTINFO2DIR ctinfo), (tcp_st (proto_tcp ct)); simpl in Hst; lia || done. }
  destruct (tcp_packet_in_window_spec cfg j ct skb ctinfo (seg_th skb) TCP_RST_SET
              (tcp_st (proto_tcp ct)) TCP_CONNTRACK_CLOSE (to_close cfg) eq_refl)
    as (r & Hr & Hret & Hs & _).
  exists r. rewrite (seg_packet _ _ _ _ _ TCP_CONNTRACK_CLOSE); [|done|by rewrite Hi].
  cbn zeta. rewrite Hi. unfold tcp_packet_check. rewrite Hcfg, Hrst.
  change (true && (true || _)) with true. by destruct (_ && _ && _).
Qed.

(** [IP_CT_TCP_FLAG_CLOSE_INIT] is 0x03, the union of the window-scale and SACK
    bits, so a peer that merely offered SACK counts as the one that closed the
    connection: its SYN, with any sequence number, removes the conntrack of a
    connection in [TIME_WAIT] or [CLOSE] and the packet is looked up again. *)
Lemma sack_perm_reopens cfg j ct skb ctinfo :
  tcp_segment skb → get_conntrack_index (seg_th skb) = TCP_SYN_SET →
  CTINFO2DIR ctinfo = IP_CT_DIR_ORIGINAL →
  tcp_st (proto_tcp ct) = TCP_CONNTRACK_TIME_WAIT ∨
  tcp_st (proto_tcp ct) = TCP_CONNTRACK_CLOSE →
  ts_flags (seen0 (proto_tcp ct)) = IP_CT_TCP_FLAG_SACK_PERM →
  tcp_packet cfg j ct skb ctinfo = Some (kill_conntrack (- NF_REPEAT) ct).
Proof.
  intros Hseg Hi Hd Hst Hf.
  rewrite (seg_packet _ _ _ _ _ TCP_CONNTRACK_SYN_SENT); [|done|].
  - cbn zeta. rewrite Hd. simpl seen. rewrite Hf. by destruct Hst as [-> | ->].
  - rewrite Hi, Hd. by destruct Hst as [-> | ->].
Qed.

(** ** Concrete connections *)

Definition ts0 : ip_ct_tcp_state := mk_ts 0 0 0 0 0 0.
Definition tcp0 : ip_ct_tcp :=
  mk_tcp ts0 ts0 TCP_CONNTRACK_NONE IP_CT_DIR_ORIGINAL 0 TCP_SYN_SET 0 0 0.

(** A zeroed conntrack, as [ip_conntrack_alloc] returns it, with its tuples. *)
Definition ct0 (o r : ip_conntrack_tuple) : ip_conntrack :=
  mk_ct 1 0 (mk_timer false 0) 0 0 0 0 None 0 0 None tcp0 0
    (mk_nseq 0 0 0) (mk_nseq 0 0 0) 0 0 o r.

(** The tracker on a list of packets, with the two steps of [ip_conntrack_in]
    around it that matter here: [tcp_new] for the first packet, and setting
    [SEEN_REPLY] after an accepted packet of the reply direction. *)
Fixpoint tcp_run (cfg : tcp_cfg) (ct : ip_conntrack) (pkts : list (sk_buff * Z))
    : option (list (Z * tcp_conntrack)) :=
  match pkts with
  | [] => Some []
  | (skb, ctinfo) :: pkts =>
      r ← tcp_packet cfg 0 ct skb ctinfo;
      let ct' := if (0 <=? pr_ret r) && dir_eqb (CTINFO2DIR ctinfo) IP_CT_DIR_REPLY
                 then set_bit IPS_SEEN_REPLY_BIT (pr_ct r) else pr_ct r in
      rest ← tcp_run cfg ct' pkts;
      Some ((pr_ret r, tcp_st (proto_tcp ct')) :: rest)
  end.

Definition tcp_session (cfg : tcp_cfg) (pkts : list (sk_buff * Z))
    : option (list (Z * tcp_conntrack)) :=
  match pkts with
  | [] => Some []
  | (skb, _) :: _ =>
      let t := mk_tuple 0 0 0 0 6 IP_CT_DIR_ORIGINAL in
      '(ok, ct) ← tcp_new cfg (ct0 t t) skb;
      if (ok : bool) then tcp_run cfg ct pkts else None
  end.

(** A connection from 10.0.0.2:1025 to 10.0.0.1:80, opened, and closed by the
    client's FIN, which the server acknowledges first and answers later. *)
Definition c2s (seq ack flags : Z) : sk_buff :=
  tcp_pkt 167772162 167772161 1025 80 seq ack flags 8192 [] [].
Definition s2c (seq ack flags : Z) : sk_buff :=
  tcp_pkt 167772161 167772162 80 1025 seq ack flags 8192 [] [].

Definition half_close : list (sk_buff * Z) :=
  [ (c2s 1000 0 TH_SYN, IP_CT_NEW);
    (s2c 5000 1001 (TH_SYN + TH_ACK), IP_CT_ESTABLISHED + IP_CT_IS_REPLY);
    (c2s 1001 5001 TH_ACK, IP_CT_ESTABLISHED);
    (c2s 1001 5001 (TH_FIN + TH_ACK), IP_CT_ESTABLISHED);
    (s2c 5001 1002 TH_ACK, IP_CT_ESTABLISHED + IP_CT_IS_REPLY) ].

(** Skipping [tcp_in_window] for FIN segments also skips recording the sequence
    number the FIN occupies.  In the firmware's build the server's
    acknowledgement of a FIN is therefore classified INVALID and the connection
    stays in [FIN_WAIT]; the same packets through the unmodified tracker are all
    accepted and lead to [CLOSE_WAIT]. *)
Lemma shnat_fin_ack_invalid :
  tcp_session (tcp_defaults false) half_close =
    Some [ (NF_ACCEPT, TCP_CONNTRACK_SYN_SENT); (NF_ACCEPT, TCP_CONNTRACK_SYN_RECV);
           (NF_ACCEPT, TCP_CONNTRACK_ESTABLISHED); (NF_ACCEPT, TCP_CONNTRACK_FIN_WAIT);
           (NF_ACCEPT, TCP_CONNTRACK_CLOSE_WAIT) ] ∧
  tcp_session (tcp_defaults true) half_close =
    Some [ (NF_ACCEPT, TCP_CONNTRACK_SYN_SENT); (NF_ACCEPT, TCP_CONNTRACK_SYN_RECV);
           (NF_ACCEPT, TCP_CONNTRACK_ESTABLISHED); (NF_ACCEPT, TCP_CONNTRACK_FIN_WAIT);
           (- NF_ACCEPT, TCP_CONNTRACK_FIN_WAIT) ].
Proof. split; vm_compute; reflexivity. Qed.

(** ** Witnesses *)

Ltac concrete_segment :=
  constructor; [repeat constructor; vm_compute; intuition discriminate | vm_compute..];
  try discriminate; repeat constructor.

Lemma c2s_segment : tcp_segment (c2s 1000 0 TH_SYN).
Proof. concrete_segment. Qed.

Definition tuple0 : ip_conntrack_tuple := mk_tuple 0 0 0 0 6 IP_CT_DIR_ORIGINAL.

(** A conntrack in state [st] whose two sides sit at the given [td_end]s. *)
Definition ct_in (st : tcp_conntrack) (e0 e1 flags : Z) : ip_conntrack :=
  (ct0 tuple0 tuple0) <| proto_tcp :=
    tcp0 <| tcp_st := st |>
         <| seen0 := mk_ts e0 (e0 + 8192) 8192 0 0 flags |>
         <| seen1 := mk_ts e1 (e1 + 8192) 8192 0 0 flags |> |>.

Lemma tcp_packet_safe_witness :
  ∃ r, tcp_packet (tcp_defaults true) 0 (ct0 tuple0 tuple0) (c2s 1000 0 TH_SYN) IP_CT_NEW
       = Some r ∧ tcp_wf (proto_tcp (pr_ct r)) ∧ tcp_verdict r.
Proof.
  apply tcp_packet_safe; [exact c2s_segment |].
  constructor; [constructor; vm_compute; intuition discriminate.. | vm_compute; lia |].
  vm_compute; intuition discriminate.
Defined.

Lemma tcp_handshake_witness :
  ∃ r, tcp_packet (tcp_defaults true) 0 (ct_in TCP_CONNTRACK_SYN_RECV 1001 5001 0)
         (c2s 1001 5001 TH_ACK) IP_CT_ESTABLISHED = Some r ∧
       tcp_st (proto_tcp (pr_ct r)) = TCP_CONNTRACK_ESTABLISHED ∧
       CTINFO2DIR IP_CT_ESTABLISHED = IP_CT_DIR_ORIGINAL.
Proof.
  destruct (tcp_packet (tcp_defaults true) 0 (ct_in TCP_CONNTRACK_SYN_RECV 1001 5001 0)
              (c2s 1001 5001 TH_ACK) IP_CT_ESTABLISHED) as [r|] eqn:E;
    [|vm_compute in E; discriminate].
  exists r. split; [reflexivity|].
  assert (tcp_st (proto_tcp (pr_ct r)) = TCP_CONNTRACK_ESTABLISHED) as Hs
    by (vm_compute in E; injection E as <-; reflexivity).
  split; [exact Hs|].
  refine (proj1 (proj1 (tcp_handshake _ _ _ _ _ r _ E) Hs _)).
  - vm_compute; lia.
  - rewrite Hs. discriminate.
Defined.

Lemma tcp_window_conds_spec_witness :
  tcp_window_conds (u32 4294967290) (u32 4294967300) (u32 100) (u32 100)
    (mk_ts (u32 4294967290) (u32 4294968290) 8192 0 0 0) (mk_ts (u32 100) 0 8192 0 0 0) = true.
Proof.
  apply (tcp_window_conds_spec _ _ _ _ 4294968290 4294967290 100);
    try reflexivity; vm_compute; intuition discriminate.
Defined.


Lemma tcp_in_window_td_end_witness :
  ∃ res t', tcp_in_window (tcp_defaults true)
      (proto_tcp (ct_in TCP_CONNTRACK_ESTABLISHED 1001 5001 0)) IP_CT_DIR_ORIGINAL TCP_ACK_SET
      (c2s 1001 5001 TH_ACK) (skb_iph (c2s 1001 5001 TH_ACK)) (seg_th (c2s 1001 5001 TH_ACK))
    = Some (res, t') ∧ td_end (seen t' IP_CT_DIR_REPLY) = 5001.
Proof.
  destruct (tcp_in_window (tcp_defaults true) _ _ _ _ _ _) as [[res t']|] eqn:E;
    [|vm_compute in E; discriminate].
  exists res, t'. split; [reflexivity|].
  refine (proj1 (tcp_in_window_td_end _ _ _ _ _ _ _ _ _ _ E)). vm_compute; discriminate.
Defined.

Lemma tcp_error_accept_witness :
  5 <= th_doff (seg_th (c2s 1000 0 TH_SYN)).
Proof.
  refine (proj1 (tcp_error_accept (c2s 1000 0 TH_SYN) NF_IP_PRE_ROUTING _ _ _));
    vm_compute; intuition discriminate.
Defined.


Lemma shnat_rst_unchecked_witness :
  ∃ r, tcp_packet (tcp_defaults true) 0 (ct_in TCP_CONNTRACK_ESTABLISHED 1001 5001 0)
         (c2s 3000000000 0 TH_RST) IP_CT_ESTABLISHED = Some r ∧ pr_ret r = NF_ACCEPT ∧
       tcp_st (proto_tcp (pr_ct r)) = TCP_CONNTRACK_CLOSE.
Proof.
  apply shnat_rst_unchecked; [reflexivity | concrete_segment | reflexivity | vm_compute; lia].
Defined.

Lemma sack_perm_reopens_witness :
  tcp_packet (tcp_defaults false) 0 (ct_in TCP_CONNTRACK_TIME_WAIT 1001 5001 2)
    (c2s 17 0 TH_SYN) IP_CT_NEW
  = Some (kill_conntrack (- NF_REPEAT) (ct_in TCP_CONNTRACK_TIME_WAIT 1001 5001 2)).
Proof.
  apply sack_perm_reopens; [concrete_segment | reflexivity | reflexivity | left | ]; reflexivity.
Defined.
