(* ===== verification/CtProtos.v ===== *)
(** * UDP, ICMP and generic connection tracking

    [net/ipv4/netfilter/ip_conntrack_proto_udp.c], [..._icmp.c], [..._generic.c]
    and the dispatch of [ip_conntrack_core.c] over the registered protocols.
    The ICMP error handlers look connections up, so they are in [Conntrack]. *)
From S2P Require Import Prelude Packet CtBase TcpTrack.

(** ** Configuration: the sysctl timeouts, in jiffies *)
Record ct_cfg := mk_ct_cfg {
  c_tcp : tcp_cfg;
  ip_ct_udp_timeout : Z; ip_ct_udp_timeout_stream : Z;
  ip_ct_icmp_timeout : Z; ip_ct_generic_timeout : Z }.

Definition ct_defaults (shnat : bool) : ct_cfg :=
  mk_ct_cfg (tcp_defaults shnat) (30 * HZ) (if shnat then 160 * HZ else 180 * HZ)
    (30 * HZ) (600 * HZ).

(** ** UDP *)
Definition sizeof_udphdr := 8.

Definition udp_pkt_to_tuple (skb : sk_buff) (dataoff : Z) (tuple : ip_conntrack_tuple)
    : option ip_conntrack_tuple :=
  hp ← skb_header_pointer skb dataoff sizeof_udphdr;
  let uh := udphdr_at hp 0 in
  Some (tuple <| src_u := uh_source uh |> <| dst_u := uh_dest uh |>).

Definition udp_invert_tuple (tuple orig : ip_conntrack_tuple) : option ip_conntrack_tuple :=
  Some (tuple <| src_u := dst_u orig |> <| dst_u := src_u orig |>).

Definition udp_packet (cfg : ct_cfg) (jiffies : Z) (conntrack : ip_conntrack)
    (skb : sk_buff) (ctinfo : Z) : packet_result :=
  if test_bit IPS_SEEN_REPLY_BIT conntrack then
    let conntrack := ip_ct_refresh_acct jiffies conntrack ctinfo skb
                       (ip_ct_udp_timeout_stream cfg) in
    let fresh_assured := negb (test_bit IPS_ASSURED_BIT conntrack) in
    mk_pr NF_ACCEPT (set_bit IPS_ASSURED_BIT conntrack) false
      (fresh_assured && CONFIG_STR9100_SHNAT (c_tcp cfg) && shnat_hook_ready (c_tcp cfg))
  else
    mk_pr NF_ACCEPT (ip_ct_refresh_acct jiffies conntrack ctinfo skb (ip_ct_udp_timeout cfg))
      false false.

Definition udp_new (conntrack : ip_conntrack) (skb : sk_buff) : bool * ip_conntrack :=
  (true, conntrack).

Definition udp_error (skb : sk_buff) (hooknum : Z) : Z :=
  let iph := skb_iph skb in
  let udplen := u32 (skb_len skb - ihl iph * 4) in
  match skb_header_pointer skb (ihl iph * 4) sizeof_udphdr with
  | None => - NF_ACCEPT
  | Some hp =>
      let hdr := udphdr_at hp 0 in
      if (udplen <? ntohs (uh_len hdr)) || (ntohs (uh_len hdr) <? sizeof_udphdr)
      then - NF_ACCEPT
      else if uh_check hdr =? 0 then NF_ACCEPT
      else if (hooknum =? NF_IP_PRE_ROUTING)
              && negb (ip_summed skb =? CHECKSUM_UNNECESSARY)
              && negb (csum_tcpudp_magic (saddr iph) (daddr iph) udplen IPPROTO_UDP
                         (if ip_summed skb =? CHECKSUM_HW then csum skb
                          else skb_checksum skb (ihl iph * 4) udplen 0) =? 0)
      then - NF_ACCEPT
      else NF_ACCEPT
  end.

(** ** ICMP *)
Definition ICMP_ECHOREPLY := 0.
Definition ICMP_DEST_UNREACH := 3.
Definition ICMP_SOURCE_QUENCH := 4.
Definition ICMP_REDIRECT := 5.
Definition ICMP_ECHO := 8.
Definition ICMP_TIME_EXCEEDED := 11.
Definition ICMP_PARAMETERPROB := 12.
Definition ICMP_TIMESTAMP := 13.
Definition ICMP_TIMESTAMPREPLY := 14.
Definition ICMP_INFO_REQUEST := 15.
Definition ICMP_INFO_REPLY := 16.
Definition ICMP_ADDRESS := 17.
Definition ICMP_ADDRESSREPLY := 18.
Definition NR_ICMP_TYPES := 18.
Definition sizeof_icmphdr := 8.

(** [u.icmp.type] and [u.icmp.code] as the two bytes of the 16-bit [dst.u]. *)
Definition icmp_u (type code : Z) : Z := type + 256 * code.

Definition icmp_pkt_to_tuple (skb : sk_buff) (dataoff : Z) (tuple : ip_conntrack_tuple)
    : option ip_conntrack_tuple :=
  hp ← skb_header_pointer skb dataoff sizeof_icmphdr;
  let ih := icmphdr_at hp 0 in
  Some (tuple <| src_u := icmp_id ih |> <| dst_u := icmp_u (icmp_type ih) (icmp_code ih) |>).

(** An array initialised at the given indices, the gaps filled with 0. *)
Fixpoint array_init (l : list (Z * Z)) (i : Z) : Z :=
  match l with
  | [] => 0
  | (k, v) :: l => if k =? i then v else array_init l i
  end.

Definition invmap : Z → Z :=
  array_init
    [(ICMP_ECHO, ICMP_ECHOREPLY + 1);
     (ICMP_ECHOREPLY, ICMP_ECHO + 1);
     (ICMP_TIMESTAMP, ICMP_TIMESTAMPREPLY + 1);
     (ICMP_TIMESTAMPREPLY, ICMP_TIMESTAMP + 1);
     (ICMP_INFO_REQUEST, ICMP_INFO_REPLY + 1);
     (ICMP_INFO_REPLY, ICMP_INFO_REQUEST + 1);
     (ICMP_ADDRESS, ICMP_ADDRESSREPLY + 1);
     (ICMP_ADDRESSREPLY, ICMP_ADDRESS + 1)].
Definition sizeof_invmap := 19.

Definition icmp_invert_tuple (tuple orig : ip_conntrack_tuple) : option ip_conntrack_tuple :=
  let type := tuple_icmp_type orig in
  if (sizeof_invmap <=? type) || (invmap type =? 0) then None
  else Some (tuple <| src_u := src_u orig |>
                   <| dst_u := icmp_u (invmap type - 1) (tuple_icmp_code orig) |>).

Definition icmp_packet (cfg : ct_cfg) (jiffies : Z) (ct : ip_conntrack)
    (skb : sk_buff) (ctinfo : Z) : packet_result :=
  if dir_eqb (CTINFO2DIR ctinfo) IP_CT_DIR_REPLY then
    let ct := ct <| icmp_count := s32 (icmp_count ct - 1) |> in
    if icmp_count ct =? 0 then kill_conntrack NF_ACCEPT ct
    else mk_pr NF_ACCEPT ct false false
  else
    let ct := ct <| icmp_count := s32 (icmp_count ct + 1) |> in
    mk_pr NF_ACCEPT (ip_ct_refresh_acct jiffies ct ctinfo skb (ip_ct_icmp_timeout cfg))
      false false.

Definition valid_new : Z → Z :=
  array_init [(ICMP_ECHO, 1); (ICMP_TIMESTAMP, 1); (ICMP_INFO_REQUEST, 1); (ICMP_ADDRESS, 1)].
Definition sizeof_valid_new := 18.

Definition icmp_new (conntrack : ip_conntrack) (skb : sk_buff) : bool * ip_conntrack :=
  let type := tuple_icmp_type (tuple_orig conntrack) in
  if (sizeof_valid_new <=? type) || (valid_new type =? 0) then (false, conntrack)
  else (true, conntrack <| icmp_count := 0 |>).

(** ** The generic protocol *)
Definition generic_pkt_to_tuple (skb : sk_buff) (dataoff : Z) (tuple : ip_conntrack_tuple)
    : option ip_conntrack_tuple :=
  Some (tuple <| src_u := 0 |> <| dst_u := 0 |>).

Definition generic_invert_tuple (tuple orig : ip_conntrack_tuple) : option ip_conntrack_tuple :=
  Some (tuple <| src_u := 0 |> <| dst_u := 0 |>).

Definition generic_packet (cfg : ct_cfg) (jiffies : Z) (conntrack : ip_conntrack)
    (skb : sk_buff) (ctinfo : Z) : packet_result :=
  mk_pr NF_ACCEPT (ip_ct_refresh_acct jiffies conntrack ctinfo skb (ip_ct_generic_timeout cfg))
    false false.

Definition generic_new (conntrack : ip_conntrack) (skb : sk_buff) : bool * ip_conntrack :=
  (true, conntrack).

(** ** [ip_ct_protos] and the operations reached through it

    The firmware registers TCP, UDP and ICMP; every other entry of the table is
    the generic protocol. *)
Inductive ip_conntrack_protocol := proto_tcp_ops | proto_udp_ops | proto_icmp_ops | proto_generic_ops.

Definition __ip_conntrack_proto_find (protocol : Z) : ip_conntrack_protocol :=
  if protocol =? IPPROTO_TCP then proto_tcp_ops
  else if protocol =? IPPROTO_UDP then proto_udp_ops
  else if protocol =? IPPROTO_ICMP then proto_icmp_ops
  else proto_generic_ops.

Definition pkt_to_tuple (p : ip_conntrack_protocol) :=
  match p with
  | proto_tcp_ops => tcp_pkt_to_tuple
  | proto_udp_ops => udp_pkt_to_tuple
  | proto_icmp_ops => icmp_pkt_to_tuple
  | proto_generic_ops => generic_pkt_to_tuple
  end.

Definition invert_tuple (p : ip_conntrack_protocol) :=
  match p with
  | proto_tcp_ops => tcp_invert_tuple
  | proto_udp_ops => udp_invert_tuple
  | proto_icmp_ops => icmp_invert_tuple
  | proto_generic_ops => generic_invert_tuple
  end.

Definition proto_packet (cfg : ct_cfg) (p : ip_conntrack_protocol) (jiffies : Z)
    (ct : ip_conntrack) (skb : sk_buff) (ctinfo : Z) : option packet_result :=
  match p with
  | proto_tcp_ops => tcp_packet (c_tcp cfg) jiffies ct skb ctinfo
  | proto_udp_ops => Some (udp_packet cfg jiffies ct skb ctinfo)
  | proto_icmp_ops => Some (icmp_packet cfg jiffies ct skb ctinfo)
  | proto_generic_ops => Some (generic_packet cfg jiffies ct skb ctinfo)
  end.

Definition proto_new (cfg : ct_cfg) (p : ip_conntrack_protocol) (ct : ip_conntrack)
    (skb : sk_buff) : option (bool * ip_conntrack) :=
  match p with
  | proto_tcp_ops => tcp_new (c_tcp cfg) ct skb
  | proto_udp_ops => Some (udp_new ct skb)
  | proto_icmp_ops => Some (icmp_new ct skb)
  | proto_generic_ops => Some (generic_new ct skb)
  end.

(** ** Tuples of packets *)
Definition ip_ct_get_tuple (iph : iphdr) (skb : sk_buff) (dataoff : Z)
    (protocol_ : ip_conntrack_protocol) : option ip_conntrack_tuple :=
  if flag (frag_off iph) (htons IP_OFFSET) then None
  else pkt_to_tuple protocol_ skb dataoff
         (mk_tuple (saddr iph) 0 (daddr iph) 0 (protocol iph) IP_CT_DIR_ORIGINAL).

Definition ip_ct_invert_tuple (orig : ip_conntrack_tuple) (protocol_ : ip_conntrack_protocol)
    : option ip_conntrack_tuple :=
  invert_tuple protocol_
    (mk_tuple (dst_ip orig) 0 (src_ip orig) 0 (protonum orig) (dir_neg (dst_dir orig))) orig.

Definition invert_tuplepr (orig : ip_conntrack_tuple) : option ip_conntrack_tuple :=
  ip_ct_invert_tuple orig (__ip_conntrack_proto_find (protonum orig)).

(** ** Facts *)

(** What every tuple built by [ip_ct_get_tuple] satisfies. *)
Record tuple_wf (t : ip_conntrack_tuple) : Prop := {
  wf_src_u : is_u16 (src_u t);
  wf_dst_u : is_u16 (dst_u t);
  wf_generic : __ip_conntrack_proto_find (protonum t) = proto_generic_ops →
               src_u t = 0 ∧ dst_u t = 0 }.

Lemma invmap_inv i : 0 <= i < sizeof_invmap → invmap i ≠ 0 →
  0 <= invmap i - 1 < sizeof_invmap ∧ invmap (invmap i - 1) = i + 1.
Proof.
  assert (Forall (λ i, invmap i ≠ 0 →
    0 <= invmap i - 1 < sizeof_invmap ∧ invmap (invmap i - 1) = i + 1) (seqZ 0 19)) as H.
  { vm_compute seqZ.
    repeat (apply Forall_cons; [vm_compute; intuition discriminate|]).
    apply Forall_nil. }
  rewrite Forall_forall in H. intros Hi. apply H, list_elem_of_In, elem_of_seqZ. unfold sizeof_invmap in *. lia.
Qed.

Lemma icmp_u_bytes d : is_u16 d → icmp_u (d mod 256) (d / 256) = d.
Proof. unfold icmp_u. word_lia. Qed.

(** The part of the inverse that does not depend on the protocol. *)
Lemma ip_ct_invert_tuple_fields t p r :
  ip_ct_invert_tuple t p = Some r →
  src_ip r = dst_ip t ∧ dst_ip r = src_ip t ∧ protonum r = protonum t ∧
  dst_dir r = dir_neg (dst_dir t).
Proof.
  unfold ip_ct_invert_tuple. destruct p; simpl;
    unfold tcp_invert_tuple, udp_invert_tuple, generic_invert_tuple, icmp_invert_tuple;
    try destruct (_ || _); try done; by intros [= <-].
Qed.

(** Inverting a tuple twice gives it back, direction included. *)
Lemma invert_tuplepr_involutive t r :
  tuple_wf t → invert_tuplepr t = Some r → invert_tuplepr r = Some t ∧ tuple_wf r.
Proof.
  intros [Hs Hd Hg] H. unfold invert_tuplepr in *.
  destruct (ip_ct_invert_tuple_fields _ _ _ H) as (_ & _ & Hp & _).
  rewrite Hp. destruct t as [si su di du p d]. simpl in *.
  destruct (__ip_conntrack_proto_find p) eqn:E;
    unfold ip_ct_invert_tuple, invert_tuple in *; simpl in *.
  - injection H as <-. simpl in *. split; [by destruct d|]. split; simpl; try done. by rewrite E.
  - injection H as <-. simpl in *. split; [by destruct d|]. split; simpl; try done. by rewrite E.
  - unfold icmp_invert_tuple, tuple_icmp_type, tuple_icmp_code in *. simpl in *.
    destruct (sizeof_invmap <=? du mod 256) eqn:E1; [done|].
    destruct (invmap (du mod 256) =? 0) eqn:E2; [done|]. simpl in H. injection H as <-. simpl.
    destruct (invmap_inv (du mod 256)) as [Hr Hi]; [word_lia|lia|].
    assert (0 <= du / 256 < 256) by word_lia. unfold sizeof_invmap in *.
    assert (icmp_u (invmap (du mod 256) - 1) (du / 256) mod 256 = invmap (du mod 256) - 1) as ->
      by (unfold icmp_u; lia).
    assert (icmp_u (invmap (du mod 256) - 1) (du / 256) / 256 = du / 256) as ->
      by (unfold icmp_u; lia).
    rewrite Hi. destruct (19 <=? invmap (du mod 256) - 1) eqn:E3; [lia|].
    replace (du mod 256 + 1 =? 0) with false by (symmetry; apply Z.eqb_neq; word_lia).
    simpl. replace (du mod 256 + 1 - 1) with (du mod 256) by lia.
    rewrite icmp_u_bytes by done. split; [by destruct d|].
    split; simpl; [done| unfold icmp_u; word_lia | by rewrite E].
  - injection H as <-. simpl in *. destruct (Hg eq_refl) as [-> ->].
    split; [by destruct d|]. split; simpl; try done; word_lia.
Qed.

Lemma ld8_range d o : Forall is_u8 d → is_u8 (ld8 d o).
Proof.
  intros H. unfold ld8. destruct (d !! Z.to_nat o) eqn:E; simpl; [|word_lia].
  by eapply Forall_lookup_1 in H.
Qed.
Lemma ld16_range d o : Forall is_u8 d → is_u16 (ld16 d o).
Proof.
  intros H. pose proof (ld8_range d o H). pose proof (ld8_range d (o + 1) H).
  unfold ld16. word_lia.
Qed.
Lemma ld32_range d o : Forall is_u8 d → is_u32 (ld32 d o).
Proof.
  intros H. pose proof (ld16_range d o H). pose proof (ld16_range d (o + 2) H).
  unfold ld32. word_lia.
Qed.
#[export] Hint Resolve ld8_range ld16_range ld32_range : words.

Lemma skb_header_bytes skb o n hp :
  Forall is_u8 (data skb) → skb_header_pointer skb o n = Some hp → Forall is_u8 hp.
Proof.
  unfold skb_header_pointer. intros H. case_match; [|done]. intros [= <-].
  by apply Forall_take, Forall_drop.
Qed.

(** What [ip_ct_get_tuple] extracts. *)
Lemma ip_ct_get_tuple_wf iph skb off t :
  Forall is_u8 (data skb) →
  ip_ct_get_tuple iph skb off (__ip_conntrack_proto_find (protocol iph)) = Some t →
  tuple_wf t ∧ dst_dir t = IP_CT_DIR_ORIGINAL ∧ src_ip t = saddr iph ∧ dst_ip t = daddr iph ∧
  protonum t = protocol iph.
Proof.
  intros Hb. unfold ip_ct_get_tuple. destruct (flag _ _); [done|].
  destruct (__ip_conntrack_proto_find (protocol iph)) eqn:E; simpl; intros H.
  1-3: apply bind_Some in H as (hp & Hhp & [= <-]);
       pose proof (skb_header_bytes _ _ _ _ Hb Hhp).
  1-2: split; [|done]; split; simpl; [auto with words..|by rewrite E].
  - split; [|done]. split; simpl; [auto with words| |by rewrite E].
    unfold icmp_u. pose proof (ld8_range hp 0 H). pose proof (ld8_range hp (0 + 1) H). word_lia.
  - injection H as <-. split; [|done]. split; simpl; try done; word_lia.
Qed.

(** The tuple of a tracked packet and the reply tuple computed from it are
    inverse to each other: inverting the reply gives the packet's own tuple
    back, in the other direction, and the reply's addresses are the packet's
    swapped.  So a reply that carries the inverse tuple is found again in the
    same connection.  TCP, UDP and unknown protocols always have an inverse;
    ICMP has one exactly for the request/reply types. *)
Lemma reply_tuple_inverse iph skb off t :
  Forall is_u8 (data skb) →
  ip_ct_get_tuple iph skb off (__ip_conntrack_proto_find (protocol iph)) = Some t →
  match invert_tuplepr t with
  | Some r => invert_tuplepr r = Some t ∧ src_ip r = daddr iph ∧ dst_ip r = saddr iph ∧
              protonum r = protocol iph ∧ dst_dir r = IP_CT_DIR_REPLY
  | None => protocol iph = IPPROTO_ICMP ∧
            tuple_icmp_type t ∉ [0; 8; 13; 14; 15; 16; 17; 18]
  end.
Proof.
  intros Hb Ht. destruct (ip_ct_get_tuple_wf _ _ _ _ Hb Ht) as (Hwf & Hd & Hs & Hdst & Hp).
  destruct (invert_tuplepr t) as [r|] eqn:E.
  - split; [by apply invert_tuplepr_involutive|].
    destruct (ip_ct_invert_tuple_fields _ _ _ E) as (-> & -> & -> & ->).
    by rewrite Hs, Hdst, Hp, Hd.
  - unfold invert_tuplepr, ip_ct_invert_tuple in E. rewrite Hp in E.
    unfold __ip_conntrack_proto_find in E.
    destruct (_ =? IPPROTO_TCP); [done|]. destruct (_ =? IPPROTO_UDP); [done|].
    destruct (Z.eqb_spec (protocol iph) IPPROTO_ICMP); [|done]. split; [done|].
    simpl in E. unfold icmp_invert_tuple in E. intros Hin.
    rewrite !elem_of_cons, elem_of_nil in Hin.
    destruct Hin as [Hi|[Hi|[Hi|[Hi|[Hi|[Hi|[Hi|[Hi|[]]]]]]]]]; rewrite Hi in E; done.
Qed.

(** A run of [icmp_packet] over requests ([true]) and replies ([false]) of one
    connection: the position of the packet whose handler kills it, if any. *)
Fixpoint icmp_run (cfg : ct_cfg) (jiffies : Z) (ct : ip_conntrack) (skb : sk_buff)
    (l : list bool) : option nat :=
  match l with
  | [] => None
  | req :: l =>
      let r := icmp_packet cfg jiffies ct skb
                 (if req then IP_CT_NEW else IP_CT_ESTABLISHED + IP_CT_IS_REPLY) in
      if pr_kill r then Some O else S <$> icmp_run cfg jiffies (pr_ct r) skb l
  end.

(** Requests minus replies. *)
Fixpoint icmp_balance (l : list bool) : Z :=
  match l with [] => 0 | req :: l => (if req then 1 else -1) + icmp_balance l end.

Lemma icmp_balance_bound l : - Z.of_nat (length l) <= icmp_balance l <= Z.of_nat (length l).
Proof. induction l as [|[] l IH]; simpl; lia. Qed.

Lemma icmp_packet_request cfg j ct skb :
  let r := icmp_packet cfg j ct skb IP_CT_NEW in
  pr_kill r = false ∧ icmp_count (pr_ct r) = s32 (icmp_count ct + 1) ∧
  is_confirmed (pr_ct r) = is_confirmed ct ∧
  (is_confirmed ct = true → pending (timeout (pr_ct r)) = pending (timeout ct)).
Proof.
  unfold icmp_packet, ip_ct_refresh_acct, __ip_ct_refresh_acct.
  change (CTINFO2DIR IP_CT_NEW) with IP_CT_DIR_ORIGINAL. simpl.
  change (is_confirmed (ct <| icmp_count := _ |>)) with (is_confirmed ct).
  destruct (is_confirmed ct) eqn:E; simpl; [|done].
  destruct (pending (timeout ct)) eqn:Ep; simpl; rewrite ?Ep; done.
Qed.

Lemma icmp_packet_reply cfg j ct skb :
  let r := icmp_packet cfg j ct skb (IP_CT_ESTABLISHED + IP_CT_IS_REPLY) in
  pr_kill r = (s32 (icmp_count ct - 1) =? 0) && pending (timeout ct) ∧
  (pr_kill r = false → pending (timeout ct) = true →
   icmp_count (pr_ct r) = s32 (icmp_count ct - 1) ∧
   is_confirmed (pr_ct r) = is_confirmed ct ∧ pending (timeout (pr_ct r)) = true).
Proof.
  unfold icmp_packet. simpl. destruct (s32 (icmp_count ct - 1) =? 0); simpl; [|done].
  split; [done|]. intros -> ?. done.
Qed.

Lemma icmp_balance_cons (req : bool) l n :
  icmp_balance (take (S n) (req :: l)) = (if req then 1 else -1) + icmp_balance (take n l).
Proof. done. Qed.

(** The kill position of [req :: l], when the first packet does not kill, is
    one after that of [l]. *)
Lemma kill_at_shift (c c' : Z) (req : bool) l i :
  c' = c + (if req then 1 else -1) → (req = false → c' ≠ 0) →
  let at_ (c : Z) (l : list bool) (i : nat) := l !! i = Some false ∧ c + icmp_balance (take (S i) l) = 0 ∧
    ∀ k, (k < i)%nat → l !! k = Some false → c + icmp_balance (take (S k) l) ≠ 0 in
  at_ c (req :: l) i ↔ ∃ n, at_ c' l n ∧ i = S n.
Proof.
  intros -> Hr at_. unfold at_. split.
  - intros (Hl & Hz & Hm). destruct i as [|i].
    { injection Hl as ->. rewrite icmp_balance_cons in Hz. simpl in Hz. destruct Hr; [done|lia]. }
    exists i. split; [|done]. split; [done|]. rewrite icmp_balance_cons in Hz.
    split; [lia|]. intros k Hk Hf. specialize (Hm (S k)).
    rewrite icmp_balance_cons in Hm. specialize (Hm ltac:(lia) Hf). lia.
  - intros (n & (Hl & Hz & Hm) & ->). split; [done|]. rewrite icmp_balance_cons.
    split; [lia|]. intros [|k] Hk Hf; rewrite icmp_balance_cons.
    + injection Hf as ->. simpl. specialize (Hr eq_refl). lia.
    + specialize (Hm k ltac:(lia) Hf). lia.
Qed.

(** An echo-like ICMP connection is destroyed exactly when its replies have
    caught up with its requests: on a confirmed connection with [count]
    outstanding requests, after which packets [l] arrive, the handler kills the
    connection at packet [i] iff packet [i] is a reply, the balance of requests
    over replies is zero after it, and it was not at any earlier reply. *)
Lemma icmp_killed_at_balance cfg j skb l : ∀ ct i,
  is_confirmed ct = true → pending (timeout ct) = true →
  -2147483648 <= icmp_count ct - Z.of_nat (length l) →
  icmp_count ct + Z.of_nat (length l) < 2147483648 →
  (icmp_run cfg j ct skb l = Some i ↔
   l !! i = Some false ∧ icmp_count ct + icmp_balance (take (S i) l) = 0 ∧
   ∀ k, (k < i)%nat → l !! k = Some false → icmp_count ct + icmp_balance (take (S k) l) ≠ 0).
Proof.
  induction l as [|req l IH]; intros ct i Hc Hp Ha Hb;
    [split; [done|intros [Hl _]; by destruct i]|].
  cbn [icmp_run]. simpl length in Ha, Hb. destruct req.
  - destruct (icmp_packet_request cfg j ct skb) as (Hk & Hn & Hc' & Hp'). rewrite Hk.
    assert (s32 (icmp_count ct + 1) = icmp_count ct + 1) as Hw by word_lia.
    rewrite Hw in Hn. rewrite (kill_at_shift _ (icmp_count ct + 1)) by done.
    rewrite fmap_Some. setoid_rewrite IH; rewrite ?Hc', ?Hp', ?Hn; try done; try lia.
  - destruct (icmp_packet_reply cfg j ct skb) as (Hk & Hn). rewrite Hp, andb_true_r in Hk.
    assert (s32 (icmp_count ct - 1) = icmp_count ct - 1) as Hw by word_lia.
    rewrite Hw in *. rewrite Hk. destruct (Z.eqb_spec (icmp_count ct - 1) 0) as [Hz|Hz].
    + split.
      * intros [= <-]. rewrite icmp_balance_cons. simpl. split_and!; [done|lia|]. intros k; lia.
      * intros (Hl & Hzi & Hm). destruct i as [|i]; [done|].
        specialize (Hm O ltac:(lia) eq_refl). rewrite icmp_balance_cons in Hm. simpl in Hm. lia.
    + destruct Hn as (Hn & Hc' & Hp'); [by rewrite Hk|done|].
      rewrite (kill_at_shift _ (icmp_count ct - 1)) by (done || lia).
      rewrite fmap_Some. setoid_rewrite IH; rewrite ?Hc', ?Hp', ?Hn; try done; try lia.
Qed.

(** ** Witnesses *)
Definition echo_pkt (type : Z) : sk_buff :=
  ip_pkt 1 167772161 134744072 ([type; 0; 0; 0] ++ be16 77 ++ be16 1).
Definition echo_ct : ip_conntrack :=
  mk_ct 1 8 (mk_timer true 100) 0 0 0 0 None 0 0 None
    (mk_tcp (mk_ts 0 0 0 0 0 0) (mk_ts 0 0 0 0 0 0) TCP_CONNTRACK_NONE IP_CT_DIR_ORIGINAL 0
       TCP_SYN_SET 0 0 0) 0 (mk_nseq 0 0 0) (mk_nseq 0 0 0) 0 0
    (mk_tuple 0 0 0 0 1 IP_CT_DIR_ORIGINAL) (mk_tuple 0 0 0 0 1 IP_CT_DIR_REPLY).

Lemma reply_tuple_inverse_witness :
  ∃ t r, ip_ct_get_tuple (skb_iph (echo_pkt ICMP_ECHO)) (echo_pkt ICMP_ECHO) 20 proto_icmp_ops = Some t ∧
    invert_tuplepr t = Some r ∧ invert_tuplepr r = Some t.
Proof.
  destruct (ip_ct_get_tuple (skb_iph (echo_pkt ICMP_ECHO)) (echo_pkt ICMP_ECHO) 20 proto_icmp_ops)
    as [t|] eqn:Et; [|vm_compute in Et; discriminate Et].
  assert (Forall is_u8 (data (echo_pkt ICMP_ECHO))) as Hb
    by (vm_compute data; repeat (apply Forall_cons; [vm_compute; intuition discriminate|]); apply Forall_nil).
  pose proof (reply_tuple_inverse (skb_iph (echo_pkt ICMP_ECHO)) (echo_pkt ICMP_ECHO) 20 t Hb Et) as H.
  destruct (invert_tuplepr t) as [r|] eqn:Er.
  - exists t, r. exact (conj eq_refl (conj Er (proj1 H))).
  - exfalso. vm_compute in Et. injection Et as <-. vm_compute in Er. discriminate Er.
Defined.

Lemma icmp_killed_at_balance_witness :
  icmp_run (ct_defaults true) 0 echo_ct (echo_pkt ICMP_ECHO) [true; true; false; false] = Some 3%nat.
Proof.
  apply (icmp_killed_at_balance (ct_defaults true) 0 (echo_pkt ICMP_ECHO) [true; true; false; false] echo_ct 3).
  - reflexivity.
  - reflexivity.
  - vm_compute. discriminate.
  - vm_compute. reflexivity.
  - split; [reflexivity|]. split; [reflexivity|]. intros [|[|[|k]]] Hk Hf; try discriminate Hf; [|lia].
    vm_compute. discriminate.
Defined.
