(* ===== verification/Conntrack.v ===== *)
(** * The connection tracker: [net/ipv4/netfilter/ip_conntrack_core.c]

    The tracker's state is the record [ct_state]: the allocated conntracks and
    expectations, addressed by the [positive] that stands for their pointer, the
    hash chains, the list of unconfirmed conntracks, the expectation list, the
    registered helpers, the counters, and NAT's [bysource] chains (the state that
    [ip_nat_core.c] shares with the tracker).

    A list node [&ct->tuplehash[d].list] is the pair [(ct, d)].  Each operation is
    a function on the state; the locks are left out, the firmware's kernel being
    built for one processor without preemption. *)
From S2P Require Import Prelude Packet CtBase TcpTrack CtProtos.

(** ** Data *)
Record ip_conntrack_helper := mk_helper {
  h_name : list Z; max_expected : Z; h_timeout : Z;
  h_tuple : ip_conntrack_tuple; h_mask : ip_conntrack_tuple }.

Definition IP_CT_EXPECT_PERMANENT := 1.

Record ip_conntrack_expect := mk_exp {
  exp_tuple : ip_conntrack_tuple; exp_mask : ip_conntrack_tuple;
  expectfn : option positive; exp_master : positive; exp_timeout : timer;
  exp_use : Z; exp_id : Z; exp_flags : Z }.

#[export] Instance upd_exp_timeout : Update exp_timeout := λ v e,
  mk_exp (exp_tuple e) (exp_mask e) (expectfn e) (exp_master e) v (exp_use e) (exp_id e)
    (exp_flags e).
#[export] Instance upd_exp_use : Update exp_use := λ v e,
  mk_exp (exp_tuple e) (exp_mask e) (expectfn e) (exp_master e) (exp_timeout e) v (exp_id e)
    (exp_flags e).
#[export] Instance upd_exp_id : Update exp_id := λ v e,
  mk_exp (exp_tuple e) (exp_mask e) (expectfn e) (exp_master e) (exp_timeout e) (exp_use e)
    v (exp_flags e).

Abbreviation node := (positive * ip_conntrack_dir)%type.

Record ct_state := mk_cs {
  cts : gmap positive ip_conntrack;
  ip_conntrack_hash : gmap Z (list node);
  unconfirmed : list positive;
  exps : gmap positive ip_conntrack_expect;
  ip_conntrack_expect_list : list positive;
  helper_tab : gmap positive ip_conntrack_helper;
  helpers : list positive;
  ip_conntrack_count : Z;
  ip_conntrack_next_id : Z;
  ip_conntrack_expect_next_id : Z;
  bysource : gmap Z (list positive) }.

#[export] Instance upd_cts : Update cts := λ v s,
  mk_cs v (ip_conntrack_hash s) (unconfirmed s) (exps s) (ip_conntrack_expect_list s)
    (helper_tab s) (helpers s) (ip_conntrack_count s) (ip_conntrack_next_id s)
    (ip_conntrack_expect_next_id s) (bysource s).
#[export] Instance upd_ip_conntrack_hash : Update ip_conntrack_hash := λ v s,
  mk_cs (cts s) v (unconfirmed s) (exps s) (ip_conntrack_expect_list s) (helper_tab s)
    (helpers s) (ip_conntrack_count s) (ip_conntrack_next_id s)
    (ip_conntrack_expect_next_id s) (bysource s).
#[export] Instance upd_unconfirmed : Update unconfirmed := λ v s,
  mk_cs (cts s) (ip_conntrack_hash s) v (exps s) (ip_conntrack_expect_list s) (helper_tab s)
    (helpers s) (ip_conntrack_count s) (ip_conntrack_next_id s)
    (ip_conntrack_expect_next_id s) (bysource s).
#[export] Instance upd_exps : Update exps := λ v s,
  mk_cs (cts s) (ip_conntrack_hash s) (unconfirmed s) v (ip_conntrack_expect_list s)
    (helper_tab s) (helpers s) (ip_conntrack_count s) (ip_conntrack_next_id s)
    (ip_conntrack_expect_next_id s) (bysource s).
#[export] Instance upd_ip_conntrack_expect_list : Update ip_conntrack_expect_list := λ v s,
  mk_cs (cts s) (ip_conntrack_hash s) (unconfirmed s) (exps s) v (helper_tab s) (helpers s)
    (ip_conntrack_count s) (ip_conntrack_next_id s) (ip_conntrack_expect_next_id s)
    (bysource s).
#[export] Instance upd_helper_tab : Update helper_tab := λ v s,
  mk_cs (cts s) (ip_conntrack_hash s) (unconfirmed s) (exps s) (ip_conntrack_expect_list s)
    v (helpers s) (ip_conntrack_count s) (ip_conntrack_next_id s)
    (ip_conntrack_expect_next_id s) (bysource s).
#[export] Instance upd_helpers : Update helpers := λ v s,
  mk_cs (cts s) (ip_conntrack_hash s) (unconfirmed s) (exps s) (ip_conntrack_expect_list s)
    (helper_tab s) v (ip_conntrack_count s) (ip_conntrack_next_id s)
    (ip_conntrack_expect_next_id s) (bysource s).
#[export] Instance upd_ip_conntrack_count : Update ip_conntrack_count := λ v s,
  mk_cs (cts s) (ip_conntrack_hash s) (unconfirmed s) (exps s) (ip_conntrack_expect_list s)
    (helper_tab s) (helpers s) v (ip_conntrack_next_id s) (ip_conntrack_expect_next_id s)
    (bysource s).
#[export] Instance upd_ip_conntrack_next_id : Update ip_conntrack_next_id := λ v s,
  mk_cs (cts s) (ip_conntrack_hash s) (unconfirmed s) (exps s) (ip_conntrack_expect_list s)
    (helper_tab s) (helpers s) (ip_conntrack_count s) v (ip_conntrack_expect_next_id s)
    (bysource s).
#[export] Instance upd_ip_conntrack_expect_next_id : Update ip_conntrack_expect_next_id := λ v s,
  mk_cs (cts s) (ip_conntrack_hash s) (unconfirmed s) (exps s) (ip_conntrack_expect_list s)
    (helper_tab s) (helpers s) (ip_conntrack_count s) (ip_conntrack_next_id s) v
    (bysource s).
#[export] Instance upd_bysource : Update bysource := λ v s,
  mk_cs (cts s) (ip_conntrack_hash s) (unconfirmed s) (exps s) (ip_conntrack_expect_list s)
    (helper_tab s) (helpers s) (ip_conntrack_count s) (ip_conntrack_next_id s)
    (ip_conntrack_expect_next_id s) v.

(** What the operations take from their surroundings: the clock, the result of
    the slab allocator, the module parameters, and the code outside the tree they
    call ([star9100_shnat_nf_remove_hnatable_hook] of the hardware-NAT module, the
    [expectfn] of an expectation, which its number identifies). *)
Record ct_env := mk_env {
  cfg : ct_cfg; jiffies : Z; alloc_ok : bool;
  ip_conntrack_max : Z; ip_conntrack_htable_size : Z; ip_conntrack_hash_rnd : Z;
  shnat_remove_hook : ip_conntrack → Z;
  call_expectfn : positive → positive → ip_conntrack_expect → ct_state → ct_state }.

(** ** Hashing ([include/linux/jhash.h]) *)
Definition JHASH_GOLDEN_RATIO := 2654435769.

Definition __jhash_mix (abc : Z * Z * Z) : Z * Z * Z :=
  let sub x y z := u32 (x - y - z) in
  let shr x y n := Z.lxor x (Z.shiftr y n) in
  let shl x y n := Z.lxor x (u32 (Z.shiftl y n)) in
  let '(a, b, c) := abc in
  let a := shr (sub a b c) c 13 in
  let b := shl (sub b c a) a 8 in
  let c := shr (sub c a b) b 13 in
  let a := shr (sub a b c) c 12 in
  let b := shl (sub b c a) a 16 in
  let c := shr (sub c a b) b 5 in
  let a := shr (sub a b c) c 3 in
  let b := shl (sub b c a) a 10 in
  let c := shr (sub c a b) b 15 in
  (a, b, c).

Definition jhash_3words (a b c initval : Z) : Z :=
  (__jhash_mix (u32 (a + JHASH_GOLDEN_RATIO), u32 (b + JHASH_GOLDEN_RATIO),
                u32 (c + initval))).2.

Definition __hash_conntrack (tuple : ip_conntrack_tuple) (size rnd : Z) : Z :=
  jhash_3words (src_ip tuple) (Z.lxor (dst_ip tuple) (protonum tuple))
    (Z.lor (src_u tuple) (Z.shiftl (dst_u tuple) 16)) rnd mod size.

Definition hash_conntrack (env : ct_env) (tuple : ip_conntrack_tuple) : Z :=
  __hash_conntrack tuple (ip_conntrack_htable_size env) (ip_conntrack_hash_rnd env).

(** ** Access to the store *)
Definition upd_ct (p : positive) (f : ip_conntrack → ip_conntrack) (s : ct_state) : ct_state :=
  s <| cts := alter f p (cts s) |>.
Definition upd_exp (e : positive) (f : ip_conntrack_expect → ip_conntrack_expect)
    (s : ct_state) : ct_state :=
  s <| exps := alter f e (exps s) |>.

Definition chain (s : ct_state) (h : Z) : list node := default [] (ip_conntrack_hash s !! h).
Definition node_tuple (s : ct_state) (n : node) : option ip_conntrack_tuple :=
  (λ c, tuplehash c n.2) <$> cts s !! n.1.
Definition chain_prepend (h : Z) (n : node) (s : ct_state) : ct_state :=
  s <| ip_conntrack_hash := <[h := n :: chain s h]> (ip_conntrack_hash s) |>.

(** [list_del(&ct->tuplehash[d].list)]: the node leaves the list it is on, which is
    a hash chain or, for the original direction, the unconfirmed list. *)
Definition list_del_node (n : node) (s : ct_state) : ct_state :=
  let s := s <| ip_conntrack_hash := filter (λ m, m ≠ n) <$> ip_conntrack_hash s |> in
  match n.2 with
  | IP_CT_DIR_ORIGINAL => s <| unconfirmed := filter (λ q, q ≠ n.1) (unconfirmed s) |>
  | IP_CT_DIR_REPLY => s
  end.

(** ** Expectations: reference counts and removal *)
Definition ip_conntrack_expect_put (e : positive) (s : ct_state) : ct_state :=
  match exps s !! e with
  | None => s
  | Some x =>
      let x := x <| exp_use := exp_use x - 1 |> in
      if exp_use x =? 0 then s <| exps := delete e (exps s) |>
      else s <| exps := <[e := x]> (exps s) |>
  end.

Definition ip_ct_unlink_expect (e : positive) (s : ct_state) : ct_state :=
  match exps s !! e with
  | None => s
  | Some x =>
      let s := s <| ip_conntrack_expect_list :=
                      filter (λ i, i ≠ e) (ip_conntrack_expect_list s) |> in
      let s := upd_ct (exp_master x) (λ c, c <| expecting := u32 (expecting c - 1) |>) s in
      ip_conntrack_expect_put e s
  end.

Definition expectation_timed_out (e : positive) (s : ct_state) : ct_state :=
  ip_conntrack_expect_put e (ip_ct_unlink_expect e s).

(** [del_timer(&exp->timeout)] *)
Definition exp_del_timer (e : positive) (s : ct_state) : bool * ct_state :=
  (match exps s !! e with Some x => pending (exp_timeout x) | None => false end,
   upd_exp e (λ x, x <| exp_timeout := (exp_timeout x) <| pending := false |> |>) s).

Definition __ip_conntrack_expect_find (tuple : ip_conntrack_tuple) (s : ct_state)
    : option positive * ct_state :=
  let hit e := match exps s !! e with
               | Some x => ip_ct_tuple_mask_cmp tuple (exp_tuple x) (exp_mask x)
               | None => false
               end in
  match list_find (λ e, Is_true (hit e)) (ip_conntrack_expect_list s) with
  | Some (_, e) => (Some e, upd_exp e (λ x, x <| exp_use := exp_use x + 1 |>) s)
  | None => (None, s)
  end.

Fixpoint find_expectation_loop (l : list positive) (tuple : ip_conntrack_tuple) (s : ct_state)
    : option positive * ct_state :=
  match l with
  | [] => (None, s)
  | i :: l =>
      match exps s !! i with
      | None => find_expectation_loop l tuple s
      | Some x =>
          if ip_ct_tuple_mask_cmp tuple (exp_tuple x) (exp_mask x)
             && match cts s !! exp_master x with Some m => is_confirmed m | None => false end
          then
            if flag (exp_flags x) IP_CT_EXPECT_PERMANENT
            then (Some i, upd_exp i (λ x, x <| exp_use := exp_use x + 1 |>) s)
            else
              let (was, s) := exp_del_timer i s in
              if was then (Some i, ip_ct_unlink_expect i s)
              else find_expectation_loop l tuple s
          else find_expectation_loop l tuple s
      end
  end.

Definition find_expectation (tuple : ip_conntrack_tuple) (s : ct_state)
    : option positive * ct_state :=
  find_expectation_loop (ip_conntrack_expect_list s) tuple s.

(** Delete the listed expectations that satisfy [sel] and whose timer is still
    pending: the body shared by the loops that drop expectations. *)
Definition drop_expectation (i : positive) (s : ct_state) : ct_state :=
  let (was, s) := exp_del_timer i s in
  if was then ip_conntrack_expect_put i (ip_ct_unlink_expect i s) else s.

Fixpoint drop_expectations (sel : ip_conntrack_expect → bool) (l : list positive)
    (s : ct_state) : ct_state :=
  match l with
  | [] => s
  | i :: l =>
      drop_expectations sel l
        (match exps s !! i with
         | Some x => if sel x then drop_expectation i s else s
         | None => s
         end)
  end.

Definition ip_ct_remove_expectations (p : positive) (s : ct_state) : ct_state :=
  match cts s !! p with
  | None => s
  | Some ct =>
      if expecting ct =? 0 then s
      else drop_expectations (λ x, bool_decide (exp_master x = p))
             (ip_conntrack_expect_list s) s
  end.

(** ** Removal and destruction of conntracks *)
Definition clean_from_lists (p : positive) (s : ct_state) : ct_state :=
  let s := list_del_node (p, IP_CT_DIR_ORIGINAL) s in
  let s := list_del_node (p, IP_CT_DIR_REPLY) s in
  ip_ct_remove_expectations p s.

Definition ip_conntrack_free (p : positive) (s : ct_state) : ct_state :=
  s <| ip_conntrack_count := ip_conntrack_count s - 1 |> <| cts := delete p (cts s) |>.

(** [ip_nat_core.c:ip_nat_cleanup_conntrack], which [ip_conntrack_destroyed] points
    to once NAT is initialised. *)
Definition ip_nat_cleanup_conntrack (p : positive) (s : ct_state) : ct_state :=
  match cts s !! p with
  | None => s
  | Some conn =>
      if negb (flag (status conn) IPS_NAT_DONE_MASK) then s
      else s <| bysource := filter (λ q, q ≠ p) <$> bysource s |>
  end.

(** [put] is the [ip_conntrack_put] applied to the master.  None of the registered
    protocols has a [destroy] operation. *)
Definition destroy_conntrack (put : positive → ct_state → ct_state) (p : positive)
    (s : ct_state) : ct_state :=
  match cts s !! p with
  | None => s
  | Some ct =>
      let s := upd_ct p (set_bit IPS_DYING_BIT) s in
      let s := ip_nat_cleanup_conntrack p s in
      let s := ip_ct_remove_expectations p s in
      let s := if negb (is_confirmed ct) then list_del_node (p, IP_CT_DIR_ORIGINAL) s else s in
      let s := match ct_master ct with Some m => put m s | None => s end in
      ip_conntrack_free p s
  end.

(** [nf_conntrack_put].  The recursion follows the master pointers; a conntrack is
    destroyed when its count reaches 0, which happens once, so the number of
    allocated conntracks bounds its depth. *)
Fixpoint put_loop (fuel : nat) (p : positive) (s : ct_state) : ct_state :=
  match fuel with
  | O => s
  | S fuel =>
      let s := upd_ct p (λ c, c <| ct_use := ct_use c - 1 |>) s in
      match cts s !! p with
      | Some ct => if ct_use ct =? 0 then destroy_conntrack (put_loop fuel) p s else s
      | None => s
      end
  end.

Definition nf_conntrack_put (p : positive) (s : ct_state) : ct_state :=
  put_loop (S (size (cts s))) p s.

Definition nf_conntrack_get (p : positive) (s : ct_state) : ct_state :=
  upd_ct p (λ c, c <| ct_use := ct_use c + 1 |>) s.

Definition death_by_timeout (env : ct_env) (p : positive) (s : ct_state) : ct_state :=
  match cts s !! p with
  | None => s
  | Some ct =>
      if CONFIG_STR9100_SHNAT (c_tcp (cfg env)) && shnat_hook_ready (c_tcp (cfg env))
         && (shnat_remove_hook env ct =? -1)
      then s
      else nf_conntrack_put p (clean_from_lists p s)
  end.

(** [del_timer(&ct->timeout)] *)
Definition ct_del_timer (p : positive) (s : ct_state) : bool * ct_state :=
  (match cts s !! p with Some c => (del_timer c).1 | None => false end,
   upd_ct p (λ c, (del_timer c).2) s).

(** ** Lookup *)
Definition conntrack_tuple_cmp (s : ct_state) (i : node) (tuple : ip_conntrack_tuple)
    (ignored_conntrack : option positive) : bool :=
  bool_decide (Some i.1 ≠ ignored_conntrack)
  && match node_tuple s i with Some t => ip_ct_tuple_equal tuple t | None => false end.

Definition __ip_conntrack_find (env : ct_env) (tuple : ip_conntrack_tuple)
    (ignored_conntrack : option positive) (s : ct_state) : option node :=
  snd <$> list_find (λ h, Is_true (conntrack_tuple_cmp s h tuple ignored_conntrack))
            (chain s (hash_conntrack env tuple)).

Definition ip_conntrack_find_get (env : ct_env) (tuple : ip_conntrack_tuple)
    (ignored_conntrack : option positive) (s : ct_state) : option node * ct_state :=
  match __ip_conntrack_find env tuple ignored_conntrack s with
  | Some h => (Some h, nf_conntrack_get h.1 s)
  | None => (None, s)
  end.

Definition ip_conntrack_tuple_taken (env : ct_env) (tuple : ip_conntrack_tuple)
    (ignored_conntrack : option positive) (s : ct_state) : bool :=
  bool_decide (is_Some (__ip_conntrack_find env tuple ignored_conntrack s)).

(** ** Insertion into the hash table *)
Definition __ip_conntrack_hash_insert (p : positive) (hash repl_hash : Z) (s : ct_state)
    : ct_state :=
  let id := u32 (ip_conntrack_next_id s + 1) in
  let s := s <| ip_conntrack_next_id := id |> in
  let s := upd_ct p (λ c, c <| ct_id := id |>) s in
  chain_prepend repl_hash (p, IP_CT_DIR_REPLY)
    (chain_prepend hash (p, IP_CT_DIR_ORIGINAL) s).

Definition ip_conntrack_hash_insert (env : ct_env) (p : positive) (s : ct_state) : ct_state :=
  match cts s !! p with
  | None => s
  | Some ct => __ip_conntrack_hash_insert p (hash_conntrack env (tuple_orig ct))
                 (hash_conntrack env (tuple_reply ct)) s
  end.

(** The counter, the timer and the status of a conntrack being confirmed. *)
Definition confirm_ct (jiffies : Z) (c : ip_conntrack) : ip_conntrack :=
  let c := c <| timeout := (timeout c) <| expires := u32 (expires (timeout c) + jiffies) |> |> in
  let c := add_timer c in
  let c := c <| ct_use := ct_use c + 1 |> in
  set_bit IPS_CONFIRMED_BIT c.

Definition __ip_conntrack_confirm (env : ct_env) (skb : sk_buff) (s : ct_state)
    : Z * ct_state :=
  match nfct skb with
  | None => (NF_ACCEPT, s)
  | Some p =>
    match cts s !! p with
    | None => (NF_ACCEPT, s)
    | Some ct =>
      if negb (dir_eqb (CTINFO2DIR (nfctinfo skb)) IP_CT_DIR_ORIGINAL) then (NF_ACCEPT, s)
      else
        let hash := hash_conntrack env (tuple_orig ct) in
        let repl_hash := hash_conntrack env (tuple_reply ct) in
        let found h t := existsb (λ i, conntrack_tuple_cmp s i t None) (chain s h) in
        if negb (found hash (tuple_orig ct)) && negb (found repl_hash (tuple_reply ct))
        then
          let s := list_del_node (p, IP_CT_DIR_ORIGINAL) s in
          let s := __ip_conntrack_hash_insert p hash repl_hash s in
          (NF_ACCEPT, upd_ct p (confirm_ct (jiffies env)) s)
        else (NF_DROP, s)
    end
  end.

(** [ip_conntrack_core.h]; the hook [ip_confirm] calls it. *)
Definition ip_conntrack_confirm (env : ct_env) (skb : sk_buff) (s : ct_state) : Z * ct_state :=
  match nfct skb with
  | None => (NF_ACCEPT, s)
  | Some p =>
      match cts s !! p with
      | Some ct => if negb (is_confirmed ct) then __ip_conntrack_confirm env skb s
                   else (NF_ACCEPT, s)
      | None => (NF_ACCEPT, s)
      end
  end.

(** ** Helpers *)
Definition helper_cmp (s : ct_state) (i : positive) (rtuple : ip_conntrack_tuple) : bool :=
  match helper_tab s !! i with
  | Some h => ip_ct_tuple_mask_cmp rtuple (h_tuple h) (h_mask h)
  | None => false
  end.

Definition __ip_conntrack_helper_find (tuple : ip_conntrack_tuple) (s : ct_state)
    : option positive :=
  snd <$> list_find (λ i, Is_true (helper_cmp s i tuple)) (helpers s).

Definition ip_conntrack_helper_register (h : positive) (me : ip_conntrack_helper) (s : ct_state)
    : option ct_state :=
  if h_timeout me =? 0 then None
  else Some (s <| helper_tab := <[h := me]> (helper_tab s) |> <| helpers := h :: helpers s |>).

(** [unhelp] over the unconfirmed list and every chain. *)
Definition unhelp (h : positive) (c : ip_conntrack) : ip_conntrack :=
  if bool_decide (ct_helper c = Some h) then c <| ct_helper := None |> else c.

Definition ip_conntrack_helper_unregister (h : positive) (s : ct_state) : ct_state :=
  let s := s <| helpers := filter (λ i, i ≠ h) (helpers s) |> in
  let s := drop_expectations
             (λ x, match cts s !! exp_master x with
                   | Some m => bool_decide (ct_helper m = Some h)
                   | None => false
                   end) (ip_conntrack_expect_list s) s in
  let listed := unconfirmed s ++ (fst <$> mjoin (snd <$> map_to_list (ip_conntrack_hash s))) in
  foldr (λ p s, upd_ct p (unhelp h) s) s listed.

(** ** Allocation *)
Definition unreplied (s : ct_state) (i : node) : bool :=
  match cts s !! i.1 with Some c => negb (test_bit IPS_ASSURED_BIT c) | None => false end.

(** [LIST_FIND_B] searches from the tail, where the oldest conntracks are. *)
Definition early_drop (env : ct_env) (l : list node) (s : ct_state) : bool * ct_state :=
  match list_find (λ i, Is_true (unreplied s i)) (reverse l) with
  | None => (false, s)
  | Some (_, h) =>
      let p := h.1 in
      let s := nf_conntrack_get p s in
      let (was, s) := ct_del_timer p s in
      let s := if was then death_by_timeout env p s else s in
      (was, nf_conntrack_put p s)
  end.

(** The [memset] conntrack with its count and tuples set. *)
Definition blank_ts := mk_ts 0 0 0 0 0 0.
Definition blank_ct (orig repl : ip_conntrack_tuple) : ip_conntrack :=
  mk_ct 1 0 (mk_timer false 0) 0 0 0 0 None 0 0 None
    (mk_tcp blank_ts blank_ts TCP_CONNTRACK_NONE IP_CT_DIR_ORIGINAL 0 TCP_SYN_SET 0 0 0)
    0 (mk_nseq 0 0 0) (mk_nseq 0 0 0) 0 0 orig repl.

Definition ip_conntrack_alloc (env : ct_env) (orig repl : ip_conntrack_tuple) (s : ct_state)
    : option positive * ct_state :=
  let full := negb (ip_conntrack_max env =? 0)
              && (ip_conntrack_max env <=? ip_conntrack_count s) in
  let (dropped, s) :=
    if full then early_drop env (chain s (hash_conntrack env orig)) s else (true, s) in
  if negb dropped then (None, s)
  else if negb (alloc_ok env) then (None, s)
  else
    let p := fresh (dom (cts s)) in
    (Some p, s <| cts := <[p := blank_ct orig repl]> (cts s) |>
               <| ip_conntrack_count := ip_conntrack_count s + 1 |>).

(** The result of [init_conntrack]: a pointer, [NULL] or [ERR_PTR(-ENOMEM)]. *)
Inductive ct_result {A : Type} := CT_OK (a : A) | CT_NULL | CT_NOMEM.
Arguments ct_result : clear implicits.

(** The conntrack adopted by an expectation. *)
Definition adopt (m : positive) (master : ip_conntrack) (c : ip_conntrack) : ip_conntrack :=
  (set_bit IPS_EXPECTED_BIT c) <| ct_master := Some m |> <| ct_mark := ct_mark master |>
    <| masq_index := masq_index master |>.

Definition init_conntrack (env : ct_env) (tuple : ip_conntrack_tuple)
    (protocol_ : ip_conntrack_protocol) (skb : sk_buff) (s : ct_state)
    : option (ct_result positive * ct_state) :=
  match ip_ct_invert_tuple tuple protocol_ with
  | None => Some (CT_NULL, s)
  | Some repl_tuple =>
    let (r, s) := ip_conntrack_alloc env tuple repl_tuple s in
    match r with
    | None => Some (CT_NOMEM, s)
    | Some p =>
      '(ok, ct) ← proto_new (cfg env) protocol_ (blank_ct tuple repl_tuple) skb;
      if negb ok then Some (CT_NULL, ip_conntrack_free p s)
      else
        let s := upd_ct p (λ _, ct) s in
        let (exp, s) := find_expectation tuple s in
        let x := match exp with Some e => exps s !! e | None => None end in
        let s :=
          match x with
          | Some x =>
              match cts s !! exp_master x with
              | Some m => nf_conntrack_get (exp_master x) (upd_ct p (adopt (exp_master x) m) s)
              | None => s
              end
          | None =>
              upd_ct p (λ c, c <| ct_helper := __ip_conntrack_helper_find repl_tuple s |>) s
          end in
        let s := s <| unconfirmed := p :: unconfirmed s |> in
        let s :=
          match exp, x with
          | Some e, Some x =>
              let s := match expectfn x with
                       | Some f => call_expectfn env f p x s
                       | None => s
                       end in
              ip_conntrack_expect_put e s
          | _, _ => s
          end in
        Some (CT_OK p, s)
    end
  end.

(** ** Classification of a packet *)
Definition resolve_normal_ct (env : ct_env) (skb : sk_buff) (proto : ip_conntrack_protocol)
    (s : ct_state) : option (ct_result (positive * bool * Z) * ct_state * sk_buff) :=
  match ip_ct_get_tuple (skb_iph skb) skb (ihl (skb_iph skb) * 4) proto with
  | None => Some (CT_NULL, s, skb)
  | Some tuple =>
    let (h, s) := ip_conntrack_find_get env tuple None s in
    '(r, s) ← match h with
              | Some h => Some (CT_OK h, s)
              | None =>
                  '(r, s) ← init_conntrack env tuple proto skb s;
                  Some (match r with
                        | CT_OK p => CT_OK (p, IP_CT_DIR_ORIGINAL)
                        | CT_NULL => CT_NULL
                        | CT_NOMEM => CT_NOMEM
                        end, s)
              end;
    match r with
    | CT_NULL => Some (CT_NULL, s, skb)
    | CT_NOMEM => Some (CT_NOMEM, s, skb)
    | CT_OK (p, d) =>
        let has b := match cts s !! p with Some c => test_bit b c | None => false end in
        let '(ctinfo, set_reply) :=
          match d with
          | IP_CT_DIR_REPLY => (IP_CT_ESTABLISHED + IP_CT_IS_REPLY, true)
          | IP_CT_DIR_ORIGINAL =>
              (if has IPS_SEEN_REPLY_BIT then IP_CT_ESTABLISHED
               else if has IPS_EXPECTED_BIT then IP_CT_RELATED
               else IP_CT_NEW, false)
          end in
        Some (CT_OK (p, set_reply, ctinfo), s,
              skb <| nfct := Some p |> <| nfctinfo := ctinfo |>)
    end
  end.

(** ** ICMP errors ([ip_conntrack_proto_icmp.c]) *)
Definition icmp_error_message (env : ct_env) (skb : sk_buff) (hooknum : Z) (s : ct_state)
    : Z * ct_state * sk_buff :=
  let iph := skb_iph skb in
  let invalid := (- NF_ACCEPT, s, skb) in
  match skb_header_pointer skb (ihl iph * 4) (sizeof_icmphdr + 20) with
  | None => invalid
  | Some inside =>
    let inner := iphdr_at inside sizeof_icmphdr in
    if flag (frag_off inner) (htons IP_OFFSET) then invalid
    else
      let innerproto := __ip_conntrack_proto_find (protocol inner) in
      let dataoff := ihl iph * 4 + sizeof_icmphdr + ihl inner * 4 in
      match ip_ct_get_tuple inner skb dataoff innerproto with
      | None => invalid
      | Some origtuple =>
        match ip_ct_invert_tuple origtuple innerproto with
        | None => invalid
        | Some innertuple =>
          let (h, s) := ip_conntrack_find_get env innertuple None s in
          match h with
          | Some (p, d) =>
              let ctinfo := IP_CT_RELATED
                            + (if dir_eqb d IP_CT_DIR_REPLY then IP_CT_IS_REPLY else 0) in
              (- NF_ACCEPT, s, skb <| nfct := Some p |> <| nfctinfo := ctinfo |>)
          | None =>
              let (h, s) := if hooknum =? NF_IP_LOCAL_OUT
                            then ip_conntrack_find_get env origtuple None s else (None, s) in
              match h with
              | None => (- NF_ACCEPT, s, skb)
              | Some (p, d) =>
                  let ctinfo := IP_CT_RELATED
                                + (if negb (dir_eqb d IP_CT_DIR_REPLY) then IP_CT_IS_REPLY else 0) in
                  (- NF_ACCEPT, s, skb <| nfct := Some p |> <| nfctinfo := ctinfo |>)
              end
          end
        end
      end
  end.

(** [net/core/datagram.c] *)
Definition __skb_checksum_complete (skb : sk_buff) : Z * sk_buff :=
  let sum := u16 (csum_fold (skb_checksum skb 0 (skb_len skb) (csum skb))) in
  (sum, if sum =? 0 then skb <| ip_summed := CHECKSUM_UNNECESSARY |> else skb).

Definition icmp_error (env : ct_env) (skb : sk_buff) (hooknum : Z) (s : ct_state)
    : Z * ct_state * sk_buff :=
  match skb_header_pointer skb (ihl (skb_iph skb) * 4) sizeof_icmphdr with
  | None => (- NF_ACCEPT, s, skb)
  | Some hp =>
    let icmph := icmphdr_at hp 0 in
    let '(bad, skb) :=
      if negb (hooknum =? NF_IP_PRE_ROUTING) then (false, skb)
      else if (ip_summed skb =? CHECKSUM_HW) && (u16 (csum_fold (csum skb)) =? 0)
      then (false, skb)
      else if (ip_summed skb =? CHECKSUM_HW) || (ip_summed skb =? CHECKSUM_NONE)
      then let (sum, skb) := __skb_checksum_complete (skb <| csum := 0 |>) in
           (negb (sum =? 0), skb)
      else (false, skb) in
    if bad then (- NF_ACCEPT, s, skb)
    else if NR_ICMP_TYPES <? icmp_type icmph then (- NF_ACCEPT, s, skb)
    else if negb (icmp_type icmph =? ICMP_DEST_UNREACH)
            && negb (icmp_type icmph =? ICMP_SOURCE_QUENCH)
            && negb (icmp_type icmph =? ICMP_TIME_EXCEEDED)
            && negb (icmp_type icmph =? ICMP_PARAMETERPROB)
            && negb (icmp_type icmph =? ICMP_REDIRECT)
    then (NF_ACCEPT, s, skb)
    else icmp_error_message env skb hooknum s
  end.

(** [proto->error]; the generic protocol has none. *)
Definition proto_error (env : ct_env) (p : ip_conntrack_protocol) (skb : sk_buff)
    (hooknum : Z) (s : ct_state) : Z * ct_state * sk_buff :=
  match p with
  | proto_tcp_ops => (tcp_error skb hooknum, s, skb)
  | proto_udp_ops => (udp_error skb hooknum, s, skb)
  | proto_icmp_ops => icmp_error env skb hooknum s
  | proto_generic_ops => (NF_ACCEPT, s, skb)
  end.

(** ** The hook *)

(** [proto->packet(ct, skb, ctinfo)] on the store: the handler's effect on the
    conntrack, then the timeout function when the handler called it. *)
Definition run_packet (env : ct_env) (proto : ip_conntrack_protocol) (p : positive)
    (skb : sk_buff) (ctinfo : Z) (s : ct_state) : option (Z * ct_state) :=
  ct ← cts s !! p;
  r ← proto_packet (cfg env) proto (jiffies env) ct skb ctinfo;
  let s := upd_ct p (λ _, pr_ct r) s in
  Some (pr_ret r, if pr_kill r then death_by_timeout env p s else s).

Definition ip_conntrack_in (env : ct_env) (hooknum : Z) (skb : sk_buff) (s : ct_state)
    : option (Z * ct_state * sk_buff) :=
  match nfct skb with
  | Some _ => Some (NF_ACCEPT, s, skb)
  | None =>
    let iph := skb_iph skb in
    if flag (frag_off iph) (htons IP_OFFSET) then Some (NF_DROP, s, skb)
    else
      let proto := __ip_conntrack_proto_find (protocol iph) in
      let '(ret, s, skb) := proto_error env proto skb hooknum s in
      if ret <=? 0 then Some (- ret, s, skb)
      else
        '(r, s, skb) ← resolve_normal_ct env skb proto s;
        match r with
        | CT_NULL => Some (NF_ACCEPT, s, skb)
        | CT_NOMEM => Some (NF_DROP, s, skb)
        | CT_OK (p, set_reply, ctinfo) =>
            '(ret, s) ← run_packet env proto p skb ctinfo s;
            if ret <? 0 then Some (- ret, nf_conntrack_put p s, skb <| nfct := None |>)
            else Some (ret, if set_reply : bool then upd_ct p (set_bit IPS_SEEN_REPLY_BIT) s else s,
                       skb)
        end
  end.

(** [ip_conntrack_standalone.c:ip_conntrack_local], the hook of local packets. *)
Definition ip_conntrack_local (env : ct_env) (hooknum : Z) (skb : sk_buff) (s : ct_state)
    : option (Z * ct_state * sk_buff) :=
  if (skb_len skb <? 20) || (ihl (skb_iph skb) * 4 <? 20) then Some (NF_ACCEPT, s, skb)
  else ip_conntrack_in env hooknum skb s.

(** ** Expectations: registration *)
Definition expect_clash (a b : ip_conntrack_expect) : bool :=
  let am := exp_mask a in
  let bm := exp_mask b in
  ip_ct_tuple_mask_cmp (exp_tuple a) (exp_tuple b)
    (mk_tuple (Z.land (src_ip am) (src_ip bm)) (Z.land (src_u am) (src_u bm))
       (Z.land (dst_ip am) (dst_ip bm)) (Z.land (dst_u am) (dst_u bm))
       (Z.land (protonum am) (protonum bm)) IP_CT_DIR_ORIGINAL).

Definition expect_matches (a b : ip_conntrack_expect) : bool :=
  bool_decide (exp_master a = exp_master b)
  && ip_ct_tuple_equal (exp_tuple a) (exp_tuple b)
  && ip_ct_tuple_equal (exp_mask a) (exp_mask b).

Fixpoint unexpect_loop (l : list positive) (exp : ip_conntrack_expect) (s : ct_state) : ct_state :=
  match l with
  | [] => s
  | i :: l =>
      match exps s !! i with
      | Some x =>
          if expect_matches x exp then
            let (was, s) := exp_del_timer i s in
            if was then ip_conntrack_expect_put i (ip_ct_unlink_expect i s)
            else unexpect_loop l exp s
          else unexpect_loop l exp s
      | None => unexpect_loop l exp s
      end
  end.

Definition ip_conntrack_unexpect_related (exp : ip_conntrack_expect) (s : ct_state) : ct_state :=
  unexpect_loop (reverse (ip_conntrack_expect_list s)) exp s.

(** [ip_conntrack_expect_alloc], the fields the caller fills in given. *)
Definition ip_conntrack_expect_alloc (env : ct_env) (me : positive)
    (tuple mask : ip_conntrack_tuple) (fn : option positive) (flags : Z) (s : ct_state)
    : option positive * ct_state :=
  if negb (alloc_ok env) then (None, s)
  else
    let e := fresh (dom (exps s)) in
    (Some e, s <| exps := <[e := mk_exp tuple mask fn me (mk_timer false 0) 1 0 flags]> (exps s) |>).

(** [exp->master->helper->timeout]; [None] when the master has no helper. *)
Definition master_helper (s : ct_state) (m : positive) : option ip_conntrack_helper :=
  c ← cts s !! m; h ← ct_helper c; helper_tab s !! h.

Definition ip_conntrack_expect_insert (env : ct_env) (e : positive) (s : ct_state)
    : option ct_state :=
  x ← exps s !! e;
  h ← master_helper s (exp_master x);
  let s := upd_ct (exp_master x) (λ c, c <| expecting := u32 (expecting c + 1) |>) s in
  let s := s <| ip_conntrack_expect_list := e :: ip_conntrack_expect_list s |> in
  let id := u32 (ip_conntrack_expect_next_id s + 1) in
  let s := s <| ip_conntrack_expect_next_id := id |> in
  Some (upd_exp e (λ x, x <| exp_use := exp_use x + 2 |>
                          <| exp_timeout := mk_timer true (u32 (jiffies env + h_timeout h * HZ)) |>
                          <| exp_id := id |>) s).

Definition evict_oldest_expect (master : positive) (s : ct_state) : ct_state :=
  match list_find (λ i, (exp_master <$> exps s !! i) = Some master)
          (reverse (ip_conntrack_expect_list s)) with
  | Some (_, i) => drop_expectation i s
  | None => s
  end.

Definition refresh_timer (env : ct_env) (i : positive) (s : ct_state) : option (bool * ct_state) :=
  x ← exps s !! i;
  let (was, s) := exp_del_timer i s in
  if negb was then Some (false, s)
  else
    h ← master_helper s (exp_master x);
    Some (true, upd_exp i (λ x, x <| exp_timeout :=
                                  mk_timer true (u32 (jiffies env + h_timeout h * HZ)) |>) s).

Definition EBUSY := 16.

(** The scan of [ip_conntrack_expect_related]: [Some ret] when it jumps to [out]. *)
Fixpoint expect_scan (env : ct_env) (l : list positive) (expect : ip_conntrack_expect)
    (s : ct_state) : option (option Z * ct_state) :=
  match l with
  | [] => Some (None, s)
  | i :: l =>
      x ← exps s !! i;
      if expect_matches x expect then
        '(ok, s) ← refresh_timer env i s;
        if ok : bool then Some (Some 0, s) else expect_scan env l expect s
      else if expect_clash x expect then Some (Some (- EBUSY), s)
      else expect_scan env l expect s
  end.

Definition ip_conntrack_expect_related (env : ct_env) (e : positive) (s : ct_state)
    : option (Z * ct_state) :=
  expect ← exps s !! e;
  '(out, s) ← expect_scan env (ip_conntrack_expect_list s) expect s;
  match out with
  | Some ret => Some (ret, s)
  | None =>
      m ← cts s !! exp_master expect;
      h ← master_helper s (exp_master expect);
      let s := if negb (max_expected h =? 0) && (max_expected h <=? expecting m)
               then evict_oldest_expect (exp_master expect) s else s in
      s ← ip_conntrack_expect_insert env e s;
      Some (0, s)
  end.

(** ** For NAT and REJECT *)
Definition ip_conntrack_alter_reply (p : positive) (newreply : ip_conntrack_tuple) (s : ct_state)
    : ct_state :=
  upd_ct p (λ c,
    let c := c <| tuple_reply := newreply |> in
    if bool_decide (ct_master c = None) && (expecting c =? 0)
    then c <| ct_helper := __ip_conntrack_helper_find newreply s |> else c) s.

Definition ip_conntrack_attach (nskb skb : sk_buff) (s : ct_state) : sk_buff * ct_state :=
  let ctinfo := if dir_eqb (CTINFO2DIR (nfctinfo skb)) IP_CT_DIR_ORIGINAL
                then IP_CT_RELATED + IP_CT_IS_REPLY else IP_CT_RELATED in
  (nskb <| nfct := nfct skb |> <| nfctinfo := ctinfo |>,
   match nfct skb with Some p => nf_conntrack_get p s | None => s end).

(** ** Iterated removal *)
Definition get_next_corpse (iter : ip_conntrack → bool) (size : nat) (bucket : nat) (s : ct_state)
    : option node * nat * ct_state :=
  let sel (n : node) := match cts s !! n.1 with Some c => iter c | None => false end in
  let hit b := snd <$> list_find (λ n, Is_true (sel n)) (chain s (Z.of_nat b)) in
  let '(h, bucket) :=
    match list_find (λ b, is_Some (hit b)) (seq bucket (size - bucket)) with
    | Some (_, b) => (hit b, b)
    | None => (None, size)
    end in
  let h := match h with
           | Some n => Some n
           | None => (λ p, (p, IP_CT_DIR_ORIGINAL)) <$>
                     (snd <$> list_find (λ p, Is_true (sel (p, IP_CT_DIR_ORIGINAL))) (unconfirmed s))
           end in
  match h with
  | Some n => (Some n, bucket, nf_conntrack_get n.1 s)
  | None => (None, bucket, s)
  end.

(** The timeout function for one corpse; with the hardware-NAT option the count is
    raised by 60000 around it. *)
Definition cleanup_death (env : ct_env) (p : positive) (s : ct_state) : ct_state :=
  if CONFIG_STR9100_SHNAT (c_tcp (cfg env)) then
    let s := upd_ct p (λ c, c <| ct_use := ct_use c + 60000 |>) s in
    let s := death_by_timeout env p s in
    upd_ct p (λ c, let c := c <| ct_use := ct_use c - 60000 |> in
                   if ct_use c =? 0 then c <| ct_use := 1 |> else c) s
  else death_by_timeout env p s.

(** The body of the loop of [ip_ct_iterate_cleanup]. *)
Definition cleanup_one (env : ct_env) (p : positive) (s : ct_state) : ct_state :=
  let (was, s) := ct_del_timer p s in
  nf_conntrack_put p (if was then cleanup_death env p s else s).

(** [None] when [fuel] corpses did not exhaust the table. *)
Fixpoint ip_ct_iterate_cleanup (fuel : nat) (env : ct_env) (iter : ip_conntrack → bool)
    (bucket : nat) (s : ct_state) : option ct_state :=
  match fuel with
  | O => None
  | S fuel =>
      let '(h, bucket, s) :=
        get_next_corpse iter (Z.to_nat (ip_conntrack_htable_size env)) bucket s in
      match h with
      | None => Some s
      | Some n => ip_ct_iterate_cleanup fuel env iter bucket (cleanup_one env n.1 s)
      end
  end.

Definition ip_conntrack_flush (fuel : nat) (env : ct_env) (s : ct_state) : option ct_state :=
  ip_ct_iterate_cleanup fuel env (λ _, true) 0 s.
