(* ===== verification/ConntrackInv.v ===== *)
(** * The invariant of the connection tracker

    [Inv env D N live ehold s] says that the state [s] is consistent: the hash
    chains, the unconfirmed list, the expectation list, the counters and every
    reference count agree, and no pointer dangles.

    - [live] holds one occurrence of a conntrack per reference outside the tracker
      (a socket buffer's [nfct]); [ehold] likewise for expectations;
    - [D] is the set of conntracks that [destroy_conntrack] has unlinked and not
      freed yet, [N] the ones [init_conntrack] has allocated and not listed yet;
      both are empty between the operations. *)
From S2P Require Import Prelude Packet CtBase TcpTrack CtProtos Conntrack.
From stdpp Require Import gmultiset fin_maps fin_sets.
#[local] Open Scope Z_scope.

Definition tabled (s : ct_state) (n : node) : Prop := ∃ h, n ∈ chain s h.

Lemma tabled_Exists s n :
  tabled s n ↔ map_Exists (λ _ l, n ∈ l) (ip_conntrack_hash s).
Proof.
  unfold tabled, chain. split.
  - intros [h Hh]. destruct (ip_conntrack_hash s !! h) as [l|] eqn:E; simpl in Hh.
    + by exists h, l.
    + by apply elem_of_nil in Hh.
  - intros (h & l & Hl & Hn). exists h. by rewrite Hl.
Qed.
#[export] Instance tabled_dec s n : Decision (tabled s n).
Proof.
  destruct (decide (map_Exists (λ _ l, n ∈ l) (ip_conntrack_hash s))) as [H|H];
    [left | right]; by rewrite tabled_Exists.
Defined.

(** The table's own reference, as a number. *)
Definition table_ref (s : ct_state) (p : positive) : Z :=
  if decide (tabled s (p, IP_CT_DIR_ORIGINAL)) then 1 else 0.

(** The conntracks whose master is [p]. *)
Definition children (s : ct_state) (D : gset positive) (p : positive) : gset positive :=
  dom (filter (λ kv, ct_master kv.2 = Some p) (cts s)) ∖ D.

(** The listed expectations of [p]. *)
Definition expected_of (s : ct_state) (p : positive) : gset positive :=
  filter (λ e, (exp_master <$> exps s !! e) = Some p)
    (list_to_set (ip_conntrack_expect_list s)).

(** ** Hash table *)
Record table_wf (env : ct_env) (D : gset positive) (s : ct_state) : Prop := {
  tw_chain : ∀ h n, n ∈ chain s h → ∃ c, cts s !! n.1 = Some c ∧ is_confirmed c = true ∧
    hash_conntrack env (tuplehash c n.2) = h ∧ n.1 ∉ D;
  tw_nodup : ∀ h, NoDup (chain s h);
  tw_pair : ∀ p, tabled s (p, IP_CT_DIR_ORIGINAL) ↔ tabled s (p, IP_CT_DIR_REPLY);
  tw_uniq : ∀ n n' t t', tabled s n → tabled s n' →
    node_tuple s n = Some t → node_tuple s n' = Some t' → ip_ct_tuple_equal t t' = true →
    n.1 = n'.1;
  tw_timer : ∀ p c, cts s !! p = Some c → pending (timeout c) = true →
    tabled s (p, IP_CT_DIR_ORIGINAL) }.

(** ** Ownership: lists, counters, references *)
Record own_wf (D N : gset positive) (live : gmultiset positive) (s : ct_state) : Prop := {
  ow_dirs : ∀ p c, cts s !! p = Some c →
    dst_dir (tuple_orig c) = IP_CT_DIR_ORIGINAL ∧ dst_dir (tuple_reply c) = IP_CT_DIR_REPLY;
  ow_unconf_nodup : NoDup (unconfirmed s);
  ow_new : ∀ p, p ∈ N → p ∉ unconfirmed s;
  ow_unconf : ∀ p, p ∈ unconfirmed s ∨ p ∈ N ↔
    ∃ c, cts s !! p = Some c ∧ is_confirmed c = false ∧ p ∉ D;
  ow_count : ip_conntrack_count s = Z.of_nat (size (cts s));
  ow_dead : D ⊆ dom (cts s);
  ow_live : ∀ p, p ∈ live → p ∈ dom (cts s) ∧ p ∉ D;
  ow_master : ∀ q c m, cts s !! q = Some c → q ∉ D → ct_master c = Some m →
    m ∈ dom (cts s) ∧ m ∉ D;
  ow_use : ∀ p c, cts s !! p = Some c → p ∉ D →
    ct_use c = table_ref s p + Z.of_nat (multiplicity p live)
               + Z.of_nat (size (children s D p));
  ow_bysource : ∀ h p, p ∈ default [] (bysource s !! h) →
    ∃ c, cts s !! p = Some c ∧ flag (status c) IPS_NAT_DONE_MASK = true ∧ p ∉ D }.

(** A conntrack whose last reference is gone has been destroyed. *)
Definition alive (D : gset positive) (s : ct_state) : Prop :=
  ∀ p c, cts s !! p = Some c → p ∉ D → 0 < ct_use c.

(** ** Clashes *)
Definition no_clash (s : ct_state) : Prop :=
  ∀ i j x y, i ∈ ip_conntrack_expect_list s → j ∈ ip_conntrack_expect_list s → i ≠ j →
    exps s !! i = Some x → exps s !! j = Some y → expect_clash x y = false.

Lemma flag_sym a b m m' : flag (Z.lxor a b) (Z.land m m') = flag (Z.lxor b a) (Z.land m' m).
Proof. by rewrite Z.lxor_comm, Z.land_comm. Qed.
Lemma expect_clash_sym a b : expect_clash a b = expect_clash b a.
Proof.
  unfold expect_clash, ip_ct_tuple_mask_cmp. simpl.
  by rewrite (flag_sym (src_ip (exp_tuple a))), (flag_sym (dst_ip (exp_tuple a))),
    (flag_sym (src_u (exp_tuple a))), (flag_sym (dst_u (exp_tuple a))),
    (flag_sym (protonum (exp_tuple a))).
Qed.

(** What clashing depends on. *)
Definition same_key (x x' : ip_conntrack_expect) : Prop :=
  exp_tuple x' = exp_tuple x ∧ exp_mask x' = exp_mask x ∧ exp_master x' = exp_master x.
Lemma clash_key a a' b b' : same_key a a' → same_key b b' → expect_clash a' b' = expect_clash a b.
Proof. intros (Ht & Hm & _) (Ht' & Hm' & _). unfold expect_clash. by rewrite Ht, Hm, Ht', Hm'. Qed.
Lemma matches_key a a' b : same_key a a' → expect_matches a' b = expect_matches a b.
Proof. intros (Ht & Hm & Hs). unfold expect_matches. by rewrite Ht, Hm, Hs. Qed.

Lemma no_clash_sub s s' :
  (∀ i, i ∈ ip_conntrack_expect_list s' → i ∈ ip_conntrack_expect_list s) →
  (∀ i x', i ∈ ip_conntrack_expect_list s' → exps s' !! i = Some x' →
     ∃ x, exps s !! i = Some x ∧ same_key x x') →
  no_clash s → no_clash s'.
Proof.
  intros Hl Hk Hn i j x y Hi Hj Hne Hx Hy.
  destruct (Hk i x Hi Hx) as (x0 & Hx0 & Kx). destruct (Hk j y Hj Hy) as (y0 & Hy0 & Ky).
  rewrite (clash_key _ _ _ _ Kx Ky). by eapply (Hn i j); eauto.
Qed.

(** ** Expectations *)
Record exp_wf (D : gset positive) (ehold : gmultiset positive) (s : ct_state) : Prop := {
  ew_nodup : NoDup (ip_conntrack_expect_list s);
  ew_small : Z.of_nat (length (ip_conntrack_expect_list s)) < 4294967296;
  ew_listed : ∀ e, e ∈ ip_conntrack_expect_list s → ∃ x, exps s !! e = Some x ∧
    exp_master x ∈ dom (cts s) ∧ exp_master x ∉ D;
  ew_timer : ∀ e x, exps s !! e = Some x →
    (pending (exp_timeout x) = true ↔ e ∈ ip_conntrack_expect_list s);
  ew_use : ∀ e x, exps s !! e = Some x →
    exp_use x = (if decide (e ∈ ip_conntrack_expect_list s) then 2 else 0)
                + Z.of_nat (multiplicity e ehold) ∧ 0 < exp_use x;
  ew_hold : ∀ e, e ∈ ehold → e ∈ dom (exps s);
  ew_count : ∀ p c, cts s !! p = Some c →
    expecting c = Z.of_nat (size (expected_of s p));
  ew_clash : no_clash s }.

Record Inv (env : ct_env) (D N : gset positive) (live ehold : gmultiset positive)
    (s : ct_state) : Prop := {
  inv_table : table_wf env D s;
  inv_own : own_wf D N live s;
  inv_alive : alive D s;
  inv_exp : exp_wf D ehold s }.

Lemma elem_of_children s D p q :
  q ∈ children s D p ↔ q ∉ D ∧ ∃ c, cts s !! q = Some c ∧ ct_master c = Some p.
Proof.
  unfold children. rewrite elem_of_difference, elem_of_dom. unfold is_Some.
  setoid_rewrite map_lookup_filter_Some. naive_solver.
Qed.

Lemma elem_of_expected_of s p e :
  e ∈ expected_of s p ↔
  e ∈ ip_conntrack_expect_list s ∧ (exp_master <$> exps s !! e) = Some p.
Proof. unfold expected_of. rewrite elem_of_filter, elem_of_list_to_set. naive_solver. Qed.

(** ** Frame lemmas

    [ct_frame c c']: [c'] has the tuples, the master and the confirmation of [c],
    no new pending timer and no NAT bit less. *)
Record ct_frame (c c' : ip_conntrack) : Prop := {
  cf_orig : tuple_orig c' = tuple_orig c;
  cf_reply : tuple_reply c' = tuple_reply c;
  cf_master : ct_master c' = ct_master c;
  cf_confirmed : is_confirmed c' = is_confirmed c;
  cf_pending : pending (timeout c') = true → pending (timeout c) = true;
  cf_nat : flag (status c) IPS_NAT_DONE_MASK = true → flag (status c') IPS_NAT_DONE_MASK = true }.

Definition cts_frame (s s' : ct_state) : Prop :=
  ∀ p, option_Forall2 ct_frame (cts s !! p) (cts s' !! p).

Lemma ct_frame_refl c : ct_frame c c.
Proof. by split. Qed.
Lemma cts_frame_refl s s' : cts s' = cts s → cts_frame s s'.
Proof. intros H p. rewrite H. destruct (cts s !! p); constructor. apply ct_frame_refl. Qed.

Lemma cts_frame_upd s p f :
  (∀ c, cts s !! p = Some c → ct_frame c (f c)) → cts_frame s (upd_ct p f s).
Proof.
  intros H q. simpl. destruct (decide (q = p)) as [->|Hq].
  - rewrite lookup_alter_eq. destruct (cts s !! p) eqn:E; constructor. auto.
  - rewrite lookup_alter_ne by done. destruct (cts s !! q); constructor. apply ct_frame_refl.
Qed.

Section Frame.
Context {s s' : ct_state} (HF : cts_frame s s').

Lemma frame_fwd p c : cts s !! p = Some c → ∃ c', cts s' !! p = Some c' ∧ ct_frame c c'.
Proof. intros H. specialize (HF p). rewrite H in HF. inversion HF; subst. by eexists. Qed.
Lemma frame_bwd p c' : cts s' !! p = Some c' → ∃ c, cts s !! p = Some c ∧ ct_frame c c'.
Proof. intros H. specialize (HF p). rewrite H in HF. inversion HF; subst. by eexists. Qed.
Lemma frame_dom : dom (cts s') = dom (cts s).
Proof.
  apply set_eq. intros p. rewrite !elem_of_dom. split; intros [c Hc].
  - apply frame_bwd in Hc as (? & ? & _). by eexists.
  - apply frame_fwd in Hc as (? & ? & _). by eexists.
Qed.
Lemma frame_children D p : children s' D p = children s D p.
Proof.
  apply set_eq. intros q. rewrite !elem_of_children. split; intros (HD & c & Hc & Hm); (split; [done|]).
  - apply frame_bwd in Hc as (c0 & ? & Hcf). exists c0. split; [done|].
    by rewrite <- (cf_master _ _ Hcf).
  - apply frame_fwd in Hc as (c0 & ? & Hcf). exists c0. split; [done|].
    by rewrite (cf_master _ _ Hcf).
Qed.
Lemma frame_tuplehash c c' d : ct_frame c c' → tuplehash c' d = tuplehash c d.
Proof. intros [Ho Hr]. by destruct d. Qed.
Lemma frame_node n : node_tuple s' n = node_tuple s n.
Proof.
  unfold node_tuple. destruct (cts s !! n.1) as [c|] eqn:E.
  - apply frame_fwd in E as (c' & -> & Hf). simpl. by rewrite (frame_tuplehash c c').
  - specialize (HF n.1). rewrite E in HF. by inversion HF.
Qed.
End Frame.

Lemma tabled_hash s s' : (∀ h, chain s' h = chain s h) → ∀ n, tabled s' n ↔ tabled s n.
Proof. intros H n. unfold tabled. by setoid_rewrite H. Qed.
Lemma table_ref_hash s s' p :
  (∀ h, chain s' h = chain s h) → table_ref s' p = table_ref s p.
Proof.
  intros H. unfold table_ref. destruct (decide (tabled s' _)) as [Ht|Ht],
    (decide (tabled s _)) as [Ht'|Ht']; try done; by rewrite (tabled_hash s s') in Ht.
Qed.

Lemma table_frame env D s s' :
  (∀ h, chain s' h = chain s h) → cts_frame s s' →
  table_wf env D s → table_wf env D s'.
Proof.
  intros Hch HF [Hc Hn Hp Hu Ht]. split.
  - intros h n. rewrite Hch. intros Hin. destruct (Hc h n Hin) as (c & Hl & Hcf & Hhash & HD).
    destruct (frame_fwd HF _ _ Hl) as (c' & Hl' & Hf). exists c'.
    rewrite (cf_confirmed _ _ Hf), (frame_tuplehash _ _ _ Hf). done.
  - intros h. by rewrite Hch.
  - intros p. by rewrite !(tabled_hash s s' Hch).
  - intros n n' t t'. rewrite !(tabled_hash s s' Hch), !(frame_node HF). apply Hu.
  - intros p c' Hl' Hpe. rewrite (tabled_hash s s' Hch).
    destruct (frame_bwd HF _ _ Hl') as (c & Hl & Hf). eapply Ht; [done|]. by apply (cf_pending _ _ Hf).
Qed.

Lemma own_frame D N live live' s s' :
  (∀ h, chain s' h = chain s h) → unconfirmed s' = unconfirmed s →
  ip_conntrack_count s' = ip_conntrack_count s → bysource s' = bysource s →
  cts_frame s s' →
  (∀ p c c', cts s !! p = Some c → cts s' !! p = Some c' → p ∉ D →
     ct_use c' - Z.of_nat (multiplicity p live') = ct_use c - Z.of_nat (multiplicity p live)) →
  (∀ p, p ∈ live' → p ∈ dom (cts s) ∧ p ∉ D) →
  own_wf D N live s → own_wf D N live' s'.
Proof.
  intros Hh Hu Hc Hb HF Huse Hlive [O1 O2 O3 O4 O5 O6 O7 O8 O9 O11].
  pose proof (frame_dom HF) as Hd. split.
  - intros p c' Hl. destruct (frame_bwd HF _ _ Hl) as (c & Hl0 & Hf).
    rewrite (cf_orig _ _ Hf), (cf_reply _ _ Hf). eauto.
  - by rewrite Hu.
  - intros p. rewrite Hu. apply O3.
  - intros p. rewrite Hu, O4. split; intros (c & Hl & Hcf & HD).
    + destruct (frame_fwd HF _ _ Hl) as (c' & Hl' & Hf). exists c'. by rewrite (cf_confirmed _ _ Hf).
    + destruct (frame_bwd HF _ _ Hl) as (c' & Hl' & Hf). exists c'. by rewrite <- (cf_confirmed _ _ Hf).
  - by rewrite Hc, O5, <- !size_dom, Hd.
  - by rewrite Hd.
  - intros p. rewrite Hd. apply Hlive.
  - intros q c' m Hl HD Hm. rewrite Hd. destruct (frame_bwd HF _ _ Hl) as (c & Hl0 & Hf).
    eapply O8; [done..|]. by rewrite <- (cf_master _ _ Hf).
  - intros p c' Hl HD. destruct (frame_bwd HF _ _ Hl) as (c & Hl0 & Hf).
    specialize (Huse _ _ _ Hl0 Hl HD). rewrite (O9 p c) in Huse by done.
    rewrite (table_ref_hash s s'), (frame_children HF) by done. lia.
  - intros h p. rewrite Hb. intros Hin. destruct (O11 h p Hin) as (c & Hl & Hn & HD).
    destruct (frame_fwd HF _ _ Hl) as (c' & Hl' & Hf). exists c'. split_and!; [done| |done].
    by apply (cf_nat _ _ Hf).
Qed.

Definition use_eq (s s' : ct_state) : Prop :=
  ∀ p c c', cts s !! p = Some c → cts s' !! p = Some c' → ct_use c' = ct_use c.

Lemma alive_frame D s s' : cts_frame s s' → use_eq s s' → alive D s → alive D s'.
Proof.
  intros HF HU HA p c' Hl HD. destruct (frame_bwd HF _ _ Hl) as (c & Hl0 & Hf).
  rewrite (HU _ _ _ Hl0 Hl). by eapply HA.
Qed.

Lemma exp_frame D ehold s s' :
  exps s' = exps s → ip_conntrack_expect_list s' = ip_conntrack_expect_list s →
  dom (cts s') = dom (cts s) →
  (∀ p c', cts s' !! p = Some c' → ∃ c, cts s !! p = Some c ∧ expecting c' = expecting c) →
  exp_wf D ehold s → exp_wf D ehold s'.
Proof.
  intros He Hl Hd Hx [E1 E2 E3 E4 E5 E6 E7 E8].
  assert (∀ p, expected_of s' p = expected_of s p) as Hexp
    by (intros p; unfold expected_of; by rewrite He, Hl).
  split; rewrite ?He, ?Hl, ?Hd; try done.
  - intros p c' Hc'. destruct (Hx _ _ Hc') as (c & Hc & ->). rewrite Hexp. eauto.
  - unfold no_clash. by rewrite He, Hl.
Qed.

(** The part of the state that operations on expectations leave alone. *)
Record same_lists (s s' : ct_state) : Prop := {
  sl_hash : ∀ h, chain s' h = chain s h;
  sl_unconf : unconfirmed s' = unconfirmed s;
  sl_count : ip_conntrack_count s' = ip_conntrack_count s;
  sl_bysource : bysource s' = bysource s;
  sl_cts : cts_frame s s';
  sl_use : use_eq s s' }.

Lemma use_eq_refl s s' : cts s' = cts s → use_eq s s'.
Proof. intros H p c c'. rewrite H. congruence. Qed.
Lemma use_eq_trans s s' s'' : cts_frame s s' → use_eq s s' → use_eq s' s'' → use_eq s s''.
Proof.
  intros HF H1 H2 p c c'' Hc Hc''. destruct (frame_fwd HF _ _ Hc) as (c' & Hc' & _).
  by rewrite (H2 _ _ _ Hc' Hc''), (H1 _ _ _ Hc Hc').
Qed.
Lemma cts_frame_trans s s' s'' : cts_frame s s' → cts_frame s' s'' → cts_frame s s''.
Proof.
  intros H1 H2 p. specialize (H1 p). specialize (H2 p). inversion H1 as [c c' Hf He He'|He He'];
    inversion H2 as [d d' Hg Hd Hd'|Hd Hd']; rewrite <- He' in Hd; simplify_eq; constructor.
  destruct Hf, Hg. split; try congruence; auto.
Qed.
#[export] Instance same_lists_preorder : PreOrder same_lists.
Proof.
  split.
  - intros s. split; try done; [by apply cts_frame_refl | by apply use_eq_refl].
  - intros s1 s2 s3 [H1] [H2]. split; try congruence;
      [by eapply cts_frame_trans | by eapply use_eq_trans].
Qed.

Lemma same_lists_table env D s s' : same_lists s s' → table_wf env D s → table_wf env D s'.
Proof. intros []. by apply table_frame. Qed.
Lemma same_lists_alive D s s' : same_lists s s' → alive D s → alive D s'.
Proof. intros []. by apply alive_frame. Qed.
Lemma same_lists_own D N live s s' : same_lists s s' → own_wf D N live s → own_wf D N live s'.
Proof.
  intros [] HO. apply (own_frame D N live live s); try done; [|apply HO].
  intros p c c' Hc Hc' _. by rewrite (sl_use0 _ _ _ Hc Hc').
Qed.

Lemma same_lists_Inv env D N live ehold s s' :
  same_lists s s' → exp_wf D ehold s' → Inv env D N live ehold s → Inv env D N live ehold s'.
Proof.
  intros HS HE [HT HO HA _]. split; [by eapply same_lists_table | by eapply same_lists_own
    | by eapply same_lists_alive | done].
Qed.

(** An update of one conntrack in place. *)
Lemma same_lists_upd p f s :
  (∀ c, cts s !! p = Some c → ct_frame c (f c) ∧ ct_use (f c) = ct_use c) →
  same_lists s (upd_ct p f s).
Proof.
  intros Hf. split; try done; [apply cts_frame_upd; naive_solver|].
  intros q c c'. simpl. destruct (decide (q = p)) as [->|Hq].
  - rewrite lookup_alter_eq. intros Hc. rewrite Hc. intros [= <-]. by apply Hf.
  - rewrite lookup_alter_ne by done. congruence.
Qed.

Lemma exp_upd D ehold p f s :
  (∀ c, cts s !! p = Some c → expecting (f c) = expecting c) →
  exp_wf D ehold s → exp_wf D ehold (upd_ct p f s).
Proof.
  intros Hf. apply exp_frame; try done; [by simpl; rewrite dom_alter_L|].
  intros q c'. simpl. destruct (decide (q = p)) as [->|Hq].
  - rewrite lookup_alter_eq. destruct (cts s !! p) eqn:E; [|done]. intros [= <-].
    eexists; split; [done|]. by apply Hf.
  - rewrite lookup_alter_ne by done. by eauto.
Qed.

Lemma Inv_upd env D N live ehold p f s :
  (∀ c, cts s !! p = Some c →
     ct_frame c (f c) ∧ ct_use (f c) = ct_use c ∧ expecting (f c) = expecting c) →
  Inv env D N live ehold s → Inv env D N live ehold (upd_ct p f s).
Proof.
  intros Hf HI. apply (same_lists_Inv _ _ _ _ _ s); [apply same_lists_upd; naive_solver| |done].
  apply exp_upd; [naive_solver|apply HI].
Qed.

(** ** Expectations: unlinking and dropping *)
Definition exp_master_of (s : ct_state) (e : positive) : option positive :=
  exp_master <$> exps s !! e.

Lemma size_expected_remove s e p x :
  e ∈ ip_conntrack_expect_list s → exps s !! e = Some x → exp_master x = p →
  size (expected_of s p) = S (size (expected_of s p ∖ {[e]})).
Proof.
  intros Hin Hx Hp. rewrite size_difference.
  - rewrite size_singleton. assert (size (expected_of s p) ≠ 0)%nat; [|lia].
    rewrite size_non_empty_iff. intros H%leibniz_equiv. assert (e ∈ (∅ : gset positive)) as Hbad.
    { rewrite <- H. apply elem_of_expected_of. rewrite Hx. simpl. by subst. }
    set_solver.
  - apply singleton_subseteq_l, elem_of_expected_of. rewrite Hx. simpl. by subst.
Qed.

Definition unlinked (e : positive) (s : ct_state) : ct_state :=
  ip_ct_unlink_expect e (exp_del_timer e s).2.

Lemma unlink_expect_inv D ehold e s :
  exp_wf D ehold s → e ∈ ip_conntrack_expect_list s →
  (exp_del_timer e s).1 = true ∧
  exp_wf D (ehold ⊎ {[+ e +]}) (unlinked e s) ∧ same_lists s (unlinked e s) ∧
  ip_conntrack_expect_list (unlinked e s) =
    filter (λ i, i ≠ e) (ip_conntrack_expect_list s) ∧
  (∀ i, i ≠ e → exps (unlinked e s) !! i = exps s !! i) ∧
  (∃ x x', exps s !! e = Some x ∧ exps (unlinked e s) !! e = Some x' ∧
     exp_master x' = exp_master x ∧ expectfn x' = expectfn x) ∧
  helper_tab (unlinked e s) = helper_tab s ∧ helpers (unlinked e s) = helpers s ∧
  cts (unlinked e s) = alter (λ c, c <| expecting := u32 (expecting c - 1) |>)
                         (default 1%positive (exp_master_of s e)) (cts s).
Proof.
  intros [E1 E2 E3 E4 E5 E6 E7 E8] Hin. destruct (E3 e Hin) as (x & Hx & Hm & HmD).
  destruct (E5 _ _ Hx) as [Huse Hpos]. rewrite decide_True in Huse by done.
  unfold unlinked, exp_del_timer, exp_master_of, ip_ct_unlink_expect. simpl. rewrite Hx. simpl.
  rewrite lookup_alter_eq, Hx. simpl. unfold ip_conntrack_expect_put. simpl.
  rewrite lookup_alter_eq, Hx. simpl.
  destruct (Z.eqb_spec (exp_use x - 1) 0); [lia|].
  set (x' := x <| exp_timeout := _ |> <| exp_use := _ |>).
  assert (pending (exp_timeout x) = true) as Hpe by (by apply (E4 e x Hx)).
  assert (e ∉ filter (λ i, i ≠ e) (ip_conntrack_expect_list s)) as Hnin
    by (rewrite list_elem_of_filter; naive_solver).
  assert (∀ i, i ≠ e → i ∈ filter (λ i, i ≠ e) (ip_conntrack_expect_list s)
               ↔ i ∈ ip_conntrack_expect_list s) as Hoth
    by (intros i; rewrite list_elem_of_filter; naive_solver).
  match goal with |- context [exp_wf _ _ ?st] => set (s2 := st) end.
  assert (∀ i, i ≠ e → exps s2 !! i = exps s !! i) as Hexo.
  { intros i Hi. simpl. by rewrite lookup_insert_ne, lookup_alter_ne by done. }
  assert (exps s2 !! e = Some x') as Hexe by (simpl; by rewrite lookup_insert_eq).
  assert (cts_frame s s2) as HF.
  { intros q. simpl. destruct (decide (q = exp_master x)) as [->|Hq].
    - rewrite lookup_alter_eq. destruct (cts s !! exp_master x); constructor. by split.
    - rewrite lookup_alter_ne by done. apply cts_frame_refl. done. }
  assert (use_eq s s2) as HU.
  { intros q c c'. simpl. destruct (decide (q = exp_master x)) as [->|Hq].
    - rewrite lookup_alter_eq. intros Hc. rewrite Hc. by intros [= <-].
    - rewrite lookup_alter_ne by done. congruence. }
  split_and!; try done; [|by exists x, x'].
  pose proof (frame_dom HF) as Hdom.
  split.
  - simpl. by apply NoDup_filter.
  - simpl. pose proof (length_filter (λ i, i ≠ e) (ip_conntrack_expect_list s)). lia.
  - intros i. rewrite Hdom. simpl. rewrite list_elem_of_filter. intros [Hi Hin'].
    rewrite lookup_insert_ne, lookup_alter_ne by done. eauto.
  - intros i y. destruct (decide (i = e)) as [->|Hi].
    + rewrite Hexe. intros [= <-]. simpl. split; [done|]. intros Hb. by apply Hnin in Hb.
    + rewrite Hexo by done. intros Hy. simpl. rewrite Hoth by done. eauto.
  - intros i y. destruct (decide (i = e)) as [->|Hi].
    + rewrite Hexe. intros [= <-]. rewrite decide_False by done.
      change (exp_use x') with (exp_use x - 1). 
      rewrite multiplicity_disj_union, multiplicity_singleton_eq. lia.
    + rewrite Hexo by done. intros Hy. destruct (E5 _ _ Hy) as [Hu' Hp'].
      rewrite multiplicity_disj_union, multiplicity_singleton_ne, Nat.add_0_r by done.
      rewrite Hu' in Hp' |- *. destruct (decide (i ∈ ip_conntrack_expect_list s)),
        (decide (i ∈ ip_conntrack_expect_list s2)) as [Hd|Hd]; try done;
        simpl in Hd; rewrite Hoth in Hd by done; done.
  - intros i Hi. simpl. rewrite dom_insert, dom_alter. set_unfold in Hi. set_solver.
  - intros p c. simpl. destruct (decide (p = exp_master x)) as [->|Hp].
    + rewrite lookup_alter_eq. destruct (cts s !! exp_master x) as [c0|] eqn:Ec; [|done].
      intros [= <-]. simpl. rewrite (E7 _ _ Ec).
      rewrite (size_expected_remove s e _ x Hin Hx eq_refl).
      replace (expected_of s2 (exp_master x)) with (expected_of s (exp_master x) ∖ {[e]}).
      * assert (size (expected_of s (exp_master x) ∖ {[e]}) ≤ length (ip_conntrack_expect_list s))%nat.
        { etransitivity; [apply subseteq_size with (Y := list_to_set (ip_conntrack_expect_list s))|].
          - intros i [Hi _]%elem_of_difference. apply elem_of_expected_of in Hi. set_solver.
          - by rewrite size_list_to_set. }
        word_lia.
      * apply set_eq. intros i. rewrite elem_of_difference, !elem_of_expected_of, elem_of_singleton.
        simpl. destruct (decide (i = e)) as [->|Hi]; [naive_solver|].
        rewrite Hoth, lookup_insert_ne, lookup_alter_ne by done. naive_solver.
    + rewrite lookup_alter_ne by done. intros Hc. rewrite (E7 _ _ Hc). do 2 f_equal.
      apply set_eq. intros i. rewrite !elem_of_expected_of. simpl.
      destruct (decide (i = e)) as [->|Hi].
      * rewrite Hx. simpl. naive_solver.
      * rewrite Hoth, lookup_insert_ne, lookup_alter_ne by done. done.
  - apply (no_clash_sub s); [simpl; intros i; rewrite list_elem_of_filter; tauto| |done].
    intros i y Hi Hy. rewrite Hexo in Hy by (intros ->; done). by exists y.
Qed.

(** Nothing but [exps] changes. *)
Lemma expect_put_inv D ehold e s :
  exp_wf D (ehold ⊎ {[+ e +]}) s →
  exp_wf D ehold (ip_conntrack_expect_put e s) ∧ same_lists s (ip_conntrack_expect_put e s) ∧
  cts (ip_conntrack_expect_put e s) = cts s ∧
  ip_conntrack_expect_list (ip_conntrack_expect_put e s) = ip_conntrack_expect_list s ∧
  (∀ i, i ≠ e → exps (ip_conntrack_expect_put e s) !! i = exps s !! i).
Proof.
  intros [E1 E2 E3 E4 E5 E6 E7 E8]. unfold ip_conntrack_expect_put.
  destruct (exps s !! e) as [x|] eqn:Hx.
  2:{ assert (e ∈ dom (exps s)) as [? ?]%elem_of_dom by (apply E6; multiset_solver). by simplify_eq. }
  destruct (E5 _ _ Hx) as [Hu Hp]. rewrite multiplicity_disj_union, multiplicity_singleton_eq in Hu.
  simpl. set (x' := x <| exp_use := _ |>).
  assert (∀ y i, i ≠ e → exps s !! i = Some y →
    exp_use y = (if decide (i ∈ ip_conntrack_expect_list s) then 2 else 0)
                + Z.of_nat (multiplicity i ehold) ∧ 0 < exp_use y) as Hother.
  { intros y i Hi Hy. pose proof (E5 _ _ Hy) as H5.
    by rewrite multiplicity_disj_union, multiplicity_singleton_ne, Nat.add_0_r in H5. }
  destruct (Z.eqb_spec (exp_use x - 1) 0) as [Hz|Hz].
  - assert (e ∉ ip_conntrack_expect_list s) as Hnin by (intros H; rewrite decide_True in Hu by done; lia).
    rewrite decide_False in Hu by done.
    assert (∀ i, i ≠ e → delete e (exps s) !! i = exps s !! i) as Hdel
      by (intros; by rewrite lookup_delete_ne).
    split_and!; [|split; try done; [by apply cts_frame_refl | by apply use_eq_refl]|done..].
    split; simpl; try done.
    + intros i Hi. rewrite Hdel by (by intros ->). auto.
    + intros i y. destruct (decide (i = e)) as [->|Hi]; [by rewrite lookup_delete_eq|].
      rewrite Hdel by done. auto.
    + intros i y. destruct (decide (i = e)) as [->|Hi]; [by rewrite lookup_delete_eq|].
      rewrite Hdel by done. auto.
    + intros i Hi. rewrite dom_delete. apply elem_of_difference. split; [apply E6; multiset_solver|].
      intros ->%elem_of_singleton. assert (multiplicity e ehold = 0)%nat by lia.
      pose proof (proj1 (elem_of_multiplicity e ehold) Hi). lia.
    + intros p c Hc. rewrite (E7 _ _ Hc). do 2 f_equal. apply set_eq. intros i.
      rewrite !elem_of_expected_of. simpl. destruct (decide (i = e)) as [->|Hi]; [naive_solver|].
      by rewrite Hdel.
    + apply (no_clash_sub s); [done| |done]. intros i y Hi Hy. simpl in Hy.
      rewrite Hdel in Hy by (intros ->; done). by exists y.
  - assert (∀ i, i ≠ e → <[e:=x']> (exps s) !! i = exps s !! i) as Hins
      by (intros; by rewrite lookup_insert_ne).
    split_and!; [|split; try done; [by apply cts_frame_refl | by apply use_eq_refl]|done..].
    split; simpl; try done.
    + intros i Hi. destruct (decide (i = e)) as [->|Hne].
      * rewrite lookup_insert_eq. exists x'. split; [done|].
        destruct (E3 e Hi) as (y & Hy & Hm). by simplify_eq.
      * rewrite Hins by done. auto.
    + intros i y. destruct (decide (i = e)) as [->|Hi].
      * rewrite lookup_insert_eq. intros [= <-]. exact (E4 e x Hx).
      * rewrite Hins by done. auto.
    + intros i y. destruct (decide (i = e)) as [->|Hi].
      * rewrite lookup_insert_eq. intros [= <-]. change (exp_use x') with (exp_use x - 1). lia.
      * rewrite Hins by done. auto.
    + intros i Hi. rewrite dom_insert. apply elem_of_union_r. apply E6. multiset_solver.
    + intros p c Hc. rewrite (E7 _ _ Hc). do 2 f_equal. apply set_eq. intros i.
      rewrite !elem_of_expected_of. simpl. destruct (decide (i = e)) as [->|Hi].
      * by rewrite lookup_insert_eq, Hx.
      * by rewrite Hins.
    + apply (no_clash_sub s); [done| |done]. intros i y Hi Hy. simpl in Hy.
      destruct (decide (i = e)) as [->|Hne]; [|rewrite Hins in Hy by done; by exists y].
      rewrite lookup_insert_eq in Hy. injection Hy as <-. by exists x.
Qed.

Lemma drop_expectation_inv D ehold e s :
  exp_wf D ehold s → e ∈ ip_conntrack_expect_list s →
  exp_wf D ehold (drop_expectation e s) ∧ same_lists s (drop_expectation e s) ∧
  ip_conntrack_expect_list (drop_expectation e s) =
    filter (λ i, i ≠ e) (ip_conntrack_expect_list s) ∧
  (∀ i, i ≠ e → exps (drop_expectation e s) !! i = exps s !! i).
Proof.
  intros HE Hin.
  destruct (unlink_expect_inv D ehold e s HE Hin) as (Hwas & HE' & HS & HL & HX & _).
  unfold drop_expectation, unlinked in *. destruct (exp_del_timer e s) as [was s1]. simpl in *. subst was.
  destruct (expect_put_inv D ehold e _ HE') as (HE'' & HS' & _ & HL' & HX').
  split_and!; [done|by transitivity (ip_ct_unlink_expect e s1)|by rewrite HL', HL|].
  intros i Hi. by rewrite HX', HX.
Qed.

Lemma drop_expectations_inv D ehold sel l : ∀ s,
  exp_wf D ehold s → NoDup l → (∀ e, e ∈ l → e ∈ ip_conntrack_expect_list s) →
  exp_wf D ehold (drop_expectations sel l s) ∧ same_lists s (drop_expectations sel l s) ∧
  (∀ e, e ∈ ip_conntrack_expect_list (drop_expectations sel l s) →
     e ∈ ip_conntrack_expect_list s ∧
     exps (drop_expectations sel l s) !! e = exps s !! e ∧
     (e ∈ l → (sel <$> exps s !! e) ≠ Some true)).
Proof.
  induction l as [|i l IH]; intros s HE Hnd Hsub; simpl.
  { split_and!; [done|done|]. intros e He. by split_and!; [..|intros []%elem_of_nil]. }
  apply NoDup_cons in Hnd as [Hi Hnd].
  destruct (exps s !! i) as [x|] eqn:Hx; [destruct (sel x) eqn:Hsel|].
  - destruct (drop_expectation_inv D ehold i s HE) as (HE' & HS & HL & HX); [apply Hsub; set_solver|].
    destruct (IH (drop_expectation i s)) as (HE'' & HS' & HR); [done..| |].
    { intros e He. rewrite HL, list_elem_of_filter. split; [by intros ->|]. apply Hsub. set_solver. }
    split_and!; [done|by transitivity (drop_expectation i s)|]. intros e He.
    destruct (HR e He) as (Hin & Hex & Hs). rewrite HL, list_elem_of_filter in Hin.
    destruct Hin as [Hne Hin]. rewrite HX in Hex, Hs by done. split_and!; [done..|].
    intros [->|?]%elem_of_cons; auto.
  - destruct (IH s HE Hnd) as (HE' & HS & HR); [intros; apply Hsub; set_solver|].
    split_and!; [done..|]. intros e He. destruct (HR e He) as (Hin & Hex & Hs).
    split_and!; [done..|]. intros [->|?]%elem_of_cons; [rewrite Hx; simpl; congruence|auto].
  - destruct (IH s HE Hnd) as (HE' & HS & HR); [intros; apply Hsub; set_solver|].
    split_and!; [done..|]. intros e He. destruct (HR e He) as (Hin & Hex & Hs).
    split_and!; [done..|]. intros [->|?]%elem_of_cons; [by rewrite Hx|auto].
Qed.

(** After [ip_ct_remove_expectations] no listed expectation has [p] as master. *)
Lemma remove_expectations_inv D ehold p s :
  exp_wf D ehold s → is_Some (cts s !! p) →
  exp_wf D ehold (ip_ct_remove_expectations p s) ∧
  same_lists s (ip_ct_remove_expectations p s) ∧
  (∀ e, e ∈ ip_conntrack_expect_list (ip_ct_remove_expectations p s) →
     exp_master_of (ip_ct_remove_expectations p s) e ≠ Some p).
Proof.
  intros HE [c Hc]. unfold ip_ct_remove_expectations. rewrite Hc.
  destruct (Z.eqb_spec (expecting c) 0) as [Hz|Hz].
  - split_and!; [done|done|]. intros e He Hm. rewrite (ew_count _ _ _ HE _ _ Hc) in Hz.
    assert (expected_of s p = ∅) as Hemp by (apply leibniz_equiv, size_empty_iff; lia).
    assert (e ∈ expected_of s p) as Hb by (by apply elem_of_expected_of). rewrite Hemp in Hb. set_solver.
  - destruct (drop_expectations_inv D ehold (λ x, bool_decide (exp_master x = p))
                (ip_conntrack_expect_list s) s HE) as (HE' & HS & HR); [apply HE|done|].
    split_and!; [done..|]. intros e He Hm. destruct (HR e He) as (Hin & Hex & Hs).
    unfold exp_master_of in Hm. rewrite Hex in Hm. specialize (Hs Hin).
    destruct (exps s !! e) as [x|]; [|done]. simpl in *. injection Hm as Hm.
    apply Hs. by rewrite bool_decide_true.
Qed.

(** ** References *)
Lemma use_upd_frame s p k :
  cts_frame s (upd_ct p (λ c, c <| ct_use := ct_use c + k |>) s).
Proof. apply cts_frame_upd. intros c _. by split. Qed.

(** Taking ([k = 1]) or dropping ([k = -1]) a reference to [p]. *)
Lemma own_ref D N live live' p k f s :
  own_wf D N live s → (∀ c, f c = c <| ct_use := ct_use c + k |>) →
  (∀ q, Z.of_nat (multiplicity q live') =
        Z.of_nat (multiplicity q live) + (if decide (q = p) then k else 0)) →
  (∀ q, q ∈ live' → q ∈ dom (cts s) ∧ q ∉ D) →
  own_wf D N live' (upd_ct p f s).
Proof.
  intros HO Hf Hm Hl. apply (own_frame D N live live' s); try done.
  - apply cts_frame_upd. intros c _. rewrite Hf. by split.
  - intros q c c' Hc. simpl. rewrite Hm. destruct (decide (q = p)) as [->|Hq].
    + rewrite lookup_alter_eq, Hc. intros [= <-] _. rewrite Hf. simpl. lia.
    + rewrite lookup_alter_ne by done. intros Hc' _. simplify_eq. lia.
Qed.

Lemma mult_add (q p : positive) (live : gmultiset positive) :
  Z.of_nat (multiplicity q (live ⊎ {[+ p +]})) =
  Z.of_nat (multiplicity q live) + (if decide (q = p) then 1 else 0).
Proof.
  rewrite multiplicity_disj_union. destruct (decide (q = p)) as [->|Hq].
  - rewrite multiplicity_singleton_eq. lia.
  - rewrite multiplicity_singleton_ne by done. lia.
Qed.

Lemma own_get D N live p s :
  own_wf D N live s → p ∈ dom (cts s) → p ∉ D →
  own_wf D N (live ⊎ {[+ p +]}) (nf_conntrack_get p s).
Proof.
  intros HO Hp HD. apply (own_ref _ _ live _ _ 1); try done.
  - intros q. by rewrite mult_add.
  - intros q Hq. apply gmultiset_elem_of_disj_union in Hq as [Hq| ->%gmultiset_elem_of_singleton];
      [by apply HO|done].
Qed.

Lemma own_drop D N live p s :
  own_wf D N (live ⊎ {[+ p +]}) s →
  own_wf D N live (upd_ct p (λ c, c <| ct_use := ct_use c - 1 |>) s).
Proof.
  intros HO. apply (own_ref _ _ (live ⊎ {[+ p +]}) _ _ (-1)); try done.
  - intros q. rewrite mult_add. destruct (decide (q = p)); lia.
  - intros q Hq. apply HO. multiset_solver.
Qed.

Definition mref (c : ip_conntrack) : gmultiset positive :=
  match ct_master c with Some m => {[+ m +]} | None => ∅ end.

Lemma mult_mref q c :
  multiplicity q (mref c) = (if decide (ct_master c = Some q) then 1 else 0)%nat.
Proof.
  unfold mref. destruct (ct_master c) as [m|].
  - destruct (decide (Some m = Some q)) as [[= ->]|Hq].
    + by rewrite multiplicity_singleton_eq.
    + rewrite multiplicity_singleton_ne by congruence. done.
  - by rewrite multiplicity_empty.
Qed.

Section Condemn.
Context (D N : gset positive) (live : gmultiset positive) (p : positive)
  (c : ip_conntrack) (s s' : ct_state).
Context (HO : own_wf D N live s) (Hp : cts s !! p = Some c) (H0 : ct_use c = 0) (HD : p ∉ D).

Lemma condemned_refs :
  ¬ tabled s (p, IP_CT_DIR_ORIGINAL) ∧ p ∉ live ∧ children s D p = ∅.
Proof.
  pose proof (ow_use _ _ _ _ HO p c Hp HD) as Hu. rewrite H0 in Hu. unfold table_ref in Hu.
  destruct (decide (tabled _ _)); [lia|]. split_and!; [done| |].
  - intros Hl. pose proof (proj1 (elem_of_multiplicity p live) Hl). lia.
  - apply leibniz_equiv, size_empty_iff. lia.
Qed.

Context (HF : cts_frame s s') (HU : use_eq s s') (Hch : ∀ h, chain s' h = chain s h)
  (Hcount : ip_conntrack_count s' = ip_conntrack_count s)
  (Hnd : NoDup (unconfirmed s'))
  (Hunc : ∀ q, q ∈ unconfirmed s' ↔ q ∈ unconfirmed s ∧ q ≠ p)
  (Hby : ∀ h q, q ∈ default [] (bysource s' !! h) → q ∈ default [] (bysource s !! h) ∧ q ≠ p).

Lemma condemned_children q :
  Z.of_nat (size (children s D q)) =
  Z.of_nat (size (children s' ({[p]} ∪ D) q)) + Z.of_nat (multiplicity q (mref c)).
Proof.
  rewrite (frame_children HF), mult_mref.
  assert (children s ({[p]} ∪ D) q = children s D q ∖ {[p]}) as ->.
  { apply set_eq. intros r. rewrite elem_of_difference, !elem_of_children. set_solver. }
  destruct (decide (ct_master c = Some q)) as [Hm|Hm].
  - assert (p ∈ children s D q) as Hin by (apply elem_of_children; eauto).
    rewrite size_difference, size_singleton by set_solver.
    assert (size (children s D q) ≠ 0)%nat; [|lia].
    rewrite size_non_empty_iff. set_solver.
  - replace (children s D q ∖ {[p]}) with (children s D q); [lia|].
    apply set_eq. intros r. rewrite elem_of_difference, elem_of_singleton.
    split; [|tauto]. intros Hr. split; [done|]. intros ->.
    apply elem_of_children in Hr as (_ & c' & Hc' & ?). congruence.
Qed.

Lemma condemn_own : own_wf ({[p]} ∪ D) (N ∖ {[p]}) (live ⊎ mref c) s'.
Proof.
  destruct condemned_refs as (Hnt & Hnl & Hnc).
  pose proof (frame_dom HF) as Hdom. destruct HO as [O1 O2 O3 O4 O5 O6 O7 O8 O9 O11].
  assert (∀ q c' m, cts s !! q = Some c' → q ∉ D → ct_master c' = Some m →
            m ∈ dom (cts s) ∧ m ∉ {[p]} ∪ D) as Hmast.
  { intros q c' m Hq HqD Hm. destruct (O8 _ _ _ Hq HqD Hm) as [Hd Hn]. split; [done|].
    rewrite elem_of_union, elem_of_singleton. intros [->|?]; [|done].
    assert (q ∈ children s D p) as Hin by (apply elem_of_children; eauto). rewrite Hnc in Hin. set_solver. }
  split.
  - intros q c' Hq. destruct (frame_bwd HF _ _ Hq) as (c0 & Hc0 & Hf).
    rewrite (cf_orig _ _ Hf), (cf_reply _ _ Hf). eauto.
  - done.
  - intros q [Hq _]%elem_of_difference. rewrite Hunc. intros [? _]. by apply (O3 q).
  - intros q. rewrite Hunc, elem_of_difference, elem_of_singleton.
    trans ((q ∈ unconfirmed s ∨ q ∈ N) ∧ q ≠ p); [tauto|]. rewrite O4. split.
    + intros ((c0 & Hc0 & Hcf & Hn) & Hne). destruct (frame_fwd HF _ _ Hc0) as (c' & Hc' & Hf).
      exists c'. rewrite (cf_confirmed _ _ Hf). set_solver.
    + intros (c' & Hc' & Hcf & Hn). destruct (frame_bwd HF _ _ Hc') as (c0 & Hc0 & Hf).
      split; [|set_solver]. exists c0. rewrite <- (cf_confirmed _ _ Hf). set_solver.
  - by rewrite Hcount, O5, <- !size_dom, Hdom.
  - rewrite Hdom. apply union_subseteq. split; [|done]. apply singleton_subseteq_l.
    apply elem_of_dom. by exists c.
  - intros q Hq. rewrite Hdom. apply gmultiset_elem_of_disj_union in Hq as [Hq|Hq].
    + destruct (O7 q Hq). split; [done|]. set_unfold. intros [->|?]; done.
    + unfold mref in Hq. destruct (ct_master c) as [m|] eqn:Em; [|multiset_solver].
      apply gmultiset_elem_of_singleton in Hq as ->. eauto.
  - intros q c' m Hq HqD Hm. rewrite Hdom. destruct (frame_bwd HF _ _ Hq) as (c0 & Hc0 & Hf).
    apply (Hmast q c0); [done|set_solver|]. by rewrite <- (cf_master _ _ Hf).
  - intros q c' Hq HqD. destruct (frame_bwd HF _ _ Hq) as (c0 & Hc0 & Hf).
    rewrite (HU _ _ _ Hc0 Hq), (O9 q c0), (table_ref_hash s s') by (done || set_solver).
    rewrite multiplicity_disj_union, condemned_children. lia.
  - intros h q Hq. destruct (Hby h q Hq) as [Hq' Hne]. destruct (O11 h q Hq') as (c0 & Hc0 & Hn & HqD).
    destruct (frame_fwd HF _ _ Hc0) as (c' & Hc' & Hf). exists c'.
    split_and!; [done|by apply (cf_nat _ _ Hf)|set_solver].
Qed.
End Condemn.

(** Returning a condemned conntrack to the slab. *)
Lemma free_inv env D N live ehold p s :
  Inv env ({[p]} ∪ D) N live ehold s → p ∉ D → Inv env D N live ehold (ip_conntrack_free p s).
Proof.
  intros [HT HO HA HE] HD. set (s' := ip_conntrack_free p s).
  assert (∀ q, q ≠ p → cts s' !! q = cts s !! q) as Hne
    by (intros q Hq; simpl; by rewrite lookup_delete_ne).
  assert (cts s' !! p = None) as Hpn by (simpl; by rewrite lookup_delete_eq).
  assert (∀ q c, cts s' !! q = Some c → cts s !! q = Some c ∧ q ≠ p) as Hback.
  { intros q c Hq. destruct (decide (q = p)) as [->|Hqp]; [by rewrite Hpn in Hq|].
    by rewrite Hne in Hq. }
  assert (dom (cts s') = dom (cts s) ∖ {[p]}) as Hdom by (simpl; by rewrite dom_delete_L).
  split.
  - destruct HT as [T1 T2 T3 T4 T5]. split; try done.
    + intros h n Hn. destruct (T1 h n Hn) as (c & Hc & ? & ? & HnD).
      exists c. rewrite Hne by set_solver. set_solver.
    + assert (∀ n, tabled s n → node_tuple s' n = node_tuple s n) as Hnt.
      { intros n [h Hn]. destruct (T1 h n Hn) as (c & Hc & ? & ? & HnD).
        unfold node_tuple. rewrite Hne by set_solver. done. }
      intros n n' t t' Hn Hn'. rewrite !Hnt by done. by apply T4.
    + intros q c [Hq _]%Hback. by apply T5.
  - destruct HO as [O1 O2 O3 O4 O5 O6 O7 O8 O9 O11].
    assert (p ∈ dom (cts s)) as Hpd by set_solver.
    split; try done.
    + intros q c [Hq _]%Hback. eauto.
    + intros q. change (unconfirmed s') with (unconfirmed s). rewrite O4. split.
      * intros (c & Hc & Hcf & Hn). exists c. rewrite Hne by set_solver. set_solver.
      * intros (c & [Hc Hqp]%Hback & Hcf & Hn). exists c. set_solver.
    + simpl. rewrite O5, map_size_delete. apply elem_of_dom in Hpd as [c Hc]. rewrite Hc.
      assert (size (cts s) ≠ 0)%nat; [|lia]. intros Hz%map_size_empty_inv. by rewrite Hz in Hc.
    + set_solver.
    + intros q Hq. destruct (O7 q Hq). rewrite Hdom. set_solver.
    + intros q c m [Hq Hqp]%Hback HqD Hm. destruct (O8 q c m Hq) as [? ?]; [set_solver|done|].
      rewrite Hdom. set_solver.
    + intros q c [Hq Hqp]%Hback HqD. rewrite (O9 q c Hq) by set_solver.
      replace (children s' D q) with (children s ({[p]} ∪ D) q); [by rewrite (table_ref_hash s s')|].
      apply set_eq. intros r. rewrite !elem_of_children. split.
      * intros (HrD & c' & Hr & ?). split; [set_solver|]. exists c'. by rewrite Hne by set_solver.
      * intros (HrD & c' & [Hr Hrp]%Hback & ?). split; [set_solver|]. by exists c'.
    + intros h q Hq. destruct (O11 h q Hq) as (c & Hc & Hn & HqD). exists c.
      rewrite Hne by set_solver. set_solver.
  - intros q c [Hq Hqp]%Hback HqD. apply (HA q c Hq). set_solver.
  - destruct HE as [E1 E2 E3 E4 E5 E6 E7 E8]. split; try done.
    + intros e He. destruct (E3 e He) as (x & Hx & Hm & HmD). exists x. rewrite Hdom. set_solver.
    + intros q c [Hq _]%Hback. by apply E7.
Qed.

(** [list_del] on the chains. *)
Lemma chain_list_del n s h : chain (list_del_node n s) h = filter (λ m, m ≠ n) (chain s h).
Proof.
  unfold chain, list_del_node. destruct n as [p []]; simpl; rewrite lookup_fmap;
    by destruct (ip_conntrack_hash s !! h).
Qed.
Lemma filter_id {A} (P : A → Prop) `{∀ x, Decision (P x)} (l : list A) :
  (∀ x, x ∈ l → P x) → filter P l = l.
Proof.
  induction l as [|x l IH]; intros Hl; [done|]. rewrite filter_cons_True by (apply Hl; set_solver).
  f_equal. apply IH. set_solver.
Qed.
Lemma chain_list_del_id n s : ¬ tabled s n → ∀ h, chain (list_del_node n s) h = chain s h.
Proof.
  intros Hn h. rewrite chain_list_del. apply filter_id. intros m Hm ->. apply Hn. by exists h.
Qed.

(** [destroy_conntrack] up to the [put] of the master. *)
Definition destroy_prefix (p : positive) (ct : ip_conntrack) (s : ct_state) : ct_state :=
  let s := upd_ct p (set_bit IPS_DYING_BIT) s in
  let s := ip_nat_cleanup_conntrack p s in
  let s := ip_ct_remove_expectations p s in
  if negb (is_confirmed ct) then list_del_node (p, IP_CT_DIR_ORIGINAL) s else s.

Lemma destroy_split put p ct s :
  cts s !! p = Some ct →
  destroy_conntrack put p s =
  ip_conntrack_free p (match ct_master ct with
                       | Some m => put m (destroy_prefix p ct s)
                       | None => destroy_prefix p ct s
                       end).
Proof. intros H. unfold destroy_conntrack. by rewrite H. Qed.

Lemma status_set_bit b c : status (set_bit b c) = Z.setbit (status c) b.
Proof. done. Qed.
Lemma set_bit_frame b c :
  0 <= b → b ≠ IPS_CONFIRMED_BIT → ct_frame c (set_bit b c).
Proof.
  intros Hb Hc. split; try done.
  - unfold is_confirmed, test_bit. rewrite status_set_bit. by apply Z.setbit_neq.
  - unfold flag. rewrite status_set_bit. intros H. apply negb_true_iff, Z.eqb_neq in H.
    apply negb_true_iff, Z.eqb_neq. intros Hz. apply H. apply Z.bits_inj_0. intros n.
    assert (Z.testbit (Z.land (Z.setbit (status c) b) IPS_NAT_DONE_MASK) n = false) as Hn
      by (by rewrite Hz, Z.bits_0).
    rewrite Z.land_spec, Z.setbit_eqb in Hn by done. rewrite Z.land_spec.
    destruct (Z.testbit (status c) n); [|done]. rewrite orb_true_r in Hn. done.
Qed.

Lemma nat_cleanup_spec p s c :
  cts s !! p = Some c →
  let s' := ip_nat_cleanup_conntrack p s in
  cts s' = cts s ∧ ip_conntrack_hash s' = ip_conntrack_hash s ∧ unconfirmed s' = unconfirmed s ∧
  ip_conntrack_count s' = ip_conntrack_count s ∧ exps s' = exps s ∧
  ip_conntrack_expect_list s' = ip_conntrack_expect_list s ∧
  (flag (status c) IPS_NAT_DONE_MASK = false → bysource s' = bysource s) ∧
  (∀ h q, q ∈ default [] (bysource s' !! h) →
     q ∈ default [] (bysource s !! h) ∧ (flag (status c) IPS_NAT_DONE_MASK = true → q ≠ p)).
Proof.
  intros Hc. unfold ip_nat_cleanup_conntrack. rewrite Hc.
  destruct (flag _ _); simpl; split_and!; try done. intros h q. rewrite lookup_fmap.
  destruct (bysource s !! h); simpl; [|by intros ?%elem_of_nil].
  rewrite list_elem_of_filter. naive_solver.
Qed.

Lemma exp_condemn D ehold p s :
  exp_wf D ehold s →
  (∀ e, e ∈ ip_conntrack_expect_list s → exp_master_of s e ≠ Some p) →
  exp_wf ({[p]} ∪ D) ehold s.
Proof.
  intros [E1 E2 E3 E4 E5 E6 E7 E8] Hm. split; try done. intros e He.
  destruct (E3 e He) as (x & Hx & Hd & HD). exists x. split_and!; [done..|].
  specialize (Hm e He). unfold exp_master_of in Hm. rewrite Hx in Hm. simpl in Hm.
  rewrite elem_of_union, elem_of_singleton. intros [?|?]; congruence.
Qed.

Lemma list_del_unconfirmed p s :
  NoDup (unconfirmed s) →
  NoDup (unconfirmed (list_del_node (p, IP_CT_DIR_ORIGINAL) s)) ∧
  ∀ q, q ∈ unconfirmed (list_del_node (p, IP_CT_DIR_ORIGINAL) s) ↔ q ∈ unconfirmed s ∧ q ≠ p.
Proof.
  intros Hnd. simpl. split; [by apply NoDup_filter|].
  intros q. rewrite list_elem_of_filter. tauto.
Qed.

(** A conntrack whose count has just reached 0 is taken out of every list; its
    reference to its master becomes one to drop. *)
Lemma destroy_prefix_inv env D N live ehold p c s :
  table_wf env D s → own_wf D N live s → alive ({[p]} ∪ D) s → exp_wf D ehold s →
  cts s !! p = Some c → ct_use c = 0 → p ∉ D →
  Inv env ({[p]} ∪ D) (N ∖ {[p]}) (live ⊎ mref c) ehold (destroy_prefix p c s) ∧
  dom (cts (destroy_prefix p c s)) = dom (cts s) ∧
  ∀ h, chain (destroy_prefix p c s) h = chain s h.
Proof.
  intros HT HO HA HE Hc H0 HD.
  destruct (condemned_refs D N live p c s HO Hc H0 HD) as (Hnt & Hnl & Hnc).
  set (s1 := upd_ct p (set_bit IPS_DYING_BIT) s).
  assert (same_lists s s1) as HS1.
  { apply same_lists_upd. intros c0 _. split; [by apply set_bit_frame|done]. }
  assert (cts s1 !! p = Some (set_bit IPS_DYING_BIT c)) as Hc1
    by (simpl; by rewrite lookup_alter_eq, Hc).
  destruct (nat_cleanup_spec p s1 _ Hc1) as (Hcts2 & Hh2 & Hu2 & Hn2 & He2 & Hl2 & Hb2 & Hby2).
  set (s2 := ip_nat_cleanup_conntrack p s1) in *.
  assert (exp_wf D ehold s2) as HE2.
  { apply (exp_frame D ehold s1); [done|done|by rewrite Hcts2| |].
    - rewrite Hcts2. eauto.
    - by apply exp_upd. }
  destruct (remove_expectations_inv D ehold p s2 HE2) as (HE3 & HS3 & Hm3); [by rewrite Hcts2, Hc1|].
  set (s3 := ip_ct_remove_expectations p s2) in *.
  assert (cts_frame s s3) as HF3.
  { apply (cts_frame_trans _ s1); [apply HS1|]. apply (cts_frame_trans _ s2); [by apply cts_frame_refl|].
    apply HS3. }
  assert (use_eq s s3) as HU3.
  { apply (use_eq_trans _ s1); [apply HS1..|].
    apply (use_eq_trans _ s2); [by apply cts_frame_refl|by apply use_eq_refl|apply HS3]. }
  assert (∀ h, chain s3 h = chain s h) as Hch3.
  { intros h. rewrite (sl_hash _ _ HS3). unfold chain. by rewrite Hh2. }
  assert (unconfirmed s3 = unconfirmed s) as Hun3 by (by rewrite (sl_unconf _ _ HS3), Hu2).
  assert (destroy_prefix p c s = if negb (is_confirmed c) then
            list_del_node (p, IP_CT_DIR_ORIGINAL) s3 else s3) as -> by done.
  set (s4 := if negb (is_confirmed c) then _ else _).
  assert (cts s4 = cts s3) as Hc4 by (unfold s4; by destruct (negb _)).
  assert (exps s4 = exps s3 ∧ ip_conntrack_expect_list s4 = ip_conntrack_expect_list s3) as [Hx4 Hl4]
    by (unfold s4; by destruct (negb _)).
  assert (cts_frame s s4) as HF4 by (apply (cts_frame_trans _ s3); [done|by apply cts_frame_refl]).
  assert (∀ h, chain s4 h = chain s h) as Hch4.
  { intros h. unfold s4. destruct (negb _); [|done]. rewrite chain_list_del_id; [done|].
    by rewrite (tabled_hash s s3). }
  split; [|split; [by rewrite (frame_dom HF4)|done]]. split.
  - assert (table_wf env D s4) as [T1 T2 T3 T4 T5] by (by apply (table_frame env D s)).
    split; try done. intros h n Hn. destruct (T1 h n Hn) as (c0 & ? & ? & ? & HnD).
    exists c0. split_and!; try done. rewrite elem_of_union, elem_of_singleton. intros [Hnp|?]; [|done].
    apply Hnt. rewrite <- (tabled_hash s s4) by done. destruct n as [q []]; simpl in *; subst q;
      [|apply T3]; by exists h.
  - apply (condemn_own D N live p c s); try done.
    + intros q a b Ha Hb. rewrite Hc4 in Hb. by eapply HU3.
    + unfold s4. destruct (negb _); simpl; by rewrite (sl_count _ _ HS3), Hn2.
    + unfold s4. destruct (negb _); [apply list_del_unconfirmed|]; rewrite Hun3; apply HO.
    + intros q. unfold s4. destruct (is_confirmed c) eqn:Ecf; simpl.
      * rewrite Hun3. split; [|tauto]. intros Hq. split; [done|]. intros ->.
        destruct (proj1 (ow_unconf _ _ _ _ HO p) (or_introl Hq)) as (c0 & ? & ? & ?). congruence.
      * rewrite list_elem_of_filter, Hun3. simpl. tauto.
    + intros h q Hq.
      assert (bysource s4 = bysource s2) as Hb4
        by (unfold s4; destruct (negb _); simpl; apply (sl_bysource _ _ HS3)).
      rewrite Hb4 in Hq. destruct (Hby2 h q Hq) as [Hq1 Hnp].
      split; [done|]. intros ->.
      destruct (ow_bysource _ _ _ _ HO h p Hq1) as (c0 & Hc0 & Hfl & _). simplify_eq.
      apply Hnp; [|done]. by apply (cf_nat _ _ (set_bit_frame IPS_DYING_BIT c ltac:(done) ltac:(done))).
  - intros q a Ha HqD. rewrite Hc4 in Ha. destruct (frame_bwd HF3 _ _ Ha) as (b & Hb & _).
    rewrite (HU3 _ _ _ Hb Ha). by eapply HA.
  - apply (exp_frame _ _ s3); [done..|by rewrite Hc4| |]; [rewrite Hc4; eauto|].
    by apply exp_condemn.
Qed.

(** Dropping one reference, with everything it entails.  The fuel of [put_loop]
    is enough as long as it exceeds the number of conntracks not yet condemned. *)
Lemma put_loop_inv env fuel : ∀ D N live ehold p s,
  Inv env D N (live ⊎ {[+ p +]}) ehold s →
  (size (dom (cts s)) - size D < fuel)%nat →
  ∃ N', N' ⊆ N ∧ Inv env D N' live ehold (put_loop fuel p s) ∧
        (∀ q, q ∈ N → q ∈ live → q ∈ N') ∧
        ∀ h, chain (put_loop fuel p s) h = chain s h.
Proof.
  induction fuel as [|fuel IH]; intros D N live ehold p s HI Hf; [lia|].
  destruct HI as [HT HO HA HE]. simpl.
  destruct (ow_live _ _ _ _ HO p) as [[c Hc]%elem_of_dom HpD]; [multiset_solver|].
  set (s1 := upd_ct p (λ c, c <| ct_use := ct_use c - 1 |>) s).
  assert (cts s1 !! p = Some (c <| ct_use := ct_use c - 1 |>)) as Hc1
    by (simpl; by rewrite lookup_alter_eq, Hc).
  change (match alter _ p (cts s) !! p with Some _ => _ | None => _ end) with
    (match cts s1 !! p with
     | Some ct => if ct_use ct =? 0 then destroy_conntrack (put_loop fuel) p s1 else s1
     | None => s1 end).
  rewrite Hc1. simpl ct_use.
  assert (cts_frame s s1) as HF1 by (apply cts_frame_upd; intros ? _; by split).
  assert (table_wf env D s1) as HT1 by (by apply (table_frame env D s)).
  assert (own_wf D N live s1) as HO1 by (by apply own_drop).
  assert (exp_wf D ehold s1) as HE1 by (by apply exp_upd).
  destruct (Z.eqb_spec (ct_use c - 1) 0) as [Hz|Hz].
  - set (c1 := c <| ct_use := ct_use c - 1 |>) in *.
    assert (alive ({[p]} ∪ D) s1) as HA1.
    { intros q a Ha HqD. simpl in Ha. rewrite lookup_alter_ne in Ha by set_solver.
      apply (HA q a Ha). set_solver. }
    destruct (destroy_prefix_inv env D N live ehold p c1 s1) as (HI2 & Hdom & Hch); [done..|].
    rewrite (destroy_split _ _ _ _ Hc1).
    assert (∀ q, q ∈ N → q ∈ live → q ∈ N ∖ {[p]}) as HN.
    { intros q HqN Hql. apply elem_of_difference. split; [done|]. intros ->%elem_of_singleton.
      by destruct (condemned_refs D N live p c1 s1) as (_ & ? & _). }
    unfold mref in HI2. destruct (ct_master c1) as [m|].
    + destruct (IH ({[p]} ∪ D) (N ∖ {[p]}) live ehold m (destroy_prefix p c1 s1)) as (N' & Hsub & HI3 & HN3 & Hch3).
      * done.
      * rewrite Hdom. rewrite (frame_dom HF1).
        assert (size ({[p]} ∪ D) = S (size D)) as -> by (rewrite size_union, size_singleton by set_solver; lia).
        assert (size D < size (dom (cts s)))%nat; [|lia].
        assert (size ({[p]} ∪ D) ≤ size (dom (cts s)))%nat as Hle.
        { apply subseteq_size. apply union_subseteq. split; [|apply HO].
          apply singleton_subseteq_l, elem_of_dom. by exists c. }
        rewrite size_union, size_singleton in Hle by set_solver. lia.
      * exists N'. split_and!; [set_solver|by apply free_inv|auto|].
        intros h. change (chain (ip_conntrack_free p ?a) h) with (chain a h). by rewrite Hch3, Hch.
    + exists (N ∖ {[p]}). split_and!; [set_solver| |done|exact Hch].
      apply free_inv; [|done]. replace live with (live ⊎ ∅) by multiset_solver. done.
  - exists N. split_and!; [done| |done|done]. split; try done.
    intros q a Ha HqD. destruct (decide (q = p)) as [->|Hq].
    + rewrite Hc1 in Ha. injection Ha as <-. simpl. specialize (HA p c Hc HpD). lia.
    + simpl in Ha. rewrite lookup_alter_ne in Ha by done. by apply (HA q a).
Qed.
