(* ===== verification/ConntrackFacts.v ===== *)
(** * Operations of the connection tracker preserve its invariant

    Every operation of [Conntrack] takes a consistent state to a consistent
    state ([ConntrackInv.Inv]); lookup is lookup in an abstract map; confirmation,
    classification, eviction and expectations do what they should. *)
From S2P Require Import Prelude Packet CtBase TcpTrack CtProtos Conntrack ConntrackInv.
From stdpp Require Import gmultiset fin_maps fin_sets.
#[local] Open Scope Z_scope.

(** ** Dropping a reference *)
Lemma put_inv env live ehold p s :
  Inv env ∅ ∅ (live ⊎ {[+ p +]}) ehold s → Inv env ∅ ∅ live ehold (nf_conntrack_put p s).
Proof.
  intros HI. unfold nf_conntrack_put.
  destruct (put_loop_inv env (S (size (cts s))) ∅ ∅ live ehold p s HI) as (N' & HN & HI' & _ & _).
  - rewrite size_empty, size_dom. lia.
  - replace N' with (∅ : gset positive) in HI' by set_solver. done.
Qed.

Lemma put_chain env live ehold p s h :
  Inv env ∅ ∅ (live ⊎ {[+ p +]}) ehold s → chain (nf_conntrack_put p s) h = chain s h.
Proof.
  intros HI. unfold nf_conntrack_put.
  destruct (put_loop_inv env (S (size (cts s))) ∅ ∅ live ehold p s HI) as (N' & _ & _ & _ & Hc); [|done].
  rewrite size_empty, size_dom. lia.
Qed.

Lemma get_inv env D N live ehold p s :
  Inv env D N live ehold s → p ∈ dom (cts s) → p ∉ D →
  Inv env D N (live ⊎ {[+ p +]}) ehold (nf_conntrack_get p s).
Proof.
  intros [HT HO HA HE] Hp HD. split.
  - apply (table_frame _ _ s); try done. apply use_upd_frame.
  - by apply own_get.
  - intros q c Hq HqD. simpl in Hq. destruct (decide (q = p)) as [->|Hne].
    + rewrite lookup_alter_eq in Hq. destruct (cts s !! p) as [c0|] eqn:E; [|done].
      injection Hq as <-. simpl. specialize (HA p c0 E HqD). lia.
    + rewrite lookup_alter_ne in Hq by done. by apply (HA q c).
  - by apply exp_upd.
Qed.

(** ** Leaving the hash table *)
Definition untable (p : positive) (s : ct_state) : ct_state :=
  list_del_node (p, IP_CT_DIR_REPLY) (list_del_node (p, IP_CT_DIR_ORIGINAL) s).

Lemma elem_of_untable p s h n : n ∈ chain (untable p s) h ↔ n ∈ chain s h ∧ n.1 ≠ p.
Proof.
  unfold untable. rewrite !chain_list_del, !list_elem_of_filter. destruct n as [q []]; simpl.
  all: split; [intros (H1 & H2 & H3) | intros (H1 & H2)]; split_and!; try done; try congruence.
Qed.
Lemma tabled_untable p s n : tabled (untable p s) n ↔ tabled s n ∧ n.1 ≠ p.
Proof. unfold tabled. setoid_rewrite elem_of_untable. naive_solver. Qed.

Lemma tabled_confirmed env D s n :
  table_wf env D s → tabled s n →
  ∃ c, cts s !! n.1 = Some c ∧ is_confirmed c = true ∧ n.1 ∉ D.
Proof. intros HT [h Hn]. destruct (tw_chain _ _ _ HT h n Hn) as (c & ? & ? & _ & ?). eauto. Qed.

Lemma untable_inv env D N live ehold p s :
  Inv env D N live ehold s → tabled s (p, IP_CT_DIR_ORIGINAL) →
  (∀ c, cts s !! p = Some c → pending (timeout c) = false) →
  Inv env D N (live ⊎ {[+ p +]}) ehold (untable p s).
Proof.
  intros [HT HO HA HE] Ht Hpe.
  destruct (tabled_confirmed _ _ _ _ HT Ht) as (c & Hc & Hcf & HD). simpl in Hc, HD.
  assert (unconfirmed (untable p s) = unconfirmed s) as Hun.
  { simpl. apply filter_id. intros q Hq ->.
    destruct (proj1 (ow_unconf _ _ _ _ HO p) (or_introl Hq)) as (c0 & ? & ? & _). congruence. }
  split.
  - destruct HT as [T1 T2 T3 T4 T5]. split.
    + intros h n [Hn _]%elem_of_untable. by apply T1.
    + intros h. unfold untable. rewrite !chain_list_del. by do 2 apply NoDup_filter.
    + intros q. rewrite !tabled_untable. simpl. by rewrite T3.
    + intros n n' t t' [Hn _]%tabled_untable [Hn' _]%tabled_untable. by apply T4.
    + intros q a Ha Hq. rewrite tabled_untable. simpl in *. split; [by apply (T5 q a)|].
      intros ->. rewrite (Hpe a Ha) in Hq. done.
  - destruct HO as [O1 O2 O3 O4 O5 O6 O7 O8 O9 O11]. split; rewrite ?Hun; try done.
    + intros q Hq. apply gmultiset_elem_of_disj_union in Hq as [Hq| ->%gmultiset_elem_of_singleton].
      * by apply O7.
      * split; [|done]. apply elem_of_dom. by exists c.
    + intros q a Ha HqD. change (cts (untable p s)) with (cts s) in Ha. rewrite (O9 q a Ha HqD), mult_add.
      change (children (untable p s) D q) with (children s D q). unfold table_ref.
      destruct (decide (tabled s _)) as [Hq|Hq], (decide (tabled (untable p s) _)) as [Hq'|Hq'],
        (decide (q = p)) as [->|Hne]; rewrite tabled_untable in Hq'; simpl in Hq'; try lia; tauto.
  - done.
  - by apply (exp_frame _ _ s); try done; eauto.
Qed.

Lemma death_inv env live ehold p s :
  Inv env ∅ ∅ live ehold s → tabled s (p, IP_CT_DIR_ORIGINAL) →
  (∀ c, cts s !! p = Some c → pending (timeout c) = false) →
  Inv env ∅ ∅ live ehold (death_by_timeout env p s).
Proof.
  intros HI Ht Hpe. unfold death_by_timeout.
  destruct (tabled_confirmed _ _ _ _ (inv_table _ _ _ _ _ _ HI) Ht) as (c & Hc & _ & HD). simpl in Hc.
  rewrite Hc. destruct (_ && _); [done|].
  apply put_inv. unfold clean_from_lists. fold (untable p s).
  pose proof (untable_inv _ _ _ _ _ _ _ HI Ht Hpe) as HI'.
  destruct (remove_expectations_inv ∅ ehold p (untable p s)) as (HE & HS & _);
    [apply HI'|by exists c|]. by apply (same_lists_Inv _ _ _ _ _ (untable p s)).
Qed.

Lemma del_timer_frame c : ct_frame c (del_timer c).2 ∧ ct_use (del_timer c).2 = ct_use c
  ∧ expecting (del_timer c).2 = expecting c.
Proof. by split_and!; [split|..]. Qed.

Lemma ct_del_timer_inv env D N live ehold p s :
  Inv env D N live ehold s →
  let s' := (ct_del_timer p s).2 in
  Inv env D N live ehold s' ∧ (∀ n, tabled s' n ↔ tabled s n) ∧
  (∀ c, cts s' !! p = Some c → pending (timeout c) = false) ∧
  ((ct_del_timer p s).1 = true → tabled s (p, IP_CT_DIR_ORIGINAL)).
Proof.
  intros HI. unfold ct_del_timer. cbn [fst snd]. split_and!.
  - apply Inv_upd; [|done]. intros c _. apply del_timer_frame.
  - done.
  - intros c. simpl. rewrite lookup_alter_eq. destruct (cts s !! p); [|done]. by intros [= <-].
  - intros Hp. destruct (cts s !! p) as [c|] eqn:E; [|done].
    by apply (tw_timer _ _ _ (inv_table _ _ _ _ _ _ HI) p c).
Qed.

(** The timer of a conntrack fires. *)
Lemma timer_fires_inv env live ehold p s :
  Inv env ∅ ∅ live ehold s → (ct_del_timer p s).1 = true →
  Inv env ∅ ∅ live ehold (death_by_timeout env p (ct_del_timer p s).2).
Proof.
  intros HI Hw. destruct (ct_del_timer_inv _ _ _ _ _ p s HI) as (HI' & Ht & Hp & Htab).
  apply death_inv; [done|by apply Ht, Htab|done].
Qed.

(** ** Eviction *)
Lemma chain_dom env D s h n : table_wf env D s → n ∈ chain s h → n.1 ∈ dom (cts s) ∧ n.1 ∉ D.
Proof.
  intros HT Hn. destruct (tw_chain _ _ _ HT h n Hn) as (c & ? & _ & _ & ?).
  split; [|done]. apply elem_of_dom. by exists c.
Qed.

Lemma early_drop_inv env live ehold h s :
  Inv env ∅ ∅ live ehold s → Inv env ∅ ∅ live ehold (early_drop env (chain s h) s).2.
Proof.
  intros HI. unfold early_drop. destruct (list_find _ _) as [[i n]|] eqn:E; [|done].
  apply list_find_Some in E as (Hn & _). apply list_elem_of_lookup_2 in Hn. rewrite elem_of_reverse in Hn.
  destruct (chain_dom _ _ _ _ _ (inv_table _ _ _ _ _ _ HI) Hn) as [Hd HD].
  pose proof (get_inv _ _ _ _ _ _ _ HI Hd HD) as HI1.
  set (s1 := nf_conntrack_get n.1 s) in *.
  destruct (ct_del_timer_inv _ _ _ _ _ n.1 s1 HI1) as (HI2 & _).
  pose proof (timer_fires_inv _ _ _ n.1 s1 HI1) as HI3.
  destruct (ct_del_timer n.1 s1) as [was s2] eqn:Et. simpl in *. apply put_inv.
  destruct was; auto.
Qed.

(** ** New conntracks *)

(** A freshly allocated conntrack: one reference, held by the packet, and not
    listed anywhere yet. *)
Lemma newborn_inv env live ehold p c s :
  Inv env ∅ ∅ live ehold s → cts s !! p = None →
  ct_use c = 1 → ct_master c = None → expecting c = 0 → is_confirmed c = false →
  pending (timeout c) = false →
  dst_dir (tuple_orig c) = IP_CT_DIR_ORIGINAL → dst_dir (tuple_reply c) = IP_CT_DIR_REPLY →
  Inv env ∅ {[p]} (live ⊎ {[+ p +]}) ehold
    (s <| cts := <[p := c]> (cts s) |> <| ip_conntrack_count := ip_conntrack_count s + 1 |>).
Proof.
  intros [HT HO HA HE] Hp Huse Hm Hx Hcf Hpe Hdo Hdr. set (s' := s <| cts := _ |> <| ip_conntrack_count := _ |>).
  assert (∀ q, q ≠ p → cts s' !! q = cts s !! q) as Hne by (intros q Hq; simpl; by rewrite lookup_insert_ne).
  assert (cts s' !! p = Some c) as Hp' by (simpl; by rewrite lookup_insert_eq).
  assert (dom (cts s') = {[p]} ∪ dom (cts s)) as Hdom by (simpl; by rewrite dom_insert_L).
  assert (p ∉ dom (cts s)) as Hpd by (by apply not_elem_of_dom).
  assert (∀ q a, cts s' !! q = Some a → (q = p ∧ a = c) ∨ (q ≠ p ∧ cts s !! q = Some a)) as Hback.
  { intros q a Hq. destruct (decide (q = p)) as [->|Hqp]; [left; split; congruence|right].
    by rewrite Hne in Hq. }
  assert (∀ n, tabled s n → n.1 ≠ p) as Hnt.
  { intros n Ht Heq. destruct (tabled_confirmed _ _ _ _ HT Ht) as (? & Hn & _). congruence. }
  split.
  - destruct HT as [T1 T2 T3 T4 T5]. split; try done.
    + intros h n Hn. destruct (T1 h n Hn) as (a & Ha & ?). exists a. by rewrite Hne by (apply Hnt; by exists h).
    + assert (∀ n, tabled s n → node_tuple s' n = node_tuple s n) as Hn
        by (intros n Ht; unfold node_tuple; by rewrite Hne by auto).
      intros n n' t t' H1 H2. rewrite !Hn by done. by apply T4.
    + intros q a [[-> ->]|[_ Ha]]%Hback; [congruence|]. by apply T5.
  - destruct HO as [O1 O2 O3 O4 O5 O6 O7 O8 O9 O11]. split; try done.
    + intros q a [[-> ->]|[_ Ha]]%Hback; [done|]. eauto.
    + intros q ->%elem_of_singleton Hu. destruct (proj1 (O4 p) (or_introl Hu)) as (? & ? & _). congruence.
    + intros q. change (unconfirmed s') with (unconfirmed s). rewrite elem_of_singleton.
      trans ((q ∈ unconfirmed s ∨ q ∈ (∅ : gset positive)) ∨ q = p); [set_solver|]. rewrite O4. split.
      * intros [(a & Ha & ? & _)| ->]; [|by exists c]. exists a. split_and!; [|done|set_solver].
        rewrite Hne; [done|]. intros ->. congruence.
      * intros (a & [[-> ->]|[Hqp Ha]]%Hback & ? & ?); [by right|left]. by exists a.
    + simpl. rewrite O5, map_size_insert_None by done. lia.
    + intros q Hq. rewrite Hdom. apply gmultiset_elem_of_disj_union in Hq as [Hq| ->%gmultiset_elem_of_singleton];
        [|set_solver]. destruct (O7 q Hq). set_solver.
    + intros q a m [[-> ->]|[_ Ha]]%Hback Hd Hm'; [congruence|]. destruct (O8 _ _ _ Ha Hd Hm').
      rewrite Hdom. set_solver.
    + assert (∀ q, children s' ∅ q = children s ∅ q) as Hch.
      { intros q. apply set_eq. intros r. rewrite !elem_of_children. split.
        - intros (? & a & [[-> ->]|[_ Ha]]%Hback & ?); [congruence|]. eauto.
        - intros (? & a & Ha & ?). split; [done|]. exists a. rewrite Hne; [done|]. intros ->. congruence. }
      intros q a Hq Hd. rewrite Hch, mult_add, (table_ref_hash s s') by done.
      apply Hback in Hq as [[-> ->]|[Hqp Ha]].
      * rewrite decide_True by done. unfold table_ref. destruct (decide _) as [Ht|Ht]; [by apply Hnt in Ht|].
        assert (children s ∅ p = ∅) as ->.
        { apply set_eq. intros r. split; [|set_solver]. intros (Hr & a & Ha & Hma)%elem_of_children.
          destruct (O8 _ _ _ Ha Hr Hma). set_solver. }
        assert (multiplicity p live = 0%nat) as ->.
        { destruct (multiplicity p live) eqn:E; [done|]. destruct (O7 p); [|set_solver].
          apply elem_of_multiplicity. lia. }
        rewrite size_empty. lia.
      * rewrite decide_False by done. rewrite (O9 q a Ha Hd). lia.
    + intros h q Hq. destruct (O11 h q Hq) as (a & Ha & ?). exists a. rewrite Hne; [done|]. intros ->. congruence.
  - intros q a [[-> ->]|[_ Ha]]%Hback Hd; [lia|]. by apply (HA q a).
  - destruct HE as [E1 E2 E3 E4 E5 E6 E7 E8]. split; try done.
    + intros e He. destruct (E3 e He) as (x & Hxe & Hmd & ?). exists x. rewrite Hdom. set_solver.
    + intros q a [[-> ->]|[_ Ha]]%Hback; [|by apply E7]. rewrite Hx.
      change (expected_of s' p) with (expected_of s p).
      assert (expected_of s p = ∅) as ->; [|by rewrite size_empty].
      apply set_eq. intros e. split; [|set_solver]. intros [He Hme]%elem_of_expected_of.
      destruct (E3 e He) as (x & Hxe & Hmd & _). rewrite Hxe in Hme. simpl in Hme. injection Hme as Hme.
      set_solver.
Qed.

Lemma list_new_inv env live ehold p s :
  Inv env ∅ {[p]} live ehold s →
  Inv env ∅ ∅ live ehold (s <| unconfirmed := p :: unconfirmed s |>).
Proof.
  intros [HT HO HA HE]. split.
  - by apply (table_frame _ _ s); [done|by apply cts_frame_refl|].
  - destruct HO as [O1 O2 O3 O4 O5 O6 O7 O8 O9 O11]. split; try done.
    + simpl. apply NoDup_cons. split; [|done]. apply O3. set_solver.
    + intros q. simpl. rewrite elem_of_cons, <- (O4 q). set_solver.
    + intros q a Ha Hd. rewrite (table_ref_hash s) by done. by apply O9.
  - done.
  - by apply (exp_frame _ _ s); try done; eauto.
Qed.

(** [find_expectation]: the expectation found is held by the caller. *)
Lemma find_expectation_inv D ehold tuple l : ∀ s,
  exp_wf D ehold s → (∀ e, e ∈ l → e ∈ ip_conntrack_expect_list s) →
  let r := find_expectation_loop l tuple s in
  same_lists s r.2 ∧
  match r.1 with
  | None => r.2 = s
  | Some e => exp_wf D (ehold ⊎ {[+ e +]}) r.2 ∧ e ∈ l ∧
      ∃ x, exps r.2 !! e = Some x ∧ exp_master x ∈ dom (cts s) ∧ exp_master x ∉ D ∧
           (is_confirmed <$> cts s !! exp_master x) = Some true ∧
           helper_tab r.2 = helper_tab s ∧ helpers r.2 = helpers s ∧
           (∀ q, q ≠ exp_master x → cts r.2 !! q = cts s !! q)
  end.
Proof.
  induction l as [|i l IH]; intros s HE Hsub; cbn [find_expectation_loop]; [done|].
  destruct (ew_listed _ _ _ HE i) as (x & Hx & Hmd & HmD); [apply Hsub; set_solver|].
  rewrite Hx. destruct (ip_ct_tuple_mask_cmp _ _ _ && _) eqn:Ec.
  2:{ destruct (IH s HE) as [HS HR]; [intros; apply Hsub; set_solver|]. split; [done|].
      destruct (find_expectation_loop l tuple s) as [[e|] s']; [|done]. simpl in *.
      destruct HR as (? & ? & ?). split_and!; [done|set_solver|done]. }
  apply andb_true_iff in Ec as [_ Ecf].
  assert ((is_confirmed <$> cts s !! exp_master x) = Some true) as Hcf
    by (destruct (cts s !! exp_master x); simpl; congruence).
  destruct (flag _ _).
  - simpl. split; [split; try done; [by apply cts_frame_refl|by apply use_eq_refl]|].
    split_and!; [|set_solver|]. 2:{ exists (x <| exp_use := exp_use x + 1 |>).
      by rewrite lookup_alter_eq, Hx. }
    destruct HE as [E1 E2 E3 E4 E5 E6 E7 E8]. split; simpl; try done.
    + intros e He. destruct (decide (e = i)) as [->|Hne].
      * rewrite lookup_alter_eq, Hx. simpl. by eexists.
      * rewrite lookup_alter_ne by done. auto.
    + intros e y. destruct (decide (e = i)) as [->|Hne].
      * rewrite lookup_alter_eq, Hx. intros [= <-]. exact (E4 i x Hx).
      * rewrite lookup_alter_ne by done. apply E4.
    + intros e y. rewrite mult_add. destruct (decide (e = i)) as [->|Hne].
      * rewrite lookup_alter_eq, Hx. intros [= <-]. simpl. destruct (E5 i x Hx). lia.
      * rewrite lookup_alter_ne by done. intros Hy. destruct (E5 e y Hy). lia.
    + intros e He. rewrite dom_alter. apply gmultiset_elem_of_disj_union in He as [He| ->%gmultiset_elem_of_singleton];
        [by apply E6|]. apply elem_of_dom. by exists x.
    + intros p c Hc. rewrite (E7 p c Hc). do 2 f_equal. apply set_eq. intros e.
      rewrite !elem_of_expected_of. simpl. destruct (decide (e = i)) as [->|Hne].
      * by rewrite lookup_alter_eq, Hx.
      * by rewrite lookup_alter_ne.
    + apply (no_clash_sub s); [done| |done]. intros e y He Hy. simpl in Hy.
      destruct (decide (e = i)) as [->|Hne]; [|rewrite lookup_alter_ne in Hy by done; by exists y].
      rewrite lookup_alter_eq, Hx in Hy. injection Hy as <-. by exists x.
  - destruct (unlink_expect_inv D ehold i s HE) as (Hwas & HE' & HS & HL & _ & Hxx & Hht & Hhs & Hct);
      [apply Hsub; set_solver|].
    unfold unlinked in *. destruct (exp_del_timer i s) as [was s1]. simpl in Hwas. subst was. simpl in *.
    split_and!; [done|done|set_solver|]. destruct Hxx as (x0 & x' & Hx0 & Hx' & Hmx & _). simplify_eq.
    exists x'. rewrite Hmx. split_and!; try done. intros q Hq.
    rewrite Hct. unfold exp_master_of. rewrite Hx. simpl. by rewrite lookup_alter_ne.
Qed.

(** ** Changes to an unconfirmed conntrack

    What NAT and the [expectfn] of an expectation may do to a conntrack that is
    not in the hash table: give it another reply tuple, set NAT's status bits,
    register it in NAT's [bysource] chains; they touch nothing else of the
    tracker, in particular not the bits EXPECTED, SEEN_REPLY, ASSURED, CONFIRMED. *)
Record setup_frame (p : positive) (s s' : ct_state) : Prop := {
  sf_hash : ∀ h, chain s' h = chain s h;
  sf_unconf : unconfirmed s' = unconfirmed s;
  sf_count : ip_conntrack_count s' = ip_conntrack_count s;
  sf_exps : exps s' = exps s;
  sf_elist : ip_conntrack_expect_list s' = ip_conntrack_expect_list s;
  sf_other : ∀ q, q ≠ p → cts s' !! q = cts s !! q;
  sf_self : ∀ c, cts s !! p = Some c → ∃ c', cts s' !! p = Some c' ∧
    ct_use c' = ct_use c ∧ ct_master c' = ct_master c ∧ expecting c' = expecting c ∧
    (∀ b, 0 <= b <= IPS_CONFIRMED_BIT → test_bit b c' = test_bit b c) ∧
    pending (timeout c') = pending (timeout c) ∧ tuple_orig c' = tuple_orig c ∧
    dst_dir (tuple_reply c') = dst_dir (tuple_reply c) ∧
    (flag (status c) IPS_NAT_DONE_MASK = true → flag (status c') IPS_NAT_DONE_MASK = true);
  sf_bysource : ∀ h q, q ∈ default [] (bysource s' !! h) → q ∈ default [] (bysource s !! h) ∨
    q = p ∧ (λ c, flag (status c) IPS_NAT_DONE_MASK) <$> cts s' !! p = Some true }.

Lemma setup_inv env D N live ehold p s s' :
  Inv env D N live ehold s → setup_frame p s s' → p ∉ D →
  is_confirmed <$> cts s !! p = Some false → Inv env D N live ehold s'.
Proof.
  intros [HT HO HA HE] [Fh Fu Fn Fx Fl Fo Fs Fb] HpD Hcf.
  destruct (cts s !! p) as [c|] eqn:Hc; [|done]. simpl in Hcf. injection Hcf as Hcf.
  destruct (Fs c eq_refl) as (c' & Hc' & Su & Sm & Sx & Sb & Sp & So & Sr & Sn).
  assert (is_confirmed c' = is_confirmed c) as Sc by (by apply Sb).
  assert (∀ n, tabled s n → n.1 ≠ p) as Hnt.
  { intros n Ht Heq. destruct (tabled_confirmed _ _ _ _ HT Ht) as (? & Hn & ? & _). congruence. }
  assert (∀ q a, cts s' !! q = Some a → (q = p ∧ a = c') ∨ (q ≠ p ∧ cts s !! q = Some a)) as Hback.
  { intros q a Hq. destruct (decide (q = p)) as [->|Hqp]; [left; split; congruence|right].
    by rewrite Fo in Hq. }
  assert (dom (cts s') = dom (cts s)) as Hdom.
  { apply set_eq. intros q. rewrite !elem_of_dom. destruct (decide (q = p)) as [->|Hqp].
    - rewrite Hc, Hc'. split; eauto.
    - by rewrite Fo. }
  assert (∀ q a, cts s !! q = Some a → q ≠ p → cts s' !! q = Some a) as Hfwd
    by (intros q a Ha Hq; by rewrite Fo).
  split.
  - destruct HT as [T1 T2 T3 T4 T5]. split.
    + intros h n. rewrite Fh. intros Hn. destruct (T1 h n Hn) as (a & Ha & ?). exists a.
      split; [|done]. apply Hfwd; [done|]. apply Hnt. by exists h.
    + intros h. by rewrite Fh.
    + intros q. by rewrite !(tabled_hash s s' Fh).
    + assert (∀ n, tabled s n → node_tuple s' n = node_tuple s n) as Hn
        by (intros n Ht; unfold node_tuple; by rewrite Fo by auto).
      intros n n' t t'. rewrite !(tabled_hash s s' Fh). intros H1 H2. rewrite !Hn by done. by apply T4.
    + intros q a Hq Hpe. rewrite (tabled_hash s s' Fh).
      apply Hback in Hq as [[-> ->]|[_ Hq]]; [apply (T5 p c); congruence|by apply (T5 q a)].
  - destruct HO as [O1 O2 O3 O4 O5 O6 O7 O8 O9 O11]. split; rewrite ?Fu, ?Hdom; try done.
    + intros q a [[-> ->]|[_ Ha]]%Hback; [|eauto]. rewrite So, Sr. eauto.
    + intros q. rewrite O4. split; intros (a & Ha & ? & ?).
      * destruct (decide (q = p)) as [->|Hq]; [|exists a; eauto].
        exists c'. simplify_eq. by rewrite Sc.
      * apply Hback in Ha as [[-> ->]|[_ Ha]]; [|by exists a]. exists c. by rewrite <- Sc.
    + by rewrite Fn, O5, <- !size_dom, Hdom.
    + intros q a m [[-> ->]|[_ Ha]]%Hback; [|by apply O8]. rewrite Sm. by apply O8.
    + assert (∀ q, children s' D q = children s D q) as Hch.
      { intros q. apply set_eq. intros r. rewrite !elem_of_children. split; intros (? & a & Ha & ?).
        - apply Hback in Ha as [[-> ->]|[_ Ha]]; split; eauto. exists c. by rewrite <- Sm.
        - split; [done|]. destruct (decide (r = p)) as [->|Hr]; [|eauto].
          exists c'. simplify_eq. by rewrite Sm. }
      intros q a Hq Hd. rewrite Hch, (table_ref_hash s s') by done.
      apply Hback in Hq as [[-> ->]|[_ Hq]]; [rewrite Su|]; by apply O9.
    + intros h q Hq. destruct (Fb h q Hq) as [Hq'|[-> Hfl]].
      * destruct (O11 h q Hq') as (a & Ha & Hfl & ?).
        destruct (decide (q = p)) as [->|Hqp]; [|exists a; eauto].
        exists c'. simplify_eq. auto.
      * exists c'. rewrite Hc' in Hfl. simpl in Hfl. injection Hfl as Hfl. done.
  - intros q a Hq Hd. apply Hback in Hq as [[-> ->]|[_ Hq]]; [rewrite Su|]; by eapply HA.
  - apply (exp_frame _ _ s); try done. intros q a [[-> ->]|[_ Ha]]%Hback; eauto.
Qed.

(** The new conntrack gets a master. *)
Lemma adopt_inv env live ehold p m mc c s :
  Inv env ∅ {[p]} live ehold s → cts s !! p = Some c → ct_master c = None →
  cts s !! m = Some mc → is_confirmed c = false → m ≠ p →
  Inv env ∅ {[p]} live ehold (nf_conntrack_get m (upd_ct p (adopt m mc) s)).
Proof.
  intros [HT HO HA HE] Hp Hpm Hm Hcf Hne. set (s' := nf_conntrack_get _ _).
  assert (cts s' !! p = Some (adopt m mc c)) as Hp'
    by (simpl; rewrite lookup_alter_ne, lookup_alter_eq, Hp by done; done).
  assert (cts s' !! m = Some (mc <| ct_use := ct_use mc + 1 |>)) as Hm'
    by (simpl; by rewrite lookup_alter_eq, lookup_alter_ne, Hm).
  assert (∀ q, q ≠ p → q ≠ m → cts s' !! q = cts s !! q) as Ho
    by (intros q H1 H2; simpl; by rewrite !lookup_alter_ne).
  assert (is_confirmed (adopt m mc c) = is_confirmed c) as Hcf' by (by apply (cf_confirmed _ _ (set_bit_frame 0 c ltac:(done) ltac:(done)))).
  assert (flag (status c) IPS_NAT_DONE_MASK = true → flag (status (adopt m mc c)) IPS_NAT_DONE_MASK = true) as Hnat
    by (apply (cf_nat _ _ (set_bit_frame 0 c ltac:(done) ltac:(done)))).
  assert (∀ q a, cts s' !! q = Some a → ∃ b, cts s !! q = Some b ∧ tuple_orig a = tuple_orig b ∧
    tuple_reply a = tuple_reply b ∧ is_confirmed a = is_confirmed b ∧ expecting a = expecting b ∧
    pending (timeout a) = pending (timeout b) ∧
    (flag (status b) IPS_NAT_DONE_MASK = true → flag (status a) IPS_NAT_DONE_MASK = true) ∧
    (ct_master a = ct_master b ∨ q = p ∧ ct_master a = Some m) ∧
    ct_use a = ct_use b + if decide (q = m) then 1 else 0) as Hback.
  { intros q a Hq. destruct (decide (q = p)) as [->|H1].
    - rewrite Hp' in Hq. injection Hq as <-. exists c. rewrite decide_False by done.
      split_and!; try done; [by right|]. simpl. lia.
    - destruct (decide (q = m)) as [->|H2].
      + rewrite Hm' in Hq. injection Hq as <-. exists mc. split_and!; try done. by left.
      + rewrite Ho in Hq by done. exists a. split_and!; try done; [by left|lia]. }
  assert (dom (cts s') = dom (cts s)) as Hdom by (simpl; by rewrite !dom_alter_L).
  assert (∀ q b, cts s !! q = Some b → is_Some (cts s' !! q)) as Hfwd
    by (intros q b Hb; apply elem_of_dom; rewrite Hdom; apply elem_of_dom; by exists b).
  split.
  - destruct HT as [T1 T2 T3 T4 T5]. split; try done.
    + intros h n Hn. destruct (T1 h n Hn) as (b & Hb & Hbc & Hbh & Hbd).
      destruct (Hfwd _ _ Hb) as [a Ha]. destruct (Hback _ _ Ha) as (b' & Hb' & E1 & E2 & E3 & _).
      simplify_eq. exists a. split_and!; [done|congruence| |done].
      destruct n as [q []]; simpl in *; congruence.
    + assert (∀ n, node_tuple s' n = node_tuple s n) as Hn.
      { intros n. unfold node_tuple. destruct (cts s !! n.1) as [b|] eqn:Eb.
        - destruct (Hfwd _ _ Eb) as [a Ha]. destruct (Hback _ _ Ha) as (b' & Hb' & E1 & E2 & _).
          rewrite Ha. simplify_eq. destruct n as [q []]; simpl in *; congruence.
        - destruct (cts s' !! n.1) as [a|] eqn:Ea; [|done].
          destruct (Hback _ _ Ea) as (b' & Hb' & _). congruence. }
      intros n n' t t'. rewrite !Hn. apply T4.
    + intros q a Ha Hpe. destruct (Hback _ _ Ha) as (b & Hb & _ & _ & _ & _ & E & _).
      apply (T5 q b); congruence.
  - destruct HO as [O1 O2 O3 O4 O5 O6 O7 O8 O9 O11]. split; rewrite ?Hdom; try done.
    + intros q a Ha. destruct (Hback _ _ Ha) as (b & Hb & -> & -> & _). eauto.
    + intros q. change (unconfirmed s') with (unconfirmed s). rewrite O4. split; intros (a & Ha & ? & ?).
      * destruct (Hfwd _ _ Ha) as [a' Ha']. destruct (Hback _ _ Ha') as (b & Hb & _ & _ & E & _).
        simplify_eq. exists a'. split_and!; congruence.
      * destruct (Hback _ _ Ha) as (b & Hb & _ & _ & E & _). exists b. split_and!; congruence.
    + change (ip_conntrack_count s') with (ip_conntrack_count s). by rewrite O5, <- !size_dom, Hdom.
    + intros q a k Ha Hd Hk. destruct (Hback _ _ Ha) as (b & Hb & _ & _ & _ & _ & _ & _ & [E|[-> E]] & _).
      * apply (O8 q b); congruence.
      * assert (k = m) as -> by congruence. split; [|set_solver]. apply elem_of_dom. by exists mc.
    + intros q a Ha Hd. destruct (Hback _ _ Ha) as (b & Hb & _ & _ & _ & _ & _ & _ & _ & ->).
      rewrite (O9 q b Hb Hd), (table_ref_hash s s') by done.
      assert (children s' ∅ q = if decide (q = m) then {[p]} ∪ children s ∅ q else children s ∅ q) as ->.
      { apply set_eq. intros r. rewrite elem_of_children. split.
        - intros (_ & a' & Ha' & Hma). destruct (Hback _ _ Ha') as (b' & Hb' & _ & _ & _ & _ & _ & _ & [E|[-> E]] & _).
          + assert (r ∈ children s ∅ q) by (apply elem_of_children; split; [set_solver|]; exists b'; split; congruence).
            case_decide; set_solver.
          + rewrite decide_True by congruence. set_solver.
        - intros Hr. split; [set_solver|].
          assert (r = p ∧ q = m ∨ r ∈ children s ∅ q) as [[-> ->]|Hr'] by (case_decide; set_solver);
            [by eexists|]. apply elem_of_children in Hr' as (_ & b' & Hb' & Hmb).
          destruct (Hfwd _ _ Hb') as [a' Ha']. exists a'. split; [done|].
          destruct (Hback _ _ Ha') as (b'' & Hb'' & _ & _ & _ & _ & _ & _ & [E|[-> E]] & _); congruence. }
      case_decide as Hq; [|lia]. rewrite size_union, size_singleton; [lia|].
      apply disjoint_singleton_l. rewrite elem_of_children. intros (_ & b' & ? & ?). congruence.
    + intros h q Hq. destruct (O11 h q Hq) as (b & Hb & Hfl & ?). destruct (Hfwd _ _ Hb) as [a Ha].
      destruct (Hback _ _ Ha) as (b' & Hb' & _ & _ & _ & _ & _ & En & _). simplify_eq. exists a. auto.
  - intros q a Ha Hd. destruct (Hback _ _ Ha) as (b & Hb & _ & _ & _ & _ & _ & _ & _ & ->).
    pose proof (HA q b Hb Hd). case_decide; lia.
  - apply (exp_frame _ _ s); try done. intros q a Ha.
    destruct (Hback _ _ Ha) as (b & Hb & _ & _ & _ & E & _). eauto.
Qed.

(** The per-protocol handlers only touch their own part of the conntrack. *)
Record ct_same (c c' : ip_conntrack) : Prop := {
  cs_orig : tuple_orig c' = tuple_orig c; cs_reply : tuple_reply c' = tuple_reply c;
  cs_use : ct_use c' = ct_use c; cs_master : ct_master c' = ct_master c;
  cs_expecting : expecting c' = expecting c; cs_helper : ct_helper c' = ct_helper c;
  cs_status : status c' = status c ∨ status c' = Z.setbit (status c) IPS_ASSURED_BIT;
  cs_pending : pending (timeout c') = true → pending (timeout c) = true }.

Lemma ct_same_refl c : ct_same c c.
Proof. split; auto. Qed.
Lemma ct_same_trans c c' c'' :
  ct_same c c' → ct_same c' c'' → (status c' = status c ∨ status c'' = status c') → ct_same c c''.
Proof.
  intros [] [] Hs. split; try congruence; auto. destruct Hs as [Hs|Hs]; rewrite Hs in *; auto.
Qed.
Lemma ct_same_frame c c' : ct_same c c' → ct_frame c c'.
Proof.
  intros [Ho Hr _ Hm _ _ Hs Hp]. destruct (set_bit_frame IPS_ASSURED_BIT c) as [_ _ _ Hc _ Hn]; [done..|].
  split; try done.
  - unfold is_confirmed, test_bit in *. destruct Hs as [-> | ->]; done.
  - destruct Hs as [-> | ->]; done.
Qed.

Lemma refresh_same jiffies ct ctinfo skb extra :
  ct_same ct (ip_ct_refresh_acct jiffies ct ctinfo skb extra) ∧
  status (ip_ct_refresh_acct jiffies ct ctinfo skb extra) = status ct.
Proof.
  destruct (refresh_fields jiffies ct ctinfo skb extra true) as (_ & Hs & Ho & Hr & Hu & Hm & Hh & Hx).
  split; [|done]. split; try done; [by left|].
  unfold ip_ct_refresh_acct, __ip_ct_refresh_acct. destruct (is_confirmed ct); simpl.
  - destruct (pending (timeout ct)) eqn:E; [done|].
    destruct (CTINFO2DIR ctinfo); simpl; done.
  - destruct (CTINFO2DIR ctinfo); simpl; done.
Qed.

Lemma set_proto_same ct t : ct_same ct (ct <| proto_tcp := t |>).
Proof. split; auto. Qed.

Lemma kill_same ret ct :
  ct_same ct (pr_ct (kill_conntrack ret ct)) ∧
  pr_kill (kill_conntrack ret ct) = pending (timeout ct) ∧
  pending (timeout (pr_ct (kill_conntrack ret ct))) = false.
Proof. split_and!; [split; auto; done|done..]. Qed.

(** Result of a handler: the conntrack is the same but for its own part, and the
    timeout function runs only on a timer that was pending and no longer is. *)
Definition handler_ok (ct : ip_conntrack) (r : packet_result) : Prop :=
  ct_same ct (pr_ct r) ∧
  (pr_kill r = true → pending (timeout ct) = true ∧ pending (timeout (pr_ct r)) = false).

Lemma handler_ok_kill ret ct ct' :
  ct_same ct ct' → status ct' = status ct → timeout ct' = timeout ct →
  handler_ok ct (kill_conntrack ret ct').
Proof.
  intros Hs Hst Ht. destruct (kill_same ret ct') as (Hk & Hp & Hn). split.
  - eapply ct_same_trans; [done..|by left].
  - rewrite Hp, Ht. done.
Qed.

Lemma tcp_in_window_handler cfg j ct skb ctinfo th i old new r :
  tcp_packet_in_window cfg j ct skb ctinfo th i old new = Some r → handler_ok ct r.
Proof.
  unfold tcp_packet_in_window. cbn zeta. set (t := if _ && _ then _ else _). clearbody t.
  intros (to & _ & H)%bind_Some.
  destruct (_ && th_rst th) eqn:E1 in H.
  - injection H as <-. by apply handler_ok_kill; [apply set_proto_same|..].
  - injection H as <-. split; [|done]. cbn [pr_ct].
    match goal with |- context [if ?b then _ else _] => destruct b end.
    + destruct (refresh_same j (set_bit IPS_ASSURED_BIT (ct <| proto_tcp := t |>)) ctinfo skb
        (if (max_retrans cfg <=? retrans t) && (to_max_retrans cfg <? to) then to_max_retrans cfg else to))
        as [Hr Hs]. eapply ct_same_trans; [|exact Hr|by right]. split; auto.
    + destruct (refresh_same j (ct <| proto_tcp := t |>) ctinfo skb
        (if (max_retrans cfg <=? retrans t) && (to_max_retrans cfg <? to) then to_max_retrans cfg else to))
        as [Hr Hs]. eapply ct_same_trans; [|exact Hr|by right]. split; auto.
Qed.

Lemma tcp_check_handler cfg j ct skb ctinfo iph th i old new r :
  tcp_packet_check cfg j ct skb ctinfo iph th i old new = Some r → handler_ok ct r.
Proof.
  unfold tcp_packet_check. destruct (_ && _); [apply tcp_in_window_handler|].
  intros ([res t] & _ & H)%bind_Some. destruct (res =? 0).
  - injection H as <-. split; [apply set_proto_same|done].
  - apply tcp_in_window_handler in H as [Hs Hk]. split; [|done].
    eapply ct_same_trans; [apply set_proto_same|done|by left].
Qed.

Lemma tcp_packet_handler cfg j ct skb ctinfo r :
  tcp_packet cfg j ct skb ctinfo = Some r → handler_ok ct r.
Proof.
  unfold tcp_packet. intros (hp & _ & H)%bind_Some. cbn zeta in H.
  apply bind_Some in H as (new & _ & H).
  assert (∀ n, handler_ok ct (kill_conntrack n ct)) as Hkill
    by (intros n; by apply handler_ok_kill; [apply ct_same_refl|..]).
  assert (∀ v b, handler_ok ct (mk_pr v ct false b)) as Hnop
    by (intros v b; split; [apply ct_same_refl|done]).
  destruct new; try by apply tcp_check_handler in H.
  - destruct (_ <? _)%nat; [by apply tcp_check_handler in H|]. destruct (_ || _); injection H as <-; auto.
  - destruct (_ && _); [by apply tcp_in_window_handler in H|by apply tcp_check_handler in H].
  - injection H as <-. auto.
  - injection H as <-. unfold tcp_packet_ignore. destruct (_ && _); [done|].
    split; [apply set_proto_same|done].
Qed.

Lemma proto_packet_handler cfg p j ct skb ctinfo r :
  proto_packet cfg p j ct skb ctinfo = Some r → handler_ok ct r.
Proof.
  destruct p; simpl; [apply tcp_packet_handler|intros [= <-]..].
  - unfold udp_packet. destruct (test_bit _ ct).
    + destruct (refresh_same j ct ctinfo skb (ip_ct_udp_timeout_stream cfg)) as [Hr Hs].
      split; [|done]. simpl. eapply ct_same_trans; [exact Hr| |by left]. split; auto.
    + split; [|done]. apply refresh_same.
  - unfold icmp_packet. destruct (dir_eqb _ _).
    + destruct (_ =? 0); [by apply handler_ok_kill; [split; auto|..]|]. by split; [split; auto|].
    + split; [|done]. simpl. eapply ct_same_trans; [|apply refresh_same|right; apply refresh_same].
      split; auto.
  - split; [|done]. apply refresh_same.
Qed.

Lemma proto_new_same cfg p ct skb ok ct' :
  proto_new cfg p ct skb = Some (ok, ct') → ct_same ct ct' ∧ status ct' = status ct ∧ timeout ct' = timeout ct.
Proof.
  destruct p; simpl; [|by intros [= _ <-]; split; [apply ct_same_refl|]|
    |by intros [= _ <-]; split; [apply ct_same_refl|]].
  - unfold tcp_new. intros (hp & _ & H)%bind_Some. cbn zeta in H.
    apply bind_Some in H as (new & _ & H).
    destruct (_ <=? _)%nat; [injection H as _ <-; split; [apply ct_same_refl|done]|].
    destruct (bool_decide _); [apply bind_Some in H as (s0 & _ & H)|destruct (_ =? 0)];
      injection H as _ <-; (split; [apply set_proto_same || apply ct_same_refl|done]).
  - unfold icmp_new. destruct (_ || _); intros [= _ <-]; (split; [split; auto|done]).
Qed.

(** The assumption on the [expectfn] of expectations: it only sets up the new,
    unconfirmed conntrack it is given. *)
Definition expectfn_ok (env : ct_env) : Prop :=
  ∀ f p x s, is_Some (cts s !! p) → setup_frame p s (call_expectfn env f p x s).

Lemma alloc_inv env live ehold orig repl s :
  Inv env ∅ ∅ live ehold s →
  let r := ip_conntrack_alloc env orig repl s in
  match r.1 with
  | None => Inv env ∅ ∅ live ehold r.2
  | Some p => ∃ s0, Inv env ∅ ∅ live ehold s0 ∧ cts s0 !! p = None ∧
      r.2 = s0 <| cts := <[p := blank_ct orig repl]> (cts s0) |>
               <| ip_conntrack_count := ip_conntrack_count s0 + 1 |>
  end.
Proof.
  intros HI. unfold ip_conntrack_alloc. cbn zeta.
  pose proof (early_drop_inv env live ehold (hash_conntrack env orig) s HI) as HI'.
  set (d := if _ && _ then _ else _).
  assert (Inv env ∅ ∅ live ehold d.2) as Hd by (unfold d; destruct (_ && _); done).
  clearbody d. destruct d as [dropped s0]. simpl in Hd.
  destruct (negb dropped); [done|]. destruct (negb (alloc_ok env)); [done|]. simpl.
  exists s0. split_and!; [done| |done]. apply not_elem_of_dom, is_fresh.
Qed.

Lemma free_alloc p c s :
  cts s !! p = None →
  ip_conntrack_free p (s <| cts := <[p := c]> (cts s) |>
                         <| ip_conntrack_count := ip_conntrack_count s + 1 |>) = s.
Proof.
  intros Hp. unfold ip_conntrack_free. destruct s. simpl in *.
  unfold update, upd_cts, upd_ip_conntrack_count. simpl. f_equal; [by rewrite delete_insert_id|lia].
Qed.

Lemma helper_set_inv env D N live ehold p h s :
  Inv env D N live ehold s → Inv env D N live ehold (upd_ct p (λ c, c <| ct_helper := h |>) s).
Proof. apply Inv_upd. intros c _. by split_and!; [split|..]. Qed.

(** The tail of [init_conntrack] for an expected connection. *)
Definition finish_expected (env : ct_env) (p e : positive) (y : ip_conntrack_expect)
    (m : ip_conntrack) (s : ct_state) : ct_state :=
  let s := nf_conntrack_get (exp_master y) (upd_ct p (adopt (exp_master y) m) s) in
  let s := s <| unconfirmed := p :: unconfirmed s |> in
  ip_conntrack_expect_put e
    (match expectfn y with Some f => call_expectfn env f p y s | None => s end).

Lemma finish_expected_inv env live ehold p e y m ct s :
  expectfn_ok env → Inv env ∅ {[p]} live (ehold ⊎ {[+ e +]}) s →
  cts s !! p = Some ct → ct_master ct = None → is_confirmed ct = false →
  cts s !! exp_master y = Some m → exp_master y ≠ p →
  Inv env ∅ ∅ live ehold (finish_expected env p e y m s).
Proof.
  intros Hfn HI Hp Hma Hcf Hm Hne. unfold finish_expected. cbn zeta.
  pose proof (adopt_inv _ _ _ _ _ _ _ _ HI Hp Hma Hm Hcf Hne) as HI4.
  set (s4 := nf_conntrack_get _ _) in *.
  assert (cts s4 !! p = Some (adopt (exp_master y) m ct)) as Hp4
    by (unfold s4; simpl; by rewrite lookup_alter_ne, lookup_alter_eq, Hp).
  pose proof (list_new_inv _ _ _ _ _ HI4) as HI5.
  set (s5 := s4 <| unconfirmed := p :: unconfirmed s4 |>) in *.
  set (s6 := match expectfn y with Some _ => _ | None => _ end).
  assert (Inv env ∅ ∅ live (ehold ⊎ {[+ e +]}) s6) as HI6.
  { unfold s6. destruct (expectfn y) as [f|]; [|done].
    apply (setup_inv _ _ _ _ _ p s5); [done|apply Hfn; by eexists|set_solver|].
    change (cts s5) with (cts s4). rewrite Hp4. simpl. f_equal.
    rewrite <- Hcf. by apply (cf_confirmed _ _ (set_bit_frame 0 ct ltac:(done) ltac:(done))). }
  destruct (expect_put_inv ∅ ehold e s6) as (HE7 & HS7 & _); [apply HI6|].
  destruct HI6 as [A1 A2 A3 A4]. split; [by eapply same_lists_table|by eapply same_lists_own|
    by eapply same_lists_alive|done].
Qed.

(** The conntrack [protocol->new] accepted, in place. *)
Lemma new_in_place env live ehold tuple repl proto skb p ct s :
  Inv env ∅ ∅ live ehold s → cts s !! p = None →
  dst_dir tuple = IP_CT_DIR_ORIGINAL → dst_dir repl = IP_CT_DIR_REPLY →
  proto_new (cfg env) proto (blank_ct tuple repl) skb = Some (true, ct) →
  let s2 := upd_ct p (λ _, ct)
              (s <| cts := <[p := blank_ct tuple repl]> (cts s) |>
                 <| ip_conntrack_count := ip_conntrack_count s + 1 |>) in
  Inv env ∅ {[p]} (live ⊎ {[+ p +]}) ehold s2 ∧ cts s2 !! p = Some ct ∧
  is_confirmed ct = false ∧ ct_master ct = None.
Proof.
  intros HI Hp Hd Hr Hnew s2. destruct (proto_new_same _ _ _ _ _ _ Hnew) as (Hsame & Hst & Hto).
  assert (s2 = s <| cts := <[p := ct]> (cts s) |>
                 <| ip_conntrack_count := ip_conntrack_count s + 1 |>) as Hs2.
  { unfold s2, upd_ct, update, upd_cts, upd_ip_conntrack_count. simpl. f_equal.
    by rewrite alter_insert_eq. }
  assert (is_confirmed ct = false) by (unfold is_confirmed, test_bit; by rewrite Hst).
  assert (ct_master ct = None) by (by rewrite (cs_master _ _ Hsame)).
  split_and!; try done.
  - rewrite Hs2. apply newborn_inv; try done; destruct Hsame; try congruence;
      rewrite ?Hto, ?cs_orig0, ?cs_reply0; done.
  - rewrite Hs2. simpl. by rewrite lookup_insert_eq.
Qed.

Lemma init_conntrack_inv env live ehold tuple proto skb s r s' :
  expectfn_ok env → Inv env ∅ ∅ live ehold s → dst_dir tuple = IP_CT_DIR_ORIGINAL →
  init_conntrack env tuple proto skb s = Some (r, s') →
  match r with
  | CT_OK p => Inv env ∅ ∅ (live ⊎ {[+ p +]}) ehold s'
  | _ => Inv env ∅ ∅ live ehold s'
  end.
Proof.
  intros Hfn HI Hdir. unfold init_conntrack.
  destruct (ip_ct_invert_tuple tuple proto) as [repl|] eqn:Einv; [|by intros [= <- <-]].
  destruct (ip_ct_invert_tuple_fields _ _ _ Einv) as (_ & _ & _ & Hrdir). rewrite Hdir in Hrdir.
  pose proof (alloc_inv env live ehold tuple repl s HI) as Ha.
  destruct (ip_conntrack_alloc env tuple repl s) as [[p|] s1]; simpl in Ha; [|by intros [= <- <-]].
  destruct Ha as (s0 & HI0 & Hp0 & ->).
  intros ([ok ct] & Hnew & H)%bind_Some.
  destruct ok; simpl in H; [|injection H as <- <-; by rewrite free_alloc].
  destruct (new_in_place env live ehold tuple repl proto skb p ct s0) as (HI2 & Hp2 & Hcf & Hma); [done..|].
  set (s2 := upd_ct p _ _) in *. clearbody s2.
  destruct (find_expectation_inv ∅ ehold tuple (ip_conntrack_expect_list s2) s2) as [HS3 HR3];
    [apply HI2|done|].
  fold (find_expectation tuple s2) in HS3, HR3.
  destruct (find_expectation tuple s2) as [[e|] s3]; simpl in HS3, HR3, H.
  - destruct HR3 as (HE3 & He & y & Hy & Hmd & HmD & Hmcf & _). rewrite Hy in H. simpl in H.
    destruct (frame_fwd (sl_cts _ _ HS3) _ _ Hp2) as (ct3 & Hp3 & Hf3).
    destruct (cts s2 !! exp_master y) as [m2|] eqn:Em2; [|done]. simpl in Hmcf.
    destruct (frame_fwd (sl_cts _ _ HS3) _ _ Em2) as (m3 & Hm3 & Hfm). rewrite Hm3 in H.
    injection H as <- <-. apply (finish_expected_inv env _ _ p e y m3 ct3); try done.
    + destruct HI2 as [A1 A2 A3 A4]. split; [by eapply same_lists_table|by eapply same_lists_own|
        by eapply same_lists_alive|done].
    + by rewrite (cf_master _ _ Hf3).
    + by rewrite (cf_confirmed _ _ Hf3).
    + intros Heq. rewrite Heq in Em2. congruence.
  - subst s3. injection H as <- <-.
    apply (list_new_inv _ _ _ _ (upd_ct p _ s2)). by apply helper_set_inv.
Qed.

(** ** Lookup *)
Lemma find_Some env tuple ign s n :
  __ip_conntrack_find env tuple ign s = Some n →
  n ∈ chain s (hash_conntrack env tuple) ∧ conntrack_tuple_cmp s n tuple ign = true.
Proof.
  unfold __ip_conntrack_find. intros ([i m] & Hf & ->)%fmap_Some.
  apply list_find_Some in Hf as (Hl & Hc & _). simpl. split; [by eapply list_elem_of_lookup_2|].
  by apply Is_true_eq_true.
Qed.
Lemma find_None env tuple ign s n :
  __ip_conntrack_find env tuple ign s = None →
  n ∈ chain s (hash_conntrack env tuple) → conntrack_tuple_cmp s n tuple ign = false.
Proof.
  unfold __ip_conntrack_find. intros Hf%fmap_None Hn. apply list_find_None in Hf.
  rewrite Forall_forall in Hf. destruct (conntrack_tuple_cmp s n tuple ign) eqn:E; [|done].
  exfalso. apply (Hf n); [done|by rewrite E].
Qed.

Lemma find_get_inv env live ehold tuple ign s :
  Inv env ∅ ∅ live ehold s →
  let r := ip_conntrack_find_get env tuple ign s in
  match r.1 with
  | Some n => Inv env ∅ ∅ (live ⊎ {[+ n.1 +]}) ehold r.2
  | None => r.2 = s
  end.
Proof.
  intros HI. unfold ip_conntrack_find_get.
  destruct (__ip_conntrack_find env tuple ign s) as [n|] eqn:E; [|done]. simpl.
  apply find_Some in E as [Hn _].
  destruct (chain_dom _ _ _ _ _ (inv_table _ _ _ _ _ _ HI) Hn). by apply get_inv.
Qed.

(** ** The hook *)

(** The reference a socket buffer holds. *)
Definition skb_ref (skb : sk_buff) : gmultiset positive :=
  match nfct skb with Some p => {[+ p +]} | None => ∅ end.

Lemma get_tuple_dir iph skb off p t :
  ip_ct_get_tuple iph skb off p = Some t → dst_dir t = IP_CT_DIR_ORIGINAL.
Proof.
  unfold ip_ct_get_tuple. destruct (flag _ _); [done|].
  destruct p; simpl; [intros (hp & _ & [= <-])%bind_Some..|intros [= <-]]; done.
Qed.

Lemma resolve_inv env live ehold skb proto s r s' skb' :
  expectfn_ok env → Inv env ∅ ∅ live ehold s →
  resolve_normal_ct env skb proto s = Some (r, s', skb') →
  match r with
  | CT_OK (p, _, ctinfo) => Inv env ∅ ∅ (live ⊎ {[+ p +]}) ehold s' ∧ nfct skb' = Some p ∧
                            nfctinfo skb' = ctinfo
  | _ => Inv env ∅ ∅ live ehold s' ∧ skb' = skb
  end.
Proof.
  intros Hfn HI. unfold resolve_normal_ct.
  destruct (ip_ct_get_tuple _ _ _ _) as [t|] eqn:Et; [|by intros [= <- <- <-]].
  apply get_tuple_dir in Et.
  pose proof (find_get_inv env live ehold t None s HI) as Hg.
  destruct (ip_conntrack_find_get env t None s) as [h s1]. simpl in Hg.
  intros ([r0 s2] & H0 & H)%bind_Some.
  assert (match r0 with CT_OK n => Inv env ∅ ∅ (live ⊎ {[+ n.1 +]}) ehold s2
          | _ => Inv env ∅ ∅ live ehold s2 end) as HI2.
  { destruct h as [n|]; [by injection H0 as <- <-|]. subst s1.
    apply bind_Some in H0 as ([r1 s1] & Hi & [= <- <-]).
    apply (init_conntrack_inv env live ehold) in Hi; try done. by destruct r1. }
  destruct r0 as [[p d]| |]; [|by injection H as <- <- <-..].
  destruct d; injection H as <- <- <-; done.
Qed.

Lemma icmp_error_message_inv env live ehold skb hooknum s :
  Inv env ∅ ∅ live ehold s → nfct skb = None →
  let '(ret, s', skb') := icmp_error_message env skb hooknum s in
  ret = - NF_ACCEPT ∧ Inv env ∅ ∅ (live ⊎ skb_ref skb') ehold s'.
Proof.
  intros HI Hn. unfold icmp_error_message.
  assert (Inv env ∅ ∅ (live ⊎ skb_ref skb) ehold s) as HI0.
  { unfold skb_ref. rewrite Hn. by replace (live ⊎ ∅) with live by multiset_solver. }
  destruct (skb_header_pointer _ _ _); [|done]. cbn zeta. destruct (flag _ _); [done|].
  destruct (ip_ct_get_tuple _ _ _ _) as [o|]; [|done].
  destruct (ip_ct_invert_tuple _ _) as [i|]; [|done].
  pose proof (find_get_inv env live ehold i None s HI) as H1.
  destruct (ip_conntrack_find_get env i None s) as [[[p d]|] s1]; [done|]. simpl in H1. subst s1.
  destruct (_ =? _); [|done].
  pose proof (find_get_inv env live ehold o None s HI) as H2.
  destruct (ip_conntrack_find_get env o None s) as [[[p d]|] s2]; [done|]. simpl in H2. by subst s2.
Qed.

Lemma csum_complete_nfct skb : nfct (__skb_checksum_complete skb).2 = nfct skb.
Proof. unfold __skb_checksum_complete. simpl. by destruct (_ =? 0). Qed.

Lemma icmp_error_inv env live ehold skb hooknum s :
  Inv env ∅ ∅ live ehold s → nfct skb = None →
  let '(ret, s', skb') := icmp_error env skb hooknum s in
  Inv env ∅ ∅ (live ⊎ skb_ref skb') ehold s' ∧ (0 < ret → nfct skb' = None ∧ s' = s).
Proof.
  intros HI Hn. unfold icmp_error.
  assert (∀ k, nfct k = None → Inv env ∅ ∅ (live ⊎ skb_ref k) ehold s) as HI0.
  { intros k Hk. unfold skb_ref. rewrite Hk. by replace (live ⊎ ∅) with live by multiset_solver. }
  destruct (skb_header_pointer _ _ _); [|split; [by apply HI0|done]]. cbn zeta.
  set (b := if negb (hooknum =? _) then _ else _).
  assert (nfct b.2 = None) as Hb.
  { unfold b. destruct (negb _); [done|]. destruct (_ && _); [done|]. destruct (_ || _); [|done].
    pose proof (csum_complete_nfct (skb <| csum := 0 |>)) as Hc.
    destruct (__skb_checksum_complete _). simpl in *. by rewrite Hc. }
  clearbody b. destruct b as [bad k]. simpl in Hb.
  destruct bad; [split; [auto|done]|]. destruct (_ <? _); [split; [auto|done]|].
  destruct (_ && _); [split; [auto|done]|].
  pose proof (icmp_error_message_inv env live ehold k hooknum s HI Hb) as Hm.
  destruct (icmp_error_message env k hooknum s) as [[ret s'] k']. destruct Hm as [-> Hm]. done.
Qed.

Lemma run_packet_inv env live ehold proto p skb ctinfo s ret s' :
  Inv env ∅ ∅ (live ⊎ {[+ p +]}) ehold s →
  run_packet env proto p skb ctinfo s = Some (ret, s') →
  Inv env ∅ ∅ (live ⊎ {[+ p +]}) ehold s'.
Proof.
  intros HI. unfold run_packet. intros (ct & Hc & (r & Hr & [= <- <-])%bind_Some)%bind_Some.
  apply proto_packet_handler in Hr as [Hs Hk].
  assert (Inv env ∅ ∅ (live ⊎ {[+ p +]}) ehold (upd_ct p (λ _, pr_ct r) s)) as HI1.
  { apply Inv_upd; [|done]. intros c0 Hc0. simplify_eq.
    split_and!; [by apply ct_same_frame|apply Hs..]. }
  destruct (pr_kill r); [|done]. destruct Hk as [Hp Hp']; [done|].
  apply death_inv; [done| |].
  - apply (tw_timer _ _ _ (inv_table _ _ _ _ _ _ HI) p ct Hc Hp).
  - intros c0. simpl. rewrite lookup_alter_eq, Hc. by intros [= <-].
Qed.

Lemma ip_conntrack_in_inv env live ehold hooknum skb s v s' skb' :
  expectfn_ok env → Inv env ∅ ∅ live ehold s → nfct skb = None →
  ip_conntrack_in env hooknum skb s = Some (v, s', skb') →
  Inv env ∅ ∅ (live ⊎ skb_ref skb') ehold s'.
Proof.
  intros Hfn HI Hn. unfold ip_conntrack_in. rewrite Hn. cbn zeta.
  assert (∀ s k, Inv env ∅ ∅ live ehold s → nfct k = None → Inv env ∅ ∅ (live ⊎ skb_ref k) ehold s) as HI0.
  { intros s0 k Hs0 Hk. unfold skb_ref. rewrite Hk. by replace (live ⊎ ∅) with live by multiset_solver. }
  destruct (flag _ _); [intros [= <- <- <-]; auto|].
  set (proto := __ip_conntrack_proto_find _).
  set (e := proto_error env proto skb hooknum s).
  assert (Inv env ∅ ∅ (live ⊎ skb_ref e.2) ehold e.1.2 ∧ (0 < e.1.1 → nfct e.2 = None ∧ e.1.2 = s)) as [He Hpos].
  { unfold e, proto_error. destruct proto; try by split; auto.
    pose proof (icmp_error_inv env live ehold skb hooknum s HI Hn) as Hi.
    by destruct (icmp_error env skb hooknum s) as [[? ?] ?]. }
  clearbody e. destruct e as [[ret s1] k]. simpl in He, Hpos.
  destruct (Z.leb_spec ret 0); [by intros [= <- <- <-]|]. destruct (Hpos ltac:(lia)) as [Hk ->].
  intros ([[r s2] k2] & Hres & H')%bind_Some.
  apply (resolve_inv env live ehold) in Hres; [|done..].
  destruct r as [[[p set_reply] ctinfo]| |].
  - destruct Hres as (HI2 & Hk2 & _). apply bind_Some in H' as ([ret' s3] & Hrun & H').
    apply (run_packet_inv env live ehold) in Hrun; [|done].
    destruct (ret' <? 0); injection H' as <- <- <-.
    + apply HI0; [by apply put_inv|done].
    + unfold skb_ref. rewrite Hk2. destruct set_reply; [|done]. apply Inv_upd; [|done].
      intros c _. by split_and!; [apply set_bit_frame|..].
  - destruct Hres as [? ->]. injection H' as <- <- <-. auto.
  - destruct Hres as [? ->]. injection H' as <- <- <-. auto.
Qed.

(** ** Confirmation *)
Lemma tuple_equal_spec t t' :
  ip_ct_tuple_equal t t' = true ↔
  src_ip t = src_ip t' ∧ src_u t = src_u t' ∧ dst_ip t = dst_ip t' ∧ dst_u t = dst_u t' ∧
  protonum t = protonum t'.
Proof.
  unfold ip_ct_tuple_equal, ip_ct_tuple_src_equal, ip_ct_tuple_dst_equal.
  rewrite !andb_true_iff, !Z.eqb_eq. tauto.
Qed.
Lemma tuple_equal_refl t : ip_ct_tuple_equal t t = true.
Proof. by apply tuple_equal_spec. Qed.
Lemma tuple_equal_sym t t' : ip_ct_tuple_equal t t' = ip_ct_tuple_equal t' t.
Proof. apply eq_bool_prop_intro. split; intros H%Is_true_eq_true; apply Is_true_eq_left;
  apply tuple_equal_spec in H; apply tuple_equal_spec; intuition congruence. Qed.

Lemma hash_tuple_equal env t t' :
  ip_ct_tuple_equal t t' = true → hash_conntrack env t = hash_conntrack env t'.
Proof.
  intros (H1 & H2 & H3 & H4 & H5)%tuple_equal_spec.
  unfold hash_conntrack, __hash_conntrack. by rewrite H1, H2, H3, H4, H5.
Qed.

Lemma chain_insert p s h oh rh :
  chain (__ip_conntrack_hash_insert p oh rh s) h =
  (if decide (h = rh) then [(p, IP_CT_DIR_REPLY)] else []) ++
  (if decide (h = oh) then [(p, IP_CT_DIR_ORIGINAL)] else []) ++ chain s h.
Proof.
  unfold __ip_conntrack_hash_insert. cbn zeta.
  assert (∀ n k s, chain (chain_prepend k n s) h = (if decide (h = k) then [n] else []) ++ chain s h) as Hc.
  { intros n k s0. unfold chain_prepend. unfold chain at 1. simpl. destruct (decide (h = k)) as [->|Hk].
    - by rewrite lookup_insert_eq.
    - by rewrite lookup_insert_ne by done. }
  by rewrite !Hc.
Qed.

Lemma chain_list_del_O p s :
  ¬ tabled s (p, IP_CT_DIR_ORIGINAL) →
  ∀ h, chain (list_del_node (p, IP_CT_DIR_ORIGINAL) s) h = chain s h.
Proof. apply chain_list_del_id. Qed.

Section Confirm.
Context (env : ct_env) (live ehold : gmultiset positive) (p : positive) (ct : ip_conntrack)
  (s : ct_state).
Context (HI : Inv env ∅ ∅ live ehold s) (Hp : cts s !! p = Some ct)
  (Hcf : is_confirmed ct = false).

Let oh := hash_conntrack env (tuple_orig ct).
Let rh := hash_conntrack env (tuple_reply ct).

(** The state [__ip_conntrack_confirm] leaves when neither tuple is taken. *)
Definition confirmed_state : ct_state :=
  upd_ct p (confirm_ct (jiffies env))
    (__ip_conntrack_hash_insert p oh rh (list_del_node (p, IP_CT_DIR_ORIGINAL) s)).

Lemma unconfirmed_not_tabled n : tabled s n → n.1 ≠ p.
Proof.
  intros Ht Heq. destruct (tabled_confirmed _ _ _ _ (inv_table _ _ _ _ _ _ HI) Ht) as (? & ? & ? & _).
  congruence.
Qed.

Lemma confirmed_chain h n :
  n ∈ chain confirmed_state h ↔
  n ∈ chain s h ∨ n = (p, IP_CT_DIR_ORIGINAL) ∧ h = oh ∨ n = (p, IP_CT_DIR_REPLY) ∧ h = rh.
Proof.
  assert (¬ tabled s (p, IP_CT_DIR_ORIGINAL)) as Hnt by (intros H; by apply unconfirmed_not_tabled in H).
  unfold confirmed_state. change (chain (upd_ct p ?f ?st) h) with (chain st h).
  rewrite chain_insert, chain_list_del_O by done.
  destruct (decide (h = rh)), (decide (h = oh)); set_unfold; intuition congruence.
Qed.

Lemma confirmed_tabled n : tabled confirmed_state n ↔ tabled s n ∨ n.1 = p.
Proof.
  unfold tabled. split.
  - intros [h Hn]. apply confirmed_chain in Hn as [Hn|[[-> _]|[-> _]]]; [left; by exists h|by right..].
  - intros [[h Hn]|Hn].
    + exists h. apply confirmed_chain. by left.
    + destruct n as [q []]; simpl in Hn; subst q; [exists oh|exists rh]; apply confirmed_chain; tauto.
Qed.

Definition confirmed_ct : ip_conntrack :=
  confirm_ct (jiffies env) (ct <| ct_id := u32 (ip_conntrack_next_id s + 1) |>).

Lemma confirmed_self : cts confirmed_state !! p = Some confirmed_ct.
Proof. unfold confirmed_state. simpl. by rewrite !lookup_alter_eq, Hp. Qed.
Lemma confirmed_other q : q ≠ p → cts confirmed_state !! q = cts s !! q.
Proof. intros Hq. unfold confirmed_state. simpl. by rewrite !lookup_alter_ne. Qed.
Lemma confirmed_ct_confirmed : is_confirmed confirmed_ct = true.
Proof. unfold is_confirmed, test_bit, confirmed_ct, confirm_ct. rewrite status_set_bit. by apply Z.setbit_eq. Qed.
Lemma confirmed_ct_nat : flag (status ct) IPS_NAT_DONE_MASK = true →
  flag (status confirmed_ct) IPS_NAT_DONE_MASK = true.
Proof.
  unfold confirmed_ct, confirm_ct. rewrite status_set_bit. simpl status.
  unfold flag. intros H. apply negb_true_iff, Z.eqb_neq in H. apply negb_true_iff, Z.eqb_neq.
  intros Hz. apply H. apply Z.bits_inj_0. intros n.
  assert (Z.testbit (Z.land (Z.setbit (status ct) IPS_CONFIRMED_BIT) IPS_NAT_DONE_MASK) n = false) as Hn
    by (by rewrite Hz, Z.bits_0).
  rewrite Z.land_spec, Z.setbit_eqb in Hn by done. rewrite Z.land_spec.
  destruct (Z.testbit (status ct) n); [|done]. by rewrite orb_true_r in Hn.
Qed.

Context (Hfree : ∀ n t d, tabled s n → node_tuple s n = Some t →
                 ip_ct_tuple_equal (tuplehash ct d) t = false).

Lemma confirmed_node n t :
  tabled confirmed_state n → node_tuple confirmed_state n = Some t →
  (n.1 = p ∧ t = tuplehash ct n.2) ∨ (n.1 ≠ p ∧ tabled s n ∧ node_tuple s n = Some t).
Proof.
  intros Ht Hn. unfold node_tuple in *. destruct (decide (n.1 = p)) as [Heq|Hne].
  - left. rewrite Heq, confirmed_self in Hn. simpl in Hn. injection Hn as <-.
    split; [done|]. by destruct n.2.
  - right. rewrite confirmed_other in Hn by done. apply confirmed_tabled in Ht as [Ht|?]; done.
Qed.

Lemma confirmed_table : table_wf env ∅ confirmed_state.
Proof.
  pose proof (inv_table _ _ _ _ _ _ HI) as HT. destruct HT as [T1 T2 T3 T4 T5]. split.
  - intros h n Hn. apply confirmed_chain in Hn as [Hn|[[-> ->]|[-> ->]]].
    + destruct (T1 h n Hn) as (c & Hc & ?). exists c. rewrite confirmed_other; [done|].
      apply unconfirmed_not_tabled. by exists h.
    + exists confirmed_ct. cbn [fst snd]. by rewrite confirmed_self, confirmed_ct_confirmed.
    + exists confirmed_ct. cbn [fst snd]. by rewrite confirmed_self, confirmed_ct_confirmed.
  - intros h. unfold confirmed_state. change (chain (upd_ct p ?f ?st) h) with (chain st h).
    assert (∀ d, ¬ tabled s (p, d)) as Hnt by (intros d H; by apply unconfirmed_not_tabled in H).
    rewrite chain_insert, chain_list_del_O by done.
    assert (∀ d, (p, d) ∉ chain s h) as Hni by (intros d Hd; apply (Hnt d); by exists h).
    specialize (T2 h). destruct (decide _), (decide _); simpl; rewrite ?NoDup_cons; set_solver.
  - intros q. rewrite !confirmed_tabled. simpl. by rewrite T3.
  - intros n n' t t' H1 H2 N1 N2 Heq.
    destruct (confirmed_node n t H1 N1) as [[E1 ->]|(E1 & H1' & N1')],
             (confirmed_node n' t' H2 N2) as [[E2 ->]|(E2 & H2' & N2')].
    + congruence.
    + by rewrite (Hfree n' t' n.2) in Heq.
    + rewrite tuple_equal_sym in Heq. by rewrite (Hfree n t n'.2) in Heq.
    + by apply (T4 n n' t t').
  - intros q c Hq Hpe. apply confirmed_tabled. destruct (decide (q = p)) as [->|Hne]; [by right|left].
    rewrite confirmed_other in Hq by done. by apply (T5 q c).
Qed.

Lemma confirmed_own : own_wf ∅ ∅ live confirmed_state.
Proof.
  pose proof (inv_own _ _ _ _ _ _ HI) as [O1 O2 O3 O4 O5 O6 O7 O8 O9 O11].
  assert (∀ q a, cts confirmed_state !! q = Some a → (q = p ∧ a = confirmed_ct) ∨ (q ≠ p ∧ cts s !! q = Some a)) as Hback.
  { intros q a Hq. destruct (decide (q = p)) as [->|Hne]; [left; rewrite confirmed_self in Hq; split; congruence|].
    right. by rewrite confirmed_other in Hq. }
  assert (dom (cts confirmed_state) = dom (cts s)) as Hdom by (simpl; by rewrite !dom_alter_L).
  assert (unconfirmed confirmed_state = filter (λ q, q ≠ p) (unconfirmed s)) as Hun by done.
  split; rewrite ?Hdom; try done.
  - intros q a [[-> ->]|[_ Ha]]%Hback; [apply (O1 p ct Hp)|eauto].
  - rewrite Hun. by apply NoDup_filter.
  - intros q. rewrite Hun, list_elem_of_filter.
    trans ((q ∈ unconfirmed s ∨ q ∈ (∅ : gset positive)) ∧ q ≠ p); [set_solver|]. rewrite O4. split.
    + intros ((a & Ha & ?) & Hne). exists a. by rewrite confirmed_other.
    + intros (a & [[-> ->]|[Hne Ha]]%Hback & Hc & ?); [by rewrite confirmed_ct_confirmed in Hc|eauto].
  - change (ip_conntrack_count confirmed_state) with (ip_conntrack_count s). by rewrite O5, <- !size_dom, Hdom.
  - intros q a m [[-> ->]|[_ Ha]]%Hback; [apply (O8 p ct m Hp)|by apply O8].
  - intros q a Hq Hd.
    assert (∀ q, children confirmed_state ∅ q = children s ∅ q) as ->.
    { intros k. apply set_eq. intros r. rewrite !elem_of_children. split; intros (? & b & Hb & Hm).
      - apply Hback in Hb as [[-> ->]|[_ Hb]]; split; eauto.
      - split; [done|]. destruct (decide (r = p)) as [->|Hr].
        + exists confirmed_ct. rewrite confirmed_self. simplify_eq. done.
        + exists b. by rewrite confirmed_other. }
    apply Hback in Hq as [[-> ->]|[Hne Hq]].
    + change (ct_use confirmed_ct) with (ct_use ct + 1). rewrite (O9 p ct Hp Hd). unfold table_ref.
      rewrite decide_False by (intros H; by apply unconfirmed_not_tabled in H).
      rewrite decide_True by (apply confirmed_tabled; by right). lia.
    + rewrite (O9 q a Hq Hd). unfold table_ref. destruct (decide (tabled s _)) as [H1|H1],
        (decide (tabled confirmed_state _)) as [H2|H2]; try done; rewrite confirmed_tabled in H2; simpl in H2; tauto.
  - intros h q Hq. destruct (O11 h q Hq) as (a & Ha & Hfl & ?). destruct (decide (q = p)) as [->|Hne].
    + exists confirmed_ct. simplify_eq. split_and!; [apply confirmed_self|by apply confirmed_ct_nat|done].
    + exists a. by rewrite confirmed_other.
Qed.

Lemma confirmed_inv : Inv env ∅ ∅ live ehold confirmed_state.
Proof.
  split; [apply confirmed_table|apply confirmed_own| |].
  - intros q a Hq Hd. destruct (decide (q = p)) as [->|Hne].
    + rewrite confirmed_self in Hq. injection Hq as <-.
      pose proof (inv_alive _ _ _ _ _ _ HI p ct Hp Hd). simpl. lia.
    + rewrite confirmed_other in Hq by done. by apply (inv_alive _ _ _ _ _ _ HI q a).
  - apply (exp_frame _ _ s); [done..|by simpl; rewrite !dom_alter_L| |apply HI].
    intros q a Hq. destruct (decide (q = p)) as [->|Hne].
    + rewrite confirmed_self in Hq. injection Hq as <-. eauto.
    + rewrite confirmed_other in Hq by done. eauto.
Qed.
End Confirm.

(** ** The abstract table

    [tracked env s t p d]: the conntrack [p] is in the table and its tuple of
    direction [d] is [t]. *)
Definition tracked (s : ct_state) (t : ip_conntrack_tuple) (p : positive) (d : ip_conntrack_dir) : Prop :=
  tabled s (p, d) ∧ ∃ c, cts s !! p = Some c ∧ ip_ct_tuple_equal t (tuplehash c d) = true.

Lemma cmp_tracked env D s t ign n :
  table_wf env D s →
  (n ∈ chain s (hash_conntrack env t) ∧ conntrack_tuple_cmp s n t ign = true) ↔
  tracked s t n.1 n.2 ∧ Some n.1 ≠ ign.
Proof.
  intros HT. unfold tracked, conntrack_tuple_cmp, node_tuple. rewrite andb_true_iff, bool_decide_eq_true.
  destruct n as [p d]. simpl. split.
  - intros (Hn & Hi & Ht). split; [|done]. split; [by eexists|].
    destruct (cts s !! p) as [c|]; [|done]. by exists c.
  - intros ([[h Hn] (c & Hc & Ht)] & Hi). rewrite Hc. split_and!; try done.
    destruct (tw_chain _ _ _ HT h _ Hn) as (c' & Hc' & _ & Hh & _). simpl in *. simplify_eq.
    by rewrite (hash_tuple_equal _ _ _ Ht).
Qed.

(** Whom a tuple belongs to is unique, and lookup finds it. *)
Lemma tracked_unique env D s t p p' d d' :
  table_wf env D s → tracked s t p d → tracked s t p' d' → p = p'.
Proof.
  intros HT [Ht (c & Hc & He)] [Ht' (c' & Hc' & He')].
  apply (tw_uniq _ _ _ HT (p, d) (p', d') (tuplehash c d) (tuplehash c' d')); try done.
  - unfold node_tuple. simpl. by rewrite Hc.
  - unfold node_tuple. simpl. by rewrite Hc'.
  - apply tuple_equal_spec. apply tuple_equal_spec in He, He'. intuition congruence.
Qed.

Lemma find_tracked env D s t ign :
  table_wf env D s →
  match __ip_conntrack_find env t ign s with
  | Some (p, d) => tracked s t p d ∧ Some p ≠ ign
  | None => ∀ p d, tracked s t p d → Some p = ign
  end.
Proof.
  intros HT. destruct (__ip_conntrack_find env t ign s) as [[p d]|] eqn:E.
  - apply find_Some in E. by apply (cmp_tracked env D s t ign (p, d)).
  - intros p d Ht. destruct (decide (Some p = ign)) as [|Hi]; [done|].
    destruct (proj2 (cmp_tracked env D s t ign (p, d) HT)) as [Hn Hc]; [done|].
    rewrite (find_None _ _ _ _ _ E Hn) in Hc. done.
Qed.

Lemma found_taken env s t :
  existsb (λ i, conntrack_tuple_cmp s i t None) (chain s (hash_conntrack env t)) =
  ip_conntrack_tuple_taken env t None s.
Proof.
  unfold ip_conntrack_tuple_taken. destruct (__ip_conntrack_find env t None s) as [n|] eqn:E.
  - rewrite bool_decide_true by done. apply find_Some in E as [Hn Hc]. apply existsb_exists.
    exists n. split; [by apply list_elem_of_In|done].
  - rewrite bool_decide_false by (intros [? ?]; done). apply Bool.not_true_iff_false. intros (n & Hn & Hc)%existsb_exists.
    apply list_elem_of_In in Hn. by rewrite (find_None _ _ _ _ _ E Hn) in Hc.
Qed.

Lemma taken_tracked env D s t :
  table_wf env D s →
  ip_conntrack_tuple_taken env t None s = true ↔ ∃ p d, tracked s t p d.
Proof.
  intros HT. unfold ip_conntrack_tuple_taken. rewrite bool_decide_eq_true.
  pose proof (find_tracked env D s t None HT) as Hf.
  destruct (__ip_conntrack_find env t None s) as [[p d]|]; [naive_solver|].
  split; [by intros [? ?]|]. intros (p & d & H). by apply Hf in H.
Qed.

(** The two branches of [ip_conntrack_confirm] on the packet that created the
    conntrack. *)
Lemma confirm_cases env live ehold skb p ct s :
  Inv env ∅ ∅ live ehold s → nfct skb = Some p → cts s !! p = Some ct →
  is_confirmed ct = false → CTINFO2DIR (nfctinfo skb) = IP_CT_DIR_ORIGINAL →
  if ip_conntrack_tuple_taken env (tuple_orig ct) None s
     || ip_conntrack_tuple_taken env (tuple_reply ct) None s
  then ip_conntrack_confirm env skb s = (NF_DROP, s)
  else ip_conntrack_confirm env skb s = (NF_ACCEPT, confirmed_state env p ct s) ∧
       (∀ n t d, tabled s n → node_tuple s n = Some t →
                 ip_ct_tuple_equal (tuplehash ct d) t = false).
Proof.
  intros HI Hn Hp Hcf Hdir. unfold ip_conntrack_confirm, __ip_conntrack_confirm.
  rewrite Hn, Hp, Hcf, Hdir.
  change (dir_eqb IP_CT_DIR_ORIGINAL IP_CT_DIR_ORIGINAL) with true. cbn [negb].
  rewrite !found_taken.
  destruct (ip_conntrack_tuple_taken env (tuple_orig ct) None s) eqn:Eo; [done|].
  destruct (ip_conntrack_tuple_taken env (tuple_reply ct) None s) eqn:Er; [done|]. simpl.
  split; [done|]. intros [q d'] t d Ht Hnt. apply Bool.not_true_iff_false. intros Heq.
  unfold node_tuple in Hnt. destruct (cts s !! q) as [c|] eqn:Hc; [|by simpl in Hnt; rewrite Hc in Hnt].
  simpl in Hnt. rewrite Hc in Hnt. injection Hnt as <-.
  assert (tracked s (tuplehash ct d) q d') as Htr by (split; [done|by exists c]).
  pose proof (inv_table _ _ _ _ _ _ HI) as HT.
  destruct d; simpl in Htr;
    [apply Bool.not_true_iff_false in Eo; apply Eo | apply Bool.not_true_iff_false in Er; apply Er];
    apply (taken_tracked env ∅ s); eauto.
Qed.

Lemma confirm_inv env live ehold skb s :
  Inv env ∅ ∅ live ehold s →
  Inv env ∅ ∅ live ehold (ip_conntrack_confirm env skb s).2.
Proof.
  intros HI. destruct (nfct skb) as [p|] eqn:Hn; [|unfold ip_conntrack_confirm; by rewrite Hn].
  destruct (cts s !! p) as [ct|] eqn:Hp; [|unfold ip_conntrack_confirm; by rewrite Hn, Hp].
  destruct (is_confirmed ct) eqn:Hcf; [unfold ip_conntrack_confirm; by rewrite Hn, Hp, Hcf|].
  destruct (CTINFO2DIR (nfctinfo skb)) eqn:Hd.
  - pose proof (confirm_cases env live ehold skb p ct s HI Hn Hp Hcf Hd) as H.
    destruct (_ || _); [by rewrite H|]. destruct H as [-> Hfree]. simpl. by apply confirmed_inv.
  - unfold ip_conntrack_confirm, __ip_conntrack_confirm. by rewrite Hn, Hp, Hcf, Hd.
Qed.
