(* ===== verification/CtExpect.v ===== *)
(** * Expectations: registration keeps the list free of clashes

    [ip_conntrack_expect_related] and its helpers of
    [net/ipv4/netfilter/ip_conntrack_core.c]. *)
From S2P Require Import Prelude Packet CtBase TcpTrack CtProtos Conntrack ConntrackInv ConntrackFacts.
From stdpp Require Import gmultiset fin_maps fin_sets.
#[local] Open Scope Z_scope.

(** A change of one expectation that keeps its master. *)
Section UpdExp.
Context (D : gset positive) (ehold ehold' : gmultiset positive) (e : positive)
  (f : ip_conntrack_expect → ip_conntrack_expect) (x : ip_conntrack_expect) (s : ct_state).
Context (HE : exp_wf D ehold s) (Hx : exps s !! e = Some x)
  (Hp : pending (exp_timeout (f x)) = pending (exp_timeout x))
  (Hu : exp_use (f x) - Z.of_nat (multiplicity e ehold') = exp_use x - Z.of_nat (multiplicity e ehold))
  (Hu' : 0 < exp_use (f x))
  (Ho : ∀ i, i ≠ e → multiplicity i ehold' = multiplicity i ehold)
  (Hkey : same_key x (f x)).

Lemma upd_exp_inv : exp_wf D ehold' (upd_exp e f s).
Proof.
  destruct HE as [E1 E2 E3 E4 E5 E6 E7 E8]. pose proof (proj2 (proj2 Hkey)) as Hm.
  split; simpl; try done.
  - intros i Hi. destruct (decide (i = e)) as [->|Hne].
    + rewrite lookup_alter_eq, Hx. simpl. exists (f x). rewrite Hm. split; [done|].
      destruct (E3 e Hi) as (y & Hy & ?). by simplify_eq.
    + rewrite lookup_alter_ne by done. auto.
  - intros i y. destruct (decide (i = e)) as [->|Hne].
    + rewrite lookup_alter_eq, Hx. intros [= <-]. rewrite Hp. auto.
    + rewrite lookup_alter_ne by done. apply E4.
  - intros i y. destruct (decide (i = e)) as [->|Hne].
    + rewrite lookup_alter_eq, Hx. intros [= <-]. destruct (E5 e x Hx). lia.
    + rewrite lookup_alter_ne, Ho by done. apply E5.
  - intros i Hi. rewrite dom_alter. destruct (decide (i = e)) as [->|Hne].
    + apply elem_of_dom. by exists x.
    + apply E6. apply elem_of_multiplicity. apply elem_of_multiplicity in Hi. rewrite <- Ho; done.
  - intros p c Hc. rewrite (E7 p c Hc). do 2 f_equal. apply set_eq. intros i.
    rewrite !elem_of_expected_of. simpl. destruct (decide (i = e)) as [->|Hne].
    + rewrite lookup_alter_eq, Hx. simpl. by rewrite Hm.
    + by rewrite lookup_alter_ne.
  - apply (no_clash_sub s); [done| |done]. intros i y Hi Hy. simpl in Hy.
    destruct (decide (i = e)) as [->|Hne]; [|rewrite lookup_alter_ne in Hy by done; by exists y].
    rewrite lookup_alter_eq, Hx in Hy. injection Hy as <-. by exists x.
Qed.
End UpdExp.

(** ** Allocation *)
Lemma expect_alloc_inv env D ehold me tuple mask fn flags s e s' :
  exp_wf D ehold s →
  ip_conntrack_expect_alloc env me tuple mask fn flags s = (Some e, s') →
  exp_wf D (ehold ⊎ {[+ e +]}) s' ∧ same_lists s s'.
Proof.
  unfold ip_conntrack_expect_alloc. intros [E1 E2 E3 E4 E5 E6 E7 E8].
  destruct (negb _); [done|]. intros [= <- <-].
  set (e := fresh (dom (exps s))). set (x := mk_exp _ _ _ _ _ _ _ _).
  assert (e ∉ dom (exps s)) as Hf by apply is_fresh. assert (exps s !! e = None) as Hn by (by apply not_elem_of_dom).
  split; [|split; try done; [by apply cts_frame_refl|by apply use_eq_refl]].
  assert (e ∉ ip_conntrack_expect_list s) as Hl
    by (intros He; destruct (E3 e He) as (? & ? & _); congruence).
  assert (multiplicity e ehold = 0%nat) as Hmu.
  { destruct (multiplicity e ehold) eqn:E; [done|]. destruct Hf. apply E6, elem_of_multiplicity. lia. }
  split; simpl; try done.
  - intros i Hi. rewrite lookup_insert_ne by (intros <-; done). auto.
  - intros i y. destruct (decide (i = e)) as [->|Hne].
    + rewrite lookup_insert_eq. intros [= <-]. simpl. done.
    + rewrite lookup_insert_ne by done. apply E4.
  - intros i y. rewrite mult_add. destruct (decide (i = e)) as [->|Hne].
    + rewrite lookup_insert_eq. intros [= <-]. rewrite decide_False by done. rewrite Hmu. simpl. lia.
    + rewrite lookup_insert_ne, Z.add_0_r by done. apply E5.
  - intros i Hi. rewrite dom_insert. apply gmultiset_elem_of_disj_union in Hi
      as [Hi| ->%gmultiset_elem_of_singleton]; [|set_solver]. apply elem_of_union_r. auto.
  - intros p c Hc. rewrite (E7 p c Hc). do 2 f_equal. apply set_eq. intros i.
    rewrite !elem_of_expected_of. simpl. destruct (decide (i = e)) as [->|Hne]; [tauto|].
    by rewrite lookup_insert_ne by done.
  - apply (no_clash_sub s); [done| |done]. intros i y Hi Hy. simpl in Hy.
    rewrite lookup_insert_ne in Hy by (intros <-; done). by exists y.
Qed.

(** ** Insertion *)
Lemma expect_insert_inv env D ehold e x h s :
  exp_wf D ehold s → exps s !! e = Some x → e ∉ ip_conntrack_expect_list s →
  master_helper s (exp_master x) = Some h → exp_master x ∉ D →
  Z.of_nat (length (ip_conntrack_expect_list s)) < 4294967295 →
  (∀ i y, i ∈ ip_conntrack_expect_list s → exps s !! i = Some y → expect_clash y x = false) →
  ∃ s', ip_conntrack_expect_insert env e s = Some s' ∧ exp_wf D ehold s' ∧ same_lists s s' ∧
        ip_conntrack_expect_list s' = e :: ip_conntrack_expect_list s ∧
        (∀ i, i ≠ e → exps s' !! i = exps s !! i) ∧
        (∃ x', exps s' !! e = Some x' ∧ exp_tuple x' = exp_tuple x ∧ exp_mask x' = exp_mask x ∧
               exp_master x' = exp_master x) ∧
        (∀ c, cts s !! exp_master x = Some c → ∃ c', cts s' !! exp_master x = Some c' ∧
              expecting c' = expecting c + 1).
Proof.
  intros [E1 E2 E3 E4 E5 E6 E7 E8] Hx Hnl Hh HmD Hlen Hcl.
  unfold ip_conntrack_expect_insert. rewrite Hx. cbn [mbind option_bind]. rewrite Hh. cbn [mbind option_bind].
  eexists. split; [done|]. match goal with |- exp_wf _ _ ?st ∧ _ => set (s' := st) end.
  destruct (cts s !! exp_master x) as [mc|] eqn:Hmc; [|unfold master_helper in Hh; by rewrite Hmc in Hh].
  set (x' := x <| exp_use := exp_use x + 2 |>
               <| exp_timeout := mk_timer true (u32 (jiffies env + h_timeout h * HZ)) |>
               <| exp_id := u32 (ip_conntrack_expect_next_id s + 1) |>).
  assert (exps s' !! e = Some x') as Hxe by (simpl; by rewrite lookup_alter_eq, Hx).
  assert (∀ i, i ≠ e → exps s' !! i = exps s !! i) as Hxo by (intros i Hi; simpl; by rewrite lookup_alter_ne).
  assert (cts_frame s s') as HF.
  { intros q. simpl. destruct (decide (q = exp_master x)) as [->|Hq].
    - rewrite lookup_alter_eq, Hmc. constructor. by split.
    - rewrite lookup_alter_ne by done. by apply cts_frame_refl. }
  assert (size (expected_of s (exp_master x)) ≤ length (ip_conntrack_expect_list s))%nat as Hsz.
  { rewrite <- (size_list_to_set (C := gset positive)) by done. apply subseteq_size. intros i Hi.
    apply elem_of_expected_of in Hi. set_solver. }
  assert (expecting mc < 4294967295) as Hb by (rewrite (E7 _ _ Hmc); lia).
  assert (0 <= expecting mc) as Hb0 by (rewrite (E7 _ _ Hmc); lia).
  split_and!; try done.
  - split; rewrite ?(frame_dom HF).
    + simpl. by apply NoDup_cons.
    + simpl. lia.
    + intros i. change (ip_conntrack_expect_list s') with (e :: ip_conntrack_expect_list s).
      intros [->|Hi]%elem_of_cons; [exists x'|rewrite Hxo by (intros ->; done); auto].
      split_and!; [done| |done]. apply elem_of_dom. by exists mc.
    + intros i y. change (ip_conntrack_expect_list s') with (e :: ip_conntrack_expect_list s).
      destruct (decide (i = e)) as [->|Hne]; [rewrite Hxe; intros [= <-]; set_solver|].
      rewrite Hxo, elem_of_cons by done. intros Hy. rewrite (E4 i y Hy). naive_solver.
    + intros i y. change (ip_conntrack_expect_list s') with (e :: ip_conntrack_expect_list s).
      destruct (decide (i = e)) as [->|Hne].
      * rewrite Hxe. intros [= <-]. rewrite decide_True by set_solver.
        destruct (E5 e x Hx) as [H1 H2]. rewrite decide_False in H1 by done.
        change (exp_use x') with (exp_use x + 2). lia.
      * rewrite Hxo by done. intros Hy. destruct (E5 i y Hy) as [H1 H2]. split; [|done]. rewrite H1. f_equal.
        destruct (decide (i ∈ ip_conntrack_expect_list s)), (decide (i ∈ e :: ip_conntrack_expect_list s)); set_solver.
    + intros i Hi. simpl. rewrite dom_alter. auto.
    + intros q c Hq. destruct (decide (q = exp_master x)) as [->|Hne].
      * simpl in Hq. rewrite lookup_alter_eq, Hmc in Hq. injection Hq as <-. simpl expecting.
        rewrite (E7 _ _ Hmc).
        replace (expected_of s' (exp_master x)) with ({[e]} ∪ expected_of s (exp_master x)).
        -- rewrite size_union, size_singleton; [word_lia|]. apply disjoint_singleton_l.
           rewrite elem_of_expected_of. tauto.
        -- apply set_eq. intros i. rewrite elem_of_union, elem_of_singleton, !elem_of_expected_of.
           change (ip_conntrack_expect_list s') with (e :: ip_conntrack_expect_list s).
           destruct (decide (i = e)) as [->|Hi]; [rewrite Hxe; set_solver|]. rewrite Hxo by done. set_solver.
      * simpl in Hq. rewrite lookup_alter_ne in Hq by done. rewrite (E7 q c Hq). do 2 f_equal.
        apply set_eq. intros i. rewrite !elem_of_expected_of.
        change (ip_conntrack_expect_list s') with (e :: ip_conntrack_expect_list s).
        destruct (decide (i = e)) as [->|Hi]; [rewrite Hxe, Hx; simpl; set_solver|]. rewrite Hxo by done. set_solver.
    + assert (∀ i y, i ∈ ip_conntrack_expect_list s → exps s !! i = Some y → expect_clash y x' = false) as Hcl'
        by (intros i y Hi Hy; rewrite (clash_key y y x x') by done; eauto).
      intros i j y z. change (ip_conntrack_expect_list s') with (e :: ip_conntrack_expect_list s).
      intros [->|Hi]%elem_of_cons [->|Hj]%elem_of_cons Hne Hy Hz; [done|..].
      * rewrite Hxe in Hy. rewrite Hxo in Hz by done. simplify_eq. rewrite expect_clash_sym. eauto.
      * rewrite Hxe in Hz. rewrite Hxo in Hy by done. simplify_eq. eauto.
      * rewrite Hxo in Hy, Hz by (intros ->; done). by eapply (E8 i j).
  - split; try done. intros q c c' Hc. simpl. destruct (decide (q = exp_master x)) as [->|Hq].
    + rewrite lookup_alter_eq, Hc. by intros [= <-].
    + rewrite lookup_alter_ne by done. congruence.
  - by exists x'.
  - intros c [= <-]. simpl. rewrite lookup_alter_eq, Hmc. eexists. split; [done|]. simpl. word_lia.
Qed.

(** ** Refreshing and scanning *)

(** Refreshing a pending timer. *)
Lemma refresh_timer_inv env D ehold i x h s :
  exp_wf D ehold s → i ∈ ip_conntrack_expect_list s → exps s !! i = Some x →
  master_helper s (exp_master x) = Some h →
  ∃ s', refresh_timer env i s = Some (true, s') ∧ exp_wf D ehold s' ∧ same_lists s s' ∧
    cts s' = cts s ∧ helper_tab s' = helper_tab s ∧
    ip_conntrack_expect_list s' = ip_conntrack_expect_list s ∧
    (∀ j, j ≠ i → exps s' !! j = exps s !! j) ∧
    (∃ x', exps s' !! i = Some x' ∧ same_key x x').
Proof.
  intros HE Hi Hx Hh. unfold refresh_timer. rewrite Hx. cbn [mbind option_bind].
  assert (pending (exp_timeout x) = true) as Hp by (by apply (ew_timer _ _ _ HE i x Hx)).
  unfold exp_del_timer. rewrite Hx, Hp. cbn [negb].
  change (master_helper (upd_exp i ?f s)) with (master_helper s). rewrite Hh. cbn [mbind option_bind].
  eexists. split; [done|].
  set (g := λ x : ip_conntrack_expect, x <| exp_timeout := mk_timer true (u32 (jiffies env + h_timeout h * HZ)) |>).
  assert (upd_exp i g (upd_exp i (λ x, x <| exp_timeout := (exp_timeout x) <| pending := false |> |>) s)
          = upd_exp i g s) as ->.
  { unfold upd_exp, update, upd_exps. simpl. f_equal. apply map_eq. intros j.
    destruct (decide (j = i)) as [->|Hj]; [|by rewrite !lookup_alter_ne].
    rewrite !lookup_alter_eq. by destruct (exps s !! i). }
  split_and!; try done.
  - apply (upd_exp_inv D ehold ehold i g x s); try done. apply (ew_use _ _ _ HE i x Hx).
  - split; try done; [by apply cts_frame_refl|by apply use_eq_refl].
  - intros j Hj. simpl. by rewrite lookup_alter_ne.
  - exists (g x). simpl. by rewrite lookup_alter_eq, Hx.
Qed.

(** The scan: it finds a listed expectation that the new one matches (and
    refreshes it), or one it clashes with, or neither. *)
Lemma expect_scan_inv env D ehold expect h l : ∀ s,
  exp_wf D ehold s → (∀ i, i ∈ l → i ∈ ip_conntrack_expect_list s) →
  master_helper s (exp_master expect) = Some h →
  ∃ out s', expect_scan env l expect s = Some (out, s') ∧ exp_wf D ehold s' ∧ same_lists s s' ∧
    cts s' = cts s ∧ helper_tab s' = helper_tab s ∧
    ip_conntrack_expect_list s' = ip_conntrack_expect_list s ∧
    (∀ j y', exps s' !! j = Some y' → ∃ y, exps s !! j = Some y ∧ same_key y y') ∧
    match out with
    | None => s' = s ∧ ∀ i x, i ∈ l → exps s !! i = Some x →
                expect_matches x expect = false ∧ expect_clash x expect = false
    | Some ret => ret = 0 ∧ (∃ i x, i ∈ l ∧ exps s' !! i = Some x ∧ expect_matches x expect = true)
               ∨ ret = - EBUSY ∧ s' = s ∧ ∃ i x, i ∈ l ∧ exps s !! i = Some x ∧ expect_clash x expect = true
    end.
Proof.
  induction l as [|i l IH]; intros s HE Hl Hh; cbn [expect_scan].
  { exists None, s. split_and!; try done; [intros; eexists; by split|].
    by intros i x []%elem_of_nil. }
  destruct (ew_listed _ _ _ HE i) as (x & Hx & _); [apply Hl; set_solver|].
  rewrite Hx. cbn [mbind option_bind].
  destruct (expect_matches x expect) eqn:Em.
  - assert (exp_master x = exp_master expect) as Hme.
    { unfold expect_matches in Em. rewrite !andb_true_iff, bool_decide_eq_true in Em. tauto. }
    destruct (refresh_timer_inv env D ehold i x h s) as (s' & -> & HE' & HS & Hc & Hht & Hll & Ho & x' & Hx' & Hk);
      [done|apply Hl; set_solver|done|by rewrite Hme|]. cbn [mbind option_bind].
    exists (Some 0), s'. split_and!; try done.
    + intros j y' Hy'. destruct (decide (j = i)) as [->|Hj]; [simplify_eq; by exists x|].
      rewrite Ho in Hy' by done. by exists y'.
    + left. split; [done|]. exists i, x'. split_and!; [set_solver|done|]. by rewrite (matches_key _ _ _ Hk).
  - destruct (expect_clash x expect) eqn:Ec.
    + exists (Some (- EBUSY)), s. split_and!; try done; [intros; eexists; by split|].
      right. split_and!; try done. exists i, x. set_solver.
    + destruct (IH s HE) as (out & s' & Hs & HE' & HS & Hc & Hht & Hll & Hk & Hout); [set_solver|done|].
      exists out, s'. split_and!; try done. destruct out as [ret|].
      * destruct Hout as [(? & j & y & ? & ?)|(? & ? & j & y & ? & ?)]; [left|right]; split_and!; try done;
          exists j, y; set_solver.
      * destruct Hout as [? Hall]. split; [done|]. intros j y [->|Hj]%elem_of_cons Hy; [by simplify_eq|eauto].
Qed.

Lemma evict_inv D ehold m s :
  exp_wf D ehold s →
  let s' := evict_oldest_expect m s in
  exp_wf D ehold s' ∧ same_lists s s' ∧ helper_tab s' = helper_tab s ∧
  (∀ i, i ∈ ip_conntrack_expect_list s' → i ∈ ip_conntrack_expect_list s ∧ exps s' !! i = exps s !! i) ∧
  (length (ip_conntrack_expect_list s') ≤ length (ip_conntrack_expect_list s))%nat ∧
  (∀ q c, cts s !! q = Some c → ∃ c', cts s' !! q = Some c' ∧ ct_helper c' = ct_helper c) ∧
  (∀ c, cts s !! m = Some c → 0 < expecting c → ∃ c', cts s' !! m = Some c' ∧ expecting c' < expecting c).
Proof.
  intros HE. unfold evict_oldest_expect. destruct (list_find _ _) as [[k i]|] eqn:E; simpl.
  - apply list_find_Some in E as (Hl & Hmas & _). apply list_elem_of_lookup_2 in Hl. rewrite elem_of_reverse in Hl.
    destruct (drop_expectation_inv D ehold i s HE Hl) as (HE' & HS & HL & HX).
    destruct (unlink_expect_inv D ehold i s HE Hl) as (Hwas & HEu & _ & _ & _ & _ & Hht & _ & Hcts).
    assert (cts (drop_expectation i s) = cts (unlinked i s) ∧
            helper_tab (drop_expectation i s) = helper_tab s) as [Hc Hht'].
    { unfold drop_expectation. unfold unlinked in *. destruct (exp_del_timer i s) as [was s1]. simpl in *.
      subst was. unfold ip_conntrack_expect_put. destruct (exps (ip_ct_unlink_expect i s1) !! i); [|done].
      simpl. by destruct (_ =? 0). }
    destruct (exps s !! i) as [x|] eqn:Hx; [|done]. simpl in Hmas. injection Hmas as Hmas.
    unfold exp_master_of in Hcts. rewrite Hx in Hcts. simpl in Hcts. rewrite Hmas in Hcts.
    split_and!; try done.
    + intros j Hj. rewrite HL, list_elem_of_filter in Hj. destruct Hj. split; [done|]. by apply HX.
    + rewrite HL. apply length_filter.
    + intros q c Hq. rewrite Hc, Hcts. destruct (decide (q = m)) as [->|Hne].
      * rewrite lookup_alter_eq, Hq. simpl. by eexists.
      * rewrite lookup_alter_ne by done. by exists c.
    + intros c Hm Hpos. rewrite Hc, Hcts, lookup_alter_eq, Hm. eexists. split; [done|]. simpl. word_lia.
  - split_and!; try done; [eauto|]. intros c Hm Hpos. exfalso.
    rewrite (ew_count _ _ _ HE m c Hm) in Hpos.
    destruct (decide (expected_of s m = ∅)) as [Hem|Hem]; [rewrite Hem, size_empty in Hpos; lia|].
    apply set_choose_L in Hem as [e He]. apply elem_of_expected_of in He as [He1 He2].
    apply list_find_None in E. rewrite Forall_forall in E. apply (E e); [|done]. by rewrite elem_of_reverse.
Qed.

(** [ip_conntrack_expect_related] makes room for the new expectation. *)
Definition make_room (h : ip_conntrack_helper) (m : ip_conntrack) (p : positive) (s : ct_state)
    : ct_state :=
  if negb (max_expected h =? 0) && (max_expected h <=? expecting m)
  then evict_oldest_expect p s else s.

Lemma make_room_inv ehold e expect h m s :
  exp_wf ∅ ehold s → exps s !! e = Some expect → e ∉ ip_conntrack_expect_list s →
  cts s !! exp_master expect = Some m → master_helper s (exp_master expect) = Some h →
  let s2 := make_room h m (exp_master expect) s in
  exp_wf ∅ ehold s2 ∧ same_lists s s2 ∧ exps s2 !! e = Some expect ∧
  (∀ i, i ∈ ip_conntrack_expect_list s2 → i ∈ ip_conntrack_expect_list s ∧ exps s2 !! i = exps s !! i) ∧
  (length (ip_conntrack_expect_list s2) ≤ length (ip_conntrack_expect_list s))%nat ∧
  master_helper s2 (exp_master expect) = Some h ∧
  (0 < max_expected h → ∃ m2, cts s2 !! exp_master expect = Some m2 ∧
     expecting m2 + 1 <= Z.max (expecting m) (max_expected h)).
Proof.
  intros HE Hx Hel Hm Hh. unfold make_room.
  destruct (evict_inv ∅ ehold (exp_master expect) s HE) as (Ev1 & Ev2 & Ev3 & Ev4 & Ev5 & Ev6 & Ev7).
  destruct (max_expected h =? 0) eqn:E0; simpl; [split_and!; try done; lia|].
  destruct (Z.leb_spec (max_expected h) (expecting m)).
  - split_and!; try done.
    + unfold evict_oldest_expect. destruct (list_find _ _) as [[k i]|] eqn:El; [|done].
      apply list_find_Some in El as (Hli & _). apply list_elem_of_lookup_2 in Hli.
      rewrite elem_of_reverse in Hli.
      destruct (drop_expectation_inv ∅ ehold i s HE Hli) as (_ & _ & _ & HX).
      rewrite HX; [done|]. by intros ->.
    + unfold master_helper. destruct (Ev6 _ _ Hm) as (m' & -> & Hhm). cbn [mbind option_bind].
      rewrite Hhm, Ev3. unfold master_helper in Hh. by rewrite Hm in Hh.
    + intros Hpos. destruct (Ev7 _ Hm) as (m' & Hm' & Hlt); [lia|]. exists m'. split; [done|lia].
  - split_and!; try done. intros _. exists m. split; [done|lia].
Qed.

(** [ip_conntrack_expect_related] on a consistent state. *)
Lemma expect_related_full env live ehold e expect h m s :
  Inv env ∅ ∅ live ehold s →
  exps s !! e = Some expect → cts s !! exp_master expect = Some m →
  master_helper s (exp_master expect) = Some h →
  Z.of_nat (length (ip_conntrack_expect_list s)) < 4294967295 →
  ∃ ret s', ip_conntrack_expect_related env e s = Some (ret, s') ∧
    Inv env ∅ ∅ live ehold s' ∧
    (ret = 0 ∧ (∃ i x, i ∈ ip_conntrack_expect_list s' ∧ exps s' !! i = Some x ∧
                       expect_matches x expect = true)
     ∨ ret = - EBUSY ∧ s' = s ∧
       ∃ i x, i ∈ ip_conntrack_expect_list s ∧ exps s !! i = Some x ∧ expect_clash x expect = true) ∧
    (0 < max_expected h → ∃ m', cts s' !! exp_master expect = Some m' ∧
       expecting m' <= Z.max (expecting m) (max_expected h)) ∧
    cts_frame s s'.
Proof.
  intros HI Hx Hm Hh Hlen. pose proof (inv_exp _ _ _ _ _ _ HI) as HE.
  unfold ip_conntrack_expect_related. rewrite Hx. cbn [mbind option_bind].
  destruct (expect_scan_inv env ∅ ehold expect h (ip_conntrack_expect_list s) s)
    as (out & s1 & -> & HE1 & HS1 & Hc1 & Ht1 & Hl1 & Hk1 & Hout); [done..|]. cbn [mbind option_bind].
  destruct out as [ret|].
  { exists ret, s1. split_and!; [done|by apply (same_lists_Inv _ _ _ _ _ s)| | |].
    - destruct Hout as [(-> & i & x & ?)|(-> & -> & i & x & ?)]; [left|right]; [|by eauto].
      split; [done|]. exists i, x. by rewrite Hl1.
    - intros _. rewrite Hc1. exists m. split; [done|lia].
    - apply HS1. }
  destruct Hout as [-> Hall]. clear HE1 HS1 Hc1 Ht1 Hl1 Hk1. rewrite Hm, Hh. cbn [mbind option_bind].
  assert (e ∉ ip_conntrack_expect_list s) as Hel.
  { intros Hin. destruct (Hall e expect Hin Hx) as [Hf _]. unfold expect_matches in Hf.
    by rewrite bool_decide_true, !tuple_equal_refl in Hf. }
  fold (make_room h m (exp_master expect) s).
  destruct (make_room_inv ehold e expect h m s) as (HE2 & HS2 & Hx2 & Hl2 & Hlen2 & Hh2 & Hx22); [done..|].
  set (s2 := make_room h m (exp_master expect) s) in *. clearbody s2.
  destruct (expect_insert_inv env ∅ ehold e expect h s2)
    as (s3 & -> & HE3 & HS3 & Hl3 & Ho3 & (x3 & Hx3 & Hk3) & Hc3); [done..| |done|set_solver|lia| |].
  { intros Hin. by destruct (Hl2 e Hin). }
  { intros i y Hi Hy. destruct (Hl2 i Hi) as [Hi' Heq]. rewrite Heq in Hy. by apply (Hall i y). }
  cbn [mbind option_bind]. exists 0, s3. assert (same_lists s s3) as HS by (by transitivity s2). split_and!; [done| | | |].
  - by apply (same_lists_Inv _ _ _ _ _ s).
  - left. split; [done|]. exists e, x3. split_and!; [rewrite Hl3; set_solver|done|].
    rewrite (matches_key _ _ _ Hk3). unfold expect_matches. by rewrite bool_decide_true, !tuple_equal_refl.
  - intros Hpos. destruct (Hx22 Hpos) as (m2 & Hm2 & Hle). destruct (Hc3 m2 Hm2) as (m3 & Hm3 & Heq).
    exists m3. split; [done|lia].
  - apply HS.
Qed.

Lemma expect_related_inv env live ehold e expect h m s :
  Inv env ∅ ∅ live ehold s →
  exps s !! e = Some expect → cts s !! exp_master expect = Some m →
  master_helper s (exp_master expect) = Some h →
  Z.of_nat (length (ip_conntrack_expect_list s)) < 4294967295 →
  ∃ ret s', ip_conntrack_expect_related env e s = Some (ret, s') ∧
    Inv env ∅ ∅ live ehold s' ∧
    (ret = 0 ∧ (∃ i x, i ∈ ip_conntrack_expect_list s' ∧ exps s' !! i = Some x ∧
                       expect_matches x expect = true)
     ∨ ret = - EBUSY ∧ s' = s ∧
       ∃ i x, i ∈ ip_conntrack_expect_list s ∧ exps s !! i = Some x ∧ expect_clash x expect = true) ∧
    (0 < max_expected h → ∃ m', cts s' !! exp_master expect = Some m' ∧
       expecting m' <= Z.max (expecting m) (max_expected h)).
Proof.
  intros HI Hx Hm Hh Hlen. destruct (expect_related_full env live ehold e expect h m s HI Hx Hm Hh Hlen)
    as (ret & s' & H1 & H2 & H3 & H4 & _).
  by exists ret, s'.
Qed.

(** *** Which of the four ways *)

Definition fresh_timer (env : ct_env) (h : ip_conntrack_helper) : timer :=
  mk_timer true (u32 (jiffies env + h_timeout h * HZ)).

(** The expectations in [l] neither match the new one nor clash with it. *)
Definition unrelated (s : ct_state) (expect : ip_conntrack_expect) (l : list positive) : Prop :=
  ∀ j y, j ∈ l → exps s !! j = Some y → expect_matches y expect = false ∧ expect_clash y expect = false.

(** The limit of the helper is reached. *)
Definition at_limit (h : ip_conntrack_helper) (m : ip_conntrack) : bool :=
  negb (max_expected h =? 0) && (max_expected h <=? expecting m).

(** [o] is the oldest expectation of master [p]: new ones come first in the list. *)
Definition oldest (s : ct_state) (p : positive) (pre : list positive) (o : positive)
    (suf : list positive) : Prop :=
  ip_conntrack_expect_list s = pre ++ o :: suf ∧ exp_master <$> exps s !! o = Some p ∧
  ∀ j, j ∈ suf → exp_master <$> exps s !! j ≠ Some p.

(** The new expectation [e] is listed in front of [l] with a fresh timer; those in [l] are
    as they were. *)
Definition listed (env : ct_env) (h : ip_conntrack_helper) (e : positive) (l : list positive)
    (s s' : ct_state) : Prop :=
  ip_conntrack_expect_list s' = e :: l ∧
  exp_timeout <$> exps s' !! e = Some (fresh_timer env h) ∧
  ∀ j, j ∈ l → exps s' !! j = exps s !! j.

(** The first listed expectation that matches the new one has its timer refreshed, and
    nothing else changes; or the first that clashes has nothing changed; or there are
    neither and the new one is listed, in place of the oldest of its master when the limit
    is reached. *)
Inductive related_outcome (env : ct_env) (e : positive) (expect : ip_conntrack_expect)
    (h : ip_conntrack_helper) (m : ip_conntrack) (s : ct_state) : Z → ct_state → Prop :=
  | related_refresh pre i x suf :
      ip_conntrack_expect_list s = pre ++ i :: suf → unrelated s expect pre →
      exps s !! i = Some x → expect_matches x expect = true →
      related_outcome env e expect h m s 0
        (upd_exp i (λ x, x <| exp_timeout := fresh_timer env h |>) s)
  | related_busy pre i x suf :
      ip_conntrack_expect_list s = pre ++ i :: suf → unrelated s expect pre →
      exps s !! i = Some x → expect_matches x expect = false → expect_clash x expect = true →
      related_outcome env e expect h m s (- EBUSY) s
  | related_listed s' :
      unrelated s expect (ip_conntrack_expect_list s) → at_limit h m = false →
      listed env h e (ip_conntrack_expect_list s) s s' →
      related_outcome env e expect h m s 0 s'
  | related_evicts pre o suf s' :
      unrelated s expect (ip_conntrack_expect_list s) → at_limit h m = true →
      oldest s (exp_master expect) pre o suf → listed env h e (pre ++ suf) s s' →
      related_outcome env e expect h m s 0 s'.

Lemma refresh_timer_eq env D ehold i x h s :
  exp_wf D ehold s → i ∈ ip_conntrack_expect_list s → exps s !! i = Some x →
  master_helper s (exp_master x) = Some h →
  refresh_timer env i s = Some (true, upd_exp i (λ x, x <| exp_timeout := fresh_timer env h |>) s).
Proof.
  intros HE Hi Hx Hh. unfold refresh_timer. rewrite Hx. cbn [mbind option_bind].
  assert (pending (exp_timeout x) = true) as Hp by (by apply (ew_timer _ _ _ HE i x Hx)).
  unfold exp_del_timer. rewrite Hx, Hp. cbn [negb].
  change (master_helper (upd_exp i ?f s)) with (master_helper s). rewrite Hh. cbn [mbind option_bind].
  do 2 f_equal. unfold upd_exp, update, upd_exps. simpl. f_equal. apply map_eq. intros j.
  destruct (decide (j = i)) as [->|Hj]; [|by rewrite !lookup_alter_ne].
  rewrite !lookup_alter_eq. by destruct (exps s !! i).
Qed.

Lemma expect_scan_eq env D ehold expect h s : exp_wf D ehold s →
  master_helper s (exp_master expect) = Some h →
  ∀ l pre, ip_conntrack_expect_list s = pre ++ l → unrelated s expect pre →
  ∃ out s', expect_scan env l expect s = Some (out, s') ∧
    match out with
    | None => s' = s ∧ unrelated s expect (pre ++ l)
    | Some ret => ∀ e m, related_outcome env e expect h m s ret s'
    end.
Proof.
  intros HE Hh. induction l as [|i l IH]; intros pre Hl Hpre; cbn [expect_scan].
  { exists None, s. by rewrite app_nil_r. }
  destruct (ew_listed _ _ _ HE i) as (x & Hx & _); [rewrite Hl; set_solver|].
  rewrite Hx. cbn [mbind option_bind]. destruct (expect_matches x expect) eqn:Em.
  - assert (exp_master x = exp_master expect) as Hme.
    { unfold expect_matches in Em. rewrite !andb_true_iff, bool_decide_eq_true in Em. tauto. }
    rewrite (refresh_timer_eq env D ehold i x h s) by (first [done|rewrite Hl; set_solver|by rewrite Hme]).
    cbn [mbind option_bind]. eexists _, _. split; [done|]. intros e m. by eapply related_refresh.
  - destruct (expect_clash x expect) eqn:Ec.
    + eexists _, _. split; [done|]. intros e m. by eapply related_busy.
    + replace (pre ++ i :: l) with ((pre ++ [i]) ++ l) in * by (by rewrite <- app_assoc).
      apply IH; [done|]. intros j y [Hj| ->%list_elem_of_singleton]%elem_of_app Hy; [by eapply Hpre|by simplify_eq].
Qed.

(** What [evict_oldest_expect] removes. *)
Lemma evict_oldest ehold p c s : exp_wf ∅ ehold s → cts s !! p = Some c → 0 < expecting c →
  ∃ pre o suf, oldest s p pre o suf ∧ evict_oldest_expect p s = drop_expectation o s ∧
    ip_conntrack_expect_list (drop_expectation o s) = pre ++ suf ∧
    ∀ j, j ∈ pre ++ suf → exps (drop_expectation o s) !! j = exps s !! j.
Proof.
  intros HE Hc Hpos. unfold evict_oldest_expect. destruct (list_find _ _) as [[k o]|] eqn:E.
  - apply list_find_Some in E as (Hk & Hm & Hlt).
    assert (o ∈ ip_conntrack_expect_list s) as Ho by (by apply elem_of_reverse, list_elem_of_lookup_2 with k).
    assert (reverse (ip_conntrack_expect_list s) = take k (reverse (ip_conntrack_expect_list s))
              ++ o :: drop (S k) (reverse (ip_conntrack_expect_list s))) as Hr by (symmetry; by apply take_drop_middle).
    set (a := take k _) in Hr. set (z := drop (S k) _) in Hr.
    assert (ip_conntrack_expect_list s = reverse z ++ o :: reverse a) as Hl.
    { rewrite <- (reverse_involutive (ip_conntrack_expect_list s)), Hr, reverse_app, reverse_cons, <- app_assoc. done. }
    destruct (drop_expectation_inv ∅ ehold o s HE Ho) as (_ & _ & HL & HX).
    pose proof (ew_nodup _ _ _ HE) as Hnd. rewrite Hl in Hnd. apply NoDup_app in Hnd as (Hnz & Hdis & Hna).
    apply NoDup_cons in Hna as [Hoa Hna].
    assert (o ∉ reverse z ++ reverse a) as Hout by (rewrite elem_of_app; intros [H|H]; [apply (Hdis o H); set_solver|done]).
    exists (reverse z), o, (reverse a).
    split; [split; [done|split; [done|]]|split; [done|split]].
    + intros j Hj. rewrite elem_of_reverse in Hj. apply list_elem_of_lookup in Hj as [n Hn]. unfold a in Hn.
      assert (n < k)%nat by (apply lookup_lt_Some in Hn; rewrite length_take in Hn; lia).
      rewrite lookup_take_lt in Hn by done. by apply (Hlt n j Hn).
    + rewrite HL, Hl, filter_app, filter_cons_False by (intros H; by apply H).
      assert (∀ l : list positive, o ∉ l → filter (λ i : positive, i ≠ o) l = l) as Hid.
      { induction l as [|j l IH]; [done|]. intros [Hj Hn]%not_elem_of_cons. rewrite filter_cons_True by done. by rewrite IH. }
      rewrite elem_of_app in Hout. rewrite !Hid by tauto. done.
    + intros j Hj. apply HX. by intros ->.
  - exfalso. rewrite (ew_count _ _ _ HE p c Hc) in Hpos.
    destruct (decide (expected_of s p = ∅)) as [Hem|Hem]; [rewrite Hem, size_empty in Hpos; lia|].
    apply set_choose_L in Hem as [e He]. apply elem_of_expected_of in He as [He1 He2].
    apply list_find_None in E. rewrite Forall_forall in E. apply (E e); [|done]. by rewrite elem_of_reverse.
Qed.

Lemma expect_insert_listed env e x h s : exps s !! e = Some x → master_helper s (exp_master x) = Some h →
  e ∉ ip_conntrack_expect_list s →
  ∃ s', ip_conntrack_expect_insert env e s = Some s' ∧ listed env h e (ip_conntrack_expect_list s) s s'.
Proof.
  intros Hx Hh Hel. unfold ip_conntrack_expect_insert. rewrite Hx. cbn [mbind option_bind]. rewrite Hh. cbn [mbind option_bind].
  eexists. split; [done|]. split; [done|]. split.
  - simpl. rewrite lookup_alter_eq, Hx. done.
  - intros j Hj. simpl. rewrite lookup_alter_ne; [done|]. by intros <-.
Qed.

Lemma expect_related_cases env live ehold e expect h m s ret s' :
  Inv env ∅ ∅ live ehold s → 0 <= max_expected h →
  exps s !! e = Some expect → cts s !! exp_master expect = Some m →
  master_helper s (exp_master expect) = Some h →
  ip_conntrack_expect_related env e s = Some (ret, s') → related_outcome env e expect h m s ret s'.
Proof.
  intros HI Hmx Hx Hm Hh. pose proof (inv_exp _ _ _ _ _ _ HI) as HE.
  unfold ip_conntrack_expect_related. rewrite Hx. cbn [mbind option_bind].
  destruct (expect_scan_eq env ∅ ehold expect h s HE Hh (ip_conntrack_expect_list s) [] eq_refl) as (out & s1 & -> & Hout);
    [by intros j y []%elem_of_nil|]. cbn [mbind option_bind].
  destruct out as [r|]; [intros [= <- <-]; apply Hout|]. destruct Hout as [-> Hall]. cbn [app] in Hall.
  rewrite Hm, Hh. cbn [mbind option_bind].
  assert (e ∉ ip_conntrack_expect_list s) as Hel.
  { intros Hin. destruct (Hall e expect Hin Hx) as [Hf _]. unfold expect_matches in Hf.
    by rewrite bool_decide_true, !tuple_equal_refl in Hf. }
  fold (at_limit h m). destruct (at_limit h m) eqn:El.
  - destruct (make_room_inv ehold e expect h m s) as (_ & _ & Hx2 & _ & _ & Hh2 & _); [done..|].
    unfold make_room in *. fold (at_limit h m) in *. rewrite El in *.
    destruct (evict_oldest ehold (exp_master expect) m s) as (pre & o & suf & Ho & Ev & Hl & Hk); [done|done| |].
    { unfold at_limit in El. lia. }
    rewrite Ev in *.
    destruct (expect_insert_listed env e expect h (drop_expectation o s)) as (s2 & -> & Hli & Ht & Hs); [done|done| |].
    { rewrite Hl. intros Hin. apply Hel. destruct Ho as [-> _]. set_solver. }
    cbn [mbind option_bind]. intros [= <- <-]. eapply related_evicts; [done|done|exact Ho|].
    rewrite Hl in Hli, Hs. split; [done|]. split; [done|]. intros j Hj. rewrite Hs by done. by apply Hk.
  - destruct (expect_insert_listed env e expect h s) as (s2 & -> & Hli); [done..|].
    cbn [mbind option_bind]. intros [= <- <-]. by apply related_listed.
Qed.

Lemma unexpect_inv env live ehold exp l : ∀ s,
  Inv env ∅ ∅ live ehold s → (∀ i, i ∈ l → i ∈ ip_conntrack_expect_list s) →
  Inv env ∅ ∅ live ehold (unexpect_loop l exp s).
Proof.
  induction l as [|i l IH]; intros s HI Hl; cbn [unexpect_loop]; [done|].
  assert (∀ j, j ∈ l → j ∈ ip_conntrack_expect_list s) as Hl' by set_solver.
  destruct (exps s !! i) as [x|] eqn:Hx; [|auto]. destruct (expect_matches x exp); [|auto].
  assert (i ∈ ip_conntrack_expect_list s) as Hi by set_solver.
  destruct (drop_expectation_inv ∅ ehold i s (inv_exp _ _ _ _ _ _ HI) Hi) as (HE & HS & HL & HX).
  destruct (unlink_expect_inv ∅ ehold i s (inv_exp _ _ _ _ _ _ HI) Hi) as (Hwas & _).
  unfold drop_expectation in *. destruct (exp_del_timer i s) as [was s1]. simpl in Hwas. subst was.
  by apply (same_lists_Inv _ _ _ _ _ s).
Qed.

(** The timer of an expectation fires. *)
Lemma expectation_timeout_inv env live ehold e s :
  Inv env ∅ ∅ live ehold s → (exp_del_timer e s).1 = true →
  Inv env ∅ ∅ live ehold (expectation_timed_out e (exp_del_timer e s).2).
Proof.
  intros HI Hw. pose proof (inv_exp _ _ _ _ _ _ HI) as HE.
  assert (e ∈ ip_conntrack_expect_list s) as Hin.
  { unfold exp_del_timer in Hw. simpl in Hw. destruct (exps s !! e) as [x|] eqn:Hx; [|done].
    by apply (ew_timer _ _ _ HE e x Hx). }
  destruct (drop_expectation_inv ∅ ehold e s HE Hin) as (HE' & HS & HL & HX).
  unfold drop_expectation, expectation_timed_out in *. destruct (exp_del_timer e s) as [was s1].
  simpl in Hw. subst was. by apply (same_lists_Inv _ _ _ _ _ s).
Qed.
