(* ===== verification/CtSteps.v ===== *)
(** * The connection tracker as a transition system

    One step is one operation of the tracker; between steps the references held
    outside the tracker (by socket buffers and by helpers) are explicit.  Every
    state reachable from the empty tracker satisfies [ConntrackInv.Inv]. *)
From S2P Require Import Prelude Packet CtBase TcpTrack CtProtos Conntrack ConntrackInv ConntrackFacts CtExpect.
From stdpp Require Import gmultiset fin_maps fin_sets relations.
#[local] Open Scope Z_scope.

(** ** The remaining operations *)
Lemma alter_reply_frame p newreply s :
  dst_dir newreply = IP_CT_DIR_REPLY →
  (∀ c, cts s !! p = Some c → dst_dir (tuple_reply c) = IP_CT_DIR_REPLY) →
  setup_frame p s (ip_conntrack_alter_reply p newreply s).
Proof.
  intros Hd Hr. unfold ip_conntrack_alter_reply. split; try done.
  - intros q Hq. simpl. by rewrite lookup_alter_ne.
  - intros c Hc. simpl. rewrite lookup_alter_eq, Hc. simpl. eexists. split; [done|].
    rewrite (Hr c Hc). destruct (_ && _); done.
  - intros h q Hq. by left.
Qed.

Lemma alter_reply_inv env live ehold p newreply c s :
  Inv env ∅ ∅ live ehold s → cts s !! p = Some c → is_confirmed c = false →
  dst_dir newreply = IP_CT_DIR_REPLY →
  Inv env ∅ ∅ live ehold (ip_conntrack_alter_reply p newreply s).
Proof.
  intros HI Hc Hcf Hd. apply (setup_inv _ _ _ _ _ p s); [done| |set_solver|by rewrite Hc; simpl; rewrite Hcf].
  apply alter_reply_frame; [done|]. intros c' Hc'. apply (ow_dirs _ _ _ _ (inv_own _ _ _ _ _ _ HI) p c' Hc').
Qed.

(** A change of the helper lists only. *)
Lemma helpers_inv env D N live ehold s s' :
  cts s' = cts s → ip_conntrack_hash s' = ip_conntrack_hash s → unconfirmed s' = unconfirmed s →
  exps s' = exps s → ip_conntrack_expect_list s' = ip_conntrack_expect_list s →
  ip_conntrack_count s' = ip_conntrack_count s → bysource s' = bysource s →
  Inv env D N live ehold s → Inv env D N live ehold s'.
Proof.
  intros H1 H2 H3 H4 H5 H6 H7 HI. apply (same_lists_Inv _ _ _ _ _ s); [| |done].
  - split; try done; [intros h; unfold chain; by rewrite H2|by apply cts_frame_refl|by apply use_eq_refl].
  - apply (exp_frame _ _ s); [done..|by rewrite H1| |apply HI]. rewrite H1. eauto.
Qed.

Lemma helper_unregister_inv env live ehold h s :
  Inv env ∅ ∅ live ehold s → Inv env ∅ ∅ live ehold (ip_conntrack_helper_unregister h s).
Proof.
  intros HI. unfold ip_conntrack_helper_unregister. cbn zeta.
  set (s1 := s <| helpers := _ |>).
  assert (Inv env ∅ ∅ live ehold s1) as HI1 by (by apply (helpers_inv _ _ _ _ _ s)).
  set (s2 := drop_expectations _ _ s1).
  assert (Inv env ∅ ∅ live ehold s2) as HI2.
  { pose proof (inv_exp _ _ _ _ _ _ HI1) as HE.
    destruct (drop_expectations_inv ∅ ehold
      (λ x, match cts s1 !! exp_master x with
            | Some m => bool_decide (ct_helper m = Some h) | None => false end)
      (ip_conntrack_expect_list s1) s1 HE) as (HE2 & HS2 & _); [apply HE|done|].
    by apply (same_lists_Inv _ _ _ _ _ s1). }
  clearbody s2. generalize (unconfirmed s2 ++ (fst <$> mjoin (snd <$> map_to_list (ip_conntrack_hash s2)))).
  intros l. induction l as [|p l IH]; [done|]. cbn [foldr]. apply Inv_upd; [|done].
  intros c _. unfold unhelp. destruct (bool_decide _); by split_and!; [split|..].
Qed.

(** ** Iterated removal *)
Lemma many_refs env live ehold p k f s :
  Inv env ∅ ∅ live ehold s → p ∈ dom (cts s) → (∀ c, f c = c <| ct_use := ct_use c + Z.of_nat k |>) →
  Inv env ∅ ∅ (live ⊎ k *: {[+ p +]}) ehold (upd_ct p f s).
Proof.
  intros [HT HO HA HE] Hp Hf. split.
  - apply (table_frame _ _ s); try done. apply cts_frame_upd. intros c _. rewrite Hf. by split.
  - apply (own_ref _ _ live _ _ (Z.of_nat k)); try done.
    + intros q. rewrite multiplicity_disj_union, multiplicity_scalar_mul, multiplicity_singleton.
      destruct (decide (q = p)); lia.
    + intros q Hq. apply gmultiset_elem_of_disj_union in Hq as [Hq|Hq]; [by apply HO|].
      apply gmultiset_elem_of_scalar_mul in Hq as [_ ->%gmultiset_elem_of_singleton]. set_solver.
  - intros q c Hq _. simpl in Hq. destruct (decide (q = p)) as [->|Hne].
    + rewrite lookup_alter_eq in Hq. destruct (cts s !! p) as [c0|] eqn:E; [|done].
      injection Hq as <-. rewrite Hf. simpl. pose proof (HA p c0 E ltac:(set_solver)). lia.
    + rewrite lookup_alter_ne in Hq by done. apply (HA q c Hq). set_solver.
  - apply exp_upd; [|done]. intros c _. by rewrite Hf.
Qed.

Lemma drop_refs env live ehold p k f s :
  Inv env ∅ ∅ (live ⊎ k *: {[+ p +]}) ehold s → p ∈ live →
  (∀ c, f c = c <| ct_use := ct_use c - Z.of_nat k |>) →
  Inv env ∅ ∅ live ehold (upd_ct p f s).
Proof.
  intros [HT HO HA HE] Hp Hf.
  assert (own_wf ∅ ∅ live (upd_ct p f s)) as HO'.
  { apply (own_ref _ _ (live ⊎ k *: {[+ p +]}) _ _ (- Z.of_nat k)).
    - done.
    - intros c. rewrite Hf. f_equal.
    - intros q. rewrite multiplicity_disj_union, multiplicity_scalar_mul, multiplicity_singleton.
      destruct (decide (q = p)); lia.
    - intros q Hq. apply HO. apply gmultiset_elem_of_disj_union. by left. }
  split; [|done| |].
  - apply (table_frame _ _ s); try done. apply cts_frame_upd. intros c _. rewrite Hf. by split.
  - intros q c Hq HD. destruct (decide (q = p)) as [->|Hne].
    + rewrite (ow_use _ _ _ _ HO' p c Hq HD). pose proof (proj1 (elem_of_multiplicity p live) Hp).
      unfold table_ref. case_decide; lia.
    + simpl in Hq. rewrite lookup_alter_ne in Hq by done. by apply (HA q c).
  - apply exp_upd; [|done]. intros c _. by rewrite Hf.
Qed.

Lemma cleanup_death_inv env live ehold p s :
  Inv env ∅ ∅ live ehold s → p ∈ live → tabled s (p, IP_CT_DIR_ORIGINAL) →
  (∀ c, cts s !! p = Some c → pending (timeout c) = false) →
  Inv env ∅ ∅ live ehold (cleanup_death env p s).
Proof.
  intros HI1 Hpl Hw Hpe. unfold cleanup_death. cbn zeta.
  destruct (CONFIG_STR9100_SHNAT (c_tcp (cfg env))); [|by apply death_inv].
  destruct (ow_live _ _ _ _ (inv_own _ _ _ _ _ _ HI1) p Hpl) as [Hd _].
  pose proof (many_refs env _ ehold p (Z.to_nat 60000) (λ c, c <| ct_use := ct_use c + 60000 |>) s HI1 Hd) as HI2.
  specialize (HI2 ltac:(intros c; by rewrite Z2Nat.id)).
  set (s2 := upd_ct p _ s) in *.
  assert (Inv env ∅ ∅ (live ⊎ Z.to_nat 60000 *: {[+ p +]}) ehold (death_by_timeout env p s2)) as HI3.
  { apply death_inv; [done|done|]. intros c. simpl. rewrite lookup_alter_eq.
    destruct (cts s !! p) as [c0|] eqn:E; [|done]. intros [= <-]. by apply (Hpe c0). }
  set (s3 := death_by_timeout env p s2) in *. clearbody s3.
  pose proof (drop_refs env _ ehold p (Z.to_nat 60000) (λ c, c <| ct_use := ct_use c - 60000 |>) s3 HI3 Hpl) as HI4.
  specialize (HI4 ltac:(intros c; by rewrite Z2Nat.id)).
  match goal with |- Inv _ _ _ _ _ ?st =>
    assert (st = upd_ct p (λ c, c <| ct_use := ct_use c - 60000 |>) s3) as ->; [|done] end.
  unfold upd_ct, update, upd_cts. f_equal. apply map_eq. intros q.
  destruct (decide (q = p)) as [->|Hq]; [|by rewrite !lookup_alter_ne].
  rewrite !lookup_alter_eq. destruct (cts s3 !! p) as [c|] eqn:Ec; [|done]. simpl. f_equal.
  destruct (Z.eqb_spec (ct_use c - 60000) 0) as [Hz|]; [|done].
  pose proof (inv_alive _ _ _ _ _ _ HI4 p (c <| ct_use := ct_use c - 60000 |>)) as Ha.
  simpl in Ha. rewrite lookup_alter_eq, Ec in Ha. specialize (Ha eq_refl ltac:(set_solver)). lia.
Qed.

(** The state before the last [ip_conntrack_put] of a turn. *)
Lemma cleanup_turn_inv env live ehold p s :
  Inv env ∅ ∅ (live ⊎ {[+ p +]}) ehold s →
  Inv env ∅ ∅ (live ⊎ {[+ p +]}) ehold
    (if (ct_del_timer p s).1 then cleanup_death env p (ct_del_timer p s).2 else (ct_del_timer p s).2).
Proof.
  intros HI. destruct (ct_del_timer_inv _ _ _ _ _ p s HI) as (HI1 & Ht & Hpe & Hw).
  destruct ((ct_del_timer p s).1); [|done].
  apply cleanup_death_inv; [done|multiset_solver|by apply Ht, Hw|done].
Qed.

Lemma cleanup_one_inv env live ehold p s :
  Inv env ∅ ∅ (live ⊎ {[+ p +]}) ehold s → Inv env ∅ ∅ live ehold (cleanup_one env p s).
Proof. intros HI%cleanup_turn_inv. by apply put_inv in HI. Qed.

Lemma corpse_inv env live ehold iter size bucket s :
  Inv env ∅ ∅ live ehold s →
  let '(h, b, s') := get_next_corpse iter size bucket s in
  match h with
  | Some n => Inv env ∅ ∅ (live ⊎ {[+ n.1 +]}) ehold s'
  | None => s' = s
  end.
Proof.
  intros HI. unfold get_next_corpse. cbn zeta.
  set (sel := λ n : node, match cts s !! n.1 with Some c => iter c | None => false end).
  assert (∀ n : node, sel n = true → Inv env ∅ ∅ (live ⊎ {[+ n.1 +]}) ehold (nf_conntrack_get n.1 s)) as Hget.
  { intros n Hn. apply get_inv; [done| |set_solver]. apply elem_of_dom. unfold sel in Hn.
    destruct (cts s !! n.1); [by eexists|done]. }
  set (hit := λ b, snd <$> list_find (λ n, Is_true (sel n)) (chain s (Z.of_nat b))).
  assert (∀ b n, hit b = Some n → sel n = true) as Hhit.
  { intros b n ([i m] & Hf & ->)%fmap_Some. apply list_find_Some in Hf as (_ & Hs & _). simpl.
    by apply Is_true_eq_true. }
  set (hb := match list_find _ _ with Some _ => _ | None => _ end).
  assert (∀ n, hb.1 = Some n → sel n = true) as Hhb.
  { unfold hb. intros n. destruct (list_find _ (seq _ _)) as [[i b]|]; [apply Hhit|done]. }
  clearbody hb. destruct hb as [[n|] b]; [by apply Hget, Hhb|].
  destruct (list_find _ (unconfirmed s)) as [[i q]|] eqn:Eu; simpl; [|done].
  apply (Hget (q, IP_CT_DIR_ORIGINAL)). apply list_find_Some in Eu as (_ & Hs & _). by apply Is_true_eq_true.
Qed.

Lemma iterate_cleanup_inv env live ehold iter fuel : ∀ bucket s s',
  Inv env ∅ ∅ live ehold s →
  ip_ct_iterate_cleanup fuel env iter bucket s = Some s' → Inv env ∅ ∅ live ehold s'.
Proof.
  induction fuel as [|fuel IH]; intros bucket s s' HI; cbn [ip_ct_iterate_cleanup]; [done|].
  pose proof (corpse_inv env live ehold iter (Z.to_nat (ip_conntrack_htable_size env)) bucket s HI) as Hc.
  destruct (get_next_corpse _ _ _ _) as [[[n|] b] s1].
  - apply IH. by apply cleanup_one_inv.
  - intros [= <-]. by subst s1.
Qed.

(** ** Steps *)

(** The tracker's state with the references held outside it. *)
Record sys := mk_sys { st : ct_state; live : gmultiset positive; held : gmultiset positive }.

(** The environments of one run of the system share the table's geometry. *)
Definition same_hash (env env' : ct_env) : Prop :=
  ip_conntrack_htable_size env' = ip_conntrack_htable_size env ∧
  ip_conntrack_hash_rnd env' = ip_conntrack_hash_rnd env.

Lemma Inv_env env env' D N l e s : same_hash env env' → Inv env D N l e s → Inv env' D N l e s.
Proof.
  intros [Hs Hr] [[T1 T2 T3 T4 T5] HO HA HE]. split; [|done..]. split; try done.
  intros h n Hn. destruct (T1 h n Hn) as (c & ? & ? & Hh & ?). exists c. split_and!; try done.
  rewrite <- Hh. unfold hash_conntrack. by rewrite Hs, Hr.
Qed.

Inductive ct_step (env0 : ct_env) : sys → sys → Prop :=
  (** A packet enters the hook. *)
  | step_in env hooknum skb v s s' skb' l e :
      same_hash env0 env → expectfn_ok env → nfct skb = None →
      ip_conntrack_in env hooknum skb s = Some (v, s', skb') →
      ct_step env0 (mk_sys s l e) (mk_sys s' (l ⊎ skb_ref skb') e)
  (** A packet leaves the box: its conntrack is confirmed. *)
  | step_confirm env skb s l e :
      same_hash env0 env →
      ct_step env0 (mk_sys s l e) (mk_sys (ip_conntrack_confirm env skb s).2 l e)
  (** A socket buffer is cloned, or attached to the conntrack of another. *)
  | step_get p s l e :
      p ∈ l → ct_step env0 (mk_sys s l e) (mk_sys (nf_conntrack_get p s) (l ⊎ {[+ p +]}) e)
  (** A socket buffer is freed. *)
  | step_put p s l e :
      ct_step env0 (mk_sys s (l ⊎ {[+ p +]}) e) (mk_sys (nf_conntrack_put p s) l e)
  (** The timer of a conntrack fires. *)
  | step_timeout env p s l e :
      same_hash env0 env → (ct_del_timer p s).1 = true →
      ct_step env0 (mk_sys s l e) (mk_sys (death_by_timeout env p (ct_del_timer p s).2) l e)
  (** NAT changes the reply tuple of a new conntrack. *)
  | step_alter p newreply c s l e :
      cts s !! p = Some c → is_confirmed c = false → dst_dir newreply = IP_CT_DIR_REPLY →
      ct_step env0 (mk_sys s l e) (mk_sys (ip_conntrack_alter_reply p newreply s) l e)
  (** A helper allocates, registers, withdraws and releases expectations. *)
  | step_expect_alloc env me tuple mask fn flags x s s' l e :
      ip_conntrack_expect_alloc env me tuple mask fn flags s = (Some x, s') →
      ct_step env0 (mk_sys s l e) (mk_sys s' l (e ⊎ {[+ x +]}))
  | step_expect_related env i x h ret s s' l e :
      exps s !! i = Some x → is_Some (cts s !! exp_master x) →
      master_helper s (exp_master x) = Some h →
      Z.of_nat (length (ip_conntrack_expect_list s)) < 4294967295 →
      ip_conntrack_expect_related env i s = Some (ret, s') →
      same_hash env0 env →
      ct_step env0 (mk_sys s l e) (mk_sys s' l e)
  | step_unexpect exp s l e :
      ct_step env0 (mk_sys s l e) (mk_sys (ip_conntrack_unexpect_related exp s) l e)
  | step_expect_put i s l e :
      ct_step env0 (mk_sys s l (e ⊎ {[+ i +]})) (mk_sys (ip_conntrack_expect_put i s) l e)
  | step_expect_timeout i s l e :
      (exp_del_timer i s).1 = true →
      ct_step env0 (mk_sys s l e) (mk_sys (expectation_timed_out i (exp_del_timer i s).2) l e)
  (** Helper modules come and go. *)
  | step_helper_register h me s s' l e :
      ip_conntrack_helper_register h me s = Some s' →
      ct_step env0 (mk_sys s l e) (mk_sys s' l e)
  | step_helper_unregister h s l e :
      ct_step env0 (mk_sys s l e) (mk_sys (ip_conntrack_helper_unregister h s) l e)
  (** Conntracks are removed in bulk. *)
  | step_cleanup env iter fuel s s' l e :
      same_hash env0 env → ip_ct_iterate_cleanup fuel env iter 0 s = Some s' →
      ct_step env0 (mk_sys s l e) (mk_sys s' l e).

Definition sys_inv (env : ct_env) (y : sys) : Prop := Inv env ∅ ∅ (live y) (held y) (st y).

Definition ct_empty : ct_state := mk_cs ∅ ∅ [] ∅ [] ∅ [] 0 1 1 ∅.
Definition sys_init : sys := mk_sys ct_empty ∅ ∅.

Lemma sys_init_inv env : sys_inv env sys_init.
Proof.
  assert (∀ n, ¬ tabled ct_empty n) as Ht by (intros n [h Hn]; by apply elem_of_nil in Hn).
  split; [split|split| |split]; simpl; try done.
  - intros h n Hn. exfalso. apply (Ht n). by exists h.
  - intros h. constructor.
  - intros p. split; intros H; by apply Ht in H.
  - constructor.
  - intros p. split; [intros [[]%elem_of_nil|]; set_solver|]. by intros (c & ? & _).
  - intros p Hp. multiset_solver.
  - intros h p []%elem_of_nil.
  - constructor.
  - intros e []%elem_of_nil.
  - intros e He. multiset_solver.
Qed.

Lemma ct_step_inv env0 y y' : ct_step env0 y y' → sys_inv env0 y → sys_inv env0 y'.
Proof.
  unfold sys_inv. intros Hs.
  assert (∀ env s l e s' l' e', same_hash env0 env → (Inv env ∅ ∅ l e s → Inv env ∅ ∅ l' e' s') →
    Inv env0 ∅ ∅ l e s → Inv env0 ∅ ∅ l' e' s') as Henv.
  { intros env s l e s' l' e' Hh Hi HI. apply (Inv_env env); [destruct Hh; by split|].
    apply Hi. by apply (Inv_env env0). }
  destruct Hs; simpl; intros HI.
  - eapply Henv; [done| |done]. intros HI'. by eapply ip_conntrack_in_inv.
  - eapply Henv; [done| |done]. apply confirm_inv.
  - apply get_inv; [done|by apply (ow_live _ _ _ _ (inv_own _ _ _ _ _ _ HI))|set_solver].
  - by apply put_inv.
  - eapply Henv; [done| |done]. intros HI'. by apply timer_fires_inv.
  - by eapply alter_reply_inv.
  - destruct HI as [HT HO HA HE]. destruct (expect_alloc_inv _ _ _ _ _ _ _ _ _ _ _ HE H) as [HE' HS].
    split; [by eapply same_lists_table|by eapply same_lists_own|by eapply same_lists_alive|done].
  - eapply Henv; [done| |done]. intros HI'. destruct H0 as [m Hm].
    destruct (expect_related_inv env l e i x h m s) as (ret' & s'' & Hr & HI'' & _); try done. congruence.
  - apply unexpect_inv; [done|]. intros j. by rewrite elem_of_reverse.
  - destruct (expect_put_inv ∅ e i s (inv_exp _ _ _ _ _ _ HI)) as (HE' & HS & _).
    destruct HI as [HT HO HA HE].
    split; [by eapply same_lists_table|by eapply same_lists_own|by eapply same_lists_alive|done].
  - by apply expectation_timeout_inv.
  - unfold ip_conntrack_helper_register in H. destruct (_ =? 0); [done|]. injection H as <-.
    by apply (helpers_inv _ _ _ _ _ s).
  - by apply helper_unregister_inv.
  - eapply Henv; [done| |done]. intros HI'. by eapply iterate_cleanup_inv.
Qed.
