(* ===== verification/ConntrackSpec.v ===== *)
(** * What the connection tracker guarantees

    The invariant of reachable states, lookup against the abstract table,
    confirmation, classification, eviction, expectations. *)
From S2P Require Import Prelude Packet CtBase TcpTrack TcpTrackFacts CtProtos Conntrack ConntrackInv ConntrackFacts CtExpect CtSteps.
From stdpp Require Import gmultiset fin_maps fin_sets relations.
#[local] Open Scope Z_scope.
#[local] Arguments test_bit : simpl never.

(** C1: no sequence of tracker operations - packets, confirmations, timeouts,
    releases of socket buffers, NAT's changes of reply tuples, registrations and
    removals of expectations and helpers, bulk removal - leads from the empty
    tracker to an inconsistent state: every entry of a hash chain, of the
    unconfirmed list and of the expectation list points to an allocated object,
    lies in the chain of its hash and belongs to one connection only; every
    reference count is the number of its references and positive; every master
    pointer is valid; the counters are exact; no two expectations clash. *)
Theorem ct_reachable_inv env y :
  rtc (ct_step env) sys_init y → sys_inv env y.
Proof.
  intros Hr. assert (sys_inv env sys_init) as HI by apply sys_init_inv. revert HI.
  induction Hr as [y|y y' y'' Hs _ IH]; [done|]. intros HI. apply IH. by eapply ct_step_inv.
Qed.

(** C15: lookup implements the abstract table.  On a consistent state a tuple
    belongs to at most one connection; [__ip_conntrack_find] returns it, with a
    direction in which the connection has that tuple, and returns nothing exactly
    when no connection other than the ignored one has the tuple. *)
Theorem find_refines_table env live ehold t ign s :
  Inv env ∅ ∅ live ehold s →
  (∀ p p' d d', tracked s t p d → tracked s t p' d' → p = p') ∧
  (∀ p d, __ip_conntrack_find env t ign s = Some (p, d) → tracked s t p d ∧ Some p ≠ ign) ∧
  (__ip_conntrack_find env t ign s = None ↔ ∀ p d, tracked s t p d → Some p = ign).
Proof.
  intros HI. pose proof (inv_table _ _ _ _ _ _ HI) as HT. split_and!.
  - intros p p' d d'. by eapply tracked_unique.
  - intros p d Hf. pose proof (find_tracked env ∅ s t ign HT) as H. by rewrite Hf in H.
  - pose proof (find_tracked env ∅ s t ign HT) as H.
    destruct (__ip_conntrack_find env t ign s) as [[p d]|]; [|done].
    split; [done|]. intros Hall. destruct H as [Ht Hi]. by apply Hall in Ht.
Qed.

(** In [s'], [p] is confirmed, its timer runs from now on for the time that was set, the
    table holds a reference to it, and its tuples are as they were; all other connections
    and the expectations are untouched. *)
Definition confirmed_as (env : ct_env) (p : positive) (ct : ip_conntrack) (s s' : ct_state) : Prop :=
  (∃ c, cts s' !! p = Some c ∧ is_confirmed c = true ∧
     timeout c = mk_timer true (u32 (expires (timeout ct) + jiffies env)) ∧
     ct_use c = ct_use ct + 1 ∧ (∀ d, tuplehash c d = tuplehash ct d)) ∧
  (∀ q, q ≠ p → cts s' !! q = cts s !! q) ∧
  exps s' = exps s ∧ ip_conntrack_expect_list s' = ip_conntrack_expect_list s.

(** The two outcomes of a confirmation. *)
Lemma confirm_result env live ehold skb p ct s :
  Inv env ∅ ∅ live ehold s → nfct skb = Some p → cts s !! p = Some ct →
  is_confirmed ct = false → CTINFO2DIR (nfctinfo skb) = IP_CT_DIR_ORIGINAL →
  let '(v, s') := ip_conntrack_confirm env skb s in
  Inv env ∅ ∅ live ehold s' ∧
  ((∃ d q d', tracked s (tuplehash ct d) q d') ∧ v = NF_DROP ∧ s' = s ∨
   (∀ d q d', ¬ tracked s (tuplehash ct d) q d') ∧ v = NF_ACCEPT ∧
   (∀ t q d, tracked s' t q d ↔
      tracked s t q d ∨ q = p ∧ ip_ct_tuple_equal t (tuplehash ct d) = true) ∧
   confirmed_as env p ct s s').
Proof.
  intros HI Hn Hp Hcf Hdir. pose proof (inv_table _ _ _ _ _ _ HI) as HT.
  pose proof (confirm_inv env live ehold skb s HI) as HI'.
  pose proof (confirm_cases env live ehold skb p ct s HI Hn Hp Hcf Hdir) as Hc.
  destruct (_ || _) eqn:E.
  - rewrite Hc in HI' |- *. split; [done|]. left. split_and!; [|done..].
    apply orb_true_iff in E as [(q & d' & H)%(taken_tracked env ∅ s _ HT)|(q & d' & H)%(taken_tracked env ∅ s _ HT)];
      [exists IP_CT_DIR_ORIGINAL|exists IP_CT_DIR_REPLY]; by exists q, d'.
  - destruct Hc as [Hc Hfree]. rewrite Hc in HI' |- *. split; [done|]. right. split_and!; [|done| |].
    + intros d q d' [Ht (c & Hc' & He)]. specialize (Hfree (q, d') (tuplehash c d') d Ht).
      unfold node_tuple in Hfree. simpl in Hfree. rewrite Hc' in Hfree. specialize (Hfree eq_refl). congruence.
    + intros t q d. unfold tracked. rewrite (confirmed_tabled _ live ehold) by done. cbn [fst]. split.
      * intros [Ht (c & Hc' & He)]. destruct (decide (q = p)) as [->|Hq].
        -- right. split; [done|]. rewrite (confirmed_self env p ct s Hp) in Hc'. injection Hc' as <-.
           by destruct d.
        -- left. destruct Ht as [Ht|?]; [|done]. split; [done|]. exists c.
           by rewrite confirmed_other in Hc'.
      * intros [[Ht (c & Hc' & He)]|[-> He]].
        -- split; [by left|]. exists c. rewrite confirmed_other; [done|].
           by apply (unconfirmed_not_tabled env live ehold p ct s HI Hp Hcf (q, d)).
        -- split; [by right|]. exists (confirmed_ct env ct s). rewrite (confirmed_self env p ct s Hp).
           by destruct d.
    + split; [|split; [by apply confirmed_other|done]]. exists (confirmed_ct env ct s).
      split; [by apply confirmed_self|]. split; [apply confirmed_ct_confirmed|]. split; [done|]. split; [done|].
      by intros [].
Qed.

(** C16: confirming the packet that created a conntrack inserts the connection
    into the abstract table under both its tuples and changes no other entry; its timer
    is started, for the time set by its protocol from now on, it is marked as confirmed,
    and all other connections and the expectations stay as they were.  Or, when one of
    the tuples is already taken, nothing changes and the packet is dropped. *)
Theorem confirm_spec env live ehold skb p ct s :
  Inv env ∅ ∅ live ehold s → nfct skb = Some p → cts s !! p = Some ct →
  is_confirmed ct = false → CTINFO2DIR (nfctinfo skb) = IP_CT_DIR_ORIGINAL →
  let '(v, s') := ip_conntrack_confirm env skb s in
  Inv env ∅ ∅ live ehold s' ∧
  ((∃ d q d', tracked s (tuplehash ct d) q d') ∧ v = NF_DROP ∧ s' = s ∨
   (∀ d q d', ¬ tracked s (tuplehash ct d) q d') ∧ v = NF_ACCEPT ∧
   (∀ t q d, tracked s' t q d ↔
      tracked s t q d ∨ q = p ∧ ip_ct_tuple_equal t (tuplehash ct d) = true) ∧
   confirmed_as env p ct s s').
Proof. apply confirm_result. Qed.

(** ** Eviction *)
(** The hardware-NAT module keeps the connection. *)
Definition hook_refuses (env : ct_env) (c : ip_conntrack) : bool :=
  CONFIG_STR9100_SHNAT (c_tcp (cfg env)) && shnat_hook_ready (c_tcp (cfg env))
  && (shnat_remove_hook env c =? -1).

Lemma death_chain env live ehold p s h n :
  Inv env ∅ ∅ live ehold s → tabled s (p, IP_CT_DIR_ORIGINAL) →
  (∀ c, cts s !! p = Some c → pending (timeout c) = false) →
  n ∈ chain (death_by_timeout env p s) h ↔
  n ∈ chain s h ∧ (∀ c, cts s !! p = Some c → hook_refuses env c = false → n.1 ≠ p).
Proof.
  intros HI Ht Hpe. unfold death_by_timeout.
  destruct (tabled_confirmed _ _ _ _ (inv_table _ _ _ _ _ _ HI) Ht) as (c & Hc & _). simpl in Hc.
  rewrite Hc. fold (hook_refuses env c). destruct (hook_refuses env c) eqn:Eh.
  { split; [|tauto]. intros Hn. split; [done|]. intros c' [= <-]. by rewrite Eh. }
  pose proof (untable_inv _ _ _ _ _ _ _ HI Ht Hpe) as HI'.
  destruct (remove_expectations_inv ∅ ehold p (untable p s)) as (HE & HS & _); [apply HI'|by exists c|].
  unfold clean_from_lists. fold (untable p s).
  rewrite (put_chain env live ehold), (sl_hash _ _ HS), elem_of_untable.
  { split; intros [Hn Hne]; (split; [done|]); [by intros ? _|by apply (Hne c)]. }
  by apply (same_lists_Inv _ _ _ _ _ (untable p s)).
Qed.

(** C25: when the table is full, [early_drop] sacrifices only a connection of the
    given chain that is not ASSURED: every other connection stays in the table,
    so do all ASSURED ones, and the state stays consistent.  It reports success
    only if it found such a connection with its timer running. *)
Theorem early_drop_spares_assured env live ehold h s :
  Inv env ∅ ∅ live ehold s →
  let '(dropped, s') := early_drop env (chain s h) s in
  Inv env ∅ ∅ live ehold s' ∧
  (∀ p d c, cts s !! p = Some c → test_bit IPS_ASSURED_BIT c = true →
     tabled s (p, d) → tabled s' (p, d)) ∧
  (dropped = false → ∀ n, tabled s n → tabled s' n) ∧
  (dropped = true → ∃ q c, (∃ d, (q, d) ∈ chain s h) ∧ cts s !! q = Some c ∧
     test_bit IPS_ASSURED_BIT c = false ∧ pending (timeout c) = true ∧
     ∀ n, tabled s n → n.1 ≠ q → tabled s' n).
Proof.
  intros HI. pose proof (early_drop_inv env live ehold h s HI) as HI'. unfold early_drop in *.
  destruct (list_find _ _) as [[i n]|] eqn:E; [|split_and!; done].
  apply list_find_Some in E as (Hn & Hun & _). apply list_elem_of_lookup_2 in Hn. rewrite elem_of_reverse in Hn.
  destruct (chain_dom _ _ _ _ _ (inv_table _ _ _ _ _ _ HI) Hn) as [Hd HD].
  pose proof (get_inv _ _ _ _ _ _ _ HI Hd HD) as HI1. set (s1 := nf_conntrack_get n.1 s) in *.
  destruct (ct_del_timer_inv _ _ _ _ _ n.1 s1 HI1) as (HI2 & Ht2 & Hp2 & Hw).
  assert ((ct_del_timer n.1 s1).1 = true → Inv env ∅ ∅ (live ⊎ {[+ n.1 +]}) ehold
            (death_by_timeout env n.1 (ct_del_timer n.1 s1).2)) as HI3 by (by apply timer_fires_inv).
  assert ((ct_del_timer n.1 s1).1 = match cts s !! n.1 with Some c => pending (timeout c) | None => false end) as Hwas.
  { unfold ct_del_timer. simpl. rewrite lookup_alter_eq. by destruct (cts s !! n.1). }
  destruct (ct_del_timer n.1 s1) as [was s2] eqn:Et. simpl in *.
  assert (∀ m, tabled s m → m.1 ≠ n.1 ∨ was = false →
    tabled (nf_conntrack_put n.1 (if was then death_by_timeout env n.1 s2 else s2)) m) as Hkeep.
  { intros m Hm Hor. apply Ht2 in Hm. destruct was.
    - destruct Hor as [Hne|?]; [|done]. destruct Hm as [k Hm]. exists k.
      rewrite (put_chain env live ehold) by auto. apply (death_chain env (live ⊎ {[+ n.1 +]}) ehold); auto.
      by apply Ht2, Hw.
    - destruct Hm as [k Hm]. exists k. by rewrite (put_chain env live ehold). }
  apply Is_true_eq_true in Hun. unfold unreplied in Hun.
  destruct (cts s !! n.1) as [c|] eqn:Hc; [|done]. apply negb_true_iff in Hun.
  split_and!; [done| | |].
  - intros p d c' Hp Has Ht. apply Hkeep; [done|]. left. simpl. intros ->. congruence.
  - intros -> m Hm. auto.
  - intros ->. exists n.1, c. split_and!; [exists n.2; by destruct n|done|done|by rewrite <- Hwas|]. auto.
Qed.

(** ** Classification *)

(** The state of a packet of a known connection, given the direction it matched. *)
Definition classify (c : ip_conntrack) (d : ip_conntrack_dir) : Z :=
  match d with
  | IP_CT_DIR_REPLY => IP_CT_ESTABLISHED + IP_CT_IS_REPLY
  | IP_CT_DIR_ORIGINAL =>
      if test_bit IPS_SEEN_REPLY_BIT c then IP_CT_ESTABLISHED
      else if test_bit IPS_EXPECTED_BIT c then IP_CT_RELATED else IP_CT_NEW
  end.

(** A conntrack as [init_conntrack] returns it. *)
Definition newly_made (t : ip_conntrack_tuple) (c : ip_conntrack) : Prop :=
  tuple_orig c = t ∧ is_confirmed c = false ∧ test_bit IPS_SEEN_REPLY_BIT c = false ∧
  test_bit IPS_ASSURED_BIT c = false ∧
  test_bit IPS_EXPECTED_BIT c = bool_decide (ct_master c ≠ None).

Lemma expect_put_cts e s : cts (ip_conntrack_expect_put e s) = cts s.
Proof.
  unfold ip_conntrack_expect_put. destruct (exps s !! e); [|done]. simpl. by destruct (_ =? 0).
Qed.

Lemma finish_expected_made env p e y m t ct s :
  expectfn_ok env → cts s !! p = Some ct → exp_master y ≠ p → newly_made t ct →
  ∃ c, cts (finish_expected env p e y m s) !! p = Some c ∧ newly_made t c.
Proof.
  intros Hfn Hp Hne (Ho & Hc & Hs & Ha & He). unfold finish_expected. cbn zeta. rewrite expect_put_cts.
  set (s4 := nf_conntrack_get _ _). set (s5 := s4 <| unconfirmed := p :: unconfirmed s4 |>).
  assert (cts s5 !! p = Some (adopt (exp_master y) m ct)) as Hp5
    by (unfold s5, s4; simpl; by rewrite lookup_alter_ne, lookup_alter_eq, Hp).
  assert (∀ b, 0 <= b → b ≠ 0 → test_bit b (adopt (exp_master y) m ct) = test_bit b ct) as Hb.
  { intros b ? ?. unfold test_bit, adopt. change (Z.testbit (Z.setbit (status ct) 0) b = Z.testbit (status ct) b).
    by apply Z.setbit_neq. }
  assert (newly_made t (adopt (exp_master y) m ct)) as Hmade.
  { split_and!; [done|unfold is_confirmed; by rewrite Hb|by rewrite Hb..|].
    rewrite bool_decide_true by done. unfold test_bit, adopt. by apply Z.setbit_eq. }
  destruct (expectfn y) as [f|]; [|eauto].
  destruct (sf_self _ _ _ (Hfn f p y s5 ltac:(by eexists)) _ Hp5)
    as (c' & Hc' & _ & Hm' & _ & Hbits & _ & Ho' & _).
  exists c'. split; [done|]. destruct Hmade as (M1 & M2 & M3 & M4 & M5).
  split_and!; [by rewrite Ho'|unfold is_confirmed; by rewrite Hbits|by rewrite Hbits..|].
  by rewrite Hbits, Hm'.
Qed.

Lemma init_conntrack_made env live ehold tuple proto skb s p s' :
  expectfn_ok env → Inv env ∅ ∅ live ehold s → dst_dir tuple = IP_CT_DIR_ORIGINAL →
  init_conntrack env tuple proto skb s = Some (CT_OK p, s') →
  ∃ c, cts s' !! p = Some c ∧ newly_made tuple c.
Proof.
  intros Hfn HI Hdir. unfold init_conntrack.
  destruct (ip_ct_invert_tuple tuple proto) as [repl|] eqn:Einv; [|done].
  destruct (ip_ct_invert_tuple_fields _ _ _ Einv) as (_ & _ & _ & Hrdir). rewrite Hdir in Hrdir.
  pose proof (alloc_inv env live ehold tuple repl s HI) as Ha.
  destruct (ip_conntrack_alloc env tuple repl s) as [[q|] s1]; simpl in Ha; [|done].
  destruct Ha as (s0 & HI0 & Hp0 & ->). intros ([ok ct] & Hnew & H)%bind_Some.
  destruct ok; simpl in H; [|done].
  destruct (new_in_place env live ehold tuple repl proto skb q ct s0) as (HI2 & Hp2 & Hcf & Hma); [done..|].
  set (s2 := upd_ct q _ _) in *. clearbody s2.
  destruct (proto_new_same _ _ _ _ _ _ Hnew) as (Hsame & Hst & Hto).
  assert (newly_made tuple ct) as Hmade.
  { split_and!; [by rewrite (cs_orig _ _ Hsame)|done|unfold test_bit; by rewrite Hst..|].
    rewrite Hma, bool_decide_false by tauto. unfold test_bit. by rewrite Hst. }
  destruct (find_expectation_inv ∅ ehold tuple (ip_conntrack_expect_list s2) s2) as [HS3 HR3];
    [apply HI2|done|]. fold (find_expectation tuple s2) in HS3, HR3.
  destruct (find_expectation tuple s2) as [[e|] s3] eqn:Ef; simpl in HS3, HR3, H.
  - destruct HR3 as (_ & _ & y & Hy & Hmd & _ & Hmcf & _ & _ & Hoth). rewrite Hy in H. simpl in H.
    destruct (cts s2 !! exp_master y) as [m2|] eqn:Em2; [|done]. simpl in Hmcf.
    destruct (frame_fwd (sl_cts _ _ HS3) _ _ Em2) as (m3 & Hm3 & _). rewrite Hm3 in H.
    injection H as <- <-.
    assert (exp_master y ≠ q) as Hne by (intros Heq; rewrite Heq in Em2; congruence).
    apply (finish_expected_made env q e y m3 tuple ct); [done| |done..]. by rewrite Hoth.
  - subst s3. injection H as <- <-. simpl. rewrite lookup_alter_eq, Hp2. by eexists.
Qed.

(** C24: a packet is classified by the table.  When the sanity checks of its
    protocol pass and the hook attaches a conntrack to it, that conntrack is the
    one the table has for the packet's tuple, and the packet is ESTABLISHED,
    RELATED or NEW as the connection's status bits and the matched direction
    say; when the table has none, the conntrack is a new, unconfirmed one made
    for the tuple, and the packet is RELATED if an expectation was waiting for it
    and NEW otherwise.  In particular no packet is ESTABLISHED without a
    confirmed connection that has its tuple. *)
Theorem in_classifies env live ehold hooknum skb s v s' skb' p ret s1 skb1 :
  let proto := __ip_conntrack_proto_find (protocol (skb_iph skb)) in
  Inv env ∅ ∅ live ehold s → expectfn_ok env → nfct skb = None →
  proto_error env proto skb hooknum s = (ret, s1, skb1) → 0 < ret →
  ip_conntrack_in env hooknum skb s = Some (v, s', skb') → nfct skb' = Some p →
  ∃ t, ip_ct_get_tuple (skb_iph skb1) skb1 (ihl (skb_iph skb1) * 4) proto = Some t ∧
    match __ip_conntrack_find env t None s with
    | Some (q, d) => p = q ∧ ∃ c, cts s !! q = Some c ∧ is_confirmed c = true ∧
                                  nfctinfo skb' = classify c d
    | None => ∃ s0 c, init_conntrack env t proto skb1 s = Some (CT_OK p, s0) ∧
                cts s0 !! p = Some c ∧ newly_made t c ∧
                nfctinfo skb' = if decide (ct_master c = None) then IP_CT_NEW else IP_CT_RELATED
    end.
Proof.
  intros proto HI Hfn Hn Herr Hpos. unfold ip_conntrack_in. rewrite Hn. cbn zeta.
  destruct (flag (frag_off _) _); [intros [= _ _ <-]; congruence|].
  fold proto. rewrite Herr. assert (s1 = s ∧ nfct skb1 = None) as [-> Hn1].
  { unfold proto_error in Herr. destruct proto; try by injection Herr as <- <- <-.
    pose proof (icmp_error_inv env live ehold skb hooknum s HI Hn) as Hi. rewrite Herr in Hi.
    destruct Hi as [_ Hi]. by destruct (Hi Hpos). }
  destruct (Z.leb_spec ret 0); [lia|].
  intros ([[r s2] k2] & Hres & H')%bind_Some Hp.
  assert (∃ sr ci, r = CT_OK (p, sr, ci) ∧ nfctinfo skb' = ci) as (sr & ci & -> & ->).
  { pose proof (resolve_inv env live ehold _ _ _ _ _ _ Hfn HI Hres) as HR.
    destruct r as [[[q sr] ci]| |]; [|destruct HR as [_ ->]; injection H' as _ _ <-; congruence..].
    destruct HR as (_ & Hk2 & Hci). apply bind_Some in H' as ([ret' s3] & _ & H').
    destruct (ret' <? 0); injection H' as _ _ <-; [done|]. exists sr, ci. split; congruence. }
  clear H'. unfold resolve_normal_ct in Hres.
  destruct (ip_ct_get_tuple _ _ _ _) as [t|] eqn:Et; [|done]. exists t. split; [done|].
  apply get_tuple_dir in Et. unfold ip_conntrack_find_get in Hres.
  pose proof (find_tracked env ∅ s t None (inv_table _ _ _ _ _ _ HI)) as Hf.
  destruct (__ip_conntrack_find env t None s) as [[q d]|] eqn:Efind; simpl in Hres.
  - destruct Hf as [[Ht (c & Hc & _)] _].
    destruct (tabled_confirmed _ _ _ _ (inv_table _ _ _ _ _ _ HI) Ht) as (c' & Hc' & Hcf & _).
    simpl in Hc'. simplify_eq. destruct d; injection Hres as <- _ <- _ _.
    + split; [done|]. exists c. split_and!; [done..|]. rewrite lookup_alter_eq, Hc. done.
    + split; [done|]. by exists c.
  - apply bind_Some in Hres as ([r1 s3] & Hi & Hres).
    apply bind_Some in Hi as ([r2 s4] & Hinit & [= <- <-]).
    destruct r2 as [q| |]; [|done..]. injection Hres as <- _ <- _ _.
    destruct (init_conntrack_made env live ehold _ _ _ _ _ _ Hfn HI Et Hinit) as (c & Hc & Hmade).
    exists s4, c. split_and!; try done. rewrite Hc. destruct Hmade as (_ & _ & -> & _ & ->).
    destruct (decide (ct_master c = None)); [rewrite bool_decide_false by tauto|rewrite bool_decide_true by done]; done.
Qed.

(** C39: [ip_conntrack_expect_related], called for an expectation whose master has
    a helper, always returns, in one of four ways ([related_outcome]).  The first listed
    expectation with the same master, tuple and mask gets a fresh timer, and nothing else
    changes; or a clashing one comes first, nothing changes and the result is [-EBUSY]; or
    there is neither, and the new one is listed with a fresh timer in front of the others,
    which are as they were, but for the oldest of the same master, which is taken off when
    the helper's limit is reached.  Either way the list stays free of clashes and its
    counters exact ([Inv]), and a helper with a limit never gets more pending expectations
    than the limit (or than it had). *)
Theorem expect_related_spec env live ehold e expect h m s :
  Inv env ∅ ∅ live ehold s →
  exps s !! e = Some expect → cts s !! exp_master expect = Some m →
  master_helper s (exp_master expect) = Some h → 0 <= max_expected h →
  Z.of_nat (length (ip_conntrack_expect_list s)) < 4294967295 →
  ∃ ret s', ip_conntrack_expect_related env e s = Some (ret, s') ∧
    Inv env ∅ ∅ live ehold s' ∧ related_outcome env e expect h m s ret s' ∧
    (0 < max_expected h → ∃ m', cts s' !! exp_master expect = Some m' ∧
       expecting m' <= Z.max (expecting m) (max_expected h)).
Proof.
  intros HI He Hm Hh Hmx Hl. destruct (expect_related_inv env live ehold e expect h m s HI He Hm Hh Hl) as (ret & s' & H & HI' & _ & Hlim).
  exists ret, s'. split; [done|]. split; [done|]. split; [|done]. by eapply expect_related_cases.
Qed.

(** ** Concrete runs *)
Definition env0 : ct_env :=
  mk_env (ct_defaults true) 1000 true 4 16 7 (λ _, 0) (λ _ _ _ s, s).

Lemma env0_ok : expectfn_ok env0.
Proof.
  intros f p x s [c Hc]. split; try done.
  - intros c' Hc'. by exists c'.
  - intros h q Hq. by left.
Qed.

Definition udp_pkt (sa da sp dp : Z) : sk_buff :=
  ip_pkt 17 sa da (be16 sp ++ be16 dp ++ be16 8 ++ [0; 0]).

(** A packet goes through the hook; then it leaves and is confirmed. *)
Definition enter (skb : sk_buff) (s : ct_state) : Z * ct_state * sk_buff :=
  default (0, s, skb) (ip_conntrack_in env0 NF_IP_PRE_ROUTING skb s).
Definition leave (r : Z * ct_state * sk_buff) : ct_state :=
  (ip_conntrack_confirm env0 r.2 r.1.2).2.

Definition dns_query := udp_pkt 167772161 134744072 4000 53.
Definition run1 := enter dns_query ct_empty.
Definition state1 := run1.1.2.
Definition state2 := leave run1.

Lemma run1_eq : ip_conntrack_in env0 NF_IP_PRE_ROUTING dns_query ct_empty = Some run1.
Proof. vm_compute. reflexivity. Qed.

Lemma state1_inv : Inv env0 ∅ ∅ (∅ ⊎ skb_ref run1.2) ∅ state1.
Proof.
  apply (ip_conntrack_in_inv env0 ∅ ∅ NF_IP_PRE_ROUTING dns_query ct_empty run1.1.1 state1 run1.2);
    [apply env0_ok|apply (sys_init_inv env0)|reflexivity|].
  rewrite run1_eq. unfold state1. by destruct run1 as [[? ?] ?].
Qed.
Lemma state2_inv : Inv env0 ∅ ∅ (∅ ⊎ skb_ref run1.2) ∅ state2.
Proof. apply confirm_inv, state1_inv. Qed.

(** A connection whose packets equal their own replies (same address and port
    on both sides) counts as replied to after its own second packet: the lookup
    finds the entry of the reply direction, the packet is ESTABLISHED in the
    reply direction and the connection is marked SEEN_REPLY, although the other
    side never sent anything. *)
Lemma self_symmetric_seen_reply :
  let pkt := udp_pkt 167772161 167772161 53 53 in
  let r1 := enter pkt ct_empty in
  let r2 := enter pkt (leave r1) in
  nfctinfo r1.2 = IP_CT_NEW ∧ nfctinfo r2.2 = IP_CT_ESTABLISHED + IP_CT_IS_REPLY ∧
  nfct r2.2 = nfct r1.2 ∧
  test_bit IPS_SEEN_REPLY_BIT <$> cts r2.1.2 !! 1%positive = Some true.
Proof. vm_compute. done. Qed.

(** ** Witnesses *)
Lemma ct_reachable_inv_witness :
  sys_inv env0 (mk_sys state2 (∅ ⊎ skb_ref run1.2) ∅) ∧ ip_conntrack_count state2 = 1.
Proof.
  split; [|vm_compute; reflexivity]. apply ct_reachable_inv.
  eapply rtc_l; [apply (step_in env0 env0 NF_IP_PRE_ROUTING dns_query run1.1.1 ct_empty state1 run1.2)|].
  - by split.
  - apply env0_ok.
  - reflexivity.
  - rewrite run1_eq. unfold state1. by destruct run1 as [[? ?] ?].
  - apply rtc_once. apply (step_confirm env0 env0 run1.2 state1). by split.
Defined.

Definition dns_tuple : ip_conntrack_tuple :=
  mk_tuple (htonl 167772161) (htons 4000) (htonl 134744072) (htons 53) 17 IP_CT_DIR_ORIGINAL.

Lemma find_refines_table_witness :
  __ip_conntrack_find env0 dns_tuple None state2 = Some (1%positive, IP_CT_DIR_ORIGINAL) ∧
  tracked state2 dns_tuple 1%positive IP_CT_DIR_ORIGINAL.
Proof.
  assert (__ip_conntrack_find env0 dns_tuple None state2 = Some (1%positive, IP_CT_DIR_ORIGINAL)) as H
    by (vm_compute; reflexivity).
  split; [exact H|].
  exact (proj1 (proj1 (proj2 (find_refines_table env0 _ _ dns_tuple None state2 state2_inv)) _ _ H)).
Defined.

Lemma confirm_spec_witness :
  ∃ ct, cts state1 !! 1%positive = Some ct ∧ is_confirmed ct = false ∧
  Inv env0 ∅ ∅ (∅ ⊎ skb_ref run1.2) ∅ (ip_conntrack_confirm env0 run1.2 state1).2.
Proof.
  destruct (cts state1 !! 1%positive) as [ct|] eqn:E; [|vm_compute in E; discriminate E].
  exists ct. split; [reflexivity|].
  assert (is_confirmed ct = false) as Hcf by (vm_compute in E; injection E as <-; vm_compute; reflexivity).
  split; [exact Hcf|].
  pose proof (confirm_spec env0 _ _ run1.2 1%positive ct state1 state1_inv
    ltac:(vm_compute; reflexivity) E Hcf ltac:(vm_compute; reflexivity)) as H.
  destruct (ip_conntrack_confirm env0 run1.2 state1) as [v s']. exact (proj1 H).
Defined.

Lemma early_drop_spares_assured_witness :
  Inv env0 ∅ ∅ (∅ ⊎ skb_ref run1.2) ∅
    (early_drop env0 (chain state2 (hash_conntrack env0 dns_tuple)) state2).2.
Proof.
  pose proof (early_drop_spares_assured env0 _ _ (hash_conntrack env0 dns_tuple) state2 state2_inv) as H.
  destruct (early_drop env0 (chain state2 (hash_conntrack env0 dns_tuple)) state2) as [d s'].
  exact (proj1 H).
Defined.

Definition dns_reply := udp_pkt 134744072 167772161 53 4000.
Definition run3 := enter dns_reply state2.

Lemma in_classifies_witness :
  nfctinfo run3.2 = IP_CT_ESTABLISHED + IP_CT_IS_REPLY ∧
  ∃ t, ip_ct_get_tuple (skb_iph dns_reply) dns_reply (ihl (skb_iph dns_reply) * 4) proto_udp_ops = Some t.
Proof.
  split; [vm_compute; reflexivity|].
  assert (ip_conntrack_in env0 NF_IP_PRE_ROUTING dns_reply state2 = Some (run3.1.1, run3.1.2, run3.2)) as E
    by (vm_compute; reflexivity).
  destruct (in_classifies env0 _ _ NF_IP_PRE_ROUTING dns_reply state2 _ _ _ 1%positive NF_ACCEPT state2
    dns_reply state2_inv env0_ok ltac:(reflexivity) ltac:(vm_compute; reflexivity)
    ltac:(vm_compute; reflexivity) E ltac:(vm_compute; reflexivity)) as (t & Ht & _).
  exists t. exact Ht.
Defined.

(** A helper for everything, with room for one expectation, and an expectation of
    the query's connection. *)
Definition any : ip_conntrack_tuple := mk_tuple 0 0 0 0 0 IP_CT_DIR_ORIGINAL.
Definition demo_helper : ip_conntrack_helper := mk_helper [] 1 300 any any.
Definition hstate : ct_state :=
  ct_empty <| helper_tab := {[9%positive := demo_helper]} |> <| helpers := [9%positive] |>.
Definition hrun := enter dns_query hstate.
Definition halloc := ip_conntrack_expect_alloc env0 1%positive dns_tuple any None 0 hrun.1.2.

Lemma hstate_inv : Inv env0 ∅ ∅ ∅ ∅ hstate.
Proof. by apply (helpers_inv env0 ∅ ∅ ∅ ∅ ct_empty), (sys_init_inv env0). Qed.

Lemma halloc_inv : Inv env0 ∅ ∅ (∅ ⊎ skb_ref hrun.2) (∅ ⊎ {[+ 1%positive +]}) halloc.2.
Proof.
  assert (Inv env0 ∅ ∅ (∅ ⊎ skb_ref hrun.2) ∅ hrun.1.2) as [HT HO HA HE].
  { apply (ip_conntrack_in_inv env0 ∅ ∅ NF_IP_PRE_ROUTING dns_query hstate hrun.1.1 hrun.1.2 hrun.2);
      [apply env0_ok|apply hstate_inv|reflexivity|vm_compute; reflexivity]. }
  destruct (expect_alloc_inv env0 ∅ ∅ 1%positive dns_tuple any None 0 hrun.1.2 1%positive halloc.2 HE)
    as [HE' HS]; [vm_compute; reflexivity|].
  split; [by eapply same_lists_table|by eapply same_lists_own|by eapply same_lists_alive|done].
Qed.

Lemma expect_related_spec_witness :
  ∃ ret s', ip_conntrack_expect_related env0 1%positive halloc.2 = Some (ret, s') ∧
    Inv env0 ∅ ∅ (∅ ⊎ skb_ref hrun.2) (∅ ⊎ {[+ 1%positive +]}) s'.
Proof.
  destruct (exps halloc.2 !! 1%positive) as [x|] eqn:Ex; [|vm_compute in Ex; discriminate Ex].
  assert (exp_master x = 1%positive) as Hm by (vm_compute in Ex; injection Ex as <-; reflexivity).
  destruct (cts halloc.2 !! 1%positive) as [m|] eqn:Em; [|vm_compute in Em; discriminate Em].
  destruct (expect_related_spec env0 _ _ 1%positive x demo_helper m halloc.2 halloc_inv Ex)
    as (ret & s' & H & HI & _).
  - rewrite Hm. exact Em.
  - rewrite Hm. vm_compute. reflexivity.
  - vm_compute. discriminate.
  - vm_compute. reflexivity.
  - exists ret, s'. split; [exact H|exact HI].
Defined.
