(* ===== verification/CtCleanup.v ===== *)
(** * Removing connections in bulk

    [ip_ct_iterate_cleanup] of [net/ipv4/netfilter/ip_conntrack_core.c], which the
    flush of the table, the unloading of protocols and [ipt_MASQUERADE.c] (an interface
    goes down) use: when it ends, and what is left then. *)
From S2P Require Import Prelude Packet CtBase TcpTrack CtProtos Conntrack ConntrackInv ConntrackFacts CtExpect CtSteps ConntrackSpec.
From stdpp Require Import gmultiset fin_maps fin_sets relations.
#[local] Open Scope Z_scope.
#[local] Arguments set_bit : simpl never.

(** ** The connections a test selects *)
Definition selected (iter : ip_conntrack → bool) (s : ct_state) (p : positive) : bool :=
  match cts s !! p with Some c => iter c | None => false end.

(** A test that does not look at the counts, the status and the timer, which a removal
    changes: [kill_all], [kill_proto] and [device_cmp] are such tests. *)
Definition stable (iter : ip_conntrack → bool) : Prop := ∀ c u e st t,
  iter (c <| ct_use := u |>) = iter c ∧ iter (c <| expecting := e |>) = iter c ∧
  iter (c <| status := st |>) = iter c ∧ iter (c <| timeout := t |>) = iter c.

(** The connections the walk can meet. *)
Definition listed (s : ct_state) (p : positive) : Prop :=
  tabled s (p, IP_CT_DIR_ORIGINAL) ∨ p ∈ unconfirmed s.

(** ** What a removal leaves of the other connections *)
Section Kept.
Context (iter : ip_conntrack → bool) (Hst : stable iter).

Record kept (c c' : ip_conntrack) : Prop := {
  kp_timeout : timeout c' = timeout c;
  kp_confirmed : is_confirmed c' = is_confirmed c;
  kp_iter : iter c' = iter c }.

Record shrinks (s s' : ct_state) : Prop := {
  sh_cts : ∀ q c', cts s' !! q = Some c' → ∃ c, cts s !! q = Some c ∧ kept c c' }.

Lemma kept_refl c : kept c c.
Proof. by split. Qed.
Lemma kept_use c u : kept c (c <| ct_use := u |>).
Proof. split; [done|done|apply (Hst c u 0 0 (timeout c))]. Qed.
Lemma kept_expecting c e : kept c (c <| expecting := e |>).
Proof. split; [done|done|apply (Hst c 0 e 0 (timeout c))]. Qed.
Lemma kept_dying c : kept c (set_bit IPS_DYING_BIT c).
Proof.
  split; [done| |apply (Hst c 0 0 _ (timeout c))].
  unfold is_confirmed, test_bit. rewrite status_set_bit. by apply Z.setbit_neq.
Qed.

#[local] Instance shrinks_preorder : PreOrder shrinks.
Proof.
  split.
  - intros s. split. intros q c Hq. exists c. split; [done|apply kept_refl].
  - intros s s' s'' [H] [H']. split. intros q c''.
    intros (c' & (c & Hc & [K1 K2 K3])%H & [K1' K2' K3'])%H'.
    exists c. split; [done|]. split; congruence.
Qed.

Lemma shrinks_cts s s' : cts s' = cts s → shrinks s s'.
Proof. intros E. split. rewrite E. intros q c Hq. exists c. split; [done|apply kept_refl]. Qed.
Lemma shrinks_upd p f s : (∀ c, kept c (f c)) → shrinks s (upd_ct p f s).
Proof.
  intros Hf. split. intros q c'. simpl. destruct (decide (q = p)) as [->|Hq].
  - rewrite lookup_alter_eq. destruct (cts s !! p) as [c|]; [|done]. intros [= <-]. by exists c.
  - rewrite lookup_alter_ne by done. intros Hc. exists c'. split; [done|apply kept_refl].
Qed.

Lemma drop_expectation_shrinks i s : shrinks s (drop_expectation i s).
Proof.
  unfold drop_expectation, exp_del_timer.
  destruct (match exps s !! i with Some _ => _ | None => _ end); [|by apply shrinks_cts].
  set (s1 := upd_exp _ _ _). transitivity s1; [by apply shrinks_cts|].
  unfold ip_ct_unlink_expect. destruct (exps s1 !! i) as [x|].
  - cbn zeta. set (s2 := s1 <| ip_conntrack_expect_list := _ |>). set (s3 := upd_ct _ _ s2).
    transitivity s2; [by apply shrinks_cts|].
    transitivity s3; [apply shrinks_upd; intros; apply kept_expecting|].
    apply shrinks_cts. by rewrite !expect_put_cts.
  - apply shrinks_cts. by rewrite expect_put_cts.
Qed.

Lemma remove_expectations_shrinks p s : shrinks s (ip_ct_remove_expectations p s).
Proof.
  unfold ip_ct_remove_expectations. destruct (cts s !! p) as [ct|]; [|done]. destruct (_ =? _); [done|]. clear ct.
  generalize (ip_conntrack_expect_list s) as l. intros l. revert s.
  induction l as [|i l IH]; intros s; [done|]. cbn [drop_expectations].
  etransitivity; [|apply IH]. destruct (exps s !! i) as [x|]; [|done].
  destruct (bool_decide _); [apply drop_expectation_shrinks|done].
Qed.

Lemma nat_cleanup_cts p s : cts (ip_nat_cleanup_conntrack p s) = cts s.
Proof. unfold ip_nat_cleanup_conntrack. destruct (cts s !! p); [|done]. by destruct (negb _). Qed.

Lemma put_shrinks fuel : ∀ p s, shrinks s (put_loop fuel p s).
Proof.
  induction fuel as [|fuel IH]; intros p s; [done|]. cbn [put_loop]. cbn zeta.
  set (s1 := upd_ct p _ s).
  assert (shrinks s s1) as H1 by (apply shrinks_upd; intros; apply kept_use).
  destruct (cts s1 !! p) as [c|] eqn:Ec; [|done]. destruct (_ =? _); [|done].
  transitivity s1; [done|]. unfold destroy_conntrack. rewrite Ec. cbn zeta.
  set (s2 := upd_ct p _ s1). transitivity s2; [apply shrinks_upd; intros; apply kept_dying|].
  set (s3 := ip_nat_cleanup_conntrack p s2).
  transitivity s3; [apply shrinks_cts, nat_cleanup_cts|].
  set (s4 := ip_ct_remove_expectations p s3). transitivity s4; [apply remove_expectations_shrinks|].
  set (s5 := if negb _ then _ else s4).
  transitivity s5; [apply shrinks_cts; unfold s5; by destruct (negb _)|].
  set (s6 := match ct_master c with Some m => _ | None => _ end).
  transitivity s6; [unfold s6; by destruct (ct_master c)|].
  split. intros q c'. simpl. intros [_ Hq]%lookup_delete_Some. exists c'. split; [done|apply kept_refl].
Qed.

Lemma death_shrinks env p s : shrinks s (death_by_timeout env p s).
Proof.
  unfold death_by_timeout. destruct (cts s !! p); [|done]. destruct (_ && _); [done|].
  unfold nf_conntrack_put. transitivity (clean_from_lists p s); [|apply put_shrinks].
  transitivity (untable p s); [by apply shrinks_cts|apply remove_expectations_shrinks].
Qed.

Lemma cleanup_death_shrinks env p s : shrinks s (cleanup_death env p s).
Proof.
  unfold cleanup_death. destruct (CONFIG_STR9100_SHNAT _); [|apply death_shrinks]. cbn zeta.
  set (s1 := upd_ct p _ s). transitivity s1; [apply shrinks_upd; intros; apply kept_use|].
  transitivity (death_by_timeout env p s1); [apply death_shrinks|]. apply shrinks_upd.
  intros c. cbn zeta. destruct (_ =? _); [|apply kept_use].
  destruct (kept_use c (ct_use c - 60000)) as [A1 A2 A3].
  destruct (kept_use (c <| ct_use := ct_use c - 60000 |>) 1) as [B1 B2 B3]. split; congruence.
Qed.

(** One turn changes the timer of its own connection only. *)
Lemma cleanup_one_shrinks env p s q c' :
  cts (cleanup_one env p s) !! q = Some c' →
  ∃ c, cts s !! q = Some c ∧ is_confirmed c' = is_confirmed c ∧ iter c' = iter c ∧
    (q ≠ p → timeout c' = timeout c).
Proof.
  intros Hc. unfold cleanup_one, nf_conntrack_put in Hc.
  destruct (ct_del_timer p s) as [was s1] eqn:Ed.
  assert (shrinks s1 (if was then cleanup_death env p s1 else s1)) as HS
    by (destruct was; [apply cleanup_death_shrinks|done]).
  destruct (sh_cts _ _ (transitivity HS (put_shrinks _ p _)) q c' Hc) as (c & Hs & [K1 K2 K3]).
  injection Ed as _ <-. simpl in Hs. destruct (decide (q = p)) as [->|Hq].
  - rewrite lookup_alter_eq in Hs. destruct (cts s !! p) as [c0|]; [|done]. injection Hs as <-.
    exists c0. split_and!; [done..| |done]. rewrite K3. apply (Hst c0 0 0 0).
  - rewrite lookup_alter_ne in Hs by done. by exists c.
Qed.

Lemma turn_shrinks env p s q c' :
  cts (cleanup_one env p (nf_conntrack_get p s)) !! q = Some c' →
  ∃ c, cts s !! q = Some c ∧ is_confirmed c' = is_confirmed c ∧ iter c' = iter c ∧
    (q ≠ p → timeout c' = timeout c).
Proof.
  intros (c1 & H1 & H2 & H3 & H4)%cleanup_one_shrinks.
  destruct (sh_cts _ _ (shrinks_upd p _ s (λ c, kept_use c (ct_use c + 1))) q c1 H1) as (c0 & H0 & [K1 K2 K3]).
  exists c0. split_and!; [done|congruence|congruence|]. intros Hq. rewrite (H4 Hq). done.
Qed.
End Kept.

(** ** The chains after a removal *)
Lemma death_leaves env live ehold p s h n :
  Inv env ∅ ∅ live ehold s → tabled s (p, IP_CT_DIR_ORIGINAL) →
  (∀ c, cts s !! p = Some c → pending (timeout c) = false) → (∀ c, hook_refuses env c = false) →
  n ∈ chain (death_by_timeout env p s) h ↔ n ∈ chain s h ∧ n.1 ≠ p.
Proof.
  intros HI Ht Hpe Hhook. rewrite (death_chain env live ehold) by done.
  destruct (tabled_confirmed _ _ _ _ (inv_table _ _ _ _ _ _ HI) Ht) as (c & Hc & _). naive_solver.
Qed.

Lemma cleanup_one_chain env live ehold p c s h n :
  Inv env ∅ ∅ (live ⊎ {[+ p +]}) ehold s → cts s !! p = Some c → pending (timeout c) = true →
  (∀ c, hook_refuses env c = false) →
  n ∈ chain (cleanup_one env p s) h ↔ n ∈ chain s h ∧ n.1 ≠ p.
Proof.
  intros HI Hc Hpend Hhook. pose proof (cleanup_turn_inv _ _ _ _ _ HI) as HT.
  destruct (ct_del_timer_inv _ _ _ _ _ p s HI) as (HI1 & Ht & Hpe & Hw).
  unfold cleanup_one. destruct (ct_del_timer p s) as [was s1] eqn:Ed. cbn [fst snd] in *.
  assert (was = true) as -> by (unfold ct_del_timer in Ed; rewrite Hc in Ed; injection Ed as <- _; exact Hpend).
  rewrite (put_chain _ _ _ _ _ _ HT). specialize (Hw eq_refl). apply Ht in Hw.
  assert (chain s1 h = chain s h) as <- by (by injection Ed as _ <-).
  unfold cleanup_death. destruct (CONFIG_STR9100_SHNAT _); [|by apply (death_leaves _ _ _ _ _ _ _ HI1)].
  cbn zeta. set (s2 := upd_ct p _ s1).
  change (chain (upd_ct p ?f ?x) h) with (chain x h).
  change (chain s1 h) with (chain s2 h).
  apply (death_leaves env ((live ⊎ {[+ p +]}) ⊎ Z.to_nat 60000 *: {[+ p +]}) ehold); [|done| |done].
  - apply many_refs; [done| |intros c'; by rewrite Z2Nat.id].
    apply (ow_live _ _ _ _ (inv_own _ _ _ _ _ _ HI1)). multiset_solver.
  - intros c'. simpl. rewrite lookup_alter_eq. destruct (cts s1 !! p) as [c0|] eqn:E; [|done].
    intros [= <-]. by apply (Hpe c0).
Qed.

(** ** The next connection to go *)
Lemma corpse_spec iter size b s : (b <= size)%nat →
  let '(h, b', s') := get_next_corpse iter size b s in
  (b <= b' <= size)%nat ∧
  (∀ i m, (b <= i < b')%nat → m ∈ chain s (Z.of_nat i) → selected iter s m.1 = false) ∧
  match h with
  | Some n => s' = nf_conntrack_get n.1 s ∧ selected iter s n.1 = true ∧
      (n ∈ chain s (Z.of_nat b') ∨ n.1 ∈ unconfirmed s)
  | None => s' = s ∧ b' = size ∧ ∀ p, p ∈ unconfirmed s → selected iter s p = false
  end.
Proof.
  intros Hb. unfold get_next_corpse. cbn zeta.
  set (hit := λ b, snd <$> list_find (λ n : node, Is_true (match cts s !! n.1 with Some c => iter c | None => false end)) (chain s (Z.of_nat b))).
  assert (∀ i n, hit i = Some n → n ∈ chain s (Z.of_nat i) ∧ selected iter s n.1 = true) as Hhit.
  { intros i n ([j m] & (Hl & Hs%Is_true_eq_true & _)%list_find_Some & ->)%fmap_Some.
    split; [by eapply list_elem_of_lookup_2|exact Hs]. }
  assert (∀ i m, ¬ is_Some (hit i) → m ∈ chain s (Z.of_nat i) → selected iter s m.1 = false) as Hmiss.
  { intros i m Hn Hm. apply not_true_is_false. intros Hs. apply Hn. unfold hit. apply fmap_is_Some.
    eapply list_find_elem_of; [exact Hm|]. by apply Is_true_eq_left. }
  destruct (list_find _ (seq _ _)) as [[j i]|] eqn:Ef.
  - apply list_find_Some in Ef as (Hj & [n Hn] & Hlt). apply lookup_seq in Hj as [-> Hj].
    rewrite Hn. destruct (Hhit _ _ Hn) as [Hin Hs]. split_and!; try lia; [|done|done|by left].
    intros i m Hi. apply Hmiss. apply (Hlt (i - b)%nat); [|lia]. apply lookup_seq. lia.
  - rewrite list_find_None, Forall_forall in Ef.
    assert (∀ i m, (b <= i < size)%nat → m ∈ chain s (Z.of_nat i) → selected iter s m.1 = false) as Hall.
    { intros i m Hi. apply Hmiss, Ef. apply elem_of_seq. lia. }
    destruct (list_find _ (unconfirmed s)) as [[j q]|] eqn:Eu; simpl.
    + apply list_find_Some in Eu as (Hl & Hs%Is_true_eq_true & _). split_and!; try lia; try done.
      right. by eapply list_elem_of_lookup_2.
    + split_and!; try lia; try done. intros p Hp. rewrite list_find_None, Forall_forall in Eu.
      apply not_true_is_false. intros Hs. apply (Eu p Hp). by apply Is_true_eq_left.
Qed.

(** ** The loop *)
Definition doomed (iter : ip_conntrack → bool) (s : ct_state) : gset positive :=
  filter (λ p, selected iter s p = true ∧ tabled s (p, IP_CT_DIR_ORIGINAL)) (dom (cts s)).

Lemma unconfirmed_spec env live ehold s p : Inv env ∅ ∅ live ehold s →
  p ∈ unconfirmed s ↔ ∃ c, cts s !! p = Some c ∧ is_confirmed c = false.
Proof.
  intros HI. pose proof (ow_unconf _ _ _ _ (inv_own _ _ _ _ _ _ HI) p) as Hu.
  assert (p ∉ (∅ : gset positive)) by set_solver. naive_solver.
Qed.

Section Loop.
Context (env : ct_env) (live ehold : gmultiset positive) (iter : ip_conntrack → bool).
Context (Hst : stable iter) (Hhook : ∀ c, hook_refuses env c = false).
Context (Hsize : 0 < ip_conntrack_htable_size env).

Notation nbuckets := (Z.to_nat (ip_conntrack_htable_size env)).

(** Every connection that the walk can select has its timer running. *)
Definition timers_run (s : ct_state) : Prop := ∀ p c,
  listed s p → cts s !! p = Some c → iter c = true → pending (timeout c) = true.

Definition done_below (b : nat) (s : ct_state) : Prop := ∀ i m,
  (i < b)%nat → m ∈ chain s (Z.of_nat i) → selected iter s m.1 = false.

Lemma selected_Some s p : selected iter s p = true → ∃ c, cts s !! p = Some c ∧ iter c = true.
Proof. unfold selected. destruct (cts s !! p) as [c|]; [|done]. by exists c. Qed.

(** A turn takes one selected connection away and leaves the others. *)
Lemma turn_spec s (n : node) c (s' := cleanup_one env n.1 (nf_conntrack_get n.1 s)) :
  Inv env ∅ ∅ live ehold s → timers_run s → cts s !! n.1 = Some c → pending (timeout c) = true →
  Inv env ∅ ∅ live ehold s' ∧ timers_run s' ∧
  (∀ h m, m ∈ chain s' h ↔ m ∈ chain s h ∧ m.1 ≠ n.1) ∧
  (∀ m, tabled s' m → selected iter s' m.1 = selected iter s m.1).
Proof.
  intros HI Hrun Hc Hp.
  assert (Inv env ∅ ∅ (live ⊎ {[+ n.1 +]}) ehold (nf_conntrack_get n.1 s)) as HI1.
  { apply get_inv; [done| |set_solver]. apply elem_of_dom. by exists c. }
  assert (cts (nf_conntrack_get n.1 s) !! n.1 = Some (c <| ct_use := ct_use c + 1 |>)) as Hc1.
  { simpl. by rewrite lookup_alter_eq, Hc. }
  assert (∀ h m, m ∈ chain s' h ↔ m ∈ chain s h ∧ m.1 ≠ n.1) as Hch.
  { intros h m. by apply (cleanup_one_chain env live ehold _ _ _ h m HI1 Hc1). }
  assert (∀ q c', cts s' !! q = Some c' → ∃ c0, cts s !! q = Some c0 ∧
            is_confirmed c' = is_confirmed c0 ∧ iter c' = iter c0 ∧
            (q ≠ n.1 → timeout c' = timeout c0)) as Hsh by (intros q c'; by apply turn_shrinks).
  pose proof (cleanup_one_inv _ _ _ _ _ HI1) as HI'. fold s' in HI'.
  assert (∀ m, tabled s' m → m.1 ≠ n.1) as Hne by (intros m [h [_ ?]%Hch]; done).
  split_and!; try done.
  - intros q c' Hl Hq Hi. destruct (Hsh q c' Hq) as (c0 & H0 & Hcf & HKi & HK).
    destruct (decide (q = n.1)) as [->|Hqn].
    + exfalso. destruct Hl as [Ht|Hu]; [by apply (Hne _ Ht)|].
      apply (unconfirmed_spec _ _ _ _ _ HI') in Hu as (a & Ha & Hcfa).
      assert (tabled s (n.1, IP_CT_DIR_ORIGINAL)) as Ht by (by apply (tw_timer _ _ _ (inv_table _ _ _ _ _ _ HI) _ c)).
      destruct (tabled_confirmed _ _ _ _ (inv_table _ _ _ _ _ _ HI) Ht) as (a0 & ? & ? & _). simpl in *. congruence.
    + rewrite (HK Hqn). apply (Hrun q c0); [|done|congruence].
      destruct Hl as [[h [Hh _]%Hch]|Hu]; [left; by exists h|right].
      apply (unconfirmed_spec _ _ _ _ _ HI') in Hu as (a & Ha & Hcfa).
      apply (unconfirmed_spec _ _ _ _ _ HI). exists c0. split; congruence.
  - intros m Hm. destruct (tabled_confirmed _ _ _ _ (inv_table _ _ _ _ _ _ HI') Hm) as (c' & Hc' & _).
    destruct (Hsh _ _ Hc') as (c0 & H0 & _ & HK & _). unfold selected. by rewrite Hc', H0.
Qed.

Lemma doomed_less s s' p :
  selected iter s p = true → tabled s (p, IP_CT_DIR_ORIGINAL) →
  (∀ m, tabled s' m → tabled s m ∧ m.1 ≠ p ∧ selected iter s' m.1 = selected iter s m.1) →
  (size (doomed iter s') < size (doomed iter s))%nat.
Proof.
  intros Hs Ht Hsub. apply subset_size. unfold doomed.
  assert (∀ q x, selected iter x q = true → q ∈ dom (cts x)) as Hdom.
  { intros q x. unfold selected. destruct (cts x !! q) eqn:E; [|done]. intros _. apply elem_of_dom. by eexists. }
  split.
  - intros q [[Hq Hq'] _]%elem_of_filter. destruct (Hsub _ Hq') as (? & ? & E). simpl in E.
    apply elem_of_filter. split_and!; [congruence|done|]. apply Hdom. congruence.
  - intros Hle. assert (p ∈ doomed iter s') as [[_ Hp] _]%elem_of_filter.
    { apply Hle. apply elem_of_filter. split_and!; [done|done|by apply Hdom]. }
    by destruct (Hsub _ Hp) as (_ & ? & _).
Qed.

Lemma hash_bucket s n : Inv env ∅ ∅ live ehold s → tabled s n →
  ∃ i, (i < nbuckets)%nat ∧ n ∈ chain s (Z.of_nat i).
Proof.
  intros HI [h Hn]. destruct (tw_chain _ _ _ (inv_table _ _ _ _ _ _ HI) h n Hn) as (c & _ & _ & Hh & _).
  assert (0 <= h < ip_conntrack_htable_size env) by (rewrite <- Hh; by apply Z.mod_pos_bound).
  exists (Z.to_nat h). rewrite Z2Nat.id by lia. split; [lia|done].
Qed.

Lemma cleanup_loop fuel : ∀ b s,
  Inv env ∅ ∅ live ehold s → timers_run s → (b <= nbuckets)%nat → done_below b s →
  (size (doomed iter s) < fuel)%nat →
  ∃ s', (∀ k, ip_ct_iterate_cleanup (fuel + k) env iter b s = Some s') ∧
    (∀ n, tabled s' n ↔ tabled s n ∧ selected iter s n.1 = false) ∧
    (∀ n, tabled s' n → selected iter s' n.1 = false).
Proof.
  induction fuel as [|fuel IH]; intros b s HI Hrun Hb Hbelow Hf; [lia|].
  cbn [Nat.add ip_ct_iterate_cleanup]. pose proof (corpse_spec iter nbuckets b s Hb) as Hsp.
  destruct (get_next_corpse iter nbuckets b s) as [[[n|] b'] s1].
  - destruct Hsp as (Hb' & Hskip & -> & Hs & Hin). destruct (selected_Some _ _ Hs) as (c & Hc & Hi).
    assert (pending (timeout c) = true) as Hp.
    { apply (Hrun n.1); try done. destruct Hin as [Hin|]; [left|by right].
      destruct n as [p []]; [by eexists|]. apply (tw_pair _ _ _ (inv_table _ _ _ _ _ _ HI)). by eexists. }
    assert (tabled s (n.1, IP_CT_DIR_ORIGINAL)) as Ht by (by apply (tw_timer _ _ _ (inv_table _ _ _ _ _ _ HI) _ c)).
    destruct (turn_spec s n c HI Hrun Hc Hp) as (HI' & Hrun' & Hch & Hsel).
    set (s2 := cleanup_one env n.1 _) in *.
    assert (∀ m, tabled s2 m ↔ tabled s m ∧ m.1 ≠ n.1) as Htab.
    { intros m. unfold tabled. setoid_rewrite Hch. naive_solver. }
    destruct (IH b' s2 HI' Hrun') as (s' & Hr & Hleft & Hnone); [lia| | |].
    + intros i m Hi' Hm. rewrite Hsel by (by eexists). apply Hch in Hm as [Hm _].
      destruct (decide (i < b)%nat); [by apply (Hbelow i)|]. apply (Hskip i); [lia|done].
    + enough (size (doomed iter s2) < size (doomed iter s))%nat by lia.
      apply (doomed_less s s2 n.1); [done..|]. intros m Hm. split_and!; [by apply Htab..|by apply Hsel].
    + exists s'. split_and!; [done| |done]. intros m. rewrite Hleft. split.
      * intros [Hm E]. rewrite Hsel in E by done. split; [by apply Htab|done].
      * intros [Hm E]. assert (tabled s2 m) as Hm2 by (apply Htab; split; [done|congruence]).
        split; [done|]. by rewrite Hsel.
  - destruct Hsp as (Hb' & Hskip & -> & -> & _).
    assert (∀ n, tabled s n → selected iter s n.1 = false) as Hnone.
    { intros n (i & Hi & Hn)%(hash_bucket _ _ HI).
      destruct (decide (i < b)%nat); [by apply (Hbelow i)|]. apply (Hskip i); [lia|done]. }
    exists s. split_and!; [done| |done]. intros n. naive_solver.
Qed.
End Loop.

Lemma cleanup_result env live ehold iter s :
  Inv env ∅ ∅ live ehold s → 0 < ip_conntrack_htable_size env →
  stable iter → timers_run iter s → (∀ c, hook_refuses env c = false) →
  ∃ s', (∀ fuel, (size (cts s) < fuel)%nat → ip_ct_iterate_cleanup fuel env iter 0 s = Some s') ∧
    Inv env ∅ ∅ live ehold s' ∧
    (∀ n, tabled s' n ↔ tabled s n ∧ selected iter s n.1 = false) ∧
    (∀ n, tabled s' n → selected iter s' n.1 = false).
Proof.
  intros HI Hsz Hst Hrun Hhook.
  assert (size (doomed iter s) <= size (cts s))%nat as Hd.
  { rewrite <- (size_dom (D:=gset positive)). apply subseteq_size. unfold doomed. set_solver. }
  destruct (cleanup_loop env live ehold iter Hst Hhook Hsz (S (size (cts s))) 0 s HI Hrun)
    as (s' & Hr & Hleft & Hnone); [lia|intros i m; lia|lia|].
  exists s'. split_and!; [|by apply (iterate_cleanup_inv _ _ _ _ _ _ _ _ HI (Hr 0%nat))|done|done].
  intros fuel Hf. replace fuel with (S (size (cts s)) + (fuel - S (size (cts s))))%nat by lia. apply Hr.
Qed.

(** C27: Bulk removal ends and removes exactly the selected connections.  Take a
    consistent state and a test that does not look at counts and status bits; the timers
    of the selected connections on the lists run, and the hardware-NAT module keeps no
    connection back.  Then [ip_ct_iterate_cleanup] ends within one turn more than there
    are connections, in a consistent state in which the hash table holds exactly the
    nodes it held before whose connection the test does not select. *)
Theorem cleanup_spec env live ehold iter s :
  Inv env ∅ ∅ live ehold s → 0 < ip_conntrack_htable_size env →
  stable iter → timers_run iter s → (∀ c, hook_refuses env c = false) →
  ∃ s', (∀ fuel, (size (cts s) < fuel)%nat → ip_ct_iterate_cleanup fuel env iter 0 s = Some s') ∧
    Inv env ∅ ∅ live ehold s' ∧
    (∀ n, tabled s' n ↔ tabled s n ∧ selected iter s n.1 = false) ∧
    (∀ n, tabled s' n → selected iter s' n.1 = false).
Proof. apply cleanup_result. Qed.

(** The timer condition is not for nothing: while a packet that some queue holds has a
    selected, unconfirmed connection, which has no timer, the loop finds this connection
    in every turn, leaves it and never ends. *)
Lemma cleanup_spins env ehold iter p c fuel : stable iter → ∀ live b s,
  Inv env ∅ ∅ live ehold s → p ∈ live → cts s !! p = Some c →
  is_confirmed c = false → iter c = true → (b <= Z.to_nat (ip_conntrack_htable_size env))%nat →
  ip_ct_iterate_cleanup fuel env iter b s = None.
Proof.
  intros Hst live. revert c. induction fuel as [|fuel IH]; intros c b s HI Hp Hc Hcf Hi Hb; [done|].
  cbn [ip_ct_iterate_cleanup]. set (nb := Z.to_nat _) in *.
  pose proof (corpse_spec iter nb b s Hb) as Hsp. pose proof (corpse_inv env live ehold iter nb b s HI) as Hci.
  destruct (get_next_corpse iter nb b s) as [[[n|] b'] s1].
  - destruct Hsp as (Hb' & _ & -> & _ & _). pose proof (cleanup_one_inv _ _ _ _ _ Hci) as HI'.
    destruct (proj1 (elem_of_dom _ _) (proj1 (ow_live _ _ _ _ (inv_own _ _ _ _ _ _ HI') p Hp))) as [c' Hc'].
    destruct (turn_shrinks iter Hst _ _ _ _ _ Hc') as (c0 & Hc0 & Hcf' & Hi' & _).
    apply (IH c' b'); try done; [congruence|congruence|lia].
  - destruct Hsp as (_ & _ & _ & _ & Hnone). exfalso.
    assert (p ∈ unconfirmed s) as Hu by (apply (unconfirmed_spec _ _ _ _ _ HI); by exists c).
    specialize (Hnone p Hu). unfold selected in Hnone. rewrite Hc in Hnone. congruence.
Qed.

(** ** The flush of a table with one connection *)
Lemma state2_timers : timers_run (λ _, true) state2.
Proof.
  assert (map_Forall (λ _ c, pending (timeout c) = true) (cts state2)) as H
    by (refine (bool_decide_eq_true_1 _ _); vm_compute; reflexivity).
  intros p c _ Hc _. by apply (H p c).
Qed.

Lemma cleanup_spec_witness :
  ∃ s', ip_conntrack_flush 2 env0 state2 = Some s' ∧ ∀ n, ¬ tabled s' n.
Proof.
  destruct (cleanup_spec env0 _ _ (λ _, true) state2 state2_inv) as (s' & Hr & _ & _ & Hnone).
  - reflexivity.
  - by intros c u e st t.
  - exact state2_timers.
  - intros c. unfold hook_refuses. apply andb_false_r.
  - exists s'. split; [apply Hr; vm_compute; lia|]. intros n Hn. pose proof (Hnone n Hn) as Hs.
    pose proof (iterate_cleanup_inv env0 _ _ _ _ _ _ _ state2_inv (Hr 2%nat ltac:(vm_compute; lia))) as HI.
    destruct (tabled_confirmed _ _ _ _ (inv_table _ _ _ _ _ _ HI) Hn) as (c & Hc & _).
    unfold selected in Hs. rewrite Hc in Hs. discriminate Hs.
Defined.
