(* ===== verification/Csum.v ===== *)
(** * The Internet checksum: arithmetic modulo 65535

    The checksum routines of [include/asm-arm/checksum.h] compute in one's
    complement, where 0 and 65535 are two names of zero.  This file gives their
    meaning as sums modulo 65535, with the equivalence [oeq] and its [Proper]
    instances, and says how a 16-bit store changes the sum of a buffer.  NAT's
    incremental checksum updates are proved from these lemmas. *)
From S2P Require Import Prelude Packet CtProtos.
From Stdlib Require Import Setoid Morphisms.

(** ** Equality in one's complement *)
Definition oeq (a b : Z) : Prop := (a - b) mod 65535 = 0.
Infix "≡₁" := oeq (at level 70, no associativity) : fvs_scope.

#[export] Instance oeq_equiv : Equivalence oeq.
Proof. unfold oeq. split; red; intros; lia. Qed.
#[export] Instance oeq_add : Proper (oeq ==> oeq ==> oeq) Z.add.
Proof. unfold oeq. intros ??????. lia. Qed.
#[export] Instance oeq_sub : Proper (oeq ==> oeq ==> oeq) Z.sub.
Proof. unfold oeq. intros ??????. lia. Qed.
#[export] Instance oeq_opp : Proper (oeq ==> oeq) Z.opp.
Proof. unfold oeq. intros ???. lia. Qed.

Ltac ones := unfold oeq in *; lia.

(** ** The routines *)
Lemma csum_add_spec a b : is_u32 a → is_u32 b →
  is_u32 (csum_add a b) ∧ csum_add a b ≡₁ a + b ∧ (csum_add a b = 0 ↔ a = 0 ∧ b = 0).
Proof. unfold csum_add, is_u32, u32, oeq. intros. split_and!; lia. Qed.

(** The sum of a buffer as little-endian 16-bit words; [e] tells whether the
    first byte is a low byte. *)
Fixpoint wsum (e : bool) (l : list Z) : Z :=
  match l with
  | [] => 0
  | a :: r => (if e then a else 256 * a) + wsum (negb e) r
  end.

Lemma wsum_nonneg e l : Forall is_u8 l → 0 <= wsum e l.
Proof.
  intros H. revert e. induction H as [|a l Ha H IH]; intros e; simpl; [lia|].
  specialize (IH (negb e)). destruct e; word_lia.
Qed.

#[local] Ltac finish_sum :=
  unfold is_u32, is_u8 in *; split;
  [repeat match goal with H : _ ≡₁ _ |- _ => revert H | H : _ |- _ => clear H end; ones | intuition lia].

Lemma csum_partial_spec buf sum : Forall is_u8 buf → is_u32 sum →
  is_u32 (csum_partial buf sum) ∧ csum_partial buf sum ≡₁ sum + wsum true buf ∧
  (csum_partial buf sum = 0 ↔ sum = 0 ∧ wsum true buf = 0).
Proof.
  remember (length buf) as n eqn:Hn. revert buf sum Hn.
  induction n as [n IH] using lt_wf_ind. intros buf sum -> Hb Hs.
  destruct buf as [|a [|b [|c [|d r]]]]; cbn [csum_partial wsum negb];
    repeat match goal with H : Forall is_u8 (_ :: _) |- _ => apply Forall_cons_iff in H as [? H] end.
  - split; [done|]. ones.
  - destruct (csum_add_spec sum a) as (? & ? & ?); [done|word_lia|].
    split; [done|]. finish_sum.
  - destruct (csum_add_spec sum (a + 256 * b)) as (? & ? & ?); [done|word_lia|].
    split; [done|]. finish_sum.
  - destruct (csum_add_spec sum (a + 256 * b)) as (? & ? & ?); [done|word_lia|].
    destruct (csum_add_spec (csum_add sum (a + 256 * b)) c) as (? & ? & ?); [done|word_lia|].
    split; [done|]. finish_sum.
  - destruct (csum_add_spec sum (a + 256 * b + 65536 * c + 16777216 * d)) as (? & ? & ?);
      [done|word_lia|].
    destruct (IH (length r)) with (buf := r)
      (sum := csum_add sum (a + 256 * b + 65536 * c + 16777216 * d)) as (? & ? & Hz);
      [simpl; lia|done..|].
    pose proof (wsum_nonneg true r ltac:(done)).
    split; [done|]. unfold is_u32, is_u8, oeq in *. split; [lia|]. rewrite Hz. lia.
Qed.

Lemma csum_fold_spec s : is_u32 s →
  is_u16 (csum_fold s) ∧ csum_fold s ≡₁ - s ∧
  (csum_fold s = 0 ↔ s ≠ 0 ∧ s ≡₁ 0) ∧ (csum_fold s = 65535 ↔ s = 0).
Proof.
  intros Hs. pose (h := s / 65536). pose (l := s mod 65536).
  assert (s = h * 65536 + l ∧ 0 <= h < 65536 ∧ 0 <= l < 65536) as (E & Hh & Hl)
    by (unfold h, l; word_lia).
  assert (csum_fold s = 65535 - (if h + l <? 65536 then h + l else h + l - 65535)) as ->.
  { unfold csum_fold. replace (u32 (s * 65536)) with (l * 65536) by (unfold u32; lia).
    clearbody h l. subst s.
    destruct (Z.leb_spec 4294967296 (h * 65536 + l + l * 65536)), (Z.ltb_spec (h + l) 65536); try lia.
    unfold u32; lia. }
  clearbody h l. subst s. unfold is_u16, oeq. destruct (Z.ltb_spec (h + l) 65536); split_and!; lia.
Qed.

(** [csum_fold] distinguishes sums modulo 65535 and the all-zero buffer only. *)
Lemma csum_fold_valid s s' : is_u32 s → is_u32 s' → s ≠ 0 → s' ≠ 0 → s ≡₁ s' →
  (csum_fold s = 0 ↔ csum_fold s' = 0).
Proof.
  intros H H' Hn Hn' E.
  destruct (csum_fold_spec s H) as (_ & _ & -> & _).
  destruct (csum_fold_spec s' H') as (_ & _ & -> & _).
  assert (s ≡₁ 0 ↔ s' ≡₁ 0) by ones. tauto.
Qed.

(** ** Stores *)
Lemma wsum_insert e l n v : (n < length l)%nat →
  wsum e (<[n := v]> l) =
  wsum e l + (if eqb e (Nat.even n) then 1 else 256) * (v - default 0 (l !! n)).
Proof.
  revert e n. induction l as [|a l IH]; intros e [|n] Hn; simpl in Hn; try lia.
  - simpl. destruct e; simpl; lia.
  - cbn [insert list_insert wsum]. rewrite IH by lia. simpl lookup.
    rewrite Nat.even_succ, <- Nat.negb_even. destruct e, (Nat.even n); simpl; lia.
Qed.

Lemma wsum_app l1 l2 : Nat.even (length l1) = true → wsum true (l1 ++ l2) = wsum true l1 + wsum true l2.
Proof.
  remember (length l1) as n eqn:Hn. revert l1 Hn. induction n as [n IH] using lt_wf_ind.
  intros [|a [|b l1]] -> He; [done|done|]. cbn [length Nat.even] in *. cbn [app wsum negb].
  rewrite (IH (length l1)); [lia|lia|done|done].
Qed.

(** The bytes of a segment of a buffer. *)
Definition seg (d : list Z) (off len : Z) : list Z := take (Z.to_nat len) (drop (Z.to_nat off) d).

Lemma seg_bytes d off len : Forall is_u8 d → Forall is_u8 (seg d off len).
Proof. intros. by apply Forall_take, Forall_drop. Qed.
Lemma seg_length d off len : 0 <= off → 0 <= len → off + len <= Z.of_nat (length d) →
  Z.of_nat (length (seg d off len)) = len.
Proof. intros. unfold seg. rewrite length_take, length_drop. lia. Qed.

Lemma st8_bytes o v d : Forall is_u8 d → Forall is_u8 (st8 o v d).
Proof. intros. unfold st8. apply Forall_insert; [done|]. apply u8_range. Qed.
Lemma st16_bytes o v d : Forall is_u8 d → Forall is_u8 (st16 o v d).
Proof. intros. by apply st8_bytes, st8_bytes. Qed.
Lemma st32_bytes o v d : Forall is_u8 d → Forall is_u8 (st32 o v d).
Proof. intros. by apply st16_bytes, st16_bytes. Qed.
#[export] Hint Resolve seg_bytes st8_bytes st16_bytes st32_bytes : words.

Lemma st8_length o v d : length (st8 o v d) = length d.
Proof. apply length_insert. Qed.
Lemma st16_length o v d : length (st16 o v d) = length d.
Proof. unfold st16. by rewrite !st8_length. Qed.
Lemma st32_length o v d : length (st32 o v d) = length d.
Proof. unfold st32. by rewrite !st16_length. Qed.
#[export] Hint Rewrite st8_length st16_length st32_length : words.

(** Loads after stores. *)
Lemma ld8_st8 o o' v d : 0 <= o → 0 <= o' → o < Z.of_nat (length d) →
  ld8 (st8 o v d) o' = if o' =? o then u8 v else ld8 d o'.
Proof.
  intros. unfold ld8, st8. destruct (Z.eqb_spec o' o) as [->|Hne].
  - by rewrite list_lookup_insert_eq by lia.
  - by rewrite list_lookup_insert_ne by lia.
Qed.

Lemma ld8_st16 o o' v d : 0 <= o → 0 <= o' → o + 1 < Z.of_nat (length d) →
  ld8 (st16 o v d) o' =
  if o' =? o then u8 v else if o' =? o + 1 then u8 (v / 256) else ld8 d o'.
Proof.
  intros. unfold st16. rewrite ld8_st8 by (rewrite ?st8_length; lia).
  rewrite ld8_st8 by lia.
  destruct (Z.eqb_spec o' o), (Z.eqb_spec o' (o + 1)); try lia; done.
Qed.

Lemma ld16_st16 o v d : 0 <= o → o + 1 < Z.of_nat (length d) → is_u16 v →
  ld16 (st16 o v d) o = v.
Proof.
  intros. unfold ld16. rewrite !ld8_st16 by lia.
  rewrite Z.eqb_refl. destruct (Z.eqb_spec (o + 1) o); [lia|]. rewrite Z.eqb_refl. word_lia.
Qed.
Lemma ld16_st16_ne o o' v d : 0 <= o → 0 <= o' → o + 1 < Z.of_nat (length d) →
  o' + 2 <= o ∨ o + 2 <= o' → ld16 (st16 o v d) o' = ld16 d o'.
Proof.
  intros. unfold ld16. rewrite !ld8_st16 by lia.
  repeat case_match; try lia; done.
Qed.
Lemma ld8_st16_ne o o' v d : 0 <= o → 0 <= o' → o + 1 < Z.of_nat (length d) →
  o' + 1 <= o ∨ o + 2 <= o' → ld8 (st16 o v d) o' = ld8 d o'.
Proof. intros. rewrite ld8_st16 by lia. repeat case_match; try lia; done. Qed.

Lemma ld32_st32 o v d : 0 <= o → o + 3 < Z.of_nat (length d) → is_u32 v →
  ld32 (st32 o v d) o = v.
Proof.
  intros. unfold ld32, st32.
  rewrite ld16_st16_ne by (rewrite ?st16_length; lia).
  rewrite (ld16_st16 (o + 2)) by (rewrite ?st16_length; word_lia).
  unfold ld16. rewrite !ld8_st16 by lia. rewrite Z.eqb_refl.
  destruct (Z.eqb_spec (o + 1) o); [lia|]. rewrite Z.eqb_refl. word_lia.
Qed.
Lemma ld16_st32_ne o o' v d : 0 <= o → 0 <= o' → o + 3 < Z.of_nat (length d) →
  o' + 2 <= o ∨ o + 4 <= o' → ld16 (st32 o v d) o' = ld16 d o'.
Proof.
  intros. unfold st32. rewrite !ld16_st16_ne by (rewrite ?st16_length; lia). done.
Qed.
Lemma ld8_st32_ne o o' v d : 0 <= o → 0 <= o' → o + 3 < Z.of_nat (length d) →
  o' + 1 <= o ∨ o + 4 <= o' → ld8 (st32 o v d) o' = ld8 d o'.
Proof.
  intros. unfold st32. rewrite !ld8_st16_ne by (rewrite ?st16_length; lia). done.
Qed.
Lemma ld32_st16_ne o o' v d : 0 <= o → 0 <= o' → o + 1 < Z.of_nat (length d) →
  o' + 4 <= o ∨ o + 2 <= o' → ld32 (st16 o v d) o' = ld32 d o'.
Proof. intros. unfold ld32. rewrite !ld16_st16_ne by lia. done. Qed.
Lemma ld32_st32_ne o o' v d : 0 <= o → 0 <= o' → o + 3 < Z.of_nat (length d) →
  o' + 4 <= o ∨ o + 4 <= o' → ld32 (st32 o v d) o' = ld32 d o'.
Proof. intros. unfold ld32. rewrite !ld16_st32_ne by lia. done. Qed.

(** Sums after stores. *)
Lemma seg_st8_out o v d off len : 0 <= o → 0 <= off → 0 <= len →
  o < off ∨ off + len <= o → seg (st8 o v d) off len = seg d off len.
Proof.
  intros. unfold seg, st8. destruct (Z.ltb_spec o off).
  - by rewrite drop_insert_lt by lia.
  - rewrite drop_insert_ge by lia. rewrite take_insert_ge by lia. done.
Qed.

Lemma wsum_seg_st8 o v d off len : 0 <= off → off <= o → o < off + len →
  off + len <= Z.of_nat (length d) →
  wsum true (seg (st8 o v d) off len) =
  wsum true (seg d off len) + (if Z.even (o - off) then 1 else 256) * (u8 v - ld8 d o).
Proof.
  intros. unfold seg, st8. rewrite drop_insert_ge by lia.
  rewrite take_insert_lt by lia.
  rewrite wsum_insert by (rewrite length_take, length_drop; lia).
  rewrite lookup_take_lt by lia. rewrite lookup_drop.
  replace (Z.to_nat off + (Z.to_nat o - Z.to_nat off))%nat with (Z.to_nat o) by lia.
  unfold ld8. f_equal. f_equal. rewrite <- Z2Nat.inj_sub by lia.
  assert (Nat.even (Z.to_nat (o - off)) = Z.even (o - off)) as ->; [|by destruct (Z.even _)].
  rewrite <- (Z2Nat.id (o - off)) at 2 by lia.
  destruct (Nat.even (Z.to_nat (o - off))) eqn:E.
  - apply Nat.even_spec in E as [k ->]. symmetry. apply Z.even_spec. exists (Z.of_nat k). lia.
  - symmetry. rewrite <- Z.negb_odd. apply negb_false_iff, Z.odd_spec.
    rewrite <- Nat.negb_odd in E. apply negb_false_iff, Nat.odd_spec in E as [k ->].
    exists (Z.of_nat k). lia.
Qed.

Lemma wsum_seg_st16 o v d off len : 0 <= off → off <= o → o + 2 <= off + len →
  off + len <= Z.of_nat (length d) → Z.even (o - off) = true → is_u16 v →
  wsum true (seg (st16 o v d) off len) = wsum true (seg d off len) + v - ld16 d o.
Proof.
  intros. unfold st16. rewrite wsum_seg_st8 by (rewrite ?st8_length; lia).
  rewrite wsum_seg_st8 by lia. rewrite ld8_st8 by lia.
  destruct (Z.eqb_spec (o + 1) o); [lia|].
  replace (o + 1 - off) with (Z.succ (o - off)) by lia.
  rewrite Z.even_succ, <- Z.negb_even, H3. unfold ld16. simpl negb. cbv iota. word_lia.
Qed.

Lemma wsum_seg_st32 o v d off len : 0 <= off → off <= o → o + 4 <= off + len →
  off + len <= Z.of_nat (length d) → Z.even (o - off) = true → is_u32 v → Forall is_u8 d →
  wsum true (seg (st32 o v d) off len) ≡₁ wsum true (seg d off len) + v - ld32 d o.
Proof.
  intros ????? Hv Hd. unfold st32.
  assert (Z.even (o + 2 - off) = true) as He2.
  { replace (o + 2 - off) with (o - off + 2) by lia. rewrite Z.even_add. by rewrite H3. }
  assert (st16 o v d = st16 o (v mod 65536) d) as ->.
  { unfold st16, st8. f_equal; [word_lia|]. f_equal. word_lia. }
  rewrite wsum_seg_st16 by (rewrite ?st16_length; first [done | lia | word_lia]).
  rewrite wsum_seg_st16 by (first [done | lia | word_lia]).
  rewrite (ld16_st16_ne o (o + 2)) by lia. unfold ld32. word_lia || (unfold oeq; word_lia).
Qed.

Lemma seg_st16_out o v d off len : 0 <= o → 0 <= off → 0 <= len →
  o + 2 <= off ∨ off + len <= o → seg (st16 o v d) off len = seg d off len.
Proof. intros. unfold st16. rewrite !seg_st8_out by lia. done. Qed.
Lemma seg_st32_out o v d off len : 0 <= o → 0 <= off → 0 <= len →
  o + 4 <= off ∨ off + len <= o → seg (st32 o v d) off len = seg d off len.
Proof. intros. unfold st32. rewrite !seg_st16_out by lia. done. Qed.
