(* ===== verification/NatProto.v ===== *)
(** * NAT: ranges, checksum mangling and the per-protocol operations

    [include/linux/netfilter_ipv4/ip_nat.h], the checksum and lookup helpers of
    [net/ipv4/netfilter/ip_nat_core.c], and [ip_nat_proto_tcp.c],
    [ip_nat_proto_udp.c], [ip_nat_proto_icmp.c], [ip_nat_proto_unknown.c].

    The [static] counters of the [unique_tuple] functions are the record
    [nat_vars]; a function that uses one takes it and returns its new value. *)
From S2P Require Import Prelude Packet CtBase TcpTrack CtProtos Conntrack.

(** ** Data *)
Inductive ip_nat_manip_type := IP_NAT_MANIP_SRC | IP_NAT_MANIP_DST.
#[export] Instance ip_nat_manip_type_eq_dec : EqDecision ip_nat_manip_type.
Proof. solve_decision. Defined.

Definition HOOK2MANIP (hooknum : Z) : ip_nat_manip_type :=
  if negb (hooknum =? NF_IP_POST_ROUTING) && negb (hooknum =? NF_IP_LOCAL_IN)
  then IP_NAT_MANIP_DST else IP_NAT_MANIP_SRC.

Definition IP_NAT_RANGE_MAP_IPS := 1.
Definition IP_NAT_RANGE_PROTO_SPECIFIED := 2.

(** [r_min] and [r_max] are the 16-bit views of the unions [min] and [max]. *)
Record ip_nat_range := mk_range {
  r_flags : Z; min_ip : Z; max_ip : Z; r_min : Z; r_max : Z }.

Record nat_vars := mk_nv { tcp_port_var : Z; udp_port_var : Z; icmp_id_var : Z }.

(** ** Writable buffers: [net/netfilter/core.c:skb_make_writable]

    [ok] is the outcome of the copy or pull it may need. *)
Definition skb_make_writable (ok : bool) (skb : sk_buff) (writable_len : Z) : bool :=
  if skb_len skb <? writable_len then false else ok.

(** ** Checksum mangling *)
Definition le32 (x : Z) : list Z :=
  [x mod 256; x / 256 mod 256; x / 65536 mod 256; x / 16777216 mod 256].

Definition ip_nat_cheat_check (oldvalinv newval oldcheck : Z) : Z :=
  u16 (csum_fold (csum_partial (le32 oldvalinv ++ le32 newval) (Z.lxor oldcheck 65535))).

(** ** Is a tuple used by another connection?

    [None] when the tuple has no inverse, in which case the code would look up an
    indeterminate tuple. *)
Definition ip_nat_used_tuple (env : ct_env) (tuple : ip_conntrack_tuple)
    (ignored_conntrack : positive) (s : ct_state) : option bool :=
  reply ← invert_tuplepr tuple;
  Some (ip_conntrack_tuple_taken env reply (Some ignored_conntrack) s).

(** ** TCP *)
Definition tuple_port (maniptype : ip_nat_manip_type) (tuple : ip_conntrack_tuple) : Z :=
  match maniptype with IP_NAT_MANIP_SRC => src_u tuple | IP_NAT_MANIP_DST => dst_u tuple end.
Definition set_tuple_port (maniptype : ip_nat_manip_type) (v : Z) (tuple : ip_conntrack_tuple)
    : ip_conntrack_tuple :=
  match maniptype with
  | IP_NAT_MANIP_SRC => tuple <| src_u := v |>
  | IP_NAT_MANIP_DST => tuple <| dst_u := v |>
  end.

Definition tcp_in_range (tuple : ip_conntrack_tuple) (maniptype : ip_nat_manip_type) (mn mx : Z)
    : bool :=
  let port := tuple_port maniptype tuple in
  (ntohs mn <=? ntohs port) && (ntohs port <=? ntohs mx).

(** The choice of [min] and [range_size]; [None] is the early [return 0]. *)
Definition port_window (range : ip_nat_range) (maniptype : ip_nat_manip_type) (port : Z)
    : option (Z * Z) :=
  if negb (flag (r_flags range) IP_NAT_RANGE_PROTO_SPECIFIED) then
    match maniptype with
    | IP_NAT_MANIP_DST => None
    | IP_NAT_MANIP_SRC =>
        Some (if ntohs port <? 1024 then
                if ntohs port <? 512 then (1, 511 - 1 + 1) else (600, 1023 - 600 + 1)
              else (1024, 65535 - 1024 + 1))
    end
  else Some (ntohs (r_min range), u32 (ntohs (r_max range) - ntohs (r_min range) + 1)).

(** The search loop; [set] writes the candidate into the tuple, [used] is the test
    [ip_nat_used_tuple], [port] the static counter. *)
Fixpoint unique_loop (n : nat) (set : Z → ip_conntrack_tuple → ip_conntrack_tuple)
    (used : ip_conntrack_tuple → option bool) (min range_size port : Z)
    (tuple : ip_conntrack_tuple) : option (bool * Z * ip_conntrack_tuple) :=
  match n with
  | O => Some (false, port, tuple)
  | S n =>
      let tuple := set (htons (min + port mod range_size)) tuple in
      u ← used tuple;
      if negb u then Some (true, port, tuple)
      else unique_loop n set used min range_size (u16 (port + 1)) tuple
  end.

Definition tcp_unique_tuple (env : ct_env) (tuple : ip_conntrack_tuple) (range : ip_nat_range)
    (maniptype : ip_nat_manip_type) (conntrack : positive) (port : Z) (s : ct_state)
    : option (bool * Z * ip_conntrack_tuple) :=
  match port_window range maniptype (tuple_port maniptype tuple) with
  | None => Some (false, port, tuple)
  | Some (min, range_size) =>
      unique_loop (Z.to_nat range_size) (set_tuple_port maniptype)
        (λ t, ip_nat_used_tuple env t conntrack s) min range_size port tuple
  end.

(** What [maniptype] replaces: the old and new address, the new port, and the
    offset of the port in the transport header. *)
Definition manip_parts (iph : iphdr) (tuple : ip_conntrack_tuple) (maniptype : ip_nat_manip_type)
    : Z * Z * Z * Z :=
  match maniptype with
  | IP_NAT_MANIP_SRC => (saddr iph, src_ip tuple, src_u tuple, 0)
  | IP_NAT_MANIP_DST => (daddr iph, dst_ip tuple, dst_u tuple, 2)
  end.

Definition tcp_manip_pkt (ok : bool) (skb : sk_buff) (iphdroff : Z) (tuple : ip_conntrack_tuple)
    (maniptype : ip_nat_manip_type) : option sk_buff :=
  let iph := iphdr_at (data skb) iphdroff in
  let hdroff := iphdroff + ihl iph * 4 in
  let hdrsize := if hdroff + sizeof_tcphdr <=? skb_len skb then sizeof_tcphdr else 8 in
  if negb (skb_make_writable ok skb (hdroff + hdrsize)) then None
  else
    let '(oldip, newip, newport, portoff) := manip_parts iph tuple maniptype in
    let oldport := ld16 (data skb) (hdroff + portoff) in
    let d := st16 (hdroff + portoff) newport (data skb) in
    if hdrsize <? sizeof_tcphdr then Some (skb <| data := d |>)
    else
      let check := ip_nat_cheat_check (u32 (Z.lnot oldip)) newip
                     (ip_nat_cheat_check (Z.lxor oldport 65535) newport (ld16 d (hdroff + 16))) in
      Some (skb <| data := st16 (hdroff + 16) check d |>).

(** ** UDP *)
Definition udp_in_range (tuple : ip_conntrack_tuple) (maniptype : ip_nat_manip_type) (mn mx : Z)
    : bool :=
  let port := tuple_port maniptype tuple in
  (ntohs mn <=? ntohs port) && (ntohs port <=? ntohs mx).

Definition udp_unique_tuple (env : ct_env) (tuple : ip_conntrack_tuple) (range : ip_nat_range)
    (maniptype : ip_nat_manip_type) (conntrack : positive) (port : Z) (s : ct_state)
    : option (bool * Z * ip_conntrack_tuple) :=
  match port_window range maniptype (tuple_port maniptype tuple) with
  | None => Some (false, port, tuple)
  | Some (min, range_size) =>
      unique_loop (Z.to_nat range_size) (set_tuple_port maniptype)
        (λ t, ip_nat_used_tuple env t conntrack s) min range_size port tuple
  end.

Definition udp_manip_pkt (ok : bool) (skb : sk_buff) (iphdroff : Z) (tuple : ip_conntrack_tuple)
    (maniptype : ip_nat_manip_type) : option sk_buff :=
  let iph := iphdr_at (data skb) iphdroff in
  let hdroff := iphdroff + ihl iph * 4 in
  if negb (skb_make_writable ok skb (hdroff + sizeof_udphdr)) then None
  else
    let '(oldip, newip, newport, portoff) := manip_parts iph tuple maniptype in
    let d := data skb in
    let d := if negb (ld16 d (hdroff + 6) =? 0) then
               let check := ip_nat_cheat_check (u32 (Z.lnot oldip)) newip
                              (ip_nat_cheat_check (Z.lxor (ld16 d (hdroff + portoff)) 65535) newport
                                 (ld16 d (hdroff + 6))) in
               st16 (hdroff + 6) check d
             else d in
    Some (skb <| data := st16 (hdroff + portoff) newport d |>).

(** ** ICMP *)
Definition icmp_in_range (tuple : ip_conntrack_tuple) (maniptype : ip_nat_manip_type) (mn mx : Z)
    : bool :=
  (mn <=? src_u tuple) && (src_u tuple <=? mx).

Definition icmp_unique_tuple (env : ct_env) (tuple : ip_conntrack_tuple) (range : ip_nat_range)
    (maniptype : ip_nat_manip_type) (conntrack : positive) (id : Z) (s : ct_state)
    : option (bool * Z * ip_conntrack_tuple) :=
  let range_size := u32 (ntohs (r_max range) - ntohs (r_min range) + 1) in
  let range_size := if negb (flag (r_flags range) IP_NAT_RANGE_PROTO_SPECIFIED)
                    then 65535 else range_size in
  unique_loop (Z.to_nat range_size) (set_tuple_port IP_NAT_MANIP_SRC)
    (λ t, ip_nat_used_tuple env t conntrack s) (ntohs (r_min range)) range_size id tuple.

Definition icmp_manip_pkt (ok : bool) (skb : sk_buff) (iphdroff : Z) (tuple : ip_conntrack_tuple)
    (maniptype : ip_nat_manip_type) : option sk_buff :=
  let iph := iphdr_at (data skb) iphdroff in
  let hdroff := iphdroff + ihl iph * 4 in
  if negb (skb_make_writable ok skb (hdroff + sizeof_icmphdr)) then None
  else
    let d := data skb in
    let check := ip_nat_cheat_check (Z.lxor (ld16 d (hdroff + 4)) 65535) (src_u tuple)
                   (ld16 d (hdroff + 2)) in
    Some (skb <| data := st16 (hdroff + 4) (src_u tuple) (st16 (hdroff + 2) check d) |>).

(** ** Unknown protocols *)
Definition unknown_in_range (tuple : ip_conntrack_tuple) (maniptype : ip_nat_manip_type) (mn mx : Z)
    : bool := true.
Definition unknown_unique_tuple (tuple : ip_conntrack_tuple) : bool * ip_conntrack_tuple :=
  (false, tuple).
Definition unknown_manip_pkt (skb : sk_buff) (iphdroff : Z) (tuple : ip_conntrack_tuple)
    (maniptype : ip_nat_manip_type) : option sk_buff := Some skb.

(** ** The protocol table *)
Inductive ip_nat_protocol := nat_tcp | nat_udp | nat_icmp | nat_unknown.

(** [ip_nat_protos] as [ip_nat_init] fills it. *)
Definition __ip_nat_proto_find (protonum : Z) : ip_nat_protocol :=
  if protonum =? IPPROTO_TCP then nat_tcp
  else if protonum =? IPPROTO_UDP then nat_udp
  else if protonum =? IPPROTO_ICMP then nat_icmp
  else nat_unknown.

Definition proto_in_range (p : ip_nat_protocol) : ip_conntrack_tuple → ip_nat_manip_type → Z → Z → bool :=
  match p with
  | nat_tcp => tcp_in_range
  | nat_udp => udp_in_range
  | nat_icmp => icmp_in_range
  | nat_unknown => unknown_in_range
  end.

Definition proto_unique_tuple (p : ip_nat_protocol) (env : ct_env) (tuple : ip_conntrack_tuple)
    (range : ip_nat_range) (maniptype : ip_nat_manip_type) (conntrack : positive) (v : nat_vars)
    (s : ct_state) : option (bool * nat_vars * ip_conntrack_tuple) :=
  match p with
  | nat_tcp =>
      '(r, port, t) ← tcp_unique_tuple env tuple range maniptype conntrack (tcp_port_var v) s;
      Some (r, mk_nv port (udp_port_var v) (icmp_id_var v), t)
  | nat_udp =>
      '(r, port, t) ← udp_unique_tuple env tuple range maniptype conntrack (udp_port_var v) s;
      Some (r, mk_nv (tcp_port_var v) port (icmp_id_var v), t)
  | nat_icmp =>
      '(r, id, t) ← icmp_unique_tuple env tuple range maniptype conntrack (icmp_id_var v) s;
      Some (r, mk_nv (tcp_port_var v) (udp_port_var v) id, t)
  | nat_unknown => let (r, t) := unknown_unique_tuple tuple in Some (r, v, t)
  end.

Definition proto_manip_pkt (p : ip_nat_protocol) (ok : bool) (skb : sk_buff) (iphdroff : Z)
    (tuple : ip_conntrack_tuple) (maniptype : ip_nat_manip_type) : option sk_buff :=
  match p with
  | nat_tcp => tcp_manip_pkt ok skb iphdroff tuple maniptype
  | nat_udp => udp_manip_pkt ok skb iphdroff tuple maniptype
  | nat_icmp => icmp_manip_pkt ok skb iphdroff tuple maniptype
  | nat_unknown => unknown_manip_pkt skb iphdroff tuple maniptype
  end.
