(* ===== verification/NatCore.v ===== *)
(** * NAT: choice of mappings and translation of packets

    [net/ipv4/netfilter/ip_nat_core.c].  The state is the tracker's [ct_state],
    whose [bysource] chains belong to NAT, and the counters [nat_vars].

    An operation returns [None] where the code would use an indeterminate value
    (a tuple without inverse), divide by zero or hit a [BUG_ON]; the theorems on
    well-formed states show that it does not. *)
From S2P Require Import Prelude Packet CtBase TcpTrack CtProtos Conntrack NatProto.

(** ** Choosing a mapping *)
Definition hash_by_src (env : ct_env) (tuple : ip_conntrack_tuple) : Z :=
  jhash_3words (src_ip tuple) (src_u tuple) (protonum tuple) 0 mod ip_conntrack_htable_size env.

Definition jhash_2words (a b initval : Z) : Z := jhash_3words a b 0 initval.

Definition in_range (tuple : ip_conntrack_tuple) (range : ip_nat_range) : bool :=
  let proto := __ip_nat_proto_find (protonum tuple) in
  if flag (r_flags range) IP_NAT_RANGE_MAP_IPS
     && ((ntohl (src_ip tuple) <? ntohl (min_ip range))
         || (ntohl (max_ip range) <? ntohl (src_ip tuple)))
  then false
  else negb (flag (r_flags range) IP_NAT_RANGE_PROTO_SPECIFIED)
       || proto_in_range proto tuple IP_NAT_MANIP_SRC (r_min range) (r_max range).

Definition same_src (ct : ip_conntrack) (tuple : ip_conntrack_tuple) : bool :=
  (protonum (tuple_orig ct) =? protonum tuple) && (src_ip (tuple_orig ct) =? src_ip tuple)
  && (src_u (tuple_orig ct) =? src_u tuple).

Fixpoint find_appropriate_loop (l : list positive) (tuple : ip_conntrack_tuple)
    (range : ip_nat_range) (s : ct_state) : option (option ip_conntrack_tuple) :=
  match l with
  | [] => Some None
  | p :: l =>
      ct ← cts s !! p;
      if same_src ct tuple then
        r ← invert_tuplepr (tuple_reply ct);
        let result := mk_tuple (src_ip r) (src_u r) (dst_ip tuple) (dst_u tuple)
                        (protonum tuple) (dst_dir tuple) in
        if in_range result range then Some (Some result)
        else find_appropriate_loop l tuple range s
      else find_appropriate_loop l tuple range s
  end.

Definition find_appropriate_src (env : ct_env) (tuple : ip_conntrack_tuple) (range : ip_nat_range)
    (s : ct_state) : option (option ip_conntrack_tuple) :=
  find_appropriate_loop (default [] (bysource s !! hash_by_src env tuple)) tuple range s.

Definition set_tuple_ip (maniptype : ip_nat_manip_type) (v : Z) (tuple : ip_conntrack_tuple)
    : ip_conntrack_tuple :=
  match maniptype with
  | IP_NAT_MANIP_SRC => tuple <| src_ip := v |>
  | IP_NAT_MANIP_DST => tuple <| dst_ip := v |>
  end.

Definition find_best_ips_proto (tuple : ip_conntrack_tuple) (range : ip_nat_range)
    (maniptype : ip_nat_manip_type) : option ip_conntrack_tuple :=
  if negb (flag (r_flags range) IP_NAT_RANGE_MAP_IPS) then Some tuple
  else if min_ip range =? max_ip range then Some (set_tuple_ip maniptype (min_ip range) tuple)
  else
    let minip := ntohl (min_ip range) in
    let maxip := ntohl (max_ip range) in
    let j := jhash_2words (src_ip tuple) (dst_ip tuple) 0 in
    let n := u32 (maxip - minip + 1) in
    if n =? 0 then None
    else Some (set_tuple_ip maniptype (htonl (minip + j mod n)) tuple).

(** Steps 2 and 3 of [get_unique_tuple]. *)
Definition get_fresh_tuple (env : ct_env) (orig_tuple : ip_conntrack_tuple) (range : ip_nat_range)
    (conntrack : positive) (maniptype : ip_nat_manip_type) (v : nat_vars) (s : ct_state)
    : option (ip_conntrack_tuple * nat_vars) :=
  tuple ← find_best_ips_proto orig_tuple range maniptype;
  let proto := __ip_nat_proto_find (protonum orig_tuple) in
  ok ← (if negb (flag (r_flags range) IP_NAT_RANGE_PROTO_SPECIFIED)
           || proto_in_range proto tuple maniptype (r_min range) (r_max range)
        then used ← ip_nat_used_tuple env tuple conntrack s; Some (negb used)
        else Some false);
  if ok : bool then Some (tuple, v)
  else
    '(_, v, tuple) ← proto_unique_tuple proto env tuple range maniptype conntrack v s;
    Some (tuple, v).

Definition get_unique_tuple (env : ct_env) (orig_tuple : ip_conntrack_tuple) (range : ip_nat_range)
    (conntrack : positive) (maniptype : ip_nat_manip_type) (v : nat_vars) (s : ct_state)
    : option (ip_conntrack_tuple * nat_vars) :=
  match maniptype with
  | IP_NAT_MANIP_DST => get_fresh_tuple env orig_tuple range conntrack maniptype v s
  | IP_NAT_MANIP_SRC =>
      found ← find_appropriate_src env orig_tuple range s;
      match found with
      | None => get_fresh_tuple env orig_tuple range conntrack maniptype v s
      | Some tuple =>
          used ← ip_nat_used_tuple env tuple conntrack s;
          if negb used then Some (tuple, v)
          else get_fresh_tuple env orig_tuple range conntrack maniptype v s
      end
  end.

(** ** Recording it in the conntrack *)
Definition ip_nat_initialized (conntrack : ip_conntrack) (manip : ip_nat_manip_type) : bool :=
  match manip with
  | IP_NAT_MANIP_SRC => test_bit IPS_SRC_NAT_DONE_BIT conntrack
  | IP_NAT_MANIP_DST => test_bit IPS_DST_NAT_DONE_BIT conntrack
  end.

Definition nat_bit (maniptype : ip_nat_manip_type) : Z :=
  match maniptype with IP_NAT_MANIP_SRC => IPS_SRC_NAT | IP_NAT_MANIP_DST => IPS_DST_NAT end.
Definition nat_done_bit (maniptype : ip_nat_manip_type) : Z :=
  match maniptype with
  | IP_NAT_MANIP_SRC => IPS_SRC_NAT_DONE_BIT
  | IP_NAT_MANIP_DST => IPS_DST_NAT_DONE_BIT
  end.

(** With [CONFIG_STR9100_SHNAT] a destination mapping is also reported to the
    hardware's ARP table; that does not touch this state. *)
Definition ip_nat_setup_info (env : ct_env) (p : positive) (range : ip_nat_range) (hooknum : Z)
    (v : nat_vars) (s : ct_state) : option (Z * nat_vars * ct_state) :=
  conntrack ← cts s !! p;
  let have_to_hash := negb (flag (status conntrack) IPS_NAT_DONE_MASK) in
  let maniptype := HOOK2MANIP hooknum in
  if ip_nat_initialized conntrack maniptype then None
  else
    curr_tuple ← invert_tuplepr (tuple_reply conntrack);
    '(new_tuple, v) ← get_unique_tuple env curr_tuple range p maniptype v s;
    s ← (if negb (ip_ct_tuple_equal new_tuple curr_tuple) then
           reply ← invert_tuplepr new_tuple;
           let s := ip_conntrack_alter_reply p reply s in
           Some (upd_ct p (λ c, c <| status := Z.lor (status c) (nat_bit maniptype) |>) s)
         else Some s);
    let s := if have_to_hash then
               let srchash := hash_by_src env (tuple_orig conntrack) in
               s <| bysource := <[srchash := p :: default [] (bysource s !! srchash)]> (bysource s) |>
             else s in
    Some (NF_ACCEPT, v, upd_ct p (set_bit (nat_done_bit maniptype)) s).

(** ** Translating packets *)
Definition manip_pkt (ok : bool) (proto : Z) (skb : sk_buff) (iphdroff : Z)
    (target : ip_conntrack_tuple) (maniptype : ip_nat_manip_type) : option sk_buff :=
  if negb (skb_make_writable ok skb (iphdroff + 20)) then None
  else
    skb ← proto_manip_pkt (__ip_nat_proto_find proto) ok skb iphdroff target maniptype;
    let d := data skb in
    let iph := iphdr_at d iphdroff in
    let '(oldip, newip, addroff) :=
      match maniptype with
      | IP_NAT_MANIP_SRC => (saddr iph, src_ip target, 12)
      | IP_NAT_MANIP_DST => (daddr iph, dst_ip target, 16)
      end in
    let check := ip_nat_cheat_check (u32 (Z.lnot oldip)) newip (ip_check iph) in
    Some (skb <| data := st32 (iphdroff + addroff) newip (st16 (iphdroff + 10) check d) |>).

(** The status bit that says whether a packet of direction [dir] is manipulated. *)
Definition nat_statusbit (mtype : ip_nat_manip_type) (dir : ip_conntrack_dir) : Z :=
  match dir with
  | IP_CT_DIR_ORIGINAL => nat_bit mtype
  | IP_CT_DIR_REPLY => Z.lxor (nat_bit mtype) IPS_NAT_MASK
  end.

Definition ip_nat_packet (ok : bool) (ct : ip_conntrack) (ctinfo hooknum : Z) (skb : sk_buff)
    : option (Z * sk_buff) :=
  let dir := CTINFO2DIR ctinfo in
  let mtype := HOOK2MANIP hooknum in
  if flag (status ct) (nat_statusbit mtype dir) then
    target ← invert_tuplepr (tuplehash ct (dir_neg dir));
    match manip_pkt ok (protonum target) skb 0 target mtype with
    | Some skb => Some (NF_ACCEPT, skb)
    | None => Some (NF_DROP, skb)
    end
  else Some (NF_ACCEPT, skb).

Definition manip_neg (m : ip_nat_manip_type) : ip_nat_manip_type :=
  match m with IP_NAT_MANIP_SRC => IP_NAT_MANIP_DST | IP_NAT_MANIP_DST => IP_NAT_MANIP_SRC end.

(** An ICMP error about a translated packet.  The result is the return value and
    the packet; [None] again is the indeterminate case. *)
Definition ip_nat_icmp_reply_translation (ok : bool) (skb : sk_buff) (ct : ip_conntrack)
    (manip : ip_nat_manip_type) (dir : ip_conntrack_dir) : option (bool * sk_buff) :=
  let fail := Some (false, skb) in
  let hdrlen := ihl (skb_iph skb) * 4 in
  if negb (skb_make_writable ok skb (hdrlen + sizeof_icmphdr + 20)) then fail
  else if negb (ip_summed skb =? CHECKSUM_UNNECESSARY)
          && negb (u16 (csum_fold (skb_checksum skb hdrlen (skb_len skb - hdrlen) 0)) =? 0)
  then fail
  else
    let icmph := icmphdr_at (data skb) hdrlen in
    let inside := iphdr_at (data skb) (hdrlen + sizeof_icmphdr) in
    if (icmp_type icmph =? ICMP_REDIRECT)
       && (negb (Z.land (status ct) IPS_NAT_DONE_MASK =? IPS_NAT_DONE_MASK)
           || flag (status ct) IPS_NAT_MASK)
    then fail
    else match ip_ct_get_tuple inside skb (hdrlen + sizeof_icmphdr + ihl inside * 4)
                 (__ip_conntrack_proto_find (protocol inside)) with
    | None => fail
    | Some _ =>
      match manip_pkt ok (protocol inside) skb (hdrlen + sizeof_icmphdr)
              (tuplehash ct (dir_neg dir)) (manip_neg manip) with
      | None => fail
      | Some skb =>
        let d := st16 (hdrlen + 2) 0 (data skb) in
        let sum := u16 (csum_fold (skb_checksum (skb <| data := d |>) hdrlen (skb_len skb - hdrlen) 0)) in
        let skb := skb <| data := st16 (hdrlen + 2) sum d |> in
        if flag (status ct) (nat_statusbit manip dir) then
          target ← invert_tuplepr (tuplehash ct (dir_neg dir));
          match manip_pkt ok 0 skb 0 target manip with
          | Some skb => Some (true, skb)
          | None => Some (false, skb)
          end
        else Some (true, skb)
      end
    end.
