(* ===== verification/NatCsum.v ===== *)
(** * NAT keeps checksums as they were

    The incremental updates of [ip_nat_cheat_check] in [manip_pkt] and in the
    per-protocol [manip_pkt] functions: the IP header and the transport checksum
    verify after the translation exactly when they did before. *)
From S2P Require Import Prelude Packet CtBase TcpTrack CtProtos Conntrack Csum NatProto NatCore.

(** ** The incremental update *)
Lemma lxor_ffff c : is_u16 c → Z.lxor c 65535 = 65535 - c.
Proof.
  intros Hc. change 65535 with (Z.ones 16) at 1.
  assert (Z.land c (Z.lxor c (Z.ones 16)) = 0) as H0.
  { apply Z.bits_inj_iff. intros n. rewrite Z.land_spec, Z.lxor_spec, Z.bits_0.
    destruct (Z.ltb_spec n 0); [by rewrite Z.testbit_neg_r|].
    destruct (Z.ltb_spec n 16).
    - rewrite Z.ones_spec_low by lia. by destruct (Z.testbit c n).
    - replace (Z.testbit c n) with false; [done|]. symmetry.
      destruct (Z.eq_dec c 0) as [->|]; [apply Z.bits_0|].
      apply Z.bits_above_log2; [word_lia|].
      apply (Z.lt_le_trans _ 16); [|done]. apply Z.log2_lt_pow2; word_lia. }
  pose proof (Z.add_nocarry_lxor _ _ H0) as E.
  rewrite Z.lxor_assoc, Z.lxor_nilpotent in E || rewrite <- Z.lxor_assoc, Z.lxor_nilpotent in E.
  rewrite Z.lxor_0_l in E. change (Z.ones 16) with 65535 in *. lia.
Qed.

Lemma lnot_u32 x : is_u32 x → u32 (Z.lnot x) = 4294967295 - x.
Proof. intros. unfold Z.lnot. word_lia. Qed.

Lemma le32_bytes x : Forall is_u8 (le32 x).
Proof. unfold le32. repeat apply Forall_cons; try apply Forall_nil; unfold is_u8; lia. Qed.
Lemma le32_wsum x : is_u32 x → wsum true (le32 x) ≡₁ x ∧ (wsum true (le32 x) = 0 ↔ x = 0).
Proof. intros. unfold le32, is_u32, oeq in *. cbn [wsum negb]. split; lia. Qed.

Lemma cheat_check_spec inv new c : is_u32 inv → is_u32 new → is_u16 c →
  is_u16 (ip_nat_cheat_check inv new c) ∧
  ip_nat_cheat_check inv new c ≡₁ c - inv - new ∧
  (ip_nat_cheat_check inv new c = 0 → c - inv - new ≡₁ 0).
Proof.
  intros Hi Hn Hc. unfold ip_nat_cheat_check. rewrite lxor_ffff by done.
  destruct (csum_partial_spec (le32 inv ++ le32 new) (65535 - c)) as (Hr & He & _);
    [apply Forall_app; split; apply le32_bytes|word_lia|].
  destruct (csum_fold_spec _ Hr) as (Hf & Hfe & _).
  set (f := csum_fold _) in *. replace (u16 f) with f by word_lia.
  assert (wsum true (le32 inv ++ le32 new) = wsum true (le32 inv) + wsum true (le32 new)) as Hw.
  { unfold le32. cbn [app wsum negb]. lia. }
  rewrite Hw in He. destruct (le32_wsum inv Hi) as [H1 _]. destruct (le32_wsum new Hn) as [H2 _].
  clearbody f. clear Hw Hr. split; [done|].
  split; [|intros ->]; ones.
Qed.

(** The update with an old and a new 32-bit word, or an old and a new port. *)
Lemma cheat_check_word old new c : is_u32 old → is_u32 new → is_u16 c →
  is_u16 (ip_nat_cheat_check (u32 (Z.lnot old)) new c) ∧
  ip_nat_cheat_check (u32 (Z.lnot old)) new c ≡₁ c + old - new.
Proof.
  intros Ho Hn Hc. rewrite lnot_u32 by done.
  destruct (cheat_check_spec (4294967295 - old) new c) as (H & E & _); [word_lia|done..|].
  split; [done|]. clear H. ones.
Qed.
Lemma cheat_check_port old new c : is_u16 old → is_u16 new → is_u16 c →
  is_u16 (ip_nat_cheat_check (Z.lxor old 65535) new c) ∧
  ip_nat_cheat_check (Z.lxor old 65535) new c ≡₁ c + old - new.
Proof.
  intros Ho Hn Hc. rewrite lxor_ffff by done.
  destruct (cheat_check_spec (65535 - old) new c) as (H & E & _); [word_lia..|].
  split; [done|]. clear H. ones.
Qed.

(** ** When checksums verify *)
Definition hlen (d : list Z) (o : Z) : Z := ihl (iphdr_at d o) * 4.

Definition ip_sum_ok (d : list Z) : Prop := csum_fold (csum_partial (seg d 0 (hlen d 0)) 0) = 0.

(** The transport checksum of an unfragmented packet: over the pseudo-header for
    TCP and UDP, over the message alone for ICMP.  A UDP checksum field of 0, by which a
    sender says that there is none, counts as a sum like any other here; that NAT can
    write a 0 where there was a checksum is [udp_checksum_lost]. *)
Definition l4_len (d : list Z) : Z := Z.of_nat (length d) - hlen d 0.
Definition l4_sum (d : list Z) : Z := csum_partial (seg d (hlen d 0) (l4_len d)) 0.
Definition l4_sum_ok (d : list Z) : Prop :=
  let iph := iphdr_at d 0 in
  if (protocol iph =? IPPROTO_TCP) || (protocol iph =? IPPROTO_UDP)
  then csum_tcpudp_magic (saddr iph) (daddr iph) (l4_len d) (protocol iph) (l4_sum d) = 0
  else csum_fold (l4_sum d) = 0.

Lemma tcpudp_magic_ok sa da len proto sum :
  is_u32 sa → is_u32 da → is_u32 sum → ntohs proto ≠ 0 →
  csum_tcpudp_magic sa da len proto sum = 0 ↔
  sum + da + sa + ntohs (u16 len) + ntohs proto ≡₁ 0.
Proof.
  intros Hs Hd Hm Hp. unfold csum_tcpudp_magic.
  pose proof (ntohs_range (u16 len)). pose proof (ntohs_range proto).
  destruct (csum_add_spec sum da) as (H1 & E1 & _); [done..|].
  destruct (csum_add_spec (csum_add sum da) sa) as (H2 & E2 & _); [done..|].
  destruct (csum_add_spec (csum_add (csum_add sum da) sa) (ntohs (u16 len))) as (H3 & E3 & _);
    [done|word_lia|].
  set (x3 := csum_add (csum_add (csum_add sum da) sa) (ntohs (u16 len))) in *.
  destruct (csum_add_spec x3 (ntohs proto)) as (H4 & E4 & Z4); [done|word_lia|].
  destruct (csum_fold_spec _ H4) as (_ & _ & -> & _).
  assert (csum_add x3 (ntohs proto) ≠ 0) as Hnz by (rewrite Z4; intuition lia).
  clear Z4 H1 H2 H3 H4 H H0 Hs Hd Hm.
  split; [intros [_ Hz]; ones|intros Hz; split; [done|ones]].
Qed.

Lemma fold_seg_ok d off len : Forall is_u8 d → wsum true (seg d off len) ≠ 0 →
  csum_fold (csum_partial (seg d off len) 0) = 0 ↔ wsum true (seg d off len) ≡₁ 0.
Proof.
  intros Hb Hn. destruct (csum_partial_spec (seg d off len) 0) as (H & E & Hz);
    [auto with words|word_lia|].
  destruct (csum_fold_spec _ H) as (_ & _ & -> & _).
  assert (csum_partial (seg d off len) 0 ≠ 0) by (rewrite Hz; tauto). clear Hz H.
  split; [intros [_ ?]; ones|split; [done|ones]].
Qed.

(** A buffer with a non-zero byte does not sum to 0. *)
Lemma wsum_pos e l x : Forall is_u8 l → x ∈ l → x ≠ 0 → wsum e l ≠ 0.
Proof.
  intros H Hx Hn. revert e. induction H as [|a l Ha H IH]; intros e; [by apply elem_of_nil in Hx|].
  apply elem_of_cons in Hx as [->|Hx]; simpl; pose proof (wsum_nonneg (negb e) l H).
  - destruct e; word_lia.
  - specialize (IH Hx (negb e)). destruct e; word_lia.
Qed.
Lemma elem_seg d off len x : 0 <= off → off <= x → x < off + len → x < Z.of_nat (length d) →
  ld8 d x ∈ seg d off len.
Proof.
  intros. unfold ld8, seg. destruct (lookup_lt_is_Some_2 d (Z.to_nat x)) as [v Hv]; [lia|].
  rewrite Hv. simpl. apply list_elem_of_lookup_2 with (Z.to_nat x - Z.to_nat off)%nat.
  rewrite lookup_take_lt by lia. rewrite lookup_drop.
  by replace (Z.to_nat off + (Z.to_nat x - Z.to_nat off))%nat with (Z.to_nat x) by lia.
Qed.

(** ** A well-formed IP packet *)
Record ip_wf (d : list Z) : Prop := {
  iw_bytes : Forall is_u8 d;
  iw_ihl : 5 <= ihl (iphdr_at d 0);
  iw_len : hlen d 0 + 8 <= Z.of_nat (length d) }.

Lemma ihl_bound d o : 0 <= ihl (iphdr_at d o) <= 15.
Proof.
  unfold iphdr_at. simpl. pose proof (Z.land_ones (ld8 d o) 4 ltac:(lia)) as H.
  change (Z.ones 4) with 15 in H. rewrite H. change (2 ^ 4) with 16. lia.
Qed.

Lemma ip_header_pos d : ip_wf d → wsum true (seg d 0 (hlen d 0)) ≠ 0.
Proof.
  intros [Hb Hi Hl]. unfold hlen in *. apply (wsum_pos _ _ (ld8 d 0)); [auto with words| |].
  - apply elem_seg; lia.
  - intros E. unfold iphdr_at in Hi. simpl in Hi. by rewrite E in Hi.
Qed.

(** Bytes in front of [h] are not touched. *)
Definition same_before (h : Z) (d d' : list Z) : Prop :=
  length d' = length d ∧ ∀ x, 0 <= x < h → ld8 d' x = ld8 d x.

Lemma same_before_seg h d d' off len : same_before h d d' → 0 <= off → 0 <= len →
  off + len <= h → h <= Z.of_nat (length d) → seg d' off len = seg d off len.
Proof.
  intros [Hl H] ????. unfold seg. apply list_eq_same_length with (Z.to_nat len);
    [rewrite length_take, length_drop; lia..|].
  intros i x y Hi. rewrite !lookup_take_lt, !lookup_drop by lia. intros Hx Hy.
  specialize (H (off + Z.of_nat i) ltac:(lia)). unfold ld8 in H.
  replace (Z.to_nat (off + Z.of_nat i)) with (Z.to_nat off + i)%nat in H by lia.
  by rewrite Hx, Hy in H.
Qed.
Lemma same_before_iph h d d' o : same_before h d d' → 0 <= o → o + 20 <= h →
  iphdr_at d' o = iphdr_at d o.
Proof. intros [_ H] ??. unfold iphdr_at, ld32, ld16. by rewrite !H by lia. Qed.
Lemma same_before_st16 h o v d : h <= o → 0 <= h → o + 1 < Z.of_nat (length d) →
  same_before h d (st16 o v d).
Proof.
  intros. split; [apply st16_length|]. intros x Hx. apply ld8_st16_ne; lia.
Qed.
Lemma same_before_trans h d d' d'' : same_before h d d' → same_before h d' d'' →
  same_before h d d''.
Proof. intros [L1 H1] [L2 H2]. split; [congruence|]. intros x Hx. by rewrite H2, H1. Qed.

(** ** What the protocols' [manip_pkt] change *)
Record tuple_words (t : ip_conntrack_tuple) : Prop := {
  tw_src_ip : is_u32 (src_ip t); tw_src_u : is_u16 (src_u t);
  tw_dst_ip : is_u32 (dst_ip t); tw_dst_u : is_u16 (dst_u t) }.

Definition old_ip (m : ip_nat_manip_type) (iph : iphdr) : Z :=
  match m with IP_NAT_MANIP_SRC => saddr iph | IP_NAT_MANIP_DST => daddr iph end.
Definition new_ip (m : ip_nat_manip_type) (t : ip_conntrack_tuple) : Z :=
  match m with IP_NAT_MANIP_SRC => src_ip t | IP_NAT_MANIP_DST => dst_ip t end.
Definition port_off (m : ip_nat_manip_type) : Z :=
  match m with IP_NAT_MANIP_SRC => 0 | IP_NAT_MANIP_DST => 2 end.

(** [d'] is [d] with its transport part from [h] on edited so that its sum grows
    by [delta]. *)
Record l4_edit (h delta : Z) (d d' : list Z) : Prop := {
  le_before : same_before h d d';
  le_bytes : Forall is_u8 d';
  le_sum : wsum true (seg d' h (Z.of_nat (length d) - h)) ≡₁
           wsum true (seg d h (Z.of_nat (length d) - h)) + delta }.

Lemma l4_edit_st16 h d o v : Forall is_u8 d → 0 <= h → h <= o → o + 2 <= Z.of_nat (length d) →
  Z.even (o - h) = true → is_u16 v → l4_edit h (v - ld16 d o) d (st16 o v d).
Proof.
  intros. split; [apply same_before_st16; lia|auto with words|].
  rewrite wsum_seg_st16 by (done || lia). ones.
Qed.
Lemma l4_edit_trans h a b d d' d'' : l4_edit h a d d' → l4_edit h b d' d'' → l4_edit h (a + b) d d''.
Proof.
  intros [B1 _ S1] [B2 Y2 S2]. pose proof B1 as [L1 _].
  split; [by eapply same_before_trans|done|]. rewrite <- L1 in *. ones.
Qed.
Lemma l4_edit_delta h a b d d' : l4_edit h a d d' → a ≡₁ b → l4_edit h b d d'.
Proof. intros [B Y S] E. split; [done..|]. ones. Qed.

Lemma manip_parts_eq iph t m :
  manip_parts iph t m = (old_ip m iph, new_ip m t, tuple_port m t, port_off m).
Proof. by destruct m. Qed.
Lemma old_ip_word m d : Forall is_u8 d → is_u32 (old_ip m (iphdr_at d 0)).
Proof. destruct m; simpl; auto with words. Qed.
Lemma new_ip_word m t : tuple_words t → is_u32 (new_ip m t).
Proof. by intros []; destruct m. Qed.
Lemma new_port_word m t : tuple_words t → is_u16 (tuple_port m t).
Proof. by intros []; destruct m. Qed.
#[local] Hint Resolve old_ip_word new_ip_word new_port_word : words.

Lemma even_sub h k : Z.even k = true → Z.even (h + k - h) = true.
Proof. intros. by replace (h + k - h) with k by lia. Qed.

Lemma h_range d : ip_wf d → 20 <= hlen d 0 ∧ hlen d 0 + 8 <= Z.of_nat (length d).
Proof. intros [_ Hi Hl]. unfold hlen in *. lia. Qed.

Section Manip.
Context (ok : bool) (skb : sk_buff) (t : ip_conntrack_tuple) (m : ip_nat_manip_type).
Context (Hwf : ip_wf (data skb)) (Ht : tuple_words t).
Let d := data skb.
Let h := hlen d 0.
Let oldip := old_ip m (iphdr_at d 0).
Let newip := new_ip m t.

Lemma tcp_manip_edit skb' :
  h + 20 <= Z.of_nat (length d) → tcp_manip_pkt ok skb 0 t m = Some skb' →
  skb' = skb <| data := data skb' |> ∧ l4_edit h (oldip - newip) d (data skb') ∧
  ∀ m', ld16 (data skb') (h + port_off m') =
        if decide (m' = m) then tuple_port m t else ld16 d (h + port_off m').
Proof.
  intros Hfull. unfold tcp_manip_pkt. rewrite Z.add_0_l. fold (hlen (data skb) 0). fold d. fold h.
  unfold skb_len. fold d. unfold sizeof_tcphdr.
  destruct (Z.leb_spec (h + 20) (Z.of_nat (length d))); [|lia].
  destruct (negb _); [done|]. rewrite manip_parts_eq.
  destruct (Z.ltb_spec 20 20); [lia|]. intros [= <-]. cbn [data update upd_data].
  destruct (h_range _ Hwf) as [Hh _]. fold d in Hh. fold h in Hh. pose proof (iw_bytes _ Hwf) as Hb. fold d in Hb.
  assert (0 <= port_off m <= 2 ∧ Z.even (port_off m) = true) as [Hp He] by (by destruct m).
  set (po := h + port_off m) in *. set (d1 := st16 po (tuple_port m t) d) in *.
  assert (length d1 = length d) as L1 by apply st16_length.
  assert (ld16 d1 (h + 16) = ld16 d (h + 16)) as -> by (apply ld16_st16_ne; unfold po; lia).
  destruct (cheat_check_port (ld16 d po) (tuple_port m t) (ld16 d (h + 16))) as [W1 E1];
    [auto with words..|].
  set (c1 := ip_nat_cheat_check _ _ (ld16 d (h + 16))) in *.
  destruct (cheat_check_word oldip newip c1) as [W2 E2]; [unfold oldip, newip; auto with words..|].
  fold oldip newip. set (c2 := ip_nat_cheat_check _ _ c1) in *. split; [done|].
  assert (l4_edit h (tuple_port m t - ld16 d po) d d1) as X1
    by (apply l4_edit_st16; [done|unfold po; lia..| |auto with words]; unfold po; by apply even_sub).
  split.
  - eapply l4_edit_delta.
    + eapply l4_edit_trans; [exact X1|].
      apply (l4_edit_st16 h d1 (h + 16) c2); [by eapply le_bytes|lia..|by apply even_sub|done].
    + assert (ld16 d1 (h + 16) = ld16 d (h + 16)) as -> by (apply ld16_st16_ne; unfold po; lia).
      clear X1 W1 W2. ones.
  - intros m'. rewrite ld16_st16_ne by (destruct m'; simpl; lia).
    destruct (decide (m' = m)) as [->|Hne]; [apply ld16_st16; unfold po; auto with words; lia|].
    apply ld16_st16_ne; unfold po; destruct m, m'; simpl; try done; lia.
Qed.

Lemma udp_manip_edit skb' :
  udp_manip_pkt ok skb 0 t m = Some skb' →
  skb' = skb <| data := data skb' |> ∧
  (∀ m', ld16 (data skb') (h + port_off m') =
         if decide (m' = m) then tuple_port m t else ld16 d (h + port_off m')) ∧
  same_before h d (data skb') ∧ Forall is_u8 (data skb') ∧
  if ld16 d (h + 6) =? 0 then ld16 (data skb') (h + 6) = 0
  else l4_edit h (oldip - newip) d (data skb').
Proof.
  unfold udp_manip_pkt. rewrite Z.add_0_l. fold (hlen (data skb) 0). fold d. fold h.
  destruct (negb (skb_make_writable _ _ _)); [done|]. rewrite manip_parts_eq.
  intros [= <-]. cbn [data update upd_data]. split; [done|].
  destruct (h_range _ Hwf) as [Hh Hl]. fold d in Hh, Hl. fold h in Hh, Hl.
  pose proof (iw_bytes _ Hwf) as Hb. fold d in Hb.
  assert (0 <= port_off m <= 2 ∧ Z.even (port_off m) = true) as [Hp He] by (by destruct m).
  fold oldip newip. set (po := h + port_off m) in *.
  destruct (cheat_check_port (ld16 d po) (tuple_port m t) (ld16 d (h + 6))) as [W1 E1];
    [auto with words..|].
  set (c1 := ip_nat_cheat_check _ _ (ld16 d (h + 6))) in *.
  destruct (cheat_check_word oldip newip c1) as [W2 E2]; [unfold oldip, newip; auto with words..|].
  set (c2 := ip_nat_cheat_check _ _ c1) in *.
  set (d1 := if negb _ then _ else _).
  assert (Forall is_u8 d1 ∧ length d1 = length d ∧ same_before h d d1 ∧
          ∀ m', ld16 d1 (h + port_off m') = ld16 d (h + port_off m')) as (B1 & L1 & S1 & P1).
  { unfold d1. destruct (negb _); [|done]. split_and!; [auto with words|apply st16_length| |].
    - apply same_before_st16; lia.
    - intros m'. apply ld16_st16_ne; destruct m'; simpl; lia. }
  assert (same_before h d1 (st16 po (tuple_port m t) d1)) as S2
    by (apply same_before_st16; unfold po; lia).
  split_and!.
  - intros m'. destruct (decide (m' = m)) as [->|Hne];
      [apply ld16_st16; unfold po; auto with words; lia|].
    rewrite ld16_st16_ne; [apply P1|unfold po; destruct m, m'; simpl; try done; lia..].
  - by eapply same_before_trans.
  - auto with words.
  - destruct (Z.eqb_spec (ld16 d (h + 6)) 0) as [Hz|Hz]; simpl in d1; subst d1.
    + rewrite ld16_st16_ne; unfold po; lia.
    + eapply l4_edit_delta.
      * eapply l4_edit_trans.
        -- apply (l4_edit_st16 h d (h + 6) c2); [done|lia..|by apply even_sub|done].
        -- apply (l4_edit_st16 h _ po); [auto with words|unfold po; lia..| |auto with words].
           unfold po. by apply even_sub.
      * rewrite (P1 m) || (unfold po; rewrite (P1 m)). fold po. clear P1 W1 W2. ones.
Qed.

Lemma icmp_manip_edit skb' :
  icmp_manip_pkt ok skb 0 t m = Some skb' →
  skb' = skb <| data := data skb' |> ∧ l4_edit h 0 d (data skb') ∧
  ld16 (data skb') (h + 4) = src_u t ∧ ld16 (data skb') h = ld16 d h ∧
  ∀ x, h + 6 <= x → ld8 (data skb') x = ld8 d x.
Proof.
  unfold icmp_manip_pkt. rewrite Z.add_0_l. fold (hlen (data skb) 0). fold d. fold h.
  destruct (negb (skb_make_writable _ _ _)); [done|].
  intros [= <-]. cbn [data update upd_data]. split; [done|].
  destruct (h_range _ Hwf) as [Hh Hl]. fold d in Hh, Hl. fold h in Hh, Hl.
  pose proof (iw_bytes _ Hwf) as Hb. fold d in Hb. pose proof (tw_src_u _ Ht) as Hu.
  destruct (cheat_check_port (ld16 d (h + 4)) (src_u t) (ld16 d (h + 2))) as [W1 E1];
    [auto with words..|].
  set (c1 := ip_nat_cheat_check _ _ (ld16 d (h + 2))) in *.
  assert (length (st16 (h + 2) c1 d) = length d) as L by apply st16_length.
  split_and!.
  - eapply l4_edit_delta.
    + eapply l4_edit_trans.
      * apply (l4_edit_st16 h d (h + 2) c1); [done|lia..|by apply even_sub|done].
      * apply (l4_edit_st16 h _ (h + 4)); [auto with words|lia..|by apply even_sub|done].
    + rewrite (ld16_st16_ne (h + 2) (h + 4)) by lia. clear W1. ones.
  - apply ld16_st16; [lia..|done].
  - rewrite !ld16_st16_ne by lia. done.
  - intros x Hx. rewrite !ld8_st16_ne by lia. done.
Qed.
End Manip.

(** ** The IP header *)
Definition addr_off (m : ip_nat_manip_type) : Z :=
  match m with IP_NAT_MANIP_SRC => 12 | IP_NAT_MANIP_DST => 16 end.

(** The header edit of [manip_pkt]. *)
Definition set_addr (m : ip_nat_manip_type) (o ip : Z) (d : list Z) : list Z :=
  st32 (o + addr_off m) ip
    (st16 (o + 10)
       (ip_nat_cheat_check (u32 (Z.lnot (old_ip m (iphdr_at d o)))) ip (ld16 d (o + 10))) d).

Lemma manip_pkt_eq ok proto skb o t m :
  manip_pkt ok proto skb o t m =
  if negb (skb_make_writable ok skb (o + 20)) then None
  else skb' ← proto_manip_pkt (__ip_nat_proto_find proto) ok skb o t m;
       Some (skb' <| data := set_addr m o (new_ip m t) (data skb') |>).
Proof.
  unfold manip_pkt. destruct (negb _); [done|].
  destruct (proto_manip_pkt _ _ _ _ _ _); [|done]. by destruct m.
Qed.

Lemma set_addr_length m o ip d : length (set_addr m o ip d) = length d.
Proof. unfold set_addr. by rewrite st32_length, st16_length. Qed.
Lemma set_addr_bytes m o ip d : Forall is_u8 d → Forall is_u8 (set_addr m o ip d).
Proof. unfold set_addr. auto with words. Qed.

Lemma set_addr_iph m ip d : 20 <= Z.of_nat (length d) → is_u32 ip →
  ihl (iphdr_at (set_addr m 0 ip d) 0) = ihl (iphdr_at d 0) ∧
  protocol (iphdr_at (set_addr m 0 ip d) 0) = protocol (iphdr_at d 0) ∧
  frag_off (iphdr_at (set_addr m 0 ip d) 0) = frag_off (iphdr_at d 0) ∧
  ∀ m', old_ip m' (iphdr_at (set_addr m 0 ip d) 0) =
        if decide (m' = m) then ip else old_ip m' (iphdr_at d 0).
Proof.
  intros Hl Hip. unfold set_addr. rewrite !Z.add_0_l. set (c := ip_nat_cheat_check _ _ _).
  assert (length (st16 10 c d) = length d) as L by apply st16_length.
  assert (12 <= addr_off m <= 16) as Ha by (destruct m; simpl; lia).
  unfold iphdr_at. cbn [ihl protocol frag_off]. rewrite !Z.add_0_l. split_and!.
  - rewrite ld8_st32_ne, ld8_st16_ne by lia. done.
  - rewrite ld8_st32_ne, ld8_st16_ne by lia. done.
  - rewrite ld16_st32_ne, ld16_st16_ne by lia. done.
  - intros m'. destruct (decide (m' = m)) as [->|Hne].
    + destruct m; cbn [old_ip saddr daddr addr_off]; apply ld32_st32; lia || done.
    + destruct m, m'; try done; cbn [old_ip saddr daddr addr_off];
        rewrite ld32_st32_ne, ld32_st16_ne by lia; done.
Qed.

Lemma set_addr_after m ip d x : 20 <= Z.of_nat (length d) → 20 <= x →
  ld8 (set_addr m 0 ip d) x = ld8 d x.
Proof.
  intros. unfold set_addr. assert (12 <= addr_off m <= 16) by (destruct m; simpl; lia).
  rewrite ld8_st32_ne, ld8_st16_ne by (rewrite ?st16_length; lia). done.
Qed.
Lemma set_addr_seg m ip d off len : 20 <= off → 0 <= len →
  seg (set_addr m 0 ip d) off len = seg d off len.
Proof.
  intros. unfold set_addr. assert (12 <= addr_off m <= 16) by (destruct m; simpl; lia).
  rewrite seg_st32_out, seg_st16_out by lia. done.
Qed.

Lemma set_addr_sum m ip d h : Forall is_u8 d → is_u32 ip → 20 <= h → h <= Z.of_nat (length d) →
  wsum true (seg (set_addr m 0 ip d) 0 h) ≡₁ wsum true (seg d 0 h).
Proof.
  intros Hb Hip Hh Hl. unfold set_addr. rewrite !Z.add_0_l.
  destruct (cheat_check_word (old_ip m (iphdr_at d 0)) ip (ld16 d 10)) as [W E];
    [auto with words..|].
  set (c := ip_nat_cheat_check _ _ _) in *.
  assert (12 <= addr_off m <= 16 ∧ Z.even (addr_off m) = true) as [Ha He] by (destruct m; simpl; split; lia || done).
  pose proof (wsum_seg_st32 (addr_off m) ip (st16 10 c d) 0 h) as H1.
  pose proof (wsum_seg_st16 10 c d 0 h ltac:(lia) ltac:(lia) ltac:(lia) ltac:(lia) eq_refl W) as H2.
  assert (ld32 (st16 10 c d) (addr_off m) = old_ip m (iphdr_at d 0)) as H3
    by (rewrite ld32_st16_ne by lia; by destruct m).
  rewrite H3 in H1. rewrite Z.sub_0_r in H1. rewrite st16_length in H1.
  specialize (H1 ltac:(lia) ltac:(lia) ltac:(lia) ltac:(lia) He Hip (st16_bytes 10 c d Hb)).
  clear He W Hip H3 Hb. ones.
Qed.

(** ** The effect of [manip_pkt] on a whole packet *)
Definition ports_set (m : ip_nat_manip_type) (t : ip_conntrack_tuple) (h : Z) (d d' : list Z) : Prop :=
  ∀ m', ld16 d' (h + port_off m') =
        if decide (m' = m) then tuple_port m t else ld16 d (h + port_off m').

(** A packet whose transport header is complete. *)
Record pkt_wf (d : list Z) : Prop := {
  pw_ip : ip_wf d;
  pw_tcp : protocol (iphdr_at d 0) = IPPROTO_TCP → hlen d 0 + 20 <= Z.of_nat (length d) }.

(** The transport part [d1] between the protocol's edit and the header's. *)
Definition l4_effect (m : ip_nat_manip_type) (t : ip_conntrack_tuple) (d d1 : list Z) : Prop :=
  let h := hlen d 0 in
  let delta := old_ip m (iphdr_at d 0) - new_ip m t in
  match __ip_nat_proto_find (protocol (iphdr_at d 0)) with
  | nat_tcp => l4_edit h delta d d1 ∧ ports_set m t h d d1
  | nat_udp => ports_set m t h d d1 ∧
               if ld16 d (h + 6) =? 0 then ld16 d1 (h + 6) = 0 else l4_edit h delta d d1
  | nat_icmp => l4_edit h 0 d d1 ∧ ld16 d1 (h + 4) = src_u t ∧ ld16 d1 h = ld16 d h ∧
                ∀ x, h + 6 <= x → ld8 d1 x = ld8 d x
  | nat_unknown => d1 = d
  end.

Lemma manip_effect ok skb t m skb' :
  pkt_wf (data skb) → tuple_words t →
  manip_pkt ok (protocol (skb_iph skb)) skb 0 t m = Some skb' →
  ∃ d1, skb' = skb <| data := set_addr m 0 (new_ip m t) d1 |> ∧
    same_before (hlen (data skb) 0) (data skb) d1 ∧ Forall is_u8 d1 ∧
    l4_effect m t (data skb) d1.
Proof.
  intros [Hip Htcp] Ht. rewrite manip_pkt_eq. destruct (negb _); [done|].
  intros (skb1 & H1 & [= <-])%bind_Some. exists (data skb1).
  unfold l4_effect, skb_iph in *. unfold __ip_nat_proto_find in *.
  destruct (Z.eqb_spec (protocol (iphdr_at (data skb) 0)) IPPROTO_TCP) as [Et|_];
    [|destruct (_ =? IPPROTO_UDP); [|destruct (_ =? IPPROTO_ICMP)]]; simpl in H1.
  - destruct (tcp_manip_edit ok skb t m Hip Ht skb1 (Htcp Et) H1) as (-> & HE & HP).
    split; [done|]. split_and!; [apply HE|by eapply le_bytes|done|done].
  - destruct (udp_manip_edit ok skb t m Hip Ht skb1 H1) as (-> & HP & HS & HB & HC).
    split_and!; done.
  - destruct (icmp_manip_edit ok skb t m Hip Ht skb1 H1) as (-> & HE & H2 & H3 & H4).
    split_and!; first [done | apply HE | by eapply le_bytes].
  - unfold unknown_manip_pkt in H1. injection H1 as <-.
    split_and!; first [done | apply Hip | by destruct skb].
Qed.

Section Effect.
Context (m : ip_nat_manip_type) (t : ip_conntrack_tuple) (d d1 : list Z).
Context (Hip : ip_wf d) (Ht : tuple_words t).
Context (Hs : same_before (hlen d 0) d d1) (Hb : Forall is_u8 d1).
Let d' := set_addr m 0 (new_ip m t) d1.

Lemma effect_iph :
  length d' = length d ∧ Forall is_u8 d' ∧ hlen d' 0 = hlen d 0 ∧
  protocol (iphdr_at d' 0) = protocol (iphdr_at d 0) ∧
  frag_off (iphdr_at d' 0) = frag_off (iphdr_at d 0) ∧
  ∀ m', old_ip m' (iphdr_at d' 0) =
        if decide (m' = m) then new_ip m t else old_ip m' (iphdr_at d 0).
Proof.
  destruct (h_range _ Hip) as [Hh Hl]. pose proof (proj1 Hs) as L1.
  destruct (set_addr_iph m (new_ip m t) d1) as (A1 & A2 & A3 & A4); [lia|auto with words|].
  fold d' in A1, A2, A3, A4. rewrite (same_before_iph _ _ _ 0 Hs) in A1, A2, A3 by lia.
  split_and!; try done.
  - unfold d'. by rewrite set_addr_length.
  - by apply set_addr_bytes.
  - unfold hlen. by rewrite A1.
  - intros m'. rewrite A4. by rewrite (same_before_iph _ _ _ 0 Hs) by lia.
Qed.

Lemma effect_ip_sum : ip_sum_ok d' ↔ ip_sum_ok d.
Proof.
  destruct effect_iph as (L & B & Hh' & _). destruct (h_range _ Hip) as [Hh Hl].
  pose proof (proj1 Hs) as L1.
  unfold ip_sum_ok. rewrite Hh'.
  assert (ip_wf d') as Hwf'.
  { destruct Hip as [_ Hi _]. split; [done|unfold hlen in *; lia|lia]. }
  pose proof (ip_header_pos d' Hwf') as P'. rewrite Hh' in P'.
  rewrite !fold_seg_ok by (done || apply Hip || by apply ip_header_pos).
  pose proof (set_addr_sum m (new_ip m t) d1 (hlen d 0) Hb (new_ip_word m t Ht) Hh ltac:(lia)) as E.
  fold d' in E. rewrite (same_before_seg _ _ _ 0 (hlen d 0) Hs) in E by lia. ones.
Qed.

(** The transport checksum, with [delta] added to the sum and the address of
    the pseudo-header replaced. *)
Lemma effect_pseudo_sum :
  protocol (iphdr_at d 0) = IPPROTO_TCP ∨ protocol (iphdr_at d 0) = IPPROTO_UDP →
  l4_edit (hlen d 0) (old_ip m (iphdr_at d 0) - new_ip m t) d d1 →
  l4_sum_ok d' ↔ l4_sum_ok d.
Proof.
  intros Hp HE. destruct effect_iph as (L & B & Hh' & Ep & _ & EA).
  destruct (h_range _ Hip) as [Hh Hl]. pose proof (iw_bytes _ Hip) as Bd.
  unfold l4_sum_ok, l4_sum, l4_len. rewrite Hh', Ep, L.
  assert ((protocol (iphdr_at d 0) =? IPPROTO_TCP) || (protocol (iphdr_at d 0) =? IPPROTO_UDP) = true)
    as -> by (destruct Hp as [-> | ->]; done).
  assert (seg d' (hlen d 0) (Z.of_nat (length d) - hlen d 0) =
          seg d1 (hlen d 0) (Z.of_nat (length d) - hlen d 0)) as -> by (apply set_addr_seg; lia).
  assert (ntohs (protocol (iphdr_at d 0)) ≠ 0) as Hn by (by destruct Hp as [-> | ->]).
  destruct (csum_partial_spec (seg d1 (hlen d 0) (Z.of_nat (length d) - hlen d 0)) 0)
    as (U1 & E1 & _); [auto with words|word_lia|].
  destruct (csum_partial_spec (seg d (hlen d 0) (Z.of_nat (length d) - hlen d 0)) 0)
    as (U2 & E2 & _); [auto with words|word_lia|].
  pose proof (EA IP_NAT_MANIP_SRC) as ES. pose proof (EA IP_NAT_MANIP_DST) as ED.
  cbn [old_ip] in ES, ED.
  rewrite !tcpudp_magic_ok by first [done | unfold iphdr_at; cbn [saddr daddr]; auto with words].
  rewrite ES, ED. destruct HE as [_ _ Hsum].
  destruct m; cbn [old_ip decide] in *; repeat case_decide; try done; clear - E1 E2 Hsum; ones.
Qed.
End Effect.

(** An ICMP message with a byte outside its identifier and checksum set, so that
    it cannot be all zero. *)
Definition icmp_nonzero (d : list Z) : Prop :=
  ∃ x, hlen d 0 <= x < Z.of_nat (length d) ∧ (x < hlen d 0 + 2 ∨ hlen d 0 + 6 <= x) ∧ ld8 d x ≠ 0.

Lemma effect_icmp_sum m t d d1 : ip_wf d → tuple_words t → same_before (hlen d 0) d d1 →
  protocol (iphdr_at d 0) = IPPROTO_ICMP → icmp_nonzero d →
  l4_effect m t d d1 → l4_sum_ok (set_addr m 0 (new_ip m t) d1) ↔ l4_sum_ok d.
Proof.
  intros Hip Ht Hs Hp (x & Hx & Hx' & Hnz) HE. unfold l4_effect in HE. rewrite Hp in HE.
  destruct HE as (HE & _ & H16 & H6). destruct HE as [_ Bd Hsum].
  destruct (effect_iph m t d d1 Hip Ht Hs Bd) as (L & B & Hh' & Ep & _).
  destruct (h_range _ Hip) as [Hh Hl]. pose proof (iw_bytes _ Hip) as Bd0.
  unfold l4_sum_ok, l4_sum, l4_len. rewrite Hh', Ep, L, Hp. simpl orb. cbv iota.
  rewrite set_addr_seg by lia. pose proof (proj1 Hs) as L1.
  assert (ld8 d1 x = ld8 d x) as Hx1.
  { destruct Hx' as [Hx'|Hx']; [|by apply H6]. unfold ld16 in H16.
    pose proof (ld8_range d1 (hlen d 0) Bd). pose proof (ld8_range d (hlen d 0) Bd0).
    assert (x = hlen d 0 ∨ x = hlen d 0 + 1) as [-> | ->] by lia; word_lia. }
  rewrite !fold_seg_ok.
  - rewrite Z.add_0_r in Hsum. clear - Hsum. ones.
  - done.
  - apply (wsum_pos _ _ (ld8 d x)); [auto with words|apply elem_seg; lia|done].
  - done.
  - apply (wsum_pos _ _ (ld8 d1 x)); [auto with words|apply elem_seg; lia|by rewrite Hx1].
Qed.

(** C19: NAT leaves checksums as it found them.  When [manip_pkt] translates the
    source or destination of a packet to any target tuple, the IP header's
    checksum verifies afterwards exactly when it did before, and so does the TCP,
    UDP or ICMP checksum; a UDP checksum of 0, which means "none", stays 0.  As the
    comment on [ip_nat_cheat_check] says: wrong ones are still wrong.  (The ICMP
    case is for messages that are not all zero outside identifier and checksum.) *)
Theorem nat_preserves_checksums ok skb t m skb' :
  pkt_wf (data skb) → tuple_words t →
  (protocol (skb_iph skb) = IPPROTO_ICMP → icmp_nonzero (data skb)) →
  manip_pkt ok (protocol (skb_iph skb)) skb 0 t m = Some skb' →
  (ip_sum_ok (data skb') ↔ ip_sum_ok (data skb)) ∧
  match __ip_nat_proto_find (protocol (skb_iph skb)) with
  | nat_tcp | nat_icmp => l4_sum_ok (data skb') ↔ l4_sum_ok (data skb)
  | nat_udp => if ld16 (data skb) (hlen (data skb) 0 + 6) =? 0
               then ld16 (data skb') (hlen (data skb) 0 + 6) = 0
               else l4_sum_ok (data skb') ↔ l4_sum_ok (data skb)
  | nat_unknown => ∀ x, hlen (data skb) 0 <= x → ld8 (data skb') x = ld8 (data skb) x
  end.
Proof.
  intros Hwf Ht Hnz H. destruct (manip_effect _ _ _ _ _ Hwf Ht H) as (d1 & -> & Hs & Hb & HE).
  pose proof (pw_ip _ Hwf) as Hip. cbn [data update upd_data].
  destruct (h_range _ Hip) as [Hh Hl]. pose proof (proj1 Hs) as L1.
  split; [by apply effect_ip_sum|]. pose proof HE as HE'. unfold l4_effect in HE'.
  unfold skb_iph in *. unfold __ip_nat_proto_find in *.
  destruct (Z.eqb_spec (protocol (iphdr_at (data skb) 0)) IPPROTO_TCP) as [Et|_].
  { apply effect_pseudo_sum; tauto. }
  destruct (Z.eqb_spec (protocol (iphdr_at (data skb) 0)) IPPROTO_UDP) as [Eu|_].
  { destruct HE' as [_ HC]. destruct (_ =? 0); [|apply effect_pseudo_sum; tauto].
    unfold ld16. rewrite !set_addr_after by lia. exact HC. }
  destruct (Z.eqb_spec (protocol (iphdr_at (data skb) 0)) IPPROTO_ICMP) as [Ei|_].
  - apply effect_icmp_sum; auto.
  - subst d1. intros x Hx. apply set_addr_after; lia.
Qed.

(** ** Witnesses and findings *)
Definition snat_target : ip_conntrack_tuple :=
  mk_tuple (htonl 3232235777) (htons 40000) (htonl 134744072) (htons 53) 17 IP_CT_DIR_ORIGINAL.
Definition dns_pkt : sk_buff :=
  ip_pkt 17 167772161 134744072 (be16 5353 ++ be16 53 ++ be16 12 ++ be16 4660 ++ [1; 2; 3; 4]).

Lemma bytes_ok d : forallb (λ x, (0 <=? x) && (x <? 256)) d = true → Forall is_u8 d.
Proof.
  intros H. apply Forall_forall. intros x Hx. rewrite forallb_forall in H.
  specialize (H x Hx). unfold is_u8. lia.
Qed.

Lemma nat_preserves_checksums_witness :
  ∃ skb', manip_pkt true 17 dns_pkt 0 snat_target IP_NAT_MANIP_SRC = Some skb' ∧
    (ip_sum_ok (data skb') ↔ ip_sum_ok (data dns_pkt)) ∧
    (l4_sum_ok (data skb') ↔ l4_sum_ok (data dns_pkt)).
Proof.
  destruct (manip_pkt true 17 dns_pkt 0 snat_target IP_NAT_MANIP_SRC) as [skb'|] eqn:E;
    [|vm_compute in E; discriminate E].
  exists skb'. split; [reflexivity|].
  apply (nat_preserves_checksums true dns_pkt snat_target IP_NAT_MANIP_SRC skb').
  - split; [split|].
    + apply bytes_ok. vm_compute. reflexivity.
    + vm_compute. discriminate.
    + vm_compute. discriminate.
    + vm_compute. discriminate.
  - split; vm_compute; split; congruence.
  - vm_compute. discriminate.
  - exact E.
Defined.

(** A DNS query with a correct UDP checksum, and the source it is mapped to. *)
Definition dns_good : sk_buff :=
  ip_pkt 17 167772161 134744072 (be16 5353 ++ be16 53 ++ be16 12 ++ be16 52385 ++ [1; 2; 3; 4]).
Definition zero_target : ip_conntrack_tuple :=
  mk_tuple (htonl 3232235777) (htons 10722) (htonl 134744072) (htons 53) 17 IP_CT_DIR_ORIGINAL.

(** [udp_manip_pkt] can turn a checksum into "no checksum": the incremental
    update may produce 0, which in UDP means that the sender computed none, and the
    code stores it as it is (RFC 768 asks for 65535 instead).  The datagram
    [dns_good] has a correct, non-zero checksum; mapped to 192.168.1.1:10722 its
    checksum field is 0. *)
Lemma udp_checksum_lost :
  l4_sum_ok (data dns_good) ∧ ld16 (data dns_good) 26 ≠ 0 ∧
  (λ skb, ld16 (data skb) 26) <$> manip_pkt true 17 dns_good 0 zero_target IP_NAT_MANIP_SRC = Some 0.
Proof. split_and!; vm_compute; [reflexivity|discriminate|reflexivity]. Qed.
