(* ===== verification/NatFacts.v ===== *)
(** * NAT: mappings are sound and packets are translated both ways

    The port search of the protocols, the choice of a mapping by
    [get_unique_tuple], its recording by [ip_nat_setup_info], and the translation
    of packets by [ip_nat_packet]. *)
From S2P Require Import Prelude Packet CtBase TcpTrack CtProtos Conntrack ConntrackInv ConntrackFacts CtSteps Csum NatProto NatCore NatCsum.
From stdpp Require Import gmultiset fin_maps fin_sets.
#[local] Open Scope Z_scope.

(** ** The search for a free port *)
Section Search.
Context (set : Z → ip_conntrack_tuple → ip_conntrack_tuple).
Context (used : ip_conntrack_tuple → option bool).
Context (set_set : ∀ v w t, set v (set w t) = set v t).
Context (min rs : Z) (Hrs : 0 < rs).

(** The candidate tried [k] steps after the counter stood at [port]. *)
Definition candidate (port : Z) (k : nat) : Z := htons (min + u16 (port + Z.of_nat k) mod rs).

Lemma candidate_succ port k : candidate (u16 (port + 1)) k = candidate port (S k).
Proof.
  unfold candidate.
  replace (u16 (u16 (port + 1) + Z.of_nat k)) with (u16 (port + Z.of_nat (S k))) by word_lia.
  done.
Qed.

Lemma unique_loop_spec n port t : is_u16 port → (∀ v, is_Some (used (set v t))) →
  ∃ r port' t', unique_loop n set used min rs port t = Some (r, port', t') ∧ is_u16 port' ∧
    if r : bool
    then ∃ k, (k < n)%nat ∧ t' = set (candidate port k) t ∧ used t' = Some false
    else (∀ k, (k < n)%nat → used (set (candidate port k) t) = Some true) ∧
         (n = O ∧ t' = t ∨ ∃ k, (k < n)%nat ∧ t' = set (candidate port k) t).
Proof.
  revert port t. induction n as [|n IH]; intros port t Hp Hu; cbn [unique_loop].
  { exists false, port, t. split_and!; try done; [intros k; lia|by left]. }
  assert (htons (min + port mod rs) = candidate port 0) as ->
    by (unfold candidate; rewrite Z.add_0_r; by replace (u16 port) with port by word_lia).
  destruct (Hu (candidate port 0)) as [u Eu]. rewrite Eu. cbn [mbind option_bind].
  destruct u; cbn [negb].
  - destruct (IH (u16 (port + 1)) (set (candidate port 0) t)) as (r & port' & t' & E & Hp' & Hr);
      [apply u16_range|intros v; rewrite set_set; apply Hu|].
    exists r, port', t'. split_and!; [done..|]. destruct r.
    + destruct Hr as (k & Hk & -> & Hf). exists (S k). rewrite candidate_succ, set_set in *.
      split_and!; [lia|done..].
    + destruct Hr as [Hall Ht']. split.
      * intros [|k] Hk; [done|]. rewrite <- candidate_succ. rewrite <- Hall with k by lia.
        by rewrite set_set.
      * right. destruct Ht' as [[_ ->]|(k & Hk & ->)]; [exists O; split; [lia|done]|].
        exists (S k). rewrite candidate_succ, set_set. split; [lia|done].
  - exists true, port, (set (candidate port 0) t). split_and!; [done..|]. exists O.
    split_and!; [lia|done..].
Qed.

(** Every port of the window is a candidate, if the counter does not wrap. *)
Lemma candidate_complete port v :
  is_u16 port → port + rs <= 65536 → 0 <= min → min + rs <= 65536 → min <= v < min + rs →
  ∃ k, (k < Z.to_nat rs)%nat ∧ candidate port k = htons v.
Proof.
  intros Hp Hw Hm Hmr Hv. exists (Z.to_nat ((v - min - port) mod rs)).
  pose proof (Z.mod_pos_bound (v - min - port) rs Hrs). split; [lia|].
  unfold candidate. rewrite Z2Nat.id by lia. f_equal.
  replace (u16 (port + (v - min - port) mod rs)) with (port + (v - min - port) mod rs) by word_lia.
  rewrite Zplus_mod_idemp_r. replace (port + (v - min - port)) with (v - min) by lia.
  rewrite Z.mod_small by lia. lia.
Qed.

Lemma candidate_window port k : 0 <= min → min + rs <= 65536 →
  min <= ntohs (candidate port k) < min + rs ∧ is_u16 (candidate port k).
Proof.
  intros. unfold candidate. pose proof (Z.mod_pos_bound (u16 (port + Z.of_nat k)) rs Hrs).
  rewrite ntohs_htons by (unfold is_u16; lia). split; [lia|]. apply swab16_range.
Qed.
End Search.

Lemma set_tuple_port_twice m v w t : set_tuple_port m v (set_tuple_port m w t) = set_tuple_port m v t.
Proof. by destruct m. Qed.

(** Whether a tuple has an inverse depends on its protocol and ICMP type only. *)
Lemma invertible_ext t t' : protonum t' = protonum t →
  (protonum t = IPPROTO_ICMP → dst_u t' = dst_u t) →
  is_Some (invert_tuplepr t) → is_Some (invert_tuplepr t').
Proof.
  intros Hp Hd. unfold invert_tuplepr, ip_ct_invert_tuple. rewrite Hp.
  unfold __ip_conntrack_proto_find. destruct (_ =? IPPROTO_TCP); [by eexists|].
  destruct (_ =? IPPROTO_UDP); [by eexists|].
  destruct (Z.eqb_spec (protonum t) IPPROTO_ICMP) as [E|]; [|by eexists].
  specialize (Hd E). unfold invert_tuple, icmp_invert_tuple, tuple_icmp_type, tuple_icmp_code.
  rewrite Hd. destruct (_ || _); [by intros []|by eexists].
Qed.
Lemma used_some env t p s : is_Some (invert_tuplepr t) → is_Some (ip_nat_used_tuple env t p s).
Proof. intros [r Hr]. unfold ip_nat_used_tuple. rewrite Hr. by eexists. Qed.

(** [ip_nat_used_tuple] in terms of the connection table: some other connection is
    tracked under the reply to [t]. *)
Definition taken_by_other (s : ct_state) (p : positive) (t : ip_conntrack_tuple) : Prop :=
  ∃ r q d, invert_tuplepr t = Some r ∧ tracked s r q d ∧ q ≠ p.

Lemma used_spec env D s t p u : table_wf env D s → ip_nat_used_tuple env t p s = Some u →
  u = true ↔ taken_by_other s p t.
Proof.
  intros HT. unfold ip_nat_used_tuple, taken_by_other.
  destruct (invert_tuplepr t) as [r|]; [|done]. intros [= <-]. unfold ip_conntrack_tuple_taken.
  rewrite bool_decide_eq_true. pose proof (find_tracked env D s r (Some p) HT) as Hf.
  destruct (__ip_conntrack_find env r (Some p) s) as [[q d]|].
  - split; [|done]. intros _. exists r, q, d. destruct Hf as [Hf Hne].
    split_and!; [done..|]. intros ->. done.
  - split; [by intros [? ?]|]. intros (r' & q & d & [= <-] & Hq & Hne).
    apply Hf in Hq. congruence.
Qed.

(** The port ranges a search may use. *)
Definition range_ordered (range : ip_nat_range) : Prop :=
  flag (r_flags range) IP_NAT_RANGE_PROTO_SPECIFIED = true →
  ntohs (r_min range) <= ntohs (r_max range).

Lemma port_window_spec range m port min rs :
  range_ordered range → port_window range m port = Some (min, rs) →
  0 <= min ∧ 0 < rs ∧ min + rs <= 65536 ∧
  if flag (r_flags range) IP_NAT_RANGE_PROTO_SPECIFIED
  then min = ntohs (r_min range) ∧ min + rs - 1 = ntohs (r_max range)
  else m = IP_NAT_MANIP_SRC ∧
       ((ntohs port < 512 ∧ min = 1 ∧ rs = 511) ∨
        (512 <= ntohs port < 1024 ∧ min = 600 ∧ rs = 424) ∨
        (1024 <= ntohs port ∧ min = 1024 ∧ rs = 64512)).
Proof.
  unfold range_ordered, port_window. intros Ho.
  destruct (flag (r_flags range) IP_NAT_RANGE_PROTO_SPECIFIED); simpl.
  - intros [= <- <-]. specialize (Ho eq_refl).
    pose proof (ntohs_range (r_min range)). pose proof (ntohs_range (r_max range)). word_lia.
  - destruct m; [|done].
    destruct (Z.ltb_spec (ntohs port) 1024), (Z.ltb_spec (ntohs port) 512);
      intros [= <- <-]; split_and!; try done; lia.
Qed.

(** The port search of TCP and UDP, [tcp_unique_tuple] and [udp_unique_tuple], on
    a consistent connection table.  The search always ends.  When it reports
    success, only the port of the tuple changed, to one of the permitted window
    (the range of the rule; without one, 1-511, 600-1023 or 1024-65535, so that a
    privileged port stays privileged), and no other connection is tracked under
    the reply to the new tuple.  When it reports failure and its static counter
    does not wrap around during the search, every port of the window is taken by
    another connection.  Without a range a destination port is never changed. *)
Lemma unique_tuple_search env D s unique t range m p port :
  unique = tcp_unique_tuple ∨ unique = udp_unique_tuple →
  table_wf env D s → protonum t = IPPROTO_TCP ∨ protonum t = IPPROTO_UDP →
  range_ordered range → is_u16 port →
  ∃ ok port' t', unique env t range m p port s = Some (ok, port', t') ∧ is_u16 port' ∧
    match port_window range m (tuple_port m t) with
    | None => ok = false ∧ t' = t ∧ m = IP_NAT_MANIP_DST
    | Some (min, rs) =>
        if ok : bool
        then t' = set_tuple_port m (tuple_port m t') t ∧
             min <= ntohs (tuple_port m t') < min + rs ∧ ¬ taken_by_other s p t'
        else port + rs <= 65536 → ∀ x, min <= x < min + rs →
             taken_by_other s p (set_tuple_port m (htons x) t)
    end.
Proof.
  intros Hun HT Hpr Ho Hp. assert (unique = tcp_unique_tuple) as -> by (by destruct Hun as [-> | ->]).
  clear Hun. unfold tcp_unique_tuple.
  destruct (port_window range m (tuple_port m t)) as [[min rs]|] eqn:Ew.
  2: { exists false, port, t. split_and!; try done. unfold port_window in Ew.
       destruct (negb _); [|done]. by destruct m. }
  destruct (port_window_spec _ _ _ _ _ Ho Ew) as (H1 & H2 & H3 & _).
  assert (∀ v, is_Some (ip_nat_used_tuple env (set_tuple_port m v t) p s)) as Hu.
  { intros v. apply used_some. unfold invert_tuplepr, ip_ct_invert_tuple.
    assert (protonum (set_tuple_port m v t) = protonum t) as -> by (by destruct m).
    destruct Hpr as [-> | ->]; by eexists. }
  destruct (unique_loop_spec (set_tuple_port m) (λ t, ip_nat_used_tuple env t p s)
    (set_tuple_port_twice m) min rs (Z.to_nat rs) port t Hp Hu) as (r & port' & t' & E & Hp' & Hr).
  exists r, port', t'. split_and!; [done..|]. destruct r.
  - destruct Hr as (k & Hk & -> & Hf). destruct (candidate_window min rs H2 port k H1 H3) as [Hc _].
    assert (∀ v, tuple_port m (set_tuple_port m v t) = v) as -> by (intros; by destruct m).
    split; [done|]. split; [done|]. intros Htk. by apply (used_spec _ _ _ _ _ _ HT Hf) in Htk.
  - intros Hw x Hx. destruct (candidate_complete min rs H2 port x Hp Hw H1 H3 Hx) as (k & Hk & <-).
    apply (used_spec _ _ _ _ _ _ HT (proj1 Hr k Hk)). done.
Qed.

(** ** Choosing a mapping *)

(** Tuples of tracked packets: ports and addresses at their width, an inverse. *)
Record tuple_good (t : ip_conntrack_tuple) : Prop := {
  tg_wf : tuple_wf t;
  tg_src : is_u32 (src_ip t);
  tg_dst : is_u32 (dst_ip t);
  tg_inv : is_Some (invert_tuplepr t) }.

Lemma good_words t : tuple_good t → tuple_words t.
Proof. intros [[] ? ? _]. by split. Qed.

(** [t'] is [t] with only what [m] manipulates changed: an address and a port, or
    the identifier of an ICMP query. *)
Definition only_manip (m : ip_nat_manip_type) (t t' : ip_conntrack_tuple) : Prop :=
  protonum t' = protonum t ∧ dst_dir t' = dst_dir t ∧
  match m with
  | IP_NAT_MANIP_SRC => dst_ip t' = dst_ip t ∧ dst_u t' = dst_u t
  | IP_NAT_MANIP_DST => src_ip t' = src_ip t ∧
      (if protonum t =? IPPROTO_ICMP then dst_u t' = dst_u t else src_u t' = src_u t)
  end.

Lemma only_manip_refl m t : only_manip m t t.
Proof. destruct m; split_and!; try done. by case_match. Qed.
Lemma only_manip_trans m t t' t'' : only_manip m t t' → only_manip m t' t'' → only_manip m t t''.
Proof.
  intros (P1 & D1 & H1) (P2 & D2 & H2). split_and!; [congruence..|].
  rewrite P1 in H2. destruct m; [intuition congruence|].
  destruct (_ =? _); intuition congruence.
Qed.

(** A range whose addresses can be used. *)
Record range_ok (range : ip_nat_range) : Prop := {
  ro_ports : range_ordered range;
  ro_min : is_u32 (min_ip range);
  ro_max : is_u32 (max_ip range);
  ro_ips : flag (r_flags range) IP_NAT_RANGE_MAP_IPS = true →
    ntohl (min_ip range) <= ntohl (max_ip range) ∧
    ntohl (max_ip range) - ntohl (min_ip range) < 4294967295 }.

Definition ip_in_range (range : ip_nat_range) (ip : Z) : Prop :=
  flag (r_flags range) IP_NAT_RANGE_MAP_IPS = true →
  ntohl (min_ip range) <= ntohl ip <= ntohl (max_ip range).

(** The port; the identifier of an ICMP query, which one of the two tests of the code
    compares as it is stored and the other as a number. *)
Definition port_in_range (range : ip_nat_range) (m : ip_nat_manip_type) (t : ip_conntrack_tuple)
    : Prop :=
  flag (r_flags range) IP_NAT_RANGE_PROTO_SPECIFIED = true →
  (protonum t = IPPROTO_TCP ∨ protonum t = IPPROTO_UDP →
   ntohs (r_min range) <= ntohs (tuple_port m t) <= ntohs (r_max range)) ∧
  (protonum t = IPPROTO_ICMP →
   r_min range <= src_u t <= r_max range ∨
   ntohs (r_min range) <= ntohs (src_u t) <= ntohs (r_max range)).

Lemma set_ip_manip m v t : only_manip m t (set_tuple_ip m v t).
Proof. destruct m; split_and!; try done. simpl. by case_match. Qed.

Lemma good_set_ip m v t : is_u32 v → tuple_good t → tuple_good (set_tuple_ip m v t).
Proof.
  intros Hv [[W1 W2 W3] S D I]. destruct m; split; try done;
    first [by split | apply (invertible_ext t); try done].
Qed.

Lemma find_best_ips_spec t range m : range_ok range → tuple_good t →
  ∃ t', find_best_ips_proto t range m = Some t' ∧ tuple_good t' ∧ only_manip m t t' ∧
    ip_in_range range (new_ip m t') ∧ tuple_port m t' = tuple_port m t.
Proof.
  intros [_ Hmin Hmax Hips] Hg. unfold find_best_ips_proto, ip_in_range.
  destruct (flag (r_flags range) IP_NAT_RANGE_MAP_IPS) eqn:E; simpl.
  2: { exists t. split_and!; try done. apply only_manip_refl. }
  destruct (Hips eq_refl) as [Hle Hfull].
  assert (∀ v, is_u32 v → ntohl (min_ip range) <= ntohl v <= ntohl (max_ip range) →
    ∃ t', Some (set_tuple_ip m v t) = Some t' ∧ tuple_good t' ∧ only_manip m t t' ∧
    (true = true → ntohl (min_ip range) <= ntohl (new_ip m t') <= ntohl (max_ip range)) ∧
    tuple_port m t' = tuple_port m t) as Hset.
  { intros v Hv Hr. exists (set_tuple_ip m v t).
    split_and!; [done|by apply good_set_ip|apply set_ip_manip| |by destruct m].
    intros _. by destruct m. }
  destruct (Z.eqb_spec (min_ip range) (max_ip range)) as [_|_]; [apply Hset; [done|lia]|].
  pose proof (ntohl_range (min_ip range)) as R1. pose proof (ntohl_range (max_ip range)) as R2.
  unfold is_u32 in R1, R2.
  replace (u32 (ntohl (max_ip range) - ntohl (min_ip range) + 1))
    with (ntohl (max_ip range) - ntohl (min_ip range) + 1) by (unfold u32; lia).
  set (n := ntohl (max_ip range) - ntohl (min_ip range) + 1). assert (0 < n) as Hn by (unfold n; lia).
  destruct (Z.eqb_spec n 0); [lia|].
  pose proof (Z.mod_pos_bound (jhash_2words (src_ip t) (dst_ip t) 0) n Hn).
  apply Hset; [apply swab32_range|]. rewrite ntohl_htonl by (unfold is_u32; lia). lia.
Qed.

Definition vars_ok (v : nat_vars) : Prop :=
  is_u16 (tcp_port_var v) ∧ is_u16 (udp_port_var v) ∧ is_u16 (icmp_id_var v).

Lemma good_set_port m v t : is_u16 v → tuple_good t →
  __ip_conntrack_proto_find (protonum t) ≠ proto_generic_ops →
  (protonum t = IPPROTO_ICMP → m = IP_NAT_MANIP_SRC) → tuple_good (set_tuple_port m v t).
Proof.
  intros Hv [[W1 W2 W3] S D I] Hg Hi.
  assert (tuple_wf (set_tuple_port m v t)) by (destruct m; split; done).
  assert (is_Some (invert_tuplepr (set_tuple_port m v t))).
  { apply (invertible_ext t); [by destruct m| |done]. intros E. by rewrite (Hi E). }
  by split; [|destruct m..|].
Qed.

(** Where a protocol searches from a tuple on: first value and number of values; nowhere
    for a destination port without a range and for an unknown protocol. *)
Definition id_window (range : ip_nat_range) (m : ip_nat_manip_type) (t : ip_conntrack_tuple) : option (Z * Z) :=
  match __ip_nat_proto_find (protonum t) with
  | nat_tcp | nat_udp => port_window range m (tuple_port m t)
  | nat_icmp =>
      Some (ntohs (r_min range),
            if negb (flag (r_flags range) IP_NAT_RANGE_PROTO_SPECIFIED) then 65535
            else u32 (ntohs (r_max range) - ntohs (r_min range) + 1))
  | nat_unknown => None
  end.
Definition set_id (m : ip_nat_manip_type) (v : Z) (t : ip_conntrack_tuple) : ip_conntrack_tuple :=
  match __ip_nat_proto_find (protonum t) with
  | nat_icmp => set_tuple_port IP_NAT_MANIP_SRC v t
  | _ => set_tuple_port m v t
  end.
Definition id_counter (t : ip_conntrack_tuple) (v : nat_vars) : Z :=
  match __ip_nat_proto_find (protonum t) with
  | nat_tcp => tcp_port_var v
  | nat_udp => udp_port_var v
  | _ => icmp_id_var v
  end.

(** The search from [t] on has failed: there was nowhere to search and the tuple is as it
    was, or every value it tried is taken - every value of the window, when the static
    counter does not wrap around on the way. *)
Definition exhausted (s : ct_state) (p : positive) (range : ip_nat_range) (m : ip_nat_manip_type)
    (v : nat_vars) (t t' : ip_conntrack_tuple) : Prop :=
  match id_window range m t with
  | None => t' = t
  | Some (min, rs) =>
      let c := id_counter t v in
      (∀ k, (k < Z.to_nat rs)%nat → taken_by_other s p (set_id m (candidate min rs c k) t)) ∧
      (c + rs <= 65536 → min + rs <= 65536 → ∀ x, min <= x < min + rs →
       taken_by_other s p (set_id m (htons x) t))
  end.

(** What every protocol's search returns, successful or not. *)
Definition search_result (s : ct_state) (p : positive) (range : ip_nat_range)
    (m : ip_nat_manip_type) (v : nat_vars) (t : ip_conntrack_tuple) (ok : bool) (t' : ip_conntrack_tuple) : Prop :=
  tuple_good t' ∧ only_manip m t t' ∧ new_ip m t' = new_ip m t ∧
  (if ok then ¬ taken_by_other s p t' else exhausted s p range m v t t') ∧ port_in_range range m t'.

(** What a failed search has tried. *)
Lemma exhausted_loop env D s p range m v t t' min rs : table_wf env D s →
  id_window range m t = Some (min, rs) → 0 < rs → 0 <= min → is_u16 (id_counter t v) →
  (∀ k, (k < Z.to_nat rs)%nat →
     ip_nat_used_tuple env (set_id m (candidate min rs (id_counter t v) k) t) p s = Some true) →
  exhausted s p range m v t t'.
Proof.
  intros HT Hw Hrs Hmin Hc Hall. unfold exhausted. rewrite Hw. cbn zeta.
  assert (∀ k, (k < Z.to_nat rs)%nat → taken_by_other s p (set_id m (candidate min rs (id_counter t v) k) t)) as H
    by (intros k Hk; by apply (used_spec _ _ _ _ _ _ HT (Hall k Hk))).
  split; [exact H|]. intros Hnw Hm x Hx.
  destruct (candidate_complete min rs Hrs _ x Hc Hnw Hmin Hm Hx) as (k & Hk & <-). by apply H.
Qed.

Lemma tcp_search env D s t range m p v :
  table_wf env D s → tuple_good t → range_ok range → is_u16 (id_counter t v) →
  protonum t = IPPROTO_TCP ∨ protonum t = IPPROTO_UDP →
  ∃ ok port' t', tcp_unique_tuple env t range m p (id_counter t v) s = Some (ok, port', t') ∧ is_u16 port' ∧
    search_result s p range m v t ok t'.
Proof.
  intros HT Hg Hr Hp Hpr. pose proof (ro_ports _ Hr) as Ho. unfold tcp_unique_tuple.
  assert (__ip_conntrack_proto_find (protonum t) ≠ proto_generic_ops ∧ protonum t ≠ IPPROTO_ICMP)
    as [Hng Hni] by (by destruct Hpr as [-> | ->]).
  assert (id_window range m t = port_window range m (tuple_port m t) ∧ ∀ x, set_id m x t = set_tuple_port m x t)
    as [Hw Hs] by (unfold id_window, set_id; by destruct Hpr as [-> | ->]).
  destruct (port_window range m (tuple_port m t)) as [[min rs]|] eqn:Ew.
  2: { exists false, (id_counter t v), t. split_and!; try done. split_and!; try done; [apply only_manip_refl| |].
       - unfold exhausted. by rewrite Hw.
       - intros Hf. unfold port_window in Ew. rewrite Hf in Ew. done. }
  destruct (port_window_spec _ _ _ _ _ Ho Ew) as (H1 & H2 & H3 & H4).
  assert (∀ v, is_Some (ip_nat_used_tuple env (set_tuple_port m v t) p s)) as Hu.
  { intros v'. apply used_some. apply (invertible_ext t); [by destruct m|done|apply Hg]. }
  destruct (unique_loop_spec (set_tuple_port m) (λ t, ip_nat_used_tuple env t p s)
    (set_tuple_port_twice m) min rs (Z.to_nat rs) (id_counter t v) t Hp Hu) as (r & port' & t' & E & Hp' & Hk).
  exists r, port', t'. split_and!; [done..|].
  assert (∃ k, t' = set_tuple_port m (candidate min rs (id_counter t v) k) t) as [k ->].
  { destruct r; [naive_solver|]. destruct Hk as [_ [[? _]|(k & _ & ->)]]; [lia|by exists k]. }
  destruct (candidate_window min rs H2 (id_counter t v) k H1 H3) as [Hc Hcu].
  split_and!; [by apply good_set_port| |by destruct m| |].
  - destruct m; split_and!; try done. simpl. destruct (Z.eqb_spec (protonum t) IPPROTO_ICMP); done.
  - destruct r.
    + destruct Hk as (_ & _ & _ & Hf). intros Htk. by apply (used_spec _ _ _ _ _ _ HT Hf) in Htk.
    + apply (exhausted_loop env D _ _ _ _ _ _ _ min rs); try done. intros j Hj. rewrite Hs. by apply Hk.
  - intros Hf. rewrite Hf in H4. replace (tuple_port m (set_tuple_port m (candidate min rs (id_counter t v) k) t))
      with (candidate min rs (id_counter t v) k) by (by destruct m).
    split; [intros _; lia|]. by destruct m.
Qed.

Lemma icmp_search env D s t range m p v :
  table_wf env D s → tuple_good t → range_ok range → is_u16 (icmp_id_var v) → protonum t = IPPROTO_ICMP →
  ∃ ok id' t', icmp_unique_tuple env t range m p (icmp_id_var v) s = Some (ok, id', t') ∧ is_u16 id' ∧
    search_result s p range m v t ok t'.
Proof.
  intros HT Hg Hr Hp Hpr. unfold icmp_unique_tuple. pose proof (ro_ports _ Hr) as Ho.
  set (rs := if negb _ then _ else _). set (min := ntohs (r_min range)).
  assert (0 < rs ∧ (flag (r_flags range) IP_NAT_RANGE_PROTO_SPECIFIED = true → min + rs = ntohs (r_max range) + 1))
    as [Hrs Hmax].
  { unfold rs, min. destruct (flag _ _) eqn:Ef; cbn [negb]; [|done]. specialize (Ho Ef).
    pose proof (ntohs_range (r_min range)). pose proof (ntohs_range (r_max range)). word_lia. }
  assert (0 <= min ∧ ntohs (r_max range) < 65536) as [Hmin Hm16].
  { unfold min. pose proof (ntohs_range (r_min range)). pose proof (ntohs_range (r_max range)). unfold is_u16 in *. lia. }
  assert (id_window range m t = Some (min, rs) ∧ id_counter t v = icmp_id_var v ∧
    ∀ x, set_id m x t = set_tuple_port IP_NAT_MANIP_SRC x t) as (Hw & Hid & Hs)
    by (unfold id_window, set_id, id_counter; by rewrite Hpr).
  assert (∀ v, is_Some (ip_nat_used_tuple env (set_tuple_port IP_NAT_MANIP_SRC v t) p s)) as Hu.
  { intros v'. apply used_some. apply (invertible_ext t); [done..|apply Hg]. }
  destruct (unique_loop_spec (set_tuple_port IP_NAT_MANIP_SRC) (λ t, ip_nat_used_tuple env t p s)
    (set_tuple_port_twice IP_NAT_MANIP_SRC) min rs (Z.to_nat rs) (icmp_id_var v) t Hp Hu)
    as (r & port' & t' & E & Hp' & Hk).
  exists r, port', t'. split_and!; [done..|].
  assert (∃ k, t' = set_tuple_port IP_NAT_MANIP_SRC (candidate min rs (icmp_id_var v) k) t) as [k ->].
  { destruct r; [naive_solver|]. destruct Hk as [_ [[? _]|(k & _ & ->)]]; [lia|by exists k]. }
  split_and!.
  - apply good_set_port; try done; [apply swab16_range|by rewrite Hpr].
  - destruct m; split_and!; try done; simpl; by rewrite Hpr.
  - by destruct m.
  - destruct r.
    + destruct Hk as (_ & _ & _ & Hf). intros Htk. by apply (used_spec _ _ _ _ _ _ HT Hf) in Htk.
    + apply (exhausted_loop env D _ _ _ _ _ _ _ min rs); try done; [by rewrite Hid|].
      intros j Hj. rewrite Hs, Hid. by apply Hk.
  - intros Hf. split; [intros [E1|E1]; simpl in E1; rewrite Hpr in E1; discriminate E1|]. intros _. right. fold min.
    specialize (Hmax Hf). destruct (candidate_window min rs Hrs (icmp_id_var v) k Hmin ltac:(lia)) as [Hc _].
    cbn [set_tuple_port src_u]. simpl. lia.
Qed.

Lemma proto_search env D s t range m p v :
  table_wf env D s → tuple_good t → range_ok range → vars_ok v →
  ∃ ok v' t', proto_unique_tuple (__ip_nat_proto_find (protonum t)) env t range m p v s =
      Some (ok, v', t') ∧ vars_ok v' ∧ search_result s p range m v t ok t'.
Proof.
  intros HT Hg Hr (V1 & V2 & V3). pose proof (tcp_search env D s t range m p v HT Hg Hr) as Hts.
  unfold id_counter in Hts. unfold __ip_nat_proto_find in *.
  destruct (Z.eqb_spec (protonum t) IPPROTO_TCP) as [E|N1].
  { destruct (Hts V1) as (ok & x & t' & E' & ? & ?); [by left|].
    simpl. rewrite E'. by eexists _, _, _. }
  destruct (Z.eqb_spec (protonum t) IPPROTO_UDP) as [E|N2].
  { destruct (Hts V2) as (ok & x & t' & E' & ? & ?); [by right|].
    simpl. change (udp_unique_tuple) with (tcp_unique_tuple). rewrite E'. by eexists _, _, _. }
  destruct (Z.eqb_spec (protonum t) IPPROTO_ICMP) as [E|N3].
  { destruct (icmp_search env D s t range m p v HT Hg Hr V3) as (ok & x & t' & E' & ? & ?); [done|].
    simpl. rewrite E'. by eexists _, _, _. }
  exists false, v, t. split_and!; try done. split_and!; try done; [apply only_manip_refl| |].
  - unfold exhausted, id_window, __ip_nat_proto_find. by rewrite !(proj2 (Z.eqb_neq _ _)).
  - intros _. split; [intros [?|?]; done|done].
Qed.

(** ** Connections under NAT

    [nat_between st o i]: a connection with status [st] turns packets with tuple
    [o] into packets with tuple [i]; they differ only in what the status says is
    mapped. *)
Definition nat_between (st : Z) (o i : ip_conntrack_tuple) : Prop :=
  protonum i = protonum o ∧
  (flag st IPS_SRC_NAT = false → src_ip i = src_ip o) ∧
  (flag st IPS_DST_NAT = false → dst_ip i = dst_ip o) ∧
  if protonum o =? IPPROTO_ICMP
  then dst_u i = dst_u o ∧
       (flag st IPS_SRC_NAT = false → flag st IPS_DST_NAT = false → src_u i = src_u o)
  else (flag st IPS_SRC_NAT = false → src_u i = src_u o) ∧
       (flag st IPS_DST_NAT = false → dst_u i = dst_u o).

(** The reply tuple of a connection is the inverse of what its packets become. *)
Record nat_wf (c : ip_conntrack) : Prop := {
  nw_orig : tuple_good (tuple_orig c);
  nw_dir : dst_dir (tuple_orig c) = IP_CT_DIR_ORIGINAL;
  nw_out : ∃ i, tuple_good i ∧ dst_dir i = IP_CT_DIR_ORIGINAL ∧
    invert_tuplepr i = Some (tuple_reply c) ∧ nat_between (status c) (tuple_orig c) i }.

Definition nat_ok (s : ct_state) : Prop := ∀ p c, cts s !! p = Some c → nat_wf c.

(** A new connection is not mapped. *)
Lemma new_nat_wf c : tuple_good (tuple_orig c) → dst_dir (tuple_orig c) = IP_CT_DIR_ORIGINAL →
  invert_tuplepr (tuple_orig c) = Some (tuple_reply c) → nat_wf c.
Proof.
  intros Hg Hd Hi. split; [done..|]. exists (tuple_orig c). split_and!; try done.
  split_and!; try done. by case_match.
Qed.

Lemma in_range_spec t range : in_range t range = true →
  ip_in_range range (src_ip t) ∧ port_in_range range IP_NAT_MANIP_SRC t.
Proof.
  unfold in_range, ip_in_range, port_in_range, __ip_nat_proto_find.
  destruct (flag (r_flags range) IP_NAT_RANGE_MAP_IPS),
    (flag (r_flags range) IP_NAT_RANGE_PROTO_SPECIFIED); simpl;
    destruct (Z.ltb_spec (ntohl (src_ip t)) (ntohl (min_ip range))),
      (Z.ltb_spec (ntohl (max_ip range)) (ntohl (src_ip t))); simpl; try done;
    intros Hp; (split; [intros; lia || done|]); try done; intros _;
    (split; [intros [Ht|Ht]|intros Ht]; rewrite Ht in Hp; simpl in Hp;
     unfold tcp_in_range, udp_in_range, icmp_in_range in Hp; simpl in *; lia).
Qed.

Lemma find_appropriate_spec s range t l :
  nat_ok s → tuple_good t → (∀ p, p ∈ l → is_Some (cts s !! p)) →
  ∃ r, find_appropriate_loop l t range s = Some r ∧
    ∀ t', r = Some t' → tuple_good t' ∧ only_manip IP_NAT_MANIP_SRC t t' ∧
      ip_in_range range (src_ip t') ∧ port_in_range range IP_NAT_MANIP_SRC t'.
Proof.
  intros Hok Hg. induction l as [|p l IH]; intros Hl; cbn [find_appropriate_loop].
  { exists None. done. }
  destruct (IH (λ q Hq, Hl q (list_elem_of_further _ _ _ Hq))) as (r & Er & Hr).
  destruct (Hl p (list_elem_of_here _ _)) as [c Hc]. rewrite Hc. cbn [mbind option_bind].
  destruct (same_src c t) eqn:Es; [|by exists r].
  destruct (Hok p c Hc) as [_ _ (i & Gi & Di & Ii & Bi)].
  destruct (invert_tuplepr_involutive i _ (tg_wf _ Gi) Ii) as [-> _]. cbn [mbind option_bind].
  set (t1 := mk_tuple _ _ _ _ _ _). destruct (in_range t1 range) eqn:Ei; [|by exists r].
  exists (Some t1). split; [done|]. intros t' [= <-].
  destruct (in_range_spec _ _ Ei) as [Hip Hport].
  split_and!; try done. destruct Gi as [[W1 W2 W3] S1 _ _]. destruct Hg as [[V1 V2 V3] S2 D2 I2].
  split; [|done..|by apply (invertible_ext t)]. split; simpl; try done.
  intros Hgen. destruct (V3 Hgen) as [_ ->].
  unfold same_src in Es. rewrite !andb_true_iff, !Z.eqb_eq in Es. destruct Bi as [Bp _].
  split; [|done]. apply W3. rewrite Bp. by replace (protonum (tuple_orig c)) with (protonum t) by (symmetry; apply Es).
Qed.

Lemma bysource_dom D N live s h p : own_wf D N live s →
  p ∈ default [] (bysource s !! h) → is_Some (cts s !! p).
Proof. intros HO Hp. destruct (ow_bysource _ _ _ _ HO h p Hp) as (c & -> & _). by eexists. Qed.

Lemma proto_in_range_spec t range m :
  flag (r_flags range) IP_NAT_RANGE_PROTO_SPECIFIED = true →
  proto_in_range (__ip_nat_proto_find (protonum t)) t m (r_min range) (r_max range) = true →
  port_in_range range m t.
Proof.
  intros Hf Hp _. split; [intros [Ht|Ht]|intros Ht]; rewrite Ht in Hp; simpl in Hp;
    unfold tcp_in_range, udp_in_range, icmp_in_range in Hp; lia.
Qed.

(** What [get_unique_tuple] returns for a packet with tuple [t]. *)
Definition mapping_of (s : ct_state) (p : positive) (range : ip_nat_range)
    (m : ip_nat_manip_type) (v : nat_vars) (t t' : ip_conntrack_tuple) : Prop :=
  tuple_good t' ∧ only_manip m t t' ∧ ip_in_range range (new_ip m t') ∧ port_in_range range m t' ∧
  (¬ taken_by_other s p t' ∨
   ∃ t1, find_best_ips_proto t range m = Some t1 ∧ exhausted s p range m v t1 t').

Section GetUnique.
Context (env : ct_env) (D N : gset positive) (live : gmultiset positive) (s : ct_state).
Context (HT : table_wf env D s) (HO : own_wf D N live s) (Hok : nat_ok s).
Context (range : ip_nat_range) (Hr : range_ok range) (p : positive).

Lemma get_fresh_spec t m v : tuple_good t → vars_ok v →
  ∃ t' v', get_fresh_tuple env t range p m v s = Some (t', v') ∧ vars_ok v' ∧
    mapping_of s p range m v t t'.
Proof.
  intros Hg Hv. unfold get_fresh_tuple.
  destruct (find_best_ips_spec t range m Hr Hg) as (t1 & Eb & G1 & M1 & R1 & P1). rewrite Eb.
  cbn [mbind option_bind]. pose proof (proj1 M1) as Hpn.
  destruct (used_some env t1 p s (tg_inv _ G1)) as [u Hu].
  set (ok := if _ || _ then _ else _).
  assert (∃ b, ok = Some b ∧ (b = true → ¬ taken_by_other s p t1 ∧ port_in_range range m t1)) as (b & -> & Hb).
  { unfold ok. destruct (flag (r_flags range) IP_NAT_RANGE_PROTO_SPECIFIED) eqn:Ef; cbn [negb orb].
    - destruct (proto_in_range _ _ _ _ _) eqn:Ep; [|by exists false].
      rewrite Hu. exists (negb u). split; [done|]. intros Hn%negb_true_iff. split.
      + intros Htk. apply (used_spec _ _ _ _ _ _ HT Hu) in Htk. congruence.
      + apply proto_in_range_spec; [done|]. by rewrite Hpn.
    - rewrite Hu. exists (negb u). split; [done|]. intros Hn%negb_true_iff. split.
      + intros Htk. apply (used_spec _ _ _ _ _ _ HT Hu) in Htk. congruence.
      + intros Hf. congruence. }
  cbn [mbind option_bind]. destruct b.
  { destruct (Hb eq_refl) as [Hnt Hport]. exists t1, v. split_and!; try done. split_and!; try done. by left. }
  rewrite <- Hpn. destruct (proto_search env D s t1 range m p v HT G1 Hr Hv)
    as (ok' & v' & t' & E & Hv' & G2 & M2 & I2 & T2 & P2).
  rewrite E. cbn [mbind option_bind]. exists t', v'. split_and!; try done.
  split_and!; [done|by eapply only_manip_trans|unfold ip_in_range in *; by rewrite I2|done|].
  destruct ok'; [by left|]. right. by exists t1.
Qed.

Lemma get_unique_spec t m v : tuple_good t → vars_ok v →
  ∃ t' v', get_unique_tuple env t range p m v s = Some (t', v') ∧ vars_ok v' ∧
    mapping_of s p range m v t t'.
Proof.
  intros Hg Hv. unfold get_unique_tuple. destruct m; [|by apply get_fresh_spec].
  destruct (find_appropriate_spec s range t (default [] (bysource s !! hash_by_src env t)) Hok Hg)
    as (r & Er & Hfr); [intros q Hq; by eapply bysource_dom|].
  unfold find_appropriate_src. rewrite Er. cbn [mbind option_bind].
  destruct r as [t'|]; [|by apply get_fresh_spec].
  destruct (Hfr t' eq_refl) as (G1 & M1 & R1 & P1).
  destruct (used_some env t' p s (tg_inv _ G1)) as [u Hu]. rewrite Hu. cbn [mbind option_bind].
  destruct u; [by apply get_fresh_spec|]. exists t', v. split_and!; try done.
  split_and!; try done. left. intros Htk. by apply (used_spec _ _ _ _ _ _ HT Hu) in Htk.
Qed.
End GetUnique.

(** ** Recording the mapping *)
Lemma flag_lor x a b : flag x (Z.lor a b) = flag x a || flag x b.
Proof.
  unfold flag. rewrite Z.land_lor_distr_r.
  destruct (Z.eqb_spec (Z.land x a) 0) as [->|Ha].
  - by rewrite Z.lor_0_l.
  - simpl. apply negb_true_iff, Z.eqb_neq. intros [? _]%Z.lor_eq_0_iff. done.
Qed.
Lemma flag_done st : flag st IPS_NAT_DONE_MASK = Z.testbit st 7 || Z.testbit st 8.
Proof.
  change IPS_NAT_DONE_MASK with (Z.lor (2 ^ 7) (2 ^ 8)). by rewrite flag_lor, !flag_testbit.
Qed.
Lemma flag_src st : flag st IPS_SRC_NAT = Z.testbit st 4.
Proof. by apply (flag_testbit st 4). Qed.
Lemma flag_dst st : flag st IPS_DST_NAT = Z.testbit st 5.
Proof. by apply (flag_testbit st 5). Qed.

(** The status after [ip_nat_setup_info]. *)
Definition mapped_status (m : ip_nat_manip_type) (changed : bool) (st : Z) : Z :=
  Z.setbit (if changed then Z.lor st (nat_bit m) else st) (nat_done_bit m).

Lemma mapped_status_bit m ch st n : 0 <= n →
  Z.testbit (mapped_status m ch st) n =
  (nat_done_bit m =? n) || Z.testbit st n ||
  (ch && (n =? match m with IP_NAT_MANIP_SRC => 4 | IP_NAT_MANIP_DST => 5 end)).
Proof.
  intros Hn. unfold mapped_status. rewrite Z.setbit_eqb by (by destruct m).
  destruct ch; simpl; [|by rewrite orb_false_r].
  rewrite Z.lor_spec, orb_assoc. f_equal.
  destruct m; [change (nat_bit _) with (2 ^ 4)|change (nat_bit _) with (2 ^ 5)];
    rewrite Z.pow2_bits_eqb by lia; apply Z.eqb_sym.
Qed.

Lemma nat_between_mapped m st o i i' :
  nat_between st o i → only_manip m i i' → i' = i ∨ i' ≠ i →
  nat_between (mapped_status m (negb (bool_decide (i' = i))) st) o i'.
Proof.
  intros (Bp & Bs & Bd & Bu) (Mp & Md & Mm) _. unfold nat_between.
  rewrite !flag_src, !flag_dst in *. rewrite !mapped_status_bit by lia.
  destruct (bool_decide_reflect (i' = i)) as [->|Hne]; simpl.
  - rewrite !orb_false_r. destruct m; simpl; (split_and!; [done..|]); done.
  - rewrite Bp in Mm. split; [congruence|]. destruct m; simpl; rewrite ?orb_true_r, ?orb_false_r.
    + destruct Mm as [M1 M2]. rewrite M1, M2. split_and!; [done..|].
      destruct (_ =? _); intuition done.
    + destruct Mm as [M1 M2]. rewrite M1. split_and!; [done..|].
      destruct (_ =? _); intuition congruence.
Qed.

(** What [ip_conntrack_alter_reply] and the status update leave alone. *)
Record altered (p : positive) (s s0 : ct_state) (c c0 : ip_conntrack) : Prop := {
  al_hash : ip_conntrack_hash s0 = ip_conntrack_hash s;
  al_unconf : unconfirmed s0 = unconfirmed s;
  al_count : ip_conntrack_count s0 = ip_conntrack_count s;
  al_exps : exps s0 = exps s;
  al_elist : ip_conntrack_expect_list s0 = ip_conntrack_expect_list s;
  al_bysource : bysource s0 = bysource s;
  al_other : ∀ q, q ≠ p → cts s0 !! q = cts s !! q;
  al_self : ct_use c0 = ct_use c ∧ ct_master c0 = ct_master c ∧ expecting c0 = expecting c ∧
    timeout c0 = timeout c ∧ tuple_orig c0 = tuple_orig c }.

Lemma altered_refl p s c : altered p s s c c.
Proof. by split. Qed.

(** The state after [ip_nat_setup_info]: [s1] is [s0] with [p] possibly put on a
    [bysource] chain. *)
Lemma altered_frame p s s0 s1 c c0 m ch :
  altered p s s0 c c0 → cts s !! p = Some c → cts s0 !! p = Some c0 →
  (∃ l, s1 = s0 <| bysource := l |> ∧ ∀ h q, q ∈ default [] (l !! h) →
     q ∈ default [] (bysource s0 !! h) ∨ q = p) →
  status (set_bit (nat_done_bit m) c0) = mapped_status m ch (status c) →
  dst_dir (tuple_reply c0) = dst_dir (tuple_reply c) →
  setup_frame p s (upd_ct p (set_bit (nat_done_bit m)) s1).
Proof.
  intros [A1 A2 A3 A4 A5 A6 A7 (B1 & B2 & B3 & B4 & B5)] Hc Hc0 (l & -> & Hl) Hst Hdir.
  assert (flag (mapped_status m ch (status c)) IPS_NAT_DONE_MASK = true) as Hdone.
  { rewrite flag_done, !mapped_status_bit by lia. by destruct m; simpl; rewrite ?orb_true_r. }
  split; try done.
  - intros h. unfold chain. simpl. by rewrite A1.
  - intros q Hq. simpl. rewrite lookup_alter_ne by done. by apply A7.
  - intros c1 Hc1. rewrite Hc in Hc1. injection Hc1 as <-.
    exists (set_bit (nat_done_bit m) c0). split; [simpl; by rewrite lookup_alter_eq, Hc0|].
    split_and!; try done.
    + intros b Hb. unfold test_bit. rewrite Hst. rewrite mapped_status_bit by lia.
      unfold IPS_CONFIRMED_BIT in Hb.
      assert (nat_done_bit m =? b = false) as -> by (apply Z.eqb_neq; destruct m; simpl; unfold IPS_SRC_NAT_DONE_BIT, IPS_DST_NAT_DONE_BIT; lia).
      assert (b =? match m with IP_NAT_MANIP_SRC => 4 | IP_NAT_MANIP_DST => 5 end = false) as ->
        by (apply Z.eqb_neq; destruct m; lia).
      by rewrite andb_false_r, orb_false_r.
    + simpl. by rewrite B4.
    + intros _. by rewrite Hst.
  - intros h q Hq. apply Hl in Hq as [Hq| ->]; [left; by rewrite <- A6|]. right. split; [done|].
    simpl. rewrite lookup_alter_eq, Hc0. simpl. f_equal. change (flag (status (set_bit (nat_done_bit m) c0)) IPS_NAT_DONE_MASK = true). by rewrite Hst.
Qed.

Section Setup.
Context (env : ct_env) (live ehold : gmultiset positive) (s : ct_state) (p : positive).
Context (c : ip_conntrack) (range : ip_nat_range) (hooknum : Z) (v : nat_vars).
Context (HI : Inv env ∅ ∅ live ehold s) (Hok : nat_ok s) (Hr : range_ok range) (Hv : vars_ok v).
Context (Hc : cts s !! p = Some c).
Let m := HOOK2MANIP hooknum.
Context (Hinit : ip_nat_initialized c m = false).

Lemma setup_effect : ∃ v' s' c' i i',
  ip_nat_setup_info env p range hooknum v s = Some (NF_ACCEPT, v', s') ∧ vars_ok v' ∧
  setup_frame p s s' ∧ cts s' !! p = Some c' ∧
  invert_tuplepr (tuple_reply c) = Some i ∧ invert_tuplepr i' = Some (tuple_reply c') ∧
  mapping_of s p range m v i i' ∧ tuple_orig c' = tuple_orig c ∧
  status c' = mapped_status m (negb (bool_decide (i' = i))) (status c).
Proof.
  destruct (Hok p c Hc) as [Ho Hd (i & Gi & Di & Ii & Bi)].
  destruct (invert_tuplepr_involutive i _ (tg_wf _ Gi) Ii) as [Hi _].
  destruct (get_unique_spec env ∅ ∅ live s (inv_table _ _ _ _ _ _ HI) (inv_own _ _ _ _ _ _ HI) Hok
    range Hr p i m v Gi Hv) as (i' & v' & Eg & Hv' & HM).
  pose proof HM as (G' & M' & _). destruct (tg_inv _ G') as [r' Hr'].
  unfold ip_nat_setup_info. rewrite Hc. cbn [mbind option_bind]. fold m. rewrite Hinit, Hi.
  cbn [mbind option_bind]. rewrite Eg. cbn [mbind option_bind].
  assert (ip_ct_tuple_equal i' i = bool_decide (i' = i)) as ->.
  { destruct (bool_decide_reflect (i' = i)) as [->|Hne]; [apply tuple_equal_refl|].
    apply not_true_iff_false. intros (?&?&?&?&?)%tuple_equal_spec. apply Hne.
    destruct M' as (_ & Hdir & _). destruct i, i'; simpl in *; congruence. }
  set (alt := if negb (bool_decide (i' = i)) then _ else _).
  assert (∃ s0 c0, alt = Some s0 ∧ cts s0 !! p = Some c0 ∧ altered p s s0 c c0 ∧
    tuple_reply c0 = r' ∧
    status c0 = if negb (bool_decide (i' = i)) then Z.lor (status c) (nat_bit m) else status c)
    as (s0 & c0 & -> & Hc0 & Ha & Hrep & Hst).
  { unfold alt. destruct (bool_decide_reflect (i' = i)) as [Heq|Hne]; cbn [negb].
    - exists s, c. split_and!; first [done | apply altered_refl | congruence].
    - rewrite Hr'. cbn [mbind option_bind]. eexists _, _. split; [done|].
      split; [simpl; by rewrite !lookup_alter_eq, Hc|]. split; [|by destruct (_ && _)].
      split; try done; [intros q Hq; simpl; by rewrite !lookup_alter_ne|by destruct (_ && _)]. }
  cbn [mbind option_bind]. set (s1 := if negb (flag (status c) IPS_NAT_DONE_MASK) then _ else s0).
  exists v', (upd_ct p (set_bit (nat_done_bit m)) s1), (set_bit (nat_done_bit m) c0), i, i'.
  assert (cts s1 = cts s0) as E1 by (unfold s1; by destruct (negb (flag _ _))).
  assert (cts (upd_ct p (set_bit (nat_done_bit m)) s1) !! p = Some (set_bit (nat_done_bit m) c0)) as E2
    by (simpl; by rewrite E1, lookup_alter_eq, Hc0).
  assert (status (set_bit (nat_done_bit m) c0) = mapped_status m (negb (bool_decide (i' = i))) (status c))
    as E3 by (by rewrite status_set_bit, Hst).
  split_and!; try done.
  - apply (altered_frame p s s0 s1 c c0 m (negb (bool_decide (i' = i)))); try done.
    + unfold s1. destruct (negb (flag _ _)).
      * eexists. split; [done|]. intros h q. destruct (decide (h = hash_by_src env (tuple_orig c))) as [->|Hh].
        -- rewrite lookup_insert_eq. simpl. intros [->|?]%elem_of_cons; auto.
        -- rewrite lookup_insert_ne by done. auto.
      * exists (bysource s0). split; [by destruct s0|auto].
    + rewrite Hrep. destruct (ip_ct_invert_tuple_fields _ _ _ Hr') as (_ & _ & _ & ->).
      destruct (ip_ct_invert_tuple_fields _ _ _ Ii) as (_ & _ & _ & ->). f_equal. apply M'.
  - simpl. by rewrite Hrep, Hr'.
  - simpl. apply Ha.
Qed.
End Setup.
