(* ===== verification/NatTranslate.v ===== *)
(** * NAT: packets are translated, in both directions

    [manip_pkt] on the tuple of a packet, and the composition of the PRE_ROUTING and
    POST_ROUTING translations of a connection. *)
From S2P Require Import Prelude Packet CtBase TcpTrack CtProtos Conntrack ConntrackInv ConntrackFacts CtSteps Csum NatProto NatCore NatCsum NatFacts ConntrackSpec.
From stdpp Require Import gmultiset fin_maps fin_sets.
#[local] Open Scope Z_scope.

(** The effect of [ip_nat_setup_info] on a new connection, with the invariants. *)
Lemma setup_result env live ehold s p c range hooknum v :
  Inv env ∅ ∅ live ehold s → nat_ok s → range_ok range → vars_ok v →
  cts s !! p = Some c → is_confirmed c = false →
  ip_nat_initialized c (HOOK2MANIP hooknum) = false →
  ∃ v' s' c' i i',
    ip_nat_setup_info env p range hooknum v s = Some (NF_ACCEPT, v', s') ∧
    Inv env ∅ ∅ live ehold s' ∧ nat_ok s' ∧ vars_ok v' ∧
    cts s' !! p = Some c' ∧ ip_nat_initialized c' (HOOK2MANIP hooknum) = true ∧
    invert_tuplepr (tuple_reply c) = Some i ∧ invert_tuplepr i' = Some (tuple_reply c') ∧
    mapping_of s p range (HOOK2MANIP hooknum) v i i' ∧ tuple_orig c' = tuple_orig c ∧
    status c' = mapped_status (HOOK2MANIP hooknum) (negb (bool_decide (i' = i))) (status c).
Proof.
  intros HI Hok Hr Hv Hc Hcf Hin.
  destruct (setup_effect env live ehold s p c range hooknum v HI Hok Hr Hv Hc Hin)
    as (v' & s' & c' & i & i' & E & Hv' & HF & Hc' & Hi & Hi' & HM & Ho & Hst).
  exists v', s', c', i, i'. split_and!; try done.
  - apply (setup_inv _ _ _ _ _ p s); [done..|set_solver|]. by rewrite Hc; simpl; rewrite Hcf.
  - intros q cq Hq. destruct (decide (q = p)) as [->|Hne].
    2: { rewrite (sf_other _ _ _ HF) in Hq by done. by apply (Hok q). }
    rewrite Hc' in Hq. injection Hq as <-. destruct (Hok p c Hc) as [G D (j & Gj & Dj & Ij & Bj)].
    destruct (invert_tuplepr_involutive j _ (tg_wf _ Gj) Ij) as [Hj _].
    rewrite Hi in Hj. injection Hj as <-. pose proof HM as (G' & M' & _).
    split; [by rewrite Ho|by rewrite Ho|]. exists i'. split_and!; try done.
    + rewrite <- Dj. apply M'.
    + rewrite Ho, Hst. apply nat_between_mapped; [done..|]. destruct (decide (i' = i)); auto.
  - unfold ip_nat_initialized, test_bit. rewrite Hst, !mapped_status_bit by (by destruct (HOOK2MANIP hooknum)).
    by destruct (HOOK2MANIP hooknum).
Qed.

(** C18: recording a mapping.  For a new connection of a consistent tracker whose
    source (or destination) is not set up yet, [ip_nat_setup_info] with a usable
    range always succeeds: the tracker's invariant and the NAT invariant of every
    connection hold afterwards, and packets of the connection that left the box
    with tuple [i] now leave with a tuple [i'] that differs from [i] in nothing but
    the manipulated address and port (or ICMP identifier).  The address lies in the
    range, and so does the port of TCP and UDP; an ICMP identifier lies in it either as a
    number or as it is stored, the code comparing now the one and now the other.  The
    replies belong to no other connection, except in two cases: the protocol has nothing
    to choose (a destination without a port range, a protocol without ports) and only the
    address was set, or every value that the search tried is taken by another connection,
    which is every value of the window when the static counter does not wrap on the way. *)
Theorem setup_info_spec env live ehold s p c range hooknum v :
  Inv env ∅ ∅ live ehold s → nat_ok s → range_ok range → vars_ok v →
  cts s !! p = Some c → is_confirmed c = false →
  ip_nat_initialized c (HOOK2MANIP hooknum) = false →
  ∃ v' s' c' i i',
    ip_nat_setup_info env p range hooknum v s = Some (NF_ACCEPT, v', s') ∧
    Inv env ∅ ∅ live ehold s' ∧ nat_ok s' ∧ vars_ok v' ∧
    cts s' !! p = Some c' ∧ ip_nat_initialized c' (HOOK2MANIP hooknum) = true ∧
    invert_tuplepr (tuple_reply c) = Some i ∧ invert_tuplepr i' = Some (tuple_reply c') ∧
    mapping_of s p range (HOOK2MANIP hooknum) v i i'.
Proof.
  intros HI Hok Hr Hv Hc Hcf Hin.
  destruct (setup_result env live ehold s p c range hooknum v HI Hok Hr Hv Hc Hcf Hin)
    as (v' & s' & c' & i & i' & H). exists v', s', c', i, i'. tauto.
Qed.

(** ** The tuple of a packet under [manip_pkt] *)
Definition pkt_tuple (skb : sk_buff) : option ip_conntrack_tuple :=
  ip_ct_get_tuple (skb_iph skb) skb (ihl (skb_iph skb) * 4)
    (__ip_conntrack_proto_find (protocol (skb_iph skb))).

(** [x] with the side [m] taken from [t]. *)
Definition retarget (m : ip_nat_manip_type) (t x : ip_conntrack_tuple) : ip_conntrack_tuple :=
  let x := set_tuple_ip m (new_ip m t) x in
  match __ip_nat_proto_find (protonum x) with
  | nat_tcp | nat_udp => set_tuple_port m (tuple_port m t) x
  | nat_icmp => x <| src_u := src_u t |>
  | nat_unknown => x
  end.

(** A header field read through [skb_header_pointer]. *)
Lemma ld8_seg d off n x : 0 <= off → 0 <= x < n → off + n <= Z.of_nat (length d) →
  ld8 (take (Z.to_nat n) (drop (Z.to_nat off) d)) x = ld8 d (off + x).
Proof.
  intros. unfold ld8. rewrite lookup_take_lt, lookup_drop by lia. f_equal. f_equal. lia.
Qed.
Lemma ld16_seg d off n x : 0 <= off → 0 <= x → x + 1 < n → off + n <= Z.of_nat (length d) →
  ld16 (take (Z.to_nat n) (drop (Z.to_nat off) d)) x = ld16 d (off + x).
Proof. intros. unfold ld16. rewrite !ld8_seg by lia. by rewrite Z.add_assoc. Qed.

(** The tuple in terms of the packet's bytes. *)
Lemma pkt_tuple_eq skb : ip_wf (data skb) →
  flag (frag_off (skb_iph skb)) (htons IP_OFFSET) = false →
  pkt_tuple skb =
  let d := data skb in
  let h := hlen d 0 in
  let '(su, du) :=
    match __ip_nat_proto_find (protocol (iphdr_at d 0)) with
    | nat_tcp | nat_udp => (ld16 d h, ld16 d (h + 2))
    | nat_icmp => (ld16 d (h + 4), icmp_u (ld8 d h) (ld8 d (h + 1)))
    | nat_unknown => (0, 0)
    end in
  Some (mk_tuple (saddr (iphdr_at d 0)) su (daddr (iphdr_at d 0)) du (protocol (iphdr_at d 0))
          IP_CT_DIR_ORIGINAL).
Proof.
  intros Hwf Hf. destruct (h_range _ Hwf) as [Hh Hl]. unfold pkt_tuple, ip_ct_get_tuple. rewrite Hf.
  unfold skb_iph. fold (hlen (data skb) 0).
  assert (∀ n, n <= 8 → skb_header_pointer skb (hlen (data skb) 0) n =
    Some (take (Z.to_nat n) (drop (Z.to_nat (hlen (data skb) 0)) (data skb)))) as Hhp.
  { intros n Hn. unfold skb_header_pointer, skb_len. by destruct (Z.leb_spec (hlen (data skb) 0 + n) (Z.of_nat (length (data skb)))); [|lia]. }
  unfold __ip_conntrack_proto_find, __ip_nat_proto_find.
  destruct (_ =? IPPROTO_TCP); [|destruct (_ =? IPPROTO_UDP); [|destruct (_ =? IPPROTO_ICMP)]];
    unfold pkt_to_tuple, tcp_pkt_to_tuple, udp_pkt_to_tuple, icmp_pkt_to_tuple, generic_pkt_to_tuple,
      sizeof_udphdr, sizeof_icmphdr;
    rewrite ?Hhp by lia; cbn [mbind option_bind]; cbn zeta;
    unfold tcphdr_at, udphdr_at, icmphdr_at;
    cbn [th_source th_dest uh_source uh_dest icmp_type icmp_code icmp_id update upd_src_u upd_dst_u src_ip src_u dst_ip dst_u protonum dst_dir];
    rewrite ?ld16_seg, ?ld8_seg by lia; rewrite ?Z.add_0_r; done.
Qed.

Definition unfragmented (d : list Z) : Prop :=
  flag (frag_off (iphdr_at d 0)) (htons IP_OFFSET) = false.

(** [manip_pkt] succeeds on every complete packet that can be made writable. *)
Lemma manip_total skb t m : pkt_wf (data skb) →
  is_Some (manip_pkt true (protocol (skb_iph skb)) skb 0 t m).
Proof.
  intros [Hip Htcp]. destruct (h_range _ Hip) as [Hh Hl]. rewrite manip_pkt_eq.
  assert (∀ n, n <= Z.of_nat (length (data skb)) → skb_make_writable true skb n = true) as Hw.
  { intros n Hn. unfold skb_make_writable, skb_len. by destruct (Z.ltb_spec (Z.of_nat (length (data skb))) n); [lia|]. }
  rewrite Hw by lia. cbn [negb].
  assert (is_Some (proto_manip_pkt (__ip_nat_proto_find (protocol (skb_iph skb))) true skb 0 t m)) as [skb' ->];
    [|by eexists].
  unfold __ip_nat_proto_find, skb_iph in *.
  destruct (Z.eqb_spec (protocol (iphdr_at (data skb) 0)) IPPROTO_TCP) as [E|_].
  { cbn [proto_manip_pkt]. unfold tcp_manip_pkt. rewrite Z.add_0_l. fold (hlen (data skb) 0).
    unfold sizeof_tcphdr. specialize (Htcp E). unfold skb_len.
    destruct (Z.leb_spec (hlen (data skb) 0 + 20) (Z.of_nat (length (data skb)))); [|lia].
    rewrite Hw by lia. rewrite manip_parts_eq. by eexists. }
  destruct (_ =? IPPROTO_UDP); [|destruct (_ =? IPPROTO_ICMP)]; cbn [proto_manip_pkt];
    unfold udp_manip_pkt, icmp_manip_pkt, unknown_manip_pkt, sizeof_udphdr, sizeof_icmphdr;
    rewrite ?Z.add_0_l; fold (hlen (data skb) 0); rewrite ?Hw by lia; rewrite ?manip_parts_eq; by eexists.
Qed.

#[local] Ltac retarget_done Eq :=
  cbn [set_tuple_ip new_ip update upd_src_ip upd_dst_ip protonum src_ip src_u dst_ip dst_u dst_dir];
  rewrite Eq;
  cbn [set_tuple_port tuple_port update upd_src_u upd_dst_u protonum src_ip src_u dst_ip dst_u dst_dir];
  repeat case_decide; done.

Lemma manip_tuple ok skb t m skb' :
  pkt_wf (data skb) → unfragmented (data skb) → tuple_words t →
  manip_pkt ok (protocol (skb_iph skb)) skb 0 t m = Some skb' →
  pkt_tuple skb' = retarget m t <$> pkt_tuple skb ∧ pkt_wf (data skb') ∧
  unfragmented (data skb') ∧ protocol (skb_iph skb') = protocol (skb_iph skb).
Proof.
  intros Hwf Hf Ht H. destruct (manip_effect _ _ _ _ _ Hwf Ht H) as (d1 & -> & Hs & Hb & HE).
  pose proof (pw_ip _ Hwf) as Hip. destruct (h_range _ Hip) as [Hh Hl].
  destruct (effect_iph m t (data skb) d1 Hip Ht Hs Hb) as (L & B & Hh' & Ep & Ef & EA).
  set (d' := set_addr m 0 (new_ip m t) d1) in *.
  assert (unfragmented d') as Hf' by (unfold unfragmented; by rewrite Ef).
  assert (pkt_wf d') as Hwf'.
  { split; [|rewrite Ep, Hh', L; apply Hwf].
    split; [done| |rewrite Hh', L; lia]. pose proof (iw_ihl _ Hip). unfold hlen in *. lia. }
  split_and!; [|done..].
  rewrite (pkt_tuple_eq skb) by done.
  rewrite (pkt_tuple_eq (skb <| data := d' |>)) by (done || apply Hwf').
  cbn [data update upd_data]. cbn zeta. rewrite Hh', Ep.
  pose proof (EA IP_NAT_MANIP_SRC) as ES. pose proof (EA IP_NAT_MANIP_DST) as ED. cbn [old_ip] in ES, ED.
  assert (∀ x, 20 <= x → ld8 d' x = ld8 d1 x) as A8
    by (intros x Hx; apply set_addr_after; [rewrite (proj1 Hs); lia|done]).
  unfold l4_effect in HE. unfold ld16 in *. rewrite !A8 by lia.
  assert (ports_set m t (hlen (data skb) 0) (data skb) d1 →
    ld8 d1 (hlen (data skb) 0) + 256 * ld8 d1 (hlen (data skb) 0 + 1) =
      (if decide (IP_NAT_MANIP_SRC = m) then tuple_port m t
       else ld8 (data skb) (hlen (data skb) 0) + 256 * ld8 (data skb) (hlen (data skb) 0 + 1)) ∧
    ld8 d1 (hlen (data skb) 0 + 2) + 256 * ld8 d1 (hlen (data skb) 0 + 2 + 1) =
      (if decide (IP_NAT_MANIP_DST = m) then tuple_port m t
       else ld8 (data skb) (hlen (data skb) 0 + 2) + 256 * ld8 (data skb) (hlen (data skb) 0 + 2 + 1))) as HP.
  { intros HP. pose proof (HP IP_NAT_MANIP_SRC) as P1. pose proof (HP IP_NAT_MANIP_DST) as P2.
    cbn [port_off] in P1, P2. rewrite Z.add_0_r in P1. done. }
  rewrite ES, ED. unfold retarget.
  destruct (__ip_nat_proto_find (protocol (iphdr_at (data skb) 0))) eqn:Eq;
    cbn [fmap option_fmap option_map]; f_equal.
  - destruct (HP (proj2 HE)) as [-> ->]. destruct m; retarget_done Eq.
  - destruct (HP (proj1 HE)) as [-> ->]. destruct m; retarget_done Eq.
  - destruct HE as (_ & -> & HT & _).
    assert (icmp_u (ld8 d1 (hlen (data skb) 0)) (ld8 d1 (hlen (data skb) 0 + 1)) =
            icmp_u (ld8 (data skb) (hlen (data skb) 0)) (ld8 (data skb) (hlen (data skb) 0 + 1))) as -> by exact HT.
    destruct m; retarget_done Eq.
  - destruct m; retarget_done Eq.
Qed.

(** ** The two translations of a packet *)
Lemma nat_packet_step c ctinfo hooknum skb t :
  pkt_wf (data skb) → unfragmented (data skb) →
  invert_tuplepr (tuplehash c (dir_neg (CTINFO2DIR ctinfo))) = Some t → tuple_words t →
  protonum t = protocol (skb_iph skb) →
  ∃ skb', ip_nat_packet true c ctinfo hooknum skb = Some (NF_ACCEPT, skb') ∧
    pkt_wf (data skb') ∧ unfragmented (data skb') ∧
    protocol (skb_iph skb') = protocol (skb_iph skb) ∧
    pkt_tuple skb' =
      (if flag (status c) (nat_statusbit (HOOK2MANIP hooknum) (CTINFO2DIR ctinfo))
       then retarget (HOOK2MANIP hooknum) t <$> pkt_tuple skb else pkt_tuple skb).
Proof.
  intros Hwf Hf Hi Ht Hp. unfold ip_nat_packet. destruct (flag _ _); [|by exists skb].
  rewrite Hi. cbn [mbind option_bind]. rewrite Hp.
  destruct (manip_total skb t (HOOK2MANIP hooknum) Hwf) as [skb' E]. rewrite E.
  destruct (manip_tuple _ _ _ _ _ Hwf Hf Ht E) as (H1 & H2 & H3 & H4). by exists skb'.
Qed.

(** Where two tuples may differ, given which sides are manipulated. *)
Definition covered (fs fd : bool) (x t : ip_conntrack_tuple) : Prop :=
  protonum t = protonum x ∧
  (fs = false → src_ip t = src_ip x) ∧ (fd = false → dst_ip t = dst_ip x) ∧
  match __ip_nat_proto_find (protonum x) with
  | nat_tcp | nat_udp => (fs = false → src_u t = src_u x) ∧ (fd = false → dst_u t = dst_u x)
  | nat_icmp => dst_u t = dst_u x ∧ (fs = false → fd = false → src_u t = src_u x)
  | nat_unknown => src_u t = src_u x ∧ dst_u t = dst_u x
  end.

Lemma retarget_fields m t x :
  let y := retarget m t x in
  protonum y = protonum x ∧
  src_ip y = match m with IP_NAT_MANIP_SRC => src_ip t | _ => src_ip x end ∧
  dst_ip y = match m with IP_NAT_MANIP_DST => dst_ip t | _ => dst_ip x end ∧
  match __ip_nat_proto_find (protonum x) with
  | nat_tcp | nat_udp =>
      src_u y = match m with IP_NAT_MANIP_SRC => src_u t | _ => src_u x end ∧
      dst_u y = match m with IP_NAT_MANIP_DST => dst_u t | _ => dst_u x end
  | nat_icmp => src_u y = src_u t ∧ dst_u y = dst_u x
  | nat_unknown => src_u y = src_u x ∧ dst_u y = dst_u x
  end.
Proof.
  cbn zeta. unfold retarget.
  assert (protonum (set_tuple_ip m (new_ip m t) x) = protonum x) as -> by (by destruct m).
  by destruct m, (__ip_nat_proto_find (protonum x)).
Qed.

Lemma retarget_twice fs fd x t : covered fs fd x t →
  ip_ct_tuple_equal
    (let y := if fd then retarget IP_NAT_MANIP_DST t x else x in
     if fs then retarget IP_NAT_MANIP_SRC t y else y) t = true.
Proof.
  intros (Hp & Hs & Hd & Hu). apply tuple_equal_spec. cbn zeta.
  destruct (retarget_fields IP_NAT_MANIP_DST t x) as (A1 & A2 & A3 & A4).
  destruct (retarget_fields IP_NAT_MANIP_SRC t x) as (C1 & C2 & C3 & C4).
  destruct (retarget_fields IP_NAT_MANIP_SRC t (retarget IP_NAT_MANIP_DST t x)) as (B1 & B2 & B3 & B4).
  rewrite A1 in B4.
  destruct (__ip_nat_proto_find (protonum x)), fs, fd; intuition congruence.
Qed.

(** The fields of the inverse. *)
Lemma invert_fields t r : invert_tuplepr t = Some r →
  src_ip r = dst_ip t ∧ dst_ip r = src_ip t ∧ protonum r = protonum t ∧
  match __ip_nat_proto_find (protonum t) with
  | nat_tcp | nat_udp => src_u r = dst_u t ∧ dst_u r = src_u t
  | nat_icmp => src_u r = src_u t ∧ dst_u r = icmp_u (invmap (dst_u t mod 256) - 1) (dst_u t / 256)
  | nat_unknown => src_u r = 0 ∧ dst_u r = 0
  end.
Proof.
  intros H. destruct (ip_ct_invert_tuple_fields _ _ _ H) as (H1 & H2 & H3 & _).
  split_and!; [done..|]. unfold invert_tuplepr, ip_ct_invert_tuple in H.
  unfold __ip_conntrack_proto_find in H. unfold __ip_nat_proto_find.
  destruct (_ =? IPPROTO_TCP); [by injection H as <-|].
  destruct (_ =? IPPROTO_UDP); [by injection H as <-|].
  destruct (_ =? IPPROTO_ICMP); [|by injection H as <-].
  unfold invert_tuple, icmp_invert_tuple in H. destruct (_ || _); [done|]. by injection H as <-.
Qed.

Lemma statusbit_reply st m :
  flag st (nat_statusbit m IP_CT_DIR_REPLY) = flag st (nat_bit (manip_neg m)).
Proof. by destruct m. Qed.

(** What a packet of direction [d] becomes, and what is manipulated for it. *)
Lemma nat_wf_covered c d : nat_wf c → ∃ t,
  invert_tuplepr (tuplehash c (dir_neg d)) = Some t ∧ tuple_words t ∧
  covered (flag (status c) (nat_statusbit IP_NAT_MANIP_SRC d))
          (flag (status c) (nat_statusbit IP_NAT_MANIP_DST d)) (tuplehash c d) t.
Proof.
  intros [Ho Hd (i & Gi & Di & Ii & (Bp & Bs & Bd & Bu))].
  destruct (invert_tuplepr_involutive i _ (tg_wf _ Gi) Ii) as [Hi _].
  assert (__ip_nat_proto_find (protonum (tuple_orig c)) = nat_icmp ↔
          (protonum (tuple_orig c) =? IPPROTO_ICMP) = true) as Hicmp.
  { unfold __ip_nat_proto_find. destruct (Z.eqb_spec (protonum (tuple_orig c)) IPPROTO_TCP) as [->|];
      [done|]. destruct (Z.eqb_spec (protonum (tuple_orig c)) IPPROTO_UDP) as [->|]; [done|].
    by destruct (_ =? IPPROTO_ICMP). }
  assert (__ip_nat_proto_find (protonum (tuple_orig c)) = nat_unknown →
          __ip_conntrack_proto_find (protonum (tuple_orig c)) = proto_generic_ops) as Hgen.
  { unfold __ip_nat_proto_find, __ip_conntrack_proto_find.
    destruct (_ =? IPPROTO_TCP); [done|]. destruct (_ =? IPPROTO_UDP); [done|].
    by destruct (_ =? IPPROTO_ICMP). }
  destruct d; cbn [tuplehash dir_neg].
  - exists i. split_and!; [done|by apply good_words|]. split_and!; [done..|].
    destruct (__ip_nat_proto_find (protonum (tuple_orig c))) eqn:E.
    1-2: destruct (protonum (tuple_orig c) =? IPPROTO_ICMP) eqn:E2; [by pose proof (proj2 Hicmp eq_refl)|done].
    + by rewrite (proj1 Hicmp eq_refl) in Bu.
    + destruct (wf_generic _ (tg_wf _ Ho) (Hgen eq_refl)) as [-> ->].
      apply (wf_generic _ (tg_wf _ Gi)). rewrite Bp. by apply Hgen.
  - destruct (tg_inv _ Ho) as [t Ht]. exists t.
    destruct (invert_tuplepr_involutive _ _ (tg_wf _ Ho) Ht) as [Ht' Hwt].
    destruct (invert_fields _ _ Ht) as (T1 & T2 & T3 & T4).
    destruct (invert_fields _ _ Ii) as (R1 & R2 & R3 & R4).
    split_and!; [done|split; rewrite ?T1, ?T2; apply Ho || apply Hwt|].
    rewrite !statusbit_reply. unfold covered. rewrite R3, Bp in *. rewrite T3.
    split; [done|]. rewrite T1, T2, R1, R2. split; [intros; symmetry; by apply Bd|].
    split; [intros; symmetry; by apply Bs|]. cbn [manip_neg nat_bit].
    destruct (__ip_nat_proto_find (protonum (tuple_orig c))) eqn:E.
    1-2: destruct (protonum (tuple_orig c) =? IPPROTO_ICMP) eqn:E2; [by pose proof (proj2 Hicmp eq_refl)|];
         intuition congruence.
    + rewrite (proj1 Hicmp eq_refl) in Bu. destruct Bu as [B1 B2].
      destruct T4 as [-> ->], R4 as [-> ->]. rewrite B1. split; [done|]. intros. symmetry. auto.
    + intuition congruence.
Qed.

Lemma covered_ext fs fd x x' t : ip_ct_tuple_equal x x' = true → covered fs fd x' t → covered fs fd x t.
Proof.
  intros (E1 & E2 & E3 & E4 & E5)%tuple_equal_spec. unfold covered. by rewrite E1, E2, E3, E4, E5.
Qed.

Lemma nat_wf_inverse c d t : nat_wf c → invert_tuplepr (tuplehash c d) = Some t →
  invert_tuplepr t = Some (tuplehash c d).
Proof.
  intros [Go _ (i & Gi & _ & Ii & _)] Hi. destruct (invert_tuplepr_involutive _ _ (tg_wf _ Gi) Ii) as [_ Hr].
  assert (tuple_wf (tuplehash c d)) as Hwt by (destruct d; [apply Go|apply Hr]).
  by apply invert_tuplepr_involutive.
Qed.

Lemma invert_equal y t r : ip_ct_tuple_equal y t = true → invert_tuplepr t = Some r →
  ∃ r', invert_tuplepr y = Some r' ∧ ip_ct_tuple_equal r' r = true.
Proof.
  intros (Q1 & Q2 & Q3 & Q4 & Q5)%tuple_equal_spec Hti.
  assert (is_Some (invert_tuplepr y)) as [r' Hr] by (apply (invertible_ext t); [done..|by rewrite Hti]).
  exists r'. split; [done|]. apply tuple_equal_spec.
  pose proof (invert_fields _ _ Hr) as (R1 & R2 & R3 & R4).
  pose proof (invert_fields _ _ Hti) as (S1 & S2 & S3 & S4). rewrite <- Q5 in S4. rewrite Q4 in R4.
  destruct (__ip_nat_proto_find (protonum y)); intuition congruence.
Qed.

(** C7: packets of a connection are translated, in both directions.  A complete
    packet that belongs to direction [dir] of a connection (its tuple is the
    connection's tuple of that direction) passes the PRE_ROUTING and POST_ROUTING
    translations of [ip_nat_packet], and leaves with the inverse of the other
    direction's tuple: a packet of the original direction leaves as the mapped
    packet whose reply is the connection's reply tuple, and a reply leaves as the
    reply to the original packet.  TCP, UDP, ICMP queries and unknown protocols. *)
Theorem nat_translates c ctinfo skb x :
  nat_wf c → pkt_wf (data skb) → unfragmented (data skb) → pkt_tuple skb = Some x →
  ip_ct_tuple_equal x (tuplehash c (CTINFO2DIR ctinfo)) = true →
  ∃ skb1 skb2 y t,
    ip_nat_packet true c ctinfo NF_IP_PRE_ROUTING skb = Some (NF_ACCEPT, skb1) ∧
    ip_nat_packet true c ctinfo NF_IP_POST_ROUTING skb1 = Some (NF_ACCEPT, skb2) ∧
    pkt_tuple skb2 = Some y ∧ ip_ct_tuple_equal y t = true ∧
    invert_tuplepr (tuplehash c (dir_neg (CTINFO2DIR ctinfo))) = Some t ∧
    ∃ r, invert_tuplepr y = Some r ∧
         ip_ct_tuple_equal r (tuplehash c (dir_neg (CTINFO2DIR ctinfo))) = true.
Proof.
  intros Hc Hwf Hf Hx Heq.
  destruct (nat_wf_covered c (CTINFO2DIR ctinfo) Hc) as (t & Hi & Htw & Hcov).
  apply (covered_ext _ _ _ _ _ Heq) in Hcov.
  assert (protonum x = protocol (skb_iph skb)) as Hpx.
  { rewrite (pkt_tuple_eq skb (pw_ip _ Hwf) Hf) in Hx. cbn zeta in Hx.
    destruct (__ip_nat_proto_find _); by injection Hx as <-. }
  assert (protonum t = protocol (skb_iph skb)) as Hpt by (rewrite <- Hpx; apply Hcov).
  destruct (nat_packet_step c ctinfo NF_IP_PRE_ROUTING skb t Hwf Hf Hi Htw Hpt)
    as (skb1 & E1 & W1 & F1 & P1 & T1).
  destruct (nat_packet_step c ctinfo NF_IP_POST_ROUTING skb1 t W1 F1 Hi Htw)
    as (skb2 & E2 & W2 & F2 & P2 & T2); [by rewrite P1|].
  change (HOOK2MANIP NF_IP_PRE_ROUTING) with IP_NAT_MANIP_DST in T1.
  change (HOOK2MANIP NF_IP_POST_ROUTING) with IP_NAT_MANIP_SRC in T2.
  pose proof (retarget_twice _ _ _ _ Hcov) as Hy.
  set (fs := flag _ (nat_statusbit IP_NAT_MANIP_SRC _)) in *.
  set (fd := flag _ (nat_statusbit IP_NAT_MANIP_DST _)) in *.
  assert (∃ y, pkt_tuple skb2 = Some y ∧ ip_ct_tuple_equal y t = true) as (y & Ey & Hy').
  { eexists. split; [|exact Hy]. rewrite T2, T1, Hx. by destruct fs, fd. }
  clear Hy. rename Hy' into Hy. exists skb1, skb2, y, t.
  split_and!; [done..|].
  - apply (invert_equal y t); [done|]. by apply (nat_wf_inverse c).
Qed.

(** ** Witnesses *)
Lemma good_tuple t : tuple_wf t → is_u32 (src_ip t) → is_u32 (dst_ip t) →
  (∃ r, invert_tuplepr t = Some r) → tuple_good t.
Proof. intros ??? [r Hr]. split; [done..|by rewrite Hr]. Qed.

(** 192.0.2.1, the address of the box on the outside. *)
Definition wan_ip : Z := htonl 3221225985.
Definition masq_range : ip_nat_range := mk_range IP_NAT_RANGE_MAP_IPS wan_ip wan_ip 0 0.

Lemma masq_range_ok : range_ok masq_range.
Proof. split; vm_compute; intuition discriminate. Qed.

Lemma dns_tuple_good : tuple_good dns_tuple.
Proof.
  apply good_tuple; [split|..]; try (vm_compute; intuition discriminate).
  eexists. vm_compute. reflexivity.
Qed.

Lemma state1_nat_ok : nat_ok state1.
Proof.
  intros p c Hc.
  assert (cts state1 = <[1%positive := default c (cts state1 !! 1%positive)]> ∅) as E
    by (vm_compute; reflexivity).
  rewrite E in Hc. apply lookup_insert_Some in Hc as [[_ <-]|[_ Hc]]; [|by rewrite lookup_empty in Hc].
  apply new_nat_wf.
  - assert (tuple_orig (default c (cts state1 !! 1%positive)) = dns_tuple) as -> by (vm_compute; reflexivity).
    apply dns_tuple_good.
  - vm_compute. reflexivity.
  - vm_compute. reflexivity.
Qed.

Lemma setup_info_spec_witness :
  ∃ v' s', ip_nat_setup_info env0 1%positive masq_range NF_IP_POST_ROUTING (mk_nv 0 0 0) state1 =
    Some (NF_ACCEPT, v', s') ∧ nat_ok s'.
Proof.
  destruct (cts state1 !! 1%positive) as [c|] eqn:Ec; [|vm_compute in Ec; discriminate Ec].
  assert (is_confirmed c = false ∧ ip_nat_initialized c IP_NAT_MANIP_SRC = false) as [Hcf Hin]
    by (vm_compute in Ec; injection Ec as <-; split; vm_compute; reflexivity).
  destruct (setup_info_spec env0 _ _ state1 1%positive c masq_range NF_IP_POST_ROUTING (mk_nv 0 0 0)
    state1_inv state1_nat_ok masq_range_ok ltac:(vm_compute; intuition discriminate) Ec Hcf Hin)
    as (v' & s' & _ & _ & _ & E & _ & H & _).
  exists v', s'. exact (conj E H).
Defined.

(** The query's connection, mapped to port 40000 of the box. *)
Definition mapped_tuple : ip_conntrack_tuple :=
  mk_tuple wan_ip (htons 40000) (htonl 134744072) (htons 53) 17 IP_CT_DIR_ORIGINAL.
Definition mapped_reply : ip_conntrack_tuple :=
  mk_tuple (htonl 134744072) (htons 53) wan_ip (htons 40000) 17 IP_CT_DIR_REPLY.
Definition mapped_ct : ip_conntrack :=
  (blank_ct dns_tuple mapped_reply) <| status := IPS_SRC_NAT |>.

Lemma mapped_ct_wf : nat_wf mapped_ct.
Proof.
  split; [apply dns_tuple_good|reflexivity|]. exists mapped_tuple. split_and!.
  - apply good_tuple; [split|..]; try (vm_compute; intuition discriminate).
    eexists. vm_compute. reflexivity.
  - reflexivity.
  - vm_compute. reflexivity.
  - vm_compute. intuition discriminate.
Qed.

(** The query, and the answer that comes back to port 40000 of the box. *)
Lemma nat_translates_witness :
  let answer := udp_pkt 134744072 3221225985 53 40000 in
  ∃ skb1 skb2 y, ip_nat_packet true mapped_ct (IP_CT_ESTABLISHED + IP_CT_IS_REPLY) NF_IP_PRE_ROUTING
      answer = Some (NF_ACCEPT, skb1) ∧ skb2 = skb1 ∧
    pkt_tuple skb2 = Some y ∧ dst_ip y = htonl 167772161 ∧ dst_u y = htons 4000.
Proof.
  intros answer.
  destruct (nat_translates mapped_ct (IP_CT_ESTABLISHED + IP_CT_IS_REPLY) answer
      (mk_tuple (htonl 134744072) (htons 53) wan_ip (htons 40000) 17 IP_CT_DIR_ORIGINAL))
    as (skb1 & skb2 & y & t & E1 & E2 & Ey & Eq & Et & _).
  - apply mapped_ct_wf.
  - split; [split|]; try (vm_compute; discriminate). apply bytes_ok. vm_compute. reflexivity.
  - vm_compute. reflexivity.
  - vm_compute. reflexivity.
  - vm_compute. reflexivity.
  - exists skb1, skb2, y. split; [exact E1|].
    apply tuple_equal_spec in Eq as (_ & _ & Hd & Hu & _).
    vm_compute in Et. injection Et as <-. split; [|split; [exact Ey|split; assumption]].
    vm_compute in E1. injection E1 as <-. vm_compute in E2. injection E2 as <-. reflexivity.
Defined.

(** ** Searches that go wrong *)

(** A mapped packet of a web client, and the two connections that hold the ports
    1000 and 1001 of the box towards the same server. *)
Definition web (port : Z) : ip_conntrack_tuple :=
  mk_tuple wan_ip (htons port) (htonl 134744072) (htons 80) 6 IP_CT_DIR_ORIGINAL.
Definition web_ct (client port : Z) : ip_conntrack :=
  blank_ct (mk_tuple (htonl client) (htons 3000) (htonl 134744072) (htons 80) 6 IP_CT_DIR_ORIGINAL)
    (mk_tuple (htonl 134744072) (htons 80) wan_ip (htons port) 6 IP_CT_DIR_REPLY).
Definition web_state : ct_state :=
  let s := ct_empty <| cts := {[1%positive := web_ct 167772161 1000;
                                2%positive := web_ct 167772162 1001]} |> in
  ip_conntrack_hash_insert env0 2 (ip_conntrack_hash_insert env0 1 s).
Definition three_ports : ip_nat_range :=
  mk_range (IP_NAT_RANGE_MAP_IPS + IP_NAT_RANGE_PROTO_SPECIFIED) wan_ip wan_ip (htons 1000) (htons 1002).

(** The port search can miss a free port.  Its counter is a 16-bit variable whose
    residue modulo the size of the range jumps when the counter wraps.  With the
    range 1000-1002, the ports 1000 and 1001 taken and the counter at 65535, the
    search tries 1000, 1000 and 1001 and gives up, although 1002 is free. *)
Lemma unique_tuple_misses_port :
  (λ r, r.1.1) <$> tcp_unique_tuple env0 (web 3000) three_ports IP_NAT_MANIP_SRC 3 65535 web_state
    = Some false ∧
  ip_nat_used_tuple env0 (web 1002) 3 web_state = Some false ∧
  (λ r, (r.1.1, ntohs (src_u r.2))) <$>
    tcp_unique_tuple env0 (web 3000) three_ports IP_NAT_MANIP_SRC 3 0 web_state = Some (true, 1002).
Proof. vm_compute. done. Qed.

(** [icmp_in_range] compares identifiers in network byte order, unlike the port
    tests of TCP and UDP: on this little-endian processor identifier 2 is not in the
    range 1-256, and identifier 258 is in the range 2-3. *)
Lemma icmp_range_byte_order :
  let q (id : Z) := mk_tuple wan_ip (htons id) (htonl 134744072) 8 1 IP_CT_DIR_ORIGINAL in
  icmp_in_range (q 2) IP_NAT_MANIP_SRC (htons 1) (htons 256) = false ∧
  icmp_in_range (q 258) IP_NAT_MANIP_SRC (htons 2) (htons 3) = true.
Proof. vm_compute. done. Qed.

Lemma unique_tuple_search_witness :
  ∃ ok port' t', tcp_unique_tuple env0 (web 3000) three_ports IP_NAT_MANIP_SRC 3 0 state2 =
    Some (ok, port', t') ∧ is_u16 port'.
Proof.
  destruct (unique_tuple_search env0 ∅ state2 tcp_unique_tuple (web 3000) three_ports IP_NAT_MANIP_SRC 3 0)
    as (ok & port' & t' & E & H & _).
  - left. reflexivity.
  - exact (inv_table _ _ _ _ _ _ state2_inv).
  - left. reflexivity.
  - intros _. vm_compute. discriminate.
  - vm_compute. split; congruence.
  - exists ok, port', t'. exact (conj E H).
Defined.
