(* ===== verification/NatHelper.v ===== *)
(** * NAT: changed payloads and sequence numbers

    [net/ipv4/netfilter/ip_nat_helper.c]: what the application helpers use to rewrite
    an address inside a packet, and the correction of sequence numbers, acknowledgements
    and SACK blocks that a change of the payload's length makes necessary for the rest
    of the connection. *)
From S2P Require Import Prelude Packet CtBase TcpTrack CtProtos Conntrack NatProto NatCore.

(** ** The correction of a direction *)
Definition nat_seq (ct : ip_conntrack) (d : ip_conntrack_dir) : ip_nat_seq :=
  match d with IP_CT_DIR_ORIGINAL => nat_seq0 ct | IP_CT_DIR_REPLY => nat_seq1 ct end.
Definition set_nat_seq (d : ip_conntrack_dir) (v : ip_nat_seq) (ct : ip_conntrack) : ip_conntrack :=
  match d with
  | IP_CT_DIR_ORIGINAL => ct <| nat_seq0 := v |>
  | IP_CT_DIR_REPLY => ct <| nat_seq1 := v |>
  end.

Definition adjust_tcp_sequence (seq sizediff : Z) (ctinfo : Z) (ct : ip_conntrack) : ip_conntrack :=
  let dir := CTINFO2DIR ctinfo in
  let this_way := nat_seq ct dir in
  if (offset_before this_way =? offset_after this_way) || before (correction_pos this_way) seq
  then set_nat_seq dir (mk_nseq seq (offset_after this_way) (s32 (offset_after this_way + sizediff))) ct
  else ct.

(** ** Replacing bytes of the payload *)

(** [ip_send_check] of [net/ipv4/ip_output.c]. *)
Definition ip_send_check (d : list Z) : list Z :=
  let d := st16 10 0 d in
  st16 10 (csum_fold (csum_partial (take (Z.to_nat (ihl (iphdr_at d 0) * 4)) d) 0)) d.

(** [None]: the bytes to replace are not in the packet, and [memmove] gets a negative
    size. *)
Definition mangle_contents (d : list Z) (dataoff match_offset match_len : Z) (rep_buffer : list Z)
    : option (list Z) :=
  let pos := dataoff + match_offset in
  if Z.of_nat (length d) <? pos + match_len then None
  else
    let d := take (Z.to_nat pos) d ++ rep_buffer ++ drop (Z.to_nat (pos + match_len)) d in
    Some (ip_send_check (st16 2 (htons (Z.of_nat (length d))) d)).

(** [ok]: [skb_copy_expand] gets memory. *)
Definition enlarge_skb (ok : bool) (skb : sk_buff) (extra : Z) : bool :=
  if 65535 <? skb_len skb + extra then false else ok.

(** The room that the two functions below make for the replacement. *)
Definition mangle_room (ok : bool) (tailroom : Z) (skb : sk_buff) (match_len rep_len : Z) : bool :=
  negb ((match_len <? rep_len) && (tailroom <? rep_len - match_len)
        && negb (enlarge_skb ok skb (rep_len - match_len))).

(** The return value, the packet and the conntrack. *)
Definition ip_nat_mangle_tcp_packet (ok : bool) (tailroom : Z) (skb : sk_buff) (ct : ip_conntrack)
    (ctinfo match_offset match_len : Z) (rep_buffer : list Z) : option (bool * sk_buff * ip_conntrack) :=
  let rep_len := Z.of_nat (length rep_buffer) in
  if negb (skb_make_writable ok skb (skb_len skb)) then Some (false, skb, ct)
  else if negb (mangle_room ok tailroom skb match_len rep_len) then Some (false, skb, ct)
  else
    let h := ihl (skb_iph skb) * 4 in
    let tcph := tcphdr_at (data skb) h in
    d ← mangle_contents (data skb) (h + th_doff tcph * 4) match_offset match_len rep_buffer;
    let datalen := Z.of_nat (length d) - h in
    let d := st16 (h + 16) 0 d in
    let d := st16 (h + 16)
               (csum_tcpudp_magic (saddr (iphdr_at d 0)) (daddr (iphdr_at d 0)) datalen IPPROTO_TCP
                  (csum_partial (take (Z.to_nat datalen) (drop (Z.to_nat h) d)) 0)) d in
    let skb := skb <| data := d |> in
    let ct :=
      if negb (rep_len =? match_len) then
        let ct := set_bit IPS_SEQ_ADJUST_BIT ct in
        let ct := adjust_tcp_sequence (ntohl (th_seq (tcphdr_at d h))) (rep_len - match_len) ctinfo ct in
        ip_conntrack_tcp_update skb ct (CTINFO2DIR ctinfo)
      else ct in
    Some (true, skb, ct).

Definition ip_nat_mangle_udp_packet (ok : bool) (tailroom : Z) (skb : sk_buff)
    (match_offset match_len : Z) (rep_buffer : list Z) : option (bool * sk_buff) :=
  let rep_len := Z.of_nat (length rep_buffer) in
  let h := ihl (skb_iph skb) * 4 in
  if skb_len skb <? u32 (h + sizeof_udphdr + match_offset + match_len) then Some (false, skb)
  else if negb (skb_make_writable ok skb (skb_len skb)) then Some (false, skb)
  else if negb (mangle_room ok tailroom skb match_len rep_len) then Some (false, skb)
  else
    d ← mangle_contents (data skb) (h + sizeof_udphdr) match_offset match_len rep_buffer;
    let datalen := Z.of_nat (length d) - h in
    let d := st16 (h + 4) (htons datalen) d in
    let d := if negb (ld16 d (h + 6) =? 0) then
               let d := st16 (h + 6) 0 d in
               st16 (h + 6)
                 (csum_tcpudp_magic (saddr (iphdr_at d 0)) (daddr (iphdr_at d 0)) datalen IPPROTO_UDP
                    (csum_partial (take (Z.to_nat datalen) (drop (Z.to_nat h) d)) 0)) d
             else d in
    Some (true, skb <| data := d |>).

(** ** Adjusting later segments *)

(** The sequence number a peer must see for one of the other peer. *)
Definition new_seq (w : ip_nat_seq) (seq : Z) : Z :=
  u32 (seq + if after seq (correction_pos w) then offset_after w else offset_before w).
(** The acknowledgement, or edge of a SACK block, in the numbers of its receiver. *)
Definition new_ack (w : ip_nat_seq) (ack : Z) : Z :=
  u32 (ack - if after (u32 (ack - offset_before w)) (correction_pos w)
             then offset_after w else offset_before w).

(** The same for the 32-bit word of the packet. *)
Definition ack_word (w : ip_nat_seq) (x : Z) : Z := htonl (new_ack w (ntohl x)).

(** [~x] of a 32-bit word. *)
Definition not32 (x : Z) : Z := u32 (Z.lnot x).

(** Two words of the header at [h] are replaced, with an update of its checksum. *)
Definition replace_words (d : list Z) (h off1 new1 off2 new2 : Z) : list Z :=
  let check := ip_nat_cheat_check (not32 (ld32 d off1)) new1
                 (ip_nat_cheat_check (not32 (ld32 d off2)) new2 (ld16 d (h + 16))) in
  st32 off2 new2 (st32 off1 new1 (st16 (h + 16) check d)).

(** The loop ends: the size of a SACK option is a multiple of the block's; [None] is
    only for the fuel. *)
Fixpoint sack_adjust (fuel : nat) (d : list Z) (h sackoff sackend : Z) (natseq : ip_nat_seq)
    : option (list Z) :=
  match fuel with
  | O => None
  | S fuel =>
      if sackoff <? sackend then
        let start_seq := ack_word natseq (ld32 d sackoff) in
        let end_seq := ack_word natseq (ld32 d (sackoff + 4)) in
        sack_adjust fuel (replace_words d h sackoff start_seq (sackoff + 4) end_seq)
          h (sackoff + 8) sackend natseq
      else Some d
  end.

Definition TCPOPT_EOL := 0.
Definition TCPOPT_NOP := 1.
Definition TCPOPT_SACK := 5.
Definition TCPOLEN_SACK_PERBLOCK := 8.

(** The loop over the options; the return value and the packet. *)
Fixpoint sack_options (fuel : nat) (d : list Z) (h optoff optend : Z) (natseq : ip_nat_seq)
    : option (bool * list Z) :=
  match fuel with
  | O => None
  | S fuel =>
      if optoff <? optend then
        let op0 := ld8 d optoff in
        let op1 := ld8 d (optoff + 1) in
        if op0 =? TCPOPT_EOL then Some (true, d)
        else if op0 =? TCPOPT_NOP then sack_options fuel d h (optoff + 1) optend natseq
        else if (optoff + 1 =? optend) || (optend <? optoff + op1) || (op1 <? 2) then Some (false, d)
        else
          d ← (if (op0 =? TCPOPT_SACK) && (2 + TCPOLEN_SACK_PERBLOCK <=? op1)
                  && ((op1 - 2) mod TCPOLEN_SACK_PERBLOCK =? 0)
               then sack_adjust (Z.to_nat op1) d h (optoff + 2) (optoff + op1) natseq
               else Some d);
          sack_options fuel d h (optoff + op1) optend natseq
      else Some (true, d)
  end.

Definition ip_nat_sack_adjust (ok : bool) (skb : sk_buff) (ct : ip_conntrack) (ctinfo : Z)
    : option (bool * sk_buff) :=
  let h := ihl (skb_iph skb) * 4 in
  let optoff := h + sizeof_tcphdr in
  let optend := h + th_doff (tcphdr_at (data skb) h) * 4 in
  if negb (skb_make_writable ok skb optend) then Some (false, skb)
  else
    '(r, d) ← sack_options 61 (data skb) h optoff optend (nat_seq ct (dir_neg (CTINFO2DIR ctinfo)));
    Some (r, skb <| data := d |>).

Definition ip_nat_seq_adjust (ok : bool) (skb : sk_buff) (ct : ip_conntrack) (ctinfo : Z)
    : option (bool * sk_buff * ip_conntrack) :=
  let dir := CTINFO2DIR ctinfo in
  let this_way := nat_seq ct dir in
  let other_way := nat_seq ct (dir_neg dir) in
  let h := ihl (skb_iph skb) * 4 in
  if negb (skb_make_writable ok skb (h + sizeof_tcphdr)) then Some (false, skb, ct)
  else
    let d := data skb in
    let newseq := htonl (new_seq this_way (ntohl (ld32 d (h + 4)))) in
    let newack := ack_word other_way (ld32 d (h + 8)) in
    let skb := skb <| data := replace_words d h (h + 4) newseq (h + 8) newack |> in
    '(r, skb) ← ip_nat_sack_adjust ok skb ct ctinfo;
    if negb r then Some (false, skb, ct)
    else Some (true, skb, ip_conntrack_tcp_update skb ct dir).
