(* ===== verification/NatHelperFacts.v ===== *)
(** * Sequence numbers across changed payloads: theorems

    What [ip_nat_seq_adjust] and [ip_nat_mangle_tcp_packet] of [NatHelper] do to a
    segment, and that the corrections of the two directions fit together. *)
From S2P Require Import Prelude Packet CtBase TcpTrack CtProtos Conntrack Csum NatProto NatCore NatCsum NatHelper.

(** ** Replacing words of a segment *)
Lemma l4_edit_st32 h d o v : Forall is_u8 d → 0 <= h → h <= o → o + 4 <= Z.of_nat (length d) →
  Z.even (o - h) = true → is_u32 v → l4_edit h (v - ld32 d o) d (st32 o v d).
Proof.
  intros. split.
  - split; [apply st32_length|]. intros x Hx. apply ld8_st32_ne; lia.
  - auto with words.
  - pose proof (wsum_seg_st32 o v d h (Z.of_nat (length d) - h)) as E.
    specialize (E ltac:(lia) ltac:(lia) ltac:(lia) ltac:(lia) ltac:(done) ltac:(done) ltac:(done)). ones.
Qed.

Lemma ld8_st32 o o' v d : 0 <= o → 0 <= o' → o + 3 < Z.of_nat (length d) →
  o' < o ∨ o + 4 <= o' → ld8 (st32 o v d) o' = ld8 d o'.
Proof. intros. apply ld8_st32_ne; lia. Qed.

(** Where [replace_words] may write. *)
Definition outside (o n x : Z) : Prop := x < o ∨ o + n <= x.

Record words_ok (d : list Z) (h o : Z) : Prop := {
  wo_bytes : Forall is_u8 d; wo_h : 0 <= h; wo_len : o + 8 <= Z.of_nat (length d);
  wo_off : h <= o; wo_check : outside o 8 (h + 16) ∧ outside o 8 (h + 17);
  wo_room : h + 18 <= Z.of_nat (length d) }.

Lemma replace_words_bytes d h o new1 new2 : Forall is_u8 d → Forall is_u8 (replace_words d h o new1 (o + 4) new2).
Proof. intros. unfold replace_words. auto with words. Qed.
Lemma replace_words_length d h o1 new1 o2 new2 : length (replace_words d h o1 new1 o2 new2) = length d.
Proof. unfold replace_words. by autorewrite with words. Qed.

Lemma replace_words_frame d h o new1 new2 : words_ok d h o → is_u32 new1 → is_u32 new2 →
  let d' := replace_words d h o new1 (o + 4) new2 in
  ld32 d' o = new1 ∧ ld32 d' (o + 4) = new2 ∧
  ∀ x, 0 <= x → outside o 8 x → outside (h + 16) 2 x → ld8 d' x = ld8 d x.
Proof.
  intros [Hb H0 Hl Ho [Hc1 Hc2] Hr] H1 H2 d'. subst d'. unfold replace_words, outside in *. split_and!.
  - rewrite ld32_st32_ne by (rewrite ?st32_length, ?st16_length; lia).
    apply ld32_st32; rewrite ?st16_length; done || lia.
  - apply ld32_st32; rewrite ?st32_length, ?st16_length; done || lia.
  - intros x Hx Hx1 Hx2. rewrite !ld8_st32_ne by (rewrite ?st32_length, ?st16_length; lia).
    apply ld8_st16_ne; lia.
Qed.

Lemma replace_words_edit d h o new1 new2 : words_ok d h o → is_u32 new1 → is_u32 new2 →
  Z.even (o - h) = true → l4_edit h 0 d (replace_words d h o new1 (o + 4) new2).
Proof.
  intros [Hb H0 Hl Ho [Hc1 Hc2] Hr] H1 H2 He. unfold outside in *. unfold replace_words, not32.
  destruct (cheat_check_word (ld32 d (o + 4)) new2 (ld16 d (h + 16))) as [W2 E2]; [auto with words..|].
  set (c2 := ip_nat_cheat_check _ new2 _) in *.
  destruct (cheat_check_word (ld32 d o) new1 c2) as [W1 E1]; [auto with words..|].
  set (c1 := ip_nat_cheat_check _ new1 _) in *.
  set (d1 := st16 (h + 16) c1 d). set (d2 := st32 o new1 d1).
  assert (length d1 = length d ∧ length d2 = length d) as [L1 L2]
    by (unfold d2, d1; by rewrite ?st32_length, ?st16_length).
  assert (Forall is_u8 d1) as B1 by (unfold d1; auto with words).
  assert (Z.even (o + 4 - h) = true) as He4.
  { replace (o + 4 - h) with (o - h + 4) by lia. by rewrite Z.even_add, He. }
  eapply l4_edit_delta.
  - eapply l4_edit_trans; [eapply l4_edit_trans|].
    + apply (l4_edit_st16 h d (h + 16) c1); [done|lia..|by apply even_sub|done].
    + apply (l4_edit_st32 h d1 o new1); [done|lia..|done|done].
    + apply (l4_edit_st32 h d2 (o + 4) new2); [unfold d2; auto with words|lia..|done|done].
  - unfold d2. rewrite ld32_st32_ne by lia. unfold d1. rewrite !ld32_st16_ne by lia.
    clear He He4 W1 W2. ones.
Qed.

(** ** SACK blocks *)
Lemma htonl_range x : is_u32 (htonl x).
Proof. apply swab32_range. Qed.
Lemma ack_word_range w x : is_u32 (ack_word w x).
Proof. apply htonl_range. Qed.
#[local] Hint Resolve htonl_range ack_word_range : words.

Lemma ld32_ext d d' o : (∀ x, o <= x < o + 4 → ld8 d' x = ld8 d x) → ld32 d' o = ld32 d o.
Proof. intros H. unfold ld32, ld16. by rewrite !H by lia. Qed.

(** [n] blocks from [o] on are translated, nothing else but the checksum changes, and
    when the blocks are at an even place the checksum stays right. *)
Record blocks_done (w : ip_nat_seq) (h o : Z) (n : nat) (d d' : list Z) : Prop := {
  bd_len : length d' = length d;
  bd_bytes : Forall is_u8 d';
  bd_words : ∀ k, 0 <= k < 2 * Z.of_nat n → ld32 d' (o + 4 * k) = ack_word w (ld32 d (o + 4 * k));
  bd_frame : ∀ x, 0 <= x → outside o (8 * Z.of_nat n) x → outside (h + 16) 2 x → ld8 d' x = ld8 d x;
  bd_sum : Z.even (o - h) = true → l4_edit h 0 d d' }.

Lemma l4_edit_refl h d : Forall is_u8 d → l4_edit h 0 d d.
Proof. intros. split; [done..|]. ones. Qed.

Lemma sack_adjust_done w h n : ∀ fuel d o, (n < fuel)%nat → Forall is_u8 d → 0 <= h → h + 20 <= o →
  o + 8 * Z.of_nat n <= Z.of_nat (length d) →
  ∃ d', sack_adjust fuel d h o (o + 8 * Z.of_nat n) w = Some d' ∧ blocks_done w h o n d d'.
Proof.
  induction n as [|n IH]; intros fuel d o Hf Hb H0 Ho Hl; (destruct fuel as [|fuel]; [lia|]); cbn [sack_adjust].
  - rewrite Z.ltb_irrefl || (destruct (Z.ltb_spec o (o + 8 * Z.of_nat 0)); [lia|]).
    exists d. split; [done|]. split; [done..|lia|done|by intros; apply l4_edit_refl].
  - destruct (Z.ltb_spec o (o + 8 * Z.of_nat (S n))); [|lia].
    assert (words_ok d h o) as Hw by (split; unfold outside; done || lia).
    set (d1 := replace_words _ _ _ _ _ _).
    destruct (replace_words_frame d h o (ack_word w (ld32 d o)) (ack_word w (ld32 d (o + 4))) Hw)
      as (F1 & F2 & F3); [auto with words..|].
    pose proof (replace_words_edit d h o (ack_word w (ld32 d o)) (ack_word w (ld32 d (o + 4))) Hw) as HE.
    fold d1 in F1, F2, F3, HE.
    destruct (IH fuel d1 (o + 8)) as (d' & E & HD); [lia|by apply replace_words_bytes|lia|lia| |].
    { unfold d1. rewrite replace_words_length. lia. }
    exists d'. split; [rewrite <- E; f_equal; lia|]. clear E IH.
    destruct HD as [L B W F S]. unfold outside in *. split.
    + rewrite L. unfold d1. apply replace_words_length.
    + done.
    + intros k Hk. destruct (Z.ltb_spec k 2).
      * rewrite (ld32_ext d1 d') by (intros x Hx; apply F; lia).
        assert (k = 0 ∨ k = 1) as [-> | ->] by lia; [by rewrite !Z.add_0_r|done].
      * specialize (W (k - 2) ltac:(lia)). replace (o + 8 + 4 * (k - 2)) with (o + 4 * k) in W by lia.
        rewrite W. f_equal. apply ld32_ext. intros x Hx. apply F3; lia.
    + unfold outside. intros x Hx Hx1 Hx2. rewrite F by lia. apply F3; lia.
    + intros He. eapply (l4_edit_trans h 0 0); [apply HE; auto with words|apply S].
      replace (o + 8 - h) with (o - h + 8) by lia. by rewrite Z.even_add, He.
Qed.

(** ** The options of a segment

    The SACK options as the specification sees them: for each the place of its first
    block and the number of its blocks; [None] for a malformed option. *)
Definition is_sack (op0 op1 : Z) : bool :=
  (op0 =? TCPOPT_SACK) && (2 + TCPOLEN_SACK_PERBLOCK <=? op1) && ((op1 - 2) mod TCPOLEN_SACK_PERBLOCK =? 0).

Fixpoint sack_areas (fuel : nat) (d : list Z) (o e : Z) : option (list (Z * nat)) :=
  match fuel with
  | O => None
  | S fuel =>
      if o <? e then
        let op0 := ld8 d o in
        let op1 := ld8 d (o + 1) in
        if op0 =? TCPOPT_EOL then Some []
        else if op0 =? TCPOPT_NOP then sack_areas fuel d (o + 1) e
        else if (o + 1 =? e) || (e <? o + op1) || (op1 <? 2) then None
        else rest ← sack_areas fuel d (o + op1) e;
             Some (if is_sack op0 op1 then (o + 2, Z.to_nat ((op1 - 2) / 8)) :: rest else rest)
      else Some []
  end.

Lemma sack_areas_ext d d' e fuel : ∀ o, (∀ x, o <= x → ld8 d' x = ld8 d x) →
  sack_areas fuel d' o e = sack_areas fuel d o e.
Proof.
  induction fuel as [|fuel IH]; intros o H; [done|]. cbn [sack_areas]. rewrite !H by lia.
  destruct (o <? e); [|done]. destruct (_ =? TCPOPT_EOL); [done|]. destruct (_ =? TCPOPT_NOP).
  - apply IH. intros x Hx. apply H. lia.
  - destruct ((_ =? _) || _ || (ld8 d (o + 1) <? 2)) eqn:Eb; [done|]. rewrite IH; [done|].
    intros x Hx. apply H. lia.
Qed.

Lemma sack_areas_within d e fuel : ∀ o l a n, sack_areas fuel d o e = Some l → (a, n) ∈ l →
  o <= a ∧ a + 8 * Z.of_nat n <= e.
Proof.
  induction fuel as [|fuel IH]; intros o l a n H Hin; [done|]. cbn [sack_areas] in H.
  destruct (Z.ltb_spec o e); [|injection H as <-; by apply elem_of_nil in Hin].
  destruct (_ =? TCPOPT_EOL); [injection H as <-; by apply elem_of_nil in Hin|].
  destruct (_ =? TCPOPT_NOP); [specialize (IH _ _ _ _ H Hin); lia|].
  destruct ((_ =? _) || _ || (ld8 d (o + 1) <? 2)) eqn:Eb; [done|].
  apply bind_Some in H as (rest & Hr & [= <-]). apply orb_false_iff in Eb as [Eb E2].
  apply orb_false_iff in Eb as [E1 Ee].
  destruct (is_sack _ _) eqn:Es; [apply elem_of_cons in Hin as [[= -> ->]|Hin]|].
  - unfold is_sack, TCPOLEN_SACK_PERBLOCK in Es. lia.
  - specialize (IH _ _ _ _ Hr Hin). lia.
  - specialize (IH _ _ _ _ Hr Hin). lia.
Qed.

(** What is done to the areas [l]. *)
Record areas_done (w : ip_nat_seq) (h : Z) (l : list (Z * nat)) (d d' : list Z) : Prop := {
  ad_len : length d' = length d;
  ad_bytes : Forall is_u8 d';
  ad_words : ∀ a n k, (a, n) ∈ l → 0 <= k < 2 * Z.of_nat n →
    ld32 d' (a + 4 * k) = ack_word w (ld32 d (a + 4 * k));
  ad_frame : ∀ x, 0 <= x → (∀ a n, (a, n) ∈ l → outside a (8 * Z.of_nat n) x) →
    outside (h + 16) 2 x → ld8 d' x = ld8 d x;
  ad_sum : (∀ a n, (a, n) ∈ l → Z.even (a - h) = true) → l4_edit h 0 d d' }.

Lemma areas_done_nil w h d : Forall is_u8 d → areas_done w h [] d d.
Proof. intros. split; [done|done|by intros ??? ?%elem_of_nil|done|by intros; apply l4_edit_refl]. Qed.

Lemma areas_done_cons w h a n l d d1 d' : 0 <= h → h + 18 <= a →
  (∀ b m, (b, m) ∈ l → a + 8 * Z.of_nat n <= b) →
  blocks_done w h a n d d1 → areas_done w h l d1 d' → areas_done w h ((a, n) :: l) d d'.
Proof.
  intros H0 Ha Hord [L1 B1 W1 F1 S1] [L2 B2 W2 F2 S2]. split.
  - congruence.
  - done.
  - intros b m k [[= -> ->]|Hin]%elem_of_cons Hk.
    + rewrite (ld32_ext d1); [by apply W1|]. intros x Hx. apply F2; unfold outside; [lia| |lia].
      intros b m Hb. specialize (Hord _ _ Hb). lia.
    + rewrite (W2 b m k Hin Hk). f_equal. specialize (Hord _ _ Hin).
      apply ld32_ext. intros x Hx. apply F1; unfold outside; lia.
  - intros x Hx Hout Hc. rewrite F2; [|done| |done].
    + apply F1; [done| |done]. apply (Hout a n). by left.
    + intros b m Hb. apply Hout. by right.
  - intros He. eapply (l4_edit_trans h 0 0); [apply S1, (He a n); by left|apply S2].
    intros b m Hb. apply (He b m). by right.
Qed.

(** The loop translates exactly the blocks of the SACK options. *)
Lemma sack_options_spec w h e fuel : ∀ d o, (Z.to_nat (e - o) < fuel)%nat →
  Forall is_u8 d → 0 <= h → h + 20 <= o → e <= Z.of_nat (length d) →
  match sack_areas fuel d o e with
  | Some l => ∃ d', sack_options fuel d h o e w = Some (true, d') ∧ areas_done w h l d d'
  | None => ∃ d', sack_options fuel d h o e w = Some (false, d')
  end.
Proof.
  induction fuel as [|fuel IH]; intros d o Hf Hb H0 Ho Hl; [lia|]. cbn [sack_areas sack_options].
  destruct (Z.ltb_spec o e); [|eexists; split; [done|by apply areas_done_nil]].
  destruct (_ =? TCPOPT_EOL); [eexists; split; [done|by apply areas_done_nil]|].
  destruct (_ =? TCPOPT_NOP); [apply IH; (done || lia)|].
  destruct ((_ =? _) || _ || (ld8 d (o + 1) <? 2)) eqn:Eb; [by eexists|].
  apply orb_false_iff in Eb as [Eb E2]. apply orb_false_iff in Eb as [E1 Ee].
  fold (is_sack (ld8 d o) (ld8 d (o + 1))). set (op1 := ld8 d (o + 1)) in *.
  destruct (is_sack (ld8 d o) op1) eqn:Es.
  - unfold is_sack, TCPOLEN_SACK_PERBLOCK in Es.
    set (n := Z.to_nat ((op1 - 2) / 8)). assert (o + op1 = o + 2 + 8 * Z.of_nat n) as En by (unfold n; lia).
    destruct (sack_adjust_done w h n (Z.to_nat op1) d (o + 2)) as (d1 & Ea & H1); [lia|done|lia..|].
    rewrite <- En in Ea. rewrite Ea. cbn [mbind option_bind]. destruct H1 as [L1 B1 W1 F1 S1].
    specialize (IH d1 (o + op1) ltac:(lia) B1 H0 ltac:(lia) ltac:(lia)).
    rewrite (sack_areas_ext d d1) in IH by (intros x Hx; apply F1; unfold outside; lia).
    destruct (sack_areas fuel d (o + op1) e) as [l|] eqn:El; [|exact IH].
    destruct IH as (d' & E & HD). exists d'. split; [done|]. eapply areas_done_cons; [lia|lia| | |done].
    + intros b m Hin. destruct (sack_areas_within _ _ _ _ _ _ _ El Hin). lia.
    + by split.
  - cbn [mbind option_bind]. specialize (IH d (o + op1) ltac:(lia) Hb H0 ltac:(lia) Hl).
    by destruct (sack_areas fuel d (o + op1) e).
Qed.

(** ** Segments *)

(** A TCP segment whose header is complete. *)
Record tcp_wf (d : list Z) : Prop := {
  tw_ip : ip_wf d;
  tw_proto : protocol (iphdr_at d 0) = IPPROTO_TCP;
  tw_doff : 5 <= th_doff (tcphdr_at d (hlen d 0));
  tw_header : hlen d 0 + th_doff (tcphdr_at d (hlen d 0)) * 4 <= Z.of_nat (length d) }.

Lemma doff_bound d o : Forall is_u8 d → 0 <= th_doff (tcphdr_at d o) <= 15.
Proof.
  intros Hb. unfold tcphdr_at. cbn [th_doff]. pose proof (ld8_range d (o + 12) Hb).
  rewrite Z.shiftr_div_pow2 by lia. change (2 ^ 4) with 16. word_lia.
Qed.

Lemma l4_edit_sum_ok d d' : ip_wf d → protocol (iphdr_at d 0) = IPPROTO_TCP →
  l4_edit (hlen d 0) 0 d d' → l4_sum_ok d' ↔ l4_sum_ok d.
Proof.
  intros Hip Hp [Hs Hb Hsum]. destruct (h_range _ Hip) as [Hh Hl]. pose proof (proj1 Hs) as L.
  pose proof (iw_bytes _ Hip) as Bd.
  assert (iphdr_at d' 0 = iphdr_at d 0) as Ei by (apply (same_before_iph _ _ _ _ Hs); lia).
  unfold l4_sum_ok, l4_sum, l4_len, hlen. rewrite Ei, L, Hp. fold (hlen d 0).
  change (IPPROTO_TCP =? IPPROTO_TCP) with true. cbn [orb]. cbv iota.
  destruct (csum_partial_spec (seg d' (hlen d 0) (Z.of_nat (length d) - hlen d 0)) 0) as (U1 & E1 & _);
    [auto with words|word_lia|].
  destruct (csum_partial_spec (seg d (hlen d 0) (Z.of_nat (length d) - hlen d 0)) 0) as (U2 & E2 & _);
    [auto with words|word_lia|].
  rewrite !tcpudp_magic_ok by first [done | unfold iphdr_at; cbn [saddr daddr]; auto with words].
  clear - E1 E2 Hsum. ones.
Qed.

(** [ip_nat_seq_adjust] on such a segment. *)
Lemma seq_adjust_eq skb ct ctinfo : tcp_wf (data skb) →
  let d := data skb in
  let h := hlen d 0 in
  let dir := CTINFO2DIR ctinfo in
  let d1 := replace_words d h (h + 4) (htonl (new_seq (nat_seq ct dir) (ntohl (ld32 d (h + 4)))))
              (h + 8) (ack_word (nat_seq ct (dir_neg dir)) (ld32 d (h + 8))) in
  ip_nat_seq_adjust true skb ct ctinfo =
  match sack_options 61 d1 h (h + 20) (h + th_doff (tcphdr_at d h) * 4) (nat_seq ct (dir_neg dir)) with
  | None => None
  | Some (false, d') => Some (false, skb <| data := d' |>, ct)
  | Some (true, d') =>
      Some (true, skb <| data := d' |>, ip_conntrack_tcp_update (skb <| data := d' |>) ct dir)
  end.
Proof.
  intros [Hip Hp Hdo Hhd] d h dir d1. fold d in Hip, Hp, Hdo, Hhd. fold h in Hdo, Hhd.
  destruct (h_range _ Hip) as [Hh Hl]. fold h in Hh, Hl.
  assert (words_ok d h (h + 4)) as Hw by (split; unfold outside; (apply Hip || lia)).
  destruct (replace_words_frame d h (h + 4) (htonl (new_seq (nat_seq ct dir) (ntohl (ld32 d (h + 4)))))
              (ack_word (nat_seq ct (dir_neg dir)) (ld32 d (h + 8))) Hw) as (_ & _ & F1); [auto with words..|].
  replace (h + 4 + 4) with (h + 8) in F1 by lia. fold d1 in F1.
  assert (iphdr_at d1 0 = iphdr_at d 0) as Ei
    by (unfold iphdr_at, ld32, ld16; by rewrite !F1 by (unfold outside; lia)).
  assert (th_doff (tcphdr_at d1 h) = th_doff (tcphdr_at d h)) as Ed
    by (unfold tcphdr_at; cbn [th_doff]; by rewrite F1 by (unfold outside; lia)).
  unfold ip_nat_seq_adjust, ip_nat_sack_adjust, skb_make_writable, skb_iph, skb_len, sizeof_tcphdr.
  cbn [data update upd_data]. fold d. fold (hlen d 0). fold h. fold dir.
  destruct (Z.ltb_spec (Z.of_nat (length d)) (h + 20)); [lia|]. cbn [negb].
  fold d1. rewrite Ei. fold (hlen d 0). fold h. rewrite Ed.
  assert (length d1 = length d) as -> by apply replace_words_length.
  destruct (Z.ltb_spec (Z.of_nat (length d)) (h + th_doff (tcphdr_at d h) * 4)); [lia|]. cbn [negb].
  by destruct (sack_options _ _ _ _ _ _) as [[[] d']|].
Qed.

(** The segment [d1] with the new numbers in its header, and the result, whose SACK
    blocks are translated too. *)
Lemma seq_adjust_result skb ct ctinfo : tcp_wf (data skb) →
  let d := data skb in
  let h := hlen d 0 in
  let dir := CTINFO2DIR ctinfo in
  let other := nat_seq ct (dir_neg dir) in
  ∃ d1, length d1 = length d ∧ l4_edit h 0 d d1 ∧
    ntohl (ld32 d1 (h + 4)) = new_seq (nat_seq ct dir) (ntohl (ld32 d (h + 4))) ∧
    ntohl (ld32 d1 (h + 8)) = new_ack other (ntohl (ld32 d (h + 8))) ∧
    (∀ x, 0 <= x → outside (h + 4) 8 x → outside (h + 16) 2 x → ld8 d1 x = ld8 d x) ∧
    match sack_areas 61 d (h + 20) (h + th_doff (tcphdr_at d h) * 4) with
    | None => ∃ skb', ip_nat_seq_adjust true skb ct ctinfo = Some (false, skb', ct)
    | Some areas => ∃ d', areas_done other h areas d1 d' ∧
        (∀ a n, (a, n) ∈ areas → h + 20 <= a) ∧
        (∀ x, 0 <= x < h + 16 → ld8 d' x = ld8 d1 x) ∧
        let skb' := skb <| data := d' |> in
        ip_nat_seq_adjust true skb ct ctinfo = Some (true, skb', ip_conntrack_tcp_update skb' ct dir)
    end.
Proof.
  intros Hwf d h dir other. pose proof Hwf as [Hip Hp Hdo Hhd]. fold d in Hip, Hp, Hdo, Hhd. fold h in Hdo, Hhd.
  destruct (h_range _ Hip) as [Hh Hl]. fold h in Hh, Hl. pose proof (iw_bytes _ Hip) as Hb.
  rewrite seq_adjust_eq by done. fold d. fold h. fold dir. fold other.
  set (newseq := htonl _). set (newack := ack_word _ _). set (d1 := replace_words _ _ _ _ _ _).
  assert (words_ok d h (h + 4)) as Hw by (split; unfold outside; done || lia).
  destruct (replace_words_frame d h (h + 4) newseq newack Hw) as (W1 & W2 & F1); [unfold newack, newseq; auto with words..|].
  assert (l4_edit h 0 d d1) as E1
    by (unfold d1; replace (h + 8) with (h + 4 + 4) by lia;
        apply replace_words_edit; [done|unfold newack, newseq; auto with words..|by apply even_sub]).
  replace (h + 4 + 4) with (h + 8) in W1, W2, F1 by lia. fold d1 in W1, W2, F1.
  pose proof (doff_bound d h Hb) as Hdb. pose proof (le_bytes _ _ _ _ E1) as B1.
  assert (length d1 = length d) as L1 by apply replace_words_length.
  pose proof (sack_options_spec other h (h + th_doff (tcphdr_at d h) * 4) 61 d1 (h + 20)
                ltac:(lia) B1 ltac:(lia) ltac:(lia) ltac:(lia)) as HS.
  rewrite (sack_areas_ext d d1) in HS by (intros x Hx; apply F1; unfold outside; lia).
  exists d1. split_and!; [done|done| | |done|].
  - rewrite W1. apply ntohl_htonl, u32_range.
  - rewrite W2. apply ntohl_htonl, u32_range.
  - destruct (sack_areas 61 d (h + 20) (h + th_doff (tcphdr_at d h) * 4)) as [areas|] eqn:Ea;
      [|destruct HS as (d' & ->); by eexists].
    destruct HS as (d' & -> & HD). exists d'.
    assert (∀ a n, (a, n) ∈ areas → h + 20 <= a) as Hafter
      by (intros a n Hin; destruct (sack_areas_within _ _ _ _ _ _ _ Ea Hin); lia).
    split_and!; [done|done| |done].
    intros x Hx. apply HD; unfold outside; [lia| |lia]. intros a n Hin. specialize (Hafter _ _ Hin). lia.
Qed.

(** Sequence adjustment of a segment.  On every segment with a complete header it
    ends; it fails exactly when the segment has a malformed option, and otherwise sets
    the sequence number, the acknowledgement and every edge of every SACK block to the
    corrected value, changes nothing else but the checksum, and keeps the checksum as
    right or wrong as it was if the SACK blocks are at even places.  The window tracking
    of the connection is told. *)
Lemma seq_adjust_spec skb ct ctinfo : tcp_wf (data skb) →
  let d := data skb in
  let h := hlen d 0 in
  let dir := CTINFO2DIR ctinfo in
  let other := nat_seq ct (dir_neg dir) in
  ∃ r skb' ct', ip_nat_seq_adjust true skb ct ctinfo = Some (r, skb', ct') ∧
  match sack_areas 61 d (h + 20) (h + th_doff (tcphdr_at d h) * 4) with
  | None => r = false ∧ ct' = ct
  | Some areas =>
      let d' := data skb' in
      r = true ∧ length d' = length d ∧
      ntohl (ld32 d' (h + 4)) = new_seq (nat_seq ct dir) (ntohl (ld32 d (h + 4))) ∧
      ntohl (ld32 d' (h + 8)) = new_ack other (ntohl (ld32 d (h + 8))) ∧
      (∀ a n k, (a, n) ∈ areas → 0 <= k < 2 * Z.of_nat n →
         ntohl (ld32 d' (a + 4 * k)) = new_ack other (ntohl (ld32 d (a + 4 * k)))) ∧
      (∀ x, 0 <= x → outside (h + 4) 8 x → outside (h + 16) 2 x →
         (∀ a n, (a, n) ∈ areas → outside a (8 * Z.of_nat n) x) → ld8 d' x = ld8 d x) ∧
      ((∀ a n, (a, n) ∈ areas → Z.even (a - h) = true) → l4_sum_ok d' ↔ l4_sum_ok d) ∧
      ct' = ip_conntrack_tcp_update skb' ct dir
  end.
Proof.
  intros Hwf d h dir other. pose proof Hwf as [Hip Hp _ _].
  destruct (h_range _ Hip) as [Hh Hl]. fold d in Hh, Hl. fold h in Hh, Hl.
  destruct (seq_adjust_result skb ct ctinfo Hwf) as (d1 & L1 & E1 & W1 & W2 & F1 & HS).
  fold d in L1, E1, W1, W2, F1, HS. fold h in E1, W1, W2, F1, HS. fold dir in W1, W2, HS. fold other in W2, HS.
  destruct (sack_areas 61 d (h + 20) (h + th_doff (tcphdr_at d h) * 4)) as [areas|].
  2: { destruct HS as (skb' & ->). do 3 eexists. split; [reflexivity|done]. }
  destruct HS as (d' & [L2 B2 W F S] & Hafter & Fh & ->). do 3 eexists. split; [reflexivity|]. cbn [data update upd_data].
  split_and!; try done.
  - congruence.
  - by rewrite (ld32_ext d1 d') by (intros; apply Fh; lia).
  - by rewrite (ld32_ext d1 d') by (intros; apply Fh; lia).
  - intros a n k Hin Hk. rewrite (W a n k Hin Hk). unfold ack_word. rewrite ntohl_htonl by apply u32_range.
    do 2 f_equal. apply ld32_ext. intros x Hx. specialize (Hafter _ _ Hin). apply F1; unfold outside; lia.
  - intros x Hx Ho Hc Ha. rewrite F by done. by apply F1.
  - intros He. apply l4_edit_sum_ok; [done..|]. fold h. exact (l4_edit_trans h 0 0 _ _ _ E1 (S He)).
Qed.

(** ** The two directions fit together *)

(** The sequence number and the acknowledgement of a segment. *)
Definition seq_of (skb : sk_buff) : Z := ntohl (ld32 (data skb) (hlen (data skb) 0 + 4)).
Definition ack_of (skb : sk_buff) : Z := ntohl (ld32 (data skb) (hlen (data skb) 0 + 8)).

Lemma new_ack_new_seq w x : is_u32 x →
  (after x (correction_pos w) = true →
   after (u32 (x + offset_after w - offset_before w)) (correction_pos w) = true) →
  new_ack w (new_seq w x) = x.
Proof.
  intros Hx Hc. unfold new_seq. destruct (after x (correction_pos w)) eqn:E.
  - unfold new_ack.
    replace (u32 (u32 (x + offset_after w) - offset_before w)) with (u32 (x + offset_after w - offset_before w))
      by word_lia.
    rewrite Hc by done. word_lia.
  - unfold new_ack. replace (u32 (u32 (x + offset_before w) - offset_before w)) with x by word_lia.
    rewrite E. word_lia.
Qed.

Lemma dir_neg_invol d : dir_neg (dir_neg d) = d.
Proof. by destruct d. Qed.

Lemma tcp_update_nat_seq skb ct dir d : nat_seq (ip_conntrack_tcp_update skb ct dir) d = nat_seq ct d.
Proof. by destruct d. Qed.

Lemma seq_adjust_numbers skb ct ctinfo skb' ct' : tcp_wf (data skb) →
  ip_nat_seq_adjust true skb ct ctinfo = Some (true, skb', ct') →
  let dir := CTINFO2DIR ctinfo in
  seq_of skb' = new_seq (nat_seq ct dir) (seq_of skb) ∧
  ack_of skb' = new_ack (nat_seq ct (dir_neg dir)) (ack_of skb) ∧ ∀ d, nat_seq ct' d = nat_seq ct d.
Proof.
  intros Hwf H dir. destruct (h_range _ (tw_ip _ Hwf)) as [Hh Hl].
  destruct (seq_adjust_result skb ct ctinfo Hwf) as (d1 & L1 & E1 & W1 & W2 & F1 & HS).
  destruct (sack_areas _ _ _ _); [|destruct HS as (? & HS); congruence].
  destruct HS as (d' & HD & _ & Fh & HS). rewrite HS in H. injection H as <- <-.
  assert (hlen d' 0 = hlen (data skb) 0) as Eh.
  { unfold hlen, iphdr_at. cbn [ihl]. rewrite Fh, F1 by (unfold outside; lia). done. }
  unfold seq_of, ack_of. cbn [data update upd_data]. rewrite Eh.
  rewrite !(ld32_ext d1 d') by (intros; apply Fh; lia).
  split_and!; [done|done|]. intros d. apply tcp_update_nat_seq.
Qed.

(** C35: The two directions of an adjusted connection fit together.  When a segment [A]
    has passed the correction and its receiver acknowledges the place where it saw [A]
    begin, then the acknowledgement [B] comes out of the correction of the other
    direction with the number that the sender of [A] used; and that also for numbers
    that wrap around.  The only exception are places among bytes that the change of the
    payload has removed, which have no counterpart. *)
Theorem seq_ack_roundtrip A B ct iA iB A' B' ctA ctB :
  tcp_wf (data A) → tcp_wf (data B) → CTINFO2DIR iB = dir_neg (CTINFO2DIR iA) →
  ip_nat_seq_adjust true A ct iA = Some (true, A', ctA) →
  ip_nat_seq_adjust true B ctA iB = Some (true, B', ctB) →
  let w := nat_seq ct (CTINFO2DIR iA) in
  (after (seq_of A) (correction_pos w) = true →
   after (u32 (seq_of A + offset_after w - offset_before w)) (correction_pos w) = true) →
  ack_of B = seq_of A' → ack_of B' = seq_of A.
Proof.
  intros WA WB Hd HA HB w Hgap Hack.
  destruct (seq_adjust_numbers _ _ _ _ _ WA HA) as (HsA & _ & Hw).
  destruct (seq_adjust_numbers _ _ _ _ _ WB HB) as (_ & HaB & _).
  rewrite HaB, Hd, dir_neg_invol, Hw, Hack, HsA. apply new_ack_new_seq; [apply ntohl_range|done].
Qed.

(** ** Recomputed checksums *)
Lemma tcpudp_magic_spec sa da len proto sum : is_u32 sa → is_u32 da → is_u32 sum →
  is_u16 (csum_tcpudp_magic sa da len proto sum) ∧
  csum_tcpudp_magic sa da len proto sum ≡₁ - (sum + da + sa + ntohs (u16 len) + ntohs proto).
Proof.
  intros Hs Hd Hm. unfold csum_tcpudp_magic.
  pose proof (ntohs_range (u16 len)). pose proof (ntohs_range proto).
  destruct (csum_add_spec sum da) as (H1 & E1 & _); [done..|].
  destruct (csum_add_spec (csum_add sum da) sa) as (H2 & E2 & _); [done..|].
  destruct (csum_add_spec (csum_add (csum_add sum da) sa) (ntohs (u16 len))) as (H3 & E3 & _); [done|word_lia|].
  set (x3 := csum_add (csum_add (csum_add sum da) sa) (ntohs (u16 len))) in *.
  destruct (csum_add_spec x3 (ntohs proto)) as (H4 & E4 & _); [done|word_lia|].
  destruct (csum_fold_spec _ H4) as (H5 & E5 & _). split; [done|]. clear H1 H2 H3 H4 H5 H H0 Hs Hd Hm. ones.
Qed.

(** The header checksum that [ip_send_check] stores verifies. *)
Lemma ip_send_check_ok d : ip_wf d → 
  ip_sum_ok (ip_send_check d) ∧ length (ip_send_check d) = length d ∧ Forall is_u8 (ip_send_check d) ∧
  ∀ x, 0 <= x → outside 10 2 x → ld8 (ip_send_check d) x = ld8 d x.
Proof.
  intros Hip. destruct (h_range _ Hip) as [Hh Hl]. pose proof (iw_bytes _ Hip) as Hb.
  unfold ip_send_check. set (d0 := st16 10 0 d).
  assert (length d0 = length d) as L0 by apply st16_length.
  assert (Forall is_u8 d0) as B0 by (unfold d0; auto with words).
  assert (∀ c d', is_u16 c → 20 <= Z.of_nat (length d') → hlen (st16 10 c d') 0 = hlen d' 0) as Hlen.
  { intros c d' Hc Hd'. unfold hlen, iphdr_at. cbn [ihl]. rewrite ld8_st16_ne by lia. done. }
  assert (hlen d0 0 = hlen d 0) as Eh by (apply Hlen; word_lia || lia).
  fold (hlen d0 0). rewrite Eh. change (take (Z.to_nat (hlen d 0)) d0) with (seg d0 0 (hlen d 0)).
  destruct (csum_partial_spec (seg d0 0 (hlen d 0)) 0) as (U & E & _); [auto with words|word_lia|].
  destruct (csum_fold_spec _ U) as (V & F & _). set (c := csum_fold _) in *. split_and!.
  - assert (ip_wf (st16 10 c d0)) as Hwf'.
    { destruct Hip as [_ Hi _]. assert (hlen (st16 10 c d0) 0 = hlen d 0) by (rewrite Hlen; done || lia).
      split; [auto with words|unfold hlen in *; lia|rewrite st16_length; lia]. }
    pose proof (ip_header_pos _ Hwf') as Hpos. unfold ip_sum_ok. rewrite Hlen, Eh in * by (done || lia).
    apply fold_seg_ok; [auto with words|done|].
    rewrite wsum_seg_st16 by first [done | lia]. unfold d0 at 2. rewrite ld16_st16 by (word_lia || lia).
    clear - E F. ones.
  - by rewrite st16_length.
  - auto with words.
  - intros x Hx Hx'. unfold outside in *. rewrite ld8_st16_ne by lia. apply ld8_st16_ne; lia.
Qed.

(** The transport checksum of [st16]: [c] is computed with the field [o] at zero. *)
Lemma tcp_fill_ok d c : ip_wf d → protocol (iphdr_at d 0) = IPPROTO_TCP → hlen d 0 + 20 <= Z.of_nat (length d) →
  let h := hlen d 0 in
  let d0 := st16 (h + 16) 0 d in
  c = csum_tcpudp_magic (saddr (iphdr_at d0 0)) (daddr (iphdr_at d0 0)) (Z.of_nat (length d) - h) IPPROTO_TCP
        (csum_partial (seg d0 h (Z.of_nat (length d) - h)) 0) →
  l4_sum_ok (st16 (h + 16) c d0).
Proof.
  intros Hip Hp Hl h d0 Hc. destruct (h_range _ Hip) as [Hh _]. fold h in Hh, Hl. pose proof (iw_bytes _ Hip) as Hb.
  assert (length d0 = length d) as L0 by apply st16_length.
  assert (Forall is_u8 d0) as B0 by (unfold d0; auto with words).
  assert (∀ v d', length d' = length d → same_before h d' (st16 (h + 16) v d')) as Hs
    by (intros; apply same_before_st16; lia).
  assert (iphdr_at d0 0 = iphdr_at d 0) as E0 by (apply (same_before_iph _ _ _ _ (Hs 0 d eq_refl)); lia).
  assert (iphdr_at (st16 (h + 16) c d0) 0 = iphdr_at d 0) as E1
    by (rewrite (same_before_iph _ _ _ _ (Hs c d0 L0)) by lia; done).
  destruct (csum_partial_spec (seg d0 h (Z.of_nat (length d) - h)) 0) as (U0 & S0 & _); [auto with words|word_lia|].
  rewrite E0 in Hc. destruct (tcpudp_magic_spec (saddr (iphdr_at d 0)) (daddr (iphdr_at d 0))
    (Z.of_nat (length d) - h) IPPROTO_TCP _ ltac:(unfold iphdr_at; cbn [saddr]; auto with words)
    ltac:(unfold iphdr_at; cbn [daddr]; auto with words) U0) as [V F]. rewrite <- Hc in V, F.
  unfold l4_sum_ok, l4_sum, l4_len, hlen. rewrite E1, st16_length, L0, Hp. fold (hlen d 0). fold h.
  change (IPPROTO_TCP =? IPPROTO_TCP) with true. cbn [orb]. cbv iota.
  destruct (csum_partial_spec (seg (st16 (h + 16) c d0) h (Z.of_nat (length d) - h)) 0) as (U1 & S1 & _);
    [auto with words|word_lia|].
  apply tcpudp_magic_ok; [unfold iphdr_at; cbn [saddr daddr]; auto with words..|done|done|].
  rewrite wsum_seg_st16 in S1 by first [done | lia | by apply even_sub].
  unfold d0 in S1 at 3. rewrite ld16_st16 in S1 by (word_lia || lia).
  clear - S0 S1 F. ones.
Qed.

(** ** Changing the payload *)
Lemma drop_st16 n o v d : (Z.to_nat (o + 1) < n)%nat → 0 <= o → drop n (st16 o v d) = drop n d.
Proof. intros. unfold st16, st8. by rewrite !drop_insert_lt by lia. Qed.

Lemma ld8_take_app d l n x : 0 <= x → (Z.to_nat x < n)%nat → (n <= length d)%nat → ld8 (take n d ++ l) x = ld8 d x.
Proof. intros. unfold ld8. rewrite lookup_app_l by (rewrite length_take; lia). by rewrite lookup_take_lt by lia. Qed.

Lemma drop_replaced (d rep : list Z) p pos e : (p <= pos)%nat → (pos <= length d)%nat →
  drop p (take pos d ++ rep ++ drop e d) = take (pos - p) (drop p d) ++ rep ++ drop e d.
Proof.
  intros. rewrite drop_app_le by (rewrite length_take; lia). f_equal.
  rewrite take_drop_commute. f_equal. f_equal. lia.
Qed.

(** The places of the header fields that change. *)
Definition header_kept (h : Z) (d d' : list Z) (p : Z) : Prop :=
  ∀ x, 0 <= x < p → outside 2 2 x → outside 10 2 x → outside (h + 16) 2 x → ld8 d' x = ld8 d x.

Lemma mangle_tcp_data d p mo ml rep : tcp_wf d → Forall is_u8 rep → 
  let h := hlen d 0 in
  p = h + th_doff (tcphdr_at d h) * 4 → 0 <= mo → 0 <= ml → p + mo + ml <= Z.of_nat (length d) →
  let new := Z.of_nat (length d) - ml + Z.of_nat (length rep) in
  new <= 65535 →
  ∃ d1, mangle_contents d p mo ml rep = Some d1 ∧ Z.of_nat (length d1) = new ∧
    tcp_wf d1 ∧ hlen d1 0 = h ∧ ip_sum_ok d1 ∧ ntohs (ld16 d1 2) = new ∧ header_kept h d d1 p ∧
    drop (Z.to_nat p) d1 = take (Z.to_nat mo) (drop (Z.to_nat p) d) ++ rep
                           ++ drop (Z.to_nat (mo + ml)) (drop (Z.to_nat p) d).
Proof.
  intros Hwf Hrep h Hp Hmo Hml Hin new Hnew. pose proof Hwf as [Hip Hpr Hdo Hhd].
  destruct (h_range _ Hip) as [Hh _]. fold h in Hh, Hdo, Hhd. pose proof (iw_bytes _ Hip) as Hb.
  unfold mangle_contents. destruct (Z.ltb_spec (Z.of_nat (length d)) (p + mo + ml)); [lia|].
  set (d0 := take _ d ++ _).
  assert (Z.of_nat (length d0) = new) as L0
    by (unfold d0, new; rewrite !length_app, length_take, length_drop; lia).
  assert (Forall is_u8 d0) as B0
    by (unfold d0; rewrite !Forall_app; split_and!; [by apply Forall_take|done|by apply Forall_drop]).
  assert (∀ x, 0 <= x < p → ld8 d0 x = ld8 d x) as F0 by (intros; apply ld8_take_app; lia).
  rewrite L0. set (dt := st16 2 (htons new) d0).
  assert (length dt = length d0) as Lt by apply st16_length.
  assert (∀ x, 0 <= x → outside 2 2 x → ld8 dt x = ld8 d0 x) as Ft
    by (unfold outside; intros; apply ld8_st16_ne; lia).
  assert (hlen dt 0 = h) as Eht
    by (unfold h, hlen, iphdr_at; cbn [ihl]; by rewrite Ft, F0 by (unfold outside; lia)).
  assert (ip_wf dt) as Hipt.
  { split; [unfold dt; auto with words| |lia]. unfold hlen in Eht, h. pose proof (iw_ihl _ Hip). lia. }
  destruct (ip_send_check_ok dt Hipt) as (Hok & L1 & B1 & F1). set (d1 := ip_send_check dt) in *.
  assert (header_kept h d d1 p) as HK by (intros x Hx H2 H10 Hc; rewrite F1, Ft, F0; done || lia).
  assert (hlen d1 0 = h) as Eh1
    by (unfold h, hlen, iphdr_at; cbn [ihl]; by rewrite HK by (unfold outside; lia)).
  exists d1. split_and!; try done; [lia|split| |].
  - split; [done| |lia]. unfold hlen in Eh1, h. pose proof (iw_ihl _ Hip). lia.
  - rewrite <- Hpr. unfold iphdr_at. cbn [protocol]. by rewrite HK by (unfold outside; lia).
  - rewrite Eh1. unfold tcphdr_at. cbn [th_doff]. rewrite HK by (unfold outside; lia). exact Hdo.
  - rewrite Eh1. unfold tcphdr_at. cbn [th_doff]. rewrite HK by (unfold outside; lia).
    change (Z.shiftr (ld8 d (h + 12)) 4) with (th_doff (tcphdr_at d h)). lia.
  - assert (ld16 d1 2 = htons new) as ->; [|apply ntohs_htons; word_lia].
    unfold ld16. rewrite !F1 by (unfold outside; lia). apply ld16_st16; [lia..|apply swab16_range].
  - unfold d1, ip_send_check, dt. rewrite !drop_st16 by lia. unfold d0.
    rewrite drop_replaced by lia. rewrite drop_drop. do 2 f_equal; [lia|]. do 2 f_equal. lia.
Qed.

Lemma adjust_sequence_way seq diff ctinfo ct d :
  nat_seq (adjust_tcp_sequence seq diff ctinfo ct) d =
  let w := nat_seq ct d in
  if bool_decide (d = CTINFO2DIR ctinfo) && ((offset_before w =? offset_after w) || before (correction_pos w) seq)
  then mk_nseq seq (offset_after w) (s32 (offset_after w + diff)) else w.
Proof.
  unfold adjust_tcp_sequence. destruct (CTINFO2DIR ctinfo), d; case_bool_decide; try done;
    by destruct (_ || _).
Qed.

(** A recorded correction shifts the numbers behind [seq] by the change. *)
Lemma recorded_shift seq a diff x : new_seq (mk_nseq seq a (s32 (a + diff))) x =
  u32 (x + a + if after x seq then diff else 0).
Proof. unfold new_seq. cbn [correction_pos offset_before offset_after]. destruct (after x seq); word_lia. Qed.

(** What a change of [diff] bytes in the segment [seq] leaves in the conntrack. *)
Lemma mangled_ct_spec skb' seq diff ctinfo ct :
  let dir := CTINFO2DIR ctinfo in
  let w := nat_seq ct dir in
  let ct' := if negb (diff =? 0)
             then ip_conntrack_tcp_update skb'
                    (adjust_tcp_sequence seq diff ctinfo (set_bit IPS_SEQ_ADJUST_BIT ct)) dir
             else ct in
  test_bit IPS_SEQ_ADJUST_BIT ct' = test_bit IPS_SEQ_ADJUST_BIT ct || negb (diff =? 0) ∧
  nat_seq ct' (dir_neg dir) = nat_seq ct (dir_neg dir) ∧
  if negb (diff =? 0) && ((offset_before w =? offset_after w) || before (correction_pos w) seq)
  then ∀ x, new_seq (nat_seq ct' dir) x = u32 (x + offset_after w + if after x seq then diff else 0)
  else nat_seq ct' dir = w.
Proof.
  intros dir w ct'.
  assert (∀ d, nat_seq ct' d = if negb (diff =? 0) then nat_seq (adjust_tcp_sequence seq diff ctinfo ct) d
                               else nat_seq ct d) as Hseq.
  { intros dd. unfold ct'. destruct (negb _); [|done]. rewrite tcp_update_nat_seq, !adjust_sequence_way.
    by destruct dd. }
  split_and!.
  - unfold ct'. destruct (diff =? 0); cbn [negb]; [by rewrite orb_false_r|].
    rewrite orb_true_r. unfold test_bit, adjust_tcp_sequence.
    destruct (_ || _); [destruct (CTINFO2DIR ctinfo)|]; apply Z.setbit_eq; done.
  - rewrite Hseq. destruct (negb _); [|done]. rewrite adjust_sequence_way.
    fold dir. rewrite bool_decide_eq_false_2; [done|]. by destruct dir.
  - rewrite Hseq. destruct (negb (diff =? 0)); cbn [andb]; [|done]. rewrite adjust_sequence_way.
    fold dir. rewrite bool_decide_eq_true_2 by done. fold w. cbn [andb].
    destruct (_ || _); [|done]. intros x. apply recorded_shift.
Qed.

(** The effect of [ip_nat_mangle_tcp_packet], also for the helpers that use it. *)
Lemma mangle_tcp_full tailroom skb ct ctinfo mo ml rep :
  let d := data skb in
  let h := hlen d 0 in
  let p := h + th_doff (tcphdr_at d h) * 4 in
  let new := skb_len skb - ml + Z.of_nat (length rep) in
  let diff := Z.of_nat (length rep) - ml in
  let dir := CTINFO2DIR ctinfo in
  let w := nat_seq ct dir in
  tcp_wf d → Forall is_u8 rep → 0 <= mo → 0 <= ml → p + mo + ml <= skb_len skb → new <= 65535 →
  mangle_room true tailroom skb ml (Z.of_nat (length rep)) = true →
  ∃ skb' ct',
    ip_nat_mangle_tcp_packet true tailroom skb ct ctinfo mo ml rep = Some (true, skb', ct') ∧
    let payload := drop (Z.to_nat p) d in
    drop (Z.to_nat p) (data skb') = take (Z.to_nat mo) payload ++ rep ++ drop (Z.to_nat (mo + ml)) payload ∧
    ntohs (ld16 (data skb') 2) = skb_len skb' ∧ skb_len skb' = new ∧
    ip_sum_ok (data skb') ∧ l4_sum_ok (data skb') ∧ header_kept h d (data skb') p ∧
    test_bit IPS_SEQ_ADJUST_BIT ct' = test_bit IPS_SEQ_ADJUST_BIT ct || negb (diff =? 0) ∧
    nat_seq ct' (dir_neg dir) = nat_seq ct (dir_neg dir) ∧
    if negb (diff =? 0) && ((offset_before w =? offset_after w) || before (correction_pos w) (seq_of skb))
    then ∀ x, new_seq (nat_seq ct' dir) x = u32 (x + offset_after w + if after x (seq_of skb) then diff else 0)
    else nat_seq ct' dir = w.
Proof.
  intros d h p new diff dir w Hwf Hrep Hmo Hml Hin Hnew Hroom. unfold skb_len in *. fold d in Hin, new.
  destruct (mangle_tcp_data d p mo ml rep Hwf Hrep eq_refl Hmo Hml Hin Hnew)
    as (d1 & E1 & L1 & Hwf1 & Eh1 & Hip1 & Htot & HK & Hpay). fold h in Eh1, HK. fold new in L1, Htot.
  pose proof Hwf1 as [Hip' Hpr1 _ Hhd1]. pose proof Hwf as [Hip _ Hdo _]. fold h in Hdo.
  destruct (h_range _ Hip) as [Hh _]. fold h in Hh. destruct (h_range _ Hip') as [_ Hl1]. rewrite Eh1 in Hl1.
  assert (h + 20 <= Z.of_nat (length d1)) as Hl20 by (rewrite Eh1 in Hhd1; pose proof (tw_doff _ Hwf1) as Hd1; rewrite Eh1 in Hd1; lia).
  unfold ip_nat_mangle_tcp_packet. rewrite Hroom. unfold skb_make_writable, skb_len, skb_iph. rewrite Z.ltb_irrefl.
  cbn [negb]. fold d. fold (hlen d 0). fold h. fold p. rewrite E1. cbn [mbind option_bind].
  set (d2 := st16 (h + 16) 0 d1). set (c := csum_tcpudp_magic _ _ _ _ _). set (d3 := st16 (h + 16) c d2).
  assert (l4_sum_ok d3) as Hl4.
  { unfold d3, d2. rewrite <- Eh1. apply tcp_fill_ok; [done|done|by rewrite Eh1|]. rewrite Eh1. reflexivity. }
  assert (∀ x, 0 <= x → outside (h + 16) 2 x → ld8 d3 x = ld8 d1 x) as F3.
  { unfold outside. intros x Hx Ho. unfold d3, d2. rewrite ld8_st16_ne by (rewrite ?st16_length; lia).
    apply ld8_st16_ne; lia. }
  assert (length d3 = length d1) as L3 by (unfold d3, d2; by rewrite !st16_length).
  assert (ntohl (th_seq (tcphdr_at d3 h)) = seq_of skb) as Eseq.
  { unfold tcphdr_at, seq_of. cbn [th_seq]. fold d. fold h. f_equal. apply ld32_ext. intros x Hx.
    rewrite F3 by (unfold outside; lia). apply HK; unfold outside; lia. }
  rewrite Eseq. fold diff.
  assert ((Z.of_nat (length rep) =? ml) = (diff =? 0)) as -> by (unfold diff; lia).
  destruct (mangled_ct_spec (skb <| data := d3 |>) (seq_of skb) diff ctinfo ct) as (C1 & C2 & C3).
  do 2 eexists. split; [reflexivity|]. cbn [data update upd_data].
  split_and!.
  - rewrite <- Hpay. unfold d3, d2. by rewrite !drop_st16 by lia.
  - rewrite L3, L1. rewrite <- Htot. f_equal. unfold ld16. by rewrite !F3 by (unfold outside; lia).
  - lia.
  - assert (seg d3 0 h = seg d1 0 h) as Es.
    { unfold d3, d2. by rewrite !seg_st16_out by lia. }
    assert (hlen d3 0 = h) as Eh3
      by (rewrite <- Eh1; unfold hlen, iphdr_at; cbn [ihl]; by rewrite F3 by (unfold outside; lia)).
    unfold ip_sum_ok in *. by rewrite Eh3, Es, <- Eh1.
  - done.
  - intros x Hx H2 H10 Hc. rewrite F3 by (done || lia). by apply HK.
  - exact C1.
  - exact C2.
  - exact C3.
Qed.

(** C36: Rewriting the payload of a TCP segment.  If the bytes to replace are in the
    payload and there is room, the payload is the old one with those bytes replaced by
    the given ones, the length in the IP header is right, both checksums verify, and
    the rest of the headers is untouched.  A change of length is recorded: of the
    connection's later segments in this direction exactly those behind this one are
    shifted by it, unless an earlier change of the window is still in force (when this
    segment is a retransmission); the other direction keeps its correction. *)
Theorem mangle_tcp_spec tailroom skb ct ctinfo mo ml rep :
  let d := data skb in
  let h := hlen d 0 in
  let p := h + th_doff (tcphdr_at d h) * 4 in
  let new := skb_len skb - ml + Z.of_nat (length rep) in
  let diff := Z.of_nat (length rep) - ml in
  let dir := CTINFO2DIR ctinfo in
  let w := nat_seq ct dir in
  tcp_wf d → Forall is_u8 rep → 0 <= mo → 0 <= ml → p + mo + ml <= skb_len skb → new <= 65535 →
  mangle_room true tailroom skb ml (Z.of_nat (length rep)) = true →
  ∃ skb' ct',
    ip_nat_mangle_tcp_packet true tailroom skb ct ctinfo mo ml rep = Some (true, skb', ct') ∧
    let payload := drop (Z.to_nat p) d in
    drop (Z.to_nat p) (data skb') = take (Z.to_nat mo) payload ++ rep ++ drop (Z.to_nat (mo + ml)) payload ∧
    ntohs (ld16 (data skb') 2) = skb_len skb' ∧ skb_len skb' = new ∧
    ip_sum_ok (data skb') ∧ l4_sum_ok (data skb') ∧ header_kept h d (data skb') p ∧
    test_bit IPS_SEQ_ADJUST_BIT ct' = test_bit IPS_SEQ_ADJUST_BIT ct || negb (diff =? 0) ∧
    nat_seq ct' (dir_neg dir) = nat_seq ct (dir_neg dir) ∧
    if negb (diff =? 0) && ((offset_before w =? offset_after w) || before (correction_pos w) (seq_of skb))
    then ∀ x, new_seq (nat_seq ct' dir) x = u32 (x + offset_after w + if after x (seq_of skb) then diff else 0)
    else nat_seq ct' dir = w.
Proof. apply mangle_tcp_full. Qed.

(** ** Witnesses and a finding *)
Definition demo_ct (w0 w1 : ip_nat_seq) : ip_conntrack :=
  (blank_ct (mk_tuple 1 2 3 4 6 IP_CT_DIR_ORIGINAL) (mk_tuple 3 4 1 2 6 IP_CT_DIR_REPLY))
    <| nat_seq0 := w0 |> <| nat_seq1 := w1 |>.
Definition no_shift : ip_nat_seq := mk_nseq 0 0 0.

(** An FTP client's command, and the address that NAT puts in its place. *)
Definition port_cmd : sk_buff :=
  tcp_pkt 3232236034 134744072 1025 21 1000 5000 24 4096 [] [49; 48; 44; 48; 44; 48; 44; 50; 13; 10].
Definition port_new : list Z := [49; 57; 50; 44; 49; 54; 56; 44; 49; 44; 51; 48].

#[local] Ltac concrete := first [apply bytes_ok; vm_compute; reflexivity | vm_compute; congruence].
#[local] Ltac concrete_wf := repeat split; concrete.

Lemma mangle_tcp_spec_witness : ∃ skb' ct',
  ip_nat_mangle_tcp_packet true 100 port_cmd (demo_ct no_shift no_shift) 0 0 8 port_new = Some (true, skb', ct') ∧
  ip_sum_ok (data skb') ∧ l4_sum_ok (data skb') ∧
  drop 40 (data skb') = port_new ++ [13; 10] ∧ new_seq (nat_seq0 ct') 1010 = 1014.
Proof.
  destruct (mangle_tcp_spec 100 port_cmd (demo_ct no_shift no_shift) 0 0 8 port_new)
    as (skb' & ct' & E & Hpay & _ & _ & Hip & Hl4 & _ & _ & _ & Hseq);
    [concrete_wf|concrete|concrete|concrete|concrete|concrete|concrete|].
  exists skb', ct'. split; [exact E|]. split; [exact Hip|]. split; [exact Hl4|]. split; [exact Hpay|exact (Hseq 1010)].
Defined.

(** A segment behind the change, and one that acknowledges it with a SACK block. *)
Definition later : sk_buff :=
  tcp_pkt 3232236034 134744072 1025 21 1010 5000 24 4096 [] [1; 2; 3].
Definition acking (opts : list Z) : sk_buff :=
  tcp_pkt 134744072 3232236034 21 1025 5000 1014 16 4096 opts [].
Definition sack_opt : list Z := [5; 10] ++ be32 1017 ++ be32 1020.
Definition shifted_ct : ip_conntrack := demo_ct (mk_nseq 1000 0 4) no_shift.

Lemma seq_adjust_spec_witness : ∃ skb' ct',
  ip_nat_seq_adjust true (acking ([1; 1] ++ sack_opt)) shifted_ct IP_CT_IS_REPLY = Some (true, skb', ct') ∧
  ack_of skb' = 1010 ∧ ntohl (ld32 (data skb') 44) = 1013 ∧
  (l4_sum_ok (data skb') ↔ l4_sum_ok (data (acking ([1; 1] ++ sack_opt)))).
Proof.
  destruct (seq_adjust_spec (acking ([1; 1] ++ sack_opt)) shifted_ct IP_CT_IS_REPLY)
    as (r & skb' & ct' & E & H); [concrete_wf|].
  destruct H as (-> & _ & _ & Hack & Hblocks & Hkeep & Hsum & _).
  exists skb', ct'. split; [exact E|]. split; [|split].
  - rewrite <- (eq_refl : new_ack (mk_nseq 1000 0 4) 1014 = 1010).
    unfold ack_of. replace (hlen (data skb') 0) with 20; [exact Hack|].
    unfold hlen, iphdr_at. cbn [ihl]. rewrite Hkeep; [reflexivity|lia|left; vm_compute; reflexivity..|].
    intros a n [[= -> ->]|[]%elem_of_nil]%elem_of_cons. left. vm_compute. reflexivity.
  - exact (Hblocks 44 1%nat 0 ltac:(left) ltac:(lia)).
  - apply Hsum. intros a n [[= -> ->]|[]%elem_of_nil]%elem_of_cons. reflexivity.
Defined.

Definition adjusted (skb : sk_buff) (ct : ip_conntrack) (ctinfo : Z) : sk_buff * ip_conntrack :=
  match ip_nat_seq_adjust true skb ct ctinfo with Some (_, skb', ct') => (skb', ct') | None => (skb, ct) end.
Definition later' := adjusted later shifted_ct 0.
Definition acking' := adjusted (acking []) later'.2 IP_CT_IS_REPLY.

Lemma seq_ack_roundtrip_witness :
  ip_nat_seq_adjust true later shifted_ct 0 = Some (true, later'.1, later'.2) ∧
  ip_nat_seq_adjust true (acking []) later'.2 IP_CT_IS_REPLY = Some (true, acking'.1, acking'.2) ∧
  seq_of later'.1 = 1014 ∧ ack_of acking'.1 = seq_of later.
Proof.
  assert (ip_nat_seq_adjust true later shifted_ct 0 = Some (true, later'.1, later'.2)) as EA
    by (vm_compute; reflexivity).
  assert (ip_nat_seq_adjust true (acking []) later'.2 IP_CT_IS_REPLY = Some (true, acking'.1, acking'.2)) as EB
    by (vm_compute; reflexivity).
  split; [exact EA|]. split; [exact EB|]. split; [vm_compute; reflexivity|].
  apply (seq_ack_roundtrip later (acking []) shifted_ct 0 IP_CT_IS_REPLY later'.1 acking'.1 later'.2 acking'.2);
    [concrete_wf|concrete_wf|reflexivity|exact EA|exact EB|vm_compute; reflexivity|vm_compute; reflexivity].
Defined.

(** A SACK option at an odd place: the incremental update adds the words of the block as
    if they were aligned, and a right checksum becomes wrong. *)
Definition with_check (c : Z) (skb : sk_buff) : sk_buff := skb <| data := st16 36 c (data skb) |>.
Lemma odd_sack_breaks_checksum :
  let skb := with_check 27777 (acking ([1] ++ sack_opt ++ [1])) in
  tcp_wf (data skb) ∧ l4_sum_ok (data skb) ∧
  match ip_nat_seq_adjust true skb shifted_ct IP_CT_IS_REPLY with
  | Some (true, skb', _) => ~ l4_sum_ok (data skb')
  | _ => False
  end.
Proof. split; [concrete_wf|]. split; vm_compute; congruence. Qed.
