(* ===== verification/IpFrag.v ===== *)
(** * Reassembly of IP datagrams: [net/ipv4/ip_fragment.c]

    The fragments of a datagram are collected in a queue ([struct ipq]) until all bytes
    are there.  The state is the record [frag_state]: the allocated queues under the
    [positive] that stands for their pointer, the hash table, the list from the least to
    the most recently used queue, the counters, and the [rid] counters of the peers
    ([inetpeer.c]) by which lost fragments are noticed.

    Buffers are linear, so [pskb_pull] fails only when it asks for more than there is.
    At the end are the functions through which the tracker uses it. *)
From S2P Require Import Prelude Packet CtBase TcpTrack CtProtos Conntrack NatProto NatHelper.

(** ** Data *)

(** A queued fragment.  [fr_head] are the bytes from the network header to
    [skb->data], [data fr_skb] those from [skb->data] on; [fr_offset] is
    [FRAG_CB(skb)->offset]. *)
Record ipfrag := mk_frag {
  fr_head : list Z; fr_skb : sk_buff; fr_offset : Z; fr_truesize : Z }.

Definition fr_len (f : ipfrag) : Z := skb_len (fr_skb f).
Definition fr_end (f : ipfrag) : Z := fr_offset f + fr_len f.

Definition COMPLETE := 4.
Definition FIRST_IN := 2.
Definition LAST_IN := 1.

(** [q_peer] is the address of the peer. *)
Record ipq := mk_ipq {
  q_user : Z; q_saddr : Z; q_daddr : Z; q_id : Z; q_protocol : Z; q_last_in : Z;
  q_fragments : list ipfrag; q_len : Z; q_meat : Z; q_refcnt : Z; q_timer : timer;
  q_iif : Z; q_rid : Z; q_peer : option Z }.

Record frag_state := mk_fs {
  queues : gmap positive ipq;
  ipq_hash : gmap Z (list positive);
  ipq_lru_list : list positive;
  ip_frag_nqueues : Z;
  ip_frag_mem : Z;
  ipfrag_hash_rnd : Z;
  peers : gmap Z Z }.

#[export] Instance upd_q_last_in : Update q_last_in := λ v q,
  mk_ipq (q_user q) (q_saddr q) (q_daddr q) (q_id q) (q_protocol q) v (q_fragments q)
    (q_len q) (q_meat q) (q_refcnt q) (q_timer q) (q_iif q) (q_rid q) (q_peer q).
#[export] Instance upd_q_fragments : Update q_fragments := λ v q,
  mk_ipq (q_user q) (q_saddr q) (q_daddr q) (q_id q) (q_protocol q) (q_last_in q) v
    (q_len q) (q_meat q) (q_refcnt q) (q_timer q) (q_iif q) (q_rid q) (q_peer q).
#[export] Instance upd_q_len : Update q_len := λ v q,
  mk_ipq (q_user q) (q_saddr q) (q_daddr q) (q_id q) (q_protocol q) (q_last_in q)
    (q_fragments q) v (q_meat q) (q_refcnt q) (q_timer q) (q_iif q) (q_rid q) (q_peer q).
#[export] Instance upd_q_meat : Update q_meat := λ v q,
  mk_ipq (q_user q) (q_saddr q) (q_daddr q) (q_id q) (q_protocol q) (q_last_in q)
    (q_fragments q) (q_len q) v (q_refcnt q) (q_timer q) (q_iif q) (q_rid q) (q_peer q).
#[export] Instance upd_q_refcnt : Update q_refcnt := λ v q,
  mk_ipq (q_user q) (q_saddr q) (q_daddr q) (q_id q) (q_protocol q) (q_last_in q)
    (q_fragments q) (q_len q) (q_meat q) v (q_timer q) (q_iif q) (q_rid q) (q_peer q).
#[export] Instance upd_q_timer : Update q_timer := λ v q,
  mk_ipq (q_user q) (q_saddr q) (q_daddr q) (q_id q) (q_protocol q) (q_last_in q)
    (q_fragments q) (q_len q) (q_meat q) (q_refcnt q) v (q_iif q) (q_rid q) (q_peer q).
#[export] Instance upd_q_iif : Update q_iif := λ v q,
  mk_ipq (q_user q) (q_saddr q) (q_daddr q) (q_id q) (q_protocol q) (q_last_in q)
    (q_fragments q) (q_len q) (q_meat q) (q_refcnt q) (q_timer q) v (q_rid q) (q_peer q).
#[export] Instance upd_q_rid : Update q_rid := λ v q,
  mk_ipq (q_user q) (q_saddr q) (q_daddr q) (q_id q) (q_protocol q) (q_last_in q)
    (q_fragments q) (q_len q) (q_meat q) (q_refcnt q) (q_timer q) (q_iif q) v (q_peer q).
#[export] Instance upd_queues : Update queues := λ v s,
  mk_fs v (ipq_hash s) (ipq_lru_list s) (ip_frag_nqueues s) (ip_frag_mem s)
    (ipfrag_hash_rnd s) (peers s).
#[export] Instance upd_ipq_hash : Update ipq_hash := λ v s,
  mk_fs (queues s) v (ipq_lru_list s) (ip_frag_nqueues s) (ip_frag_mem s)
    (ipfrag_hash_rnd s) (peers s).
#[export] Instance upd_ipq_lru_list : Update ipq_lru_list := λ v s,
  mk_fs (queues s) (ipq_hash s) v (ip_frag_nqueues s) (ip_frag_mem s) (ipfrag_hash_rnd s)
    (peers s).
#[export] Instance upd_ip_frag_nqueues : Update ip_frag_nqueues := λ v s,
  mk_fs (queues s) (ipq_hash s) (ipq_lru_list s) v (ip_frag_mem s) (ipfrag_hash_rnd s)
    (peers s).
#[export] Instance upd_ip_frag_mem : Update ip_frag_mem := λ v s,
  mk_fs (queues s) (ipq_hash s) (ipq_lru_list s) (ip_frag_nqueues s) v (ipfrag_hash_rnd s)
    (peers s).
#[export] Instance upd_ipfrag_hash_rnd : Update ipfrag_hash_rnd := λ v s,
  mk_fs (queues s) (ipq_hash s) (ipq_lru_list s) (ip_frag_nqueues s) (ip_frag_mem s) v
    (peers s).
#[export] Instance upd_peers : Update peers := λ v s,
  mk_fs (queues s) (ipq_hash s) (ipq_lru_list s) (ip_frag_nqueues s) (ip_frag_mem s)
    (ipfrag_hash_rnd s) v.

(** The sysctls, the time, and what the allocator and the other parts of the kernel
    answer: memory for a queue and for a peer, for a private copy of a header, whether
    a device still exists; [e_sizeof_ipq] is [sizeof(struct ipq)] and [e_rid] what
    [kmalloc] leaves in the field [rid]. *)
Record frag_env := mk_fenv {
  e_jiffies : Z; sysctl_ipfrag_high_thresh : Z; sysctl_ipfrag_low_thresh : Z;
  sysctl_ipfrag_max_dist : Z; sysctl_ipfrag_time : Z; e_sizeof_ipq : Z;
  e_queue_ok : bool; e_peer_ok : bool; e_expand_ok : bool; e_dev : Z → bool; e_rid : Z }.

Definition upd_queue (p : positive) (f : ipq → ipq) (s : frag_state) : frag_state :=
  s <| queues := alter f p (queues s) |>.

(** ** The hash table *)
Definition IPQ_HASHSZ := 64.

Definition ip_id (d : list Z) : Z := ld16 d 4.

Definition ipqhashfn (rnd id sa da prot : Z) : Z :=
  Z.land (jhash_3words (Z.lor (u32 (Z.shiftl id 16)) prot) sa da rnd) (IPQ_HASHSZ - 1).

Definition q_hash (rnd : Z) (q : ipq) : Z :=
  ipqhashfn rnd (q_id q) (q_saddr q) (q_daddr q) (q_protocol q).

Definition bucket (s : frag_state) (h : Z) : list positive := default [] (ipq_hash s !! h).

Definition hlist_del (p : positive) (s : frag_state) : frag_state :=
  s <| ipq_hash := filter (λ q, q ≠ p) <$> ipq_hash s |>.
Definition hlist_add_head (p : positive) (h : Z) (s : frag_state) : frag_state :=
  s <| ipq_hash := <[h := p :: bucket s h]> (ipq_hash s) |>.

Definition __ipq_unlink (p : positive) (s : frag_state) : frag_state :=
  let s := hlist_del p s in
  let s := s <| ipq_lru_list := filter (λ q, q ≠ p) (ipq_lru_list s) |> in
  s <| ip_frag_nqueues := ip_frag_nqueues s - 1 |>.

(** One bucket of [ipfrag_secret_rebuild]: the queues whose new hash value differs move. *)
Definition rebuild_bucket (i : Z) (s : frag_state) : frag_state :=
  fold_left (λ s p,
    match queues s !! p with
    | Some q => let hval := q_hash (ipfrag_hash_rnd s) q in
                if negb (hval =? i) then hlist_add_head p hval (hlist_del p s) else s
    | None => s
    end) (bucket s i) s.

Definition ipfrag_secret_rebuild (rnd : Z) (s : frag_state) : frag_state :=
  fold_left (λ s i, rebuild_bucket (Z.of_nat i) s) (seq 0 (Z.to_nat IPQ_HASHSZ))
    (s <| ipfrag_hash_rnd := rnd |>).

(** ** Destruction *)
Definition sum_truesize (l : list ipfrag) : Z := fold_right Z.add 0 (fr_truesize <$> l).

(** The second result is what [*work] goes down by. *)
Definition ip_frag_destroy (env : frag_env) (p : positive) (s : frag_state) : frag_state * Z :=
  match queues s !! p with
  | None => (s, 0)
  | Some q =>
      let freed := sum_truesize (q_fragments q) + e_sizeof_ipq env in
      (s <| ip_frag_mem := ip_frag_mem s - freed |> <| queues := delete p (queues s) |>, freed)
  end.

Definition ipq_put (env : frag_env) (p : positive) (s : frag_state) : frag_state * Z :=
  let s := upd_queue p (λ q, q <| q_refcnt := q_refcnt q - 1 |>) s in
  match queues s !! p with
  | Some q => if q_refcnt q =? 0 then ip_frag_destroy env p s else (s, 0)
  | None => (s, 0)
  end.

Definition ipq_kill (p : positive) (s : frag_state) : frag_state :=
  let s := upd_queue p (λ q,
    if pending (q_timer q)
    then q <| q_timer := (q_timer q) <| pending := false |> |> <| q_refcnt := q_refcnt q - 1 |>
    else q) s in
  match queues s !! p with
  | Some q =>
      if flag (q_last_in q) COMPLETE then s
      else upd_queue p (λ q, q <| q_refcnt := q_refcnt q - 1 |>
                               <| q_last_in := Z.lor (q_last_in q) COMPLETE |>)
             (__ipq_unlink p s)
  | None => s
  end.

(** [None] when [fuel] queues did not free enough. *)
Fixpoint ip_evictor_loop (fuel : nat) (env : frag_env) (work : Z) (s : frag_state)
    : option frag_state :=
  if work <=? 0 then Some s
  else
    match fuel with
    | O => None
    | S fuel =>
        match ipq_lru_list s with
        | [] => Some s
        | p :: _ =>
            let s := upd_queue p (λ q, q <| q_refcnt := q_refcnt q + 1 |>) s in
            let s := match queues s !! p with
                     | Some q => if flag (q_last_in q) COMPLETE then s else ipq_kill p s
                     | None => s
                     end in
            let '(s, freed) := ipq_put env p s in
            ip_evictor_loop fuel env (work - freed) s
        end
    end.

(** Every turn takes a queue off the list, so its length bounds their number. *)
Definition ip_evictor (env : frag_env) (s : frag_state) : option frag_state :=
  ip_evictor_loop (S (length (ipq_lru_list s))) env
    (ip_frag_mem s - sysctl_ipfrag_low_thresh env) s.

(** The timer function; it runs with the timer off.  The first result is the packet
    about which [icmp_send] reports the timeout. *)
Definition ip_expire (env : frag_env) (p : positive) (s : frag_state)
    : option ipfrag * frag_state :=
  match queues s !! p with
  | None => (None, s)
  | Some q =>
      if flag (q_last_in q) COMPLETE then (None, (ipq_put env p s).1)
      else
        let s := ipq_kill p s in
        let icmp := match q_fragments q with
                    | head :: _ => if flag (q_last_in q) FIRST_IN && e_dev env (q_iif q)
                                   then Some head else None
                    | [] => None
                    end in
        (icmp, (ipq_put env p s).1)
  end.

(** ** Creation and lookup *)

(** [mod_timer] on a queue: whether the timer was pending. *)
Definition q_mod_timer (expires : Z) (q : ipq) : bool * ipq :=
  (pending (q_timer q), q <| q_timer := mk_timer true expires |>).

Definition ip_frag_intern (env : frag_env) (hash : Z) (p : positive) (s : frag_state) : frag_state :=
  let s := upd_queue p (λ q,
    let (was, q) := q_mod_timer (u32 (e_jiffies env + sysctl_ipfrag_time env)) q in
    let q := if was then q else q <| q_refcnt := q_refcnt q + 1 |> in
    q <| q_refcnt := q_refcnt q + 1 |>) s in
  let s := hlist_add_head p hash s in
  s <| ipq_lru_list := ipq_lru_list s ++ [p] |> <| ip_frag_nqueues := ip_frag_nqueues s + 1 |>.

(** [inet_getpeer(saddr, 1)] *)
Definition inet_getpeer (env : frag_env) (addr : Z) (s : frag_state) : option Z * frag_state :=
  match peers s !! addr with
  | Some _ => (Some addr, s)
  | None => if e_peer_ok env then (Some addr, s <| peers := <[addr := 0]> (peers s) |>)
            else (None, s)
  end.

Definition ip_frag_create (env : frag_env) (hash : Z) (d : list Z) (user : Z) (s : frag_state)
    : option positive * frag_state :=
  if negb (e_queue_ok env) then (None, s)
  else
    let s := s <| ip_frag_mem := ip_frag_mem s + e_sizeof_ipq env |> in
    let p := fresh (dom (queues s)) in
    let iph := iphdr_at d 0 in
    let '(peer, s) := if negb (sysctl_ipfrag_max_dist env =? 0)
                      then inet_getpeer env (saddr iph) s else (None, s) in
    let q := mk_ipq user (saddr iph) (daddr iph) (ip_id d) (protocol iph) 0 [] 0 0 1
               (mk_timer false 0) 0 (e_rid env) peer in
    (Some p, ip_frag_intern env hash p (s <| queues := <[p := q]> (queues s) |>)).

Definition ipq_matches (d : list Z) (user : Z) (q : ipq) : bool :=
  let iph := iphdr_at d 0 in
  (q_id q =? ip_id d) && (q_saddr q =? saddr iph) && (q_daddr q =? daddr iph)
  && (q_protocol q =? protocol iph) && (q_user q =? user).

Definition ip_find (env : frag_env) (d : list Z) (user : Z) (s : frag_state)
    : option positive * frag_state :=
  let iph := iphdr_at d 0 in
  let hash := ipqhashfn (ipfrag_hash_rnd s) (ip_id d) (saddr iph) (daddr iph) (protocol iph) in
  let hit p := match queues s !! p with Some q => ipq_matches d user q | None => false end in
  match list_find (λ p, Is_true (hit p)) (bucket s hash) with
  | Some (_, p) => (Some p, upd_queue p (λ q, q <| q_refcnt := q_refcnt q + 1 |>) s)
  | None => ip_frag_create env hash d user s
  end.

(** ** Queueing a fragment *)
Definition ip_frag_too_far (env : frag_env) (p : positive) (s : frag_state) : bool * frag_state :=
  match queues s !! p with
  | None => (false, s)
  | Some q =>
      match q_peer q with
      | None => (false, s)
      | Some a =>
          if sysctl_ipfrag_max_dist env =? 0 then (false, s)
          else
            let start := q_rid q in
            let end_ := u32 (default 0 (peers s !! a) + 1) in
            let s := s <| peers := <[a := end_]> (peers s) |> in
            let s := upd_queue p (λ q, q <| q_rid := end_ |>) s in
            (bool_decide (q_fragments q ≠ []) && (sysctl_ipfrag_max_dist env <? u32 (end_ - start)), s)
      end
  end.

(** Whether the queue could be emptied for reuse ([return 0]). *)
Definition ip_frag_reinit (env : frag_env) (p : positive) (s : frag_state) : bool * frag_state :=
  match queues s !! p with
  | None => (false, s)
  | Some q =>
      let (was, q) := q_mod_timer (u32 (e_jiffies env + sysctl_ipfrag_time env)) q in
      if negb was then (false, upd_queue p (λ _, q <| q_refcnt := q_refcnt q + 1 |>) s)
      else
        let s := s <| ip_frag_mem := ip_frag_mem s - sum_truesize (q_fragments q) |> in
        (true, upd_queue p (λ _, q <| q_last_in := 0 |> <| q_len := 0 |> <| q_meat := 0 |>
                                   <| q_fragments := [] |> <| q_iif := 0 |>) s)
  end.

Definition IP_MF := 8192.

Definition summed_none (skb : sk_buff) : sk_buff :=
  if ip_summed skb =? CHECKSUM_UNNECESSARY then skb else skb <| ip_summed := CHECKSUM_NONE |>.

(** The position of the fragment and what it says about the length of the datagram.
    [None]: the fragment is corrupted. *)
Definition frag_position (q : ipq) (skb : sk_buff) : option (ipq * Z * Z * sk_buff) :=
  let iph := skb_iph skb in
  let off := ntohs (frag_off iph) in
  let flags := Z.land off (Z.lnot IP_OFFSET) in
  let offset := Z.shiftl (Z.land off IP_OFFSET) 3 in
  let end_ := offset + skb_len skb - ihl iph * 4 in
  if negb (flag flags IP_MF) then
    if (end_ <? q_len q) || (flag (q_last_in q) LAST_IN && negb (end_ =? q_len q)) then None
    else Some (q <| q_last_in := Z.lor (q_last_in q) LAST_IN |> <| q_len := end_ |>,
               offset, end_, skb)
  else
    let '(end_, skb) := if flag end_ 7 then (Z.land end_ (Z.lnot 7), summed_none skb)
                        else (end_, skb) in
    if q_len q <? end_ then
      if flag (q_last_in q) LAST_IN then None else Some (q <| q_len := end_ |>, offset, end_, skb)
    else Some (q, offset, end_, skb).

(** [pskb_pull] on a fragment. *)
Definition frag_pull (i : Z) (f : ipfrag) : option ipfrag :=
  if fr_len f <? i then None
  else
    let d := data (fr_skb f) in
    Some (mk_frag (fr_head f ++ take (Z.to_nat i) d)
            ((fr_skb f) <| data := drop (Z.to_nat i) d |>) (fr_offset f) (fr_truesize f)).

(** [pskb_trim_rcsum] *)
Definition pskb_trim_rcsum (len : Z) (skb : sk_buff) : sk_buff :=
  if skb_len skb <=? len then skb
  else
    let skb := if ip_summed skb =? CHECKSUM_HW then skb <| ip_summed := CHECKSUM_NONE |> else skb in
    skb <| data := take (Z.to_nat len) (data skb) |>.

(** The fragments in front, and those from [next] on. *)
Fixpoint frag_split (offset : Z) (l : list ipfrag) : list ipfrag * list ipfrag :=
  match l with
  | [] => ([], [])
  | f :: r => if offset <=? fr_offset f then ([], l)
              else let (front, back) := frag_split offset r in (f :: front, back)
  end.

(** The overlap with the preceding fragment is cut off the new one. *)
Definition cut_front (prev : option ipfrag) (offset end_ : Z) (f : ipfrag) : option (Z * ipfrag) :=
  match prev with
  | None => Some (offset, f)
  | Some prev =>
      let i := fr_end prev - offset in
      if 0 <? i then
        let offset := offset + i in
        if end_ <=? offset then None
        else
          f ← frag_pull i f;
          Some (offset, mk_frag (fr_head f) (summed_none (fr_skb f)) (fr_offset f) (fr_truesize f))
      else Some (offset, f)
  end.

(** The overlap with the following fragments is cut off them.  The results are the
    remaining fragments, the bytes cut and the memory freed. *)
Fixpoint cut_back (end_ : Z) (next : list ipfrag) : option (list ipfrag * Z * Z) :=
  match next with
  | [] => Some ([], 0, 0)
  | f :: r =>
      if fr_offset f <? end_ then
        let i := end_ - fr_offset f in
        if i <? fr_len f then
          f' ← frag_pull i f;
          Some (mk_frag (fr_head f') (summed_none (fr_skb f')) (fr_offset f + i) (fr_truesize f)
                :: r, i, 0)
        else
          '(r, cut, freed) ← cut_back end_ r;
          Some (r, fr_len f + cut, fr_truesize f + freed)
      else Some (next, 0, 0)
  end.

(** The place of a new fragment in the list, and the cuts there. *)
Definition frag_insert (off e : Z) (f : ipfrag) (l : list ipfrag)
    : option (list ipfrag * ipfrag * list ipfrag * Z * Z) :=
  let (front, back) := frag_split off l in
  '(off, f) ← cut_front (list.last front) off e f;
  '(back, cut, freed) ← cut_back e back;
  Some (front, mk_frag (fr_head f) (fr_skb f) off (fr_truesize f), back, cut, freed).

(** The part of [ip_frag_queue] that works on the queue alone.  The second result is
    the change of [ip_frag_mem], [None] for the exit [err]. *)
Definition frag_enqueue (q : ipq) (skb : sk_buff) (dev : option Z) (truesize : Z) : ipq * option Z :=
  match frag_position q skb with
  | None => (q, None)
  | Some (q, offset, end_, skb) =>
      match
        (if end_ =? offset then None
         else
           f ← frag_pull (ihl (skb_iph skb) * 4) (mk_frag [] skb 0 truesize);
           let f := mk_frag (fr_head f) (pskb_trim_rcsum (end_ - offset) (fr_skb f)) 0 truesize in
           frag_insert offset end_ f (q_fragments q))
      with
      | None => (q, None)
      | Some (front, f, back, cut, freed) =>
          (q <| q_fragments := front ++ f :: back |>
             <| q_iif := default (q_iif q) dev |>
             <| q_meat := q_meat q - cut + fr_len f |>
             <| q_last_in := if fr_offset f =? 0 then Z.lor (q_last_in q) FIRST_IN
                             else q_last_in q |>,
           Some (truesize - freed))
      end
  end.

(** [complete]: the flag [IPSKB_FRAG_COMPLETE] of the buffer. *)
Definition ip_frag_queue (env : frag_env) (p : positive) (skb : sk_buff) (complete : bool)
    (dev : option Z) (truesize : Z) (s : frag_state) : frag_state :=
  match queues s !! p with
  | None => s
  | Some q =>
      if flag (q_last_in q) COMPLETE then s
      else
        let '(ok, s) :=
          if complete then (true, s)
          else
            let '(far, s) := ip_frag_too_far env p s in
            if far then ip_frag_reinit env p s else (true, s) in
        if negb ok then ipq_kill p s
        else
          match queues s !! p with
          | None => s
          | Some q =>
              let (q, r) := frag_enqueue q skb dev truesize in
              let s := upd_queue p (λ _, q) s in
              match r with
              | None => s
              | Some d => s <| ip_frag_mem := ip_frag_mem s + d |>
                            <| ipq_lru_list := filter (λ q, q ≠ p) (ipq_lru_list s) ++ [p] |>
              end
          end
  end.

(** ** Building the datagram *)
Definition glue_summed (head : sk_buff) (f : ipfrag) : sk_buff :=
  let head := head <| data := data head ++ data (fr_skb f) |> in
  if negb (ip_summed head =? ip_summed (fr_skb f)) then head <| ip_summed := CHECKSUM_NONE |>
  else if ip_summed head =? CHECKSUM_HW
       then head <| csum := csum_add (csum head) (csum (fr_skb f)) |> else head.

(** The outer [None]: [head] is [NULL] and dereferenced. *)
Definition ip_frag_reasm (env : frag_env) (p : positive) (s : frag_state)
    : option (option sk_buff * frag_state) :=
  let s := ipq_kill p s in
  q ← queues s !! p;
  match q_fragments q with
  | [] => None
  | head :: rest =>
      let ihlen := ihl (iphdr_at (fr_head head) 0) * 4 in
      let len := ihlen + q_len q in
      if 65535 <? len then Some (None, s)
      else if negb (e_expand_ok env) then Some (None, s)
      else
        let skb := (fr_skb head) <| data := fr_head head ++ data (fr_skb head) |> in
        let skb := fold_left glue_summed rest skb in
        let skb := skb <| data := st16 2 (htons len) (st16 6 0 (data skb)) |> in
        let s := s <| ip_frag_mem := ip_frag_mem s - sum_truesize (q_fragments q) |> in
        Some (Some skb, upd_queue p (λ q, q <| q_fragments := [] |>) s)
  end.

Definition ip_defrag (env : frag_env) (skb : sk_buff) (user : Z) (complete : bool)
    (dev : option Z) (truesize : Z) (s : frag_state) : option (option sk_buff * frag_state) :=
  s ← (if sysctl_ipfrag_high_thresh env <? ip_frag_mem s then ip_evictor env s else Some s);
  match ip_find env (data skb) user s with
  | (None, s) => Some (None, s)
  | (Some p, s) =>
      let s := ip_frag_queue env p skb complete dev truesize s in
      q ← queues s !! p;
      '(ret, s) ← (if (q_last_in q =? Z.lor FIRST_IN LAST_IN) && (q_meat q =? q_len q)
                   then ip_frag_reasm env p s else Some (None, s));
      Some (ret, (ipq_put env p s).1)
  end.

(** ** The tracker's side *)
Definition IP_DEFRAG_CONNTRACK_IN := 2.
Definition IP_DEFRAG_CONNTRACK_OUT := 3.

Definition ip_ct_gather_frags (env : frag_env) (skb : sk_buff) (user : Z) (complete : bool)
    (dev : option Z) (truesize : Z) (s : frag_state) : option (option sk_buff * frag_state) :=
  match ip_defrag env skb user complete dev truesize s with
  | None => None
  | Some (ret, s) => Some ((λ skb, skb <| data := ip_send_check (data skb) |>) <$> ret, s)
  end.

(** The hook: verdict, packet and state. *)
Definition ip_conntrack_defrag (env : frag_env) (hooknum : Z) (skb : sk_buff) (complete : bool)
    (dev : option Z) (truesize : Z) (s : frag_state) : option (Z * option sk_buff * frag_state) :=
  if flag (frag_off (skb_iph skb)) (htons (Z.lor IP_MF IP_OFFSET)) then
    match ip_ct_gather_frags env skb
            (if hooknum =? NF_IP_PRE_ROUTING then IP_DEFRAG_CONNTRACK_IN else IP_DEFRAG_CONNTRACK_OUT)
            complete dev truesize s with
    | None => None
    | Some (None, s) => Some (NF_STOLEN, None, s)
    | Some (Some skb, s) => Some (NF_ACCEPT, Some skb, s)
    end
  else Some (NF_ACCEPT, Some skb, s).
