(* ===== verification/IpFragFacts.v ===== *)
(** * Reassembly: a queue holds the bytes that arrived

    The fragments of a queue are in order and do not overlap; what they hold is a
    partial map from positions to bytes, and queueing a fragment extends this map. *)
From S2P Require Import Prelude Packet CtBase TcpTrack CtProtos Conntrack NatProto NatHelper IpFrag.

(** ** The bytes of fragments *)
Definition frag_at (f : ipfrag) (x : Z) : option Z :=
  if fr_offset f <=? x then data (fr_skb f) !! Z.to_nat (x - fr_offset f) else None.

Fixpoint byte_at (l : list ipfrag) (x : Z) : option Z :=
  match l with
  | [] => None
  | f :: r => match frag_at f x with Some b => Some b | None => byte_at r x end
  end.

Fixpoint sum_len (l : list ipfrag) : Z :=
  match l with [] => 0 | f :: r => fr_len f + sum_len r end.

(** In order, not empty, without overlap, between [lo] and [hi]. *)
Fixpoint frags_in (lo hi : Z) (l : list ipfrag) : Prop :=
  match l with
  | [] => lo <= hi
  | f :: r => lo <= fr_offset f ∧ 0 < fr_len f ∧ frags_in (fr_end f) hi r
  end.

(** Where the last fragment ends. *)
Fixpoint top (lo : Z) (l : list ipfrag) : Z :=
  match l with [] => lo | f :: r => top (fr_end f) r end.

(** A fragment at the start still has its header in front of it. *)
Definition hdr_ok (f : ipfrag) : Prop :=
  fr_offset f = 0 → Z.of_nat (length (fr_head f)) = ihl (iphdr_at (fr_head f) 0) * 4.

Lemma frag_at_None f x : frag_at f x = None ↔ x < fr_offset f ∨ fr_end f <= x.
Proof.
  unfold frag_at, fr_end, fr_len, skb_len. destruct (Z.leb_spec (fr_offset f) x).
  - rewrite lookup_ge_None. lia.
  - split; [lia|done].
Qed.
Lemma frag_at_Some f x b : frag_at f x = Some b → fr_offset f <= x < fr_end f.
Proof.
  intros H. destruct (decide (x < fr_offset f ∨ fr_end f <= x)) as [Hn|]; [|lia].
  apply frag_at_None in Hn. congruence.
Qed.

Lemma frags_in_le lo hi l : frags_in lo hi l → lo <= hi.
Proof.
  revert lo. induction l as [|f r IH]; intros lo; cbn [frags_in]; [done|].
  intros (? & ? & ?%IH). unfold fr_end in *. lia.
Qed.
Lemma frags_in_mono lo lo' hi hi' l :
  frags_in lo hi l → lo' <= lo → hi <= hi' → frags_in lo' hi' l.
Proof.
  revert lo lo'. induction l as [|f r IH]; intros lo lo'; cbn [frags_in]; [lia|].
  intros (? & ? & H) Hl Hh. split_and!; [lia|done|]. by apply (IH _ _ H).
Qed.

Lemma byte_at_range lo hi l x b : frags_in lo hi l → byte_at l x = Some b → lo <= x < hi.
Proof.
  revert lo. induction l as [|f r IH]; intros lo; cbn [frags_in byte_at]; [done|].
  intros (H1 & H2 & H3). pose proof (frags_in_le _ _ _ H3).
  destruct (frag_at f x) eqn:E.
  - intros _. apply frag_at_Some in E. lia.
  - intros Hb. specialize (IH _ H3 Hb). unfold fr_end in *. lia.
Qed.
Lemma byte_at_None lo hi l x : frags_in lo hi l → x < lo ∨ hi <= x → byte_at l x = None.
Proof.
  intros Hl Hx. destruct (byte_at l x) eqn:E; [|done].
  pose proof (byte_at_range _ _ _ _ _ Hl E). lia.
Qed.

Lemma byte_at_app l1 l2 x :
  byte_at (l1 ++ l2) x = match byte_at l1 x with Some b => Some b | None => byte_at l2 x end.
Proof. induction l1 as [|f l1 IH]; [done|]. simpl. rewrite IH. by destruct (frag_at f x). Qed.

Lemma top_app lo l1 l2 : top lo (l1 ++ l2) = top (top lo l1) l2.
Proof. revert lo. induction l1 as [|f l1 IH]; intros lo; [done|]. apply IH. Qed.
Lemma top_last lo l : top lo l = match list.last l with Some f => fr_end f | None => lo end.
Proof.
  destruct l as [|f l _] using rev_ind; [done|]. by rewrite top_app, last_snoc.
Qed.

Lemma frags_in_app lo hi l1 l2 :
  frags_in lo hi (l1 ++ l2) ↔ frags_in lo (top lo l1) l1 ∧ frags_in (top lo l1) hi l2.
Proof.
  revert lo. induction l1 as [|f l1 IH]; intros lo; cbn [app frags_in top].
  - split; [|by intros []]. intros H. split; [lia|done].
  - rewrite IH. tauto.
Qed.

Lemma sum_len_app l1 l2 : sum_len (l1 ++ l2) = sum_len l1 + sum_len l2.
Proof. induction l1 as [|f l1 IH]; simpl; lia. Qed.
Lemma sum_truesize_cons f l : sum_truesize (f :: l) = fr_truesize f + sum_truesize l.
Proof. done. Qed.
Lemma sum_truesize_app l1 l2 : sum_truesize (l1 ++ l2) = sum_truesize l1 + sum_truesize l2.
Proof.
  induction l1 as [|f l1 IH]; [done|]. rewrite <- app_comm_cons, !sum_truesize_cons. lia.
Qed.

Lemma sum_len_le lo hi l : frags_in lo hi l → 0 <= sum_len l <= hi - lo.
Proof.
  revert lo. induction l as [|f r IH]; intros lo; cbn [frags_in sum_len]; [lia|].
  intros (? & ? & ?%IH). unfold fr_end in *. lia.
Qed.

(** ** A full queue is the datagram *)
Definition glue (l : list ipfrag) : list Z := mjoin ((λ f, data (fr_skb f)) <$> l).

Lemma glue_full lo hi l : frags_in lo hi l → sum_len l = hi - lo →
  Z.of_nat (length (glue l)) = hi - lo ∧
  (∀ x, lo <= x < hi → byte_at l x = glue l !! Z.to_nat (x - lo)) ∧
  (∀ f r, l = f :: r → fr_offset f = lo).
Proof.
  revert lo. induction l as [|f r IH]; intros lo; cbn [frags_in sum_len].
  - intros ??. split_and!; [simpl; lia|lia|done].
  - intros (H1 & H2 & H3) Hs. pose proof (sum_len_le _ _ _ H3) as Hr.
    assert (fr_offset f = lo) as Ho by (unfold fr_end in *; lia).
    destruct (IH _ H3) as (IH1 & IH2 & _); [unfold fr_end in *; lia|].
    assert (glue (f :: r) = data (fr_skb f) ++ glue r) as Hg by done.
    split_and!.
    + rewrite Hg, length_app, Nat2Z.inj_add, IH1. unfold fr_end, fr_len, skb_len in *. lia.
    + intros x Hx. rewrite Hg. cbn [byte_at]. destruct (decide (x < fr_end f)) as [Hlt|Hge].
      * rewrite lookup_app_l by (unfold fr_end, fr_len, skb_len in *; lia).
        unfold frag_at. destruct (Z.leb_spec (fr_offset f) x); [|lia]. rewrite Ho.
        destruct (lookup_lt_is_Some_2 (data (fr_skb f)) (Z.to_nat (x - lo))) as [b ->]; [|done].
        unfold fr_end, fr_len, skb_len in *. lia.
      * rewrite (proj2 (frag_at_None f x)) by lia. rewrite IH2 by lia.
        rewrite lookup_app_r by (unfold fr_end, fr_len, skb_len in *; lia). f_equal.
        unfold fr_end, fr_len, skb_len in *. lia.
    + by intros ? ? [= <- <-].
Qed.

(** ** Cutting overlaps *)
Lemma frag_pull_spec i f : 0 <= i <= fr_len f →
  frag_pull i f = Some (mk_frag (fr_head f ++ take (Z.to_nat i) (data (fr_skb f)))
    ((fr_skb f) <| data := drop (Z.to_nat i) (data (fr_skb f)) |>) (fr_offset f) (fr_truesize f)).
Proof. intros Hi. unfold frag_pull. by rewrite (proj2 (Z.ltb_ge _ _)) by lia. Qed.

Lemma summed_none_data skb : data (summed_none skb) = data skb.
Proof. unfold summed_none. by destruct (_ =? _). Qed.

(** The part of a fragment from position [e] on. *)
Lemma frag_at_rest hd skb o t o' d x : data skb = drop (Z.to_nat (o' - o)) d → o <= o' →
  frag_at (mk_frag hd skb o' t) x
  = if x <? o' then None else if o <=? x then d !! Z.to_nat (x - o) else None.
Proof.
  intros Hd Ho. unfold frag_at. cbn [fr_offset fr_skb]. rewrite Hd.
  destruct (Z.leb_spec o' x) as [Hx|Hx], (Z.ltb_spec x o'); try lia; [|done].
  destruct (Z.leb_spec o x); [|lia]. rewrite lookup_drop. f_equal. lia.
Qed.

Lemma cut_back_spec end_ back : ∀ lo hi,
  frags_in lo hi back → end_ <= hi → 0 < end_ → Forall hdr_ok back →
  ∃ r cut freed, cut_back end_ back = Some (r, cut, freed) ∧
    frags_in (Z.max lo end_) hi r ∧ Forall hdr_ok r ∧
    sum_len r = sum_len back - cut ∧ sum_truesize r = sum_truesize back - freed ∧
    ∀ x, byte_at r x = if x <? end_ then None else byte_at back x.
Proof.
  induction back as [|f r IH]; intros lo hi Hb He H0 Hh; cbn [frags_in] in Hb.
  - exists [], 0, 0. split_and!; try done; [simpl; lia|]. intros x. by destruct (_ <? _).
  - destruct Hb as (H1 & H2 & H3). apply Forall_cons_iff in Hh as [Hf Hh]. cbn [cut_back].
    pose proof (frags_in_le _ _ _ H3).
    destruct (Z.ltb_spec (fr_offset f) end_) as [Hlt|Hge]; cbn zeta.
    + destruct (Z.ltb_spec (end_ - fr_offset f) (fr_len f)) as [Hp|Hp].
      * rewrite frag_pull_spec by lia. cbn [mbind option_bind fr_head fr_skb].
        set (s' := summed_none _).
        assert (data s' = drop (Z.to_nat (end_ - fr_offset f)) (data (fr_skb f))) as Hd by apply summed_none_data.
        set (f' := mk_frag _ s' _ _).
        assert (fr_len f' = fr_end f - end_) as Hl.
        { unfold fr_len, fr_end, skb_len. cbn [fr_skb f']. rewrite Hd, length_drop.
          unfold fr_len, fr_end, skb_len in *. lia. }
        assert (fr_end f' = fr_end f) as He' by (unfold fr_end in *; rewrite Hl; cbn [fr_offset f']; lia).
        eexists _, _, _. split_and!; [done|..].
        -- cbn [frags_in]. rewrite He'. cbn [fr_offset f']. unfold fr_end in *. split_and!; [lia|lia|done].
        -- apply Forall_cons_iff. split; [|done]. intros Hz. cbn [fr_offset f'] in Hz. lia.
        -- cbn [sum_len]. unfold fr_end in *. lia.
        -- rewrite !sum_truesize_cons. cbn [fr_truesize f']. lia.
        -- intros x. cbn [byte_at]. unfold f'.
           rewrite (frag_at_rest _ _ (fr_offset f) _ _ (data (fr_skb f))) by (try lia; rewrite Hd; f_equal; lia).
           replace (fr_offset f + (end_ - fr_offset f)) with end_ by lia.
           fold (frag_at f x). destruct (Z.ltb_spec x end_); [|done].
           apply (byte_at_None _ _ _ _ H3). unfold fr_end in *. lia.
      * destruct (IH _ _ H3 He H0 Hh) as (r' & cut & freed & -> & I1 & I2 & I3 & I4 & I5).
        cbn [mbind option_bind]. eexists _, _, _. split_and!; [done|..].
        -- apply (frags_in_mono _ _ _ _ _ I1); unfold fr_end; lia.
        -- done.
        -- cbn [sum_len]. lia.
        -- rewrite sum_truesize_cons. lia.
        -- intros x. rewrite I5. cbn [byte_at]. destruct (Z.ltb_spec x end_); [done|].
           rewrite (proj2 (frag_at_None f x)); [done|]. unfold fr_end. lia.
    + exists (f :: r), 0, 0. split_and!; try done; try lia.
      * cbn [frags_in]. split_and!; [lia|done|done].
      * by apply Forall_cons_iff.
      * intros x. destruct (Z.ltb_spec x end_); [|done].
        apply (byte_at_None (fr_offset f) hi); [cbn [frags_in]; split_and!; [lia|done..]|lia].
Qed.

Lemma frag_split_spec o l : ∀ lo hi front back,
  frags_in lo hi l → o <= hi → frag_split o l = (front, back) →
  l = front ++ back ∧ Forall (λ f, fr_offset f < o) front ∧
  frags_in lo (top lo front) front ∧ frags_in (top lo front) hi back ∧
  (∀ f, f ∈ back → o <= fr_offset f).
Proof.
  induction l as [|f r IH]; intros lo hi front back Hl Ho; cbn [frag_split frags_in] in *.
  - intros [= <- <-]. split_and!; try done; [simpl; lia|]. intros f []%elem_of_nil.
  - destruct Hl as (H1 & H2 & H3). destruct (Z.leb_spec o (fr_offset f)).
    + intros [= <- <-]. split_and!; try done; [simpl; lia|].
      intros g [->|Hg]%elem_of_cons; [done|].
      clear IH. revert f H H1 H2 H3. induction r as [|a r IHr]; intros f Hf H1 H2 H3; [by apply elem_of_nil in Hg|].
      cbn [frags_in] in H3. destruct H3 as (A1 & A2 & A3). unfold fr_end in A1.
      apply elem_of_cons in Hg as [->|Hg]; [lia|]. apply (IHr Hg a); [lia|lia|done|done].
    + destruct (frag_split o r) as [front' back'] eqn:E. intros [= <- <-].
      destruct (IH _ _ _ _ H3 Ho eq_refl) as (-> & I2 & I3 & I4 & I5).
      split_and!; [done|by constructor| |done|done]. cbn [frags_in top]. split_and!; done.
Qed.

(** ** Inserting a fragment

    The bytes in front of the new fragment's start stay, then come its own, then those
    behind its end. *)
Definition merged (front back : list ipfrag) (off : Z) (p : list Z) (x : Z) : option Z :=
  match byte_at front x with
  | Some b => Some b
  | None => match (if off <=? x then p !! Z.to_nat (x - off) else None) with
            | Some b => Some b
            | None => byte_at back x
            end
  end.

Lemma merged_Some front back off p x :
  is_Some (merged front back off p x) ↔
  is_Some (byte_at (front ++ back) x) ∨ off <= x < off + Z.of_nat (length p).
Proof.
  unfold merged. rewrite byte_at_app. destruct (byte_at front x) as [b|].
  - split; [by left|by eexists].
  - destruct (Z.leb_spec off x); [|split; [by left|intros [?|?]; [done|lia]]].
    destruct (p !! Z.to_nat (x - off)) as [b|] eqn:E.
    + apply lookup_lt_Some in E. split; [right; lia|by eexists].
    + apply lookup_ge_None in E. split; [by left|intros [?|?]; [done|lia]].
Qed.

Lemma cut_front_spec prev off e f : fr_len f = e - off → off < e →
  let t := Z.max off (match prev with Some g => fr_end g | None => off end) in
  match cut_front prev off e f with
  | None => e <= t
  | Some (off', f') => off' = t ∧ t < e ∧ fr_truesize f' = fr_truesize f ∧
      data (fr_skb f') = drop (Z.to_nat (t - off)) (data (fr_skb f)) ∧
      (t = off → f' = f)
  end.
Proof.
  intros Hl He. unfold cut_front. destruct prev as [g|]; cbn zeta.
  - destruct (Z.ltb_spec 0 (fr_end g - off)) as [Hi|Hi].
    + destruct (Z.leb_spec e (off + (fr_end g - off))); [lia|].
      rewrite frag_pull_spec by lia. cbn [mbind option_bind fr_head fr_skb fr_offset fr_truesize].
      rewrite summed_none_data. cbn [data update upd_data]. split_and!; [lia|lia|done|f_equal; lia|lia].
    + rewrite Z.max_l by lia. rewrite Z.sub_diag. split_and!; [done|lia|done|by rewrite drop_0|done].
  - rewrite Z.max_id, Z.sub_diag. split_and!; [done|lia|done|by rewrite drop_0|done].
Qed.

(** Behind [off] the fragments that start before it leave no gap below their end. *)
Lemma front_covers lo off front x : Forall (λ f, fr_offset f < off) front →
  byte_at front x = None → x < top lo front → lo <= x → x < off.
Proof.
  intros Hf Ef Hx Hlo. destruct front as [|g front _] using rev_ind; [simpl in Hx; lia|].
  rewrite top_app in Hx. cbn [top] in Hx. rewrite byte_at_app in Ef.
  destruct (byte_at front x); [done|]. cbn [byte_at] in Ef.
  destruct (frag_at g x) eqn:Eg; [done|]. apply frag_at_None in Eg.
  apply Forall_app in Hf as [_ [Hg _]%Forall_cons_iff]. lia.
Qed.

Lemma frag_insert_spec off e f l hi :
  frags_in 0 hi l → Forall hdr_ok l → 0 <= off < e → e <= hi → fr_len f = e - off →
  (off = 0 → Z.of_nat (length (fr_head f)) = ihl (iphdr_at (fr_head f) 0) * 4) →
  let (front, back) := frag_split off l in
  match frag_insert off e f l with
  | None => ∀ x, off <= x < e → is_Some (byte_at l x)
  | Some (front', f', back', cut, freed) =>
      let l' := front' ++ f' :: back' in
      frags_in 0 hi l' ∧ Forall hdr_ok l' ∧
      sum_len l' = sum_len l - cut + fr_len f' ∧
      sum_truesize l' = sum_truesize l + fr_truesize f - freed ∧
      (fr_offset f' = 0 ↔ off = 0) ∧
      ∀ x, byte_at l' x = merged front back off (data (fr_skb f)) x
  end.
Proof.
  intros Hl Hh Ho He Hf Hhd. unfold frag_insert.
  destruct (frag_split off l) as [front back] eqn:Es.
  destruct (frag_split_spec off l 0 hi front back Hl ltac:(lia) Es) as (-> & S2 & S3 & S4 & S5).
  apply Forall_app in Hh as [Hh1 Hh2].
  pose proof (cut_front_spec (list.last front) off e f Hf ltac:(lia)) as Hc. cbn zeta in Hc.
  assert (Z.max off (match list.last front with Some g => fr_end g | None => off end)
          = Z.max off (top 0 front)) as Ht.
  { rewrite top_last. destruct (list.last front); lia. }
  rewrite Ht in Hc. set (t := Z.max off (top 0 front)) in *. clear Ht.
  pose proof (frags_in_le _ _ _ S3) as Ht0.
  destruct (cut_front (list.last front) off e f) as [[off' f']|]; cbn [mbind option_bind].
  - destruct Hc as (-> & Hlt & Hts & Hd & Hid).
    destruct (cut_back_spec e back (top 0 front) hi S4 He ltac:(lia) Hh2)
      as (r & cut & freed & -> & C1 & C2 & C3 & C4 & C5). cbn [mbind option_bind].
    set (f'' := mk_frag _ _ _ _).
    assert (fr_len f'' = e - t) as Hl''.
    { unfold fr_len, skb_len in *. cbn [fr_skb f'']. rewrite Hd, length_drop. lia. }
    assert (fr_end f'' = e) as He'' by (unfold fr_end; rewrite Hl''; cbn [fr_offset f'']; lia).
    assert (top 0 front = 0 ∨ off ≠ 0) as Hz.
    { destruct front as [|g front]; [by left|right].
      cbn [frags_in] in S3. apply Forall_cons_iff in S2 as [? _]. lia. }
    split_and!.
    + apply frags_in_app. split; [done|]. cbn [frags_in]. rewrite He''. cbn [fr_offset f''].
      split_and!; [lia|lia|]. apply (frags_in_mono _ _ _ _ _ C1); lia.
    + apply Forall_app. split; [done|]. apply Forall_cons_iff. split; [|done].
      unfold hdr_ok. cbn [fr_offset fr_head f'']. intros Hz0. rewrite Hid by lia. apply Hhd. lia.
    + rewrite !sum_len_app. cbn [sum_len]. lia.
    + rewrite !sum_truesize_app, sum_truesize_cons. cbn [fr_truesize f'']. lia.
    + cbn [fr_offset f'']. lia.
    + intros x. unfold merged. rewrite byte_at_app. destruct (byte_at front x) eqn:Ef; [done|].
      cbn [byte_at]. unfold f''. rewrite (frag_at_rest _ _ off _ _ (data (fr_skb f))) by (done || lia).
      rewrite C5. destruct (Z.ltb_spec x t) as [Hx|Hx].
      * destruct (Z.ltb_spec x e); [|lia]. assert (x < off) as Hxo.
        { destruct (decide (x < off)) as [|Hn]; [done|]. apply (front_covers 0 off front); try done; lia. }
        destruct (Z.leb_spec off x); [lia|]. symmetry.
        destruct (byte_at back x) eqn:Eb; [|done].
        assert (frags_in off hi back) as Hback.
        { destruct back as [|b back]; cbn [frags_in] in *; [lia|].
          destruct S4 as (? & ? & ?). split_and!; [apply S5; set_solver|done..]. }
        pose proof (byte_at_range _ _ _ _ _ Hback Eb). lia.
      * destruct (Z.leb_spec off x); [|lia].
        destruct (data (fr_skb f) !! Z.to_nat (x - off)) eqn:Ed; [done|].
        apply lookup_ge_None in Ed. unfold fr_len, skb_len in Hf.
        destruct (Z.ltb_spec x e); [lia|done].
  - intros x Hx. rewrite byte_at_app.
    destruct (byte_at front x) eqn:Ef; [by eexists|]. exfalso.
    pose proof (front_covers 0 off front x S2 Ef). lia.
Qed.

(** ** Queueing *)
Record queue_wf (q : ipq) : Prop := {
  qw_frags : frags_in 0 (q_len q) (q_fragments q);
  qw_hdr : Forall hdr_ok (q_fragments q);
  qw_meat : q_meat q = sum_len (q_fragments q);
  qw_first : flag (q_last_in q) FIRST_IN = true ↔ is_Some (byte_at (q_fragments q) 0);
  qw_bits : 0 <= q_last_in q < 8 }.

(** What queueing does not touch. *)
Record same_queue (q q' : ipq) : Prop := {
  sq_user : q_user q' = q_user q; sq_saddr : q_saddr q' = q_saddr q;
  sq_daddr : q_daddr q' = q_daddr q; sq_id : q_id q' = q_id q;
  sq_protocol : q_protocol q' = q_protocol q; sq_refcnt : q_refcnt q' = q_refcnt q;
  sq_timer : q_timer q' = q_timer q; sq_rid : q_rid q' = q_rid q; sq_peer : q_peer q' = q_peer q;
  sq_complete : flag (q_last_in q') COMPLETE = flag (q_last_in q) COMPLETE }.

Lemma last_in_cases x : 0 <= x < 8 → x ∈ [0; 1; 2; 3; 4; 5; 6; 7].
Proof. intros Hx. rewrite !elem_of_cons. lia. Qed.

Lemma last_in_set x b : 0 <= x < 8 → b = FIRST_IN ∨ b = LAST_IN → 
  0 <= Z.lor x b < 8 ∧ flag (Z.lor x b) b = true ∧ flag (Z.lor x b) COMPLETE = flag x COMPLETE ∧
  ∀ b', b' = FIRST_IN ∨ b' = LAST_IN → b' ≠ b → flag (Z.lor x b) b' = flag x b'.
Proof.
  intros Hx%last_in_cases [-> | ->].
  all: repeat (apply elem_of_cons in Hx as [->|Hx]); [..|by apply elem_of_nil in Hx].
  all: split_and!; try (vm_compute; done); by intros b' [-> | ->].
Qed.

(** The bytes a fragment brings, cut to a multiple of eight when more are to come. *)
Definition frag_start (skb : sk_buff) : Z := Z.shiftl (Z.land (ntohs (frag_off (skb_iph skb))) IP_OFFSET) 3.
Definition frag_more (skb : sk_buff) : bool :=
  flag (Z.land (ntohs (frag_off (skb_iph skb))) (Z.lnot IP_OFFSET)) IP_MF.
Definition frag_stop (skb : sk_buff) : Z :=
  let e := frag_start skb + skb_len skb - ihl (skb_iph skb) * 4 in
  if frag_more skb then e - e mod 8 else e.
Definition frag_body (skb : sk_buff) : list Z :=
  take (Z.to_nat (frag_stop skb - frag_start skb)) (drop (Z.to_nat (ihl (skb_iph skb) * 4)) (data skb)).

Lemma flag7 x : flag x 7 = negb (x mod 8 =? 0).
Proof. unfold flag. change 7 with (Z.ones 3). by rewrite Z.land_ones. Qed.
Lemma mask7 x : Z.land x (Z.lnot 7) = x - x mod 8.
Proof.
  change 7 with (Z.ones 3). rewrite <- Z.ldiff_land, Z.ldiff_ones_r by done.
  rewrite Z.shiftl_mul_pow2, Z.shiftr_div_pow2 by done. change (2 ^ 3) with 8. lia.
Qed.

Lemma frag_position_spec q skb :
  let s := frag_stop skb in
  match frag_position q skb with
  | None => (if frag_more skb then flag (q_last_in q) LAST_IN = true ∧ q_len q < s
             else s < q_len q ∨ flag (q_last_in q) LAST_IN = true ∧ s ≠ q_len q)
  | Some (q', o, e, skb') =>
      o = frag_start skb ∧ e = s ∧ data skb' = data skb ∧ same_queue q q' ∧
      (if frag_more skb
       then q_last_in q' = q_last_in q ∧ q_len q' = Z.max s (q_len q) ∧
            (flag (q_last_in q) LAST_IN = true → s <= q_len q)
       else q_last_in q' = Z.lor (q_last_in q) LAST_IN ∧ q_len q' = s ∧ q_len q <= s ∧
            (flag (q_last_in q) LAST_IN = true → s = q_len q)) ∧
      q_fragments q' = q_fragments q ∧ q_meat q' = q_meat q ∧ q_iif q' = q_iif q
  end.
Proof.
  unfold frag_position, frag_stop. cbn zeta. fold (frag_more skb) (frag_start skb).
  set (e := frag_start skb + skb_len skb - ihl (skb_iph skb) * 4).
  destruct (frag_more skb); cbn [negb].
  - rewrite flag7. set (c := if negb _ then _ else _).
    assert (c.1 = e - e mod 8 ∧ data c.2 = data skb) as [Hc1 Hc2].
    { unfold c. rewrite mask7. destruct (Z.eqb_spec (e mod 8) 0) as [->|]; cbn [negb fst snd].
      - split; [lia|done].
      - split; [done|]. apply summed_none_data. }
    destruct c as [e' skb']. cbn [fst snd] in *. subst e'.
    destruct (Z.ltb_spec (q_len q) (e - e mod 8)).
    + destruct (flag (q_last_in q) LAST_IN) eqn:El; [done|].
      split_and!; try done. cbn [q_len update upd_q_len]. lia.
    + split_and!; try done; lia.
  - destruct (Z.ltb_spec e (q_len q)); cbn [orb]; [by left|].
    destruct (flag (q_last_in q) LAST_IN) eqn:El; cbn [andb].
    + destruct (Z.eqb_spec e (q_len q)) as [He|]; cbn [negb]; [|by right].
      split_and!; try done. split; try done. cbn [q_last_in update upd_q_len upd_q_last_in].
      unfold flag. rewrite Z.land_lor_distr_l. by rewrite Z.lor_0_r.
    + split_and!; try done. split; try done. cbn [q_last_in update upd_q_len upd_q_last_in].
      unfold flag. rewrite Z.land_lor_distr_l. by rewrite Z.lor_0_r.
Qed.

Lemma ihl_range d o : 0 <= ihl (iphdr_at d o) < 16.
Proof. cbn [ihl iphdr_at]. change 15 with (Z.ones 4). rewrite Z.land_ones by done. lia. Qed.

Lemma frag_start_range skb : 0 <= frag_start skb ∧ frag_start skb mod 8 = 0 ∧ frag_start skb < 65536.
Proof.
  unfold frag_start, IP_OFFSET. change 8191 with (Z.ones 13).
  rewrite Z.land_ones, Z.shiftl_mul_pow2 by done. change (2 ^ 13) with 8192. change (2 ^ 3) with 8. lia.
Qed.

(** The header of a pulled packet. *)
Lemma take_ihl d n : n = ihl (iphdr_at d 0) * 4 → n <= Z.of_nat (length d) →
  ihl (iphdr_at (take (Z.to_nat n) d) 0) = ihl (iphdr_at d 0).
Proof.
  intros -> Hn. pose proof (ihl_range d 0) as Hr. destruct (decide (ihl (iphdr_at d 0) = 0)) as [E|E].
  - rewrite E. done.
  - cbn [ihl iphdr_at] in *. unfold ld8 in *. rewrite lookup_take_lt by lia. done.
Qed.

Lemma trim_data n skb : 0 <= n <= skb_len skb → data (pskb_trim_rcsum n skb) = take (Z.to_nat n) (data skb).
Proof.
  intros Hn. unfold pskb_trim_rcsum. destruct (Z.leb_spec (skb_len skb) n).
  - rewrite take_ge; [done|]. unfold skb_len in *. lia.
  - by destruct (_ =? _).
Qed.

Lemma position_wf q skb q1 o e skb1 : queue_wf q → frag_position q skb = Some (q1, o, e, skb1) →
  queue_wf q1 ∧ frag_stop skb <= q_len q1.
Proof.
  intros [W1 W2 W3 W4 W5] Hp. pose proof (frag_position_spec q skb) as Hs. rewrite Hp in Hs. cbn zeta in Hs.
  destruct Hs as (_ & _ & _ & _ & Hlen & Hfr & Hmt & _).
  assert (q_len q <= q_len q1 ∧ 0 <= q_last_in q1 < 8 ∧ frag_stop skb <= q_len q1 ∧
    flag (q_last_in q1) FIRST_IN = flag (q_last_in q) FIRST_IN) as (Hle & Hb & He & Hf).
  { destruct (frag_more skb).
    - destruct Hlen as (-> & -> & _). split_and!; try done; lia.
    - destruct Hlen as (-> & -> & ? & _).
      destruct (last_in_set (q_last_in q) LAST_IN W5) as (? & _ & _ & Hx); [by right|].
      split_and!; try done; try lia. apply Hx; [by left|done]. }
  split; [|done]. split; rewrite ?Hfr, ?Hmt, ?Hf; try done. apply (frags_in_mono _ _ _ _ _ W1); lia.
Qed.

(** The flag of the first fragment, set when the new one starts the datagram. *)
Lemma first_in_set x o : 0 <= x < 8 →
  let li := if o =? 0 then Z.lor x FIRST_IN else x in
  0 <= li < 8 ∧ flag li COMPLETE = flag x COMPLETE ∧ flag li LAST_IN = flag x LAST_IN ∧
  (flag li FIRST_IN = true ↔ flag x FIRST_IN = true ∨ o = 0).
Proof.
  intros Hx. destruct (Z.eqb_spec o 0) as [E|E]; cbn zeta.
  - destruct (last_in_set x FIRST_IN Hx) as (? & ? & ? & Hl); [by left|].
    split; [done|]. split; [done|]. split; [apply Hl; [by right|done]|]. split; [by right|done].
  - split; [done|]. split; [done|]. split; [done|]. split; [by left|]. by intros [?|?].
Qed.

(** [frag_enqueue] beyond [frag_position]: nothing to insert, or the insertion of the
    fragment's bytes. *)
Lemma enqueue_unfold q skb dev ts q1 o e skb1 (h := ihl (skb_iph skb) * 4) :
  frag_position q skb = Some (q1, o, e, skb1) →
  frag_enqueue q skb dev ts = (q1, None) ∧ (h <= skb_len skb → frag_stop skb = frag_start skb) ∨
  h <= skb_len skb ∧ frag_start skb < frag_stop skb ∧
  ∃ f, fr_head f = take (Z.to_nat h) (data skb) ∧ data (fr_skb f) = frag_body skb ∧
    fr_len f = frag_stop skb - frag_start skb ∧ fr_truesize f = ts ∧
    frag_enqueue q skb dev ts =
      match frag_insert (frag_start skb) (frag_stop skb) f (q_fragments q1) with
      | None => (q1, None)
      | Some (front, f, back, cut, freed) =>
          (q1 <| q_fragments := front ++ f :: back |>
              <| q_iif := default (q_iif q1) dev |>
              <| q_meat := q_meat q1 - cut + fr_len f |>
              <| q_last_in := if fr_offset f =? 0 then Z.lor (q_last_in q1) FIRST_IN
                              else q_last_in q1 |>,
           Some (ts - freed))
      end.
Proof.
  intros Ep. pose proof (frag_position_spec q skb) as Hp. rewrite Ep in Hp. cbn zeta in Hp.
  destruct Hp as (-> & -> & Hd & _ & _ & _).
  assert (skb_iph skb1 = skb_iph skb) as Hiph by (unfold skb_iph; by rewrite Hd).
  assert (skb_len skb1 = skb_len skb) as Hl by (unfold skb_len; by rewrite Hd).
  pose proof (ihl_range (data skb) 0) as Hr. fold (skb_iph skb) in Hr.
  assert (0 <= h) as Hh by (unfold h; lia). unfold frag_enqueue. rewrite Ep, Hiph. fold h.
  pose proof (frag_start_range skb) as (Ho0 & Ho8 & _).
  destruct (Z.eqb_spec (frag_stop skb) (frag_start skb)) as [Heq|Hne]; [by left|].
  unfold frag_pull. change (fr_len (mk_frag [] skb1 0 ts)) with (skb_len skb1).
  cbn [fr_skb fr_head fr_offset fr_truesize app]. rewrite Hl, Hd.
  destruct (Z.ltb_spec (skb_len skb) h) as [Hs|Hs]; cbn [mbind option_bind]; [left; split; [done|lia]|].
  assert (frag_start skb < frag_stop skb ∧ frag_stop skb - frag_start skb <= skb_len skb - h) as [Hlt Hle].
  { unfold frag_stop in *. cbn zeta in *. fold h in Hne |- *. destruct (frag_more skb); lia. }
  right. split_and!; [done|done|]. set (f := mk_frag _ _ 0 ts). exists f.
  assert (data (fr_skb f) = frag_body skb) as Hbody.
  { cbn [fr_skb f]. rewrite trim_data; [done|]. unfold skb_len in *.
    cbn [fr_skb data update upd_data]. rewrite length_drop. lia. }
  split_and!; [done|done| |done|done].
  unfold fr_len, skb_len in *. rewrite Hbody. unfold frag_body. fold h. rewrite length_take, length_drop. lia.
Qed.

(** What [frag_enqueue] does: it fails on a corrupted fragment and on one without new
    bytes in front of the next fragments, or it inserts its bytes. *)
Lemma enqueue_cases q skb dev ts :
  queue_wf q →
  match frag_enqueue q skb dev ts, frag_position q skb with
  | (q', None), None => q' = q
  | (q', None), Some (q1, _, _, _) => q' = q1 ∧ queue_wf q1 ∧ 
      (ihl (skb_iph skb) * 4 <= skb_len skb →
       ∀ x, frag_start skb <= x < frag_stop skb → is_Some (byte_at (q_fragments q) x))
  | (q', Some d), Some (q1, _, _, _) => queue_wf q' ∧ same_queue q1 q' ∧
      ihl (skb_iph skb) * 4 <= skb_len skb ∧ frag_start skb < frag_stop skb ∧
      q_len q' = q_len q1 ∧ flag (q_last_in q') LAST_IN = flag (q_last_in q1) LAST_IN ∧
      sum_truesize (q_fragments q') = sum_truesize (q_fragments q) + d ∧
      let (front, back) := frag_split (frag_start skb) (q_fragments q) in
      ∀ x, byte_at (q_fragments q') x = merged front back (frag_start skb) (frag_body skb) x
  | (_, Some _), None => False
  end.
Proof.
  intros W0. pose proof (frag_position_spec q skb) as Hp.
  destruct (frag_position q skb) as [[[[q1 o] e] skb1]|] eqn:Ep.
  2: { unfold frag_enqueue. by rewrite Ep. }
  cbn zeta in Hp. destruct Hp as (_ & _ & _ & HS & _ & Hfr & Hmt & _).
  destruct (position_wf _ _ _ _ _ _ W0 Ep) as [W Hstop]. pose proof (frag_start_range skb) as (Ho0 & _ & _).
  destruct (enqueue_unfold q skb dev ts _ _ _ _ Ep) as [[-> Hno]|(Hs & Hlt & f & F1 & F2 & F3 & F4 & ->)].
  { split_and!; [done|done|]. intros Hh x. specialize (Hno Hh). lia. }
  pose proof (frag_insert_spec (frag_start skb) (frag_stop skb) f (q_fragments q1) (q_len q1)
    (qw_frags _ W) (qw_hdr _ W) ltac:(lia) Hstop F3) as Hi.
  rewrite Hfr in Hi |- *. destruct (frag_split (frag_start skb) (q_fragments q)) as [front back] eqn:Es.
  assert (q_fragments q = front ++ back) as Hsplit.
  { apply (frag_split_spec _ _ 0 (q_len q1) front back) in Es; [apply Es| |lia]. rewrite <- Hfr. apply W. }
  match type of Hi with ?P → _ => assert P as Hhd end.
  { intros _. rewrite F1. rewrite take_ihl by (done || unfold skb_len in Hs; lia).
    pose proof (ihl_range (data skb) 0). rewrite length_take. unfold skb_len in Hs. fold (skb_iph skb) in *. lia. }
  specialize (Hi Hhd).
  destruct (frag_insert _ _ f (q_fragments q)) as [[[[[front' f'] back'] cut] freed]|]; [|by split_and!].
  cbn zeta in Hi. destruct Hi as (I1 & I2 & I3 & I4 & I5 & I6). rewrite F4 in I4. rewrite F2 in I6.
  destruct (first_in_set (q_last_in q1) (fr_offset f') (qw_bits _ W)) as (L1 & L2 & L3 & L4).
  cbn zeta in *. set (li := if fr_offset f' =? 0 then _ else _) in *.
  split_and!; try done; [|cbn [q_fragments update upd_q_last_in upd_q_meat upd_q_iif upd_q_fragments]; lia].
  split; cbn [q_len q_fragments q_meat q_last_in update upd_q_len upd_q_fragments upd_q_meat upd_q_last_in upd_q_iif]; try done.
  - by rewrite I3, Hmt, (qw_meat _ W0).
  - rewrite L4, I5, I6, (qw_first _ W), Hfr, merged_Some, <- Hsplit.
    assert (Z.of_nat (length (frag_body skb)) = frag_stop skb - frag_start skb) as ->.
    { rewrite <- F2, <- F3. done. }
    split; (intros [?|?]; [by left|right; lia]).
Qed.

Lemma same_queue_refl q : same_queue q q.
Proof. by split. Qed.
Lemma same_queue_trans q q' q'' : same_queue q q' → same_queue q' q'' → same_queue q q''.
Proof. intros [] []. split; congruence. Qed.

(** Queueing any packet keeps the queue in order and its memory accounted for. *)
Lemma enqueue_wf q skb dev ts q' r : queue_wf q → frag_enqueue q skb dev ts = (q', r) →
  queue_wf q' ∧ same_queue q q' ∧
  sum_truesize (q_fragments q') = sum_truesize (q_fragments q) + default 0 r.
Proof.
  intros W E. pose proof (enqueue_cases q skb dev ts W) as H. rewrite E in H.
  pose proof (frag_position_spec q skb) as Hp.
  destruct r as [d|], (frag_position q skb) as [[[[q1 o] e] skb1]|]; try done.
  - destruct Hp as (_ & _ & _ & HS & _). destruct H as (? & ? & _ & _ & _ & _ & ? & _).
    split_and!; [done|by eapply same_queue_trans|done].
  - destruct Hp as (_ & _ & _ & HS & _ & Hfr & _). destruct H as (-> & ? & _).
    split_and!; [done|done|]. rewrite Hfr. simpl. lia.
  - subst q'. split_and!; [done|apply same_queue_refl|simpl; lia].
Qed.

(** ** Fragments of one datagram *)

(** [skb] carries a piece of the payload [P]. *)
Record is_fragment (P : list Z) (skb : sk_buff) : Prop := {
  if_hdr : ihl (skb_iph skb) * 4 < skb_len skb;
  if_body : drop (Z.to_nat (ihl (skb_iph skb) * 4)) (data skb)
            = take (Z.to_nat (skb_len skb - ihl (skb_iph skb) * 4)) (drop (Z.to_nat (frag_start skb)) P);
  if_last : frag_more skb = false ↔
            frag_start skb + (skb_len skb - ihl (skb_iph skb) * 4) = Z.of_nat (length P);
  if_eight : frag_more skb = true → (skb_len skb - ihl (skb_iph skb) * 4) mod 8 = 0 }.

Lemma is_fragment_stop P skb : is_fragment P skb →
  frag_stop skb = frag_start skb + (skb_len skb - ihl (skb_iph skb) * 4) ∧
  frag_start skb < frag_stop skb <= Z.of_nat (length P) ∧
  (frag_more skb = false ↔ frag_stop skb = Z.of_nat (length P)) ∧
  ∀ x b, (if frag_start skb <=? x then frag_body skb !! Z.to_nat (x - frag_start skb) else None) = Some b →
    P !! Z.to_nat x = Some b.
Proof.
  intros [H1 H2 H3 H4]. pose proof (frag_start_range skb) as (Ho & Ho8 & _).
  assert (0 < skb_len skb - ihl (skb_iph skb) * 4) as Hn by lia.
  set (n := skb_len skb - ihl (skb_iph skb) * 4) in *.
  assert (frag_stop skb = frag_start skb + n) as Hs.
  { unfold frag_stop. cbn zeta. destruct (frag_more skb); [|lia]. specialize (H4 eq_refl). lia. }
  assert (frag_start skb + n <= Z.of_nat (length P)) as Hle.
  { apply (f_equal length) in H2. rewrite length_drop, length_take, length_drop in H2.
    pose proof (ihl_range (data skb) 0). fold (skb_iph skb) in *. unfold n, skb_len in *. lia. }
  split; [done|]. split; [lia|]. split; [by rewrite Hs|].
  intros x b. destruct (Z.leb_spec (frag_start skb) x); [|done]. unfold frag_body. rewrite H2.
  rewrite lookup_take_Some, lookup_take_Some, lookup_drop. intros [[Hb _] _]. rewrite <- Hb. f_equal. lia.
Qed.

Record genuine (P : list Z) (q : ipq) : Prop := {
  ge_bytes : ∀ x b, byte_at (q_fragments q) x = Some b → P !! Z.to_nat x = Some b;
  ge_len : q_len q <= Z.of_nat (length P);
  ge_last : flag (q_last_in q) LAST_IN = true → q_len q = Z.of_nat (length P) }.

Lemma merged_genuine (P : list Z) front back off p x b :
  (∀ x b, byte_at (front ++ back) x = Some b → P !! Z.to_nat x = Some b) →
  (∀ x b, (if off <=? x then p !! Z.to_nat (x - off) else None) = Some b → P !! Z.to_nat x = Some b) →
  merged front back off p x = Some b → P !! Z.to_nat x = Some b.
Proof.
  intros Hl Hp. specialize (Hl x). rewrite byte_at_app in Hl. unfold merged.
  destruct (byte_at front x) as [c|]; [intros [= ->]; by apply Hl|].
  destruct (if off <=? x then _ else _) as [c|] eqn:E; [intros [= ->]; by apply Hp in E|apply Hl].
Qed.

(** Queueing a piece of [P] on a queue of pieces of [P] adds exactly its bytes. *)
Lemma enqueue_genuine P q skb dev ts q' r :
  queue_wf q → genuine P q → is_fragment P skb → frag_enqueue q skb dev ts = (q', r) →
  genuine P q' ∧
  (∀ x, is_Some (byte_at (q_fragments q') x) ↔
        is_Some (byte_at (q_fragments q) x) ∨ frag_start skb <= x < frag_stop skb) ∧
  (flag (q_last_in q') LAST_IN = true ↔ flag (q_last_in q) LAST_IN = true ∨ frag_more skb = false).
Proof.
  intros W [G1 G2 G3] HF E. destruct (is_fragment_stop P skb HF) as (Hs & Hr & Hm & Hb).
  pose proof (enqueue_cases q skb dev ts W) as H. rewrite E in H.
  pose proof (frag_position_spec q skb) as Hp. cbn zeta in Hp.
  destruct (frag_position q skb) as [[[[q1 o] e] skb1]|].
  2: { exfalso. destruct (frag_more skb); [destruct Hp as [Hl Hlt]; specialize (G3 Hl); lia|].
       assert (frag_stop skb = Z.of_nat (length P)) by (by apply Hm).
       destruct Hp as [?|[Hl Hne]]; [lia|]. specialize (G3 Hl). lia. }
  destruct Hp as (_ & _ & _ & _ & Hlen & Hfr & _).
  assert (q_len q1 <= Z.of_nat (length P) ∧ (flag (q_last_in q1) LAST_IN = true → q_len q1 = Z.of_nat (length P)) ∧
          (flag (q_last_in q1) LAST_IN = true ↔ flag (q_last_in q) LAST_IN = true ∨ frag_more skb = false))
    as (A1 & A2 & A3).
  { destruct (frag_more skb) eqn:Em.
    - destruct Hlen as (-> & -> & Hl). split_and!; [lia| |split; [by left|by intros [?|?]]].
      intros Hx. specialize (G3 Hx). specialize (Hl Hx). lia.
    - destruct Hlen as (-> & -> & ? & _). pose proof (proj1 Hm eq_refl).
      destruct (last_in_set (q_last_in q) LAST_IN (qw_bits _ W)) as (_ & Hx & _); [by right|].
      rewrite Hx. split_and!; [lia|lia|]. split; [by right|done]. }
  destruct r as [d|].
  - destruct H as (W' & _ & Hih & _ & B1 & B2 & _ & B3).
    destruct (frag_split (frag_start skb) (q_fragments q)) as [front back] eqn:Es.
    assert (q_fragments q = front ++ back) as Hsplit.
    { apply (frag_split_spec _ _ 0 (Z.max (q_len q) (frag_start skb)) front back) in Es; [apply Es| |lia].
      apply (frags_in_mono _ _ _ _ _ (qw_frags _ W)); lia. }
    rewrite Hsplit in G1. split_and!.
    + split; rewrite ?B1, ?B2; try done. intros x b. rewrite B3. by apply merged_genuine.
    + intros x. rewrite B3, merged_Some, <- Hsplit.
      replace (Z.of_nat (length (frag_body skb))) with (frag_stop skb - frag_start skb).
      { split; (intros [?|?]; [by left|right; lia]). }
      unfold frag_body. rewrite length_take, length_drop. destruct HF as [Hh _ _ _].
      pose proof (ihl_range (data skb) 0). fold (skb_iph skb) in *. unfold skb_len in *. lia.
    + by rewrite B2.
  - destruct H as (-> & W' & Hcov). split_and!; [|rewrite Hfr|done].
    + split; rewrite ?Hfr; done.
    + intros x. split; [by left|]. intros [?|Hx]; [done|]. apply Hcov; [|done]. destruct HF. lia.
Qed.

(** ** Completeness *)
Lemma covered_sum lo hi l : frags_in lo hi l →
  (∀ x, lo <= x < hi → is_Some (byte_at l x)) → sum_len l = hi - lo.
Proof.
  revert lo. induction l as [|f r IH]; intros lo Hl Hc; cbn [frags_in sum_len] in *.
  - destruct (decide (lo = hi)) as [->|]; [lia|]. destruct (Hc lo) as [b Hb]; [lia|done].
  - destruct Hl as (H1 & H2 & H3). pose proof (frags_in_le _ _ _ H3).
    assert (fr_offset f = lo) as Ho.
    { destruct (decide (fr_offset f = lo)) as [|Hne]; [done|]. exfalso.
      destruct (Hc lo) as [b Hb]; [unfold fr_end in *; lia|]. cbn [byte_at] in Hb.
      rewrite (proj2 (frag_at_None f lo)) in Hb by lia.
      pose proof (byte_at_range _ _ _ _ _ H3 Hb). unfold fr_end in *. lia. }
    rewrite (IH (fr_end f) H3); [unfold fr_end; lia|]. intros x Hx.
    destruct (Hc x) as [b Hb]; [unfold fr_end in *; lia|]. cbn [byte_at] in Hb.
    rewrite (proj2 (frag_at_None f x)) in Hb by lia. by eexists.
Qed.

Definition queue_full (q : ipq) : bool :=
  (q_last_in q =? Z.lor FIRST_IN LAST_IN) && (q_meat q =? q_len q).

Lemma full_flags x : 0 <= x < 8 →
  x = 3 ↔ flag x FIRST_IN = true ∧ flag x LAST_IN = true ∧ flag x COMPLETE = false.
Proof.
  intros Hx%last_in_cases.
  repeat (apply elem_of_cons in Hx as [->|Hx]); [..|by apply elem_of_nil in Hx].
  all: split; [by intros [=]|by intros (? & ? & ?)].
Qed.

Lemma queue_full_iff q : queue_wf q → flag (q_last_in q) COMPLETE = false → 0 < q_len q →
  queue_full q = true ↔ flag (q_last_in q) LAST_IN = true ∧
    ∀ x, 0 <= x < q_len q → is_Some (byte_at (q_fragments q) x).
Proof.
  intros W Hc Hl. unfold queue_full. change (Z.lor FIRST_IN LAST_IN) with 3.
  rewrite andb_true_iff, !Z.eqb_eq, (full_flags _ (qw_bits _ W)), (qw_meat _ W). split.
  - intros ((_ & H2 & _) & Hs). split; [done|]. intros x Hx.
    destruct (glue_full 0 (q_len q) _ (qw_frags _ W)) as (G1 & G2 & _); [lia|].
    rewrite G2 by lia. apply lookup_lt_is_Some. lia.
  - intros [H1 H2]. split_and!; [|done|done|].
    + apply (qw_first _ W). apply H2. lia.
    + rewrite (covered_sum _ _ _ (qw_frags _ W) H2). lia.
Qed.

(** A full queue of pieces of [P] is [P]. *)
Lemma full_payload P q : queue_wf q → genuine P q → flag (q_last_in q) COMPLETE = false →
  queue_full q = true → glue (q_fragments q) = P ∧ q_len q = Z.of_nat (length P) ∧
  ∃ f r, q_fragments q = f :: r ∧ fr_offset f = 0.
Proof.
  intros W [G1 G2 G3] Hc Hf. unfold queue_full in Hf. change (Z.lor FIRST_IN LAST_IN) with 3 in Hf.
  rewrite andb_true_iff, !Z.eqb_eq, (full_flags _ (qw_bits _ W)), (qw_meat _ W) in Hf.
  destruct Hf as ((H1 & H2 & _) & Hs). specialize (G3 H2).
  destruct (glue_full 0 (q_len q) _ (qw_frags _ W)) as (A1 & A2 & A3); [lia|].
  split_and!; [|done|].
  - apply (list_eq_same_length _ _ (length P)); [done|lia|]. intros i a b Hi Ha Hb.
    assert (byte_at (q_fragments q) (Z.of_nat i) = Some a) as Hx.
    { rewrite A2 by lia. rewrite <- Ha. f_equal. lia. }
    apply G1 in Hx. rewrite Nat2Z.id in Hx. congruence.
  - apply (qw_first _ W) in H1 as [b Hb]. destruct (q_fragments q) as [|f r]; [done|].
    exists f, r. split; [done|]. by apply (A3 f r).
Qed.

(** ** What is kept for every fragment of a queue *)

(** The memory of a fragment, and the header in front of the first one. *)
Definition frag_prop (H : list Z → Prop) (f : ipfrag) : Prop :=
  0 <= fr_truesize f ∧ (fr_offset f = 0 → H (fr_head f)).

Lemma cut_back_prop H e back r cut freed : 0 < e → Forall (frag_prop H) back →
  cut_back e back = Some (r, cut, freed) → Forall (frag_prop H) r.
Proof.
  intros He. revert r cut freed. induction back as [|f back IH]; intros r cut freed Hb; cbn [cut_back].
  - by intros [= <- <- <-].
  - pose proof Hb as [Hf Hr]%Forall_cons_iff. destruct (_ <? e); [|by intros [= <- <- <-]].
    destruct (_ <? _).
    + destruct (frag_pull _ f); [|done]. intros [= <- <- <-]. constructor; [|done].
      split; [apply Hf|]. cbn [fr_offset]. lia.
    + destruct (cut_back e back) as [[[r' c] fr]|]; [|done]. intros [= <- <- <-]. by apply (IH r' c fr).
Qed.

(** A new fragment passes through the cuts with its memory, and with its header when it
    starts the datagram. *)
Lemma frag_insert_prop H off e f l lo hi front f' back cut freed :
  frags_in lo hi l → off <= hi → 0 <= off < e → fr_len f = e - off →
  Forall (frag_prop H) l → 0 <= fr_truesize f → (off = 0 → H (fr_head f)) →
  frag_insert off e f l = Some (front, f', back, cut, freed) →
  Forall (frag_prop H) (front ++ f' :: back).
Proof.
  intros Hl Ho He Hf HQ Ht Hh. unfold frag_insert.
  destruct (frag_split off l) as [fr bk] eqn:Es.
  destruct (frag_split_spec off l lo hi fr bk Hl Ho Es) as (-> & _). apply Forall_app in HQ as [HQ1 HQ2].
  pose proof (cut_front_spec (list.last fr) off e f Hf ltac:(lia)) as Hc. cbn zeta in Hc.
  destruct (cut_front (list.last fr) off e f) as [[off' f1]|]; cbn [mbind option_bind]; [|done].
  destruct Hc as (-> & _ & Hts & _ & Hid).
  destruct (cut_back e bk) as [[[r c] fd]|] eqn:Eb; cbn [mbind option_bind]; [|done]. intros [= <- <- <- <- <-].
  apply Forall_app. split; [done|]. constructor; [|apply (cut_back_prop H e bk _ c fd); [lia|done..]].
  split; cbn [fr_truesize fr_offset fr_head]; [by rewrite Hts|].
  intros Hz. rewrite Hid by lia. apply Hh. lia.
Qed.

Lemma enqueue_prop H q skb dev ts q' r :
  queue_wf q → Forall (frag_prop H) (q_fragments q) → 0 <= ts →
  (frag_start skb = 0 → H (take (Z.to_nat (ihl (skb_iph skb) * 4)) (data skb))) →
  frag_enqueue q skb dev ts = (q', r) → Forall (frag_prop H) (q_fragments q').
Proof.
  intros W HQ Hts Hh E. pose proof (frag_position_spec q skb) as Hp.
  destruct (frag_position q skb) as [[[[q1 o] e] skb1]|] eqn:Ep; cbn zeta in Hp.
  2: { unfold frag_enqueue in E. rewrite Ep in E. by injection E as <- <-. }
  destruct Hp as (_ & _ & _ & _ & _ & Hfr & _). rewrite <- Hfr in HQ.
  destruct (position_wf _ _ _ _ _ _ W Ep) as [W1 Hstop]. pose proof (frag_start_range skb) as [Ho _].
  destruct (enqueue_unfold q skb dev ts _ _ _ _ Ep) as [[E' _]|(Hhl & Hlt & f & F1 & F2 & F3 & F4 & E')];
    rewrite E' in E; [by injection E as <- <-|].
  destruct (frag_insert _ _ f _) as [[[[[front f'] back] cut] freed]|] eqn:Ei; injection E as <- <-; [|done].
  apply (frag_insert_prop H (frag_start skb) (frag_stop skb) f (q_fragments q1) 0 (q_len q1) front f' back cut freed);
    [apply W1|lia|lia|done|done|by rewrite F4| |done].
  intros Hz. rewrite F1. by apply Hh.
Qed.
