(* ===== verification/IpFragTable.v ===== *)
(** * Reassembly: the table of queues

    [frag_inv] says that hash table, list of use and counters describe the same queues,
    each in order and referenced by table and timer alone.  Every operation keeps it, and
    each operation that ends a queue leaves the state [removed]. *)
From S2P Require Import Prelude Packet CtBase TcpTrack CtProtos Conntrack NatProto NatHelper IpFrag IpFragFacts.
From stdpp Require Import fin_maps fin_sets.
#[local] Open Scope Z_scope.

(** ** The invariant *)
Definition q_key (q : ipq) : Z * Z * Z * Z * Z :=
  (q_user q, q_saddr q, q_daddr q, q_id q, q_protocol q).
Definition pkt_key (d : list Z) (user : Z) : Z * Z * Z * Z * Z :=
  (user, saddr (iphdr_at d 0), daddr (iphdr_at d 0), ip_id d, protocol (iphdr_at d 0)).

(** The memory of a queue, and of all. *)
Definition q_cost (sz : Z) (q : ipq) : Z := sum_truesize (q_fragments q) + sz.
Definition q_costs (sz : Z) (m : gmap positive ipq) : Z := map_fold (λ _ q acc, q_cost sz q + acc) 0 m.

Record queue_inv (s : frag_state) (q : ipq) : Prop := {
  qi_wf : queue_wf q;
  qi_open : flag (q_last_in q) COMPLETE = false;
  qi_ref : q_refcnt q = 2;
  qi_timer : pending (q_timer q) = true;
  qi_size : Forall (λ f, 0 <= fr_truesize f) (q_fragments q);
  qi_peer : ∀ a, q_peer q = Some a → is_Some (peers s !! a) }.

Record frag_inv (sz : Z) (s : frag_state) : Prop := {
  fi_queue : ∀ p q, queues s !! p = Some q → queue_inv s q;
  fi_bucket : ∀ h p, p ∈ bucket s h ↔ ∃ q, queues s !! p = Some q ∧ q_hash (ipfrag_hash_rnd s) q = h;
  fi_nodup : ∀ h, NoDup (bucket s h);
  fi_lru : ∀ p, p ∈ ipq_lru_list s ↔ is_Some (queues s !! p);
  fi_lru_nodup : NoDup (ipq_lru_list s);
  fi_count : ip_frag_nqueues s = Z.of_nat (size (queues s));
  fi_mem : ip_frag_mem s = q_costs sz (queues s);
  fi_key : ∀ p p' q q', queues s !! p = Some q → queues s !! p' = Some q' → q_key q = q_key q' → p = p' }.

Definition frag_init (rnd : Z) : frag_state := mk_fs ∅ ∅ [] 0 0 rnd ∅.

Lemma frag_init_inv sz rnd : frag_inv sz (frag_init rnd).
Proof.
  split; cbn [queues ipq_lru_list ip_frag_nqueues ip_frag_mem frag_init]; try done.
  - intros h p. unfold bucket. simpl. split; [by intros []%elem_of_nil|by intros (q & ? & _)].
  - intros h. constructor.
  - intros p. split; [by intros []%elem_of_nil|by intros [? ?]].
  - constructor.
Qed.

(** ** Memory of all queues *)
Lemma q_costs_insert sz m p q : m !! p = None → q_costs sz (<[p := q]> m) = q_cost sz q + q_costs sz m.
Proof. intros Hp. unfold q_costs. rewrite map_fold_insert_L; [done| |done]. intros; lia. Qed.
Lemma q_costs_delete sz m p q : m !! p = Some q → q_costs sz m = q_cost sz q + q_costs sz (delete p m).
Proof. intros Hp. unfold q_costs. rewrite (map_fold_delete_L _ _ p q); [done| |done]. intros; lia. Qed.
Lemma q_costs_update sz m p q q' : m !! p = Some q →
  q_costs sz (<[p := q']> m) = q_costs sz m - q_cost sz q + q_cost sz q'.
Proof.
  intros Hp. rewrite (q_costs_delete sz m p q Hp), <- insert_delete_eq.
  rewrite q_costs_insert by (by rewrite lookup_delete_eq). lia.
Qed.

Lemma q_costs_nonneg sz m : 0 <= sz →
  (∀ p q, m !! p = Some q → Forall (λ f, 0 <= fr_truesize f) (q_fragments q)) → 0 <= q_costs sz m.
Proof.
  intros Hsz. induction m as [|p q m Hp IH] using map_ind; intros Hm; [done|].
  rewrite q_costs_insert by done.
  assert (0 <= sum_truesize (q_fragments q)) as Hs.
  { specialize (Hm p q ltac:(by rewrite lookup_insert_eq)). clear IH.
    induction Hm as [|f l Hf _ IHl]; [done|]. rewrite sum_truesize_cons. lia. }
  assert (0 <= q_costs sz m); [|unfold q_cost; lia]. apply IH. intros p' q' Hp'.
  apply (Hm p'). rewrite lookup_insert_ne; [done|]. intros ->. congruence.
Qed.

(** ** The end of a queue *)
Definition removed (sz : Z) (p : positive) (q : ipq) (s : frag_state) : frag_state :=
  mk_fs (delete p (queues s)) (filter (λ r, r ≠ p) <$> ipq_hash s)
    (filter (λ r, r ≠ p) (ipq_lru_list s)) (ip_frag_nqueues s - 1)
    (ip_frag_mem s - q_cost sz q) (ipfrag_hash_rnd s) (peers s).

Lemma bucket_filter (p : positive) (m : gmap Z (list positive)) (h : Z) :
  default [] ((filter (λ r, r ≠ p) <$> m) !! h) = filter (λ r, r ≠ p) (default [] (m !! h)).
Proof. rewrite lookup_fmap. by destruct (m !! h). Qed.

Lemma removed_inv sz p q s : frag_inv sz s → queues s !! p = Some q → frag_inv sz (removed sz p q s).
Proof.
  intros [I1 I2 I3 I4 I5 I6 I7 I8] Hp.
  split; unfold removed, bucket; cbn [queues ipq_hash ipq_lru_list ip_frag_nqueues ip_frag_mem ipfrag_hash_rnd peers].
  - intros r qr [_ Hr]%lookup_delete_Some. destruct (I1 r qr Hr). by split.
  - intros h r. rewrite bucket_filter, list_elem_of_filter. fold (bucket s h). rewrite I2.
    setoid_rewrite lookup_delete_Some. naive_solver.
  - intros h. rewrite bucket_filter. apply NoDup_filter, I3.
  - intros r. rewrite list_elem_of_filter, I4, lookup_delete_is_Some. naive_solver.
  - by apply NoDup_filter.
  - rewrite map_size_delete_Some by (by exists q). rewrite I6.
    assert (size (queues s) ≠ 0%nat); [|lia]. intros Hz%map_size_empty_inv. by rewrite Hz in Hp.
  - rewrite I7, (q_costs_delete sz _ p q Hp). lia.
  - intros r r' qr qr' [_ Hr]%lookup_delete_Some [_ Hr']%lookup_delete_Some. by apply I8.
Qed.

(** The state after [ipq_kill], for any queue that is not complete. *)
Lemma kill_eq p q s : queues s !! p = Some q → flag (q_last_in q) COMPLETE = false →
  ipq_kill p s = mk_fs
    (<[p := q <| q_timer := (q_timer q) <| pending := false |> |>
              <| q_refcnt := q_refcnt q - (if pending (q_timer q) then 2 else 1) |>
              <| q_last_in := Z.lor (q_last_in q) COMPLETE |>]> (queues s))
    (filter (λ r, r ≠ p) <$> ipq_hash s) (filter (λ r, r ≠ p) (ipq_lru_list s))
    (ip_frag_nqueues s - 1) (ip_frag_mem s) (ipfrag_hash_rnd s) (peers s).
Proof.
  intros Hp Hc. unfold ipq_kill. cbn zeta. cbn [queues update upd_queues upd_queue].
  rewrite lookup_alter_eq, Hp. cbn [fmap option_fmap option_map].
  destruct (pending (q_timer q)) eqn:Et; cbn [q_last_in update upd_q_refcnt upd_q_timer]; rewrite Hc.
  all: unfold upd_queue, __ipq_unlink, hlist_del, update, upd_queues, upd_ipq_hash, upd_ipq_lru_list, upd_ip_frag_nqueues.
  all: cbn [queues ipq_hash ipq_lru_list ip_frag_nqueues ip_frag_mem ipfrag_hash_rnd peers]; f_equal.
  all: apply map_eq; intros r; destruct (decide (r = p)) as [->|Hr];
    [rewrite !lookup_alter_eq, lookup_insert_eq, Hp|by rewrite !lookup_alter_ne, lookup_insert_ne].
  all: cbn [fmap option_fmap option_map]; f_equal; destruct q as [x1 x2 x3 x4 x5 x6 x7 x8 x9 x10 [b e] x12 x13 x14].
  all: unfold update, upd_q_timer, upd_q_refcnt, upd_q_last_in, upd_pending.
  all: cbn [q_user q_saddr q_daddr q_id q_protocol q_last_in q_fragments q_len q_meat q_refcnt q_timer q_iif q_rid q_peer pending expires] in *.
  all: subst b; cbn [q_user q_saddr q_daddr q_id q_protocol q_last_in q_fragments q_len q_meat q_refcnt q_timer q_iif q_rid q_peer pending expires]; f_equal; lia.
Qed.

(** Dropping the last reference of a killed queue. *)
Lemma put_last env p q m hsh lru n mem rnd pe sz : m !! p = Some q → q_refcnt q = 1 → e_sizeof_ipq env = sz →
  ipq_put env p (mk_fs m hsh lru n mem rnd pe)
  = (mk_fs (delete p m) hsh lru n (mem - q_cost sz q) rnd pe, q_cost sz q).
Proof.
  intros Hp Hr <-. unfold ipq_put. cbn zeta. cbn [queues update upd_queues upd_queue].
  rewrite lookup_alter_eq, Hp. cbn [fmap option_fmap option_map q_refcnt update upd_q_refcnt].
  rewrite Hr. unfold ip_frag_destroy. cbn [queues Z.sub Z.eqb Z.opp Z.add Z.pos_sub].
  unfold upd_queue, update, upd_queues. cbn [queues ipq_hash ipq_lru_list ip_frag_nqueues ip_frag_mem ipfrag_hash_rnd peers].
  rewrite lookup_alter_eq, Hp. cbn [fmap option_fmap option_map]. unfold q_cost. f_equal. 
  unfold upd_ip_frag_mem. cbn [queues ipq_hash ipq_lru_list ip_frag_nqueues ip_frag_mem ipfrag_hash_rnd peers]. f_equal.
  apply map_eq. intros r. destruct (decide (r = p)) as [->|Hn]; [by rewrite !lookup_delete_eq|].
  by rewrite !lookup_delete_ne, lookup_alter_ne.
Qed.

#[local] Ltac q_cbn := unfold update, upd_q_timer, upd_q_refcnt, upd_q_last_in, upd_q_rid, upd_q_fragments,
    upd_q_len, upd_q_meat, upd_q_iif, upd_pending;
  cbn [q_user q_saddr q_daddr q_id q_protocol q_last_in q_fragments q_len q_meat q_refcnt q_timer q_iif q_rid
       q_peer pending expires].
#[local] Ltac s_cbn := unfold upd_queue, update, upd_queues, upd_ipq_hash, upd_ipq_lru_list, upd_ip_frag_nqueues,
    upd_ip_frag_mem, upd_ipfrag_hash_rnd, upd_peers;
  cbn [queues ipq_hash ipq_lru_list ip_frag_nqueues ip_frag_mem ipfrag_hash_rnd peers].

Lemma alter_insert (m : gmap positive ipq) p f q : m !! p = Some q → alter f p m = <[p := f q]> m.
Proof.
  intros Hp. apply map_eq. intros r. destruct (decide (r = p)) as [->|Hr].
  - by rewrite lookup_alter_eq, lookup_insert_eq, Hp.
  - by rewrite lookup_alter_ne, lookup_insert_ne.
Qed.

Lemma upd_queue_eq p f q s : queues s !! p = Some q →
  upd_queue p f s = s <| queues := <[p := f q]> (queues s) |>.
Proof. intros Hp. unfold upd_queue. by rewrite (alter_insert _ _ _ q). Qed.

(** Killing a queue with one more reference than table and timer hold, and dropping
    that reference, ends it, whatever became of its other fields. *)
Lemma kill_put env sz p q s q' m mem pe :
  m = <[p := q']> (queues s) → flag (q_last_in q') COMPLETE = false → e_sizeof_ipq env = sz →
  q_refcnt q' = (if pending (q_timer q') then 3 else 2) →
  mem - q_cost sz q' = ip_frag_mem s - q_cost sz q →
  ipq_put env p (ipq_kill p (mk_fs m (ipq_hash s) (ipq_lru_list s) (ip_frag_nqueues s) mem
                               (ipfrag_hash_rnd s) pe))
  = (removed sz p q (s <| peers := pe |>), q_cost sz q').
Proof.
  intros -> Hc Hsz Hr Hm. rewrite (kill_eq p q') by (s_cbn; by rewrite ?lookup_insert_eq).
  s_cbn. rewrite (put_last env p _ _ _ _ _ _ _ _ sz (lookup_insert_eq _ _ _)).
  2: { q_cbn. destruct (pending (q_timer q')); lia. }
  2: done.
  unfold removed. s_cbn. f_equal. f_equal; [|unfold q_cost in *; q_cbn; lia].
  by rewrite insert_insert_eq, delete_insert_eq.
Qed.

(** One turn of the evictor. *)
Lemma evict_turn env p q s : queue_inv s q → queues s !! p = Some q →
  (let s := upd_queue p (λ q, q <| q_refcnt := q_refcnt q + 1 |>) s in
   let s := match queues s !! p with
            | Some q => if flag (q_last_in q) COMPLETE then s else ipq_kill p s
            | None => s
            end in
   ipq_put env p s) = (removed (e_sizeof_ipq env) p q s, q_cost (e_sizeof_ipq env) q).
Proof.
  intros [W1 W2 W3 W4 _ _] Hp. cbn zeta. rewrite (upd_queue_eq _ _ q) by done.
  s_cbn. rewrite lookup_insert_eq. q_cbn. rewrite W2.
  rewrite (kill_put env (e_sizeof_ipq env) p q s _ _ _ (peers s) eq_refl); q_cbn; [by destruct s|done|done| |done].
  rewrite W4. lia.
Qed.

Lemma evictor_spec env sz fuel : 0 <= sz → e_sizeof_ipq env = sz → ∀ work s,
  frag_inv sz s → (length (ipq_lru_list s) < fuel)%nat → work = ip_frag_mem s - sysctl_ipfrag_low_thresh env →
  ∃ s', ip_evictor_loop fuel env work s = Some s' ∧ frag_inv sz s' ∧ queues s' ⊆ queues s ∧
    peers s' = peers s ∧
    (ip_frag_mem s' <= sysctl_ipfrag_low_thresh env ∨ ip_frag_mem s' = 0).
Proof.
  intros Hsz Hs. induction fuel as [|fuel IH]; intros work s HI Hl ->; [lia|]. cbn [ip_evictor_loop].
  destruct (Z.leb_spec (ip_frag_mem s - sysctl_ipfrag_low_thresh env) 0).
  { exists s. split_and!; try done. left. lia. }
  destruct (ipq_lru_list s) as [|p l] eqn:El.
  { exists s. split_and!; try done. right. rewrite (fi_mem _ _ HI).
    assert (queues s = ∅) as ->; [|done]. apply map_empty. intros p. apply eq_None_not_Some.
    rewrite <- (fi_lru _ _ HI), El. apply not_elem_of_nil. }
  destruct (proj1 (fi_lru _ _ HI p)) as [q Hq]; [rewrite El; set_solver|].
  pose proof (fi_queue _ _ HI p q Hq) as HQ. pose proof (evict_turn env p q s HQ Hq) as Ht.
  cbn zeta in Ht |- *. rewrite Ht, Hs.
  destruct (IH (ip_frag_mem (removed sz p q s) - sysctl_ipfrag_low_thresh env) (removed sz p q s))
    as (s' & E & I1 & I2 & I3 & I4).
  - by apply removed_inv.
  - unfold removed. s_cbn. rewrite El. pose proof (fi_lru_nodup _ _ HI) as Hn. rewrite El in Hn.
    rewrite filter_cons_False by (intros Hx; by apply Hx). cbn [length] in Hl.
    pose proof (length_filter (λ r, r ≠ p) l). lia.
  - done.
  - exists s'. split_and!; try done.
    + rewrite <- E. f_equal. unfold removed. s_cbn. lia.
    + etrans; [exact I2|]. unfold removed. s_cbn. apply delete_subseteq.
Qed.

Lemma expire_eq env sz p q s : e_sizeof_ipq env = sz → queue_inv s q → queues s !! p = Some q →
  (ip_expire env p (upd_queue p (λ q, q <| q_timer := (q_timer q) <| pending := false |> |>) s)).2
  = removed sz p q s.
Proof.
  intros Hs [W1 W2 W3 W4 _ _] Hp. unfold ip_expire. rewrite (upd_queue_eq _ _ q) by done.
  s_cbn. rewrite lookup_insert_eq. q_cbn. rewrite W2. cbn [snd].
  rewrite (kill_put env sz p q s _ _ _ (peers s) eq_refl); q_cbn; [by destruct s|done|done|done|done].
Qed.

(** ** A change of one queue, and a new queue *)
Definition stored (p : positive) (q : ipq) (lru : list positive) (mem : Z) (pe : gmap Z Z)
    (s : frag_state) : frag_state :=
  mk_fs (<[p := q]> (queues s)) (ipq_hash s) lru (ip_frag_nqueues s) mem (ipfrag_hash_rnd s) pe.

Definition peers_grow (pe pe' : gmap Z Z) : Prop := ∀ a, is_Some (pe !! a) → is_Some (pe' !! a).

Lemma queue_inv_peers s s' q : peers_grow (peers s) (peers s') → queue_inv s q → queue_inv s' q.
Proof. intros Hg [W1 W2 W3 W4 W5 W6]. split; try done. intros a Ha. by apply Hg, W6. Qed.

Lemma same_key_hash rnd q q' : q_key q' = q_key q → q_hash rnd q' = q_hash rnd q.
Proof. unfold q_key, q_hash. by intros [= _ -> -> -> ->]. Qed.

Lemma stored_inv sz p q q' lru pe s :
  frag_inv sz s → queues s !! p = Some q → q_key q' = q_key q →
  queue_inv (s <| peers := pe |>) q' → peers_grow (peers s) pe →
  (∀ r, r ∈ lru ↔ r ∈ ipq_lru_list s) → NoDup lru →
  frag_inv sz (stored p q' lru (ip_frag_mem s - q_cost sz q + q_cost sz q') pe s).
Proof.
  intros [I1 I2 I3 I4 I5 I6 I7 I8] Hp Hk HQ Hg Hl Hn.
  assert (∀ r qr, <[p := q']> (queues s) !! r = Some qr → ∃ q0, queues s !! r = Some q0 ∧ q_key qr = q_key q0) as Hold.
  { intros r qr. destruct (decide (r = p)) as [->|Hr].
    - rewrite lookup_insert_eq. intros [= <-]. by exists q.
    - rewrite lookup_insert_ne by done. by exists qr. }
  split; unfold stored, bucket; s_cbn.
  - intros r qr. destruct (decide (r = p)) as [->|Hr].
    + rewrite lookup_insert_eq. intros [= <-]. apply (queue_inv_peers (s <| peers := pe |>)); [by intros a|done].
    + rewrite lookup_insert_ne by done. intros Hq. apply (queue_inv_peers s); [done|]. by apply (I1 r).
  - intros h r. fold (bucket s h). rewrite I2. destruct (decide (r = p)) as [->|Hr].
    + rewrite lookup_insert_eq, Hp. pose proof (same_key_hash (ipfrag_hash_rnd s) _ _ Hk). naive_solver.
    + by rewrite lookup_insert_ne.
  - apply I3.
  - intros r. rewrite Hl, I4. destruct (decide (r = p)) as [->|Hr].
    + rewrite lookup_insert_eq, Hp. split; intros _; by eexists.
    + by rewrite lookup_insert_ne by done.
  - done.
  - rewrite I6, map_size_insert_Some; [done|by exists q].
  - rewrite (q_costs_update sz _ p q q' Hp), I7. lia.
  - intros r r' qr qr' (q0 & H0 & K0)%Hold (q1 & H1 & K1)%Hold Hkey.
    apply (I8 r r' q0 q1 H0 H1). congruence.
Qed.

Definition added (sz : Z) (p : positive) (q : ipq) (pe : gmap Z Z) (s : frag_state) : frag_state :=
  let h := q_hash (ipfrag_hash_rnd s) q in
  mk_fs (<[p := q]> (queues s)) (<[h := p :: bucket s h]> (ipq_hash s)) (ipq_lru_list s ++ [p])
    (ip_frag_nqueues s + 1) (ip_frag_mem s + sz) (ipfrag_hash_rnd s) pe.

Lemma added_inv sz p q pe s :
  frag_inv sz s → queues s !! p = None → q_fragments q = [] →
  queue_inv (s <| peers := pe |>) q → peers_grow (peers s) pe →
  (∀ r qr, queues s !! r = Some qr → q_key qr ≠ q_key q) →
  frag_inv sz (added sz p q pe s).
Proof.
  intros [I1 I2 I3 I4 I5 I6 I7 I8] Hp Hf HQ Hg Hk. set (h0 := q_hash (ipfrag_hash_rnd s) q).
  assert (∀ h, bucket (added sz p q pe s) h = if decide (h = h0) then p :: bucket s h else bucket s h) as Hb.
  { intros h. unfold bucket, added. s_cbn. fold h0. destruct (decide (h = h0)) as [->|Hh].
    - by rewrite lookup_insert_eq.
    - by rewrite lookup_insert_ne. }
  assert (∀ h, p ∉ bucket s h) as Hpb by (intros h (x & Hx & _)%I2; congruence).
  split; try (intros h; rewrite Hb); unfold added; s_cbn.
  - intros r qr. destruct (decide (r = p)) as [->|Hr].
    + rewrite lookup_insert_eq. intros [= <-]. apply (queue_inv_peers (s <| peers := pe |>)); [by intros a|done].
    + rewrite lookup_insert_ne by done. intros Hq. apply (queue_inv_peers s); [done|]. by apply (I1 r).
  - intros r. destruct (decide (r = p)) as [->|Hr].
    + rewrite lookup_insert_eq. destruct (decide (h = h0)) as [->|Hh].
      * split; [by exists q|set_solver].
      * split; [by intros ?%Hpb|]. intros (x & [= <-] & Hx). unfold h0 in Hh. congruence.
    + rewrite lookup_insert_ne by done. rewrite <- I2. destruct (decide (h = h0)); [|done]. set_solver.
  - destruct (decide (h = h0)) as [->|Hh]; [|apply I3]. constructor; [apply Hpb|apply I3].
  - intros r. rewrite elem_of_app, list_elem_of_singleton, I4. destruct (decide (r = p)) as [->|Hr].
    + rewrite lookup_insert_eq. split; [by eexists|by right].
    + rewrite lookup_insert_ne by done. split; [by intros [?|?]|by left].
  - apply NoDup_app. split_and!; [done| |apply NoDup_singleton].
    intros r Hr ->%list_elem_of_singleton. apply I4 in Hr as [? ?]. congruence.
  - rewrite I6, map_size_insert_None by done. lia.
  - rewrite q_costs_insert, I7 by done. unfold q_cost. rewrite Hf. change (sum_truesize []) with 0. lia.
  - intros r r' qr qr'. destruct (decide (r = p)) as [->|Hr], (decide (r' = p)) as [->|Hr'];
      rewrite ?lookup_insert_eq, ?lookup_insert_ne by done; try done.
    + intros [= <-] Hq' He. by destruct (Hk r' qr' Hq').
    + intros Hq [= <-] He. by destruct (Hk r qr Hq).
    + apply I8.
Qed.

(** ** Lookup *)
Definition held (q : ipq) : ipq := q <| q_refcnt := q_refcnt q + 1 |>.

Lemma ipq_matches_key d user q : ipq_matches d user q = true ↔ q_key q = pkt_key d user.
Proof.
  unfold ipq_matches, q_key, pkt_key. cbn zeta. rewrite !andb_true_iff, !Z.eqb_eq. split.
  - intros ((((-> & ->) & ->) & ->) & ->). done.
  - by intros [= -> -> -> -> ->].
Qed.

(** A queue as [ip_frag_create] makes it. *)
Record empty_queue (q : ipq) : Prop := {
  eq_frags : q_fragments q = []; eq_len : q_len q = 0; eq_last : q_last_in q = 0 }.

Lemma empty_wf q : q_fragments q = [] → q_len q = 0 → q_meat q = 0 → q_last_in q = 0 → queue_wf q.
Proof.
  intros Hf Hl Hm Hi. split; rewrite ?Hf, ?Hl, ?Hm, ?Hi; cbn [frags_in sum_len byte_at]; try done.
Qed.

Lemma fresh_queue_inv s q : q_fragments q = [] → q_len q = 0 → q_meat q = 0 → q_last_in q = 0 →
  q_refcnt q = 2 → pending (q_timer q) = true → (∀ a, q_peer q = Some a → is_Some (peers s !! a)) →
  queue_inv s q.
Proof.
  intros Hf Hl Hm Hi Hr Ht Hp. split; [by apply empty_wf|by rewrite Hi|done|done|by rewrite Hf|done].
Qed.

Lemma find_spec env sz d user s r s' : frag_inv sz s → e_sizeof_ipq env = sz →
  ip_find env d user s = (r, s') →
  match r with
  | None => e_queue_ok env = false ∧ s' = s ∧ (∀ p q, queues s !! p = Some q → q_key q ≠ pkt_key d user)
  | Some p => ∃ s0 q, frag_inv sz s0 ∧ queues s0 !! p = Some q ∧ q_key q = pkt_key d user ∧
      s' = upd_queue p held s0 ∧
      (s0 = s ∨
       (∀ p q, queues s !! p = Some q → q_key q ≠ pkt_key d user) ∧ queues s !! p = None ∧
       (∃ pe, s0 = added sz p q pe s ∧ peers s ⊆ pe) ∧ empty_queue q)
  end.
Proof.
  intros HI Hsz. unfold ip_find. cbn zeta.
  set (h := ipqhashfn _ _ _ _ _).
  destruct (list_find _ (bucket s h)) as [[i p]|] eqn:Ef.
  - intros E. injection E as <- <-. apply list_find_Some in Ef as (Hl & Hm%Is_true_eq_true & _).
    apply list_elem_of_lookup_2, (fi_bucket _ _ HI) in Hl as (q & Hq & _).
    rewrite Hq in Hm. apply ipq_matches_key in Hm.
    exists s, q. split_and!; try done. by left.
  - assert (∀ p q, queues s !! p = Some q → q_key q ≠ pkt_key d user) as Hno.
    { intros p q Hq Hk. rewrite list_find_None, Forall_forall in Ef. apply (Ef p).
      - apply (fi_bucket _ _ HI). exists q. split; [done|]. unfold h, q_hash.
        unfold q_key, pkt_key in Hk. by injection Hk as _ -> -> -> ->.
      - rewrite Hq. by apply Is_true_eq_left, ipq_matches_key. }
    unfold ip_frag_create. destruct (e_queue_ok env); cbn [negb]; [|intros E; by injection E as <- <-].
    set (p := fresh _). assert (queues s !! p = None) as Hp.
    { apply not_elem_of_dom. apply is_fresh. }
    set (s1 := s <| ip_frag_mem := _ |>).
    destruct (if negb (sysctl_ipfrag_max_dist env =? 0) then _ else _) as [peer s2] eqn:Eg.
    assert (∃ pe, s2 = s1 <| peers := pe |> ∧ peers s ⊆ pe ∧
                  ∀ a, peer = Some a → is_Some (pe !! a)) as (pe & -> & Hsub & Hpe).
    { destruct (negb _); [|injection Eg as <- <-; by exists (peers s)].
      unfold inet_getpeer in Eg. destruct (peers s1 !! _) eqn:Epe.
      - injection Eg as <- <-. exists (peers s). split_and!; [done|done|]. intros a [= <-]. by eexists.
      - destruct (e_peer_ok env); injection Eg as <- <-; [|by exists (peers s)].
        eexists. split_and!; [done|by apply insert_subseteq|].
        intros a [= <-]. rewrite lookup_insert_eq. by eexists. }
    assert (peers_grow (peers s) pe) as Hg.
    { intros a [x Hx]. exists x. by apply (lookup_weaken _ _ _ _ Hx). }
    intros E. injection E as <- <-. set (q0 := mk_ipq _ _ _ _ _ 0 [] 0 0 1 _ 0 _ peer).
    set (q := q0 <| q_refcnt := 2 |> <| q_timer := mk_timer true (u32 (e_jiffies env + sysctl_ipfrag_time env)) |>).
    exists (added sz p q pe s), q. split_and!.
    + apply added_inv; try done. by apply fresh_queue_inv.
    + unfold added. s_cbn. apply lookup_insert_eq.
    + done.
    + unfold ip_frag_intern, hlist_add_head, added. cbn zeta.
      rewrite (upd_queue_eq _ _ q0) by (s_cbn; apply lookup_insert_eq).
      rewrite (upd_queue_eq _ _ q) by (s_cbn; apply lookup_insert_eq).
      assert (q_hash (ipfrag_hash_rnd s) q = h) as -> by reflexivity.
      unfold bucket, s1. s_cbn. rewrite !insert_insert_eq, Hsz. reflexivity.
    + right. split_and!; try done. by exists pe.
Qed.

(** ** Queueing in the table *)
Definition emptied (env : frag_env) (q : ipq) : ipq :=
  q <| q_timer := mk_timer true (u32 (e_jiffies env + sysctl_ipfrag_time env)) |>
    <| q_last_in := 0 |> <| q_len := 0 |> <| q_meat := 0 |> <| q_fragments := [] |> <| q_iif := 0 |>.

(** [ip_frag_too_far] and [ip_frag_reinit]: the queue and the peers after them. *)
Definition too_far (env : frag_env) (e : Z) (q : ipq) : bool :=
  bool_decide (q_fragments q ≠ []) && (sysctl_ipfrag_max_dist env <? u32 (e - q_rid q)).

Definition aged (env : frag_env) (complete : bool) (s : frag_state) (q : ipq) : ipq * gmap Z Z :=
  match q_peer q with
  | Some a =>
      if complete || (sysctl_ipfrag_max_dist env =? 0) then (q, peers s)
      else
        let e := u32 (default 0 (peers s !! a) + 1) in
        let q' := q <| q_rid := e |> in
        (if too_far env e q then emptied env q' else q', <[a := e]> (peers s))
  | None => (q, peers s)
  end.

(** A queue during [ip_defrag]: three references. *)
Record busy_queue (pe : gmap Z Z) (q : ipq) : Prop := {
  bq_wf : queue_wf q;
  bq_open : flag (q_last_in q) COMPLETE = false;
  bq_ref : q_refcnt q = 3;
  bq_timer : pending (q_timer q) = true;
  bq_size : Forall (λ f, 0 <= fr_truesize f) (q_fragments q);
  bq_peer : ∀ a, q_peer q = Some a → is_Some (pe !! a) }.

Lemma held_busy s q : queue_inv s q → busy_queue (peers s) (held q).
Proof. intros [[] W2 W3 W4 W5 W6]. split; try done. unfold held. q_cbn. lia. Qed.

Lemma emptied_wf env q : queue_wf (emptied env q).
Proof. by apply empty_wf. Qed.

Lemma aged_spec env complete s q : busy_queue (peers s) q →
  let '(q', pe) := aged env complete s q in
  busy_queue pe q' ∧ q_key q' = q_key q ∧ q_peer q' = q_peer q ∧ peers_grow (peers s) pe ∧
  (q_fragments q' = q_fragments q ∧ q_len q' = q_len q ∧ q_last_in q' = q_last_in q ∨ empty_queue q').
Proof.
  intros B. unfold aged. destruct (q_peer q) as [a|] eqn:Ea.
  2: { split_and!; try done; [by intros b|by left]. }
  destruct (complete || _). { split_and!; try done; [by intros b|by left]. }
  set (e := u32 _).
  assert (peers_grow (peers s) (<[a := e]> (peers s))) as Hg.
  { intros b [x Hx]. destruct (decide (b = a)) as [->|Hb]; [rewrite lookup_insert_eq; by eexists|].
    rewrite lookup_insert_ne by done. by exists x. }
  destruct B as [B1 B2 B3 B4 B5 B6]. cbn zeta. destruct (too_far env e q).
  - split_and!; try done; [|by right]. split; try done; [apply emptied_wf|by intros b Hb; apply Hg, B6].
  - split_and!; try done; [|by left]. split; try done; [destruct B1; by split|by intros b Hb; apply Hg, B6].
Qed.

Lemma reinit_eq env p q s : queues s !! p = Some q → pending (q_timer q) = true →
  ip_frag_reinit env p s
  = (true, upd_queue p (λ _, emptied env q)
             (s <| ip_frag_mem := ip_frag_mem s - sum_truesize (q_fragments q) |>)).
Proof. intros Hq Ht. unfold ip_frag_reinit. rewrite Hq. unfold q_mod_timer. by rewrite Ht. Qed.

Lemma queue_op env p skb complete dev ts sz s q : frag_inv sz s → queues s !! p = Some q →
  let '(q1, pe) := aged env complete s (held q) in
  let '(q2, r) := frag_enqueue q1 skb dev ts in
  ip_frag_queue env p skb complete dev ts (upd_queue p held s)
  = stored p q2 (match r with Some _ => filter (λ r, r ≠ p) (ipq_lru_list s) ++ [p] | None => ipq_lru_list s end)
      (ip_frag_mem s - sum_truesize (q_fragments q) + sum_truesize (q_fragments q1) + default 0 r) pe s.
Proof.
  intros HI Hp. pose proof (held_busy _ _ (fi_queue _ _ HI p q Hp)) as HB.
  destruct (aged env complete s (held q)) as [q1 pe] eqn:Ea.
  destruct (frag_enqueue q1 skb dev ts) as [q2 r] eqn:Ee.
  unfold ip_frag_queue. rewrite (upd_queue_eq _ _ q) by done. cbn [queues update upd_queues].
  rewrite lookup_insert_eq, (bq_open _ _ HB).
  set (r0 := if complete then _ else _).
  assert (r0 = (true, mk_fs (<[p := q1]> (queues s)) (ipq_hash s) (ipq_lru_list s) (ip_frag_nqueues s)
     (ip_frag_mem s - sum_truesize (q_fragments q) + sum_truesize (q_fragments q1)) (ipfrag_hash_rnd s) pe)) as ->.
  { unfold r0, aged in *. destruct complete; cbn [orb] in Ea.
    - assert ((q1, pe) = (held q, peers s)) as [= -> ->] by (rewrite <- Ea; by destruct (q_peer (held q))).
      s_cbn. change (q_fragments (held q)) with (q_fragments q). f_equal. f_equal. lia.
    - unfold ip_frag_too_far. s_cbn. rewrite lookup_insert_eq.
      destruct (q_peer (held q)) as [a|] eqn:Epe.
      2: { injection Ea as <- <-. change (q_fragments (held q)) with (q_fragments q). f_equal. f_equal. lia. }
      destruct (sysctl_ipfrag_max_dist env =? 0).
      { injection Ea as <- <-. change (q_fragments (held q)) with (q_fragments q). f_equal. f_equal. lia. }
      cbn zeta in *. set (e := u32 (default 0 (peers s !! a) + 1)) in *. rewrite alter_insert_eq.
      fold (too_far env e (held q)). destruct (too_far env e (held q)); injection Ea as <- <-.
      + rewrite (reinit_eq env p ((held q) <| q_rid := e |>)); [|apply lookup_insert_eq|apply (bq_timer _ _ HB)].
        s_cbn. rewrite alter_insert_eq.
        change (sum_truesize (q_fragments (emptied env _))) with 0. rewrite Z.add_0_r. reflexivity.
      + change (q_fragments ((held q) <| q_rid := e |>)) with (q_fragments q).
        by rewrite Z.sub_add. }
  cbn [negb queues]. rewrite lookup_insert_eq, Ee. unfold stored. s_cbn.
  rewrite alter_insert_eq. destruct r as [d|]; cbn [default]; [done|].
  by rewrite Z.add_0_r.
Qed.

(** ** [ip_defrag] *)

(** The datagram that a full queue makes. *)
Definition reassembled (env : frag_env) (q : ipq) : option sk_buff :=
  match q_fragments q with
  | [] => None
  | head :: rest =>
      let len := ihl (iphdr_at (fr_head head) 0) * 4 + q_len q in
      if (65535 <? len) || negb (e_expand_ok env) then None
      else
        let skb := fold_left glue_summed rest
                     ((fr_skb head) <| data := fr_head head ++ data (fr_skb head) |>) in
        Some (skb <| data := st16 2 (htons len) (st16 6 0 (data skb)) |>)
  end.

Lemma full_nonempty q : queue_wf q → queue_full q = true → ∃ f r, q_fragments q = f :: r.
Proof.
  intros W Hf. unfold queue_full in Hf. apply andb_true_iff in Hf as [Hl _].
  apply Z.eqb_eq, (full_flags _ (qw_bits _ W)) in Hl as (H1 & _).
  apply (qw_first _ W) in H1 as [b Hb]. destruct (q_fragments q) as [|f r]; [done|]. by exists f, r.
Qed.

Lemma filter_idem (p : positive) (l : list positive) : filter (λ r, r ≠ p) (filter (λ r, r ≠ p) l) = filter (λ r, r ≠ p) l.
Proof. by apply list_filter_filter_l. Qed.
Lemma filter_snoc (p : positive) (l : list positive) : filter (λ r, r ≠ p) (l ++ [p]) = filter (λ r, r ≠ p) l.
Proof. rewrite filter_app, filter_cons_False by (intros Hx; by apply Hx). by rewrite app_nil_r. Qed.

(** A full queue is glued together and ends. *)
Lemma finish_full env sz p q q2 lru mem pe s :
  busy_queue pe q2 → queue_full q2 = true → e_sizeof_ipq env = sz →
  filter (λ r, r ≠ p) lru = filter (λ r, r ≠ p) (ipq_lru_list s) →
  mem - sum_truesize (q_fragments q2) = ip_frag_mem s - sum_truesize (q_fragments q) →
  ∃ s', ip_frag_reasm env p (stored p q2 lru mem pe s) = Some (reassembled env q2, s') ∧
    (ipq_put env p s').1 = removed sz p q (s <| peers := pe |>).
Proof.
  intros [B1 B2 B3 B4 _ _] Hf Hsz Hlru Hmem. unfold ip_frag_reasm.
  rewrite (kill_eq p q2); [|unfold stored; s_cbn; apply lookup_insert_eq|done].
  unfold stored. s_cbn. rewrite Hlru, B4, B3, lookup_insert_eq, insert_insert_eq. cbn [mbind option_bind].
  match goal with |- context [<[p := ?x]> (queues s)] => set (qk := x) end.
  change (q_fragments qk) with (q_fragments q2). change (q_len qk) with (q_len q2).
  unfold reassembled. destruct (full_nonempty q2 B1 Hf) as (head & rest & Efr). rewrite Efr. cbn zeta.
  assert (∀ q' m, q_refcnt q' = 1 → mem - m - q_cost sz q' = ip_frag_mem s - q_cost sz q →
    (ipq_put env p (mk_fs (<[p := q']> (queues s)) (filter (λ r, r ≠ p) <$> ipq_hash s)
      (filter (λ r, r ≠ p) (ipq_lru_list s)) (ip_frag_nqueues s - 1) (mem - m) (ipfrag_hash_rnd s) pe)).1
    = removed sz p q (s <| peers := pe |>)) as Hput.
  { intros q' m Hr Hm. rewrite (put_last env p q' _ _ _ _ _ _ _ sz) by (done || apply lookup_insert_eq).
    cbn [fst]. unfold removed. s_cbn. f_equal; [apply delete_insert_eq|done]. }
  destruct (65535 <? _); cbn [orb].
  { eexists. split; [done|]. rewrite <- (Z.sub_0_r mem). apply Hput; [done|].
    unfold q_cost. change (q_fragments qk) with (q_fragments q2). lia. }
  destruct (negb (e_expand_ok env)).
  { eexists. split; [done|]. rewrite <- (Z.sub_0_r mem). apply Hput; [done|].
    unfold q_cost. change (q_fragments qk) with (q_fragments q2). lia. }
  eexists. split; [done|]. s_cbn. rewrite alter_insert_eq. apply Hput; [done|].
  unfold q_cost. change (sum_truesize (q_fragments (upd_q_fragments [] qk))) with 0. rewrite <- Efr. lia.
Qed.

(** A queue that waits for more goes back to two references. *)
Lemma finish_wait env p q2 lru mem pe s : busy_queue pe q2 →
  (ipq_put env p (stored p q2 lru mem pe s)).1 = stored p (q2 <| q_refcnt := 2 |>) lru mem pe s.
Proof.
  intros B. unfold ipq_put, stored. cbn zeta. s_cbn. rewrite alter_insert_eq, lookup_insert_eq.
  rewrite (bq_ref _ _ B). done.
Qed.

(** The state in which the lookup is made. *)
Definition evicted (env : frag_env) (s : frag_state) : option frag_state :=
  if sysctl_ipfrag_high_thresh env <? ip_frag_mem s then ip_evictor env s else Some s.

Lemma evicted_spec env sz s : 0 <= sz → e_sizeof_ipq env = sz → frag_inv sz s →
  ∃ s', evicted env s = Some s' ∧ frag_inv sz s' ∧ queues s' ⊆ queues s ∧ peers s' = peers s ∧
    (s' = s ∧ ip_frag_mem s <= sysctl_ipfrag_high_thresh env ∨
     ip_frag_mem s' <= sysctl_ipfrag_low_thresh env ∨ ip_frag_mem s' = 0).
Proof.
  intros H0 Hsz HI. unfold evicted. destruct (Z.ltb_spec (sysctl_ipfrag_high_thresh env) (ip_frag_mem s)).
  - destruct (evictor_spec env sz (S (length (ipq_lru_list s))) H0 Hsz _ s HI ltac:(lia) eq_refl)
      as (s' & ? & ? & ? & ? & ?). exists s'. split_and!; try done. by right.
  - exists s. split_and!; try done. by left.
Qed.

(** The table [s0] with queue [q] at [p], in which the packet is queued: the one that was
    there, or a new one. *)
Record queue_for (sz : Z) (k : Z * Z * Z * Z * Z) (s s0 : frag_state) (p : positive) (q : ipq) : Prop := {
  qf_inv : frag_inv sz s0;
  qf_at : queues s0 !! p = Some q;
  qf_key : q_key q = k;
  qf_old : s0 = s ∨
    (∀ p q, queues s !! p = Some q → q_key q ≠ k) ∧ queues s !! p = None ∧
    (∃ pe, s0 = added sz p q pe s ∧ peers s ⊆ pe) ∧ empty_queue q }.

(** The queue after a packet, and the table with it. *)
Definition requeue (env : frag_env) (complete : bool) (skb : sk_buff) (dev : option Z) (ts : Z)
    (s : frag_state) (q : ipq) : ipq * gmap Z Z :=
  let '(q1, pe) := aged env complete s (held q) in ((frag_enqueue q1 skb dev ts).1, pe).

Lemma requeue_spec env complete skb dev ts s q : queue_inv s q → 0 <= ts →
  let '(q', pe) := requeue env complete skb dev ts s q in
  busy_queue pe q' ∧ q_key q' = q_key q ∧ q_peer q' = q_peer q ∧ peers_grow (peers s) pe.
Proof.
  intros HQ Hts. unfold requeue. pose proof (aged_spec env complete s (held q) (held_busy _ _ HQ)) as Ha.
  destruct (aged env complete s (held q)) as [q1 pe]. destruct Ha as ([B1 B2 B3 B4 B5 B6] & Hk & Hp & Hg & _).
  destruct (frag_enqueue q1 skb dev ts) as [q2 r] eqn:Ee. cbn [fst].
  destruct (enqueue_wf _ _ _ _ _ _ B1 Ee) as (W2 & [E1 E2 E3 E4 E5 E6 E7 E8 E9 E10] & _).
  assert (Forall (frag_prop (λ _, True)) (q_fragments q2)) as HF.
  { apply (enqueue_prop _ q1 skb dev ts q2 r); try done. apply (Forall_impl _ _ _ B5). by intros f. }
  split_and!; [| |by rewrite E9, Hp|done].
  - split; [done|by rewrite E10|by rewrite E6|by rewrite E7| |intros a Ha; apply B6; by rewrite <- E9].
    apply (Forall_impl _ _ _ HF). by intros f [? _].
  - trans (q_key q1); [|exact Hk]. unfold q_key. by rewrite E1, E2, E3, E4, E5.
Qed.

Lemma waiting_inv sz s q pe q' : busy_queue pe q' → q_key q' = q_key q → 
  queue_inv (s <| peers := pe |>) (q' <| q_refcnt := 2 |>) ∧ q_key (q' <| q_refcnt := 2 |>) = q_key q
  ∧ q_cost sz (q' <| q_refcnt := 2 |>) = q_cost sz q'.
Proof. intros [[] B2 B3 B4 B5 B6] Hk. split_and!; [|done|done]. by split. Qed.

(** What [ip_defrag] does, in terms of one queue. *)
Lemma defrag_spec env sz skb user complete dev ts s :
  0 <= sz → 0 <= ts → e_sizeof_ipq env = sz → frag_inv sz s →
  ∃ s1, evicted env s = Some s1 ∧ frag_inv sz s1 ∧
  (e_queue_ok env = false ∧ (∀ p q, queues s1 !! p = Some q → q_key q ≠ pkt_key (data skb) user) ∧
   ip_defrag env skb user complete dev ts s = Some (None, s1) ∨
   ∃ s0 p q q' pe, queue_for sz (pkt_key (data skb) user) s1 s0 p q ∧
     requeue env complete skb dev ts s0 q = (q', pe) ∧
     if queue_full q'
     then ip_defrag env skb user complete dev ts s
          = Some (reassembled env q', removed sz p q (s0 <| peers := pe |>))
     else ∃ lru, ip_defrag env skb user complete dev ts s
          = Some (None, stored p (q' <| q_refcnt := 2 |>) lru
                          (ip_frag_mem s0 - q_cost sz q + q_cost sz q') pe s0) ∧
          (∀ r, r ∈ lru ↔ r ∈ ipq_lru_list s0) ∧ NoDup lru).
Proof.
  intros H0 Hts Hsz HI. destruct (evicted_spec env sz s H0 Hsz HI) as (s1 & Hev & HI1 & _).
  exists s1. split_and!; [done|done|]. unfold ip_defrag. fold (evicted env s). rewrite Hev. cbn [mbind option_bind].
  destruct (ip_find env (data skb) user s1) as [[p|] s'] eqn:Ef; pose proof (find_spec env sz _ _ _ _ _ HI1 Hsz Ef) as Hf.
  2: { destruct Hf as (? & -> & ?). by left. }
  right. destruct Hf as (s0 & q & HI0 & Hq & Hk & -> & Hor). pose proof (fi_queue _ _ HI0 p q Hq) as HQ.
  pose proof (requeue_spec env complete skb dev ts s0 q HQ Hts) as Hr.
  pose proof (queue_op env p skb complete dev ts sz s0 q HI0 Hq) as Ho.
  unfold requeue in *. destruct (aged env complete s0 (held q)) as [q1 pe] eqn:Ea.
  pose proof (aged_spec env complete s0 (held q) (held_busy _ _ HQ)) as Hag. rewrite Ea in Hag.
  destruct (frag_enqueue q1 skb dev ts) as [q2 r] eqn:Ee. cbn [fst] in Hr. rewrite Ho. destruct Hr as (B & Hk2 & _ & _).
  set (lru := match r with Some _ => _ | None => _ end) in *.
  destruct (enqueue_wf _ _ _ _ _ _ (bq_wf _ _ (proj1 Hag)) Ee) as (_ & _ & Hts2).
  exists s0, p, q, q2, pe. cbn [fst]. split_and!; [by split|by rewrite Ea, Ee|].
  assert (∀ r, r ∈ lru ↔ r ∈ ipq_lru_list s0) as Hl.
  { assert (p ∈ ipq_lru_list s0) by (apply (fi_lru _ _ HI0); by exists q).
    intros x. unfold lru. destruct r; [|done]. rewrite elem_of_app, list_elem_of_filter, list_elem_of_singleton.
    destruct (decide (x = p)) as [->|]; naive_solver. }
  change (queues (stored p q2 ?l ?m ?e ?x)) with (<[p := q2]> (queues x)).
  rewrite lookup_insert_eq. cbn [mbind option_bind]. fold (queue_full q2).
  destruct (queue_full q2) eqn:Efull.
  - destruct (finish_full env sz p q q2 lru
      (ip_frag_mem s0 - sum_truesize (q_fragments q) + sum_truesize (q_fragments q1) + default 0 r) pe s0)
      as (s' & E1 & E2); [done|done|done| |lia|].
    { unfold lru. destruct r; [|done]. by rewrite filter_snoc, filter_idem. }
    rewrite E1. cbn [mbind option_bind]. by rewrite E2.
  - cbn [mbind option_bind]. rewrite finish_wait by done. exists lru. split_and!; [|done|].
    + do 3 f_equal. unfold q_cost. lia.
    + unfold lru. destruct r; [|apply HI0]. apply NoDup_app. split_and!; [by apply NoDup_filter, HI0| |apply NoDup_singleton].
      intros x [Hx _]%list_elem_of_filter ->%list_elem_of_singleton. done.
Qed.

Lemma defrag_inv env sz skb user complete dev ts s :
  0 <= sz → 0 <= ts → e_sizeof_ipq env = sz → frag_inv sz s →
  ∃ ret s', ip_defrag env skb user complete dev ts s = Some (ret, s') ∧ frag_inv sz s'.
Proof.
  intros H0 Hts Hsz HI. destruct (defrag_spec env sz skb user complete dev ts s H0 Hts Hsz HI)
    as (s1 & _ & HI1 & [(_ & _ & ->)|(s0 & p & q & q' & pe & [HI0 Hq Hk _] & Hr & E)]).
  { by exists None, s1. }
  pose proof (requeue_spec env complete skb dev ts s0 q (fi_queue _ _ HI0 p q Hq) Hts) as HB. rewrite Hr in HB.
  destruct HB as (B & Hk' & _ & Hg). destruct (queue_full q').
  - rewrite E. eexists _, _. split; [done|]. apply removed_inv; [|done].
    destruct HI0 as [I1 I2 I3 I4 I5 I6 I7 I8]. split; try done. intros r qr Hqr.
    apply (queue_inv_peers s0); [done|]. by apply (I1 r).
  - destruct E as (lru & -> & Hl & Hn). eexists _, _. split; [done|].
    destruct (waiting_inv sz s0 q pe q' B Hk') as (W1 & W2 & W3). rewrite <- W3. by apply stored_inv.
Qed.
