(* ===== verification/IpFragSpec.v ===== *)
(** * Reassembly: what the tracker can rely on

    The events of the reassembly: a packet at the tracker's hook, a timeout, the change of
    the hash secret, a peer that is forgotten.  Every run keeps the table in order and its
    memory bounded; datagrams come out whole, and fragments that cover a datagram bring it
    out. *)
From S2P Require Import Prelude Packet CtBase TcpTrack CtProtos Conntrack NatProto NatHelper IpFrag IpFragFacts IpFragTable.
From stdpp Require Import fin_maps fin_sets.
#[local] Open Scope Z_scope.

(** ** Events *)
Inductive frag_event :=
  | FE_packet (env : frag_env) (hooknum : Z) (skb : sk_buff) (complete : bool) (dev : option Z) (ts : Z)
  | FE_expire (env : frag_env) (p : positive)
  | FE_rebuild (rnd : Z)
  | FE_forget (addr : Z).

(** The hook's answer to a packet. *)
Definition frag_out : Type := option (Z * option sk_buff).

(** A timer runs out only while it is pending, which it no longer is when its function
    runs; a peer is forgotten only when no queue refers to it. *)
Definition frag_step (e : frag_event) (s : frag_state) : option (frag_out * frag_state) :=
  match e with
  | FE_packet env hooknum skb complete dev ts =>
      '(v, skb, s) ← ip_conntrack_defrag env hooknum skb complete dev ts s;
      Some (Some (v, skb), s)
  | FE_expire env p =>
      match queues s !! p with
      | Some q => if pending (q_timer q)
                  then Some (None, (ip_expire env p
                         (upd_queue p (λ q, q <| q_timer := (q_timer q) <| pending := false |> |>) s)).2)
                  else Some (None, s)
      | None => Some (None, s)
      end
  | FE_rebuild rnd => Some (None, ipfrag_secret_rebuild rnd s)
  | FE_forget a =>
      Some (None, if bool_decide (map_Forall (λ _ q, q_peer q ≠ Some a) (queues s))
                  then s <| peers := delete a (peers s) |> else s)
  end.

Fixpoint frag_run (l : list frag_event) (s : frag_state) : option (list frag_out * frag_state) :=
  match l with
  | [] => Some ([], s)
  | e :: l =>
      '(o, s) ← frag_step e s;
      '(os, s) ← frag_run l s;
      Some (o :: os, s)
  end.

(** ** A new hash secret *)

(** Every queue is in one bucket, not yet necessarily the right one. *)
Record tabled (s : frag_state) : Prop := {
  tb_in : ∀ h p, p ∈ bucket s h → 0 <= h < IPQ_HASHSZ ∧ is_Some (queues s !! p);
  tb_some : ∀ p, is_Some (queues s !! p) → ∃ h, p ∈ bucket s h;
  tb_one : ∀ h h' p, p ∈ bucket s h → p ∈ bucket s h' → h = h';
  tb_nodup : ∀ h, NoDup (bucket s h) }.

Lemma q_hash_range rnd q : 0 <= q_hash rnd q < IPQ_HASHSZ.
Proof.
  unfold q_hash, ipqhashfn. change (IPQ_HASHSZ - 1) with (Z.ones 6).
  rewrite Z.land_ones by done. change IPQ_HASHSZ with (2 ^ 6). lia.
Qed.

Lemma inv_tabled sz s rnd : frag_inv sz s → tabled (s <| ipfrag_hash_rnd := rnd |>).
Proof.
  intros [_ I2 I3 _ _ _ _ _]. split; cbn [queues update upd_ipfrag_hash_rnd].
  - intros h p (q & Hq & <-)%I2. split; [apply q_hash_range|by exists q].
  - intros p [q Hq]. exists (q_hash (ipfrag_hash_rnd s) q). apply I2. by exists q.
  - intros h h' p (q & Hq & <-)%I2 (q' & Hq' & <-)%I2. congruence.
  - apply I3.
Qed.

(** What the rebuild leaves alone. *)
Definition only_hash (s s' : frag_state) : Prop :=
  ∃ hsh, s' = s <| ipq_hash := hsh |>.

Definition rehash (i : Z) (s : frag_state) (p : positive) : frag_state :=
  match queues s !! p with
  | Some q => let hval := q_hash (ipfrag_hash_rnd s) q in
              if negb (hval =? i) then hlist_add_head p hval (hlist_del p s) else s
  | None => s
  end.

(** The bucket that is right for [p]. *)
Definition home (s : frag_state) (p : positive) (h : Z) : Prop :=
  ∃ q, queues s !! p = Some q ∧ q_hash (ipfrag_hash_rnd s) q = h.

Lemma bucket_moved p v s h :
  bucket (hlist_add_head p v (hlist_del p s)) h
  = if decide (h = v) then p :: filter (λ r, r ≠ p) (bucket s h) else filter (λ r, r ≠ p) (bucket s h).
Proof.
  unfold hlist_add_head, bucket, hlist_del. cbn [ipq_hash update upd_ipq_hash].
  destruct (decide (h = v)) as [->|Hh].
  - rewrite lookup_insert_eq. cbn [default]. by rewrite bucket_filter.
  - rewrite lookup_insert_ne by done. by rewrite bucket_filter.
Qed.

Lemma rehash_spec i s p : tabled s → p ∈ bucket s i →
  tabled (rehash i s p) ∧ only_hash s (rehash i s p) ∧
  ∀ h r, r ∈ bucket (rehash i s p) h ↔ r ≠ p ∧ r ∈ bucket s h ∨ r = p ∧ home s p h.
Proof.
  intros T Hp. destruct (tb_in _ T i p Hp) as [_ [q Hq]]. unfold rehash, home. rewrite Hq. cbn zeta.
  destruct (Z.eqb_spec (q_hash (ipfrag_hash_rnd s) q) i) as [E|E]; cbn [negb].
  - split_and!; [done|exists (ipq_hash s); by destruct s|]. intros h r. destruct (decide (r = p)) as [->|Hr].
    + split; [|intros [[? _]|[_ (q' & [= <-] & <-)]]; [done|by rewrite E]].
      intros Hh. right. split; [done|]. exists q. split; [done|]. rewrite E. by apply (tb_one _ T _ _ p).
    + split; [by left|by intros [[_ ?]|[? _]]].
  - set (v := q_hash _ q) in *.
    assert (∀ h r, r ∈ bucket (hlist_add_head p v (hlist_del p s)) h ↔
      r ≠ p ∧ r ∈ bucket s h ∨ r = p ∧ ∃ q0, Some q = Some q0 ∧ q_hash (ipfrag_hash_rnd s) q0 = h) as Hb.
    { intros h r. rewrite bucket_moved. unfold v. destruct (decide (h = _)); [rewrite elem_of_cons|];
        rewrite list_elem_of_filter; naive_solver. }
    split_and!; [|by eexists|done]. split; cbn [queues hlist_add_head hlist_del update upd_ipq_hash].
    + intros h r [[_ Hr]|[-> (q0 & [= <-] & <-)]]%Hb; [by apply T|].
      split; [apply q_hash_range|by exists q].
    + intros r Hr. destruct (decide (r = p)) as [->|Hn].
      * exists v. apply Hb. right. split; [done|]. by exists q.
      * destruct (tb_some _ T r Hr) as [h Hh]. exists h. apply Hb. by left.
    + intros h h' r [[Hn Hr]|[-> (q0 & [= <-] & <-)]]%Hb [[Hn' Hr']|[Hx (q1 & [= <-] & <-)]]%Hb;
        [by apply (tb_one _ T _ _ r)|done..].
    + intros h. rewrite bucket_moved. pose proof (NoDup_filter (λ r, r ≠ p) _ (tb_nodup _ T h)).
      destruct (decide (h = v)); [|done]. constructor; [|done]. by intros [? _]%list_elem_of_filter.
Qed.

Lemma only_hash_trans s s' s'' : only_hash s s' → only_hash s' s'' → only_hash s s''.
Proof. intros [h ->] [h' ->]. by exists h'. Qed.

Lemma home_only s s' p h : only_hash s s' → home s' p h ↔ home s p h.
Proof. by intros [h' ->]. Qed.

Lemma rehash_list i l : ∀ s, tabled s → NoDup l → (∀ p, p ∈ l → p ∈ bucket s i) →
  tabled (fold_left (rehash i) l s) ∧ only_hash s (fold_left (rehash i) l s) ∧
  ∀ h r, r ∈ bucket (fold_left (rehash i) l s) h ↔ r ∉ l ∧ r ∈ bucket s h ∨ r ∈ l ∧ home s r h.
Proof.
  induction l as [|p l IH]; intros s T Hn Hl; cbn [fold_left].
  { split_and!; [done|exists (ipq_hash s); by destruct s|]. set_solver. }
  apply NoDup_cons in Hn as [Hp Hn]. destruct (rehash_spec i s p T) as (T1 & O1 & B1); [set_solver|].
  destruct (IH (rehash i s p) T1 Hn) as (T2 & O2 & B2).
  { intros r Hr. apply B1. left. split; [|apply Hl; set_solver]. by intros ->. }
  split_and!; [done|by apply (only_hash_trans _ _ _ O1)|]. intros h r.
  rewrite B2, B1, (home_only _ _ _ _ O1), elem_of_cons. destruct (decide (r = p)) as [->|]; naive_solver.
Qed.

Lemma rebuild_bucket_spec i s : tabled s →
  tabled (rebuild_bucket i s) ∧ only_hash s (rebuild_bucket i s) ∧
  ∀ h r, r ∈ bucket (rebuild_bucket i s) h ↔
         r ∉ bucket s i ∧ r ∈ bucket s h ∨ r ∈ bucket s i ∧ home s r h.
Proof. intros T. by apply rehash_list; [|apply tb_nodup|]. Qed.

(** The buckets below [k] hold only what belongs there. *)
Definition settled (k : Z) (s : frag_state) : Prop :=
  ∀ h p, h < k → p ∈ bucket s h → home s p h.

Lemma rebuild_settles n : ∀ i s, tabled s → settled (Z.of_nat i) s →
  let s' := fold_left (λ s i, rebuild_bucket (Z.of_nat i) s) (seq i n) s in
  tabled s' ∧ only_hash s s' ∧ settled (Z.of_nat (i + n)) s'.
Proof.
  induction n as [|n IH]; intros i s T HS; cbn [seq fold_left].
  { rewrite Nat.add_0_r. split_and!; [done|exists (ipq_hash s); by destruct s|done]. }
  destruct (rebuild_bucket_spec (Z.of_nat i) s T) as (T1 & O1 & B1).
  destruct (IH (S i) _ T1) as (T2 & O2 & S2).
  { intros h p Hh Hp. rewrite (home_only _ _ _ _ O1). apply B1 in Hp as [[Hn Hp]|[_ ?]]; [|done].
    apply HS; [|done]. assert (h ≠ Z.of_nat i) by (by intros ->). lia. }
  split_and!; [done|by apply (only_hash_trans _ _ _ O1)|]. by rewrite Nat.add_succ_r.
Qed.

Lemma rebuild_spec sz rnd s (s' := ipfrag_secret_rebuild rnd s) : frag_inv sz s →
  tabled s' ∧ only_hash (s <| ipfrag_hash_rnd := rnd |>) s' ∧ settled IPQ_HASHSZ s'.
Proof.
  intros HI. apply (rebuild_settles 64 0 _ (inv_tabled sz s rnd HI)).
  intros h p Hh Hp. apply (inv_tabled sz s rnd HI) in Hp. lia.
Qed.

Lemma rebuild_inv sz rnd s : frag_inv sz s → frag_inv sz (ipfrag_secret_rebuild rnd s).
Proof.
  intros HI. destruct (rebuild_spec sz rnd s HI) as (T & O & HS).
  set (s' := ipfrag_secret_rebuild rnd s) in *. destruct HI as [I1 I2 I3 I4 I5 I6 I7 I8].
  assert (∀ h p, p ∈ bucket s' h ↔ home s' p h) as Hb.
  { intros h p. split.
    - intros Hp. apply HS; [|done]. by apply T in Hp as [[_ ?] _].
    - intros (q & Hq & Hh). destruct (tb_some _ T p) as [h' Hh']; [by exists q|].
      assert (home s' p h') as (q' & Hq' & E). { apply HS; [|done]. by apply T in Hh' as [[_ ?] _]. }
      congruence. }
  clear HS. pose proof (tb_nodup _ T) as Hn. clear T. destruct O as [hsh E]. rewrite E in *. clear E s'.
  split; try done. intros p q Hq. destruct (I1 p q Hq). by split.
Qed.

(** ** Every run is safe *)

(** The memory of the packet of an event, and the thresholds in force. *)
Definition event_ok (sz H T : Z) (e : frag_event) : Prop :=
  match e with
  | FE_packet env _ _ _ _ ts =>
      e_sizeof_ipq env = sz ∧ 0 <= ts <= T ∧
      sysctl_ipfrag_low_thresh env <= H ∧ sysctl_ipfrag_high_thresh env <= H
  | FE_expire env _ => e_sizeof_ipq env = sz
  | _ => True
  end.

Lemma packet_defrag env hooknum skb complete dev ts s :
  ip_conntrack_defrag env hooknum skb complete dev ts s
  = if flag (frag_off (skb_iph skb)) (htons (Z.lor IP_MF IP_OFFSET))
    then '(ret, s) ← ip_defrag env skb
           (if hooknum =? NF_IP_PRE_ROUTING then IP_DEFRAG_CONNTRACK_IN else IP_DEFRAG_CONNTRACK_OUT)
           complete dev ts s;
         Some (match ret with
               | None => (NF_STOLEN, None)
               | Some skb => (NF_ACCEPT, Some (skb <| data := ip_send_check (data skb) |>))
               end, s)
    else Some (NF_ACCEPT, Some skb, s).
Proof.
  unfold ip_conntrack_defrag, ip_ct_gather_frags. destruct (flag _ _); [|done].
  by destruct (ip_defrag _ _ _ _ _ _ s) as [[[skb'|] s']|].
Qed.

Lemma forget_inv sz a s : frag_inv sz s → map_Forall (λ _ q, q_peer q ≠ Some a) (queues s) →
  frag_inv sz (s <| peers := delete a (peers s) |>).
Proof.
  intros [I1 I2 I3 I4 I5 I6 I7 I8] Hf. split; try done. intros p q Hq.
  destruct (I1 p q Hq) as [J1 J2 J3 J4 J5 J6]. split; try done. intros b Hb.
  cbn [peers update upd_peers]. rewrite lookup_delete_ne; [by apply J6|]. intros ->. by apply (Hf p q Hq).
Qed.

Lemma sum_truesize_nonneg l : Forall (λ f, 0 <= fr_truesize f) l → 0 <= sum_truesize l.
Proof. induction 1; [done|]. rewrite sum_truesize_cons. lia. Qed.

Lemma cut_back_freed e l r cut freed : Forall (λ f, 0 <= fr_truesize f) l →
  cut_back e l = Some (r, cut, freed) → 0 <= freed.
Proof.
  intros Hl. revert r cut freed. induction Hl as [|f l Hf _ IH]; intros r cut freed; cbn [cut_back].
  - by intros [= <- <- <-].
  - destruct (_ <? e); [|by intros [= <- <- <-]]. destruct (_ <? _).
    + destruct (frag_pull _ f); [|done]. by intros [= <- <- <-].
    + destruct (cut_back e l) as [[[r' c] fd]|]; [|done]. intros [= <- <- <-]. specialize (IH r' c fd eq_refl). lia.
Qed.

Lemma frag_split_app o l : l = (frag_split o l).1 ++ (frag_split o l).2.
Proof.
  induction l as [|f l IH]; [done|]. cbn [frag_split]. destruct (_ <=? _); [done|].
  destruct (frag_split o l) as [a b]. cbn [fst snd] in *. by rewrite IH at 1.
Qed.

(** A packet adds at most its own memory. *)
Lemma enqueue_cost q skb dev ts q' d : Forall (λ f, 0 <= fr_truesize f) (q_fragments q) →
  frag_enqueue q skb dev ts = (q', Some d) → d <= ts.
Proof.
  intros Hl. unfold frag_enqueue. pose proof (frag_position_spec q skb) as Hp.
  destruct (frag_position q skb) as [[[[q1 o] e] skb1]|]; [|done].
  destruct Hp as (_ & _ & _ & _ & _ & Hfr & _). rewrite <- Hfr in Hl.
  destruct (e =? o); [done|]. destruct (frag_pull _ _) as [f|]; cbn [mbind option_bind]; [|done].
  unfold frag_insert. pose proof (frag_split_app o (q_fragments q1)) as Hs.
  destruct (frag_split o (q_fragments q1)) as [front back]. rewrite Hs in Hl. apply Forall_app in Hl as [_ Hl].
  destruct (cut_front _ _ _ _) as [[o' f']|]; cbn [mbind option_bind]; [|done].
  destruct (cut_back e back) as [[[r cut] freed]|] eqn:Ec; cbn [mbind option_bind]; [|done].
  intros [= _ <-]. apply cut_back_freed in Ec; [lia|done].
Qed.

Lemma requeue_cost env complete skb dev ts sz s q q' pe : queue_inv s q → 0 <= ts →
  requeue env complete skb dev ts s q = (q', pe) → q_cost sz q' <= q_cost sz q + ts.
Proof.
  intros HQ Hts. unfold requeue. pose proof (aged_spec env complete s (held q) (held_busy _ _ HQ)) as Ha.
  destruct (aged env complete s (held q)) as [q1 pe1]. destruct Ha as (B & _ & _ & _ & Hor).
  destruct (frag_enqueue q1 skb dev ts) as [q2 r] eqn:Ee. intros E. injection E as <- <-. cbn [fst].
  destruct (enqueue_wf _ _ _ _ _ _ (bq_wf _ _ B) Ee) as (_ & _ & Hs).
  assert (default 0 r <= ts) as Hr.
  { destruct r as [d|]; cbn [default]; [|done]. by apply (enqueue_cost q1 skb dev ts q2); [apply B|]. }
  assert (sum_truesize (q_fragments q1) <= sum_truesize (q_fragments q)) as Hq.
  { destruct Hor as [(-> & _)|[E1 _ _]]; [done|]. rewrite E1. apply sum_truesize_nonneg, HQ. }
  unfold q_cost. lia.
Qed.

Lemma q_cost_nonneg sz s q : 0 <= sz → queue_inv s q → 0 <= q_cost sz q.
Proof. intros Hz HQ. unfold q_cost. pose proof (sum_truesize_nonneg _ (qi_size _ _ HQ)). lia. Qed.

(** A packet takes at most its own memory and that of a queue. *)
Lemma defrag_mem env sz skb user complete dev ts s s1 ret s' :
  0 <= sz → 0 <= ts → e_sizeof_ipq env = sz → frag_inv sz s → evicted env s = Some s1 →
  ip_defrag env skb user complete dev ts s = Some (ret, s') → ip_frag_mem s' <= ip_frag_mem s1 + ts + sz.
Proof.
  intros Hz Hts Hsz HI Hev E.
  destruct (defrag_spec env sz skb user complete dev ts s Hz Hts Hsz HI) as (s1' & Hev' & HI1 & Hd).
  rewrite Hev in Hev'. injection Hev' as <-.
  destruct Hd as [(_ & _ & E')|(s0 & p & q & q' & pe & [HI0 Hq _ Hold] & Hr & Hd)].
  { rewrite E in E'. injection E' as _ ->. lia. }
  assert (ip_frag_mem s0 <= ip_frag_mem s1 + sz) as Hs0.
  { destruct Hold as [->|(_ & _ & (pe' & -> & _) & _)]; [lia|]. cbn [ip_frag_mem added]. lia. }
  pose proof (fi_queue _ _ HI0 p q Hq) as HQ. pose proof (q_cost_nonneg sz _ _ Hz HQ) as Hc.
  pose proof (requeue_cost _ _ _ _ _ sz _ _ _ _ HQ Hts Hr) as Hc'. destruct (queue_full q').
  - rewrite E in Hd. injection Hd as _ ->. cbn [ip_frag_mem removed update upd_peers]. lia.
  - destruct Hd as (lru & Hd & _). rewrite E in Hd. injection Hd as _ ->. cbn [ip_frag_mem stored]. lia.
Qed.

(** [ip_defrag] returns and keeps the table in order and its memory bounded. *)
Lemma defrag_safe env sz H T hk skb user complete dev ts s :
  0 <= sz → 0 <= H → event_ok sz H T (FE_packet env hk skb complete dev ts) → frag_inv sz s →
  ∃ ret s', ip_defrag env skb user complete dev ts s = Some (ret, s') ∧ frag_inv sz s' ∧
    ip_frag_mem s' <= H + T + sz.
Proof.
  intros Hz HH (Hsz & Hts & Hlo & Hhi) HI. destruct (evicted_spec env sz s Hz Hsz HI) as (s1 & Hev & _ & _ & _ & Hm).
  destruct (defrag_inv env sz skb user complete dev ts s Hz ltac:(lia) Hsz HI) as (ret & s' & E & HI').
  exists ret, s'. split_and!; [done|done|].
  pose proof (defrag_mem env sz skb user complete dev ts s s1 ret s' Hz ltac:(lia) Hsz HI Hev E).
  destruct Hm as [[-> ?]|[?|?]]; lia.
Qed.

Lemma step_safe sz H T e s : 0 <= sz → 0 <= H → event_ok sz H T e → frag_inv sz s →
  ∃ o s', frag_step e s = Some (o, s') ∧ frag_inv sz s' ∧
    ip_frag_mem s' <= Z.max (ip_frag_mem s) (H + T + sz).
Proof.
  intros Hz HH He HI. destruct e as [env hk skb complete dev ts|env p|rnd|a]; cbn [frag_step].
  - rewrite packet_defrag. destruct (flag _ _).
    2: { eexists _, s. split_and!; [done|done|lia]. }
    destruct (defrag_safe env sz H T hk skb (if hk =? NF_IP_PRE_ROUTING then IP_DEFRAG_CONNTRACK_IN else
      IP_DEFRAG_CONNTRACK_OUT) complete dev ts s Hz HH He HI) as (ret & s' & -> & HI' & Hm).
    cbn [mbind option_bind]. destruct ret; eexists _, s'; (split_and!; [done|done|lia]).
  - destruct (queues s !! p) as [q|] eqn:Hq; [|eexists _, s; split_and!; [done|done|lia]].
    pose proof (fi_queue _ _ HI p q Hq) as HQ. rewrite (qi_timer _ _ HQ).
    rewrite (expire_eq env sz p q s He HQ Hq). eexists _, _. split_and!; [done|by apply removed_inv|].
    cbn [ip_frag_mem removed]. pose proof (q_cost_nonneg sz _ _ Hz HQ). lia.
  - eexists _, _. split_and!; [done|by apply rebuild_inv|].
    rewrite (fi_mem _ _ (rebuild_inv sz rnd s HI)), (fi_mem _ _ HI).
    assert (queues (ipfrag_secret_rebuild rnd s) = queues s) as ->; [|lia].
    by destruct (rebuild_spec sz rnd s HI) as (_ & [hsh ->] & _).
  - eexists _, _. split; [done|]. destruct (bool_decide_reflect (map_Forall (λ _ q, q_peer q ≠ Some a) (queues s))).
    + split; [by apply forget_inv|]. cbn [ip_frag_mem update upd_peers]. lia.
    + split; [done|lia].
Qed.

Lemma run_safe sz H T l : ∀ s, 0 <= sz → 0 <= H → Forall (event_ok sz H T) l → frag_inv sz s →
  ∃ os s', frag_run l s = Some (os, s') ∧ frag_inv sz s' ∧
    ip_frag_mem s' <= Z.max (ip_frag_mem s) (H + T + sz).
Proof.
  induction l as [|e l IH]; intros s Hz HH Hl HI; cbn [frag_run].
  { exists [], s. split_and!; [done|done|lia]. }
  apply Forall_cons_iff in Hl as [He Hl].
  destruct (step_safe sz H T e s Hz HH He HI) as (o & s1 & -> & HI1 & Hm1). cbn [mbind option_bind].
  destruct (IH s1 Hz HH Hl HI1) as (os & s2 & -> & HI2 & Hm2). cbn [mbind option_bind].
  exists (o :: os), s2. split_and!; [done|done|lia].
Qed.

(** ** The fragments of one datagram *)

(** The user under which the hook queues. *)
Definition hook_user (hooknum : Z) : Z :=
  if hooknum =? NF_IP_PRE_ROUTING then IP_DEFRAG_CONNTRACK_IN else IP_DEFRAG_CONNTRACK_OUT.

(** The datagram that a packet is a fragment of. *)
Definition event_key (e : frag_event) : option (Z * Z * Z * Z * Z) :=
  match e with
  | FE_packet _ hooknum skb _ _ _ =>
      if flag (frag_off (skb_iph skb)) (htons (Z.lor IP_MF IP_OFFSET))
      then Some (pkt_key (data skb) (hook_user hooknum)) else None
  | _ => None
  end.

Definition frag_hdr (skb : sk_buff) : list Z := take (Z.to_nat (ihl (skb_iph skb) * 4)) (data skb).

(** The datagram [P] under the header [hd]. *)
Definition whole (hd P : list Z) : list Z :=
  ip_send_check (st16 2 (htons (Z.of_nat (length (hd ++ P)))) (st16 6 0 (hd ++ P))).

(** The queue holds the bytes [C] of the datagram [P]; a fragment at its start has a
    header that satisfies [Hd]. *)
Record holds (P : list Z) (Hd : list Z → Prop) (C : Z → Prop) (q : ipq) : Prop := {
  ho_genuine : genuine P q;
  ho_prop : Forall (frag_prop Hd) (q_fragments q);
  ho_bytes : ∀ x, is_Some (byte_at (q_fragments q) x) ↔ C x;
  ho_last : flag (q_last_in q) LAST_IN = true ↔ C (Z.of_nat (length P) - 1) }.

(** A packet that may be queued with [P]. *)
Record piece (P : list Z) (Hd : list Z → Prop) (skb : sk_buff) : Prop := {
  pi_frag : is_fragment P skb;
  pi_hdr : frag_start skb = 0 → Hd (frag_hdr skb) }.

Definition spans (skb : sk_buff) (x : Z) : Prop := frag_start skb <= x < frag_stop skb.

Lemma holds_empty P Hd q : empty_queue q → holds P Hd (λ _, False) q.
Proof.
  intros [E1 E2 E3]. split; rewrite ?E1, ?E3; try done.
  - split; rewrite ?E1, ?E2, ?E3; [done|lia|done].
  - intros x. split; [by intros []|done].
Qed.

Lemma holds_ext P Hd C q q' : holds P Hd C q →
  q_fragments q' = q_fragments q → q_len q' = q_len q → q_last_in q' = q_last_in q → holds P Hd C q'.
Proof.
  intros [[G1 G2 G3] H2 H3 H4] E1 E2 E3. split; [split| | |]; rewrite ?E1, ?E2, ?E3; done.
Qed.

Lemma enqueue_holds P Hd C q skb dev ts q' r : queue_wf q → holds P Hd C q → piece P Hd skb → 0 <= ts →
  frag_enqueue q skb dev ts = (q', r) → holds P Hd (λ x, C x ∨ spans skb x) q'.
Proof.
  intros W [H1 H2 H3 H4] [F1 F2] Hts E.
  destruct (enqueue_genuine P q skb dev ts q' r W H1 F1 E) as (G & Hb & Hl).
  destruct (is_fragment_stop P skb F1) as (_ & Hr & Hm & _). split.
  - done.
  - by apply (enqueue_prop Hd q skb dev ts q' r).
  - intros x. rewrite Hb, H3. done.
  - rewrite Hl, H4, Hm. unfold spans. split; (intros [?|?]; [by left|right; lia]).
Qed.

Lemma holds_full P Hd C q : queue_wf q → flag (q_last_in q) COMPLETE = false → holds P Hd C q →
  (∃ x, 0 <= x ∧ C x) → queue_full q = true ↔ ∀ x, 0 <= x < Z.of_nat (length P) → C x.
Proof.
  intros W Ho [[G1 G2 G3] H2 H3 H4] (x & Hx & Cx).
  assert (0 < q_len q) as Hl.
  { apply H3 in Cx as [b Hb]. pose proof (byte_at_range _ _ _ _ _ (qw_frags _ W) Hb). lia. }
  rewrite (queue_full_iff q W Ho Hl). split.
  - intros [HL Hc] y Hy. apply H3, Hc. rewrite (G3 HL). done.
  - intros Hc. assert (flag (q_last_in q) LAST_IN = true) as HL by (apply H4, Hc; lia).
    split; [done|]. intros y Hy. apply H3, Hc. rewrite <- (G3 HL). done.
Qed.

Lemma glued_data rest : ∀ skb, data (fold_left glue_summed rest skb) = data skb ++ glue rest.
Proof.
  induction rest as [|f rest IH]; intros skb; cbn [fold_left]; [by rewrite app_nil_r|].
  rewrite IH. change (glue (f :: rest)) with (data (fr_skb f) ++ glue rest). rewrite app_assoc. f_equal.
  unfold glue_summed. by destruct (negb _); [|destruct (_ =? _)].
Qed.

(** A full queue gives the datagram, unless that is too long or memory is short. *)
Lemma reassembled_spec env P Hd C q : queue_wf q → flag (q_last_in q) COMPLETE = false → holds P Hd C q →
  queue_full q = true →
  ∃ hd, Hd hd ∧ Z.of_nat (length hd) = ihl (iphdr_at hd 0) * 4 ∧
    if (65535 <? Z.of_nat (length (hd ++ P))) || negb (e_expand_ok env) then reassembled env q = None
    else ∃ skb, reassembled env q = Some skb ∧ ip_send_check (data skb) = whole hd P.
Proof.
  intros W Ho [HG H2 _ _] Hf. destruct (full_payload P q W HG Ho Hf) as (Hg & Hl & f & r & Ef & E0).
  exists (fr_head f). unfold reassembled. rewrite Ef in *. rewrite Forall_cons_iff in H2. destruct H2 as [[_ Hh] _].
  assert (hdr_ok f) as Hk. { pose proof (qw_hdr _ W) as Hx. rewrite Ef in Hx. by apply Forall_cons_iff in Hx as [? _]. }
  specialize (Hk E0). split_and!; [by apply Hh|done|]. cbn zeta.
  rewrite length_app, Nat2Z.inj_add, Hk, <- Hl. destruct (_ || _); [done|]. eexists. split; [done|].
  unfold whole. rewrite length_app, Nat2Z.inj_add, Hk, <- Hl. cbn [data update upd_data].
  rewrite glued_data. cbn [data update upd_data]. by rewrite <- app_assoc, <- Hg.
Qed.

(** ** What comes out is whole *)
Definition kept (k : Z * Z * Z * Z * Z) (P : list Z) (Hd : list Z → Prop) (s : frag_state) : Prop :=
  ∀ p q, queues s !! p = Some q → q_key q = k → ∃ C, holds P Hd C q.

Lemma requeue_holds env complete skb dev ts s q q' pe P Hd C :
  queue_inv s q → 0 <= ts → holds P Hd C q → piece P Hd skb →
  requeue env complete skb dev ts s q = (q', pe) → ∃ C', holds P Hd C' q'.
Proof.
  intros HQ Hts HC HP. unfold requeue. pose proof (aged_spec env complete s (held q) (held_busy _ _ HQ)) as Ha.
  destruct (aged env complete s (held q)) as [q1 pe1]. destruct Ha as (B & _ & _ & _ & Hor).
  destruct (frag_enqueue q1 skb dev ts) as [q2 r] eqn:Ee. intros E. injection E as <- <-. cbn [fst].
  assert (∃ C, holds P Hd C q1) as [C1 H1].
  { destruct Hor as [(E1 & E2 & E3)|He]; [exists C; by apply (holds_ext _ _ _ q)|eexists; by apply holds_empty]. }
  eexists. by apply (enqueue_holds P Hd C1 q1 skb dev ts q2 r (bq_wf _ _ B)).
Qed.

Lemma queue_for_kept sz k k' P Hd s s0 p q : kept k P Hd s → queue_for sz k' s s0 p q → kept k P Hd s0.
Proof.
  intros HK [_ Hq _ [->|(_ & _ & (pe & -> & _) & He)]]; [done|]. intros r qr. cbn [queues added].
  destruct (decide (r = p)) as [->|Hr].
  - rewrite lookup_insert_eq. intros [= <-] _. eexists. by apply holds_empty.
  - rewrite lookup_insert_ne by done. apply HK.
Qed.

Lemma kept_sub k P Hd s s' : kept k P Hd s → queues s' ⊆ queues s → kept k P Hd s'.
Proof. intros HK Hs p q Hq. apply (HK p). by apply (lookup_weaken _ _ _ _ Hq). Qed.

Lemma defrag_sound env sz skb user complete dev ts s k P Hd ret s' :
  0 <= sz → 0 <= ts → e_sizeof_ipq env = sz → frag_inv sz s → kept k P Hd s →
  (pkt_key (data skb) user = k → piece P Hd skb) →
  ip_defrag env skb user complete dev ts s = Some (ret, s') →
  kept k P Hd s' ∧
  (pkt_key (data skb) user = k → ∀ skb', ret = Some skb' →
   ∃ hd, Hd hd ∧ Z.of_nat (length hd) = ihl (iphdr_at hd 0) * 4 ∧ ip_send_check (data skb') = whole hd P).
Proof.
  intros Hz Hts Hsz HI HK HP E.
  destruct (evicted_spec env sz s Hz Hsz HI) as (s1' & Hev' & _ & Hsub & _).
  destruct (defrag_spec env sz skb user complete dev ts s Hz Hts Hsz HI) as (s1 & Hev & HI1 & Hd').
  rewrite Hev in Hev'. injection Hev' as <-. pose proof (kept_sub _ _ _ _ _ HK Hsub) as HK1.
  destruct Hd' as [(_ & _ & E')|(s0 & p & q & q' & pe & HF & Hr & E')]; rewrite E in E'.
  { injection E' as -> ->. by split. }
  pose proof (queue_for_kept _ _ _ _ _ _ _ _ _ HK1 HF) as HK0. destruct HF as [HI0 Hq Hk _].
  pose proof (fi_queue _ _ HI0 p q Hq) as HQ.
  pose proof (requeue_spec env complete skb dev ts s0 q HQ Hts) as HB. rewrite Hr in HB.
  destruct HB as (B & Hk' & _).
  assert (pkt_key (data skb) user = k → ∃ C, holds P Hd C q') as Hh.
  { intros Ek. destruct (HK0 p q Hq) as [C HC]; [congruence|].
    apply (requeue_holds env complete skb dev ts s0 q q' pe P Hd C); [done|done|done|by apply HP|done]. }
  destruct (queue_full q') eqn:Ef.
  - injection E' as -> ->. split.
    + apply (kept_sub _ _ _ s0); [done|]. cbn [queues removed update upd_peers]. apply delete_subseteq.
    + intros Ek skb' Es. destruct (Hh Ek) as [C HC].
      destruct (reassembled_spec env P Hd C q' (bq_wf _ _ B) (bq_open _ _ B) HC Ef) as (hd & H1 & H2 & H3).
      exists hd. split_and!; [done|done|]. destruct (_ || _); [congruence|].
      destruct H3 as (skb'' & H3 & H4). congruence.
  - destruct E' as (lru & E' & _). injection E' as -> ->. split; [|done]. intros r qr. cbn [queues stored].
    destruct (decide (r = p)) as [->|Hr'].
    + rewrite lookup_insert_eq. intros [= <-] Ek. destruct Hh as [C HC].
      { change (q_key q' = k) in Ek. congruence. }
      exists C. by apply (holds_ext _ _ _ q').
    + rewrite lookup_insert_ne by done. apply HK0.
Qed.

Definition event_piece (k : Z * Z * Z * Z * Z) (P : list Z) (Hd : list Z → Prop) (e : frag_event) : Prop :=
  event_key e = Some k →
  match e with FE_packet _ _ skb _ _ _ => piece P Hd skb | _ => True end.

Lemma step_sound sz H T k P Hd e s o s' : 0 <= sz → event_ok sz H T e → frag_inv sz s → kept k P Hd s →
  event_piece k P Hd e → frag_step e s = Some (o, s') →
  kept k P Hd s' ∧
  (event_key e = Some k → ∀ v skb, o = Some (v, Some skb) → v = NF_ACCEPT ∧ ∃ hd, Hd hd ∧
    Z.of_nat (length hd) = ihl (iphdr_at hd 0) * 4 ∧ data skb = whole hd P).
Proof.
  intros Hz He HI HK HP. destruct e as [env hk skb complete dev ts|env p|rnd|a]; cbn [frag_step].
  - rewrite packet_defrag. fold (hook_user hk). unfold event_piece in HP. cbn [event_key event_ok] in *.
    destruct (flag _ _); [|cbn [mbind option_bind]; intros E; injection E as <- <-; by split].
    destruct He as (Hsz & Hts & _).
    destruct (ip_defrag _ _ _ _ _ _ s) as [[ret s1]|] eqn:E; cbn [mbind option_bind]; [|done].
    destruct (defrag_sound env sz skb (hook_user hk) complete dev ts s k P Hd ret s1 Hz ltac:(lia) Hsz HI HK
      ltac:(intros Ek; apply HP; by rewrite Ek) E) as [HK1 Hout].
    destruct ret as [skb'|]; intros E'; injection E' as <- <-; (split; [done|]); intros [= Ek] v x; [|done].
    intros [= <- <-]. destruct (Hout Ek skb' eq_refl) as (hd & ?). split; [done|]. by exists hd.
  - destruct (queues s !! p) as [q|] eqn:Hq; [|intros E; injection E as <- <-; by split].
    pose proof (fi_queue _ _ HI p q Hq) as HQ. rewrite (qi_timer _ _ HQ), (expire_eq env sz p q s He HQ Hq).
    intros E. injection E as <- <-. split; [|done]. apply (kept_sub _ _ _ s); [done|].
    cbn [queues removed]. apply delete_subseteq.
  - intros E. injection E as <- <-. split; [|done]. by destruct (rebuild_spec sz rnd s HI) as (_ & [hsh ->] & _).
  - intros E. injection E as <- <-. split; [|done]. by destruct (bool_decide _).
Qed.

Lemma run_sound sz H T k P Hd l : ∀ s os s', 0 <= sz → 0 <= H → Forall (event_ok sz H T) l → frag_inv sz s →
  kept k P Hd s → Forall (event_piece k P Hd) l → frag_run l s = Some (os, s') →
  ∀ i e v skb, l !! i = Some e → event_key e = Some k → os !! i = Some (Some (v, Some skb)) →
    v = NF_ACCEPT ∧ ∃ hd, Hd hd ∧ Z.of_nat (length hd) = ihl (iphdr_at hd 0) * 4 ∧ data skb = whole hd P.
Proof.
  induction l as [|e0 l IH]; intros s os s' Hz HH Hl HI HK HP E i e v skb Hi Hk; [done|]. cbn [frag_run] in E.
  apply Forall_cons_iff in Hl as [He Hl]. apply Forall_cons_iff in HP as [HPe HP].
  destruct (step_safe sz H T e0 s Hz HH He HI) as (o & s1 & Es & HI1 & _).
  rewrite Es in E. cbn [mbind option_bind] in E.
  destruct (step_sound sz H T k P Hd e0 s o s1 Hz He HI HK HPe Es) as [HK1 Ho].
  destruct (frag_run l s1) as [[os1 s2]|] eqn:Er; [|done]. cbn [mbind option_bind] in E. injection E as <- <-.
  destruct i as [|i]; cbn in Hi |- *.
  - injection Hi as <-. intros [= ->]. by apply Ho.
  - by apply (IH s1 os1 s2 Hz HH Hl HI1 HK1 HP Er i e v skb).
Qed.

(** ** What is covered comes out *)

(** The queue of the datagram, if there is one, holds the bytes [C], and its peer sent at
    most [i] packets since. *)
Definition tracked (k : Z * Z * Z * Z * Z) (P : list Z) (Hd : list Z → Prop) (C : Z → Prop) (i : Z)
    (s : frag_state) : Prop :=
  (∀ p q, queues s !! p = Some q → q_key q = k → holds P Hd C q ∧
     ∀ a, q_peer q = Some a → u32 (default 0 (peers s !! a) - q_rid q) <= i) ∧
  ((∃ x, C x) → ∃ p q, queues s !! p = Some q ∧ q_key q = k).

(** A packet that brings no eviction, failure or doubt about the distance. *)
Record calm (sz T M n : Z) (env : frag_env) (ts : Z) : Prop := {
  ca_sz : e_sizeof_ipq env = sz; ca_ts : 0 <= ts <= T;
  ca_queue : e_queue_ok env = true; ca_expand : e_expand_ok env = true;
  ca_dist : n <= sysctl_ipfrag_max_dist env; ca_high : M <= sysctl_ipfrag_high_thresh env }.

Lemma u32_next v r : u32 (u32 (v + 1) - r) <= u32 (v - r) + 1.
Proof. unfold u32. lia. Qed.

Lemma aged_peers env complete s q q' pe : aged env complete s q = (q', pe) → ∀ a,
  default 0 (pe !! a) = default 0 (peers s !! a) ∨ default 0 (pe !! a) = u32 (default 0 (peers s !! a) + 1).
Proof.
  unfold aged. destruct (q_peer q) as [b|]; [|intros [= _ <-] a; by left].
  destruct (_ || _); [intros [= _ <-] a; by left|]. cbn zeta. intros E a. injection E as _ <-.
  destruct (decide (a = b)) as [->|Ha]; [right; by rewrite lookup_insert_eq|left; by rewrite lookup_insert_ne].
Qed.

Lemma aged_near env s q q' pe i n : 0 < n → i < n → n <= sysctl_ipfrag_max_dist env →
  (q_fragments q ≠ [] → ∀ a, q_peer q = Some a → u32 (default 0 (peers s !! a) - q_rid q) <= i) →
  aged env false s q = (q', pe) →
  q_fragments q' = q_fragments q ∧ q_len q' = q_len q ∧ q_last_in q' = q_last_in q ∧ q_peer q' = q_peer q ∧
  ∀ a, q_peer q' = Some a → u32 (default 0 (pe !! a) - q_rid q') = 0.
Proof.
  intros Hn Hi Hd Hf. unfold aged. destruct (q_peer q) as [b|] eqn:Eb.
  2: { intros E. injection E as <- <-. split_and!; try done. by rewrite Eb. }
  cbn [orb]. rewrite (proj2 (Z.eqb_neq _ _)) by lia. cbn zeta. set (e := u32 _).
  assert (too_far env e q = false) as ->.
  { unfold too_far. destruct (bool_decide_reflect (q_fragments q ≠ [])) as [H|]; [|done].
    pose proof (u32_next (default 0 (peers s !! b)) (q_rid q)). specialize (Hf H b eq_refl).
    cbn [andb]. apply Z.ltb_ge. unfold e. lia. }
  intros E. injection E as <- <-. split_and!; try done. cbn [q_peer q_rid update upd_q_rid].
  intros a. rewrite Eb. intros [= <-]. rewrite lookup_insert_eq. cbn [default]. by rewrite Z.sub_diag.
Qed.

Lemma requeue_near env skb dev ts s q q' pe P Hd C i n :
  queue_inv s q → 0 <= ts → 0 < n → i < n → n <= sysctl_ipfrag_max_dist env →
  (q_fragments q ≠ [] → ∀ a, q_peer q = Some a → u32 (default 0 (peers s !! a) - q_rid q) <= i) →
  holds P Hd C q → piece P Hd skb → requeue env false skb dev ts s q = (q', pe) →
  holds P Hd (λ x, C x ∨ spans skb x) q' ∧
  ∀ a, q_peer q' = Some a → u32 (default 0 (pe !! a) - q_rid q') = 0.
Proof.
  intros HQ Hts Hn Hi Hd' Hf HC HP. unfold requeue.
  pose proof (aged_spec env false s (held q) (held_busy _ _ HQ)) as Ha.
  destruct (aged env false s (held q)) as [q1 pe1] eqn:Ea. destruct Ha as (B & _).
  destruct (aged_near env s (held q) q1 pe1 i n Hn Hi Hd' Hf Ea) as (E1 & E2 & E3 & E4 & E5).
  destruct (frag_enqueue q1 skb dev ts) as [q2 r] eqn:Ee. intros E. injection E as <- <-. cbn [fst].
  destruct (enqueue_wf _ _ _ _ _ _ (bq_wf _ _ B) Ee) as (_ & HS & _). split.
  - apply (enqueue_holds P Hd C q1 skb dev ts q2 r (bq_wf _ _ B)); try done. by apply (holds_ext _ _ _ q).
  - rewrite (sq_peer _ _ HS), (sq_rid _ _ HS). apply E5.
Qed.

Lemma calm_evicted sz T M n env ts s : calm sz T M n env ts → ip_frag_mem s <= M → evicted env s = Some s.
Proof. intros [_ _ _ _ _ Hh] Hm. unfold evicted. by rewrite (proj2 (Z.ltb_ge _ _)) by lia. Qed.

Lemma tracked_other sz k P Hd C i s s' : frag_inv sz s → tracked k P Hd C i s →
  (∀ p q, q_key q = k → queues s' !! p = Some q ↔ queues s !! p = Some q) →
  (∀ a, is_Some (peers s !! a) → default 0 (peers s' !! a) = default 0 (peers s !! a) ∨
        default 0 (peers s' !! a) = u32 (default 0 (peers s !! a) + 1)) →
  tracked k P Hd C (i + 1) s'.
Proof.
  intros HI [H1 H2] Hq Hp. split.
  - intros p q Hpq Hk. apply (Hq p q Hk) in Hpq. destruct (H1 p q Hpq Hk) as [HC Ha]. split; [done|].
    intros a Hpa. specialize (Ha a Hpa).
    destruct (Hp a (qi_peer _ _ (fi_queue _ _ HI p q Hpq) a Hpa)) as [->| ->]; [lia|].
    pose proof (u32_next (default 0 (peers s !! a)) (q_rid q)). lia.
  - intros Hx. destruct (H2 Hx) as (p & q & Hpq & Hk). exists p, q. split; [|done]. by apply Hq.
Qed.

(** The datagrams of others do not matter. *)
Lemma defrag_other env sz T M n skb user dev ts s k P Hd C i ret s' :
  0 <= sz → calm sz T M n env ts → ip_frag_mem s <= M → frag_inv sz s → tracked k P Hd C i s →
  pkt_key (data skb) user ≠ k → ip_defrag env skb user false dev ts s = Some (ret, s') →
  tracked k P Hd C (i + 1) s'.
Proof.
  intros Hz HC Hm HI HT Hne E. pose proof (calm_evicted _ _ _ _ _ _ _ HC Hm) as Hev.
  destruct HC as [Hsz Hts Hqo _ _ _].
  destruct (defrag_spec env sz skb user false dev ts s Hz ltac:(lia) Hsz HI) as (s1 & Hev1 & HI1 & Hd').
  rewrite Hev in Hev1. injection Hev1 as <-.
  destruct Hd' as [(Hno & _)|(s0 & p & q & q' & pe & [HI0 Hq Hk Hold] & Hr & E')]; [congruence|].
  assert ((∀ r qr, q_key qr = k → queues s0 !! r = Some qr ↔ queues s !! r = Some qr) ∧ peers s ⊆ peers s0)
    as [Hsame Hpe].
  { destruct Hold as [->|(_ & Hp & (pe0 & -> & Hsub) & _)]; [done|]. split; [|done]. intros r qr Hkr.
    cbn [queues added]. destruct (decide (r = p)) as [->|Hr'].
    - rewrite lookup_insert_eq, Hp. split; [intros [= <-]; congruence|done].
    - by rewrite lookup_insert_ne. }
  pose proof (fi_queue _ _ HI0 p q Hq) as HQ.
  pose proof (requeue_spec env false skb dev ts s0 q HQ ltac:(lia)) as HB. rewrite Hr in HB.
  destruct HB as (_ & Hk' & _). unfold requeue in Hr.
  destruct (aged env false s0 (held q)) as [q1 pe1] eqn:Ea. injection Hr as _ Epe. subst pe1.
  assert (∀ a, is_Some (peers s !! a) → default 0 (pe !! a) = default 0 (peers s !! a) ∨
    default 0 (pe !! a) = u32 (default 0 (peers s !! a) + 1)) as Hpeers.
  { intros a [x Hx]. pose proof (aged_peers _ _ _ _ _ _ Ea a) as H.
    rewrite (lookup_weaken _ _ _ _ Hx Hpe) in H. by rewrite Hx. }
  apply (tracked_other sz _ _ _ _ _ s _ HI HT); [intros r qr Hkr; rewrite <- (Hsame r qr Hkr)|]; destruct (queue_full q').
  - rewrite E in E'. injection E' as _ ->. cbn [queues removed update upd_peers].
    rewrite lookup_delete_Some. split; [by intros [_ ?]|]. intros Hx. split; [|done]. intros <-. congruence.
  - destruct E' as (lru & E' & _). rewrite E in E'. injection E' as _ ->. cbn [queues stored].
    destruct (decide (r = p)) as [->|Hr'].
    + rewrite lookup_insert_eq, Hq. split; intros [= <-]; [|congruence].
      change (q_key q' = k) in Hkr. congruence.
    + by rewrite lookup_insert_ne.
  - rewrite E in E'. by injection E' as _ ->.
  - destruct E' as (lru & E' & _). rewrite E in E'. by injection E' as _ ->.
Qed.

(** A fragment of the datagram completes it, or waits with the others. *)
Lemma defrag_own env sz T M n skb user dev ts s k P Hd C i :
  0 <= sz → calm sz T M n env ts → ip_frag_mem s <= M → frag_inv sz s → tracked k P Hd C i s →
  0 <= i < n → (∀ hd, Hd hd → Z.of_nat (length (hd ++ P)) <= 65535) →
  pkt_key (data skb) user = k → piece P Hd skb →
  let C' x := C x ∨ spans skb x in
  ∃ ret s', ip_defrag env skb user false dev ts s = Some (ret, s') ∧
    ((∀ x, 0 <= x < Z.of_nat (length P) → C' x) ∧
     (∃ skb' hd, ret = Some skb' ∧ Hd hd ∧ ip_send_check (data skb') = whole hd P) ∧
     (∀ p q, queues s' !! p = Some q → q_key q ≠ k) ∨
     ¬ (∀ x, 0 <= x < Z.of_nat (length P) → C' x) ∧ ret = None ∧ tracked k P Hd C' (i + 1) s').
Proof.
  intros Hz HC Hm HI [HT1 HT2] Hi Hlen Hkey HP C'. pose proof (calm_evicted _ _ _ _ _ _ _ HC Hm) as Hev.
  destruct HC as [Hsz Hts Hqo Hex Hdist _].
  destruct (defrag_spec env sz skb user false dev ts s Hz ltac:(lia) Hsz HI) as (s1 & Hev1 & HI1 & Hd').
  rewrite Hev in Hev1. injection Hev1 as <-.
  destruct Hd' as [(Hno & _)|(s0 & p & q & q' & pe & [HI0 Hq Hk Hold] & Hr & E')]; [congruence|].
  pose proof (fi_queue _ _ HI0 p q Hq) as HQ.
  pose proof (requeue_spec env false skb dev ts s0 q HQ ltac:(lia)) as HB. rewrite Hr in HB.
  destruct HB as (B & Hk' & _).
  assert (holds P Hd C q ∧ (q_fragments q ≠ [] → ∀ a, q_peer q = Some a →
    u32 (default 0 (peers s0 !! a) - q_rid q) <= i)) as [HCq Hnear].
  { destruct Hold as [->|(Hno & _ & _ & He)].
    - destruct (HT1 p q Hq) as [? ?]; [congruence|]. by split.
    - split; [|by destruct He]. pose proof (holds_empty P Hd q He) as [G1 G2 G3 G4].
      assert (∀ x, False ↔ C x) as HCF.
      { intros x. split; [done|]. intros Hx. destruct HT2 as (r & qr & Hqr & Hkr); [by exists x|].
        apply (Hno r qr Hqr). congruence. }
      split; [done|done|intros x; by rewrite G3, HCF|by rewrite G4, HCF]. }
  destruct (requeue_near env skb dev ts s0 q q' pe P Hd C i n HQ ltac:(lia) ltac:(lia) ltac:(lia) Hdist Hnear HCq HP Hr)
    as [HC' Hrid].
  pose proof (is_fragment_stop P skb (pi_frag _ _ _ HP)) as (_ & Hspan & _).
  pose proof (holds_full P Hd C' q' (bq_wf _ _ B) (bq_open _ _ B) HC') as Hfull.
  specialize (Hfull ltac:(exists (frag_start skb); split; [apply frag_start_range|right; unfold spans; lia])).
  destruct (queue_full q') eqn:Ef.
  - eexists _, _. split; [exact E'|]. left. split; [by apply Hfull|]. split.
    + destruct (reassembled_spec env P Hd C' q' (bq_wf _ _ B) (bq_open _ _ B) HC' Ef) as (hd & H1 & H2 & H3).
      rewrite Hex, orb_false_r, (proj2 (Z.ltb_ge _ _)) in H3 by (by apply Hlen).
      destruct H3 as (skb' & H3 & H4). by exists skb', hd.
    + intros r qr. cbn [queues removed update upd_peers]. intros [Hne Hqr]%lookup_delete_Some Hkr.
      apply Hne. apply (fi_key _ _ HI0 p r q qr Hq Hqr). congruence.
  - destruct E' as (lru & E' & _). eexists _, _. split; [exact E'|]. right.
    split; [intros Hc; by apply Hfull in Hc|]. split; [done|]. split.
    + intros r qr. cbn [queues stored peers]. destruct (decide (r = p)) as [->|Hr'].
      * rewrite lookup_insert_eq. intros [= <-] _. split; [by apply (holds_ext _ _ _ q')|].
        intros a Ha. specialize (Hrid a Ha). change (q_rid (q' <| q_refcnt := 2 |>)) with (q_rid q'). lia.
      * rewrite lookup_insert_ne by done. intros Hqr Hkr. destruct Hr'.
        apply (fi_key _ _ HI0 r p qr q Hqr Hq). congruence.
    + intros _. exists p, (q' <| q_refcnt := 2 |>). cbn [queues stored]. rewrite lookup_insert_eq. split; [done|].
      change (q_key q' = k). congruence.
Qed.

Lemma tracked_mono k P Hd C C' i i' s : tracked k P Hd C i s → (∀ x, C x ↔ C' x) → i <= i' →
  tracked k P Hd C' i' s.
Proof.
  intros [H1 H2] HC Hi. split.
  - intros p q Hq Hk. destruct (H1 p q Hq Hk) as [[G1 G2 G3 G4] Ha]. split; [split|]; try done.
    + intros x. by rewrite G3.
    + by rewrite G4.
    + intros a Hpa. specialize (Ha a Hpa). lia.
  - intros [x Hx]. apply H2. exists x. by apply HC.
Qed.

(** The events of an undisturbed reassembly: packets, and new hash secrets. *)
Definition calm_event (sz T M n : Z) (k : Z * Z * Z * Z * Z) (P : list Z) (Hd : list Z → Prop)
    (e : frag_event) : Prop :=
  match e with
  | FE_packet env _ skb complete _ ts =>
      calm sz T M n env ts ∧ complete = false ∧ (event_key e = Some k → piece P Hd skb)
  | FE_rebuild _ => True
  | _ => False
  end.

(** The bytes of datagram [k] that an event brings. *)
Definition brings (k : Z * Z * Z * Z * Z) (e : frag_event) (x : Z) : Prop :=
  event_key e = Some k ∧ match e with FE_packet _ _ skb _ _ _ => spans skb x | _ => False end.
Definition covers (P : list Z) (C : Z → Prop) : Prop := ∀ x, 0 <= x < Z.of_nat (length P) → C x.

Lemma covers_ext P C C' : (∀ x, C x ↔ C' x) → covers P C ↔ covers P C'.
Proof. intros Hx. split; intros Hc x Hr; by apply Hx, Hc. Qed.

(** What an event does to the datagram [k] of which [C] is there. *)
Lemma step_calm sz T M n k P Hd C i e s :
  0 <= sz → 0 <= T → calm_event sz T M n k P Hd e → ip_frag_mem s <= M → frag_inv sz s →
  tracked k P Hd C i s → 0 <= i < n → (∀ hd, Hd hd → Z.of_nat (length (hd ++ P)) <= 65535) →
  let C' x := C x ∨ brings k e x in
  ∃ o s', frag_step e s = Some (o, s') ∧ frag_inv sz s' ∧ ip_frag_mem s' <= ip_frag_mem s + (T + sz) ∧
    if decide (event_key e = Some k) then
      covers P C' ∧ (∃ skb hd, o = Some (NF_ACCEPT, Some skb) ∧ Hd hd ∧ data skb = whole hd P) ∧
        (∀ p q, queues s' !! p = Some q → q_key q ≠ k) ∨
      ¬ covers P C' ∧ o = Some (NF_STOLEN, None) ∧ tracked k P Hd C' (i + 1) s'
    else tracked k P Hd C' (i + 1) s'.
Proof.
  intros Hz HT0 He Hm HI HT Hi Hlen C'. destruct e as [env hk skb complete dev ts|env p|rnd|a]; try done.
  - cbn [frag_step]. rewrite packet_defrag. fold (hook_user hk). destruct He as (HC & -> & HP).
    unfold C', brings in *. cbn [event_key] in *.
    destruct (flag _ _).
    2: { eexists _, s. split; [done|]. split; [done|]. split; [lia|]. destruct (decide _); [done|].
         apply (tracked_mono _ _ _ _ _ _ _ _ HT); [naive_solver|lia]. }
    destruct (defrag_inv env sz skb (hook_user hk) false dev ts s Hz (proj1 (ca_ts _ _ _ _ _ _ HC)) (ca_sz _ _ _ _ _ _ HC) HI)
      as (ret & s' & E & HI').
    pose proof (defrag_mem env sz skb _ false dev ts s s ret s' Hz (proj1 (ca_ts _ _ _ _ _ _ HC)) (ca_sz _ _ _ _ _ _ HC)
      HI (calm_evicted _ _ _ _ _ _ _ HC Hm) E) as Hmem. pose proof (ca_ts _ _ _ _ _ _ HC) as Hts.
    rewrite E. cbn [mbind option_bind].
    exists (Some (match ret with
                  | None => (NF_STOLEN, None)
                  | Some skb => (NF_ACCEPT, Some (skb <| data := ip_send_check (data skb) |>))
                  end)), s'.
    split; [by destruct ret|]. split; [done|]. split; [lia|]. destruct (decide _) as [[= Ek]|Ek].
    + destruct (defrag_own env sz T M n skb (hook_user hk) dev ts s k P Hd C i Hz HC Hm HI HT Hi Hlen Ek
        (HP ltac:(by rewrite Ek))) as (ret' & s'' & E' & Hor). rewrite E in E'. injection E' as <- <-.
      assert (∀ x, C x ∨ spans skb x ↔ C x ∨ Some (pkt_key (data skb) (hook_user hk)) = Some k ∧ spans skb x) as Hx.
      { intros x. rewrite Ek. naive_solver. }
      pose proof (covers_ext P _ _ Hx) as Hcov. destruct Hor as [(H1 & (skb' & hd & -> & H2 & H3) & H4)|(H1 & -> & H2)].
      * left. split; [by apply Hcov|]. split; [|done]. by exists (skb' <| data := ip_send_check (data skb') |>), hd.
      * right. split; [by rewrite <- Hcov|]. split; [done|]. by apply (tracked_mono _ _ _ _ _ _ _ _ H2).
    + assert (pkt_key (data skb) (hook_user hk) ≠ k) as Ek' by congruence.
      apply (tracked_mono k P Hd C _ (i + 1)); [|naive_solver|done].
      by apply (defrag_other env sz T M n skb (hook_user hk) dev ts s k P Hd C i ret s').
  - cbn [frag_step event_key]. eexists _, _. split; [done|]. split; [by apply rebuild_inv|].
    destruct (rebuild_spec sz rnd s HI) as (_ & [hsh ->] & _). split; [cbn; lia|].
    apply (tracked_mono k P Hd C _ i); [done| |lia]. unfold C', brings. cbn [event_key]. naive_solver.
Qed.

Definition brought (k : Z * Z * Z * Z * Z) (l : list frag_event) (x : Z) : Prop := ∃ e, e ∈ l ∧ brings k e x.

(** As long as bytes are missing, the fragments wait. *)
Lemma run_waits sz T M n k P Hd l : ∀ C i s,
  0 <= sz → 0 <= T → Forall (calm_event sz T M n k P Hd) l → frag_inv sz s → tracked k P Hd C i s →
  0 <= i → i + Z.of_nat (length l) <= n → ip_frag_mem s + Z.of_nat (length l) * (T + sz) <= M →
  (∀ hd, Hd hd → Z.of_nat (length (hd ++ P)) <= 65535) →
  ¬ covers P (λ x, C x ∨ brought k l x) →
  ∃ os s', frag_run l s = Some (os, s') ∧ frag_inv sz s' ∧
    ip_frag_mem s' <= ip_frag_mem s + Z.of_nat (length l) * (T + sz) ∧
    tracked k P Hd (λ x, C x ∨ brought k l x) (i + Z.of_nat (length l)) s' ∧
    ∀ j e, l !! j = Some e → event_key e = Some k → os !! j = Some (Some (NF_STOLEN, None)).
Proof.
  induction l as [|e l IH]; intros C i s Hz HT0 Hl HI HT Hi Hn Hm Hlen Hnc; cbn [frag_run].
  { exists [], s. split; [done|]. split; [done|]. split; [cbn; lia|]. split; [|done].
    apply (tracked_mono _ _ _ _ _ _ _ _ HT); [|cbn; lia]. intros x. split; [by left|].
    intros [?|(e & []%elem_of_nil & _)]. done. }
  apply Forall_cons_iff in Hl as [He Hl]. cbn [length] in Hn, Hm.
  assert (∀ x, (C x ∨ brings k e x) ∨ brought k l x ↔ C x ∨ brought k (e :: l) x) as Hx.
  { intros x. unfold brought. setoid_rewrite elem_of_cons. naive_solver. }
  destruct (step_calm sz T M n k P Hd C i e s Hz HT0 He ltac:(lia) HI HT ltac:(lia) Hlen)
    as (o & s1 & -> & HI1 & Hm1 & Hor). cbn [mbind option_bind].
  assert (tracked k P Hd (λ x, C x ∨ brings k e x) (i + 1) s1 ∧
          (event_key e = Some k → o = Some (NF_STOLEN, None))) as [HT1 Ho].
  { destruct (decide _) as [Ek|Ek]; [|done]. destruct Hor as [[Hc _]|(_ & ? & ?)]; [|done].
    destruct Hnc. intros x Hr. apply Hx. left. by apply Hc. }
  destruct (IH _ (i + 1) s1 Hz HT0 Hl HI1 HT1) as (os & s2 & -> & HI2 & Hm2 & HT2 & Hos); [lia|lia|lia|done| |].
  { by rewrite (covers_ext _ _ _ Hx). }
  cbn [mbind option_bind]. exists (o :: os), s2. split; [done|]. split; [done|].
  split; [cbn [length]; lia|]. split.
  - apply (tracked_mono _ _ _ _ _ _ _ _ HT2); [done|cbn [length]; lia].
  - intros [|j] e' Hj Hk; cbn in Hj |- *; [|by apply (Hos j e')]. injection Hj as <-. by rewrite Ho.
Qed.

Lemma run_app l l' s : frag_run (l ++ l') s =
  '(os, s) ← frag_run l s; '(os', s) ← frag_run l' s; Some (os ++ os', s).
Proof.
  revert s. induction l as [|e l IH]; intros s; cbn [app frag_run].
  - cbn [mbind option_bind]. by destruct (frag_run l' s) as [[]|].
  - destruct (frag_step e s) as [[o s1]|]; [|done]. cbn [mbind option_bind]. rewrite IH.
    destruct (frag_run l s1) as [[os s2]|]; [|done]. cbn [mbind option_bind].
    by destruct (frag_run l' s2) as [[]|].
Qed.

(** ** The guarantees *)

(** C9: From the empty table, every sequence of packets at the hook, timeouts, changes of
    the hash secret and forgotten peers is processed: [ip_frag_reasm] never finds an empty
    queue, the evictor ends, hash table, list and counters agree on the queues, every
    queue is in order and referenced by table and timer only, and the memory in use,
    which is that of the queues, stays below the high threshold and one packet. *)
Theorem frag_run_safe sz H T rnd l :
  0 <= sz → 0 <= H → 0 <= T → Forall (event_ok sz H T) l →
  ∃ os s, frag_run l (frag_init rnd) = Some (os, s) ∧ frag_inv sz s ∧ 0 <= ip_frag_mem s <= H + T + sz.
Proof.
  intros Hz HH HT Hl. destruct (run_safe sz H T l _ Hz HH Hl (frag_init_inv sz rnd)) as (os & s & E & HI & Hm).
  exists os, s. split; [done|]. split; [done|]. split.
  - rewrite (fi_mem _ _ HI). apply q_costs_nonneg; [done|]. intros p q Hq. apply (fi_queue _ _ HI p q Hq).
  - cbn [ip_frag_mem frag_init] in Hm. lia.
Qed.

(** The header of a fragment at the start of datagram [k] among the events. *)
Definition first_hdr (k : Z * Z * Z * Z * Z) (l : list frag_event) (hd : list Z) : Prop :=
  ∃ env hk skb c dev ts, FE_packet env hk skb c dev ts ∈ l ∧
    event_key (FE_packet env hk skb c dev ts) = Some k ∧ frag_start skb = 0 ∧ hd = frag_hdr skb.

Definition event_frag (k : Z * Z * Z * Z * Z) (P : list Z) (e : frag_event) : Prop :=
  event_key e = Some k → match e with FE_packet _ _ skb _ _ _ => is_fragment P skb | _ => True end.

Lemma event_pieces k P l : Forall (event_frag k P) l → Forall (event_piece k P (first_hdr k l)) l.
Proof.
  rewrite !Forall_forall. intros Hl e He Hk. specialize (Hl e He Hk).
  destruct e as [env hk skb c dev ts| | |]; [|done..]. split; [done|]. intros H0. by exists env, hk, skb, c, dev, ts.
Qed.

(** C8: However packets, timeouts and evictions mix: if all fragments of datagram [k] are
    pieces of the payload [P], overlapping or repeated as they may be, each packet that
    the hook gives back for one of them is [P] under the header of a first fragment of
    [k], its length and checksum set and the fragment field cleared. *)
Theorem frag_run_whole sz H T rnd k P l os s i e v skb :
  0 <= sz → 0 <= H → Forall (event_ok sz H T) l → Forall (event_frag k P) l →
  frag_run l (frag_init rnd) = Some (os, s) →
  l !! i = Some e → event_key e = Some k → os !! i = Some (Some (v, Some skb)) →
  v = NF_ACCEPT ∧ ∃ hd, first_hdr k l hd ∧ Z.of_nat (length hd) = ihl (iphdr_at hd 0) * 4 ∧
    data skb = whole hd P.
Proof.
  intros Hz HH Hl HF E. apply (run_sound sz H T k P (first_hdr k l) l (frag_init rnd) os s);
    try done; [apply frag_init_inv|by apply event_pieces].
Qed.

Definition quiet (sz T M n : Z) (k : Z * Z * Z * Z * Z) (P : list Z) (e : frag_event) : Prop :=
  match e with
  | FE_packet env _ skb complete _ ts =>
      calm sz T M n env ts ∧ complete = false ∧
      (event_key e = Some k → is_fragment P skb ∧ ihl (skb_iph skb) * 4 + Z.of_nat (length P) <= 65535)
  | FE_rebuild _ => True
  | _ => False
  end.

Lemma quiet_calm sz T M n k P l :
  Forall (quiet sz T M n k P) l →
  Forall (calm_event sz T M n k P (λ hd, first_hdr k l hd ∧ Z.of_nat (length (hd ++ P)) <= 65535)) l.
Proof.
  rewrite !Forall_forall. intros Hl e He. specialize (Hl e He).
  destruct e as [env hk skb c dev ts| | |]; try done. destruct Hl as (HC & Hc & Hk).
  split; [done|]. split; [done|]. intros Ek. destruct (Hk Ek) as [HF Hle]. split; [done|].
  intros H0. split; [by exists env, hk, skb, c, dev, ts|].
  unfold frag_hdr. rewrite length_app, length_take. pose proof (if_hdr _ _ HF).
  pose proof (ihl_range (data skb) 0). fold (skb_iph skb) in *. unfold skb_len in *. lia.
Qed.

(** C5: Fragments that together cover a datagram bring it out, whatever their order and
    however they repeat and overlap, and mixed with other traffic: from a table without
    queue for [k], all of them are stolen until the one with which the last byte arrives,
    and for that one the hook accepts the whole datagram and the queue is gone.  The table
    must have room for the packets below the high threshold, and no more packets arrive
    than the distance that counts as lost. *)
Theorem frag_run_completes sz T M k P l e s (n := Z.of_nat (length (l ++ [e]))) :
  0 <= sz → 0 <= T → frag_inv sz s → (∀ p q, queues s !! p = Some q → q_key q ≠ k) →
  Forall (quiet sz T M n k P) (l ++ [e]) → ip_frag_mem s + n * (T + sz) <= M →
  event_key e = Some k → ¬ covers P (brought k l) → covers P (brought k (l ++ [e])) →
  ∃ os skb hd s', frag_run (l ++ [e]) s = Some (os ++ [Some (NF_ACCEPT, Some skb)], s') ∧
    (∀ j e', l !! j = Some e' → event_key e' = Some k → os !! j = Some (Some (NF_STOLEN, None))) ∧
    first_hdr k (l ++ [e]) hd ∧ data skb = whole hd P ∧
    frag_inv sz s' ∧ ∀ p q, queues s' !! p = Some q → q_key q ≠ k.
Proof.
  intros Hz HT0 HI Hno Hq%quiet_calm Hm Ek Hnc Hc. unfold n in *. clear n. set (Hd := λ hd, _ ∧ _) in Hq.
  apply Forall_app in Hq as [Hl [He _]%Forall_cons_iff]. rewrite length_app in *. cbn [length] in *.
  rewrite Nat2Z.inj_add, Z.mul_add_distr_r in Hm.
  assert (∀ x, brought k l x ↔ False ∨ brought k l x) as Hx0 by naive_solver.
  destruct (run_waits sz T M (Z.of_nat (length l + 1)) k P Hd l (λ _, False) 0 s)
    as (os & s1 & E1 & HI1 & Hm1 & HT1 & Hos); try done; [|lia|nia|by intros hd [_ ?]|by rewrite <- (covers_ext _ _ _ Hx0)|].
  { split; [|by intros []]. intros p q Hpq Hkq. by destruct (Hno p q). }
  destruct (step_calm sz T M (Z.of_nat (length l + 1)) k P Hd _ _ e s1 Hz HT0 He ltac:(lia) HI1 HT1)
    as (o & s2 & E2 & HI2 & _ & Hor); [lia|by intros hd [_ ?]|].
  assert (∀ x, brought k (l ++ [e]) x ↔ (False ∨ brought k l x) ∨ brings k e x) as Hx.
  { intros x. unfold brought. setoid_rewrite elem_of_app. setoid_rewrite list_elem_of_singleton. naive_solver. }
  rewrite (covers_ext _ _ _ Hx) in Hc. destruct (decide _); [|done].
  destruct Hor as [(_ & (skb & hd & -> & [H1 _] & H2) & H3)|[Hn _]]; [|done].
  exists os, skb, hd, s2. rewrite run_app, E1. cbn [mbind option_bind frag_run]. by rewrite E2.
Qed.

(** ** An example: twenty bytes in three pieces, out of order, with other traffic *)
Definition ex_env : frag_env := mk_fenv 0 262144 196608 64 3000 92 true true true (λ _, true) 0.
Definition ex_frag (id off : Z) (mf : bool) (body : list Z) : sk_buff :=
  mk_skb ([69; 0] ++ be16 (20 + Z.of_nat (length body)) ++ be16 id
          ++ be16 (off / 8 + if mf then 8192 else 0) ++ [64; 17; 0; 0] ++ be32 1 ++ be32 2 ++ body)
    0 0 None 0 0 0.
Definition ex_payload : list Z := [1; 2; 3; 4; 5; 6; 7; 8; 9; 10; 11; 12; 13; 14; 15; 16; 17; 18; 19; 20].
Definition ex_packet (skb : sk_buff) : frag_event := FE_packet ex_env NF_IP_PRE_ROUTING skb false None 256.
Definition ex_tail := ex_packet (ex_frag 7 8 false (drop 8 ex_payload)).
Definition ex_mid := ex_packet (ex_frag 7 8 true [9; 10; 11; 12; 13; 14; 15; 16]).
Definition ex_head := ex_packet (ex_frag 7 0 true (take 16 ex_payload)).
Definition ex_other := ex_packet (ex_frag 8 0 true [0; 0; 0; 0; 0; 0; 0; 0]).
Definition ex_front : list frag_event := [ex_mid; ex_other; ex_tail; FE_rebuild 99].
Definition ex_key : Z * Z * Z * Z * Z := pkt_key (data (ex_frag 7 0 true [])) IP_DEFRAG_CONNTRACK_IN.

Lemma ex_calm : calm 92 256 262144 5 ex_env 256.
Proof. by split. Qed.

Lemma ex_event_ok : Forall (event_ok 92 262144 256) (ex_front ++ [ex_head]).
Proof. repeat constructor; try done; simpl; lia. Qed.

Lemma ex_is_fragment off mf body : 
  (off, mf, body) ∈ [(8, false, drop 8 ex_payload); (8, true, [9; 10; 11; 12; 13; 14; 15; 16]); (0, true, take 16 ex_payload)] →
  is_fragment ex_payload (ex_frag 7 off mf body).
Proof.
  rewrite !elem_of_cons. intros [[= -> -> ->]|[[= -> -> ->]|[[= -> -> ->]|[]%elem_of_nil]]].
  all: split; [by vm_compute|by vm_compute|split; by vm_compute|by vm_compute].
Qed.

Lemma ex_quiet : Forall (quiet 92 256 262144 5 ex_key ex_payload) (ex_front ++ [ex_head]).
Proof.
  repeat constructor; try (split; [apply ex_calm|]); try (split; [done|]); try done; intros _;
    (split; [|by vm_compute]); apply ex_is_fragment; set_solver.
Qed.

Lemma ex_frags : Forall (event_frag ex_key ex_payload) (ex_front ++ [ex_head]).
Proof.
  repeat (apply Forall_cons_iff; split); try (intros Hk; try done; apply ex_is_fragment; set_solver). constructor.
Qed.

Lemma frag_run_safe_witness : 
  ∃ os s, frag_run (ex_front ++ [ex_head; FE_expire ex_env 1; FE_forget 1]) (frag_init 5) = Some (os, s) ∧ frag_inv 92 s
    ∧ 0 <= ip_frag_mem s <= 262144 + 256 + 92.
Proof.
  apply (frag_run_safe 92 262144 256 5); [done|done|done|]. 
  repeat constructor; try done; simpl; lia.
Defined.

Lemma frag_run_whole_witness : ∃ os s skb,
  frag_run (ex_front ++ [ex_head]) (frag_init 5) = Some (os, s) ∧
  os !! 4%nat = Some (Some (NF_ACCEPT, Some skb)) ∧
  ∃ hd, first_hdr ex_key (ex_front ++ [ex_head]) hd ∧ Z.of_nat (length hd) = ihl (iphdr_at hd 0) * 4 ∧
    data skb = whole hd ex_payload.
Proof.
  destruct (frag_run (ex_front ++ [ex_head]) (frag_init 5)) as [[os s]|] eqn:E; [|by vm_compute in E].
  destruct (os !! 4%nat) as [[[v [skb|]]|]|] eqn:E4.
  2-4: exfalso; revert E; vm_compute; intros [= <- _]; by vm_compute in E4.
  destruct (frag_run_whole 92 262144 256 5 ex_key ex_payload (ex_front ++ [ex_head]) os s 4 ex_head v skb)
    as [-> Hd]; [done|done|apply ex_event_ok|apply ex_frags|done|done|by vm_compute|done|].
  exists os, s, skb. split; [reflexivity|]. split; [exact E4|exact Hd].
Defined.

Lemma frag_run_completes_witness : ∃ os skb hd s',
  frag_run (ex_front ++ [ex_head]) (frag_init 5) = Some (os ++ [Some (NF_ACCEPT, Some skb)], s') ∧
  os !! 0%nat = Some (Some (NF_STOLEN, None)) ∧
  first_hdr ex_key (ex_front ++ [ex_head]) hd ∧ data skb = whole hd ex_payload.
Proof.
  destruct (frag_run_completes 92 256 262144 ex_key ex_payload ex_front ex_head (frag_init 5))
    as (os & skb & hd & s' & E & Hos & Hh & Hd & _).
  - done.
  - done.
  - apply frag_init_inv.
  - done.
  - apply ex_quiet.
  - by vm_compute.
  - by vm_compute.
  - intros Hc. destruct (Hc 0) as (e & He & Hk & Hs); [by vm_compute|].
    unfold ex_front in He. rewrite !elem_of_cons in He.
    destruct He as [->|[->|[->|[->|[]%elem_of_nil]]]]; cbn [ex_mid ex_other ex_tail ex_packet] in Hs;
      try done; destruct Hs as [Hs _]; vm_compute in Hs; done.
  - intros x Hx. destruct (Z.ltb_spec x 16).
    + exists ex_head. split; [set_solver|]. split; [by vm_compute|]. split; [exact (proj1 Hx)|].
      by change (frag_stop _) with 16.
    + exists ex_tail. split; [set_solver|]. split; [by vm_compute|]. split; [change (frag_start _) with 8; lia|].
      change (frag_stop _) with 20. exact (proj2 Hx).
  - exists os, skb, hd, s'. split; [exact E|]. split; [|split; [exact Hh|exact Hd]].
    apply (Hos 0%nat ex_mid); by vm_compute.
Defined.
