(* ===== verification/Ftp.v ===== *)
(** * FTP and TFTP helpers

    [net/ipv4/netfilter/ip_conntrack_ftp.c] finds in the control connection of FTP the
    address and port at which a data connection will arrive, and expects it there;
    [ip_nat_ftp.c] chooses a port that is free on the outside and rewrites the packet.
    [ip_conntrack_tftp.c] and [ip_nat_tftp.c] do the first for TFTP.

    Text is a list of character codes.  An array of [u_int32_t] is a list; a parser
    returns its [int] and the array. *)
From S2P Require Import Prelude Packet CtBase TcpTrack CtProtos Conntrack NatProto NatCore NatHelper.

(** ** Characters and numbers *)

(** [isdigit] and [isupper] by the table of [lib/ctype.c]. *)
Definition isdigit (c : Z) : bool := (48 <=? c) && (c <=? 57).
Definition isupper (c : Z) : bool :=
  (65 <=? c) && (c <=? 90) || (192 <=? c) && (c <=? 222) && negb (c =? 215).
Definition tolower (c : Z) : Z := if isupper c then u8 (c + 32) else c.

(** Whether [strnicmp] returns 0 on the first [len] characters; [s2] ends with the
    terminating 0. *)
Fixpoint strnicmp_eq (s1 s2 : list Z) (len : nat) : option bool :=
  match len with
  | O => Some true
  | S len =>
      c1 ← hd_error s1;
      let c2 := hd 0 s2 in
      if (c1 =? 0) || (c2 =? 0) then Some (c1 =? c2)
      else if (c1 =? c2) || (tolower c1 =? tolower c2)
           then strnicmp_eq (tl s1) (tl s2) len else Some false
  end.

(** [sprintf] with [%u]. *)
Fixpoint utoa_loop (fuel : nat) (v : Z) : list Z :=
  match fuel with
  | O => []
  | S fuel => (if v <? 10 then [] else utoa_loop fuel (v / 10)) ++ [48 + v mod 10]
  end.
Definition utoa (v : Z) : list Z := utoa_loop 10 v.

(** ** Parsers

    [data] is the memory from the pointer [data] on and [dlen] how much of it belongs to
    the packet.  [None] is a read behind that memory. *)

(** The loop of [try_number]; [data] moves with [len]. *)
Fixpoint try_number_loop (data : list Z) (dlen array_size sep term len i : Z) (array : list Z)
    : option (Z * list Z) :=
  if negb ((len <? dlen) && (i <? array_size)) then Some (0, array)
  else
    match data with
    | [] => None
    | c :: data =>
        if isdigit c then
          let k := Z.to_nat i in
          try_number_loop data dlen array_size sep term (len + 1) i
            (<[k := u32 (nth k array 0 * 10 + c - 48)]> array)
        else if c =? sep then try_number_loop data dlen array_size sep term (len + 1) (i + 1) array
        else if (c =? term) && (i =? array_size - 1) then Some (len, array)
        else Some (0, array)
    end.

Definition try_number (data : list Z) (dlen : Z) (array : list Z) (array_size sep term : Z)
    : option (Z * list Z) :=
  try_number_loop data dlen array_size sep term 0 0
    (replicate (Z.to_nat array_size) 0 ++ drop (Z.to_nat array_size) array).

Definition COMMA := 44.
Definition DOT := 46.

Definition try_rfc959 (data : list Z) (dlen : Z) (array : list Z) (term : Z) : option (Z * list Z) :=
  try_number data dlen array 6 COMMA term.

(** [Some None] when the loop is left by [break] or at the end. *)
Fixpoint get_port_loop (data : list Z) (dlen delim i port : Z) : option (option (Z * Z)) :=
  if negb (i <? dlen) then Some None
  else
    match data with
    | [] => None
    | c :: data =>
        if c =? delim then Some (if port =? 0 then None else Some (port, i + 1))
        else if isdigit c then get_port_loop data dlen delim (i + 1) (u16 (port * 10 + c - 48))
        else Some None
    end.

(** [get_port] into [array + 4]. *)
Definition get_port (data : list Z) (start dlen delim : Z) (array : list Z) : option (Z * list Z) :=
  r ← get_port_loop (drop (Z.to_nat start) data) dlen delim start 0;
  Some (match r with
        | Some (port, n) => (n, <[5%nat := port]> (<[4%nat := Z.shiftr port 8]> array))
        | None => (0, array)
        end).

Definition bad_delim (delim : Z) : bool := isdigit delim || (delim <? 33) || (126 <? delim).

(** [||] reads a character only when those before it fit. *)
Definition try_eprt (data : list Z) (dlen : Z) (array : list Z) (term : Z) : option (Z * list Z) :=
  if dlen <=? 3 then Some (0, array)
  else
    delim ← data !! 0%nat;
    if bad_delim delim then Some (0, array)
    else
      c1 ← data !! 1%nat;
      if negb (c1 =? 49) then Some (0, array)
      else
        c2 ← data !! 2%nat;
        if negb (c2 =? delim) then Some (0, array)
        else
          '(length, array) ← try_number (drop 3 data) (dlen - 3) array 4 DOT delim;
          if length =? 0 then Some (0, array) else get_port data (3 + length + 1) dlen delim array.

Definition try_epsv_response (data : list Z) (dlen : Z) (array : list Z) (term : Z)
    : option (Z * list Z) :=
  if dlen <=? 3 then Some (0, array)
  else
    delim ← data !! 0%nat;
    if bad_delim delim then Some (0, array)
    else
      c1 ← data !! 1%nat;
      if negb (c1 =? delim) then Some (0, array)
      else
        c2 ← data !! 2%nat;
        if negb (c2 =? delim) then Some (0, array) else get_port data 3 dlen delim array.

(** ** Searching a packet *)
Inductive ip_ct_ftp_type := IP_CT_FTP_PORT | IP_CT_FTP_PASV | IP_CT_FTP_EPRT | IP_CT_FTP_EPSV.

Record ftp_search := mk_search {
  fs_dir : ip_conntrack_dir; pattern : list Z; skip : Z; term : Z;
  ftptype : ip_ct_ftp_type; getnum : list Z → Z → list Z → Z → option (Z * list Z) }.

(** PORT, 227, EPRT, 229. *)
Definition search : list ftp_search :=
  [ mk_search IP_CT_DIR_ORIGINAL [80; 79; 82; 84] 32 13 IP_CT_FTP_PORT try_rfc959;
    mk_search IP_CT_DIR_REPLY [50; 50; 55; 32] 40 41 IP_CT_FTP_PASV try_rfc959;
    mk_search IP_CT_DIR_ORIGINAL [69; 80; 82; 84] 32 13 IP_CT_FTP_EPRT try_eprt;
    mk_search IP_CT_DIR_REPLY [50; 50; 57; 32] 40 41 IP_CT_FTP_EPSV try_epsv_response ].

(** The position behind the skip character; [Some None] when it does not come. *)
Fixpoint find_skip (data : list Z) (dlen skip i : Z) : option (option Z) :=
  match data with
  | [] => None
  | c :: data =>
      if c =? skip then Some (Some (i + 1))
      else if i =? dlen - 1 then Some None
      else find_skip data dlen skip (i + 1)
  end.

(** The results 0, -1 and 1 of [find_pattern]. *)
Inductive ftp_found := ftp_none | ftp_partial | ftp_match (numoff numlen : Z).

Definition find_pattern (data : list Z) (dlen : Z) (f : ftp_search) (array : list Z)
    : option (ftp_found * list Z) :=
  let plen := Z.of_nat (length (pattern f)) in
  if dlen =? 0 then Some (ftp_none, array)
  else if dlen <=? plen then
    eq ← strnicmp_eq data (pattern f) (Z.to_nat dlen);
    Some (if eq : bool then ftp_partial else ftp_none, array)
  else
    eq ← strnicmp_eq data (pattern f) (Z.to_nat plen);
    if negb eq then Some (ftp_none, array)
    else
      r ← find_skip (drop (Z.to_nat plen) data) dlen (skip f) plen;
      match r with
      | None => Some (ftp_partial, array)
      | Some i =>
          '(numlen, array) ← getnum f (drop (Z.to_nat i) data) (dlen - i) array (term f);
          Some (if numlen =? 0 then ftp_partial else ftp_match i numlen, array)
      end.

(** The loop of [help] over [search]: the first pattern that is found, fully or in part. *)
Fixpoint search_loop (l : list ftp_search) (dir : ip_conntrack_dir) (data : list Z) (dlen : Z)
    (array : list Z) : option (ftp_found * option ftp_search * list Z) :=
  match l with
  | [] => Some (ftp_none, None, array)
  | f :: l =>
      if negb (dir_eqb (fs_dir f) dir) then search_loop l dir data dlen array
      else
        '(r, array) ← find_pattern data dlen f array;
        match r with
        | ftp_none => search_loop l dir data dlen array
        | _ => Some (r, Some f, array)
        end
  end.

(** ** Where lines start *)
Definition NUM_SEQ_TO_REMEMBER := 2.

(** One direction of [struct ip_ct_ftp_master]. *)
Record ftp_nl := mk_nl { seq_aft_nl : list Z; seq_aft_nl_num : Z }.
Record ip_ct_ftp_master := mk_ftp { nl_orig : ftp_nl; nl_reply : ftp_nl }.

Definition nl_of (info : ip_ct_ftp_master) (dir : ip_conntrack_dir) : ftp_nl :=
  match dir with IP_CT_DIR_ORIGINAL => nl_orig info | IP_CT_DIR_REPLY => nl_reply info end.
Definition set_nl (dir : ip_conntrack_dir) (nl : ftp_nl) (info : ip_ct_ftp_master) : ip_ct_ftp_master :=
  match dir with
  | IP_CT_DIR_ORIGINAL => mk_ftp nl (nl_reply info)
  | IP_CT_DIR_REPLY => mk_ftp (nl_orig info) nl
  end.

Definition find_nl_seq (seq : Z) (nl : ftp_nl) : bool :=
  existsb (λ x, x =? seq) (take (Z.to_nat (seq_aft_nl_num nl)) (seq_aft_nl nl)).

(** [None]: [nl_seq] is there already. *)
Fixpoint oldest_loop (l : list Z) (i oldest num nl_seq : Z) : option Z :=
  match l with
  | [] => Some oldest
  | x :: l =>
      if x =? nl_seq then None
      else oldest_loop l (i + 1) (if (oldest =? num) || before x oldest then i else oldest) num nl_seq
  end.

Definition update_nl_seq (nl_seq : Z) (nl : ftp_nl) : ftp_nl :=
  let num := seq_aft_nl_num nl in
  match oldest_loop (take (Z.to_nat num) (seq_aft_nl nl)) 0 NUM_SEQ_TO_REMEMBER num nl_seq with
  | None => nl
  | Some oldest =>
      if num <? NUM_SEQ_TO_REMEMBER
      then mk_nl (<[Z.to_nat num := nl_seq]> (seq_aft_nl nl)) (num + 1)
      else if negb (oldest =? NUM_SEQ_TO_REMEMBER)
           then mk_nl (<[Z.to_nat oldest := nl_seq]> (seq_aft_nl nl)) num
           else nl
  end.

(** ** The surroundings

    The module parameter, whether the NAT helper is there, the hardware-NAT module
    ([star9100_shnat_nf_nat_preadd_hnatable_hook], not in the tree), and what rewriting a
    packet needs. *)
Record ftp_env := mk_ftpenv {
  loose : bool; nat_hook : bool;
  star9100_shnat_hook_ready : bool;
  shnat_preadd_hook : ip_conntrack → ip_conntrack_dir → Z → Z;
  f_writable : bool; f_tailroom : Z }.

#[export] Instance upd_exp_tuple : Update exp_tuple := λ v e,
  mk_exp v (exp_mask e) (expectfn e) (exp_master e) (exp_timeout e) (exp_use e) (exp_id e)
    (exp_flags e).
#[export] Instance upd_expectfn : Update expectfn := λ v e,
  mk_exp (exp_tuple e) (exp_mask e) v (exp_master e) (exp_timeout e) (exp_use e) (exp_id e)
    (exp_flags e).

(** The fields [saved_proto] and [dir] that NAT adds to an expectation. *)
Record exp_nat := mk_expnat { saved_proto : Z; exp_dir : ip_conntrack_dir }.

(** [exp->tuple.dst.u.tcp.port = htons(port)] *)
Definition set_exp_port (e : positive) (port : Z) (s : ct_state) : ct_state :=
  upd_exp e (λ x, x <| exp_tuple := (exp_tuple x) <| dst_u := htons port |> |>) s.

(** ** Rewriting the command *)
Definition nipquad (addr : Z) (i : Z) : Z := Z.land (Z.shiftr addr (8 * i)) 255.

Definition print_rfc959 (newip port : Z) : list Z :=
  utoa (nipquad newip 0) ++ [COMMA] ++ utoa (nipquad newip 1) ++ [COMMA]
  ++ utoa (nipquad newip 2) ++ [COMMA] ++ utoa (nipquad newip 3) ++ [COMMA]
  ++ utoa (Z.shiftr port 8) ++ [COMMA] ++ utoa (Z.land port 255).

Definition BAR := 124.

Definition print_eprt (newip port : Z) : list Z :=
  [BAR; 49; BAR] ++ utoa (nipquad newip 0) ++ [DOT] ++ utoa (nipquad newip 1) ++ [DOT]
  ++ utoa (nipquad newip 2) ++ [DOT] ++ utoa (nipquad newip 3) ++ [BAR] ++ utoa port ++ [BAR].

Definition print_epsv (newip port : Z) : list Z := [BAR; BAR; BAR] ++ utoa port ++ [BAR].

(** The table [mangle]: the text each function prints. *)
Definition mangle_text (type : ip_ct_ftp_type) : Z → Z → list Z :=
  match type with
  | IP_CT_FTP_PORT | IP_CT_FTP_PASV => print_rfc959
  | IP_CT_FTP_EPRT => print_eprt
  | IP_CT_FTP_EPSV => print_epsv
  end.

(** [mangle_rfc959_packet], [mangle_eprt_packet], [mangle_epsv_packet]: the result of
    [ip_nat_mangle_tcp_packet], the packet, [*seq] and the tracker. *)
Definition mangle_packet (fenv : ftp_env) (type : ip_ct_ftp_type) (skb : sk_buff) (newip port : Z)
    (matchoff matchlen : Z) (p : positive) (ctinfo seq : Z) (s : ct_state)
    : option (bool * sk_buff * Z * ct_state) :=
  let buffer := mangle_text type newip port in
  let seq := u32 (seq + Z.of_nat (length buffer) - matchlen) in
  ct ← cts s !! p;
  '(ret, skb, ct) ← ip_nat_mangle_tcp_packet (f_writable fenv) (f_tailroom fenv) skb ct ctinfo
                      matchoff matchlen buffer;
  Some (ret, skb, seq, upd_ct p (λ _, ct) s).

(** The loop at [orig_assign_port]; a [u_int16_t] that reaches 0 ends it. *)
Fixpoint assign_port_loop (fuel : nat) (env : ct_env) (e : positive) (port : Z) (s : ct_state)
    : option (Z * ct_state) :=
  if port =? 0 then Some (0, s)
  else
    match fuel with
    | O => None
    | S fuel =>
        '(ret, s) ← ip_conntrack_expect_related env e (set_exp_port e port s);
        if ret =? 0 then Some (port, s) else assign_port_loop fuel env e (u16 (port + 1)) s
    end.

Definition orig_assign_port (env : ct_env) (e : positive) (port : Z) (s : ct_state)
    : option (Z * ct_state) := assign_port_loop (Z.to_nat 65536) env e port s.

(** The direction to ask the hardware for, [None] for [orig_assign_port]. *)
Definition shnat_dir (fenv : ftp_env) (ct : ip_conntrack) (dir : ip_conntrack_dir)
    : option ip_conntrack_dir :=
  if negb (star9100_shnat_hook_ready fenv) then None
  else
    match dir with
    | IP_CT_DIR_ORIGINAL =>
        if dst_ip (tuple_orig ct) =? src_ip (tuple_reply ct) then Some dir
        else if src_ip (tuple_orig ct) =? dst_ip (tuple_reply ct) then Some (dir_neg dir) else None
    | IP_CT_DIR_REPLY =>
        if src_ip (tuple_orig ct) =? dst_ip (tuple_reply ct) then Some dir else None
    end.

Definition choose_port (env : ct_env) (fenv : ftp_env) (e : positive) (ct : ip_conntrack)
    (dir : ip_conntrack_dir) (saved : Z) (s : ct_state) : option (Z * ct_state) :=
  match shnat_dir fenv ct dir with
  | None => orig_assign_port env e (ntohs saved) s
  | Some d =>
      let shnat_hash := shnat_preadd_hook fenv ct d (htons saved) in
      if 0 <=? shnat_hash then
        let port := u16 shnat_hash in
        '(_, s) ← ip_conntrack_expect_related env e (set_exp_port e port s);
        Some (port, s)
      else orig_assign_port env e (ntohs saved) s
  end.

(** [follow] is the number of [ip_nat_follow_master].  The results are the verdict, the
    packet, [*seq], the NAT fields of the expectation and the tracker. *)
Definition ip_nat_ftp (env : ct_env) (fenv : ftp_env) (follow : positive) (skb : sk_buff) (ctinfo : Z)
    (type : ip_ct_ftp_type) (matchoff matchlen : Z) (e : positive) (seq : Z) (s : ct_state)
    : option (Z * sk_buff * Z * exp_nat * ct_state) :=
  let dir := CTINFO2DIR ctinfo in
  exp ← exps s !! e;
  ct ← cts s !! exp_master exp;
  let newip := dst_ip (tuplehash ct (dir_neg dir)) in
  let nat := mk_expnat (dst_u (exp_tuple exp)) (dir_neg dir) in
  let s := upd_exp e (λ x, x <| expectfn := Some follow |>) s in
  '(port, s) ← choose_port env fenv e ct dir (saved_proto nat) s;
  if port =? 0 then Some (NF_DROP, skb, seq, nat, s)
  else
    '(ok, skb, seq, s) ← mangle_packet fenv type skb newip port matchoff matchlen (exp_master exp)
                           ctinfo seq s;
    if negb ok then
      exp ← exps s !! e;
      Some (NF_DROP, skb, seq, nat, ip_conntrack_unexpect_related exp s)
    else Some (NF_ACCEPT, skb, seq, nat, s).

(** ** The helper *)
Definition octets (addr : Z) : list Z :=
  let a := ntohl addr in
  [Z.land (Z.shiftr a 24) 255; Z.land (Z.shiftr a 16) 255; Z.land (Z.shiftr a 8) 255; Z.land a 255].

(** [(array[0] << 24) | (array[1] << 16) | (array[2] << 8) | array[3]] *)
Definition array_addr (array : list Z) : Z :=
  Z.lor (Z.lor (Z.lor (u32 (Z.shiftl (nth 0 array 0) 24)) (u32 (Z.shiftl (nth 1 array 0) 16)))
           (u32 (Z.shiftl (nth 2 array 0) 8))) (nth 3 array 0).
Definition array_port (array : list Z) : Z :=
  u16 (Z.lor (u32 (Z.shiftl (nth 4 array 0) 8)) (nth 5 array 0)).

Definition ftp_mask : ip_conntrack_tuple :=
  mk_tuple 4294967295 0 4294967295 65535 255 IP_CT_DIR_ORIGINAL.

(** What [help] leaves behind: the fields NAT added to the expectation, if it did. *)
Definition ftp_result : Type := Z * sk_buff * ip_ct_ftp_master * option (positive * exp_nat) * ct_state.

(** The part of [help] from the allocation of the expectation to [out_put_expect]; the
    first result is [false] at the exit that skips [update_nl_seq]. *)
Definition ftp_expect (env : ct_env) (fenv : ftp_env) (follow : positive) (skb : sk_buff)
    (p : positive) (ct : ip_conntrack) (ctinfo : Z) (f : ftp_search) (matchoff matchlen : Z)
    (array : list Z) (seq : Z) (s : ct_state)
    : option (bool * Z * sk_buff * Z * option (positive * exp_nat) * ct_state) :=
  let dir := CTINFO2DIR ctinfo in
  let rev := tuplehash ct (dir_neg dir) in
  let addr := htonl (array_addr array) in
  let other := negb (addr =? src_ip (tuplehash ct dir)) in
  let tuple := mk_tuple (src_ip rev) 0 (if other then addr else dst_ip rev)
                 (htons (array_port array)) IPPROTO_TCP IP_CT_DIR_ORIGINAL in
  match ip_conntrack_expect_alloc env p tuple ftp_mask None 0 s with
  | (None, s) => Some (false, NF_DROP, skb, seq, None, s)
  | (Some e, s) =>
      if other && negb (loose fenv)
      then Some (true, NF_ACCEPT, skb, seq, None, ip_conntrack_expect_put e s)
      else if nat_hook fenv then
        '(ret, skb, seq, nat, s) ← ip_nat_ftp env fenv follow skb ctinfo (ftptype f) matchoff matchlen
                                     e seq s;
        Some (true, ret, skb, seq, Some (e, nat), ip_conntrack_expect_put e s)
      else
        '(ret, s) ← ip_conntrack_expect_related env e s;
        Some (true, if ret =? 0 then NF_ACCEPT else NF_DROP, skb, seq, None,
              ip_conntrack_expect_put e s)
  end.

(** [help] of [ip_conntrack_ftp.c] on the packet [skb] of the connection at [p]. *)
Definition ftp_help (env : ct_env) (fenv : ftp_env) (follow : positive) (skb : sk_buff) (p : positive)
    (ctinfo : Z) (info : ip_ct_ftp_master) (s : ct_state) : option ftp_result :=
  let dir := CTINFO2DIR ctinfo in
  let h := ihl (skb_iph skb) * 4 in
  let finish ends_in_nl seq info :=
    if ends_in_nl : bool then set_nl dir (update_nl_seq seq (nl_of info dir)) info else info in
  ct ← cts s !! p;
  if negb (ctinfo =? IP_CT_ESTABLISHED) && negb (ctinfo =? IP_CT_ESTABLISHED + IP_CT_IS_REPLY)
  then Some (NF_ACCEPT, skb, info, None, s)
  else
    match skb_header_pointer skb h sizeof_tcphdr with
    | None => Some (NF_ACCEPT, skb, info, None, s)
    | Some _ =>
        let th := tcphdr_at (data skb) h in
        let dataoff := h + th_doff th * 4 in
        if skb_len skb <=? dataoff then Some (NF_ACCEPT, skb, info, None, s)
        else
          let datalen := skb_len skb - dataoff in
          let fb := drop (Z.to_nat dataoff) (data skb) in
          last ← fb !! Z.to_nat (datalen - 1);
          let ends_in_nl := last =? 10 in
          let seq := u32 (ntohl (th_seq th) + datalen) in
          if negb (find_nl_seq (ntohl (th_seq th)) (nl_of info dir))
          then Some (NF_ACCEPT, skb, finish ends_in_nl seq info, None, s)
          else
            let array := octets (src_ip (tuplehash ct dir)) ++ [0; 0] in
            r ← search_loop search dir fb datalen array;
            match r with
            | (ftp_partial, _, _) => Some (NF_DROP, skb, info, None, s)
            | (ftp_match matchoff matchlen, Some f, array) =>
                '(update, ret, skb, seq, nat, s) ← ftp_expect env fenv follow skb p ct ctinfo f matchoff
                                                     matchlen array seq s;
                Some (ret, skb, if update : bool then finish ends_in_nl seq info else info, nat, s)
            | (_, _, _) => Some (NF_ACCEPT, skb, finish ends_in_nl seq info, None, s)
            end
    end.

(** ** TFTP *)
Definition TFTP_OPCODE_READ := 1.
Definition TFTP_OPCODE_WRITE := 2.

(** [help] of [ip_nat_tftp.c]. *)
Definition ip_nat_tftp (env : ct_env) (follow : positive) (e : positive) (s : ct_state)
    : option (Z * exp_nat * ct_state) :=
  exp ← exps s !! e;
  ct ← cts s !! exp_master exp;
  let nat := mk_expnat (src_u (tuple_orig ct)) IP_CT_DIR_REPLY in
  let s := upd_exp e (λ x, x <| expectfn := Some follow |>) s in
  '(ret, s) ← ip_conntrack_expect_related env e s;
  Some (if ret =? 0 then NF_ACCEPT else NF_DROP, nat, s).

Definition tftp_help (env : ct_env) (nat_tftp_hook : bool) (follow : positive) (skb : sk_buff)
    (p : positive) (s : ct_state) : option (Z * option (positive * exp_nat) * ct_state) :=
  ct ← cts s !! p;
  match skb_header_pointer skb (ihl (skb_iph skb) * 4 + sizeof_udphdr) 2 with
  | None => Some (NF_ACCEPT, None, s)
  | Some tfh =>
      let opcode := ntohs (ld16 tfh 0) in
      if (opcode =? TFTP_OPCODE_READ) || (opcode =? TFTP_OPCODE_WRITE) then
        match ip_conntrack_expect_alloc env p (tuple_reply ct) ftp_mask None 0 s with
        | (None, s) => Some (NF_DROP, None, s)
        | (Some e, s) =>
            '(nat, s) ← (if nat_tftp_hook
                         then '(_, nat, s) ← ip_nat_tftp env follow e s; Some (Some (e, nat), s)
                         else '(_, s) ← ip_conntrack_expect_related env e s; Some (None, s));
            Some (NF_ACCEPT, nat, ip_conntrack_expect_put e s)
        end
      else Some (NF_ACCEPT, None, s)
  end.
