(* ===== verification/FtpFacts.v ===== *)
(** * FTP helper: parsing and printing

    [try_number] accepts a grammar; what the NAT helper prints is in it and is read back
    as the same address and port. *)
From S2P Require Import Prelude Packet CtBase TcpTrack CtProtos Conntrack NatProto NatCore NatHelper Ftp.

(** ** The parsers on a text

    What the parsers compute when the text, the [dlen] characters from [data] on, is taken
    as a list; the lemmas [_reads] say that they read no more than this. *)
Fixpoint number_loop (data : list Z) (array_size sep term len i : Z) (array : list Z) : Z * list Z :=
  match data with
  | [] => (0, array)
  | c :: data =>
      if negb (i <? array_size) then (0, array)
      else if isdigit c then
        let k := Z.to_nat i in
        number_loop data array_size sep term (len + 1) i
          (<[k := u32 (nth k array 0 * 10 + c - 48)]> array)
      else if c =? sep then number_loop data array_size sep term (len + 1) (i + 1) array
      else if (c =? term) && (i =? array_size - 1) then (len, array)
      else (0, array)
  end.
Definition number_text (data array : list Z) (array_size sep term : Z) : Z * list Z :=
  number_loop data array_size sep term 0 0
    (replicate (Z.to_nat array_size) 0 ++ drop (Z.to_nat array_size) array).
Definition rfc959_text (data array : list Z) (term : Z) : Z * list Z := number_text data array 6 COMMA term.

Fixpoint port_loop (data : list Z) (delim i port : Z) : option (Z * Z) :=
  match data with
  | [] => None
  | c :: data =>
      if c =? delim then if port =? 0 then None else Some (port, i + 1)
      else if isdigit c then port_loop data delim (i + 1) (u16 (port * 10 + c - 48))
      else None
  end.
Definition port_text (data : list Z) (start delim : Z) (array : list Z) : Z * list Z :=
  match port_loop (drop (Z.to_nat start) data) delim start 0 with
  | Some (port, n) => (n, <[5%nat := port]> (<[4%nat := Z.shiftr port 8]> array))
  | None => (0, array)
  end.

Definition eprt_text (data array : list Z) (term : Z) : Z * list Z :=
  if Z.of_nat (length data) <=? 3 then (0, array)
  else
    let delim := nth 0 data 0 in
    if bad_delim delim || negb (nth 1 data 0 =? 49) || negb (nth 2 data 0 =? delim) then (0, array)
    else
      let (length, array) := number_text (drop 3 data) array 4 DOT delim in
      if length =? 0 then (0, array) else port_text data (3 + length + 1) delim array.
Definition epsv_text (data array : list Z) (term : Z) : Z * list Z :=
  if Z.of_nat (length data) <=? 3 then (0, array)
  else
    let delim := nth 0 data 0 in
    if bad_delim delim || negb (nth 1 data 0 =? delim) || negb (nth 2 data 0 =? delim) then (0, array)
    else port_text data 3 delim array.

Definition getnum_text (f : ftp_search) : list Z → list Z → Z → Z * list Z :=
  match ftptype f with
  | IP_CT_FTP_PORT | IP_CT_FTP_PASV => rfc959_text
  | IP_CT_FTP_EPRT => eprt_text
  | IP_CT_FTP_EPSV => epsv_text
  end.

Lemma number_loop_reads n sep term data : ∀ dlen len i array, dlen - len <= Z.of_nat (length data) →
  try_number_loop data dlen n sep term len i array
  = Some (number_loop (take (Z.to_nat (dlen - len)) data) n sep term len i array).
Proof.
  induction data as [|c data IH]; intros dlen len i array Hd; cbn [try_number_loop].
  { cbn [length] in Hd. rewrite (proj2 (Z.ltb_ge len dlen)), take_nil by lia. done. }
  cbn [length] in Hd. destruct (Z.ltb_spec len dlen) as [Hl|Hl]; cbn [andb negb].
  2: { by replace (Z.to_nat (dlen - len)) with 0%nat by lia. }
  replace (Z.to_nat (dlen - len)) with (S (Z.to_nat (dlen - (len + 1)))) by lia. cbn [take number_loop].
  destruct (negb (i <? n)); [done|]. destruct (isdigit c); [apply IH; lia|].
  destruct (c =? sep); [apply IH; lia|]. by destruct (_ && _).
Qed.

Lemma number_reads data dlen array n sep term : 0 <= dlen <= Z.of_nat (length data) →
  try_number data dlen array n sep term = Some (number_text (take (Z.to_nat dlen) data) array n sep term).
Proof. intros Hd. unfold try_number, number_text. rewrite number_loop_reads by lia. by rewrite Z.sub_0_r. Qed.

Lemma port_loop_reads delim data : ∀ dlen i port, dlen - i <= Z.of_nat (length data) →
  get_port_loop data dlen delim i port = Some (port_loop (take (Z.to_nat (dlen - i)) data) delim i port).
Proof.
  induction data as [|c data IH]; intros dlen i port Hd; cbn [get_port_loop].
  { cbn [length] in Hd. by rewrite (proj2 (Z.ltb_ge i dlen)), take_nil by lia. }
  cbn [length] in Hd. destruct (Z.ltb_spec i dlen) as [Hl|Hl]; cbn [negb].
  2: { by replace (Z.to_nat (dlen - i)) with 0%nat by lia. }
  replace (Z.to_nat (dlen - i)) with (S (Z.to_nat (dlen - (i + 1)))) by lia. cbn [take port_loop].
  destruct (c =? delim); [done|]. destruct (isdigit c); [apply IH; lia|done].
Qed.

Lemma port_reads data start dlen delim array : 0 <= start → 0 <= dlen <= Z.of_nat (length data) →
  get_port data start dlen delim array = Some (port_text (take (Z.to_nat dlen) data) start delim array).
Proof.
  intros Hs Hd. unfold get_port, port_text. rewrite port_loop_reads by (rewrite length_drop; lia). cbn [mbind option_bind].
  by rewrite skipn_firstn_comm, Z2Nat.inj_sub by lia.
Qed.

Lemma loop_nonneg n sep term data : ∀ len i array, 0 <= len → 0 <= (number_loop data n sep term len i array).1.
Proof.
  induction data as [|c data IH]; intros len i array Hl; cbn [number_loop]; [done|].
  destruct (negb _); [done|]. destruct (isdigit c); [apply IH; lia|].
  destruct (c =? sep); [apply IH; lia|]. by destruct (_ && _).
Qed.

(** The three characters in front, and none of them when there are not more than three. *)
Lemma eprt_reads data dlen array term : 0 <= dlen <= Z.of_nat (length data) →
  try_eprt data dlen array term = Some (eprt_text (take (Z.to_nat dlen) data) array term).
Proof.
  intros Hd. unfold try_eprt, eprt_text. rewrite length_take, Nat2Z.inj_min, Z2Nat.id, Z.min_l by lia.
  destruct (Z.leb_spec dlen 3) as [|H3]; [done|]. destruct data as [|a [|b [|c data]]]; try (cbn [length] in Hd; lia).
  cbn [lookup list_lookup mbind option_bind drop]. replace (Z.to_nat dlen) with (S (S (S (Z.to_nat (dlen - 3))))) by lia.
  cbn [take nth drop]. destruct (bad_delim a); [done|]. destruct (b =? 49); [|done]. destruct (c =? a); [|done].
  cbn [orb negb]. cbn [length] in Hd. rewrite !drop_0, number_reads by lia. cbn [mbind option_bind].
  pose proof (loop_nonneg 4 DOT a (take (Z.to_nat (dlen - 3)) data) 0 0
    (replicate (Z.to_nat 4) 0 ++ drop (Z.to_nat 4) array) ltac:(lia)) as Hl. unfold number_text.
  destruct (number_loop _ _ _ _ _ _ _) as [l a1]. cbn [fst] in Hl. destruct (l =? 0); [done|].
  rewrite port_reads by (cbn [length]; lia). do 2 f_equal.
  by replace (Z.to_nat dlen) with (S (S (S (Z.to_nat (dlen - 3))))) by lia.
Qed.

Lemma epsv_reads data dlen array term : 0 <= dlen <= Z.of_nat (length data) →
  try_epsv_response data dlen array term = Some (epsv_text (take (Z.to_nat dlen) data) array term).
Proof.
  intros Hd. unfold try_epsv_response, epsv_text. rewrite length_take, Nat2Z.inj_min, Z2Nat.id, Z.min_l by lia.
  destruct (Z.leb_spec dlen 3) as [|H3]; [done|]. destruct data as [|a [|b [|c data]]]; try (cbn [length] in Hd; lia).
  cbn [lookup list_lookup mbind option_bind]. rewrite port_reads by lia.
  replace (Z.to_nat dlen) with (S (S (S (Z.to_nat (dlen - 3))))) by lia.
  cbn [take nth]. destruct (bad_delim a); [done|]. destruct (b =? a); [|done]. by destruct (c =? a).
Qed.

(** A parser of the table reads the text and nothing behind it. *)
Lemma getnum_reads f data dlen array : f ∈ search → 0 <= dlen <= Z.of_nat (length data) →
  getnum f data dlen array (term f) = Some (getnum_text f (take (Z.to_nat dlen) data) array (term f)).
Proof.
  intros Hf Hd. unfold search in Hf. rewrite !elem_of_cons in Hf.
  destruct Hf as [->|[->|[->|[->|[]%elem_of_nil]]]]; unfold getnum_text; cbn [ftptype getnum term].
  - by apply number_reads.
  - by apply number_reads.
  - by apply eprt_reads.
  - by apply epsv_reads.
Qed.

(** ** The grammar of [try_number] *)

(** The number that a string of digits means, in 32 bits. *)
Definition dec_step (v c : Z) : Z := u32 (v * 10 + c - 48).
Definition dec (l : list Z) : Z := foldl dec_step 0 l.
Definition digits (l : list Z) : Prop := Forall (λ c, isdigit c = true) l.

Lemma digits_bytes l : digits l → Forall is_u8 l.
Proof.
  induction 1 as [|c l Hc _ IH]; [constructor|]. apply Forall_cons_iff. split; [|exact IH]. unfold isdigit in Hc.
  apply andb_true_iff in Hc as [?%Z.leb_le ?%Z.leb_le]. unfold is_u8. lia.
Qed.

Fixpoint joined (sep : Z) (fs : list (list Z)) : list Z :=
  match fs with
  | [] => []
  | [f] => f
  | f :: fs => f ++ sep :: joined sep fs
  end.

Lemma joined_cons sep f fs : fs ≠ [] → joined sep (f :: fs) = f ++ sep :: joined sep fs.
Proof. by destruct fs. Qed.

(** The array after the fields [fs], from index [i] on. *)
Fixpoint fill (array : list Z) (i : nat) (fs : list (list Z)) : list Z :=
  match fs with
  | [] => array
  | f :: fs => fill (<[i := foldl dec_step (nth i array 0) f]> array) (S i) fs
  end.

Lemma nth_insert_eq (l : list Z) i x : (i < length l)%nat → nth i (<[i := x]> l) 0 = x.
Proof. intros Hi. by rewrite nth_lookup, list_lookup_insert_eq. Qed.
Lemma insert_nth (l : list Z) i : (i < length l)%nat → <[i := nth i l 0]> l = l.
Proof.
  intros Hi. apply list_insert_id. destruct (lookup_lt_is_Some_2 l i Hi) as [x Hx].
  by rewrite nth_lookup, Hx.
Qed.

Section grammar.
Context (n : nat) (sep term : Z).
Hypothesis Hsep : isdigit sep = false.
Hypothesis Hterm : isdigit term = false.
Hypothesis Hne : term ≠ sep.

Definition fields (k : nat) (data : list Z) (fs : list (list Z)) (rest : list Z) : Prop :=
  length fs = k ∧ Forall digits fs ∧ data = joined sep fs ++ term :: rest.

Lemma fields_digit k c data : isdigit c = true → ∀ fs rest, fields k (c :: data) fs rest → (0 < k)%nat →
  ∃ f fs', fs = (c :: f) :: fs' ∧ fields k data (f :: fs') rest.
Proof.
  intros Hc [|f fs] rest (Hl & Hd & E) Hk; [simpl in Hl; lia|].
  apply Forall_cons_iff in Hd as [Hf Hd]. destruct f as [|c' f].
  - destruct fs as [|g fs]; [|rewrite joined_cons in E by done]; simplify_eq/=; congruence.
  - exists f, fs. apply Forall_cons_iff in Hf as [_ Hf].
    assert (joined sep ((c' :: f) :: fs) = c' :: joined sep (f :: fs)) as Ej by (by destruct fs).
    rewrite Ej in E. injection E as <- E. split; [done|]. split; [done|]. split; [by constructor|done].
Qed.

Lemma fields_other k c data fs rest : isdigit c = false → fields k (c :: data) fs rest → (0 < k)%nat →
  (c = term ∧ k = 1%nat ∧ fs = [[]] ∧ rest = data) ∨
  (c = sep ∧ ∃ fs', fs = [] :: fs' ∧ fs' ≠ [] ∧ fields (k - 1) data fs' rest).
Proof.
  intros Hc (Hl & Hd & E) Hk. destruct fs as [|f fs]; [simpl in Hl; lia|].
  apply Forall_cons_iff in Hd as [Hf Hd]. destruct f as [|c' f].
  - destruct fs as [|g fs].
    + left. simplify_eq/=. done.
    + right. rewrite joined_cons in E by done. simplify_eq/=. split; [done|].
      exists (g :: fs). split_and!; [done|done|]. split; [simpl; lia|done].
  - exfalso. apply Forall_cons_iff in Hf as [Hf _].
    assert (joined sep ((c' :: f) :: fs) = c' :: joined sep (f :: fs)) as Ej by (by destruct fs).
    rewrite Ej in E. simplify_eq/=. congruence.
Qed.

Lemma loop_spec data : ∀ len i array, (i < n)%nat → (n <= length array)%nat → 0 <= len →
  let '(r, array') := number_loop data (Z.of_nat n) sep term len (Z.of_nat i) array in
  (∃ fs rest, fields (n - i) data fs rest ∧ r = len + Z.of_nat (length (joined sep fs)) ∧
     array' = fill array i fs) ∨
  r = 0 ∧ ∀ fs rest, ¬ fields (n - i) data fs rest.
Proof.
  induction data as [|c data IH]; intros len i array Hi Ha Hlen; cbn [number_loop].
  { right. split; [done|]. intros fs rest (_ & _ & E). by apply (f_equal length) in E; rewrite length_app in E; simpl in E; lia. }
  rewrite (proj2 (Z.ltb_lt _ _)) by lia. cbn [negb]. destruct (isdigit c) eqn:Hc.
  - rewrite Nat2Z.id. set (array1 := <[i := _]> array).
    specialize (IH (len + 1) i array1 Hi ltac:(unfold array1; by rewrite length_insert) ltac:(lia)).
    destruct (number_loop data _ sep term _ _ array1) as [r array'].
    destruct IH as [(fs & rest & HF & -> & ->)|[-> Hno]].
    + left. destruct HF as (Hl & Hd & E). destruct fs as [|f fs]; [simpl in Hl; lia|].
      apply Forall_cons_iff in Hd as [Hf Hd].
      assert (joined sep ((c :: f) :: fs) = c :: joined sep (f :: fs)) as Ej by (by destruct fs).
      exists ((c :: f) :: fs), rest. split_and!.
      * split; [done|]. split; [constructor; [by constructor|done]|]. rewrite Ej, E. done.
      * rewrite Ej. cbn [length]. lia.
      * cbn [fill foldl]. unfold array1. by rewrite nth_insert_eq, list_insert_insert_eq by lia.
    + right. split; [done|]. intros fs rest HF.
      destruct (fields_digit _ _ _ Hc _ _ HF ltac:(lia)) as (f & fs' & _ & HF'). by apply (Hno (f :: fs') rest).
  - destruct (Z.eqb_spec c sep) as [->|Hs].
    + destruct (decide (S i < n)%nat) as [Hlt|Hge].
      * replace (Z.of_nat i + 1) with (Z.of_nat (S i)) by lia.
        specialize (IH (len + 1) (S i) array Hlt Ha ltac:(lia)).
        destruct (number_loop data _ sep term _ _ array) as [r array'].
        destruct IH as [(fs & rest & (Hl & Hd & E) & -> & ->)|[-> Hno]].
        -- left. assert (fs ≠ []) as Hn by (intros ->; simpl in Hl; lia). exists ([] :: fs), rest. split_and!.
           ++ split; [simpl; lia|]. split; [by constructor; [constructor|]|]. rewrite joined_cons by done. by rewrite E.
           ++ rewrite joined_cons by done. cbn [app length]. lia.
           ++ cbn [fill foldl]. by rewrite insert_nth by lia.
        -- right. split; [done|]. intros fs rest HF.
           destruct (fields_other _ _ _ _ _ Hc HF ltac:(lia)) as [(-> & _)|(_ & fs' & _ & _ & HF')]; [done|].
           apply (Hno fs' rest). by replace (n - S i)%nat with (n - i - 1)%nat by lia.
      * assert (number_loop data (Z.of_nat n) sep term (len + 1) (Z.of_nat i + 1) array = (0, array)) as ->.
        { destruct data as [|c' data]; [done|]. cbn [number_loop]. by rewrite (proj2 (Z.ltb_ge _ _)) by lia. }
        right. split; [done|]. intros fs rest HF. destruct (fields_other _ _ _ _ _ Hc HF ltac:(lia)) as [(-> & _)|(_ & fs' & _ & Hn & Hl & _)];
          [done|]. apply Hn. apply length_zero_iff_nil. lia.
    + destruct (Z.eqb_spec c term) as [->|Ht]; cbn [andb].
      * destruct (Z.eqb_spec (Z.of_nat i) (Z.of_nat n - 1)) as [Ei|Ei].
        -- left. exists [[]], data. split_and!; [|simpl; lia|cbn [fill foldl]; by rewrite insert_nth by lia].
           split; [simpl; lia|]. split; [by repeat constructor|done].
        -- right. split; [done|]. intros fs rest HF.
           destruct (fields_other _ _ _ _ _ Hc HF ltac:(lia)) as [(_ & Hk & _)|(-> & _)]; [lia|done].
      * right. split; [done|]. intros fs rest HF.
        by destruct (fields_other _ _ _ _ _ Hc HF ltac:(lia)) as [(-> & _)|(-> & _)].
Qed.
End grammar.

Lemma fill_fields fs : ∀ pre rest,
  fill (pre ++ replicate (length fs) 0 ++ rest) (length pre) fs = pre ++ (dec <$> fs) ++ rest.
Proof.
  induction fs as [|f fs IH]; intros pre rest; [done|]. cbn [length replicate fill]. rewrite <- app_comm_cons.
  rewrite nth_middle, insert_app_r_alt, Nat.sub_diag by lia. cbn [list_insert insert].
  fold (dec f). rewrite fmap_cons. specialize (IH (pre ++ [dec f]) rest).
  rewrite length_app in IH. cbn [length] in IH. rewrite Nat.add_1_r in IH. rewrite <- !app_assoc in IH. exact IH.
Qed.

Lemma fields_unique sep term data : isdigit sep = false → isdigit term = false → term ≠ sep →
  ∀ k fs fs' rest rest', fields sep term k data fs rest → fields sep term k data fs' rest' → (0 < k)%nat → fs = fs'.
Proof.
  intros Hs Ht Hne. induction data as [|c data IH]; intros k fs fs' rest rest' H1 H2 Hk.
  { destruct H1 as (_ & _ & E). apply (f_equal length) in E. rewrite length_app in E. simpl in E. lia. }
  destruct (isdigit c) eqn:Hc.
  - destruct (fields_digit sep term Hs Ht k c data Hc _ _ H1 Hk) as (f & g & -> & F1).
    destruct (fields_digit sep term Hs Ht k c data Hc _ _ H2 Hk) as (f' & g' & -> & F2).
    by injection (IH k _ _ _ _ F1 F2 Hk) as -> ->.
  - destruct (fields_other sep term k c data _ _ Hc H1 Hk) as [(-> & -> & -> & _)|(-> & g & -> & Hg & F1)];
    destruct (fields_other sep term _ _ data _ _ Hc H2 Hk) as [(E & E' & -> & _)|(E & g' & -> & Hg' & F2)]; try done.
    f_equal. apply (IH _ _ _ _ _ F1 F2). destruct F1 as (Hl & _). destruct g; [done|]. simpl in Hl. lia.
Qed.

Lemma number_text_eq n sep term data array : isdigit sep = false → isdigit term = false → term ≠ sep →
  (1 <= n <= length array)%nat →
  (∃ fs rest, fields sep term n data fs rest ∧
     number_text data array (Z.of_nat n) sep term
     = (Z.of_nat (length (joined sep fs)), (dec <$> fs) ++ drop n array)) ∨
  (number_text data array (Z.of_nat n) sep term).1 = 0 ∧ ∀ fs rest, ¬ fields sep term n data fs rest.
Proof.
  intros Hs Ht Hne Hn. unfold number_text. rewrite Nat2Z.id.
  pose proof (loop_spec n sep term Hs Ht Hne data 0 0 (replicate n 0 ++ drop n array)) as H.
  rewrite length_app, length_replicate in H. specialize (H ltac:(lia) ltac:(lia) ltac:(lia)).
  change (Z.of_nat 0) with 0 in H. destruct (number_loop _ _ _ _ _ _ _) as [r array'].
  rewrite Nat.sub_0_r in H. destruct H as [(fs & rest & HF & -> & ->)|[-> Hno]]; [|by right].
  left. exists fs, rest. split; [done|]. f_equal. destruct HF as (Hl & _). rewrite <- Hl at 1.
  apply (fill_fields fs []).
Qed.

(** What is in the grammar is read. *)
Lemma number_text_read n sep term data array fs rest : isdigit sep = false → isdigit term = false → term ≠ sep →
  (1 <= n <= length array)%nat → fields sep term n data fs rest →
  number_text data array (Z.of_nat n) sep term = (Z.of_nat (length (joined sep fs)), (dec <$> fs) ++ drop n array).
Proof.
  intros Hs Ht Hne Hn HF. destruct (number_text_eq n sep term data array Hs Ht Hne Hn) as [(fs' & rest' & HF' & ->)|[_ Hno]].
  - by rewrite (fields_unique sep term data Hs Ht Hne n _ _ _ _ HF HF' ltac:(lia)).
  - by destruct (Hno fs rest).
Qed.

(** C32: [try_number] accepts exactly the texts of [array_size] fields of digits, empty
    ones included, with separators between them and the terminator behind; it returns
    the length up to the terminator and stores the numbers, modulo [2^32]; every other
    text gives 0.  Nothing behind the [dlen] characters is read. *)
Theorem try_number_spec n sep term data dlen array (text := take (Z.to_nat dlen) data) :
  isdigit sep = false → isdigit term = false → term ≠ sep → (2 <= n <= length array)%nat →
  0 <= dlen <= Z.of_nat (length data) →
  (∃ fs rest, fields sep term n text fs rest ∧ joined sep fs ≠ [] ∧
     try_number data dlen array (Z.of_nat n) sep term
     = Some (Z.of_nat (length (joined sep fs)), (dec <$> fs) ++ drop n array)) ∨
  (∃ array', try_number data dlen array (Z.of_nat n) sep term = Some (0, array')) ∧
  ∀ fs rest, ¬ fields sep term n text fs rest.
Proof.
  intros Hs Ht Hne Hn Hd. rewrite number_reads by done. fold text.
  destruct (number_text_eq n sep term text array Hs Ht Hne ltac:(lia)) as [(fs & rest & HF & E)|[E H]].
  - left. exists fs, rest. rewrite E. split_and!; [done| |done]. destruct HF as (Hl & _).
    destruct fs as [|f [|g fs]]; [simpl in Hl; lia..|]. rewrite joined_cons by done. by destruct f.
  - right. split; [|done]. destruct (number_text _ _ _ _ _) as [r a]. exists a. cbn [fst] in E. by rewrite E.
Qed.

Lemma try_number_spec_witness (cmd := [49; 44; 50; 44; 51; 44; 52; 44; 53; 44; 54; 13; 10]) :
  (∃ fs rest, fields COMMA 13 6 (take 12 cmd) fs rest ∧ joined COMMA fs ≠ [] ∧
     try_number cmd 12 [0; 0; 0; 0; 0; 0] (Z.of_nat 6) COMMA 13
     = Some (Z.of_nat (length (joined COMMA fs)), (dec <$> fs) ++ drop 6 [0; 0; 0; 0; 0; 0])) ∨
  (∃ array', try_number cmd 12 [0; 0; 0; 0; 0; 0] (Z.of_nat 6) COMMA 13 = Some (0, array')) ∧
  ∀ fs rest, ¬ fields COMMA 13 6 (take 12 cmd) fs rest.
Proof. apply (try_number_spec 6 COMMA 13 cmd 12); [reflexivity|reflexivity|discriminate|simpl; lia|simpl; lia]. Defined.

(** ** Printed numbers *)

(** The value without wrap-around. *)
Definition dec0 (l : list Z) : Z := foldl (λ v c, v * 10 + c - 48) 0 l.

Lemma dec0_snoc l c : dec0 (l ++ [c]) = dec0 l * 10 + c - 48.
Proof. unfold dec0. by rewrite foldl_app. Qed.
Lemma dec_snoc l c : dec (l ++ [c]) = u32 (dec l * 10 + c - 48).
Proof. unfold dec. by rewrite foldl_app. Qed.

Lemma dec_dec0 l : dec l = u32 (dec0 l).
Proof.
  induction l as [|c l IH] using rev_ind; [done|]. rewrite dec_snoc, dec0_snoc, IH.
  unfold u32. rewrite <- (Zminus_mod_idemp_l (dec0 l mod _ * 10 + c)), <- (Zminus_mod_idemp_l (dec0 l * 10 + c)).
  do 2 f_equal. rewrite <- Zplus_mod_idemp_l, <- (Zplus_mod_idemp_l (dec0 l * 10)), Zmult_mod_idemp_l. done.
Qed.

Lemma utoa_loop_spec fuel : ∀ v, 0 <= v < 10 ^ Z.of_nat fuel → (0 < fuel)%nat →
  digits (utoa_loop fuel v) ∧ dec0 (utoa_loop fuel v) = v ∧ utoa_loop fuel v ≠ [].
Proof.
  induction fuel as [|fuel IH]; intros v Hv Hf; [lia|]. cbn [utoa_loop].
  assert (isdigit (48 + v mod 10) = true) as Hd by (unfold isdigit; apply andb_true_iff; rewrite !Z.leb_le; lia).
  destruct (Z.ltb_spec v 10).
  - cbn [app]. split_and!; [by repeat constructor| |done]. unfold dec0. simpl. rewrite Z.mod_small by lia. lia.
  - rewrite Nat2Z.inj_succ, Z.pow_succ_r in Hv by lia.
    assert (fuel ≠ 0%nat) as Hf0 by (intros ->; simpl in Hv; lia).
    destruct (IH (v / 10)) as (H1 & H2 & H3); [|lia|].
    { split; [apply Z.div_pos; lia|]. apply Z.div_lt_upper_bound; lia. }
    split_and!; [apply Forall_app; split; [done|by repeat constructor]| |by intros [_ ?]%app_eq_nil].
    rewrite dec0_snoc, H2. lia.
Qed.

Lemma utoa_spec v : 0 <= v < 4294967296 → digits (utoa v) ∧ dec0 (utoa v) = v ∧ dec (utoa v) = v.
Proof.
  intros Hv. destruct (utoa_loop_spec 10 v) as (H1 & H2 & _); [simpl; lia|lia|].
  split_and!; [done|done|]. rewrite dec_dec0. unfold utoa. rewrite H2. unfold u32. by rewrite Z.mod_small.
Qed.

Lemma utoa_length fuel k : ∀ v, 0 <= v < 10 ^ Z.of_nat k → (0 < k)%nat → (length (utoa_loop fuel v) <= k)%nat.
Proof.
  revert k. induction fuel as [|fuel IH]; intros k v Hv Hk; cbn [utoa_loop]; [simpl; lia|].
  rewrite length_app. cbn [length]. destruct (Z.ltb_spec v 10); [simpl; lia|].
  destruct k as [|k]; [lia|]. rewrite Nat2Z.inj_succ, Z.pow_succ_r in Hv by lia.
  assert (k ≠ 0%nat) by (intros ->; simpl in Hv; lia).
  assert (length (utoa_loop fuel (v / 10)) <= k)%nat; [|lia]. apply IH; [|lia].
  split; [apply Z.div_pos; lia|]. apply Z.div_lt_upper_bound; lia.
Qed.

(** ** What is printed is read back *)
Lemma array_addr_bytes a b c d rest : 0 <= a < 256 → 0 <= b < 256 → 0 <= c < 256 → 0 <= d < 256 →
  array_addr (a :: b :: c :: d :: rest) = a * 16777216 + b * 65536 + c * 256 + d.
Proof.
  intros Ha Hb Hc Hd. unfold array_addr. cbn [nth]. rewrite !Z.shiftl_mul_pow2 by lia.
  change (2 ^ 24) with 16777216. change (2 ^ 16) with 65536. change (2 ^ 8) with 256. unfold u32.
  rewrite !Z.mod_small by lia. rewrite (lor_add _ (b * 65536) 24) by lia.
  rewrite (lor_add _ (c * 256) 16) by lia. by rewrite (lor_add _ d 8) by lia.
Qed.

Lemma array_port_bytes a b x y : 0 <= a < 256 → 0 <= b < 256 → array_port (x ++ a :: b :: y) = a * 256 + b ∨ length x ≠ 4%nat.
Proof.
  intros Ha Hb. destruct (decide (length x = 4%nat)) as [E|]; [left|by right].
  unfold array_port. rewrite !app_nth2, E by lia. cbn [nth Nat.sub]. rewrite Z.shiftl_mul_pow2 by lia.
  change (2 ^ 8) with 256. unfold u32. rewrite Z.mod_small, (lor_add _ b 8) by lia. unfold u16. apply Z.mod_small. lia.
Qed.

Lemma nipquad_spec a i : 0 <= i → nipquad a i = (a / 2 ^ (8 * i)) mod 256.
Proof. intros Hi. unfold nipquad. rewrite Z.shiftr_div_pow2 by lia. change 255 with (Z.ones 8). by rewrite Z.land_ones. Qed.

Lemma nipquad_range a i : 0 <= nipquad a i < 256.
Proof. unfold nipquad. change 255 with (Z.ones 8). rewrite Z.land_ones by lia. lia. Qed.

(** The octets of an address make it up again. *)
Lemma nipquad_addr a rest : is_u32 a →
  htonl (array_addr (nipquad a 0 :: nipquad a 1 :: nipquad a 2 :: nipquad a 3 :: rest)) = a.
Proof.
  intros Ha. rewrite array_addr_bytes by apply nipquad_range. rewrite !nipquad_spec by lia.
  change (2 ^ (8 * 0)) with 1. change (2 ^ (8 * 1)) with 256. change (2 ^ (8 * 2)) with 65536.
  change (2 ^ (8 * 3)) with 16777216. rewrite Z.div_1_r. fold (swab32 a).
  unfold htonl. rewrite u32_id by apply swab32_range. by apply swab32_involutive.
Qed.

Definition dec16 (l : list Z) : Z := foldl (λ v c, u16 (v * 10 + c - 48)) 0 l.
Lemma dec16_dec0 l : dec16 l = u16 (dec0 l).
Proof.
  induction l as [|c l IH] using rev_ind; [done|]. rewrite dec0_snoc. unfold dec16 in *. rewrite foldl_app. cbn [foldl].
  rewrite IH. unfold u16. lia.
Qed.

Lemma port_loop_spec l delim rest : digits l → isdigit delim = false → ∀ i p,
  port_loop (l ++ delim :: rest) delim i p =
  let v := foldl (λ v c, u16 (v * 10 + c - 48)) p l in
  if v =? 0 then None else Some (v, i + Z.of_nat (length l) + 1).
Proof.
  intros Hl Hd. induction Hl as [|c l Hc _ IH]; intros i p; cbn [app port_loop foldl length].
  - rewrite Z.eqb_refl. cbn zeta. destruct (p =? 0); [done|]. do 2 f_equal. lia.
  - destruct (Z.eqb_spec c delim) as [->|]; [congruence|]. rewrite Hc, IH. cbn zeta.
    destruct (_ =? 0); [done|]. do 2 f_equal. lia.
Qed.

Lemma port_text_read pre l delim rest array : digits l → isdigit delim = false → 0 < dec0 l < 65536 →
  port_text (pre ++ l ++ delim :: rest) (Z.of_nat (length pre)) delim array
  = (Z.of_nat (length pre + length l + 1), <[5%nat := dec0 l]> (<[4%nat := Z.shiftr (dec0 l) 8]> array)).
Proof.
  intros Hl Hd Hv. unfold port_text. rewrite Nat2Z.id, drop_app_length, port_loop_spec by done. cbn zeta.
  fold (dec16 l). rewrite dec16_dec0. unfold u16. rewrite Z.mod_small by lia.
  rewrite (proj2 (Z.eqb_neq _ _)) by lia. f_equal. lia.
Qed.

(** The array says [ip] and [port]; a reply to EPSV has no address in it, and the one
    that was there stays. *)
Definition says (type : ip_ct_ftp_type) (ip port : Z) (array array' : list Z) : Prop :=
  length array' = 6%nat ∧ array_port array' = port ∧
  match type with
  | IP_CT_FTP_EPSV => array_addr array' = array_addr array
  | _ => htonl (array_addr array') = ip
  end.

Definition buffer_size (type : ip_ct_ftp_type) : nat :=
  match type with
  | IP_CT_FTP_PORT | IP_CT_FTP_PASV => 24
  | IP_CT_FTP_EPRT => 26
  | IP_CT_FTP_EPSV => 10
  end.

Lemma utoa_byte v : 0 <= v < 256 → digits (utoa v) ∧ dec (utoa v) = v ∧ (length (utoa v) <= 3)%nat.
Proof. intros Hv. destruct (utoa_spec v ltac:(lia)) as (? & _ & ?). split_and!; [done|done|]. apply utoa_length; simpl; lia. Qed.
Lemma utoa_port v : 0 <= v < 65536 → digits (utoa v) ∧ dec0 (utoa v) = v ∧ (length (utoa v) <= 5)%nat.
Proof. intros Hv. destruct (utoa_spec v ltac:(lia)) as (? & ? & _). split_and!; [done|done|]. apply utoa_length; simpl; lia. Qed.
Lemma port_bytes port : 0 <= port < 65536 →
  0 <= Z.shiftr port 8 < 256 ∧ 0 <= Z.land port 255 < 256 ∧ Z.shiftr port 8 * 256 + Z.land port 255 = port.
Proof.
  intros Hp. rewrite Z.shiftr_div_pow2 by lia. change 255 with (Z.ones 8). rewrite Z.land_ones by lia.
  change (2 ^ 8) with 256. lia.
Qed.

Lemma rfc959_read ip port array term suffix : is_u32 ip → 0 < port < 65536 → length array = 6%nat →
  isdigit term = false → term ≠ COMMA →
  let text := print_rfc959 ip port in
  (length text < 24)%nat ∧ ∃ array', rfc959_text (text ++ term :: suffix) array term = (Z.of_nat (length text), array') ∧
    says IP_CT_FTP_PORT ip port array array'.
Proof.
  intros Hip Hport Ha Ht Hne. destruct (port_bytes port ltac:(lia)) as (H4 & H5 & E45).
  destruct (utoa_byte _ (nipquad_range ip 0)) as (D0 & V0 & L0). destruct (utoa_byte _ (nipquad_range ip 1)) as (D1 & V1 & L1).
  destruct (utoa_byte _ (nipquad_range ip 2)) as (D2 & V2 & L2). destruct (utoa_byte _ (nipquad_range ip 3)) as (D3 & V3 & L3).
  destruct (utoa_byte _ H4) as (D4 & V4 & L4). destruct (utoa_byte _ H5) as (D5 & V5 & L5). cbn zeta. split.
  { unfold print_rfc959. rewrite !length_app. cbn [length]. lia. }
  set (fs := [utoa (nipquad ip 0); utoa (nipquad ip 1); utoa (nipquad ip 2); utoa (nipquad ip 3);
              utoa (Z.shiftr port 8); utoa (Z.land port 255)]).
  change (print_rfc959 ip port) with (joined COMMA fs).
  exists (dec <$> fs). split.
  - unfold rfc959_text. change 6 with (Z.of_nat 6).
    rewrite (number_text_read 6 COMMA term _ array fs suffix); [|done|done|done|lia|].
    + by rewrite drop_ge, app_nil_r by lia.
    + split; [done|]. split; [by repeat constructor|done].
  - unfold fs. rewrite !fmap_cons, fmap_nil, V0, V1, V2, V3, V4, V5. split; [done|]. split.
    + destruct (array_port_bytes (Z.shiftr port 8) (Z.land port 255) [nipquad ip 0; nipquad ip 1; nipquad ip 2; nipquad ip 3] [] H4 H5)
        as [E|E]; [|done]. cbn [app] in E. by rewrite E.
    + by apply nipquad_addr.
Qed.

Lemma port_entry a b c d x y port : 0 <= port < 65536 →
  array_port (<[5%nat := port]> (<[4%nat := Z.shiftr port 8]> [a; b; c; d; x; y])) = port.
Proof.
  intros Hp. destruct (port_bytes port Hp) as (H4 & H5 & E). unfold array_port. cbn [list_insert insert nth].
  rewrite Z.shiftl_mul_pow2 by lia. change (2 ^ 8) with 256. unfold u32. rewrite Z.mod_small by lia.
  assert (Z.lor (Z.shiftr port 8 * 256) port = port) as ->; [|unfold u16; by rewrite Z.mod_small].
  rewrite <- E at 2. rewrite <- (lor_add _ (Z.land port 255) 8), Z.lor_assoc, Z.lor_diag, (lor_add _ _ 8) by lia. done.
Qed.

Lemma eprt_read ip port array term suffix : is_u32 ip → 0 < port < 65536 → length array = 6%nat →
  let text := print_eprt ip port in
  (length text < 26)%nat ∧ ∃ array', eprt_text (text ++ suffix) array term = (Z.of_nat (length text), array') ∧
    says IP_CT_FTP_EPRT ip port array array'.
Proof.
  intros Hip Hport Ha. destruct (utoa_port port ltac:(lia)) as (DP & VP & LP).
  destruct (utoa_byte _ (nipquad_range ip 0)) as (D0 & V0 & L0). destruct (utoa_byte _ (nipquad_range ip 1)) as (D1 & V1 & L1).
  destruct (utoa_byte _ (nipquad_range ip 2)) as (D2 & V2 & L2). destruct (utoa_byte _ (nipquad_range ip 3)) as (D3 & V3 & L3).
  cbn zeta. split. { unfold print_eprt. rewrite !length_app. cbn [length]. lia. }
  set (fs := [utoa (nipquad ip 0); utoa (nipquad ip 1); utoa (nipquad ip 2); utoa (nipquad ip 3)]).
  set (pre := [BAR; 49; BAR] ++ joined DOT fs ++ [BAR]).
  assert (print_eprt ip port = pre ++ utoa port ++ [BAR]) as Et.
  { unfold pre, fs, print_eprt. cbn [joined]. repeat (rewrite <- ?app_assoc, <- ?app_comm_cons; cbn [app]). done. }
  assert (print_eprt ip port ++ suffix = [BAR; 49; BAR] ++ joined DOT fs ++ BAR :: (utoa port ++ BAR :: suffix)) as Ed.
  { rewrite Et. unfold pre. rewrite <- !app_assoc. done. }
  assert (∃ x y, drop 4 array = [x; y]) as (x & y & Exy).
  { destruct array as [|? [|? [|? [|? [|x [|y [|? ?]]]]]]]; try done. by exists x, y. }
  unfold eprt_text. rewrite Ed. rewrite (proj2 (Z.leb_gt _ _)) by (rewrite !length_app; cbn [length]; lia).
  cbn [app nth drop]. change (bad_delim BAR) with false. cbn [orb negb Z.eqb Pos.eqb].
  change 4 with (Z.of_nat 4). rewrite (number_text_read 4 DOT BAR _ array fs (utoa port ++ BAR :: suffix)); [|done|done|done|lia|].
  2: { split; [done|]. split; [by repeat constructor|done]. }
  assert (dec <$> fs = [nipquad ip 0; nipquad ip 1; nipquad ip 2; nipquad ip 3]) as Hdec.
  { unfold fs. by rewrite !fmap_cons, fmap_nil, V0, V1, V2, V3. }
  rewrite Exy, Hdec. cbn [app].
  assert (Z.of_nat (length (joined DOT fs)) ≠ 0) as Hl.
  { unfold fs. rewrite joined_cons by done. rewrite length_app. cbn [length]. lia. }
  rewrite (proj2 (Z.eqb_neq _ _) Hl).
  change (BAR :: 49 :: BAR :: joined DOT fs ++ BAR :: utoa port ++ BAR :: suffix)
    with ([BAR; 49; BAR] ++ joined DOT fs ++ [BAR] ++ utoa port ++ BAR :: suffix).
  replace ([BAR; 49; BAR] ++ joined DOT fs ++ [BAR] ++ utoa port ++ BAR :: suffix) with (pre ++ utoa port ++ BAR :: suffix).
  2: { unfold pre. rewrite <- !app_assoc. done. }
  replace (3 + Z.of_nat (length (joined DOT fs)) + 1) with (Z.of_nat (length pre)).
  2: { unfold pre. rewrite !length_app. cbn [length]. lia. }
  rewrite port_text_read by (done || lia). eexists. split.
  - f_equal. rewrite Et, !length_app. cbn [length]. lia.
  - rewrite VP. split; [by rewrite !length_insert|]. split; [apply port_entry; lia|].
    cbn [list_insert insert app]. by apply nipquad_addr.
Qed.

Lemma epsv_read ip port array term suffix : 0 < port < 65536 → length array = 6%nat →
  let text := print_epsv ip port in
  (length text < 10)%nat ∧ ∃ array', epsv_text (text ++ suffix) array term = (Z.of_nat (length text), array') ∧
    says IP_CT_FTP_EPSV ip port array array'.
Proof.
  intros Hport Ha. destruct (utoa_port port ltac:(lia)) as (DP & VP & LP). cbn zeta. split.
  { unfold print_epsv. rewrite !length_app. cbn [length]. lia. }
  assert (print_epsv ip port ++ suffix = [BAR; BAR; BAR] ++ utoa port ++ BAR :: suffix) as Ed.
  { unfold print_epsv. by rewrite <- !app_assoc. }
  unfold epsv_text. rewrite Ed. rewrite (proj2 (Z.leb_gt _ _)) by (rewrite !length_app; cbn [length]; lia).
  change (nth 0 _ 0) with BAR. change (nth 1 _ 0) with BAR. change (nth 2 _ 0) with BAR.
  change (bad_delim BAR) with false. rewrite Z.eqb_refl. cbn [orb negb].
  change 3 with (Z.of_nat (length [BAR; BAR; BAR])). rewrite port_text_read by (done || lia). eexists. split.
  - f_equal. unfold print_epsv. rewrite !length_app. cbn [length]. lia.
  - rewrite VP. destruct array as [|a [|b [|c [|d [|x [|y [|? ?]]]]]]]; try done.
    split; [done|]. split; [apply port_entry; lia|done].
Qed.

(** What has to follow the text for it to be read. *)
Definition follows (f : ftp_search) (suffix : list Z) : Prop :=
  match ftptype f with
  | IP_CT_FTP_PORT | IP_CT_FTP_PASV => head suffix = Some (term f)
  | _ => True
  end.

Lemma printed_read f ip port array suffix (text := mangle_text (ftptype f) ip port) :
  f ∈ search → is_u32 ip → 0 < port < 65536 → length array = 6%nat → follows f suffix →
  (length text < buffer_size (ftptype f))%nat ∧
  ∃ array', getnum_text f (text ++ suffix) array (term f) = (Z.of_nat (length text), array') ∧
    says (ftptype f) ip port array array'.
Proof.
  intros Hf Hip Hport Ha Hs. unfold text. clear text.
  assert (∃ r, suffix = term f :: r ∨ ftptype f = IP_CT_FTP_EPRT ∨ ftptype f = IP_CT_FTP_EPSV) as [r Hr].
  { exists (tail suffix). unfold follows in Hs. destruct (ftptype f), suffix; simplify_eq/=; auto. }
  unfold search in Hf. rewrite !elem_of_cons in Hf.
  destruct Hf as [->|[->|[->|[->|[]%elem_of_nil]]]]; unfold getnum_text; cbn [ftptype term mangle_text buffer_size] in *;
    try (destruct Hr as [->|[?|?]]; [|done..]).
  - by apply rfc959_read.
  - destruct (rfc959_read ip port array 41 r) as (H1 & a & H2 & H3); [done..|]. split; [done|]. by exists a.
  - by apply eprt_read.
  - by apply epsv_read.
Qed.



(** ** Bounds of a match *)
Lemma loop_length n sep term data : ∀ len i array r array',
  number_loop data n sep term len i array = (r, array') → length array' = length array.
Proof.
  induction data as [|c data IH]; intros len i array r array'; cbn [number_loop]; [by intros [= _ <-]|].
  destruct (negb _); [by intros [= _ <-]|]. destruct (isdigit c); [intros E%IH; by rewrite length_insert in E|].
  destruct (c =? sep); [apply IH|]. destruct (_ && _); by intros [= _ <-].
Qed.

(** With the separator for terminator nothing is accepted. *)
Lemma loop_same n sep data : ∀ len i array, (number_loop data n sep sep len i array).1 = 0.
Proof.
  induction data as [|c data IH]; intros len i array; cbn [number_loop]; [done|].
  destruct (negb _); [done|]. destruct (isdigit c); [apply IH|]. destruct (c =? sep); [apply IH|done].
Qed.

Lemma number_text_bounds n sep term data array r array' :
  isdigit sep = false → isdigit term = false → term ≠ sep → (1 <= n <= length array)%nat →
  number_text data array (Z.of_nat n) sep term = (r, array') → length array' = length array ∧ 0 <= r ∧
  (r ≠ 0 → data !! Z.to_nat r = Some term).
Proof.
  intros Hs Ht Hne Hn E. split.
  { apply loop_length in E. rewrite length_app, length_replicate, length_drop in E. lia. }
  destruct (number_text_eq n sep term data array Hs Ht Hne Hn) as [(fs & rest & (Hl & _ & Ed) & E')|[E' _]];
    rewrite E in E'.
  - injection E' as -> _. split; [lia|]. intros _. by rewrite Ed, Nat2Z.id, lookup_app_r, Nat.sub_diag by lia.
  - by cbn [fst] in E'; subst r.
Qed.

Lemma port_loop_range data delim : ∀ i p v n,
  port_loop data delim i p = Some (v, n) → i < n <= i + Z.of_nat (length data).
Proof.
  induction data as [|c data IH]; intros i p v n; cbn [port_loop length]; [done|].
  destruct (c =? delim).
  - destruct (p =? 0); [done|]. intros [= _ <-]. lia.
  - destruct (isdigit c); [|done]. intros H%IH. lia.
Qed.

Lemma port_text_bounds data start delim array r array' : (Z.to_nat start <= length data)%nat → 0 <= start →
  port_text data start delim array = (r, array') →
  length array' = length array ∧ (r ≠ 0 → start < r <= Z.of_nat (length data)).
Proof.
  intros Hs H0. unfold port_text. destruct (port_loop _ delim start 0) as [[v n]|] eqn:E; intros [= <- <-]; [|done].
  rewrite !length_insert. split; [done|]. intros _. apply port_loop_range in E. rewrite length_drop in E. lia.
Qed.

Lemma getnum_bounds f data array r array' : f ∈ search → length array = 6%nat →
  getnum_text f data array (term f) = (r, array') →
  length array' = 6%nat ∧ 0 <= r <= Z.of_nat (length data) ∧ (r ≠ 0 → follows f (drop (Z.to_nat r) data)).
Proof.
  intros Hf Ha. unfold search in Hf. rewrite !elem_of_cons in Hf. unfold follows.
  assert (∀ t, isdigit t = false → t ≠ COMMA → rfc959_text data array t = (r, array') →
    length array' = 6%nat ∧ 0 <= r <= Z.of_nat (length data) ∧ (r ≠ 0 → head (drop (Z.to_nat r) data) = Some t)) as H959.
  { intros t Ht Hne. unfold rfc959_text. change 6 with (Z.of_nat 6). intros E.
    destruct (number_text_bounds 6 COMMA t data array r array') as (H1 & H2 & H3); try done; [lia|].
    split; [lia|]. destruct (decide (r = 0)) as [->|Hr]; [split; [lia|done]|]. specialize (H3 Hr). split.
    - apply lookup_lt_Some in H3. lia.
    - intros _. by rewrite head_lookup, lookup_drop, Nat.add_0_r. }
  destruct Hf as [->|[->|[->|[->|[]%elem_of_nil]]]]; unfold getnum_text; cbn [ftptype term].
  - by apply H959.
  - by apply H959.
  - unfold eprt_text. destruct (Z.leb_spec (Z.of_nat (length data)) 3); [by intros [= <- <-]; split_and!; try lia|].
    cbn zeta. destruct (bad_delim (nth 0 data 0)) eqn:Eb; cbn [orb]; [by intros [= <- <-]; split_and!; try lia|].
    destruct (_ || _); [by intros [= <- <-]; split_and!; try lia|].
    destruct (number_text _ array 4 DOT _) as [l a1] eqn:E. apply orb_false_iff in Eb as [[Eb _]%orb_false_iff _].
    assert (nth 0 data 0 ≠ DOT ∨ nth 0 data 0 = DOT) as [Hne|Heq] by lia.
    + change 4 with (Z.of_nat 4) in E.
      destruct (number_text_bounds 4 DOT (nth 0 data 0) (drop 3 data) array l a1) as (H1 & H2 & H3); try done; [lia|].
      destruct (Z.eqb_spec l 0); [by intros [= <- <-]; split_and!; try lia|].
      specialize (H3 ltac:(done)). apply lookup_lt_Some in H3. rewrite length_drop in H3.
      intros Hp%port_text_bounds; [|lia|lia]. destruct (decide (r = 0)); [split_and!; [lia|lia|lia|done]|].
      destruct Hp as [Hp1 Hp2]. specialize (Hp2 ltac:(done)). split_and!; [lia|lia|lia|done].
    + assert (l = 0) as ->.
      { rewrite Heq in E. unfold number_text in E. pose proof (loop_same 4 DOT (drop 3 data) 0 0
          (replicate (Z.to_nat 4) 0 ++ drop (Z.to_nat 4) array)) as Hz. by rewrite E in Hz. }
      cbn [Z.eqb]. intros [= <- <-]. apply loop_length in E. rewrite length_app, length_replicate, length_drop in E.
      split_and!; [lia|lia|lia|done].
  - unfold epsv_text. destruct (Z.leb_spec (Z.of_nat (length data)) 3); [by intros [= <- <-]; split_and!; try lia|].
    cbn zeta. destruct (_ || _); [by intros [= <- <-]; split_and!; try lia|].
    intros Hp%port_text_bounds; [|lia|lia]. destruct (decide (r = 0)); [split_and!; [lia|lia|lia|done]|].
    destruct Hp as [Hp1 Hp2]. specialize (Hp2 ltac:(done)). split_and!; [lia|lia|lia|done].
Qed.

(** ** A match, and the packet with the text replaced *)
Lemma strnicmp_take s2 : ∀ len s1 s1', take len s1 = take len s1' → strnicmp_eq s1 s2 len = strnicmp_eq s1' s2 len.
Proof.
  intros len. revert s2. induction len as [|len IH]; intros s2 s1 s1' E; [done|]. cbn [strnicmp_eq].
  destruct s1 as [|c s1], s1' as [|c' s1']; simplify_eq/=; try done.
  by rewrite (IH (tl s2) s1 s1').
Qed.
Lemma strnicmp_reads len : ∀ s1 s2, (len <= length s1)%nat → is_Some (strnicmp_eq s1 s2 len).
Proof.
  induction len as [|len IH]; intros s1 s2 Hl; [by eexists|]. destruct s1 as [|c s1]; cbn [length] in Hl; [lia|].
  cbn [strnicmp_eq hd_error mbind option_bind tl]. destruct (_ || _); [by eexists|].
  destruct (_ || _); [apply IH; lia|by eexists].
Qed.

Lemma find_skip_spec data dlen skip : ∀ i j, find_skip data dlen skip i = Some (Some j) →
  ∃ a b, data = a ++ skip :: b ∧ j = i + Z.of_nat (length a) + 1 ∧ (i < dlen → j <= dlen) ∧
    ∀ b' dlen', i + Z.of_nat (length a) < dlen' → find_skip (a ++ skip :: b') dlen' skip i = Some (Some j).
Proof.
  induction data as [|c data IH]; intros i j; cbn [find_skip]; [done|]. destruct (Z.eqb_spec c skip) as [->|Hc].
  - intros [= <-]. exists [], data. split_and!; [done|simpl; lia|lia|]. intros b' dlen' _. cbn [app find_skip]. by rewrite Z.eqb_refl.
  - destruct (Z.eqb_spec i (dlen - 1)); [done|]. intros (a & b & -> & -> & Hj & Hb)%IH. exists (c :: a), b.
    split_and!; [done|cbn [length]; lia|cbn [length]; lia|]. intros b' dlen' Hd. cbn [length] in Hd. cbn [app find_skip]. rewrite (proj2 (Z.eqb_neq c skip)) by done.
    rewrite (proj2 (Z.eqb_neq i _)) by lia. apply Hb. lia.
Qed.
Lemma find_skip_reads data dlen skip : ∀ i, i < dlen <= i + Z.of_nat (length data) → is_Some (find_skip data dlen skip i).
Proof.
  induction data as [|c data IH]; intros i Hi; cbn [length] in Hi; [lia|]. cbn [find_skip].
  destruct (c =? skip); [by eexists|]. destruct (Z.eqb_spec i (dlen - 1)); [by eexists|]. apply IH. lia.
Qed.

(** The whole search reads no more than the payload. *)
Lemma find_pattern_reads data dlen f array : f ∈ search → 0 <= dlen <= Z.of_nat (length data) →
  ∃ r array', find_pattern data dlen f array = Some (r, array') ∧ (r = ftp_none → array' = array).
Proof.
  intros Hf Hd. unfold find_pattern. cbn zeta. destruct (_ =? 0); [by eexists _, _|].
  destruct (Z.leb_spec dlen (Z.of_nat (length (pattern f)))).
  { destruct (strnicmp_reads (Z.to_nat dlen) data (pattern f)) as [b ->]; [lia|]. cbn [mbind option_bind]. by eexists _, _. }
  destruct (strnicmp_reads (Z.to_nat (Z.of_nat (length (pattern f)))) data (pattern f)) as [b ->]; [lia|].
  cbn [mbind option_bind]. destruct b; cbn [negb]; [|by eexists _, _].
  destruct (find_skip_reads (drop (Z.to_nat (Z.of_nat (length (pattern f)))) data) dlen (skip f)
    (Z.of_nat (length (pattern f)))) as [r Er]; [rewrite length_drop; lia|]. rewrite Er. cbn [mbind option_bind].
  destruct r as [j|]; [|by eexists _, _]. apply find_skip_spec in Er as (a & b & _ & Ej & Hj & _).
  rewrite getnum_reads by (done || (rewrite length_drop; lia)). cbn [mbind option_bind].
  destruct (getnum_text _ _ _ _) as [n a1]. eexists _, _. split; [done|]. by destruct (n =? 0).
Qed.

Lemma find_pattern_match data f array off len array' : f ∈ search → length array = 6%nat →
  find_pattern data (Z.of_nat (length data)) f array = Some (ftp_match off len, array') →
  length array' = 6%nat ∧ Z.of_nat (length (pattern f)) < off ∧ 0 < len ∧ off + len <= Z.of_nat (length data) ∧
  follows f (drop (Z.to_nat (off + len)) data) ∧
  ∀ ip port array1, is_u32 ip → 0 < port < 65536 → length array1 = 6%nat →
    let text := mangle_text (ftptype f) ip port in
    let data' := take (Z.to_nat off) data ++ text ++ drop (Z.to_nat (off + len)) data in
    ∃ array'', find_pattern data' (Z.of_nat (length data')) f array1
               = Some (ftp_match off (Z.of_nat (length text)), array'') ∧ says (ftptype f) ip port array1 array''.
Proof.
  intros Hf Ha. unfold find_pattern. cbn zeta. rewrite !(Nat2Z.id (length (pattern f))). destruct (Z.eqb_spec (Z.of_nat (length data)) 0); [done|].
  destruct (Z.leb_spec (Z.of_nat (length data)) (Z.of_nat (length (pattern f)))); [by destruct (strnicmp_eq _ _ _) as [[|]|]|].
  destruct (strnicmp_eq data (pattern f) (length (pattern f))) as [[|]|] eqn:Es; cbn [mbind option_bind negb]; [|done..].
  destruct (find_skip (drop _ data) _ (skip f) _) as [[j|]|] eqn:Ek; cbn [mbind option_bind]; [|done..].
  apply find_skip_spec in Ek as (a & b & Ed & -> & Hj & Hb). specialize (Hj ltac:(lia)). set (off0 := _ + 1) in *.
  rewrite getnum_reads by (done || (rewrite length_drop; unfold off0; lia)). cbn [mbind option_bind].
  rewrite take_ge by (rewrite length_drop; unfold off0; lia).
  destruct (getnum_text f (drop (Z.to_nat off0) data) array (term f)) as [r a1] eqn:Eg.
  apply getnum_bounds in Eg as (G1 & G2 & G3); [|done|done].
  destruct (Z.eqb_spec r 0) as [|Hr]; [done|]. intros [= <- <- <-]. specialize (G3 Hr).
  rewrite length_drop in G2. assert (0 < off0) as Hoff by (unfold off0; lia).
  assert (length data = length (pattern f) + length a + 1 + length b)%nat as Hlen.
  { apply (f_equal length) in Ed. rewrite length_drop, length_app in Ed. cbn [length] in Ed. lia. }
  rewrite drop_drop in G3. replace (Z.to_nat off0 + Z.to_nat r)%nat with (Z.to_nat (off0 + r)) in G3 by lia.
  split; [done|]. split; [unfold off0; lia|]. split; [lia|]. split; [unfold off0 in *; lia|]. split; [done|].
  intros ip port array1 Hip Hport Ha1. set (text := mangle_text _ ip port). set (suffix := drop (Z.to_nat (off0 + r)) data) in *.
  assert (take (Z.to_nat off0) data = take (length (pattern f)) data ++ a ++ [skip f]) as Et.
  { rewrite <- (take_drop (length (pattern f)) data) at 1. rewrite Ed.
    rewrite take_app_ge by (rewrite length_take; unfold off0; lia). f_equal.
    change (a ++ skip f :: b) with (a ++ [skip f] ++ b). rewrite app_assoc, take_app_length'; [done|].
    rewrite length_take, length_app. cbn [length]. unfold off0. lia. }
  cbn zeta. rewrite Et, <- !app_assoc. set (data' := _ ++ a ++ _).
  assert (length (take (length (pattern f)) data) = length (pattern f)) as Hp by (rewrite length_take; lia).
  assert (length data' = length (pattern f) + length a + 1 + length (text ++ suffix))%nat as Hlen'.
  { unfold data'. rewrite !length_app, Hp. cbn [length]. lia. }
  destruct (Z.eqb_spec (Z.of_nat (length data')) 0); [lia|].
  destruct (Z.leb_spec (Z.of_nat (length data')) (Z.of_nat (length (pattern f)))); [lia|].
  rewrite (strnicmp_take _ _ data' data), Es. cbn [mbind option_bind negb].
  2: { unfold data'. by rewrite take_app_length'. }
  assert (drop (length (pattern f)) data' = a ++ skip f :: (text ++ suffix)) as ->.
  { unfold data'. rewrite drop_app_length' by done. done. }
  rewrite Hb by lia. cbn [mbind option_bind]. fold off0.
  assert (drop (Z.to_nat off0) data' = text ++ suffix) as ->.
  { unfold data'. rewrite app_assoc, (app_assoc (_ ++ a)), drop_app_length'; [done|].
       rewrite !length_app, Hp. cbn [length]. unfold off0. lia. }
  destruct (printed_read f ip port array1 suffix Hf Hip Hport Ha1 G3) as (_ & array'' & E & HS). fold text in E.
  rewrite getnum_reads by (done || (unfold off0; lia)). cbn [mbind option_bind].
  rewrite take_ge, E by (unfold off0; lia). exists array''. split; [|done]. do 2 f_equal. destruct (Z.eqb_spec (Z.of_nat (length text)) 0) as [E0|]; [|done].
  exfalso. assert (text = []) as Ht by (destruct text; [done|simpl in E0; lia]).
  revert Ht. unfold text, mangle_text, print_rfc959. by destruct (ftptype f); [intros [_ ?]%app_eq_nil..| |].
Qed.
