(* ===== verification/FtpSpec.v ===== *)
(** * FTP helper: expectations and rewritten commands

    [ftp_help] on a consistent tracker: it returns on every packet, keeps the tracker
    consistent, and what the rewritten packet announces is what is expected. *)
From S2P Require Import Prelude Packet CtBase TcpTrack CtProtos Conntrack ConntrackInv ConntrackFacts CtExpect Csum NatProto NatCore NatCsum NatHelper NatHelperFacts CtSteps ConntrackSpec Ftp FtpFacts.
From stdpp Require Import gmultiset fin_maps fin_sets.
#[local] Open Scope Z_scope.

(** ** The search *)
Lemma search_loop_reads data l dir array : (∀ f, f ∈ l → f ∈ search) →
  ∃ r o array', search_loop l dir data (Z.of_nat (length data)) array = Some (r, o, array') ∧
    ∀ off len, r = ftp_match off len → ∃ f, o = Some f ∧ f ∈ l ∧ fs_dir f = dir ∧
      find_pattern data (Z.of_nat (length data)) f array = Some (ftp_match off len, array').
Proof.
  induction l as [|f l IH]; intros Hl; cbn [search_loop]; [by eexists _, _, _|].
  assert (∃ r o array', search_loop l dir data (Z.of_nat (length data)) array = Some (r, o, array') ∧
    ∀ off len, r = ftp_match off len → ∃ g, o = Some g ∧ g ∈ f :: l ∧ fs_dir g = dir ∧
      find_pattern data (Z.of_nat (length data)) g array = Some (ftp_match off len, array')) as Hrest.
  { destruct IH as (r & o & a & E & H); [set_solver|]. exists r, o, a. split; [done|]. intros off len Hr.
    destruct (H off len Hr) as (g & ? & ? & ? & ?). exists g. split_and!; [done|set_solver|done..]. }
  destruct (dir_eqb (fs_dir f) dir) eqn:Ed; cbn [negb]; [|exact Hrest]. apply bool_decide_eq_true in Ed.
  destruct (find_pattern_reads data (Z.of_nat (length data)) f array) as (r & a & E & Hn); [set_solver|lia|].
  rewrite E. cbn [mbind option_bind].
  destruct r as [| |off len]; [by rewrite (Hn eq_refl)|by eexists _, _, _|].
  eexists _, _, _. split; [done|]. intros off' len' [= <- <-]. exists f. split_and!; [done|set_solver|done|done].
Qed.

(** ** An expectation that is not registered *)

(** Its tuple and function may change. *)
Lemma upd_unlisted_inv D ehold e f x s : exp_wf D ehold s → exps s !! e = Some x →
  e ∉ ip_conntrack_expect_list s → exp_timeout (f x) = exp_timeout x → exp_use (f x) = exp_use x →
  exp_wf D ehold (upd_exp e f s).
Proof.
  intros [E1 E2 E3 E4 E5 E6 E7 E8] Hx He Ht Hu.
  assert (∀ i, i ≠ e → exps (upd_exp e f s) !! i = exps s !! i) as Hne by (intros i Hi; by apply lookup_alter_ne).
  assert (exps (upd_exp e f s) !! e = Some (f x)) as Heq by (simpl; by rewrite lookup_alter_eq, Hx).
  split; try done.
  - intros i Hi. rewrite Hne by (by intros ->). auto.
  - intros i y Hy. destruct (decide (i = e)) as [->|Hi].
    + rewrite Heq in Hy. injection Hy as <-. rewrite Ht. by apply E4.
    + rewrite Hne in Hy by done. by apply E4.
  - intros i y Hy. destruct (decide (i = e)) as [->|Hi].
    + rewrite Heq in Hy. injection Hy as <-. rewrite Hu. by apply E5.
    + rewrite Hne in Hy by done. by apply E5.
  - intros i Hi. simpl. rewrite dom_alter_L. by apply E6.
  - intros p c Hc. rewrite (E7 p c Hc). do 2 f_equal. apply set_eq. intros i. rewrite !elem_of_expected_of.
    change (ip_conntrack_expect_list (upd_exp e f s)) with (ip_conntrack_expect_list s).
    destruct (decide (i = e)) as [->|Hi]; [tauto|by rewrite Hne].
  - apply (no_clash_sub s); [done| |done]. intros i y Hi Hy. rewrite Hne in Hy by (by intros ->). by exists y.
Qed.

Lemma exp_only_Inv env live ehold s s' : Inv env ∅ ∅ live ehold s → exp_wf ∅ ehold s' →
  cts s' = cts s → ip_conntrack_hash s' = ip_conntrack_hash s → unconfirmed s' = unconfirmed s →
  ip_conntrack_count s' = ip_conntrack_count s → bysource s' = bysource s → Inv env ∅ ∅ live ehold s'.
Proof.
  intros HI HE Hc Hh Hu Hn Hb. apply (same_lists_Inv _ _ _ _ _ s); [|done|done].
  split; [intros h; unfold chain; by rewrite Hh|done|done|done|by apply cts_frame_refl|by apply use_eq_refl].
Qed.

(** ** Choosing a port *)
Section helper.
Context (env : ct_env) (live ehold : gmultiset positive) (p : positive) (h : ip_conntrack_helper).

(** The helper runs for a packet of the connection at [p] and holds the expectation [e],
    which is not registered. *)
Record expecting_state (e : positive) (x : ip_conntrack_expect) (s : ct_state) : Prop := {
  es_inv : Inv env ∅ ∅ live ehold s;
  es_exp : exps s !! e = Some x;
  es_new : e ∉ ip_conntrack_expect_list s;
  es_master : exp_master x = p;
  es_ct : is_Some (cts s !! p);
  es_helper : master_helper s p = Some h;
  es_short : Z.of_nat (length (ip_conntrack_expect_list s)) < 4294967295 }.

Definition with_port (x : ip_conntrack_expect) (port : Z) : ip_conntrack_expect :=
  x <| exp_tuple := (exp_tuple x) <| dst_u := htons port |> |>.

Lemma upd_expecting e x f s : expecting_state e x s → exp_timeout (f x) = exp_timeout x →
  exp_use (f x) = exp_use x → exp_master (f x) = exp_master x → expecting_state e (f x) (upd_exp e f s).
Proof.
  intros [H1 H2 H3 H4 H5 H6 H7] Ht Hu Hm. split; try done; [|simpl; by rewrite lookup_alter_eq, H2|congruence].
  apply (exp_only_Inv _ _ _ s); try done. by apply (upd_unlisted_inv _ _ _ _ x); [apply H1|..].
Qed.

Lemma port_expecting e x port s : expecting_state e x s →
  expecting_state e (with_port x port) (set_exp_port e port s).
Proof. intros HS. by apply (upd_expecting e x (λ x, with_port x port)). Qed.

(** Something registered matches the expectation. *)
Definition registered (x : ip_conntrack_expect) (s : ct_state) : Prop :=
  ∃ i y, i ∈ ip_conntrack_expect_list s ∧ exps s !! i = Some y ∧ expect_matches y x = true.

(** Something registered stands in its way. *)
Definition taken (x : ip_conntrack_expect) (s : ct_state) : Prop :=
  ∃ i y, i ∈ ip_conntrack_expect_list s ∧ exps s !! i = Some y ∧ expect_clash y x = true.

Lemma related_expecting e x s : expecting_state e x s → ∃ ret s',
  ip_conntrack_expect_related env e s = Some (ret, s') ∧ Inv env ∅ ∅ live ehold s' ∧
  (ret = 0 ∧ registered x s' ∨ ret = - EBUSY ∧ s' = s ∧ taken x s') ∧ cts_frame s s'.
Proof.
  intros [H1 H2 H3 H4 [m H5] H6 H7]. subst p.
  destruct (expect_related_full env live ehold e x h m s) as (ret & s' & E & HI & Hor & _ & HF); try done.
  exists ret, s'. split; [done|]. split; [done|]. split; [|done]. destruct Hor as [[? (i & y & ?)]|(? & -> & ?)]; [left|right; done].
  split; [done|]. by exists i, y.
Qed.

Lemma assign_port_spec fuel : ∀ e x port s, expecting_state e x s → 0 <= port < 65536 →
  65536 - port <= Z.of_nat fuel →
  ∃ port' s', assign_port_loop fuel env e port s = Some (port', s') ∧ Inv env ∅ ∅ live ehold s' ∧
    0 <= port' < 65536 ∧ (port' ≠ 0 → registered (with_port x port') s') ∧ cts_frame s s'.
Proof.
  induction fuel as [|fuel IH]; intros e x port s HS Hp Hf; cbn [assign_port_loop].
  { lia. }
  destruct (Z.eqb_spec port 0) as [->|Hne].
  { exists 0, s. split; [done|]. split; [apply HS|]. split; [lia|]. split; [done|by apply cts_frame_refl]. }
  pose proof (port_expecting e x port s HS) as HS1.
  destruct (related_expecting _ _ _ HS1) as (ret & s1 & -> & HI1 & Hor & HF1). cbn [mbind option_bind].
  destruct Hor as [[-> Hreg]|(-> & -> & _)].
  - exists port, s1. split; [done|]. split; [done|]. split; [lia|]. split; [by intros _|done].
  - change (- EBUSY =? 0) with false. cbn match.
    destruct (decide (port = 65535)) as [->|Hlt].
    + change (u16 (65535 + 1)) with 0. exists 0, (set_exp_port e 65535 s).
      split; [by destruct fuel|]. split; [done|]. split; [lia|]. split; [done|exact HF1].
    + destruct (IH e (with_port x port) (u16 (port + 1)) _ HS1) as (port' & s' & E & HI' & Hr & Hreg & HF).
      * unfold u16. lia.
      * unfold u16. rewrite Z.mod_small by lia. lia.
      * exists port', s'. split_and!; [done|done|lia|lia| |by apply (cts_frame_trans _ _ _ HF1)]. intros Hn. specialize (Hreg Hn). by destruct x.
Qed.

Lemma orig_assign_spec e x saved s : expecting_state e x s →
  ∃ port s', orig_assign_port env e (ntohs saved) s = Some (port, s') ∧ Inv env ∅ ∅ live ehold s' ∧
    0 <= port < 65536 ∧ (port ≠ 0 → registered (with_port x port) s') ∧ cts_frame s s'.
Proof.
  intros HS. apply (assign_port_spec (Z.to_nat 65536) e x (ntohs saved) s HS); [apply ntohs_range|].
  pose proof (ntohs_range saved) as Hn. unfold is_u16 in Hn. lia.
Qed.

(** The port that the hardware chooses, if it is asked and has one. *)
Definition hw_port (fenv : ftp_env) (ct : ip_conntrack) (dir : ip_conntrack_dir) (saved : Z) : option Z :=
  d ← shnat_dir fenv ct dir;
  let shnat_hash := shnat_preadd_hook fenv ct d (htons saved) in
  if 0 <=? shnat_hash then Some (u16 shnat_hash) else None.

(** The connection to the port is expected; a port of the hardware's may also be one that
    another expectation has taken. *)
Definition expected (hw : option Z) (x : ip_conntrack_expect) (port : Z) (s : ct_state) : Prop :=
  registered (with_port x port) s ∨ hw = Some port ∧ taken (with_port x port) s.

Lemma choose_port_spec fenv e x ct dir saved s : expecting_state e x s →
  ∃ port s', choose_port env fenv e ct dir saved s = Some (port, s') ∧ Inv env ∅ ∅ live ehold s' ∧
    0 <= port < 65536 ∧ (port ≠ 0 → expected (hw_port fenv ct dir saved) x port s').
Proof.
  intros HS. unfold choose_port, hw_port. destruct (orig_assign_spec e x saved s HS) as (port & s' & -> & HI & Hr & Hreg & _).
  assert (∀ hw, ∃ port' s'', Some (port, s') = Some (port', s'') ∧ Inv env ∅ ∅ live ehold s'' ∧ 0 <= port' < 65536 ∧
    (port' ≠ 0 → expected hw x port' s'')) as Horig.
  { intros hw. exists port, s'. split; [done|]. split; [done|]. split; [done|]. intros Hne. left. by apply Hreg. }
  destruct (shnat_dir fenv ct dir) as [d|]; [|apply Horig]. cbn [mbind option_bind].
  destruct (0 <=? _); [|apply Horig].
  destruct (related_expecting _ _ _ (port_expecting e x (u16 (shnat_preadd_hook fenv ct d (htons saved))) s HS))
    as (ret & s1 & -> & HI1 & Hor & _). cbn [mbind option_bind].
  eexists _, s1. split; [done|]. split; [done|]. split; [unfold u16; lia|]. intros _.
  destruct Hor as [[_ Hreg1]|(_ & _ & Ht)]; [by left|by right].
Qed.

(** ** Rewriting *)
Lemma mangled_frame ok tr skb ct ctinfo mo ml rep b skb' ct' :
  ip_nat_mangle_tcp_packet ok tr skb ct ctinfo mo ml rep = Some (b, skb', ct') →
  ct_frame ct ct' ∧ ct_use ct' = ct_use ct ∧ expecting ct' = expecting ct.
Proof.
  unfold ip_nat_mangle_tcp_packet. destruct (negb (skb_make_writable _ _ _)).
  { intros [= _ _ <-]. split_and!; [apply ct_frame_refl|done|done]. }
  destruct (negb (mangle_room _ _ _ _ _)).
  { intros [= _ _ <-]. split_and!; [apply ct_frame_refl|done|done]. }
  destruct (mangle_contents _ _ _ _ _) as [d|]; cbn [mbind option_bind]; [|done]. intros E. injection E as _ _ <-.
  destruct (negb _); [|split_and!; [apply ct_frame_refl|done|done]].
  destruct (set_bit_frame IPS_SEQ_ADJUST_BIT ct) as [F1 F2 F3 F4 F5 F6]; [done|done|].
  unfold ip_conntrack_tcp_update, adjust_tcp_sequence. cbn zeta.
  destruct (_ || _); [destruct (CTINFO2DIR ctinfo)|]; (split_and!; [by split|done|done]).
Qed.

Lemma mangle_some ok tr skb ct ctinfo mo ml rep : 
  ihl (skb_iph skb) * 4 + th_doff (tcphdr_at (data skb) (ihl (skb_iph skb) * 4)) * 4 + mo + ml <= skb_len skb →
  ∃ b skb' ct', ip_nat_mangle_tcp_packet ok tr skb ct ctinfo mo ml rep = Some (b, skb', ct') ∧
    (b = true → ok = true ∧ mangle_room ok tr skb ml (Z.of_nat (length rep)) = true).
Proof.
  intros Hin. unfold ip_nat_mangle_tcp_packet. unfold skb_make_writable. rewrite Z.ltb_irrefl.
  destruct ok; cbn [negb]; [|by eexists _, _, _].
  destruct (mangle_room true tr skb ml (Z.of_nat (length rep))); cbn [negb]; [|by eexists _, _, _].
  unfold mangle_contents. rewrite (proj2 (Z.ltb_ge _ _)) by (unfold skb_len in Hin; lia).
  cbn [mbind option_bind]. eexists _, _, _. done.
Qed.

Lemma mangle_packet_spec fenv type skb newip port mo ml ctinfo seq s ct :
  let text := mangle_text type newip port in
  Inv env ∅ ∅ live ehold s → cts s !! p = Some ct →
  ihl (skb_iph skb) * 4 + th_doff (tcphdr_at (data skb) (ihl (skb_iph skb) * 4)) * 4 + mo + ml <= skb_len skb →
  ∃ b skb' s' ct', mangle_packet fenv type skb newip port mo ml p ctinfo seq s
    = Some (b, skb', u32 (seq + Z.of_nat (length text) - ml), s') ∧
    Inv env ∅ ∅ live ehold s' ∧ exps s' = exps s ∧ ip_conntrack_expect_list s' = ip_conntrack_expect_list s ∧
    cts s' !! p = Some ct' ∧
    (b = true → mangle_room true (f_tailroom fenv) skb ml (Z.of_nat (length text)) = true ∧
       ip_nat_mangle_tcp_packet true (f_tailroom fenv) skb ct ctinfo mo ml text = Some (true, skb', ct')).
Proof.
  intros text HI Hct Hin. unfold mangle_packet. rewrite Hct. cbn [mbind option_bind]. fold text.
  destruct (mangle_some (f_writable fenv) (f_tailroom fenv) skb ct ctinfo mo ml text Hin) as (b & skb' & ct' & E & Hb).
  rewrite E. cbn [mbind option_bind]. exists b, skb', (upd_ct p (λ _, ct') s), ct'.
  split; [done|]. split; [apply Inv_upd; [|done]|].
  { intros c Hc. rewrite Hct in Hc. injection Hc as <-. by apply mangled_frame in E. }
  split; [done|]. split; [done|]. split; [simpl; by rewrite lookup_alter_eq, Hct|].
  intros ->. destruct (Hb eq_refl) as [Ew Hroom]. rewrite Ew in *. done.
Qed.

(** [ip_nat_ftp] on an expectation that is not registered yet. *)
Lemma nat_ftp_spec fenv follow skb ctinfo type mo ml e x seq s ct (dir := CTINFO2DIR ctinfo) :
  p ∈ live → e ∈ ehold → expecting_state e x s → cts s !! p = Some ct →
  ihl (skb_iph skb) * 4 + th_doff (tcphdr_at (data skb) (ihl (skb_iph skb) * 4)) * 4 + mo + ml <= skb_len skb →
  ∃ v skb' seq' s', ip_nat_ftp env fenv follow skb ctinfo type mo ml e seq s
    = Some (v, skb', seq', mk_expnat (dst_u (exp_tuple x)) (dir_neg dir), s') ∧
    Inv env ∅ ∅ live ehold s' ∧ (v = NF_ACCEPT ∨ v = NF_DROP) ∧
    (v = NF_ACCEPT → ∃ port ct1 ct', 0 < port < 65536 ∧
       let text := mangle_text type (dst_ip (tuplehash ct (dir_neg dir))) port in
       ip_nat_mangle_tcp_packet true (f_tailroom fenv) skb ct1 ctinfo mo ml text = Some (true, skb', ct') ∧
       mangle_room true (f_tailroom fenv) skb ml (Z.of_nat (length text)) = true ∧
       seq' = u32 (seq + Z.of_nat (length text) - ml) ∧
       expected (hw_port fenv ct dir (dst_u (exp_tuple x))) x port s').
Proof.
  intros Hlive Hhold HS Hct Hin. unfold ip_nat_ftp. fold dir. rewrite (es_exp _ _ _ HS).
  cbn [mbind option_bind]. rewrite (es_master _ _ _ HS), Hct. cbn [mbind option_bind saved_proto].
  match goal with |- context [upd_exp e ?f s] =>
    pose proof (upd_expecting e x f s HS eq_refl eq_refl eq_refl) as HS1 end.
  destruct (choose_port_spec fenv e _ ct dir (dst_u (exp_tuple x)) _ HS1) as (port & s1 & -> & HI1 & Hp & Hreg).
  cbn [mbind option_bind]. destruct (Z.eqb_spec port 0) as [->|Hne].
  { eexists _, _, _, s1. split; [done|]. split; [done|]. split; [by right|done]. }
  destruct (proj1 (elem_of_dom _ _) (proj1 (ow_live _ _ _ _ (inv_own _ _ _ _ _ _ HI1) p Hlive))) as [ct1 Hct1].
  destruct (mangle_packet_spec fenv type skb (dst_ip (tuplehash ct (dir_neg dir))) port mo ml ctinfo seq s1 ct1 HI1 Hct1 Hin)
    as (b & skb' & s2 & ct' & -> & HI2 & Ex & El & _ & Hb). cbn [mbind option_bind]. destruct b; cbn [negb].
  - eexists _, _, _, s2. split; [done|]. split; [done|]. split; [by left|]. intros _.
    destruct (Hb eq_refl) as [Hroom Em]. exists port, ct1, ct'. split; [lia|]. split; [done|]. split; [done|]. split; [done|].
    destruct (Hreg Hne) as [(i & y & Hi & Hy & Hm)|[Hw (i & y & Hi & Hy & Hm)]];
      [left|right; split; [exact Hw|]]; exists i, y; by rewrite El, Ex.
  - destruct (proj1 (elem_of_dom _ _) (ew_hold _ _ _ (inv_exp _ _ _ _ _ _ HI2) e Hhold)) as [x2 Hx2].
    rewrite Hx2. cbn [mbind option_bind]. eexists _, _, _, _. split; [done|].
    split; [apply unexpect_inv; [done|]; intros j; by rewrite elem_of_reverse|]. split; [by right|done].
Qed.
End helper.

(** ** Allocation and release *)

(** An expectation as [ip_conntrack_expect_alloc] leaves it, the caller's fields filled in. *)
Definition new_exp (mask : ip_conntrack_tuple) (p : positive) (tuple : ip_conntrack_tuple) : ip_conntrack_expect :=
  mk_exp tuple mask None p (mk_timer false 0) 1 0 0.

Lemma alloc_expecting env live ehold p h mask tuple s e s' :
  Inv env ∅ ∅ live ehold s → is_Some (cts s !! p) → master_helper s p = Some h →
  Z.of_nat (length (ip_conntrack_expect_list s)) < 4294967295 →
  ip_conntrack_expect_alloc env p tuple mask None 0 s = (Some e, s') →
  expecting_state env live (ehold ⊎ {[+ e +]}) p h e (new_exp mask p tuple) s' ∧
  cts s' = cts s.
Proof.
  intros HI Hp Hh Hlen E. destruct (expect_alloc_inv _ _ _ _ _ _ _ _ _ _ _ (inv_exp _ _ _ _ _ _ HI) E) as [HE HL].
  unfold ip_conntrack_expect_alloc in E. destruct (negb _); [done|]. injection E as <- <-.
  split; [|done]. split; try done.
  - destruct HI as [HT HO HA _].
    split; [by eapply same_lists_table|by eapply same_lists_own|by eapply same_lists_alive|done].
  - simpl. apply lookup_insert_eq.
  - simpl. intros Hin. destruct (ew_listed _ _ _ (inv_exp _ _ _ _ _ _ HI) _ Hin) as (x & Hx & _).
    apply (is_fresh (dom (exps s))). apply elem_of_dom. by exists x.
Qed.

(** What is listed stays so, but for the count of references. *)
Lemma put_listed D ehold e i y s : exp_wf D (ehold ⊎ {[+ e +]}) s → i ∈ ip_conntrack_expect_list s →
  exps s !! i = Some y → ∃ y', i ∈ ip_conntrack_expect_list (ip_conntrack_expect_put e s) ∧
    exps (ip_conntrack_expect_put e s) !! i = Some y' ∧ same_key y y'.
Proof.
  intros HE0 Hi Hy. destruct (expect_put_inv D ehold e s HE0) as (HE & _ & _ & Hl & Hne).
  destruct (decide (i = e)) as [->|Hie].
  - destruct (ew_listed _ _ _ HE e) as (y' & Hy' & _); [by rewrite Hl|]. exists y'. rewrite Hl.
    split_and!; [done|done|]. revert Hy'. unfold ip_conntrack_expect_put.
    rewrite Hy. cbn zeta. destruct (_ =? _); simpl.
    + rewrite ?lookup_delete_eq. done.
    + rewrite ?lookup_insert_eq, ?lookup_alter_eq, ?Hy. by intros [= <-].
  - exists y. by rewrite Hl, Hne.
Qed.

Lemma put_expecting env live ehold e x s : Inv env ∅ ∅ live (ehold ⊎ {[+ e +]}) s →
  Inv env ∅ ∅ live ehold (ip_conntrack_expect_put e s) ∧ 
  (registered x s → registered x (ip_conntrack_expect_put e s)) ∧ (taken x s → taken x (ip_conntrack_expect_put e s)).
Proof.
  intros HI. pose proof (inv_exp _ _ _ _ _ _ HI) as HE0.
  destruct (expect_put_inv ∅ ehold e s HE0) as (HE & HS & _ & _ & _). split_and!.
  - destruct HI as [HT HO HA _].
    split; [by eapply same_lists_table|by eapply same_lists_own|by eapply same_lists_alive|done].
  - intros (i & y & Hi & Hy & Hm). destruct (put_listed _ _ e i y s HE0 Hi Hy) as (y' & Hi' & Hy' & Hk).
    exists i, y'. split; [done|]. split; [done|]. rewrite <- Hm. by apply matches_key.
  - intros (i & y & Hi & Hy & Hm). destruct (put_listed _ _ e i y s HE0 Hi Hy) as (y' & Hi' & Hy' & Hk).
    exists i, y'. split; [done|]. split; [done|]. rewrite <- Hm. by apply clash_key.
Qed.

Lemma put_expected env live ehold e hw x port s : Inv env ∅ ∅ live (ehold ⊎ {[+ e +]}) s →
  expected hw x port s → expected hw x port (ip_conntrack_expect_put e s).
Proof.
  intros HI [H|[Hw H]]; [left|right; split; [exact Hw|]]; by apply (put_expecting env live ehold).
Qed.

(** ** The helper *)

(** The expectation for the port that is announced, and the address at which it is
    expected: that of the other direction, or the one announced when that is not the
    sender's. *)
Definition ftp_dst (ct : ip_conntrack) (dir : ip_conntrack_dir) (array : list Z) : Z :=
  let addr := htonl (array_addr array) in
  if addr =? src_ip (tuplehash ct dir) then dst_ip (tuplehash ct (dir_neg dir)) else addr.
Definition ftp_exp (p : positive) (ct : ip_conntrack) (dir : ip_conntrack_dir) (array : list Z) (port : Z)
    : ip_conntrack_expect :=
  new_exp ftp_mask p (mk_tuple (src_ip (tuplehash ct (dir_neg dir))) 0 (ftp_dst ct dir array) (htons port)
                        IPPROTO_TCP IP_CT_DIR_ORIGINAL).

(** What NAT has done to an accepted packet: the text for the port it chose is in it,
    and the connection to that port is expected. *)
Definition rewritten (fenv : ftp_env) (p : positive) (ct : ip_conntrack) (ctinfo : Z) (type : ip_ct_ftp_type)
    (off len : Z) (array : list Z) (skb skb' : sk_buff) (s' : ct_state) : Prop :=
  let dir := CTINFO2DIR ctinfo in
  let rev := tuplehash ct (dir_neg dir) in
  ∃ port ct1 ct', 0 < port < 65536 ∧
    let text := mangle_text type (dst_ip rev) port in
    ip_nat_mangle_tcp_packet true (f_tailroom fenv) skb ct1 ctinfo off len text = Some (true, skb', ct') ∧
    mangle_room true (f_tailroom fenv) skb len (Z.of_nat (length text)) = true ∧
    expected (hw_port fenv ct dir (htons (array_port array))) (ftp_exp p ct dir array (array_port array)) port s'.

Lemma ftp_expect_spec env fenv follow skb p ct ctinfo f off len array seq live ehold h s
    (dir := CTINFO2DIR ctinfo) (rev := tuplehash ct (dir_neg dir)) :
  Inv env ∅ ∅ live ehold s → p ∈ live → cts s !! p = Some ct → master_helper s p = Some h →
  Z.of_nat (length (ip_conntrack_expect_list s)) < 4294967295 →
  ihl (skb_iph skb) * 4 + th_doff (tcphdr_at (data skb) (ihl (skb_iph skb) * 4)) * 4 + off + len <= skb_len skb →
  ∃ u v skb' seq' nat s', ftp_expect env fenv follow skb p ct ctinfo f off len array seq s
      = Some (u, v, skb', seq', nat, s') ∧
    Inv env ∅ ∅ live ehold s' ∧ (v = NF_ACCEPT ∨ v = NF_DROP) ∧
    (v = NF_ACCEPT → is_Some nat → rewritten fenv p ct ctinfo (ftptype f) off len array skb skb' s' ∧
       (loose fenv = false → htonl (array_addr array) = src_ip (tuplehash ct dir))).
Proof.
  intros HI Hlive Hct Hh Hlen Hin. unfold ftp_expect. fold dir. cbn zeta.
  set (other := negb _). set (tuple := mk_tuple _ _ _ _ _ _).
  destruct (ip_conntrack_expect_alloc env p tuple ftp_mask None 0 s) as [[e|] s1] eqn:Ea.
  2: { assert (s1 = s) as ->. { unfold ip_conntrack_expect_alloc in Ea. destruct (alloc_ok env); cbn [negb] in Ea;
         [discriminate Ea|]. by injection Ea as ->. }
       eexists _, _, _, _, _, s. split; [done|]. split; [done|]. split; [by right|done]. }
  destruct (alloc_expecting env live ehold p h ftp_mask tuple s e s1 HI ltac:(by exists ct) Hh Hlen Ea) as [HS Ects].
  rewrite <- Ects in Hct. destruct (other && negb (loose fenv)) eqn:Eo.
  { eexists _, _, _, _, _, _. split; [done|]. split; [|split; [by left|by intros _ []]].
    by apply (put_expecting env live ehold e (new_exp ftp_mask p tuple)), HS. }
  assert (loose fenv = false → htonl (array_addr array) = src_ip (tuplehash ct dir)) as Hloose.
  { intros Hl. rewrite Hl, andb_true_r in Eo. unfold other in Eo. by apply negb_false_iff, Z.eqb_eq in Eo. }
  assert (new_exp ftp_mask p tuple = ftp_exp p ct dir array (array_port array)) as Ex.
  { unfold ftp_exp, ftp_dst, tuple, other. cbn zeta. by destruct (_ =? _). }
  destruct (nat_hook fenv).
  - destruct (nat_ftp_spec env live (ehold ⊎ {[+ e +]}) p h fenv follow skb ctinfo (ftptype f) off len e (new_exp ftp_mask p tuple) seq s1 ct)
      as (v & skb' & seq' & s2 & -> & HI2 & Hv & Hok); [exact Hlive|apply gmultiset_elem_of_disj_union; right; by apply gmultiset_elem_of_singleton|exact HS|exact Hct|exact Hin|].
    cbn [mbind option_bind]. eexists _, _, _, _, _, _. split; [done|].
    destruct (put_expecting env live ehold e (new_exp ftp_mask p tuple) s2 HI2) as [HI3 _].
    split; [done|]. split; [done|]. intros Hacc _. split; [|done].
    destruct (Hok Hacc) as (port & ct1 & ct' & Hp & Hm & Hroom & _ & Hreg).
    exists port, ct1, ct'. split; [exact Hp|]. split; [exact Hm|]. split; [exact Hroom|].
    apply (put_expected env live ehold e _ _ _ s2 HI2) in Hreg. rewrite Ex in Hreg. exact Hreg.
  - destruct (related_expecting env live (ehold ⊎ {[+ e +]}) p h e (new_exp ftp_mask p tuple) s1 HS) as (ret & s2 & -> & HI2 & _).
    cbn [mbind option_bind]. eexists _, _, _, _, _, _. split; [done|].
    destruct (put_expecting env live ehold e (new_exp ftp_mask p tuple) s2 HI2) as [HI3 _].
    split; [done|]. split; [destruct (ret =? 0); [by left|by right]|]. by intros _ [].
Qed.

(** The memory of line starts: two entries per direction, as many as are in use. *)
Definition nl_wf (nl : ftp_nl) : Prop := length (seq_aft_nl nl) = 2%nat ∧ 0 <= seq_aft_nl_num nl <= 2.
Definition info_wf (info : ip_ct_ftp_master) : Prop := nl_wf (nl_orig info) ∧ nl_wf (nl_reply info).

Lemma update_nl_wf seq nl : nl_wf nl → nl_wf (update_nl_seq seq nl).
Proof.
  intros [H1 H2]. unfold update_nl_seq. destruct (oldest_loop _ _ _ _ _) as [o|]; [|done].
  destruct (Z.ltb_spec (seq_aft_nl_num nl) NUM_SEQ_TO_REMEMBER); [|destruct (negb _); [|done]].
  - split; cbn [seq_aft_nl seq_aft_nl_num]; [by rewrite length_insert|unfold NUM_SEQ_TO_REMEMBER in *; lia].
  - split; cbn [seq_aft_nl seq_aft_nl_num]; [by rewrite length_insert|lia].
Qed.

Lemma set_nl_wf dir seq info : info_wf info →
  info_wf (set_nl dir (update_nl_seq seq (nl_of info dir)) info).
Proof. intros [H1 H2]. destruct dir; split; try done; by apply update_nl_wf. Qed.

(** The payload of a segment. *)
Definition payload_off (skb : sk_buff) : Z :=
  let h := ihl (skb_iph skb) * 4 in h + th_doff (tcphdr_at (data skb) h) * 4.
Definition payload (o : Z) (skb : sk_buff) : list Z := drop (Z.to_nat o) (data skb).

Lemma payload_off_pos skb : Forall is_u8 (data skb) → 0 <= payload_off skb.
Proof.
  intros Hb. unfold payload_off, skb_iph. pose proof (ihl_bound (data skb) 0).
  pose proof (doff_bound (data skb) (ihl (iphdr_at (data skb) 0) * 4) Hb). lia.
Qed.

(** The command [f] is found in a payload, its numbers at [off]. *)
Definition found_in (text : list Z) (f : ftp_search) (array : list Z) (off len : Z) (array' : list Z) : Prop :=
  find_pattern text (Z.of_nat (length text)) f array = Some (ftp_match off len, array').

(** The helper has returned, with the tracker consistent, and when it accepts a packet that
    NAT has seen, that was rewritten. *)
Definition helped (env : ct_env) (fenv : ftp_env) (skb : sk_buff) (p : positive) (ct : ip_conntrack)
    (ctinfo : Z) (live ehold : gmultiset positive) (r : option ftp_result) : Prop :=
  let dir := CTINFO2DIR ctinfo in
  ∃ v skb' info' nat s', r = Some (v, skb', info', nat, s') ∧
    Inv env ∅ ∅ live ehold s' ∧ info_wf info' ∧ (v = NF_ACCEPT ∨ v = NF_DROP) ∧
    (v = NF_ACCEPT → is_Some nat → ∃ f off len array', f ∈ search ∧ fs_dir f = dir ∧
       found_in (payload (payload_off skb) skb) f (octets (src_ip (tuplehash ct dir)) ++ [0; 0]) off len array' ∧
       payload_off skb < skb_len skb ∧
       rewritten fenv p ct ctinfo (ftptype f) off len array' skb skb' s' ∧
       (loose fenv = false → htonl (array_addr array') = src_ip (tuplehash ct dir))).

Lemma ftp_help_spec env fenv follow skb p ctinfo info live ehold h s ct :
  Inv env ∅ ∅ live ehold s → p ∈ live → cts s !! p = Some ct → master_helper s p = Some h →
  Z.of_nat (length (ip_conntrack_expect_list s)) < 4294967295 → info_wf info → Forall is_u8 (data skb) →
  helped env fenv skb p ct ctinfo live ehold (ftp_help env fenv follow skb p ctinfo info s).
Proof.
  intros HI Hlive Hct Hh Hlen Hw Hbytes. unfold ftp_help. rewrite Hct. cbn [mbind option_bind]. cbn zeta.
  set (dir := CTINFO2DIR ctinfo).
  assert (∀ b seq, info_wf (if b : bool then set_nl dir (update_nl_seq seq (nl_of info dir)) info else info)) as Hfin.
  { intros [|] seq; [by apply set_nl_wf|done]. }
  assert (∀ info', info_wf info' →
    helped env fenv skb p ct ctinfo live ehold (Some (NF_ACCEPT, skb, info', None, s))) as Hacc.
  { intros info' Hw'. eexists _, _, _, _, _. split; [done|]. split; [done|]. split; [done|]. split; [by left|by intros _ []]. }
  destruct (negb _ && negb _); [exact (Hacc _ Hw)|].
  destruct (skb_header_pointer _ _ _) as [hp|]; [|exact (Hacc _ Hw)].
  fold (payload_off skb). destruct (Z.leb_spec (skb_len skb) (payload_off skb)) as [|Hlt]; [exact (Hacc _ Hw)|].
  fold (payload (payload_off skb) skb). pose proof (payload_off_pos skb Hbytes) as Hpos.
  assert (Z.of_nat (length (payload (payload_off skb) skb)) = skb_len skb - payload_off skb) as Hplen.
  { unfold payload, skb_len in *. rewrite length_drop. lia. }
  destruct (lookup_lt_is_Some_2 (payload (payload_off skb) skb) (Z.to_nat (skb_len skb - payload_off skb - 1)))
    as [last ->]; [lia|]. cbn [mbind option_bind].
  destruct (negb (find_nl_seq _ _)); [exact (Hacc _ (Hfin _ _))|]. rewrite <- Hplen.
  destruct (search_loop_reads (payload (payload_off skb) skb) search dir (octets (src_ip (tuplehash ct dir)) ++ [0; 0]))
    as (fd & o & array' & -> & Hmatch); [done|]. cbn [mbind option_bind]. destruct fd as [| |off len].
  { destruct o; exact (Hacc _ (Hfin _ _)). }
  { eexists _, _, _, _, _. split; [done|]. split; [done|]. split; [done|]. split; [by right|done]. }
  destruct (Hmatch off len eq_refl) as (f & -> & Hf & Hd & Ef).
  destruct (find_pattern_match _ f (octets (src_ip (tuplehash ct dir)) ++ [0; 0]) off len array' Hf eq_refl Ef) as (_ & _ & _ & Hb & _).
  assert (payload_off skb + off + len <= skb_len skb) as Hin.
  { lia. }
  destruct (ftp_expect_spec env fenv follow skb p ct ctinfo f off len array'
    (u32 (ntohl (th_seq (tcphdr_at (data skb) (ihl (skb_iph skb) * 4))) + Z.of_nat (length (payload (payload_off skb) skb))))
    live ehold h s HI Hlive Hct Hh Hlen Hin) as (u & v & skb' & seq' & nat & s' & -> & HI' & Hv & Hok).
  cbn [mbind option_bind]. eexists _, _, _, _, _. split; [done|]. split; [done|]. split; [destruct u; done|].
  split; [done|]. intros Ha Hn. destruct (Hok Ha Hn) as (Hr & Hl).
  by exists f, off, len, array'.
Qed.

(** ** The guarantees *)

(** C20: The FTP helper is safe.  On every packet of a connection with a helper, in a
    consistent tracker, it returns a verdict: the parsers read no character behind the
    payload, the rewriting stays inside the packet, and the search for a port ends; the
    tracker is consistent afterwards, with the references it had, and so is the helper's
    memory of line starts. *)
Theorem ftp_help_safe env fenv follow skb p ctinfo info live ehold h s :
  Inv env ∅ ∅ live ehold s → p ∈ live → master_helper s p = Some h →
  Z.of_nat (length (ip_conntrack_expect_list s)) < 4294967295 → info_wf info → Forall is_u8 (data skb) →
  ∃ v skb' info' nat s', ftp_help env fenv follow skb p ctinfo info s = Some (v, skb', info', nat, s') ∧
    (v = NF_ACCEPT ∨ v = NF_DROP) ∧ Inv env ∅ ∅ live ehold s' ∧ info_wf info'.
Proof.
  intros HI Hlive Hh Hlen Hw Hb.
  destruct (proj1 (elem_of_dom _ _) (proj1 (ow_live _ _ _ _ (inv_own _ _ _ _ _ _ HI) p Hlive))) as [ct Hct].
  destruct (ftp_help_spec env fenv follow skb p ctinfo info live ehold h s ct HI Hlive Hct Hh Hlen Hw Hb)
    as (v & skb' & info' & nat & s' & E & HI' & Hw' & Hv & _).
  by exists v, skb', info', nat, s'.
Qed.

Lemma buffer_size_le type : (buffer_size type <= 26)%nat.
Proof. destruct type; cbn; lia. Qed.

Lemma mangle_text_bytes type ip port : 0 < port < 65536 → Forall is_u8 (mangle_text type ip port).
Proof.
  intros Hp. destruct (port_bytes port ltac:(lia)) as (H4 & H5 & _).
  pose proof digits_bytes as Hd.
  assert (∀ i, Forall is_u8 (utoa (nipquad ip i))) as Hq.
  { intros i. apply Hd. by destruct (utoa_byte _ (nipquad_range ip i)). }
  assert (Forall is_u8 (utoa port)) by (apply Hd; by destruct (utoa_port port ltac:(lia))).
  assert (Forall is_u8 (utoa (Z.shiftr port 8))) by (apply Hd; by destruct (utoa_byte _ H4)).
  assert (Forall is_u8 (utoa (Z.land port 255))) by (apply Hd; by destruct (utoa_byte _ H5)).
  unfold mangle_text, print_rfc959, print_eprt, print_epsv.
  assert (∀ l, forallb (λ c, (0 <=? c) && (c <? 256)) l = true → Forall is_u8 l) as Hlit.
  { induction l as [|c l IH]; [done|]. cbn [forallb]. intros [[?%Z.leb_le ?%Z.ltb_lt]%andb_true_iff ?]%andb_true_iff.
    apply Forall_cons_iff. split; [unfold is_u8; lia|auto]. }
  destruct type; rewrite !Forall_app; split_and!; auto; by apply Hlit.
Qed.

(** C17: What the rewritten packet announces is what is expected.  When the helper accepts
    a packet that NAT has handled, the command is found in the payload of the new packet
    where it was in the old, and read there it names the address that the peer sees and
    some port; lengths and checksums are right.  A connection from the peer to this port is
    expected, at the address that the peer sees when the sender announced its own address,
    which [loose = 0] demands, and else at the announced one.  Only a port that the
    hardware-NAT module chose may instead be taken by an expectation that clashes: the
    answer of [ip_conntrack_expect_related] is not looked at there. *)
Theorem ftp_nat_consistent env fenv follow skb p ctinfo info live ehold h s ct skb' info' nat s'
    (dir := CTINFO2DIR ctinfo) (rev := tuplehash ct (dir_neg dir)) :
  Inv env ∅ ∅ live ehold s → p ∈ live → cts s !! p = Some ct → master_helper s p = Some h →
  Z.of_nat (length (ip_conntrack_expect_list s)) < 4294967295 → info_wf info → tcp_wf (data skb) →
  skb_len skb + 26 <= 65535 → is_u32 (dst_ip rev) →
  ftp_help env fenv follow skb p ctinfo info s = Some (NF_ACCEPT, skb', info', Some nat, s') →
  ∃ f off len port array, f ∈ search ∧ fs_dir f = dir ∧ 0 < port < 65536 ∧
    found_in (payload (payload_off skb) skb) f (octets (src_ip (tuplehash ct dir)) ++ [0; 0]) off len array ∧
    (loose fenv = false → htonl (array_addr array) = src_ip (tuplehash ct dir)) ∧
    (∀ array0, length array0 = 6%nat → ∃ array',
       found_in (payload (payload_off skb) skb') f array0 off
         (Z.of_nat (length (mangle_text (ftptype f) (dst_ip rev) port))) array' ∧
       says (ftptype f) (dst_ip rev) port array0 array') ∧
    ntohs (ld16 (data skb') 2) = skb_len skb' ∧ ip_sum_ok (data skb') ∧ l4_sum_ok (data skb') ∧
    ((∃ i y, i ∈ ip_conntrack_expect_list s' ∧ exps s' !! i = Some y ∧
        exp_master y = p ∧ ip_ct_tuple_equal (exp_mask y) ftp_mask = true ∧
        ip_ct_tuple_equal (exp_tuple y) (exp_tuple (ftp_exp p ct dir array port)) = true) ∨
     hw_port fenv ct dir (htons (array_port array)) = Some port ∧ taken (ftp_exp p ct dir array port) s').
Proof.
  intros HI Hlive Hct Hh Hlen Hw Hwf Hsz Hip E.
  destruct (ftp_help_spec env fenv follow skb p ctinfo info live ehold h s ct HI Hlive Hct Hh Hlen Hw)
    as (v & skb1 & info1 & nat1 & s1 & E1 & _ & _ & _ & Hok); [apply Hwf|].
  rewrite E in E1. injection E1 as <- <- <- <- <-.
  destruct (Hok eq_refl ltac:(by eexists)) as (f & off & len & array0 & Hf & Hd & Ef & Hlt & Hrew & Hl).
  destruct Hrew as (port & ct1 & ct' & Hp & Hm & Hroom & Hreg).
  fold dir in Hm, Hroom, Hreg. fold rev in Hm, Hroom, Hreg. set (text := mangle_text (ftptype f) (dst_ip rev) port) in *.
  destruct (find_pattern_match _ f (octets (src_ip (tuplehash ct dir)) ++ [0; 0]) off len array0 Hf eq_refl Ef)
    as (_ & Hoff & Hlen0 & Hb & Hfol & Hnew).
  destruct (printed_read f (dst_ip rev) port [0; 0; 0; 0; 0; 0] _ Hf Hip Hp eq_refl Hfol) as [Htext _].
  assert (length text <= 26)%nat as Htl. { fold text in Htext. pose proof (buffer_size_le (ftptype f)). lia. }
  unfold payload in Hb. rewrite length_drop in Hb.
  destruct (mangle_tcp_full (f_tailroom fenv) skb ct1 ctinfo off len text Hwf (mangle_text_bytes _ _ _ Hp))
    as (skb2 & ct2 & Em & Hpay & Htot & _ & Hsum & Hl4 & _); [lia|lia| | |exact Hroom|].
  { change (payload_off skb + off + len <= skb_len skb). unfold skb_len in *.
    pose proof (payload_off_pos skb (iw_bytes _ (tw_ip _ Hwf))). lia. }
  { lia. }
  rewrite Hm in Em. injection Em as <- <-. exists f, off, len, port, array0.
  split; [exact Hf|]. split; [exact Hd|]. split; [exact Hp|]. split; [exact Ef|]. split; [exact Hl|]. split.
  { intros array Ha. unfold found_in. unfold payload at 1 2. change (payload_off skb) with
      (hlen (data skb) 0 + th_doff (tcphdr_at (data skb) (hlen (data skb) 0)) * 4) at 1 2.
    rewrite Hpay. exact (Hnew (dst_ip rev) port array Hip Hp Ha). }
  split; [exact Htot|]. split; [exact Hsum|]. split; [exact Hl4|].
  destruct Hreg as [(i & y & Hi & Hy & Hmt)|Ht]; [left|by right]. exists i, y. unfold expect_matches in Hmt.
  apply andb_true_iff in Hmt as [[Hma Htu]%andb_true_iff Hmk]. apply bool_decide_eq_true in Hma.
  split; [exact Hi|]. split; [exact Hy|]. split; [exact Hma|]. split; [exact Hmk|exact Htu].
Qed.

(** ** TFTP *)

(** A request is answered by an expectation; whatever the NAT helper decides about it, the
    verdict is NF_ACCEPT, unless there is no memory. *)
Lemma tftp_help_safe env hook follow skb p live ehold h s :
  Inv env ∅ ∅ live ehold s → p ∈ live → master_helper s p = Some h →
  Z.of_nat (length (ip_conntrack_expect_list s)) < 4294967295 →
  ∃ v nat s', tftp_help env hook follow skb p s = Some (v, nat, s') ∧ Inv env ∅ ∅ live ehold s' ∧
    (v = NF_ACCEPT ∨ v = NF_DROP ∧ alloc_ok env = false).
Proof.
  intros HI Hlive Hh Hlen.
  destruct (proj1 (elem_of_dom _ _) (proj1 (ow_live _ _ _ _ (inv_own _ _ _ _ _ _ HI) p Hlive))) as [ct Hct].
  unfold tftp_help. rewrite Hct. cbn [mbind option_bind].
  assert (∃ v nat s', Some (NF_ACCEPT, @None (positive * exp_nat), s) = Some (v, nat, s') ∧
    Inv env ∅ ∅ live ehold s' ∧ (v = NF_ACCEPT ∨ v = NF_DROP ∧ alloc_ok env = false)) as Hacc.
  { eexists _, _, _. split; [done|]. split; [done|]. by left. }
  destruct (skb_header_pointer _ _ _) as [tfh|]; [|exact Hacc]. cbn zeta. destruct (_ || _); [|exact Hacc].
  destruct (ip_conntrack_expect_alloc env p (tuple_reply ct) ftp_mask None 0 s) as [[e|] s1] eqn:Ea.
  2: { unfold ip_conntrack_expect_alloc in Ea. destruct (alloc_ok env); cbn [negb] in Ea; [discriminate Ea|].
       injection Ea as <-. eexists _, _, _. split; [done|]. split; [exact HI|]. by right. }
  destruct (alloc_expecting env live ehold p h ftp_mask (tuple_reply ct) s e s1 HI ltac:(by exists ct) Hh Hlen Ea) as [HS Ects].
  destruct hook.
  - unfold ip_nat_tftp. rewrite (es_exp _ _ _ _ _ _ _ _ HS). cbn [mbind option_bind]. change (exp_master (new_exp ftp_mask p _)) with p.
    rewrite Ects, Hct. cbn [mbind option_bind].
    match goal with |- context [upd_exp e ?g s1] =>
      pose proof (upd_expecting _ _ _ _ _ e _ g s1 HS eq_refl eq_refl eq_refl) as HS1 end.
    destruct (related_expecting _ _ _ _ _ _ _ _ HS1) as (ret & s2 & -> & HI2 & _). cbn [mbind option_bind].
    eexists _, _, _. split; [done|]. split; [|by left]. by apply (put_expecting env live ehold e (new_exp ftp_mask p (tuple_reply ct))).
  - destruct (related_expecting _ _ _ _ _ _ _ _ HS) as (ret & s2 & -> & HI2 & _). cbn [mbind option_bind].
    eexists _, _, _. split; [done|]. split; [|by left]. by apply (put_expecting env live ehold e (new_exp ftp_mask p (tuple_reply ct))).
Qed.

(** ** Line starts *)

(** When two are remembered, a third replaces the first or the second by the size of the
    second alone, not by age: [update_nl_seq] compares it with the index of the other. *)
Lemma update_nl_slot a b seq : is_u32 b → a ≠ seq → b ≠ seq →
  update_nl_seq seq (mk_nl [a; b] 2) = if b <? 2147483648 then mk_nl [seq; b] 2 else mk_nl [a; seq] 2.
Proof.
  intros Hb Ha Hbs. unfold update_nl_seq. cbn [seq_aft_nl seq_aft_nl_num]. change (Z.to_nat 2) with 2%nat.
  cbn [take oldest_loop]. rewrite (proj2 (Z.eqb_neq a seq)), (proj2 (Z.eqb_neq b seq)) by done.
  change (NUM_SEQ_TO_REMEMBER =? 2) with true. cbn [orb]. change (0 =? 2) with false. cbn [orb].
  assert (before b 0 = negb (b <? 2147483648)) as ->.
  { unfold before. rewrite Z.sub_0_r. unfold is_u32 in Hb. destruct (Z.ltb_spec b 2147483648); cbn [negb].
    - apply Z.ltb_ge. unfold s32. word_lia.
    - apply Z.ltb_lt. unfold s32. word_lia. }
  by destruct (b <? 2147483648).
Qed.

(** A port 0 from the hardware drops the packet. *)
Lemma shnat_port_zero env fenv e ct dir saved d s r s' : shnat_dir fenv ct dir = Some d →
  shnat_preadd_hook fenv ct d (htons saved) = 0 →
  ip_conntrack_expect_related env e (set_exp_port e 0 s) = Some (r, s') →
  choose_port env fenv e ct dir saved s = Some (0, s').
Proof. intros Hd Hh Er. unfold choose_port. rewrite Hd, Hh. cbn zeta. change (0 <=? 0) with true. change (u16 0) with 0. by rewrite Er. Qed.

(** ** An example: 192.168.2.2 asks for a connection to its port 1029 *)
Definition ctl_syn : sk_buff := tcp_pkt 3232236034 134744072 1025 21 999 0 2 4096 [] [].
Definition ctl_run := enter ctl_syn hstate.
Definition ctl_port : sk_buff :=
  tcp_pkt 3232236034 134744072 1025 21 1000 5000 24 4096 []
    [80; 79; 82; 84; 32; 49; 57; 50; 44; 49; 54; 56; 44; 50; 44; 50; 44; 52; 44; 53; 13; 10].
Definition ctl_env : ftp_env := mk_ftpenv false true false (λ _ _ _, 0) true 100.
Definition ctl_info : ip_ct_ftp_master := mk_ftp (mk_nl [1000; 0] 1) (mk_nl [0; 0] 0).

Lemma ctl_inv : Inv env0 ∅ ∅ (∅ ⊎ skb_ref ctl_run.2) ∅ ctl_run.1.2.
Proof.
  apply (ip_conntrack_in_inv env0 ∅ ∅ NF_IP_PRE_ROUTING ctl_syn hstate ctl_run.1.1 ctl_run.1.2 ctl_run.2);
    [apply env0_ok|apply hstate_inv|reflexivity|vm_compute; reflexivity].
Qed.

Lemma ctl_live : 1%positive ∈ (∅ ⊎ skb_ref ctl_run.2 : gmultiset positive).
Proof.
  assert (skb_ref ctl_run.2 = {[+ 1%positive +]}) as -> by (vm_compute; reflexivity).
  apply gmultiset_elem_of_disj_union. right. by apply gmultiset_elem_of_singleton.
Qed.

Lemma ftp_help_safe_witness : ∃ v skb' info' nat s',
  ftp_help env0 ctl_env 1 ctl_port 1 IP_CT_ESTABLISHED ctl_info ctl_run.1.2 = Some (v, skb', info', nat, s') ∧
  (v = NF_ACCEPT ∨ v = NF_DROP) ∧ Inv env0 ∅ ∅ (∅ ⊎ skb_ref ctl_run.2) ∅ s' ∧ info_wf info'.
Proof.
  apply (ftp_help_safe env0 ctl_env 1 ctl_port 1 IP_CT_ESTABLISHED ctl_info _ ∅ demo_helper _ ctl_inv ctl_live).
  - vm_compute. reflexivity.
  - vm_compute. reflexivity.
  - repeat split; vm_compute; congruence.
  - apply bytes_ok. vm_compute. reflexivity.
Defined.

Lemma ftp_nat_consistent_witness : ∃ skb' info' nat s' f off len port,
  ftp_help env0 ctl_env 1 ctl_port 1 IP_CT_ESTABLISHED ctl_info ctl_run.1.2 = Some (NF_ACCEPT, skb', info', Some nat, s') ∧
  f ∈ search ∧ 0 < port < 65536 ∧ (∃ array',
    found_in (payload (payload_off ctl_port) skb') f [0; 0; 0; 0; 0; 0] off len array' ∧
    array_port array' = port).
Proof.
  destruct (ftp_help env0 ctl_env 1 ctl_port 1 IP_CT_ESTABLISHED ctl_info ctl_run.1.2)
    as [[[[[v skb'] info'] [nat|]] s']|] eqn:E; [|exfalso; vm_compute in E; discriminate E..].
  assert (v = NF_ACCEPT) as -> by (vm_compute in E; injection E as <- _ _ _ _; vm_compute; reflexivity).
  destruct (cts ctl_run.1.2 !! 1%positive) as [ct|] eqn:Ect; [|vm_compute in Ect; discriminate Ect].
  destruct (ftp_nat_consistent env0 ctl_env 1 ctl_port 1 IP_CT_ESTABLISHED ctl_info _ ∅ demo_helper _ ct
    skb' info' nat s' ctl_inv ctl_live Ect) as (f & off & len & port & array & Hf & _ & Hp & _ & _ & Hread & _).
  - vm_compute. reflexivity.
  - vm_compute. reflexivity.
  - repeat split; vm_compute; congruence.
  - repeat split; first [apply bytes_ok; vm_compute; reflexivity | vm_compute; congruence].
  - vm_compute. congruence.
  - vm_compute in Ect. injection Ect as <-. vm_compute. split; congruence.
  - exact E.
  - destruct (Hread [0; 0; 0; 0; 0; 0] eq_refl) as (array' & Hm & _ & Hport & _).
    exists skb', info', nat, s', f, off. eexists _, port. split; [reflexivity|]. split; [exact Hf|]. split; [exact Hp|].
    exists array'. split; [exact Hm|exact Hport].
Defined.
