(* ===== verification/Irc.v ===== *)
(** * IRC helper

    [net/ipv4/netfilter/ip_conntrack_irc.c] looks in what an IRC client sends for a DCC
    command, which offers another client a connection to an address and a port, and
    expects that connection; [ip_nat_irc.c] chooses a port that is free on the outside
    and rewrites the command.

    The parsers read memory from the start of the payload on: [fb] is this memory, the
    payload and what lies behind it, and [limit] the length of the payload.  [None] is a
    read behind [fb]. *)
From S2P Require Import Prelude Packet CtBase TcpTrack CtProtos Conntrack NatProto NatCore NatHelper Ftp.

(** ** Characters and numbers *)
Definition isxdigit (c : Z) : bool :=
  isdigit c || (65 <=? c) && (c <=? 70) || (97 <=? c) && (c <=? 102).
Definition islower (c : Z) : bool :=
  (97 <=? c) && (c <=? 122) || (223 <=? c) && (c <=? 255) && negb (c =? 247).
Definition toupper (c : Z) : Z := if islower c then c - 32 else c.

Definition digit_value (c : Z) : Z := if isdigit c then c - 48 else toupper c - 65 + 10.

(** The value and the position of the first character that is no digit. *)
Fixpoint strtoul_loop (base result : Z) (s : list Z) (i : Z) : option (Z * Z) :=
  match s with
  | [] => None
  | c :: s =>
      if isxdigit c && (digit_value c <? base)
      then strtoul_loop base (u32 (result * base + digit_value c)) s (i + 1)
      else Some (result, i)
  end.

Definition simple_strtoul (s : list Z) (base : Z) : option (Z * Z) :=
  if base =? 0 then
    c0 ← s !! 0%nat;
    if c0 =? 48 then
      c1 ← s !! 1%nat;
      if toupper c1 =? 88 then
        c2 ← s !! 2%nat;
        if isxdigit c2 then strtoul_loop 16 0 (drop 2 s) 2 else strtoul_loop 8 0 (drop 1 s) 1
      else strtoul_loop 8 0 (drop 1 s) 1
    else strtoul_loop 10 0 s 0
  else if base =? 16 then
    c0 ← s !! 0%nat;
    if c0 =? 48 then
      c1 ← s !! 1%nat;
      if toupper c1 =? 88 then strtoul_loop 16 0 (drop 2 s) 2 else strtoul_loop 16 0 s 0
    else strtoul_loop 16 0 s 0
  else strtoul_loop base 0 s 0.

(** Whether [memcmp] returns 0 on the characters [ct]; it stops at the first difference. *)
Fixpoint memcmp_eq (s ct : list Z) {struct ct} : option bool :=
  match ct with
  | [] => Some true
  | c :: ct =>
      match s with
      | [] => None
      | x :: s => if x =? c then memcmp_eq s ct else Some false
      end
  end.

(** ** The command *)
Definition BLANK := 32.

(** SEND, CHAT, MOVE, TSEND and SCHAT, each with a blank. *)
Definition dccprotos : list (list Z) :=
  [ [83; 69; 78; 68; 32]; [67; 72; 65; 84; 32]; [77; 79; 86; 69; 32];
    [84; 83; 69; 78; 68; 32]; [83; 67; 72; 65; 84; 32] ].
Definition DCC : list Z := [1; 68; 67; 67; 32].
Definition MINMATCHLEN := 5.

(** The first loop of [parse_dcc], from position [i] on: the position behind the blank, or
    [None] for the result -1. *)
Fixpoint find_blank (s : list Z) (i limit : Z) : option (option Z) :=
  match s with
  | [] => None
  | c :: s =>
      if c =? BLANK then Some (Some (i + 1))
      else if limit - 12 <? i + 1 then Some None
      else find_blank s (i + 1) limit
  end.

Fixpoint skip_blanks (s : list Z) (i limit : Z) : option (option Z) :=
  match s with
  | [] => None
  | c :: s =>
      if c =? BLANK then if limit <=? i then Some None else skip_blanks s (i + 1) limit
      else Some (Some i)
  end.

(** [at_ fb i] is the memory from position [i] on. *)
Definition at_ (fb : list Z) (i : Z) : list Z := drop (Z.to_nat i) fb.

(** [*ip], [*port] and [*ad_end_p]. *)
Definition dcc_numbers (fb : list Z) (limit beg : Z) : option (option (Z * Z * Z)) :=
  '(ip, n) ← simple_strtoul (at_ fb beg) 10;
  r ← skip_blanks (at_ fb (beg + n)) (beg + n) limit;
  match r with
  | None => Some None
  | Some q => '(port, m) ← simple_strtoul (at_ fb q) 10; Some (Some (ip, u16 port, q + m))
  end.

Record dcc := mk_dcc { dcc_ip : Z; dcc_port : Z; addr_beg : Z; addr_end : Z }.

Definition parse_dcc (fb : list Z) (limit data : Z) : option (option dcc) :=
  b ← find_blank (at_ fb data) data limit;
  match b with
  | None => Some None
  | Some beg =>
      r ← dcc_numbers fb limit beg;
      Some (match r with
            | None => None
            | Some (ip, port, e) => Some (mk_dcc ip port beg e)
            end)
  end.

(** The address is neither the sender's nor the one that the server sees. *)
Definition forged (ct : ip_conntrack) (dir : ip_conntrack_dir) (d : dcc) : bool :=
  negb (src_ip (tuplehash ct dir) =? htonl (dcc_ip d))
  && negb (dst_ip (tuple_reply ct) =? htonl (dcc_ip d)).

(** The loop over [dccprotos]: a command with an address that is not forged, and where
    [data] is afterwards. *)
Fixpoint proto_loop (ct : ip_conntrack) (dir : ip_conntrack_dir) (protos : list (list Z))
    (fb : list Z) (limit data : Z) : option (option dcc * Z) :=
  match protos with
  | [] => Some (None, data)
  | proto :: protos =>
      eq ← memcmp_eq (at_ fb data) proto;
      if negb eq then proto_loop ct dir protos fb limit data
      else
        let data := data + Z.of_nat (length proto) in
        r ← parse_dcc fb limit data;
        match r with
        | None => proto_loop ct dir protos fb limit data
        | Some d =>
            if forged ct dir d then proto_loop ct dir protos fb limit data else Some (Some d, data)
        end
  end.

(** The [while] loop; every turn moves [data] on. *)
Fixpoint dcc_loop (fuel : nat) (ct : ip_conntrack) (dir : ip_conntrack_dir) (fb : list Z)
    (limit data : Z) : option (option dcc) :=
  if data <? limit - (19 + MINMATCHLEN) then
    match fuel with
    | O => None
    | S fuel =>
        eq ← memcmp_eq (at_ fb data) DCC;
        if negb eq then dcc_loop fuel ct dir fb limit (data + 1)
        else
          '(r, data) ← proto_loop ct dir dccprotos fb limit (data + 5);
          match r with
          | Some d => Some (Some d)
          | None => dcc_loop fuel ct dir fb limit data
          end
    end
  else Some None.

(** ** Rewriting the command *)

(** Whether the NAT helper is there, what lies in memory behind the packet, and what
    rewriting needs. *)
Record irc_env := mk_ircenv {
  irc_nat_hook : bool; behind : list Z; i_writable : bool; i_tailroom : Z }.

Definition irc_text (ip port : Z) : list Z := utoa (ntohl ip) ++ [BLANK] ++ utoa port.

(** [help] of [ip_nat_irc.c]; its loop over the ports is that of [ip_nat_ftp], and [follow]
    is the number of [ip_nat_follow_master]. *)
Definition ip_nat_irc (env : ct_env) (ienv : irc_env) (follow : positive) (skb : sk_buff) (ctinfo : Z)
    (matchoff matchlen : Z) (e : positive) (s : ct_state)
    : option (Z * sk_buff * exp_nat * ct_state) :=
  exp ← exps s !! e;
  let nat := mk_expnat (dst_u (exp_tuple exp)) IP_CT_DIR_REPLY in
  let s := upd_exp e (λ x, x <| expectfn := Some follow |>) s in
  '(port, s) ← orig_assign_port env e (ntohs (saved_proto nat)) s;
  if port =? 0 then Some (NF_DROP, skb, nat, s)
  else
    ct ← cts s !! exp_master exp;
    let buffer := irc_text (dst_ip (tuple_reply ct)) port in
    '(ok, skb, ct) ← ip_nat_mangle_tcp_packet (i_writable ienv) (i_tailroom ienv) skb ct ctinfo
                       matchoff matchlen buffer;
    let s := upd_ct (exp_master exp) (λ _, ct) s in
    let ret := if ok : bool then 1 else 0 in
    if negb (ret =? NF_ACCEPT) then
      exp ← exps s !! e;
      Some (ret, skb, nat, ip_conntrack_unexpect_related exp s)
    else Some (ret, skb, nat, s).

(** ** The helper *)
Definition irc_mask : ip_conntrack_tuple := mk_tuple 0 0 4294967295 65535 255 IP_CT_DIR_ORIGINAL.

(** From the allocation of the expectation to [goto out]. *)
Definition irc_expect (env : ct_env) (ienv : irc_env) (follow : positive) (skb : sk_buff) (p : positive)
    (ct : ip_conntrack) (ctinfo : Z) (d : dcc) (s : ct_state)
    : option (Z * sk_buff * option (positive * exp_nat) * ct_state) :=
  let rev := tuplehash ct (dir_neg (CTINFO2DIR ctinfo)) in
  let tuple := mk_tuple 0 0 (dst_ip rev) (htons (dcc_port d)) IPPROTO_TCP IP_CT_DIR_ORIGINAL in
  match ip_conntrack_expect_alloc env p tuple irc_mask None 0 s with
  | (None, s) => Some (NF_DROP, skb, None, s)
  | (Some e, s) =>
      if irc_nat_hook ienv then
        '(ret, skb, nat, s) ← ip_nat_irc env ienv follow skb ctinfo (addr_beg d)
                                (addr_end d - addr_beg d) e s;
        Some (ret, skb, Some (e, nat), ip_conntrack_expect_put e s)
      else
        '(ret, s) ← ip_conntrack_expect_related env e s;
        Some (if ret =? 0 then NF_ACCEPT else NF_DROP, skb, None, ip_conntrack_expect_put e s)
  end.

(** [help] of [ip_conntrack_irc.c]. *)
Definition irc_help (env : ct_env) (ienv : irc_env) (follow : positive) (skb : sk_buff) (p : positive)
    (ctinfo : Z) (s : ct_state) : option (Z * sk_buff * option (positive * exp_nat) * ct_state) :=
  let dir := CTINFO2DIR ctinfo in
  let h := ihl (skb_iph skb) * 4 in
  ct ← cts s !! p;
  if dir_eqb dir IP_CT_DIR_REPLY then Some (NF_ACCEPT, skb, None, s)
  else if negb (ctinfo =? IP_CT_ESTABLISHED) && negb (ctinfo =? IP_CT_ESTABLISHED + IP_CT_IS_REPLY)
  then Some (NF_ACCEPT, skb, None, s)
  else
    match skb_header_pointer skb h sizeof_tcphdr with
    | None => Some (NF_ACCEPT, skb, None, s)
    | Some _ =>
        let dataoff := h + th_doff (tcphdr_at (data skb) h) * 4 in
        if skb_len skb <=? dataoff then Some (NF_ACCEPT, skb, None, s)
        else
          let limit := skb_len skb - dataoff in
          let fb := drop (Z.to_nat dataoff) (data skb) ++ behind ienv in
          r ← dcc_loop (Z.to_nat limit) ct dir fb limit 0;
          match r with
          | None => Some (NF_ACCEPT, skb, None, s)
          | Some d => irc_expect env ienv follow skb p ct ctinfo d s
          end
    end.
