(* ===== verification/IrcSpec.v ===== *)
(** * IRC helper: theorems

    The parsers stay within a payload that ends in a control character; on every packet
    that NAT has rewritten, the command names what is expected. *)
From S2P Require Import Prelude Packet CtBase TcpTrack CtProtos Conntrack ConntrackInv ConntrackFacts CtExpect Csum NatProto NatCore NatCsum NatHelper NatHelperFacts CtSteps ConntrackSpec Ftp FtpFacts FtpSpec Irc.
From stdpp Require Import gmultiset fin_maps fin_sets.
#[local] Open Scope Z_scope.

(** ** Decimal numbers *)
Lemma decimal c : isxdigit c && (digit_value c <? 10) = isdigit c.
Proof.
  unfold isxdigit, digit_value. destruct (isdigit c) eqn:E; cbn [orb].
  - unfold isdigit in E. apply andb_true_iff in E as [?%Z.leb_le ?%Z.leb_le]. apply Z.ltb_lt. lia.
  - apply not_true_is_false. rewrite andb_true_iff, orb_true_iff, !andb_true_iff, !Z.leb_le, Z.ltb_lt.
    intros [H ?]. unfold toupper in *. destruct (islower c) eqn:El; [|destruct H; [lia|]].
    + destruct H; [|lia]. unfold islower in El. apply orb_true_iff in El as [El|El].
      * apply andb_true_iff in El as [?%Z.leb_le _]. lia.
      * apply andb_true_iff in El as [[?%Z.leb_le _]%andb_true_iff _]. lia.
    + unfold islower in El. apply orb_false_iff in El as [El _]. apply andb_false_iff in El as [?%Z.leb_gt|?%Z.leb_gt]; lia.
Qed.

Lemma digit_step r c : isdigit c = true → u32 (r * 10 + digit_value c) = dec_step r c.
Proof. intros Hc. unfold digit_value, dec_step. rewrite Hc. f_equal. lia. Qed.

(** The digits up to the first other character are read. *)
Lemma strtoul_reads l c rest : digits l → isdigit c = false → ∀ r i,
  strtoul_loop 10 r (l ++ c :: rest) i = Some (foldl dec_step r l, i + Z.of_nat (length l)).
Proof.
  intros Hl Hc. induction Hl as [|d l Hd _ IH]; intros r i; cbn [app strtoul_loop foldl length]; rewrite decimal.
  - rewrite Hc. do 2 f_equal. lia.
  - rewrite Hd, IH, digit_step by done. do 2 f_equal. lia.
Qed.

Lemma strtoul_inv s : ∀ r i v j, strtoul_loop 10 r s i = Some (v, j) →
  ∃ l c rest, s = l ++ c :: rest ∧ digits l ∧ isdigit c = false ∧ j = i + Z.of_nat (length l).
Proof.
  induction s as [|c s IH]; intros r i v j; cbn [strtoul_loop]; [done|]. rewrite decimal.
  destruct (isdigit c) eqn:Hc.
  - intros (l & c' & rest & -> & Hl & Hc' & ->)%IH. exists (c :: l), c', rest.
    split_and!; [done|by constructor|done|cbn [length]; lia].
  - intros [= _ <-]. exists [], c, s. split_and!; [done|constructor|done|cbn [length]; lia].
Qed.

(** ** Scanning ends at a control character *)
Section stops.
Context (t : Z).
Hypothesis Ht : t < 32.

Lemma ctrl_no_digit : isdigit t = false.
Proof. unfold isdigit. by rewrite (proj2 (Z.leb_gt _ _)) by lia. Qed.

Lemma strtoul_stops s : ∀ m r i, s !! m = Some t →
  ∃ v j, strtoul_loop 10 r s i = Some (v, j) ∧ i <= j <= i + Z.of_nat m.
Proof.
  induction s as [|c s IH]; intros m r i Hm; [done|]. cbn [strtoul_loop]. rewrite decimal.
  destruct (isdigit c) eqn:Hc; [|exists r, i; split; [done|lia]].
  destruct m as [|m]; [injection Hm as ->; by rewrite ctrl_no_digit in Hc|].
  destruct (IH m (u32 (r * 10 + digit_value c)) (i + 1) Hm) as (v & j & -> & Hj). exists v, j. split; [done|lia].
Qed.

Lemma find_blank_stops s limit : ∀ m i, s !! m = Some t → i + Z.of_nat m = limit - 1 →
  ∃ o, find_blank s i limit = Some o ∧ ∀ b, o = Some b → i < b <= limit - 1.
Proof.
  induction s as [|c s IH]; intros m i Hm Hi; [done|]. cbn [find_blank].
  destruct (Z.eqb_spec c BLANK) as [->|Hc].
  - destruct m as [|m]; [injection Hm as <-; unfold BLANK in Ht; lia|].
    exists (Some (i + 1)). split; [done|]. intros b [= <-]. lia.
  - destruct (Z.ltb_spec (limit - 12) (i + 1)); [by exists None|].
    destruct m as [|m]; [lia|]. destruct (IH m (i + 1) Hm ltac:(lia)) as (o & -> & Ho). exists o. split; [done|].
    intros b Hb. specialize (Ho b Hb). lia.
Qed.

Lemma skip_blanks_stops s limit : ∀ m i, s !! m = Some t → i + Z.of_nat m = limit - 1 →
  ∃ q, skip_blanks s i limit = Some (Some q) ∧ i <= q <= limit - 1.
Proof.
  induction s as [|c s IH]; intros m i Hm Hi; [done|]. cbn [skip_blanks].
  destruct (Z.eqb_spec c BLANK) as [->|Hc]; [|exists i; split; [done|lia]].
  destruct m as [|m]; [injection Hm as <-; unfold BLANK in Ht; lia|].
  rewrite (proj2 (Z.leb_gt _ _)) by lia. destruct (IH m (i + 1) Hm ltac:(lia)) as (q & -> & Hq). exists q. split; [done|lia].
Qed.

Lemma memcmp_stops ct : Forall (λ c, 32 <= c) ct → ∀ s m, s !! m = Some t →
  ∃ b, memcmp_eq s ct = Some b ∧ (b = true → (length ct <= m)%nat).
Proof.
  induction 1 as [|c ct Hc _ IH]; intros s m Hm; cbn [memcmp_eq length]; [exists true; split; [reflexivity|lia]|].
  destruct s as [|x s]; [done|]. destruct (Z.eqb_spec x c) as [->|]; [|by exists false].
  destruct m as [|m]; [injection Hm as ->; lia|]. destruct (IH s m Hm) as (b & -> & Hb). exists b. split; [done|].
  intros E. specialize (Hb E). lia.
Qed.

Lemma at_lookup fb i k : 0 <= i <= Z.of_nat k → fb !! k = Some t → at_ fb i !! (k - Z.to_nat i)%nat = Some t.
Proof. intros Hi Hk. unfold at_. rewrite lookup_drop. by replace (Z.to_nat i + (k - Z.to_nat i))%nat with k by lia. Qed.

Context (fb : list Z) (k : nat) (limit : Z).
Hypothesis Hk : fb !! k = Some t.
Hypothesis Hlimit : limit = Z.of_nat k + 1.

Lemma dcc_numbers_stops beg : 0 <= beg <= limit - 1 →
  ∃ ip port e, dcc_numbers fb limit beg = Some (Some (ip, port, e)) ∧ beg <= e <= limit - 1.
Proof.
  intros Hb. unfold dcc_numbers, simple_strtoul. cbn [Z.eqb Pos.eqb].
  destruct (strtoul_stops (at_ fb beg) _ 0 0 (at_lookup fb beg k ltac:(lia) Hk)) as (v & n & -> & Hn).
  cbn [mbind option_bind].
  destruct (skip_blanks_stops (at_ fb (beg + n)) limit _ (beg + n) (at_lookup fb (beg + n) k ltac:(lia) Hk))
    as (q & -> & Hq); [lia|]. cbn [mbind option_bind].
  destruct (strtoul_stops (at_ fb q) _ 0 0 (at_lookup fb q k ltac:(lia) Hk)) as (w & m & -> & Hm).
  cbn [mbind option_bind]. eexists _, _, _. split; [done|lia].
Qed.

Lemma parse_dcc_stops data : 0 <= data <= limit - 1 →
  ∃ r, parse_dcc fb limit data = Some r ∧ ∀ d, r = Some d → addr_end d <= limit - 1.
Proof.
  intros Hd. unfold parse_dcc.
  destruct (find_blank_stops (at_ fb data) limit _ data (at_lookup fb data k ltac:(lia) Hk)) as (o & -> & Ho); [lia|].
  cbn [mbind option_bind]. destruct o as [beg|]; [|by exists None]. specialize (Ho beg eq_refl).
  destruct (dcc_numbers_stops beg ltac:(lia)) as (ip & port & e & -> & He). cbn [mbind option_bind].
  eexists. split; [done|]. intros d [= <-]. cbn [addr_end]. lia.
Qed.

Lemma proto_loop_stops ct dir protos : Forall (Forall (λ c, 32 <= c)) protos → ∀ data, 0 <= data <= limit - 1 →
  ∃ r data', proto_loop ct dir protos fb limit data = Some (r, data') ∧ data <= data' <= limit - 1 ∧
    ∀ d, r = Some d → addr_end d <= limit - 1.
Proof.
  induction 1 as [|proto protos Hp _ IH]; intros data Hd; cbn [proto_loop]; [exists None, data; split; [done|]; split; [lia|done]|].
  destruct (memcmp_stops proto Hp (at_ fb data) _ (at_lookup fb data k ltac:(lia) Hk)) as (b & -> & Hb).
  cbn [mbind option_bind]. destruct b; cbn [negb]; [|by apply IH]. specialize (Hb eq_refl). cbn zeta.
  destruct (IH (data + Z.of_nat (length proto)) ltac:(lia)) as (r' & data' & E & Hd' & Hr').
  assert (∃ r data', proto_loop ct dir protos fb limit (data + Z.of_nat (length proto)) = Some (r, data') ∧
    data <= data' <= limit - 1 ∧ ∀ d, r = Some d → addr_end d <= limit - 1) as Hnext.
  { exists r', data'. split; [done|]. split; [lia|done]. }
  destruct (parse_dcc_stops (data + Z.of_nat (length proto)) ltac:(lia)) as (r & -> & Hr). cbn [mbind option_bind].
  destruct r as [d|]; [|exact Hnext]. destruct (forged ct dir d); [exact Hnext|].
  exists (Some d), (data + Z.of_nat (length proto)). split; [done|]. split; [lia|]. intros d' [= <-]. by apply Hr.
Qed.

(** The search ends, within the payload. *)
Lemma dcc_loop_stops ct dir fuel : ∀ data, 0 <= data → limit - data <= Z.of_nat fuel →
  ∃ r, dcc_loop fuel ct dir fb limit data = Some r ∧ ∀ d, r = Some d → addr_end d <= limit - 1.
Proof.
  induction fuel as [|fuel IH]; intros data H0 Hf; cbn [dcc_loop]; unfold MINMATCHLEN.
  { rewrite (proj2 (Z.ltb_ge _ _)) by lia. by exists None. }
  destruct (Z.ltb_spec data (limit - (19 + 5))) as [Hd|]; [|by exists None].
  assert (∃ b, memcmp_eq (at_ fb data) DCC = Some b) as [b ->].
  { pose proof (lookup_lt_Some _ _ _ Hk). assert (5 <= length (at_ fb data))%nat as H5 by (unfold at_; rewrite length_drop; lia).
    clear -H5. destruct (at_ fb data) as [|c0 [|c1 [|c2 [|c3 [|c4 l]]]]]; simpl in H5; try lia.
    unfold DCC. cbn [memcmp_eq]. destruct (c0 =? 1), (c1 =? 68), (c2 =? 67), (c3 =? 67), (c4 =? 32); by eexists. }
  cbn [mbind option_bind]. destruct b; cbn [negb]; [|apply IH; lia].
  destruct (proto_loop_stops ct dir dccprotos) with (data := data + 5) as (r & data' & -> & Hd' & Hr); [|lia|].
  { apply Forall_forall. intros x Hx.
    unfold dccprotos in Hx. rewrite !elem_of_cons in Hx.
    destruct Hx as [->|[->|[->|[->|[->|[]%elem_of_nil]]]]]; repeat (apply Forall_cons_iff; split; [lia|]); constructor. }
  cbn [mbind option_bind]. destruct r as [d|]; [|apply IH; lia].
  exists (Some d). split; [done|]. intros d' [= <-]. by apply Hr.
Qed.
End stops.

(** ** What was read *)

(** The numbers of the command are where it says. *)
Definition dcc_read (fb : list Z) (limit : Z) (d : dcc) : Prop :=
  dcc_numbers fb limit (addr_beg d) = Some (Some (dcc_ip d, dcc_port d, addr_end d)).

Lemma find_blank_pos s limit : ∀ i b, find_blank s i limit = Some (Some b) → i < b.
Proof.
  induction s as [|c s IH]; intros i b; cbn [find_blank]; [done|]. destruct (c =? BLANK); [intros [= <-]; lia|].
  destruct (_ <? _); [done|]. intros H%IH. lia.
Qed.

Lemma skip_blanks_pos s limit : ∀ i q, skip_blanks s i limit = Some (Some q) → i <= q.
Proof.
  induction s as [|c s IH]; intros i q; cbn [skip_blanks]; [done|]. destruct (c =? BLANK); [|intros [= <-]; lia].
  destruct (_ <=? _); [done|]. intros H%IH. lia.
Qed.

(** The numbers end at a character that is no digit. *)
Lemma dcc_numbers_inv fb limit beg ip port e : dcc_numbers fb limit beg = Some (Some (ip, port, e)) → 0 <= beg →
  beg <= e ∧ ∃ c rest, at_ fb e = c :: rest ∧ isdigit c = false.
Proof.
  intros E Hb. unfold dcc_numbers, simple_strtoul in E. cbn [Z.eqb Pos.eqb] in E.
  destruct (strtoul_loop 10 0 (at_ fb beg) 0) as [[v n]|] eqn:E1; cbn [mbind option_bind] in E; [|done].
  destruct (skip_blanks _ _ _) as [[q|]|] eqn:E2; cbn [mbind option_bind] in E; [|done..].
  destruct (strtoul_loop 10 0 (at_ fb q) 0) as [[w m]|] eqn:E3; cbn [mbind option_bind] in E; [|done].
  injection E as <- <- <-. apply strtoul_inv in E1 as (l1 & _ & _ & _ & _ & _ & ->). apply skip_blanks_pos in E2.
  apply strtoul_inv in E3 as (l & c & rest & Eq & _ & Hc & ->). split; [lia|]. exists c, rest. split; [|done].
  unfold at_ in *. replace (Z.to_nat (q + (0 + Z.of_nat (length l)))) with (Z.to_nat q + length l)%nat by lia.
  by rewrite <- drop_drop, Eq, drop_app_length.
Qed.

Lemma proto_loop_read ct dir fb limit protos : ∀ data d data', 0 <= data →
  proto_loop ct dir protos fb limit data = Some (Some d, data') →
  dcc_read fb limit d ∧ forged ct dir d = false ∧ 0 <= addr_beg d.
Proof.
  induction protos as [|proto protos IH]; intros data d data' H0; cbn [proto_loop]; [done|].
  destruct (memcmp_eq _ _) as [[|]|]; cbn [mbind option_bind negb]; [|by apply IH|done]. cbn zeta.
  destruct (parse_dcc _ _ _) as [[d1|]|] eqn:Ep; cbn [mbind option_bind]; [|apply IH; lia|done].
  destruct (forged ct dir d1) eqn:Ef; [apply IH; lia|]. intros [= <- _]. unfold parse_dcc in Ep.
  destruct (find_blank _ _ _) as [[b|]|] eqn:Eb; cbn [mbind option_bind] in Ep; [|done..].
  apply find_blank_pos in Eb. destruct (dcc_numbers fb limit b) as [[[[ip port] e]|]|] eqn:En; cbn [mbind option_bind] in Ep; [|done..].
  injection Ep as <-. split; [exact En|]. split; [done|cbn [addr_beg]; lia].
Qed.

Lemma proto_loop_pos ct dir fb limit protos : ∀ data r data',
  proto_loop ct dir protos fb limit data = Some (r, data') → data <= data'.
Proof.
  induction protos as [|proto protos IH]; intros data r data'; cbn [proto_loop]; [by intros [= _ <-]|].
  destruct (memcmp_eq _ _) as [[|]|]; cbn [mbind option_bind negb]; [|by apply IH|done]. cbn zeta.
  destruct (parse_dcc _ _ _) as [[d1|]|]; cbn [mbind option_bind]; [|intros H%IH; lia|done].
  destruct (forged ct dir d1); [intros H%IH; lia|]. intros [= _ <-]. lia.
Qed.

Lemma dcc_loop_read ct dir fb limit fuel : ∀ data d, 0 <= data →
  dcc_loop fuel ct dir fb limit data = Some (Some d) →
  dcc_read fb limit d ∧ forged ct dir d = false ∧ 0 <= addr_beg d.
Proof.
  induction fuel as [|fuel IH]; intros data d H0; cbn [dcc_loop]; destruct (_ <? _); try done.
  destruct (memcmp_eq _ _) as [[|]|]; cbn [mbind option_bind negb]; [|apply IH; lia|done].
  destruct (proto_loop _ _ _ _ _ _) as [[[d1|] data']|] eqn:Ep; cbn [mbind option_bind]; [| |done].
  - intros [= <-]. eapply proto_loop_read; [|exact Ep]. lia.
  - apply IH. apply proto_loop_pos in Ep. lia.
Qed.

(** ** The text of the NAT helper is read back *)
Lemma irc_text_size ip port : 0 <= port < 65536 → (length (irc_text ip port) <= 16)%nat.
Proof.
  intros Hp. pose proof (ntohl_range ip) as Hi. unfold is_u32 in Hi. unfold irc_text. rewrite !length_app. cbn [length].
  pose proof (utoa_length 10 10 (ntohl ip) ltac:(simpl; lia) ltac:(lia)).
  pose proof (utoa_length 10 5 port ltac:(simpl; lia) ltac:(lia)). unfold utoa. lia.
Qed.

Lemma at_app pre l : at_ (pre ++ l) (Z.of_nat (length pre)) = l.
Proof. unfold at_. by rewrite Nat2Z.id, drop_app_length. Qed.

Lemma irc_text_read pre ip port c rest limit (text := irc_text ip port) : 0 <= port < 65536 → isdigit c = false →
  Z.of_nat (length pre + length text) <= limit →
  dcc_numbers (pre ++ text ++ c :: rest) limit (Z.of_nat (length pre))
  = Some (Some (ntohl ip, port, Z.of_nat (length pre + length text))).
Proof.
  intros Hp Hc Hl. pose proof (ntohl_range ip) as Hi. unfold is_u32 in Hi.
  destruct (utoa_spec (ntohl ip) Hi) as (D1 & _ & V1). destruct (utoa_spec port ltac:(lia)) as (D2 & _ & V2).
  destruct (utoa_loop_spec 10 port ltac:(simpl; lia) ltac:(lia)) as (_ & _ & Hne).
  assert (length text = length (utoa (ntohl ip)) + 1 + length (utoa port))%nat as Elen
    by (unfold text, irc_text; rewrite !length_app; cbn [length]; lia).
  unfold dcc_numbers, simple_strtoul. cbn [Z.eqb Pos.eqb].
  assert (text ++ c :: rest = utoa (ntohl ip) ++ BLANK :: utoa port ++ c :: rest) as ->
    by (unfold text, irc_text; by rewrite <- !app_assoc).
  rewrite at_app, strtoul_reads by done. cbn [mbind option_bind]. fold (dec (utoa (ntohl ip))). rewrite V1.
  replace (Z.of_nat (length pre) + (0 + Z.of_nat (length (utoa (ntohl ip)))))
    with (Z.of_nat (length (pre ++ utoa (ntohl ip)))) by (rewrite length_app; lia).
  rewrite (app_assoc pre), at_app. cbn [skip_blanks]. rewrite Z.eqb_refl, (proj2 (Z.leb_gt _ _)) by (rewrite length_app; lia).
  assert (∃ d l, utoa port = d :: l ∧ isdigit d = true) as (d & l & Ed & Hd).
  { unfold utoa in *. destruct (utoa_loop 10 port) as [|d l]; [done|]. exists d, l. split; [done|]. by apply Forall_cons_iff in D2 as [? _]. }
  rewrite Ed at 1. cbn [app skip_blanks].
  assert (d ≠ BLANK) as Hb by (intros ->; unfold BLANK, isdigit in Hd; discriminate Hd).
  rewrite (proj2 (Z.eqb_neq _ _) Hb). cbn [mbind option_bind].
  replace (Z.of_nat (length (pre ++ utoa (ntohl ip))) + 1)
    with (Z.of_nat (length ((pre ++ utoa (ntohl ip)) ++ [BLANK]))) by (rewrite !length_app; cbn [length]; lia).
  assert ((pre ++ utoa (ntohl ip)) ++ BLANK :: utoa port ++ c :: rest
    = ((pre ++ utoa (ntohl ip)) ++ [BLANK]) ++ utoa port ++ c :: rest) as -> by (by rewrite <- !app_assoc).
  rewrite at_app, strtoul_reads by done. cbn [mbind option_bind]. fold (dec (utoa port)). rewrite V2.
  unfold u16. rewrite Z.mod_small by lia. do 3 f_equal. rewrite !length_app. cbn [length]. lia.
Qed.

(** ** NAT *)

(** The bytes to replace are in the payload. *)
Definition fits (skb : sk_buff) (off len : Z) : Prop := payload_off skb + off + len <= skb_len skb.

Lemma mangle_fits ok tr skb ct ctinfo off len rep skb' ct' :
  ip_nat_mangle_tcp_packet ok tr skb ct ctinfo off len rep = Some (true, skb', ct') → fits skb off len.
Proof.
  unfold ip_nat_mangle_tcp_packet. destruct (negb (skb_make_writable _ _ _)); [done|].
  destruct (negb (mangle_room _ _ _ _ _)); [done|]. cbn zeta. unfold mangle_contents, fits, payload_off, skb_len.
  destruct (Z.ltb_spec (Z.of_nat (length (data skb))) (ihl (skb_iph skb) * 4
    + th_doff (tcphdr_at (data skb) (ihl (skb_iph skb) * 4)) * 4 + off + len)); [done|]. intros _. cbn zeta. lia.
Qed.

(** What NAT has done to an accepted packet: the text for the port it chose is in it, and
    the connection to that port is expected. *)
Definition irc_rewritten (ienv : irc_env) (p : positive) (ct : ip_conntrack) (ctinfo off len : Z)
    (x : ip_conntrack_expect) (skb skb' : sk_buff) (s' : ct_state) : Prop :=
  ∃ port ct1 ct', 0 < port < 65536 ∧
    let text := irc_text (dst_ip (tuple_reply ct)) port in
    ip_nat_mangle_tcp_packet true (i_tailroom ienv) skb ct1 ctinfo off len text = Some (true, skb', ct') ∧
    mangle_room true (i_tailroom ienv) skb len (Z.of_nat (length text)) = true ∧
    registered (with_port x port) s'.

Lemma some_bind {A B} (f : A → option B) x : (Some x ≫= f) = f x.
Proof. reflexivity. Qed.

Lemma nat_irc_spec env live ehold p h ienv follow skb ctinfo off len e x s ct :
  e ∈ ehold → expecting_state env live ehold p h e x s → cts s !! p = Some ct → fits skb off len →
  ∃ v skb' nat s', ip_nat_irc env ienv follow skb ctinfo off len e s = Some (v, skb', nat, s') ∧
    Inv env ∅ ∅ live ehold s' ∧ (v = NF_ACCEPT ∨ v = NF_DROP) ∧
    (v = NF_ACCEPT → irc_rewritten ienv p ct ctinfo off len x skb skb' s').
Proof.
  intros Hhold HS Hct Hfit. unfold ip_nat_irc. rewrite (es_exp _ _ _ _ _ _ _ _ HS).
  rewrite some_bind. cbv beta iota zeta. rewrite (es_master _ _ _ _ _ _ _ _ HS). cbn [saved_proto].
  match goal with |- context [upd_exp e ?f s] =>
    pose proof (upd_expecting _ _ _ _ _ e x f s HS eq_refl eq_refl eq_refl) as HS1; set (s0 := upd_exp e f s) in * end.
  destruct (orig_assign_spec _ _ _ _ _ e _ (dst_u (exp_tuple x)) _ HS1) as (port & s1 & -> & HI1 & Hp & Hreg & HF).
  rewrite some_bind. cbv beta iota zeta. destruct (Z.eqb_spec port 0) as [->|Hne].
  { eexists _, _, _, s1. split; [done|]. split; [done|]. split; [by right|done]. }
  destruct (frame_fwd HF p ct Hct) as (ct1 & Hct1 & Hfr). rewrite Hct1. rewrite some_bind. cbv beta iota zeta.
  rewrite (cf_reply _ _ Hfr). set (text := irc_text _ port).
  destruct (mangle_some (i_writable ienv) (i_tailroom ienv) skb ct1 ctinfo off len text Hfit) as (b & skb' & ct' & E & Hb).
  rewrite E. rewrite some_bind. cbv beta iota zeta.
  assert (Inv env ∅ ∅ live ehold (upd_ct p (λ _, ct') s1)) as HI2.
  { apply Inv_upd; [|done]. intros c Hc. rewrite Hct1 in Hc. injection Hc as <-. by apply mangled_frame in E. }
  destruct b; cbn [Z.eqb NF_ACCEPT Pos.eqb negb].
  - eexists _, _, _, _. split; [done|]. split; [exact HI2|]. split; [by left|]. intros _.
    destruct (Hb eq_refl) as [Ew Hroom]. rewrite Ew in *. exists port, ct1, ct'. split; [lia|].
    split; [exact E|]. split; [exact Hroom|]. exact (Hreg Hne).
  - destruct (proj1 (elem_of_dom _ _) (ew_hold _ _ _ (inv_exp _ _ _ _ _ _ HI2) e Hhold)) as [x2 Hx2].
    rewrite Hx2. rewrite some_bind. cbv beta iota zeta. eexists _, _, _, _. split; [done|].
    split; [apply unexpect_inv; [done|]; intros j; by rewrite elem_of_reverse|]. split; [by right|done].
Qed.

Lemma nat_irc_fits env ienv follow skb ctinfo off len e s skb' nat s' :
  ip_nat_irc env ienv follow skb ctinfo off len e s = Some (NF_ACCEPT, skb', nat, s') → fits skb off len.
Proof.
  unfold ip_nat_irc. intros (x & _ & E)%bind_Some. cbv zeta in E. apply bind_Some in E as ([port s1] & _ & E).
  destruct (port =? 0); [discriminate E|]. apply bind_Some in E as (ct & _ & E).
  apply bind_Some in E as ([[ok skb1] ct'] & Em & E). destruct ok; [exact (mangle_fits _ _ _ _ _ _ _ _ _ _ Em)|].
  change (negb (0 =? NF_ACCEPT)) with true in E. cbv iota in E. apply bind_Some in E as (x' & _ & E). discriminate E.
Qed.

(** ** The helper *)
Section help.
Context (env : ct_env) (ienv : irc_env) (follow : positive) (skb : sk_buff) (p : positive) (ctinfo : Z).
Context (live ehold : gmultiset positive) (h : ip_conntrack_helper) (s : ct_state) (ct : ip_conntrack).
Hypothesis Hinv : Inv env ∅ ∅ live ehold s.
Hypothesis Hct : cts s !! p = Some ct.
Hypothesis Hhelper : master_helper s p = Some h.
Hypothesis Hshort : Z.of_nat (length (ip_conntrack_expect_list s)) < 4294967295.

Notation limit := (skb_len skb - payload_off skb).
Notation mem := (payload (payload_off skb) skb ++ behind ienv).

Definition irc_tuple (ip port : Z) : ip_conntrack_tuple :=
  mk_tuple 0 0 ip (htons port) IPPROTO_TCP IP_CT_DIR_ORIGINAL.

Lemma irc_expect_spec d (rev := tuplehash ct (dir_neg (CTINFO2DIR ctinfo))) :
  fits skb (addr_beg d) (addr_end d - addr_beg d) →
  ∃ v skb' nat s', irc_expect env ienv follow skb p ct ctinfo d s = Some (v, skb', nat, s') ∧
    Inv env ∅ ∅ live ehold s' ∧ (v = NF_ACCEPT ∨ v = NF_DROP) ∧
    (v = NF_ACCEPT → is_Some nat → ∃ port0,
       irc_rewritten ienv p ct ctinfo (addr_beg d) (addr_end d - addr_beg d)
         (new_exp irc_mask p (irc_tuple (dst_ip rev) port0)) skb skb' s').
Proof.
  intros Hfit. unfold irc_expect. fold rev. cbv zeta. fold (irc_tuple (dst_ip rev) (dcc_port d)).
  set (tuple := irc_tuple _ _).
  destruct (ip_conntrack_expect_alloc env p tuple irc_mask None 0 s) as [[e|] s1] eqn:Ea.
  2: { assert (s1 = s) as ->. { unfold ip_conntrack_expect_alloc in Ea. destruct (alloc_ok env); cbn [negb] in Ea;
         [discriminate Ea|]. by injection Ea as ->. }
       eexists _, _, _, s. split; [done|]. split; [done|]. split; [by right|done]. }
  destruct (alloc_expecting env live ehold p h irc_mask tuple s e s1 Hinv ltac:(by exists ct) Hhelper Hshort Ea) as [HS Ects].
  destruct (irc_nat_hook ienv).
  - destruct (nat_irc_spec env live (ehold ⊎ {[+ e +]}) p h ienv follow skb ctinfo (addr_beg d) (addr_end d - addr_beg d) e
      (new_exp irc_mask p tuple) s1 ct) as (v & skb' & nat & s2 & -> & HI2 & Hv & Hok);
      [apply gmultiset_elem_of_disj_union; right; by apply gmultiset_elem_of_singleton|exact HS|by rewrite Ects|exact Hfit|].
    rewrite some_bind. cbv beta iota. eexists _, _, _, _. split; [done|].
    split; [by apply (put_expecting env live ehold e (new_exp irc_mask p tuple))|]. split; [done|]. intros Hacc _.
    exists (dcc_port d). destruct (Hok Hacc) as (port & ct1 & ct' & Hp & Hm & Hroom & Hreg).
    exists port, ct1, ct'. split; [exact Hp|]. split; [exact Hm|]. split; [exact Hroom|].
    exact (proj1 (proj2 (put_expecting env live ehold e _ s2 HI2)) Hreg).
  - destruct (related_expecting env live (ehold ⊎ {[+ e +]}) p h e (new_exp irc_mask p tuple) s1 HS) as (ret & s2 & -> & HI2 & _).
    rewrite some_bind. cbv beta iota. eexists _, _, _, _. split; [done|].
    split; [by apply (put_expecting env live ehold e (new_exp irc_mask p tuple))|].
    split; [destruct (ret =? 0); [by left|by right]|]. by intros _ [].
Qed.

Lemma irc_expect_fits d skb' nat s' : irc_expect env ienv follow skb p ct ctinfo d s = Some (NF_ACCEPT, skb', Some nat, s') →
  fits skb (addr_beg d) (addr_end d - addr_beg d).
Proof.
  unfold irc_expect. cbv zeta. destruct (ip_conntrack_expect_alloc _ _ _ _ _ _ _) as [[e|] s1]; [|done].
  destruct (irc_nat_hook ienv).
  - intros ([[[v skb1] nat1] s2] & E & E2)%bind_Some. injection E2 as -> _ _ _. exact (nat_irc_fits _ _ _ _ _ _ _ _ _ _ _ _ E).
  - intros ([ret s2] & _ & E2)%bind_Some. discriminate E2.
Qed.

(** A packet that is left alone, or the search of the payload and what follows from it. *)
Lemma irc_help_cases (r := irc_help env ienv follow skb p ctinfo s) :
  r = Some (NF_ACCEPT, skb, None, s) ∨
  CTINFO2DIR ctinfo = IP_CT_DIR_ORIGINAL ∧ payload_off skb < skb_len skb ∧
  r = (d ← dcc_loop (Z.to_nat limit) ct IP_CT_DIR_ORIGINAL mem limit 0;
       match d with
       | None => Some (NF_ACCEPT, skb, None, s)
       | Some d => irc_expect env ienv follow skb p ct ctinfo d s
       end).
Proof.
  unfold r, irc_help. cbv zeta. rewrite Hct, some_bind. destruct (CTINFO2DIR ctinfo); cbn [dir_eqb bool_decide decide_rel]; [|by left].
  destruct (_ && _); [by left|]. destruct (skb_header_pointer _ _ _); [|by left]. fold (payload_off skb).
  destruct (Z.leb_spec (skb_len skb) (payload_off skb)); [by left|]. right. split; [done|]. split; [done|]. reflexivity.
Qed.
End help.

(** ** The guarantees *)

Lemma payload_length skb : Forall is_u8 (data skb) → payload_off skb < skb_len skb →
  Z.of_nat (length (payload (payload_off skb) skb)) = skb_len skb - payload_off skb.
Proof. intros Hb%payload_off_pos Hlt. unfold payload, skb_len in *. rewrite length_drop. lia. Qed.

(** C33: The IRC helper is safe on lines that end as they should.  On every packet of a
    connection with a helper whose payload ends in a control character, whatever lies
    behind it in memory, the helper returns a verdict: its search for a command ends and
    reads nothing behind the payload, its rewriting and its search for a port stay in
    bounds, and the tracker is consistent afterwards. *)
Theorem irc_help_safe env ienv follow skb p ctinfo live ehold h s :
  Inv env ∅ ∅ live ehold s → p ∈ live → master_helper s p = Some h →
  Z.of_nat (length (ip_conntrack_expect_list s)) < 4294967295 → Forall is_u8 (data skb) →
  (∀ c, last (payload (payload_off skb) skb) = Some c → c < 32) →
  ∃ v skb' nat s', irc_help env ienv follow skb p ctinfo s = Some (v, skb', nat, s') ∧
    (v = NF_ACCEPT ∨ v = NF_DROP) ∧ Inv env ∅ ∅ live ehold s'.
Proof.
  intros HI Hlive Hh Hlen Hb Hlast.
  destruct (proj1 (elem_of_dom _ _) (proj1 (ow_live _ _ _ _ (inv_own _ _ _ _ _ _ HI) p Hlive))) as [ct Hct].
  assert (∃ v skb' nat s', Some (NF_ACCEPT, skb, @None (positive * exp_nat), s) = Some (v, skb', nat, s') ∧
    (v = NF_ACCEPT ∨ v = NF_DROP) ∧ Inv env ∅ ∅ live ehold s') as Hacc.
  { eexists _, _, _, _. split; [done|]. split; [by left|done]. }
  destruct (irc_help_cases env ienv follow skb p ctinfo s ct Hct) as [->|(_ & Hlt & ->)]; [exact Hacc|].
  pose proof (payload_length skb Hb Hlt) as HL. set (pl := payload (payload_off skb) skb) in *.
  destruct (lookup_lt_is_Some_2 pl (length pl - 1) ltac:(lia)) as [t Et].
  assert (t < 32) as Ht by (apply Hlast; rewrite last_lookup; by replace (pred (length pl)) with (length pl - 1)%nat by lia).
  assert ((pl ++ behind ienv) !! (length pl - 1)%nat = Some t) as Hk by (by apply lookup_app_l_Some).
  destruct (dcc_loop_stops t Ht _ _ (skb_len skb - payload_off skb) Hk ltac:(lia) ct IP_CT_DIR_ORIGINAL
    (Z.to_nat (skb_len skb - payload_off skb)) 0 ltac:(lia) ltac:(lia)) as (r & -> & Hr).
  rewrite some_bind. destruct r as [d|]; [|exact Hacc]. specialize (Hr d eq_refl).
  destruct (irc_expect_spec env ienv follow skb p ctinfo live ehold h s ct HI Hct Hh Hlen d)
    as (v & skb' & nat & s' & E & HI' & Hv & _); [unfold fits; lia|].
  by exists v, skb', nat, s'.
Qed.

(** C34: What the rewritten DCC command offers is what is expected.  When the helper
    accepts a packet that NAT has handled, its payload held a command with the client's
    own address, inside or outside; in the new packet the numbers at the same place read
    as the client's outside address and some port, up to their end; a connection from
    anywhere to this address and port is expected, and lengths and checksums are right. *)
Theorem irc_nat_consistent env ienv follow skb p ctinfo live ehold h s ct skb' nat s'
    (o := payload_off skb) (ip := dst_ip (tuple_reply ct)) :
  Inv env ∅ ∅ live ehold s → cts s !! p = Some ct → master_helper s p = Some h →
  Z.of_nat (length (ip_conntrack_expect_list s)) < 4294967295 → tcp_wf (data skb) → skb_len skb + 16 <= 65535 →
  irc_help env ienv follow skb p ctinfo s = Some (NF_ACCEPT, skb', Some nat, s') →
  ∃ d port, 0 < port < 65536 ∧
    dcc_read (payload o skb ++ behind ienv) (skb_len skb - o) d ∧ forged ct IP_CT_DIR_ORIGINAL d = false ∧
    dcc_read (payload o skb' ++ behind ienv) (skb_len skb' - o)
      (mk_dcc (ntohl ip) port (addr_beg d) (addr_beg d + Z.of_nat (length (irc_text ip port)))) ∧
    ntohs (ld16 (data skb') 2) = skb_len skb' ∧ ip_sum_ok (data skb') ∧ l4_sum_ok (data skb') ∧
    (∃ i y, i ∈ ip_conntrack_expect_list s' ∧ exps s' !! i = Some y ∧ exp_master y = p ∧
       ip_ct_tuple_equal (exp_mask y) irc_mask = true ∧ ip_ct_tuple_equal (exp_tuple y) (irc_tuple ip port) = true).
Proof.
  intros HI Hct Hh Hlen Hwf Hsz E. pose proof (iw_bytes _ (tw_ip _ Hwf)) as Hb.
  destruct (irc_help_cases env ienv follow skb p ctinfo s ct Hct) as [E'|(Hdir & Hlt & E')]; rewrite E in E'; [done|].
  symmetry in E'. apply bind_Some in E' as ([d|] & Ed & E'); [|done].
  pose proof (irc_expect_fits _ _ _ _ _ _ _ _ _ _ _ _ E') as Hfit.
  destruct (irc_expect_spec env ienv follow skb p ctinfo live ehold h s ct HI Hct Hh Hlen d Hfit)
    as (v & skb1 & nat1 & s1 & E1 & _ & _ & Hok). rewrite E' in E1. injection E1 as <- <- <- <-.
  destruct (Hok eq_refl ltac:(by eexists)) as (port0 & port & ct1 & ct' & Hp & Hm & Hroom & Hreg). fold ip in Hm, Hroom.
  apply dcc_loop_read in Ed as (Hread & Hforged & Hbeg); [|lia]. fold o in Hread.
  destruct (dcc_numbers_inv _ _ _ _ _ _ Hread Hbeg) as (Hend & c & rest & Hc & Hdig).
  pose proof (irc_text_size ip port ltac:(lia)) as Hts. set (text := irc_text ip port) in *.
  assert (Forall is_u8 text) as Htb.
  { pose proof (ntohl_range ip) as Hi. unfold is_u32 in Hi. unfold text, irc_text. rewrite !Forall_app.
    split; [apply digits_bytes; by apply utoa_spec|]. split; [apply Forall_cons_iff; split; [unfold is_u8, BLANK; lia|constructor]|].
    apply digits_bytes, utoa_spec. lia. }
  pose proof (payload_length skb Hb Hlt) as HL. unfold fits in Hfit. fold o in HL, Hfit, Hlt.
  destruct (mangle_tcp_full (i_tailroom ienv) skb ct1 ctinfo (addr_beg d) (addr_end d - addr_beg d) text Hwf Htb)
    as (skb2 & ct2 & Em & Hpay & Htot & Hnew & Hsum & Hl4 & _); [lia|lia|exact Hfit|lia|exact Hroom|].
  rewrite Hm in Em. injection Em as <- <-. exists d, port. split; [exact Hp|]. split; [exact Hread|]. split; [exact Hforged|].
  split; [|split; [exact Htot|split; [exact Hsum|split; [exact Hl4|]]]].
  - change (drop _ (data skb')) with (payload o skb') in Hpay. change (drop _ (data skb)) with (payload o skb) in Hpay.
    rewrite Hpay. unfold dcc_read. cbn [addr_beg dcc_ip dcc_port addr_end].
    replace (addr_beg d + (addr_end d - addr_beg d)) with (addr_end d) by lia. set (pl := payload o skb) in *.
    assert (drop (Z.to_nat (addr_end d)) pl ++ behind ienv = c :: rest) as Er.
    { rewrite <- Hc. unfold at_. by rewrite drop_app_le by lia. }
    rewrite <- !app_assoc, Er. assert (length (take (Z.to_nat (addr_beg d)) pl) = Z.to_nat (addr_beg d)) as Hpre by (rewrite length_take; lia).
    pose proof (irc_text_read (take (Z.to_nat (addr_beg d)) pl) ip port c rest (skb_len skb' - o) ltac:(lia) Hdig) as Ht.
    fold text in Ht. rewrite Hpre in Ht. rewrite Z2Nat.id in Ht by lia. rewrite Ht by lia. do 3 f_equal. fold text. lia.
  - destruct Hreg as (i & y & Hi & Hy & Hmt). exists i, y. unfold expect_matches in Hmt.
    apply andb_true_iff in Hmt as [[Hma Htu]%andb_true_iff Hmk]. apply bool_decide_eq_true in Hma.
    split; [exact Hi|]. split; [exact Hy|]. split; [exact Hma|]. split; [exact Hmk|]. rewrite Hdir in Htu. exact Htu.
Qed.

(** ** Examples *)

(** A client at 192.168.2.2 offers a file at its port 1029. *)
Definition dcc_offer (tail : list Z) : sk_buff :=
  tcp_pkt 3232236034 134744072 1025 21 1000 5000 24 4096 []
    ([1; 68; 67; 67; 32; 83; 69; 78; 68; 32; 102; 32; 51; 50; 51; 50; 50; 51; 54; 48; 51; 52; 32; 49; 48; 50; 57] ++ tail).
Definition dcc_ok : sk_buff := dcc_offer [32; 49; 48; 1; 13; 10].
Definition dcc_env (mem : list Z) : irc_env := mk_ircenv true mem true 100.

(** Numbers at the very end of a segment are read on in the memory behind it: nothing
    says where they end, and when a digit lies there the part to be replaced reaches out
    of the packet, which gives [memmove] of [mangle_contents] a negative size. *)
Lemma irc_reads_past_end :
  irc_help env0 (dcc_env []) 1 (dcc_offer []) 1 IP_CT_ESTABLISHED ctl_run.1.2 = None ∧
  irc_help env0 (dcc_env [53; 10]) 1 (dcc_offer []) 1 IP_CT_ESTABLISHED ctl_run.1.2 = None ∧
  ∃ ct d, cts ctl_run.1.2 !! 1%positive = Some ct ∧
    let pl := payload (payload_off (dcc_offer [])) (dcc_offer []) in
    dcc_loop 27 ct IP_CT_DIR_ORIGINAL (pl ++ [53; 10]) 27 0 = Some (Some d) ∧
    length pl = 27%nat ∧ addr_end d = 28 ∧ dcc_port d = 10295.
Proof.
  split; [vm_compute; reflexivity|]. split; [vm_compute; reflexivity|].
  destruct (cts ctl_run.1.2 !! 1%positive) as [ct|] eqn:E; [|vm_compute in E; discriminate E].
  exists ct. eexists. split; [reflexivity|]. vm_compute in E. injection E as <-.
  split; [vm_compute; reflexivity|]. vm_compute. done.
Qed.

Lemma irc_help_safe_witness : ∃ v skb' nat s',
  irc_help env0 (dcc_env []) 1 dcc_ok 1 IP_CT_ESTABLISHED ctl_run.1.2 = Some (v, skb', nat, s') ∧
  (v = NF_ACCEPT ∨ v = NF_DROP) ∧ Inv env0 ∅ ∅ (∅ ⊎ skb_ref ctl_run.2) ∅ s'.
Proof.
  apply (irc_help_safe env0 (dcc_env []) 1 dcc_ok 1 IP_CT_ESTABLISHED _ ∅ demo_helper _ ctl_inv ctl_live).
  - vm_compute. reflexivity.
  - vm_compute. reflexivity.
  - apply bytes_ok. vm_compute. reflexivity.
  - intros c E. vm_compute in E. injection E as <-. reflexivity.
Defined.

Lemma irc_nat_consistent_witness : ∃ skb' nat s' d port,
  irc_help env0 (dcc_env []) 1 dcc_ok 1 IP_CT_ESTABLISHED ctl_run.1.2 = Some (NF_ACCEPT, skb', Some nat, s') ∧
  0 < port < 65536 ∧ dcc_read (payload (payload_off dcc_ok) skb' ++ []) (skb_len skb' - payload_off dcc_ok) d ∧
  dcc_port d = port.
Proof.
  destruct (irc_help env0 (dcc_env []) 1 dcc_ok 1 IP_CT_ESTABLISHED ctl_run.1.2)
    as [[[[v skb'] [nat|]] s']|] eqn:E; [|exfalso; vm_compute in E; discriminate E..].
  assert (v = NF_ACCEPT) as -> by (vm_compute in E; injection E as <- _ _ _; vm_compute; reflexivity).
  destruct (cts ctl_run.1.2 !! 1%positive) as [ct|] eqn:Ect; [|vm_compute in Ect; discriminate Ect].
  destruct (irc_nat_consistent env0 (dcc_env []) 1 dcc_ok 1 IP_CT_ESTABLISHED _ ∅ demo_helper _ ct
    skb' nat s' ctl_inv Ect) as (d & port & Hp & _ & _ & Hread & _).
  - vm_compute. reflexivity.
  - vm_compute. reflexivity.
  - repeat split; first [apply bytes_ok; vm_compute; reflexivity | vm_compute; congruence].
  - vm_compute. congruence.
  - exact E.
  - exists skb', nat, s'. eexists _, port. split; [reflexivity|]. split; [exact Hp|]. split; [exact Hread|reflexivity].
Defined.
