(* ===== verification/Snmp.v ===== *)
(** * The SNMP helper: [net/ipv4/netfilter/ip_nat_snmp_basic.c]

    The helper looks into SNMP replies and traps that are subject to NAT and replaces the
    first octet of the addresses in them.  It has a BER decoder of its own, which works on
    raw pointers and copies what it reads into blocks of the heap.

    A pointer into the packet is a 32-bit address; sums wrap, comparisons are unsigned, and
    [NULL] is 0.  The state is the record [snmp]: the message, the checksum of the UDP
    header, [struct asn1_ctx], the pointer [*obj] of the object in work and the live blocks
    of the heap with their sizes.  What is stored in the blocks is not kept, as nothing is
    decided by it, except for [struct snmp_object]; that a store stays inside its block is
    checked.  The messages to the log and the parameter [debug] are left out. *)
From S2P Require Import Prelude Packet CtBase CtProtos Conntrack NatProto.

Definition SNMP_PORT := 161.
Definition SNMP_TRAP_PORT := 162.
Definition NOCT1 (n : Z) : Z := Z.land n 255.

Record oct1_map := mk_map { from : Z; to : Z }.

Definition ASN1_UNI := 0.
Definition ASN1_APL := 1.
Definition ASN1_CTX := 2.
Definition ASN1_INT := 2.
Definition ASN1_BTS := 3.
Definition ASN1_OTS := 4.
Definition ASN1_NUL := 5.
Definition ASN1_OJI := 6.
Definition ASN1_SEQ := 16.
Definition ASN1_PRI := 0.
Definition ASN1_CON := 1.

Definition ASN1_ERR_NOERROR := 0.
Definition ASN1_ERR_DEC_EMPTY := 2.
Definition ASN1_ERR_DEC_EOC_MISMATCH := 3.
Definition ASN1_ERR_DEC_LENGTH_MISMATCH := 4.
Definition ASN1_ERR_DEC_BADVALUE := 5.

(** ** State *)

(** [o_addr] is the object's own block. *)
Record snmp_object := mk_obj {
  o_addr : positive; o_id : positive; o_id_len : Z; o_type : Z; o_syntax_len : Z }.

(** [oom] says which of the next allocations fail. *)
Record snmp := mk_snmp {
  msg : list Z; check : Z;
  error : Z; pointer : Z; begin_ : Z; end_ : Z;
  obj : option snmp_object; heap : gmap positive Z; oom : list bool }.

#[export] Instance upd_msg : Update msg := λ v s,
  mk_snmp v (check s) (error s) (pointer s) (begin_ s) (end_ s) (obj s) (heap s) (oom s).
#[export] Instance upd_check : Update check := λ v s,
  mk_snmp (msg s) v (error s) (pointer s) (begin_ s) (end_ s) (obj s) (heap s) (oom s).
#[export] Instance upd_error : Update error := λ v s,
  mk_snmp (msg s) (check s) v (pointer s) (begin_ s) (end_ s) (obj s) (heap s) (oom s).
#[export] Instance upd_pointer : Update pointer := λ v s,
  mk_snmp (msg s) (check s) (error s) v (begin_ s) (end_ s) (obj s) (heap s) (oom s).
#[export] Instance upd_obj : Update obj := λ v s,
  mk_snmp (msg s) (check s) (error s) (pointer s) (begin_ s) (end_ s) v (heap s) (oom s).
#[export] Instance upd_heap : Update heap := λ v s,
  mk_snmp (msg s) (check s) (error s) (pointer s) (begin_ s) (end_ s) (obj s) v (oom s).
#[export] Instance upd_oom : Update oom := λ v s,
  mk_snmp (msg s) (check s) (error s) (pointer s) (begin_ s) (end_ s) (obj s) (heap s) v.

(** ** Effects

    [Ret] is a return with a true value and what it stores through its arguments, [Fail]
    is [return 0], [Stray] an access through a pointer that has left the message, [Fault] a
    store outside its block or a [kfree] of what is not allocated, and [NoFuel] a loop that
    has not come to its end.  [Stray] and [NoFuel] show the state that was reached. *)
Inductive outcome (A : Type) :=
  | Ret (a : A) (s : snmp)
  | Fail (s : snmp)
  | Stray (s : snmp)
  | Fault
  | NoFuel (s : snmp).
Arguments Ret {A} a s.
Arguments Fail {A} s.
Arguments Stray {A} s.
Arguments Fault {A}.
Arguments NoFuel {A} s.

Definition M (A : Type) : Type := snmp → outcome A.

#[export] Instance snmp_ret : MRet M := λ A a s, Ret a s.
#[export] Instance snmp_bind : MBind M := λ A B k m s,
  match m s with
  | Ret a s => k a s
  | Fail s => Fail s
  | Stray s => Stray s
  | Fault => Fault
  | NoFuel s => NoFuel s
  end.

Definition fail {A} : M A := λ s, Fail s.
Definition require (b : bool) : M () := if b then mret () else fail.
Definition gets {A} (f : snmp → A) : M A := λ s, Ret (f s) s.
Definition modify (f : snmp → snmp) : M () := λ s, Ret () (f s).
Definition with_error (e : Z) {A} : M A := λ s, Fail (s <| error := e |>).

(** [if (!m) { cleanup; return 0; }]. *)
Definition on_fail {A} (cleanup : M ()) (m : M A) : M A := λ s,
  match m s with
  | Fail s => (cleanup ≫= λ _, fail) s
  | r => r
  end.

(** Whether [m] returns a true value. *)
Definition attempt (m : M ()) : M bool := λ s,
  match m s with
  | Ret _ s => Ret true s
  | Fail s => Ret false s
  | Stray s => Stray s
  | Fault => Fault
  | NoFuel s => NoFuel s
  end.

(** ** Memory: [mm/slab.c], [include/linux/kmalloc_sizes.h] *)
Definition malloc_sizes : list Z :=
  [32; 64; 96; 128; 192; 256; 512; 1024; 2048; 4096; 8192; 16384; 32768; 65536; 131072].

(** The size of the objects of the cache that serves [size] bytes. *)
Definition find_general_cachep (size : Z) : option Z :=
  snd <$> list_find (λ c, size <= c) malloc_sizes.

Definition kmalloc (size : Z) : M (option positive) := λ s,
  let s' := s <| oom := tl (oom s) |> in
  match find_general_cachep size with
  | None => Ret None s
  | Some c =>
      if hd false (oom s) then Ret None s'
      else let p := fresh (dom (heap s)) in Ret (Some p) (s' <| heap := <[p := c]> (heap s) |>)
  end.

Definition kfree (p : positive) : M () := λ s,
  match heap s !! p with
  | Some _ => Ret () (s <| heap := delete p (heap s) |>)
  | None => Fault
  end.

(** A store into the first [n] bytes of a block. *)
Definition store (p : positive) (n : Z) : M () := λ s,
  match heap s !! p with
  | Some c => if n <=? c then Ret () s else Fault
  | None => Fault
  end.

(** The byte of the message at an address. *)
Definition load (addr : Z) : M Z := λ s,
  if addr <? begin_ s then Stray s
  else match msg s !! Z.to_nat (addr - begin_ s) with
       | Some b => Ret b s
       | None => Stray s
       end.

(** ** The BER decoder *)
Definition asn1_open (buf : Z) (len : Z) : M () := modify (λ s,
  mk_snmp (msg s) (check s) ASN1_ERR_NOERROR buf buf (u32 (buf + len)) (obj s) (heap s) (oom s)).

Definition asn1_octet_decode : M Z := λ s,
  if end_ s <=? pointer s then with_error ASN1_ERR_DEC_EMPTY s
  else (ch ← load (pointer s); _ ← modify (λ s, s <| pointer := u32 (pointer s + 1) |>); mret ch) s.

(** Every turn takes an octet of the message. *)
Definition octets_fuel {A} (m : nat → M A) : M A := λ s, m (S (length (msg s))) s.

Definition add_septet (x ch : Z) : Z := u32 (Z.lor (Z.shiftl x 7) (Z.land ch 127)).
Definition add_octet (x ch : Z) : Z := u32 (Z.lor (Z.shiftl x 8) ch).

Fixpoint asn1_tag_loop (fuel : nat) (tag : Z) : M Z :=
  match fuel with
  | O => λ s, NoFuel s
  | S fuel =>
      ch ← asn1_octet_decode;
      let tag := add_septet tag ch in
      if Z.land ch 128 =? 128 then asn1_tag_loop fuel tag else mret tag
  end.

Definition asn1_tag_decode : M Z := octets_fuel (λ fuel, asn1_tag_loop fuel 0).

Definition asn1_id_decode : M (Z * Z * Z) :=
  ch ← asn1_octet_decode;
  let cls := Z.shiftr (Z.land ch 192) 6 in
  let con := Z.shiftr (Z.land ch 32) 5 in
  let tag := Z.land ch 31 in
  if tag =? 31 then tag ← asn1_tag_decode; mret (cls, con, tag) else mret (cls, con, tag).

Fixpoint asn1_length_loop (cnt : nat) (len : Z) : M Z :=
  match cnt with
  | O => mret len
  | S cnt => ch ← asn1_octet_decode; asn1_length_loop cnt (add_octet len ch)
  end.

(** [None] for an indefinite length. *)
Definition asn1_length_decode : M (option Z) :=
  ch ← asn1_octet_decode;
  if ch =? 128 then mret None
  else if ch <? 128 then mret (Some ch)
  else len ← asn1_length_loop (Z.to_nat (Z.land ch 127)) 0; mret (Some len).

Definition asn1_header_decode : M (Z * Z * Z * Z) :=
  '(cls, con, tag) ← asn1_id_decode;
  len ← asn1_length_decode;
  eoc ← gets (λ s, match len with Some len => u32 (pointer s + len) | None => 0 end);
  mret (eoc, cls, con, tag).

Definition asn1_eoc_octet : M () :=
  ch ← asn1_octet_decode;
  if negb (ch =? 0) then with_error ASN1_ERR_DEC_EOC_MISMATCH else mret ().

Definition asn1_eoc_decode (eoc : Z) : M () :=
  if eoc =? 0 then _ ← asn1_eoc_octet; asn1_eoc_octet
  else λ s, if negb (pointer s =? eoc) then with_error ASN1_ERR_DEC_LENGTH_MISMATCH s else Ret () s.

Definition asn1_null_decode (eoc : Z) : M () := modify (λ s, s <| pointer := eoc |>).

(** [while (ctx->pointer < eoc)] with a count of at most [sizeof(long)] octets; [len] is
    the count. *)
Fixpoint asn1_int_loop (fuel : nat) (eoc len integer : Z) : M Z := λ s,
  match fuel with
  | O => NoFuel s
  | S fuel =>
      if pointer s <? eoc then
        if 4 <? len + 1 then with_error ASN1_ERR_DEC_BADVALUE s
        else (ch ← asn1_octet_decode; asn1_int_loop fuel eoc (len + 1) (add_octet integer ch)) s
      else Ret integer s
  end.

Definition asn1_long_decode (eoc : Z) : M Z :=
  ch ← asn1_octet_decode;
  x ← asn1_int_loop 5 eoc 1 (u32 (if ch <? 128 then ch else ch - 256));
  mret (s32 x).

Definition asn1_uint_decode (eoc : Z) : M Z :=
  ch ← asn1_octet_decode;
  asn1_int_loop 6 eoc (if ch =? 0 then 0 else 1) ch.

Definition asn1_ulong_decode (eoc : Z) : M Z :=
  ch ← asn1_octet_decode;
  asn1_int_loop 6 eoc (if ch =? 0 then 0 else 1) ch.

Fixpoint asn1_octets_loop (fuel : nat) (eoc : Z) (octets : positive) (len : Z) : M Z := λ s,
  match fuel with
  | O => NoFuel s
  | S fuel =>
      if pointer s <? eoc then
        (_ ← on_fail (kfree octets) (_ ← asn1_octet_decode; store octets (len + 1));
         asn1_octets_loop fuel eoc octets (len + 1)) s
      else Ret len s
  end.

Definition asn1_octets_decode (eoc : Z) : M (positive * Z) := λ s,
  (octets ← kmalloc (u32 (eoc - pointer s));
   match octets with
   | None => fail
   | Some octets => len ← octets_fuel (λ fuel, asn1_octets_loop fuel eoc octets 0); mret (octets, len)
   end) s.

Fixpoint asn1_subid_loop (fuel : nat) (subid : Z) : M Z :=
  match fuel with
  | O => λ s, NoFuel s
  | S fuel =>
      ch ← asn1_octet_decode;
      let subid := add_septet subid ch in
      if Z.land ch 128 =? 128 then asn1_subid_loop fuel subid else mret subid
  end.

Definition asn1_subid_decode : M Z := octets_fuel (λ fuel, asn1_subid_loop fuel 0).

Definition sizeof_long := 4.

(** The loop over the sub-identifiers after the first; [len] of them are in the block. *)
Fixpoint asn1_oid_loop (fuel : nat) (eoc size : Z) (oid : positive) (len : Z) : M Z := λ s,
  match fuel with
  | O => NoFuel s
  | S fuel =>
      if pointer s <? eoc then
        let len := u32 (len + 1) in
        if size <? len then on_fail (kfree oid) (with_error ASN1_ERR_DEC_BADVALUE) s
        else (_ ← store oid (sizeof_long * len);
              _ ← on_fail (kfree oid) asn1_subid_decode;
              asn1_oid_loop fuel eoc size oid len) s
      else Ret len s
  end.

Definition asn1_oid_decode (eoc : Z) : M (positive * Z) := λ s,
  let size := u32 (u32 (eoc - pointer s) + 1) in
  (oid ← kmalloc (u32 (size * sizeof_long));
   match oid with
   | None => fail
   | Some oid =>
       _ ← on_fail (kfree oid) asn1_subid_decode;
       _ ← store oid (2 * sizeof_long);
       len ← octets_fuel (λ fuel, asn1_oid_loop fuel eoc size oid 2);
       mret (oid, len)
   end) s.

(** ** SNMP *)
Definition SNMP_PDU_RESPONSE := 2.
Definition SNMP_PDU_TRAP1 := 4.
Definition SNMP_PDU_TRAP2 := 7.

Definition SNMP_NULL := 0.
Definition SNMP_INTEGER := 1.
Definition SNMP_OCTETSTR := 2.
Definition SNMP_DISPLAYSTR := 2.
Definition SNMP_OBJECTID := 3.
Definition SNMP_IPADDR := 4.
Definition SNMP_COUNTER := 5.
Definition SNMP_GAUGE := 6.
Definition SNMP_TIMETICKS := 7.
Definition SNMP_OPAQUE := 8.
Definition SNMP_BITSTR := 9.
Definition SNMP_COUNTER64 := 11.
Definition SNMP_NOSUCHOBJECT := 12.
Definition SNMP_NOSUCHINSTANCE := 13.
Definition SNMP_ENDOFMIBVIEW := 14.

Definition SNMP_IPA := 0.
Definition SNMP_CNT := 1.
Definition SNMP_GGE := 2.
Definition SNMP_TIT := 3.
Definition SNMP_OPQ := 4.
Definition SNMP_C64 := 6.
Definition SERR_NSO := 0.
Definition SERR_NSI := 1.
Definition SERR_EOM := 2.

Record snmp_cnv := mk_cnv { cnv_class : Z; cnv_tag : Z; cnv_syntax : Z }.

Definition snmp_conv : list snmp_cnv :=
  [mk_cnv ASN1_UNI ASN1_NUL SNMP_NULL;
   mk_cnv ASN1_UNI ASN1_INT SNMP_INTEGER;
   mk_cnv ASN1_UNI ASN1_OTS SNMP_OCTETSTR;
   mk_cnv ASN1_UNI ASN1_OTS SNMP_DISPLAYSTR;
   mk_cnv ASN1_UNI ASN1_OJI SNMP_OBJECTID;
   mk_cnv ASN1_APL SNMP_IPA SNMP_IPADDR;
   mk_cnv ASN1_APL SNMP_CNT SNMP_COUNTER;
   mk_cnv ASN1_APL SNMP_GGE SNMP_GAUGE;
   mk_cnv ASN1_APL SNMP_TIT SNMP_TIMETICKS;
   mk_cnv ASN1_APL SNMP_OPQ SNMP_OPAQUE;
   mk_cnv ASN1_UNI ASN1_BTS SNMP_BITSTR;
   mk_cnv ASN1_APL SNMP_C64 SNMP_COUNTER64;
   mk_cnv ASN1_CTX SERR_NSO SNMP_NOSUCHOBJECT;
   mk_cnv ASN1_CTX SERR_NSI SNMP_NOSUCHINSTANCE;
   mk_cnv ASN1_CTX SERR_EOM SNMP_ENDOFMIBVIEW].

Fixpoint cls2syntax (cnv : list snmp_cnv) (tag cls : Z) : option Z :=
  match cnv with
  | [] => None
  | c :: cnv => if (cnv_tag c =? tag) && (cnv_class c =? cls) then Some (cnv_syntax c)
                else cls2syntax cnv tag cls
  end.

Definition snmp_tag_cls2syntax (tag cls : Z) : M Z :=
  match cls2syntax snmp_conv tag cls with Some type => mret type | None => fail end.

Definition is_hdr (cls con tag cls' con' tag' : Z) : bool :=
  (cls =? cls') && (con =? con') && (tag =? tag').

(** [sizeof(struct snmp_object)]. *)
Definition sizeof_snmp_object := 16.

Definition new_object (len : Z) : M positive :=
  o ← kmalloc (u32 (sizeof_snmp_object + len));
  match o with None => fail | Some o => mret o end.

(** The [switch] on the type of an object: the block of the object and its length.  A
    failed allocation of the object leaves the copy of an octet string or of an object
    identifier behind. *)
Definition snmp_value_decode (type eoc : Z) : M (positive * Z) :=
  if type =? SNMP_INTEGER then
    let len := sizeof_long in
    _ ← asn1_long_decode eoc;
    o ← new_object len;
    _ ← store o (sizeof_snmp_object + len); mret (o, len)
  else if (type =? SNMP_OCTETSTR) || (type =? SNMP_OPAQUE) then
    '(p, len) ← asn1_octets_decode eoc;
    o ← new_object len;
    _ ← store o (sizeof_snmp_object + len);
    _ ← kfree p; mret (o, len)
  else if (type =? SNMP_NULL) || (type =? SNMP_NOSUCHOBJECT) || (type =? SNMP_NOSUCHINSTANCE)
          || (type =? SNMP_ENDOFMIBVIEW) then
    o ← new_object 0;
    _ ← on_fail (kfree o) (asn1_null_decode eoc); mret (o, 0)
  else if type =? SNMP_OBJECTID then
    '(lp, len) ← asn1_oid_decode eoc;
    let len := u32 (len * sizeof_long) in
    o ← new_object len;
    _ ← store o (sizeof_snmp_object + len);
    _ ← kfree lp; mret (o, len)
  else if type =? SNMP_IPADDR then
    '(p, len) ← asn1_octets_decode eoc;
    o ← on_fail (kfree p) (_ ← require (len =? 4); new_object len);
    _ ← store o (sizeof_snmp_object + len);
    _ ← kfree p; mret (o, len)
  else if (type =? SNMP_COUNTER) || (type =? SNMP_GAUGE) || (type =? SNMP_TIMETICKS) then
    let len := sizeof_long in
    _ ← asn1_ulong_decode eoc;
    o ← new_object len;
    _ ← store o (sizeof_snmp_object + len); mret (o, len)
  else fail.

Definition snmp_object_decode : M () :=
  _ ← modify (λ s, s <| obj := None |>);
  '(eoc, cls, con, tag) ← asn1_header_decode;
  _ ← require (is_hdr cls con tag ASN1_UNI ASN1_CON ASN1_SEQ);
  '(end_, cls, con, tag) ← asn1_header_decode;
  _ ← require (is_hdr cls con tag ASN1_UNI ASN1_PRI ASN1_OJI);
  '(id, idlen) ← asn1_oid_decode end_;
  '(type, o, len) ← on_fail (kfree id) (
    '(end_, cls, con, tag) ← asn1_header_decode;
    _ ← require (con =? ASN1_PRI);
    type ← snmp_tag_cls2syntax tag cls;
    '(o, len) ← snmp_value_decode type end_;
    mret (type, o, len));
  _ ← modify (λ s, s <| obj := Some (mk_obj o id idlen type len) |>);
  on_fail (_ ← kfree id; _ ← kfree o; modify (λ s, s <| obj := None |>)) (asn1_eoc_decode eoc).

Definition snmp_request_decode : M () :=
  '(end_, cls, con, tag) ← asn1_header_decode;
  _ ← require (is_hdr cls con tag ASN1_UNI ASN1_PRI ASN1_INT);
  _ ← asn1_ulong_decode end_;
  '(end_, cls, con, tag) ← asn1_header_decode;
  _ ← require (is_hdr cls con tag ASN1_UNI ASN1_PRI ASN1_INT);
  _ ← asn1_uint_decode end_;
  '(end_, cls, con, tag) ← asn1_header_decode;
  _ ← require (is_hdr cls con tag ASN1_UNI ASN1_PRI ASN1_INT);
  _ ← asn1_uint_decode end_;
  mret ().

(** ** Changing an address *)

(** The checksum is the one of the header, whose first byte is the low one of the word. *)
Definition fast_csum (csum optr nptr : Z) (odd : bool) : Z :=
  let x := (csum mod 256) * 256 + csum / 256 in
  let x := Z.land (Z.lnot x) 65535 in
  let old := if odd then optr * 256 else optr in
  let x := x - Z.land old 65535 in
  let x := if x <=? 0 then Z.land (x - 1) 65535 else x in
  let new := if odd then nptr * 256 else nptr in
  let x := x + Z.land new 65535 in
  let x := if negb (Z.land x 65536 =? 0) then Z.land (x + 1) 65535 else x in
  let x := Z.land (Z.lnot x) 65535 in
  x / 256 + 256 * Z.land x 255.

Definition mangle_address (map : oct1_map) (addr : Z) : M () :=
  a ← load addr;
  if from map =? NOCT1 a then
    modify (λ s,
      let s := s <| msg := <[Z.to_nat (addr - begin_ s) := to map]> (msg s) |> in
      if negb (check s =? 0) then
        let odd := (addr - begin_ s) mod 2 =? 0 in
        s <| check := fast_csum (check s) (from map) (to map) odd |>
      else s)
  else mret ().

Definition mangle_last (map : oct1_map) : M () := λ s, mangle_address map (u32 (pointer s - 4)) s.

(** The blocks of the enterprise and of the agent's address. *)
Definition snmp_trap_decode (map : oct1_map) : M (positive * positive) :=
  '(end_, cls, con, tag) ← asn1_header_decode;
  _ ← require (is_hdr cls con tag ASN1_UNI ASN1_PRI ASN1_OJI);
  '(id, _) ← asn1_oid_decode end_;
  on_fail (kfree id) (
    '(end_, cls, con, tag) ← asn1_header_decode;
    _ ← require (is_hdr cls con tag ASN1_APL ASN1_PRI SNMP_IPA
                 || is_hdr cls con tag ASN1_UNI ASN1_PRI ASN1_OTS);
    '(ip_address, len) ← asn1_octets_decode end_;
    on_fail (kfree ip_address) (
      _ ← require (len =? 4);
      _ ← mangle_last map;
      '(end_, cls, con, tag) ← asn1_header_decode;
      _ ← require (is_hdr cls con tag ASN1_UNI ASN1_PRI ASN1_INT);
      _ ← asn1_uint_decode end_;
      '(end_, cls, con, tag) ← asn1_header_decode;
      _ ← require (is_hdr cls con tag ASN1_UNI ASN1_PRI ASN1_INT);
      _ ← asn1_uint_decode end_;
      '(end_, cls, con, tag) ← asn1_header_decode;
      _ ← require (is_hdr cls con tag ASN1_APL ASN1_PRI SNMP_TIT
                   || is_hdr cls con tag ASN1_UNI ASN1_PRI ASN1_INT);
      _ ← asn1_ulong_decode end_;
      mret (id, ip_address))).

(** ** A message *)

(** The object and its identifier are freed. *)
Definition free_object : M () := λ s,
  match obj s with
  | Some o => (_ ← kfree (o_id o); kfree (o_addr o)) s
  | None => Fault
  end.

Definition free_failed : M () := λ s,
  match obj s with Some _ => free_object s | None => Ret () s end.

Definition mangle_object (map : oct1_map) : M () := λ s,
  match obj s with
  | Some o => if o_type o =? SNMP_IPADDR then mangle_last map s else Ret () s
  | None => Fault
  end.

(** The loop over the objects; [o] is the block that [*obj] lies in. *)
Fixpoint snmp_objects (fuel : nat) (map : oct1_map) (eoc : Z) (o : positive) : M () :=
  match fuel with
  | O => λ s, NoFuel s
  | S fuel =>
      ended ← attempt (asn1_eoc_decode eoc);
      if (ended : bool) then mret ()
      else
        _ ← on_fail (_ ← free_failed; kfree o) snmp_object_decode;
        _ ← mangle_object map;
        _ ← free_object;
        snmp_objects fuel map eoc o
  end.

Definition snmp_parse_mangle (fuel : nat) (buf len : Z) (map : oct1_map) : M () :=
  _ ← asn1_open buf len;
  '(_, cls, con, tag) ← asn1_header_decode;
  _ ← require (is_hdr cls con tag ASN1_UNI ASN1_CON ASN1_SEQ);
  '(end_, cls, con, tag) ← asn1_header_decode;
  _ ← require (is_hdr cls con tag ASN1_UNI ASN1_PRI ASN1_INT);
  vers ← asn1_uint_decode end_;
  if 1 <? vers then mret ()
  else
    '(end_, cls, con, tag) ← asn1_header_decode;
    _ ← require (is_hdr cls con tag ASN1_UNI ASN1_PRI ASN1_OTS);
    '(comm, _) ← asn1_octets_decode end_;
    _ ← kfree comm;
    '(_, cls, con, pdutype) ← asn1_header_decode;
    _ ← require ((cls =? ASN1_CTX) && (con =? ASN1_CON));
    if negb (pdutype =? SNMP_PDU_RESPONSE) && negb (pdutype =? SNMP_PDU_TRAP1)
       && negb (pdutype =? SNMP_PDU_TRAP2) then mret ()
    else
      _ ← (if pdutype =? SNMP_PDU_TRAP1
           then '(id, ip_address) ← snmp_trap_decode map; _ ← kfree id; kfree ip_address
           else snmp_request_decode);
      '(eoc, cls, con, tag) ← asn1_header_decode;
      _ ← require (is_hdr cls con tag ASN1_UNI ASN1_CON ASN1_SEQ);
      o ← kmalloc sizeof_snmp_object;
      match o with
      | None => fail
      | Some o =>
          _ ← snmp_objects fuel map eoc o;
          _ ← kfree o;
          asn1_eoc_decode eoc
      end.

(** ** The helper *)

(** The blocks of the heap and the failures of the allocator before and after, the address
    of the payload. *)
Record snmp_env := mk_senv { e_heap : gmap positive Z; e_oom : list bool; e_addr : Z }.

(** SNAT of traps, DNAT of replies. *)
Definition snmp_map (ct : ip_conntrack) (dir : ip_conntrack_dir) : oct1_map :=
  match dir with
  | IP_CT_DIR_ORIGINAL => mk_map (NOCT1 (src_ip (tuple_orig ct))) (NOCT1 (dst_ip (tuple_reply ct)))
  | IP_CT_DIR_REPLY => mk_map (NOCT1 (src_ip (tuple_reply ct))) (NOCT1 (dst_ip (tuple_orig ct)))
  end.

(** [None] when the parser leaves its buffers or does not return. *)
Definition snmp_translate (fuel : nat) (ct : ip_conntrack) (ctinfo : Z) (skb : sk_buff)
    (env : snmp_env) : option (Z * sk_buff * snmp_env) :=
  let h := ihl (skb_iph skb) * 4 in
  let udplen := ntohs (uh_len (udphdr_at (data skb) h)) in
  let paylen := u16 (udplen - sizeof_udphdr) in
  let map := snmp_map ct (CTINFO2DIR ctinfo) in
  if from map =? to map then Some (NF_ACCEPT, skb, env)
  else
    let s := mk_snmp (drop (Z.to_nat (h + sizeof_udphdr)) (data skb)) (ld16 (data skb) (h + 6))
               0 0 0 0 None (e_heap env) (e_oom env) in
    let out s := (skb <| data := st16 (h + 6) (check s)
                                   (take (Z.to_nat (h + sizeof_udphdr)) (data skb) ++ msg s) |>,
                  mk_senv (heap s) (oom s) (e_addr env)) in
    match snmp_parse_mangle fuel (e_addr env) paylen map s with
    | Ret _ s => Some (NF_ACCEPT, (out s).1, (out s).2)
    | Fail s => Some (NF_DROP, (out s).1, (out s).2)
    | Stray _ | Fault | NoFuel _ => None
    end.

Definition snmp_help (fuel : nat) (ok : bool) (ct : ip_conntrack) (ctinfo : Z) (skb : sk_buff)
    (env : snmp_env) : option (Z * sk_buff * snmp_env) :=
  let h := ihl (skb_iph skb) * 4 in
  let udph := udphdr_at (data skb) h in
  let reply := match CTINFO2DIR ctinfo with IP_CT_DIR_REPLY => true | IP_CT_DIR_ORIGINAL => false end in
  if skb_len skb <? h + sizeof_udphdr then None
  else if (uh_source udph =? ntohs SNMP_PORT) && negb reply then Some (NF_ACCEPT, skb, env)
  else if (uh_dest udph =? ntohs SNMP_TRAP_PORT) && reply then Some (NF_ACCEPT, skb, env)
  else if negb (flag (status ct) IPS_NAT_MASK) then Some (NF_ACCEPT, skb, env)
  else if negb (ntohs (uh_len udph) =? skb_len skb - h) then Some (NF_DROP, skb, env)
  else if negb (skb_make_writable ok skb (skb_len skb)) then Some (NF_DROP, skb, env)
  else snmp_translate fuel ct ctinfo skb env.

Definition snmp_helper : ip_conntrack_helper := mk_helper [115; 110; 109; 112] 0 180
  (mk_tuple 0 (htons SNMP_PORT) 0 0 IPPROTO_UDP IP_CT_DIR_ORIGINAL)
  (mk_tuple 0 65535 0 0 255 IP_CT_DIR_ORIGINAL).

Definition snmp_trap_helper : ip_conntrack_helper :=
  mk_helper [115; 110; 109; 112; 95; 116; 114; 97; 112] 0 180
    (mk_tuple 0 (htons SNMP_TRAP_PORT) 0 0 IPPROTO_UDP IP_CT_DIR_ORIGINAL)
    (mk_tuple 0 65535 0 0 255 IP_CT_DIR_ORIGINAL).
