(* ===== verification/SnmpFacts.v ===== *)
(** * The SNMP helper: what holds for every message

    Whatever octets arrive, the parser of [Snmp] uses the heap rightly on every path, the
    error exits included, changes nothing but octets that equal the one to be replaced, and
    keeps the checksum in step.  The calculus [wp] of outcomes is shared with [SnmpSpec]. *)
From S2P Require Import Prelude Packet CtProtos Csum Snmp.

(** ** Outcomes

    [wp F L m Q R s]: from [s], [m] returns with [Q] or fails with [R]; [F] says whether
    faults are allowed, [L] in which states it may leave the message or miss fuel. *)
Definition wp (F : Prop) (L : snmp → Prop) {A} (m : M A) (Q : A → snmp → Prop) (R : snmp → Prop) (s : snmp) : Prop :=
  match m s with
  | Ret a s => Q a s
  | Fail s => R s
  | Stray s | NoFuel s => L s
  | Fault => F
  end.

Section Calculus.
Context (F : Prop) (L : snmp → Prop).

Lemma wp_mono {A} (m : M A) (Q Q' : A → snmp → Prop) (R R' : snmp → Prop) s :
  wp F L m Q R s → (∀ a s, Q a s → Q' a s) → (∀ s, R s → R' s) → wp F L m Q' R' s.
Proof. unfold wp. destruct (m s); naive_solver. Qed.

Lemma wp_bind {A B} (m : M A) (k : A → M B) Q R s :
  wp F L m (λ a, wp F L (k a) Q R) R s → wp F L (m ≫= k) Q R s.
Proof. unfold wp, mbind, snmp_bind. by destruct (m s). Qed.

(** The rule for a call with a known specification. *)
Lemma wp_seq {A B} (m : M A) (k : A → M B) (Q' : A → snmp → Prop) (R' : snmp → Prop) Q R s :
  wp F L m Q' R' s → (∀ a s, Q' a s → wp F L (k a) Q R s) → (∀ s, R' s → R s) →
  wp F L (m ≫= k) Q R s.
Proof. intros Hm Hk HR. apply wp_bind. by eapply wp_mono. Qed.

Lemma wp_ret {A} (a : A) (Q : A → snmp → Prop) R s : Q a s → wp F L (mret a) Q R s.
Proof. done. Qed.

Lemma wp_require b (Q : () → snmp → Prop) (R : snmp → Prop) s :
  (b = true → Q () s) → (b = false → R s) → wp F L (require b) Q R s.
Proof. destruct b; unfold wp; cbn; auto. Qed.

Lemma wp_on_fail {A} (c : M ()) (m : M A) Q (R' R : snmp → Prop) s :
  wp F L m Q R' s → (∀ s, R' s → wp F L c (λ _, R) R s) → wp F L (on_fail c m) Q R s.
Proof.
  unfold wp, on_fail. destruct (m s) as [a s'|s'| | |]; auto. intros H Hc. specialize (Hc s' H).
  unfold mbind, snmp_bind. by destruct (c s').
Qed.

Lemma wp_attempt (m : M ()) (Q : bool → snmp → Prop) R s :
  wp F L m (λ _, Q true) (Q false) s → wp F L (attempt m) Q R s.
Proof. unfold wp, attempt. by destruct (m s). Qed.

End Calculus.

(** Splits a sequence of calls whose first one has the specification [H]. *)
Ltac wp_call H := eapply wp_seq; [eapply H|intros|intros]; cbn beta in *.

(** ** The checksum *)

(** The weight of a byte at an even (odd) offset in a sum of little-endian words. *)
Definition weight (even : bool) : Z := if even then 1 else 256.

Lemma land_u16 x : Z.land x 65535 = x mod 65536.
Proof. change 65535 with (Z.ones 16). by rewrite Z.land_ones. Qed.

Lemma carry_u16 x : 0 <= x < 131072 → (Z.land x 65536 =? 0) = (x <? 65536).
Proof.
  intros H. pose proof (flag_testbit x 16 ltac:(lia)) as E. unfold flag in E. change (2 ^ 16) with 65536 in E.
  rewrite <- (negb_involutive (Z.land x 65536 =? 0)), E.
  pose proof (Z.testbit_spec' x 16 ltac:(lia)) as T. change (2 ^ 16) with 65536 in T.
  destruct (Z.testbit x 16), (Z.ltb_spec x 65536); cbn in *; lia.
Qed.

(** One step of the update on numbers in network byte order. *)
Definition ones_step (x old new : Z) : Z :=
  let x := x - old in
  let x := if x <=? 0 then (x - 1) mod 65536 else x in
  let x := x + new in
  if 65536 <=? x then (x + 1) mod 65536 else x.

Lemma ones_step_spec x old new : is_u16 x → 0 <= old <= 65280 → 0 <= new <= 65280 →
  is_u16 (ones_step x old new) ∧ ones_step x old new ≡₁ x - old + new.
Proof.
  unfold ones_step, is_u16, oeq. intros Hx Ho Hn.
  destruct (Z.leb_spec (x - old) 0); [|destruct (Z.leb_spec 65536 (x - old + new)); lia].
  assert ((x - old - 1) mod 65536 = x - old + 65535) as -> by lia.
  destruct (Z.leb_spec 65536 (x - old + 65535 + new)); lia.
Qed.

Lemma fast_csum_spec c o n even : is_u16 c → is_u8 o → is_u8 n →
  is_u16 (fast_csum c o n even) ∧ fast_csum c o n even ≡₁ c + weight even * (o - n).
Proof.
  intros Hc Ho Hn. unfold is_u16, is_u8 in *.
  set (w := if even then 256 else 1). set (x := c mod 256 * 256 + c / 256).
  assert (∀ y, 0 <= y <= 65535 → Z.land (Z.lnot y) 65535 = 65535 - y) as Hnot.
  { intros y Hy. rewrite land_u16. unfold Z.lnot. lia. }
  assert (0 <= w * o <= 65280 ∧ 0 <= w * n <= 65280) as [Hwo Hwn] by (unfold w; destruct even; lia).
  pose proof (ones_step_spec (65535 - x) (w * o) (w * n)) as Hs. unfold is_u16 in Hs.
  destruct Hs as [Hr Hs]; [unfold x; lia|done|done|].
  assert (fast_csum c o n even = let y := 65535 - ones_step (65535 - x) (w * o) (w * n) in y / 256 + 256 * (y mod 256)) as ->.
  { unfold fast_csum. fold x. rewrite (Hnot x) by (unfold x; lia).
    assert ((if even then o * 256 else o) = w * o) as -> by (unfold w; destruct even; lia).
    assert ((if even then n * 256 else n) = w * n) as -> by (unfold w; destruct even; lia).
    change (Z.land ?a 255) with (Z.land a (Z.ones 8)). rewrite Z.land_ones by done. change (2 ^ 8) with 256.
    rewrite !land_u16. rewrite !(Z.mod_small (w * _)) by lia.
    assert (∀ a, 0 <= a < 131072 → (if negb (Z.land a 65536 =? 0) then (a + 1) mod 65536 else a)
                   = if 65536 <=? a then (a + 1) mod 65536 else a) as Hcarry.
    { intros a Ha. rewrite carry_u16, Z.leb_antisym by done. done. }
    rewrite Hcarry by (destruct (Z.leb_spec (65535 - x - w * o) 0); unfold x; lia).
    pose proof (Hnot (ones_step (65535 - x) (w * o) (w * n)) ltac:(lia)) as Hl. rewrite land_u16 in Hl.
    unfold ones_step in Hl |- *. cbv zeta in Hl |- *. by rewrite Hl. }
  set (r := ones_step _ _ _) in *. clearbody r. cbv zeta. unfold is_u16. split; [clear - Hr; lia|].
  unfold oeq, weight, w, x in *. clear - Hr Hs Hc Ho Hn. destruct even; lia.
Qed.

Lemma NOCT1_id a : is_u8 a → NOCT1 a = a.
Proof. intros H. unfold NOCT1. change 255 with (Z.ones 8). rewrite Z.land_ones by done. apply Z.mod_small. word_lia. Qed.

(** ** The sizes of blocks *)
Lemma general_cachep n c : find_general_cachep n = Some c → 32 <= c ∧ n <= c.
Proof.
  unfold find_general_cachep. intros E. apply fmap_Some in E as ([i x] & E & ->).
  apply list_find_Some in E as (Hi & Hx & _). split; [|done]. apply list_elem_of_lookup_2 in Hi. cbn [snd].
  repeat (apply elem_of_cons in Hi as [->|Hi]; [lia|]). by apply elem_of_nil in Hi.
Qed.

Lemma general_cachep_none n : find_general_cachep n = None → 131072 < n.
Proof.
  unfold find_general_cachep. intros E%fmap_None. apply list_find_None in E.
  rewrite Forall_forall in E. specialize (E 131072 ltac:(set_solver)). lia.
Qed.

(** ** The invariant of a run

    [m0] and [c0] are the message and the checksum at the start, [b] the address of the
    message, which lies in the kernel's part of the address space, [h0] the blocks of others.
    The parser owns the blocks [h].  [strict] is for runs in which no allocation fails:
    further blocks are then leaks.  [ob] is what [*obj] points to. *)
Section Books.
Context (m0 : list Z) (c0 b : Z) (map : oct1_map) (h0 : gmap positive Z) (strict : Prop) (ob : option snmp_object).
Context (Hb : 3221225472 < b) (Hlen : b + Z.of_nat (length m0) < 4294967296)
  (Hm0 : Z.of_nat (length m0) < 65536) (Hsmall : strict → Z.of_nat (length m0) <= 32000)
  (Hfrom : is_u8 (from map)) (Hto : is_u8 (to map)).

Local Abbreviation e := (b + Z.of_nat (length m0)).

(** Some octets that equal the one to be replaced have been replaced. *)
Definition replaced (m : list Z) : Prop := Forall2 (λ x y, y = x ∨ x = from map ∧ y = to map) m0 m.

(** What has become of the message and its checksum; a checksum is lost where the right one
    was 0 at some time. *)
Record mangled (m : list Z) (c : Z) : Prop := {
  mg_octets : replaced m;
  mg_bytes : Forall is_u8 m;
  mg_check : is_u16 c;
  mg_none : c0 = 0 → c = 0;
  mg_lost : c = 0 → c0 = 0 ∨ ∃ m', replaced m' ∧ wsum true m' ≡₁ c0 + wsum true m0;
  mg_sum : c = 0 ∨ c + wsum true m ≡₁ c0 + wsum true m0 }.

Record own (h : gmap positive Z) (s : snmp) : Prop := {
  ow_begin : begin_ s = b;
  ow_end : end_ s = e;
  ow_obj : obj s = ob;
  ow_msg : mangled (msg s) (check s);
  ow_oom : strict → oom s = [];
  ow_others : h0 ##ₘ h;
  ow_heap : h0 ∪ h ⊆ heap s;
  ow_strict : strict → heap s = h0 ∪ h }.

(** What holds at a stray access and in the middle of a loop. *)
Definition reached (s : snmp) : Prop := mangled (msg s) (check s) ∧ h0 ⊆ heap s.

Lemma own_reached h s : own h s → reached s.
Proof. intros H. split; [apply H|]. etrans; [apply map_union_subseteq_l|apply H]. Qed.

Local Abbreviation wpa := (wp False reached).

(** [m] keeps the books, whichever way it ends. *)
Definition keeps {A} (m : M A) : Prop := ∀ h s, own h s → wpa m (λ _, own h) (own h) s.

Lemma own_length h s : own h s → Z.of_nat (length (msg s)) = Z.of_nat (length m0).
Proof. intros H. f_equal. symmetry. eapply Forall2_length, mg_octets, H. Qed.

Lemma own_pointer h s v : own h s → own h (s <| pointer := v |>).
Proof. by intros []. Qed.
Lemma own_error h s v : own h s → own h (s <| error := v |>).
Proof. by intros []. Qed.

Lemma keeps_bind {A B} (m : M A) (k : A → M B) : keeps m → (∀ a, keeps (k a)) → keeps (m ≫= k).
Proof. intros Hm Hk h s H. eapply wp_seq; [by apply Hm|intros a t Ht; by apply Hk|done]. Qed.
Lemma keeps_ret {A} (a : A) : keeps (mret a).
Proof. by intros h s H. Qed.
Lemma keeps_fail {A} : keeps (fail (A:=A)).
Proof. by intros h s H. Qed.
Lemma keeps_if {A} (c : bool) (m m' : M A) : keeps m → keeps m' → keeps (if c then m else m').
Proof. by destruct c. Qed.
Lemma keeps_require c : keeps (require c).
Proof. apply keeps_if; [apply keeps_ret|apply keeps_fail]. Qed.
Lemma keeps_error {A} x : keeps (with_error (A:=A) x).
Proof. intros h s H. apply own_error, H. Qed.
Lemma keeps_fuel {A} (m : nat → M A) : (∀ n, keeps (m n)) → keeps (octets_fuel m).
Proof. intros Hm h s H. by apply Hm. Qed.

(** *** Memory *)
Definition got (h : gmap positive Z) (n : Z) (r : option positive) (s : snmp) : Prop :=
  match r with
  | None => own h s ∧ (strict → 131072 < n)
  | Some p => h !! p = None ∧ ∃ c, 32 <= c ∧ n <= c ∧ own (<[p := c]> h) s
  end.

Lemma kmalloc_wp h n s : own h s →
  wpa (kmalloc n) (λ r t, pointer t = pointer s ∧ got h n r t) (own h) s.
Proof.
  intros H. unfold wp, kmalloc. destruct (find_general_cachep n) as [c|] eqn:E.
  - apply general_cachep in E as [? ?]. destruct (hd false (oom s)) eqn:Eo; (split; [done|]); cbn [got].
    + assert (¬ strict) as Hn by (intros Hs; by rewrite (ow_oom _ _ H Hs) in Eo).
      split; [destruct H; by split|done].
    + set (p := fresh _). assert (heap s !! p = None) as Hp by apply not_elem_of_dom, is_fresh.
      pose proof (lookup_weaken_None _ _ _ Hp (ow_heap _ _ H)) as [Hp0 Hph]%lookup_union_None.
      split; [done|]. exists c. split_and!; [done..|].
      destruct H as [? ? ? ? Ho ? Hh Hs]. split; cbn; [done..| | | |].
      * intros S. by rewrite (Ho S).
      * by apply map_disjoint_insert_r_2.
      * rewrite <- insert_union_r by done. by apply insert_mono.
      * intros S. by rewrite (Hs S), insert_union_r.
  - do 2 (split; [done|]). intros _. by apply general_cachep_none.
Qed.

Lemma own_lookup h p c s : own h s → h !! p = Some c → heap s !! p = Some c.
Proof. intros H Hp. eapply lookup_weaken; [|apply H]. rewrite lookup_union_r; [done|]. by eapply map_disjoint_Some_r; [apply H|]. Qed.

Lemma kfree_wp h p R s : is_Some (h !! p) → own h s → wpa (kfree p) (λ _, own (delete p h)) R s.
Proof.
  intros [c Hp] H. unfold wp, kfree. rewrite (own_lookup _ _ _ _ H Hp).
  assert (h0 ∪ delete p h = delete p (h0 ∪ h)) as E.
  { rewrite delete_union, (delete_id h0); [done|]. by eapply map_disjoint_Some_r; [apply H|]. }
  destruct H as [? ? ? ? Ho ? Hh Hs]. split; cbn; [done..| | |].
  - by apply map_disjoint_delete_r.
  - rewrite E. by apply delete_mono.
  - intros S. by rewrite (Hs S), E.
Qed.

Lemma store_wp h p c n (Q : () → snmp → Prop) R s :
  h !! p = Some c → n <= c → own h s → Q () s → wpa (store p n) Q R s.
Proof.
  intros Hp Hn H HQ. unfold wp, store. rewrite (own_lookup _ _ _ _ H Hp).
  by rewrite (proj2 (Z.leb_le _ _) Hn).
Qed.

(** The block that is freed is the last one taken. *)
Lemma kfree_last h p c R s : h !! p = None → own (<[p := c]> h) s → wpa (kfree p) (λ _, own h) R s.
Proof.
  intros Hp H. eapply wp_mono; [apply (kfree_wp (<[p := c]> h) p R)| |exact (λ _ Hr, Hr)]; [|exact H|].
  - by rewrite lookup_insert_eq.
  - intros a t. cbn beta. by rewrite delete_insert_id.
Qed.

(** *** The decoder *)
Lemma octet_wp h s : own h s →
  wpa asn1_octet_decode (λ ch t, own h t ∧ is_u8 ch ∧ b <= pointer s < e ∧ pointer t = pointer s + 1) (own h) s.
Proof.
  intros H. unfold wp, asn1_octet_decode, load. destruct (Z.leb_spec (end_ s) (pointer s)) as [|Hp].
  { by apply own_error. }
  unfold mbind, snmp_bind at 1. destruct (Z.ltb_spec (pointer s) (begin_ s)) as [|Hq]; [by eapply own_reached|].
  destruct (msg s !! Z.to_nat (pointer s - begin_ s)) as [ch|] eqn:E; [|by eapply own_reached].
  cbn. rewrite (ow_begin _ _ H), (ow_end _ _ H) in *. split_and!; [by apply own_pointer| | | |word_lia].
  - eapply Forall_lookup_1; [apply (mg_bytes _ _ (ow_msg _ _ H))|exact E].
  - done.
  - done.
Qed.

Lemma keeps_octet : keeps asn1_octet_decode.
Proof. intros h s H. eapply wp_mono; [by apply octet_wp|by intros ? ? []|done]. Qed.

(** [keep] proves [keeps] along the structure of a program. *)
Ltac keep := repeat first
  [ apply keeps_bind; [|intros ?] | apply keeps_ret | apply keeps_fail | apply keeps_octet
  | apply keeps_if | apply keeps_require | apply keeps_error | apply keeps_fuel; intros ?
  | case_match; subst | solve [eauto] ].

Lemma keeps_tag_loop fuel : ∀ tag, keeps (asn1_tag_loop fuel tag).
Proof. induction fuel; intros; cbn [asn1_tag_loop]; [by intros h s H; eapply own_reached|keep]. Qed.
Lemma keeps_length_loop cnt : ∀ len, keeps (asn1_length_loop cnt len).
Proof. induction cnt; intros; cbn [asn1_length_loop]; keep. Qed.
Lemma keeps_id : keeps asn1_id_decode.
Proof. unfold asn1_id_decode, asn1_tag_decode. pose proof keeps_tag_loop. keep. Qed.
Lemma keeps_length : keeps asn1_length_decode.
Proof. unfold asn1_length_decode. pose proof keeps_length_loop. keep. Qed.

Lemma header_wp h s : own h s →
  wpa asn1_header_decode (λ r t, own h t ∧ is_u32 r.1.1.1) (own h) s.
Proof.
  intros H. unfold asn1_header_decode. wp_call keeps_id; [exact H| |done]. destruct a as [[cls con] tag].
  wp_call keeps_length; [done| |done]. apply wp_bind. unfold gets, wp. cbn. split; [done|].
  destruct a; word_lia.
Qed.

Lemma keeps_eoc eoc : keeps (asn1_eoc_decode eoc).
Proof.
  assert (keeps asn1_eoc_octet) as Ho by (unfold asn1_eoc_octet; keep).
  apply keeps_if; [by keep|]. intros h s H. unfold wp. destruct (negb _); [by apply own_error|done].
Qed.

Lemma keeps_int_loop fuel : ∀ eoc len x, keeps (asn1_int_loop fuel eoc len x).
Proof.
  induction fuel; intros eoc len x h s H; cbn [asn1_int_loop]; [by eapply own_reached|]. unfold wp.
  destruct (pointer s <? eoc); [|done]. destruct (4 <? len + 1); [by apply own_error|].
  fold (wpa (ch ← asn1_octet_decode; asn1_int_loop fuel eoc (len + 1) (add_octet x ch)) (λ _, own h) (own h) s).
  revert s H. apply (keeps_bind _ _ keeps_octet). intros ch. apply IHfuel.
Qed.
Lemma keeps_long eoc : keeps (asn1_long_decode eoc).
Proof. unfold asn1_long_decode. pose proof keeps_int_loop. keep. Qed.
Lemma keeps_ulong eoc : keeps (asn1_ulong_decode eoc).
Proof. unfold asn1_ulong_decode. pose proof keeps_int_loop. keep. Qed.
Lemma keeps_uint eoc : keeps (asn1_uint_decode eoc).
Proof. apply keeps_ulong. Qed.

(** A block that was taken, and a count of what has been put into it. *)
Definition holding (h : gmap positive Z) (n : Z) (r : positive * Z) (s : snmp) : Prop :=
  h !! r.1 = None ∧ (∃ c, own (<[r.1 := c]> h) s) ∧ 0 <= r.2 <= n.

Lemma octets_loop_wp fuel : ∀ h p c x0 eoc len s,
  h !! p = None → own (<[p := c]> h) s → is_u32 eoc → u32 (eoc - x0) <= c →
  0 <= len → pointer s = x0 + len → (0 < len → b <= x0 ∧ pointer s <= e) →
  wpa (asn1_octets_loop fuel eoc p len)
    (λ n t, own (<[p := c]> h) t ∧ 0 <= n <= Z.of_nat (length m0)) (own h) s.
Proof.
  induction fuel as [|fuel IH]; intros h p c x0 eoc len s Hp H He Hc Hn Hx Hpos; [by eapply own_reached|].
  unfold wp. cbn [asn1_octets_loop]. destruct (Z.ltb_spec (pointer s) eoc) as [Hlt|]; [|split; [done|]; lia].
  eapply (wp_seq False reached _ _
    (λ _ t, own (<[p := c]> h) t ∧ b <= pointer s < e ∧ pointer t = pointer s + 1) (own h)); [| |done].
  - eapply wp_on_fail; [wp_call octet_wp; [exact H| |by apply H0]|intros t Ht; cbn beta in Ht; by eapply kfree_last].
    destruct H0 as (Ht & _ & Hin & Hpt).
    eapply store_wp; [apply lookup_insert_eq| |exact Ht|done].
    assert (u32 (eoc - x0) = eoc - x0) as Eu by word_lia. lia.
  - intros _ t (Ht & Hin & Hpt). eapply IH; try done; lia.
Qed.

Lemma octets_wp h eoc s : own h s → is_u32 eoc →
  wpa (asn1_octets_decode eoc) (holding h (Z.of_nat (length m0))) (own h) s.
Proof.
  intros H He. unfold wp, asn1_octets_decode. eapply (wp_seq False reached).
  - apply (kmalloc_wp h). exact H.
  - intros [p|] t [Hpt Ht]; [|by destruct Ht]. destruct Ht as (Hp & c & _ & Hc & Ht).
    eapply wp_seq; [unfold octets_fuel, wp; eapply (octets_loop_wp _ h p c (pointer s)); [done..| | |]; lia| |done].
    intros n u [Hu Hn]. split_and!; [done|by exists c|cbn; lia|cbn; lia].
  - done.
Qed.

(** Where a sub-identifier was read, the pointer is still in the message. *)
Lemma subid_loop_wp fuel : ∀ h x s, own h s →
  wpa (asn1_subid_loop fuel x) (λ _ t, own h t ∧ b <= pointer s ∧ pointer s + 1 <= pointer t <= e) (own h) s.
Proof.
  induction fuel as [|fuel IH]; intros h x s H; [by eapply own_reached|]. cbn [asn1_subid_loop].
  eapply wp_seq; [by apply octet_wp| |done]. intros ch t (Ht & _ & Hin & Hpt).
  destruct (Z.land ch 128 =? 128); [|cbn; split; [done|]; lia].
  eapply wp_mono; [by apply IH| |done]. intros y u (Hu & ? & ?). split; [done|]. lia.
Qed.

Lemma oid_loop_wp fuel : ∀ h p c x0 eoc len s, let size := u32 (u32 (eoc - x0) + 1) in
  h !! p = None → own (<[p := c]> h) s → is_u32 eoc → u32 (size * sizeof_long) <= c →
  b <= x0 < pointer s → 2 <= len → b + (len - 1) <= pointer s <= e →
  wpa (asn1_oid_loop fuel eoc size p len)
    (λ n t, own (<[p := c]> h) t ∧ 0 <= n <= Z.of_nat (length m0) + 1) (own h) s.
Proof.
  induction fuel as [|fuel IH]; intros h p c x0 eoc len s size Hp H He Hc Hx Hn Hpos; [by eapply own_reached|].
  unfold wp. cbn [asn1_oid_loop]. destruct (Z.ltb_spec (pointer s) eoc) as [Hlt|]; [|split; [done|]; lia].
  assert (u32 (len + 1) = len + 1) as -> by word_lia.
  assert (size = eoc - x0 + 1) as Esize by (unfold size; word_lia).
  destruct (Z.ltb_spec size (len + 1)) as [|Hs].
  { apply (wp_on_fail False reached _ _ _ (own (<[p := c]> h))); [by apply own_error|]. intros t Ht. by eapply kfree_last. }
  eapply (wp_seq False reached _ _ (λ _ t, t = s) (λ _, False)); [|intros a t ->|done].
  { eapply store_wp; [apply lookup_insert_eq| |exact H|done]. unfold sizeof_long in *. word_lia. }
  eapply wp_seq; [eapply wp_on_fail; [unfold asn1_subid_decode, octets_fuel, wp; by apply subid_loop_wp|]| |].
  - intros t Ht. by eapply (kfree_last h p c (own h)).
  - intros y t (Ht & Hin & Hpt). eapply IH; try done; lia.
  - done.
Qed.

Lemma oid_wp h eoc s : own h s → is_u32 eoc →
  wpa (asn1_oid_decode eoc) (holding h (Z.of_nat (length m0) + 1)) (own h) s.
Proof.
  intros H He. unfold wp, asn1_oid_decode. eapply (wp_seq False reached).
  - apply (kmalloc_wp h). exact H.
  - intros [p|] t [Hpt Ht]; [|by destruct Ht]. destruct Ht as (Hp & c & H32 & Hc & Ht).
    eapply wp_seq; [eapply wp_on_fail; [unfold asn1_subid_decode, octets_fuel, wp; by apply subid_loop_wp|]| |].
    + intros u Hu. by eapply (kfree_last h p c (own h)).
    + intros y u (Hu & Hin & Hpu). cbn beta.
      eapply (wp_seq False reached _ _ (λ _ t, t = u) (λ _, False)); [|intros a v ->|done].
      { eapply store_wp; [apply lookup_insert_eq| |exact Hu|done]. unfold sizeof_long. lia. }
      eapply wp_seq; [unfold octets_fuel, wp; eapply (oid_loop_wp _ h p c (pointer s)); try done; lia| |done].
      intros n v [Hv Hn]. split_and!; [done|by exists c|cbn; lia|cbn; lia].
    + done.
  - done.
Qed.

(** *** Objects *)

Lemma keeps_seq {A B} (m : M A) (k : A → M B) h Q R s : keeps m → own h s →
  (∀ a t, own h t → wpa (k a) Q R t) → (∀ t, own h t → R t) → wpa (m ≫= k) Q R s.
Proof. intros Hm H Hk HR. eapply wp_seq; [by apply Hm|done|done]. Qed.

Lemma header_seq {B} (k : Z * Z * Z * Z → M B) h Q R s : own h s →
  (∀ eoc cls con tag t, own h t → is_u32 eoc → wpa (k (eoc, cls, con, tag)) Q R t) →
  (∀ t, own h t → R t) → wpa (asn1_header_decode ≫= k) Q R s.
Proof.
  intros H Hk HR. eapply wp_seq; [by apply header_wp| |done]. intros [[[eoc cls] con] tag] t [Ht He]. by apply Hk.
Qed.

Definition taken (h : gmap positive Z) (p : positive) (s : snmp) : Prop :=
  h !! p = None ∧ ∃ c, own (<[p := c]> h) s.

(** The block is lost when the run is not strict. *)
Lemma own_leak h p s : taken h p s → ¬ strict → own h s.
Proof.
  intros (Hp & c & [? ? ? ? ? Hd Hh _]) Hn. apply map_disjoint_insert_r in Hd as [Hp0 Hd]. split; try done.
  etrans; [|exact Hh]. rewrite <- insert_union_r by done. by apply insert_subseteq, lookup_union_None.
Qed.

Lemma free_taken h p R s : taken h p s → (∀ t, own h t → R t) → wpa (kfree p) (λ _, R) R s.
Proof.
  intros (Hp & c & H) HR. eapply wp_mono; [by apply (kfree_last h p c (λ _, False))| |done].
  intros a t Ht. by apply HR.
Qed.

Lemma free_under h p o c c' (Q : () → snmp → Prop) R s : h !! p = None → o ≠ p →
  own (<[o := c']> (<[p := c]> h)) s → (∀ t, own (<[o := c']> h) t → Q () t) → wpa (kfree p) Q R s.
Proof.
  intros Hp Hne H HQ. eapply wp_mono; [eapply (kfree_wp _ p (λ _, False)); [|exact H]| |done].
  - rewrite lookup_insert_ne by done. by rewrite lookup_insert_eq.
  - intros [] t. cbn beta. rewrite delete_insert_ne, delete_insert_id by done. apply HQ.
Qed.

Lemma new_object_wp h len s : own h s → 0 <= len < 1000000 →
  wpa (new_object len) (λ o t, h !! o = None ∧ ∃ c, 16 + len <= c ∧ own (<[o := c]> h) t)
    (λ t, own h t ∧ (strict → 131056 < len)) s.
Proof.
  intros H Hl. unfold new_object. assert (u32 (sizeof_snmp_object + len) = 16 + len) as -> by (unfold sizeof_snmp_object; word_lia).
  eapply (wp_seq False reached _ _ (λ r t, got h (16 + len) r t) (λ _, False)); [| |done].
  - pose proof (kmalloc_wp h (16 + len) s H) as K. unfold wp in *. unfold kmalloc in *. cbv zeta in *.
    destruct (find_general_cachep _); [destruct (hd false (oom s))|]; by destruct K.
  - intros [o|] t Ht; [destruct Ht as (Ho & c & _ & Hc & Ht); split; [done|by exists c]|].
    destruct Ht as [Ht Hs]. split; [done|]. intros S. specialize (Hs S). lia.
Qed.

Lemma plain_wp h len s : own h s → 0 <= len < 32 →
  wpa (o ← new_object len; _ ← store o (sizeof_snmp_object + len); mret (o, len))
    (λ r, taken h r.1) (own h) s.
Proof.
  intros H Hl. eapply wp_seq; [apply (new_object_wp h); [done|lia]| |by intros t []].
  intros o t (Ho & c & Hc & Ht). apply wp_bind. eapply store_wp; [apply lookup_insert_eq|exact Hc|exact Ht|].
  split; [done|by exists c].
Qed.

(** The object is filled from the block [p], which is given back. *)
Lemma copy_wp h p c len s : h !! p = None → own (<[p := c]> h) s → 0 <= len < 1000000 →
  wpa (o ← new_object len; _ ← store o (sizeof_snmp_object + len); _ ← kfree p; mret (o, len))
    (λ r, taken h r.1) (λ t, own (<[p := c]> h) t ∧ (strict → 131056 < len)) s.
Proof.
  intros Hp H Hl. eapply wp_seq; [by apply (new_object_wp (<[p := c]> h))| |done].
  intros o t (Ho & c' & Hc & Ht). apply lookup_insert_None in Ho as [Ho Hne].
  apply wp_bind. eapply store_wp; [apply lookup_insert_eq|exact Hc|exact Ht|].
  apply wp_bind. eapply free_under; [exact Hp|done|exact Ht|]. intros u Hu. split; [done|by exists c'].
Qed.

Lemma null_wp eoc : keeps (asn1_null_decode eoc).
Proof. intros h s H. by apply own_pointer. Qed.

Lemma value_wp h type eoc s : own h s → is_u32 eoc →
  wpa (snmp_value_decode type eoc) (λ r, taken h r.1) (own h) s.
Proof.
  intros H He. unfold snmp_value_decode. case_bool; [| | | | | |done].
  - eapply keeps_seq; [apply keeps_long|done| |done]. intros _ t Ht. by apply plain_wp.
  - eapply wp_seq; [by apply octets_wp| |done]. intros [p len] t (Hp & (c & Ht) & Hl). cbn [fst snd] in *.
    eapply wp_mono; [apply (copy_wp h p c); [done|done|lia]|done|]. intros u [Hu Hs].
    apply (own_leak h p); [split; [done|by exists c]|]. intros S. specialize (Hs S). specialize (Hsmall S). lia.
  - eapply wp_seq; [apply (new_object_wp h); [done|lia]| |by intros t []].
    intros o t (Ho & c & _ & Ht). eapply wp_seq; [eapply wp_on_fail; [apply null_wp; exact Ht|]| |exact (λ _ x, x)].
    + intros u Hu. by apply (free_taken h o (own h)); [split; [done|by exists c]|].
    + intros a u Hu. split; [done|by exists c].
  - eapply wp_seq; [by apply oid_wp| |done]. intros [p len] t (Hp & (c & Ht) & Hl). cbn [fst snd] in *.
    assert (u32 (len * sizeof_long) = len * 4) as -> by (unfold sizeof_long; word_lia).
    eapply wp_mono; [apply (copy_wp h p c); [done|done|lia]|done|]. intros u [Hu Hs].
    apply (own_leak h p); [split; [done|by exists c]|]. intros S. specialize (Hs S). specialize (Hsmall S). lia.
  - eapply wp_seq; [by apply octets_wp| |done]. intros [p len] t (Hp & (c & Ht) & Hl). cbn [fst snd] in *.
    eapply wp_seq; [eapply (wp_on_fail _ _ _ _ _ (own (<[p := c]> h)))| |exact (λ _ x, x)].
    + eapply keeps_seq; [apply keeps_require|exact Ht| |done]. intros _ u Hu.
      eapply wp_mono; [apply (new_object_wp (<[p := c]> h)); [done|lia]|exact (λ _ _ x, x)|by intros ? []].
    + intros u Hu. by apply (free_taken h p (own h)); [split; [done|by exists c]|].
    + intros o u (Ho & c' & Hc & Hu). apply lookup_insert_None in Ho as [Ho Hne].
      apply wp_bind. eapply store_wp; [apply lookup_insert_eq|exact Hc|exact Hu|].
      apply wp_bind. eapply free_under; [exact Hp|done|exact Hu|]. intros v Hv. split; [done|by exists c'].
  - eapply keeps_seq; [apply keeps_ulong|done| |done]. intros _ t Ht. by apply plain_wp.
Qed.

Lemma keeps_load addr : keeps (load addr).
Proof. intros h s H. unfold wp, load. destruct (_ <? _); [by eapply own_reached|]. destruct (_ !! _); [done|by eapply own_reached]. Qed.

Lemma even_mod n : Nat.even n = (Z.of_nat n mod 2 =? 0).
Proof.
  destruct (Nat.Even_or_Odd n) as [H|H].
  - rewrite (proj2 (Nat.even_spec n) H). destruct H as [k ->]. symmetry. apply Z.eqb_eq. lia.
  - rewrite <- Nat.negb_odd, (proj2 (Nat.odd_spec n) H). destruct H as [k ->]. symmetry. apply Z.eqb_neq. lia.
Qed.

Lemma mangle_step m c n : mangled m c → m !! n = Some (from map) →
  mangled (<[n := to map]> m)
    (if negb (c =? 0) then fast_csum c (from map) (to map) (Z.of_nat n mod 2 =? 0) else c).
Proof.
  intros [Ho Hy Hc Hn Hlost Hs] Hx.
  destruct (fast_csum_spec c (from map) (to map) (Z.of_nat n mod 2 =? 0)) as [Hr Hf]; [done..|].
  assert (replaced (<[n := to map]> m)) as Ho'.
  { apply Forall2_lookup. intros i. unfold replaced in Ho. rewrite Forall2_lookup in Ho. specialize (Ho i).
    destruct (decide (i = n)) as [->|].
    + rewrite list_lookup_insert_eq by (by apply lookup_lt_Some in Hx). rewrite Hx in Ho.
      inversion Ho as [x y Hxy E|]; subst. constructor. right. by destruct Hxy as [<-|[-> _]].
    + by rewrite list_lookup_insert_ne. }
  assert (c ≠ 0 → fast_csum c (from map) (to map) (Z.of_nat n mod 2 =? 0) + wsum true (<[n := to map]> m)
            ≡₁ c0 + wsum true m0) as Hsum.
  { intros Hne. destruct Hs as [|Hs]; [done|].
    rewrite wsum_insert, Hx, even_mod by (by apply lookup_lt_Some in Hx). cbn [default Bool.eqb].
    rewrite Hf. unfold weight. clear - Hs. destruct (_ =? _); cbn in *; ones. }
  split.
  - exact Ho'.
  - by apply Forall_insert.
  - by destruct (c =? 0).
  - intros E. specialize (Hn E) as ->. done.
  - destruct (Z.eqb_spec c 0) as [|Hne]; [done|]. cbn [negb]. intros E. right. eexists. split; [exact Ho'|].
    specialize (Hsum Hne). by rewrite E in Hsum.
  - destruct (Z.eqb_spec c 0) as [|Hne]; [by left|]. right. by apply Hsum.
Qed.

Lemma mangle_wp h addr R s : own h s → wpa (mangle_address map addr) (λ _, own h) R s.
Proof.
  intros H. unfold mangle_address, wp, mbind, snmp_bind, load.
  destruct (Z.ltb_spec addr (begin_ s)) as [|Hp]; [by eapply own_reached|].
  destruct (msg s !! Z.to_nat (addr - begin_ s)) as [a|] eqn:E; [|by eapply own_reached].
  destruct (Z.eqb_spec (from map) (NOCT1 a)) as [Ea|]; [|done].
  assert (is_u8 a) as Ha by (eapply Forall_lookup_1; [apply (mg_bytes _ _ (ow_msg _ _ H))|exact E]).
  rewrite NOCT1_id in Ea by done. rewrite <- Ea in E. pose proof (mangle_step _ _ _ (ow_msg _ _ H) E) as Hm.
  rewrite Z2Nat.id in Hm by lia. unfold modify. destruct H as [Hbg Hed ? _ ? ? ? ?].
  cbn [check begin_ update upd_msg]. destruct (negb (check s =? 0)); by split.
Qed.

Lemma keeps_mangle_last : keeps (mangle_last map).
Proof. intros h s H. unfold wp, mangle_last. by apply mangle_wp. Qed.

Lemma keeps_request : keeps snmp_request_decode.
Proof.
  intros h s H. unfold snmp_request_decode.
  do 3 (eapply header_seq; [done| |done]; intros; cbn beta iota;
        eapply keeps_seq; [apply keeps_require|done| |done]; intros;
        eapply keeps_seq; [first [apply keeps_ulong|apply keeps_uint]|done| |done]; intros).
  by apply wp_ret.
Qed.

(** The two blocks of a trap, and none when the decoding fails. *)
Lemma trap_wp h s : own h s →
  wpa (snmp_trap_decode map) (λ r t, h !! r.1 = None ∧ ∃ c, taken (<[r.1 := c]> h) r.2 t) (own h) s.
Proof.
  intros H. unfold snmp_trap_decode.
  eapply header_seq; [done| |done]. intros eoc cls con tag t Ht He. cbn beta iota.
  eapply keeps_seq; [apply keeps_require|done| |done]. intros _ t1 Ht1.
  eapply wp_seq; [by apply oid_wp| |done]. intros [id n] t2 (Hid & (c & Ht2) & _). cbn [fst snd] in *.
  eapply wp_on_fail; [|intros u Hu; apply (free_taken h id (own h)); [split; [done|by exists c]|done]].
  eapply header_seq; [done| |exact (λ _ x, x)]. intros eoc' cls' con' tag' t3 Ht3 He'. cbn beta iota.
  eapply keeps_seq; [apply keeps_require|done| |exact (λ _ x, x)]. intros _ t4 Ht4.
  eapply wp_seq; [by apply octets_wp| |exact (λ _ x, x)]. intros [ip len] t5 (Hip & (c' & Ht5) & _). cbn [fst snd] in *.
  set (h' := <[ip := c']> (<[id := c]> h)) in *.
  eapply (wp_on_fail _ _ _ _ _ (own h')); [|intros u Hu; apply (free_taken (<[id := c]> h) ip); [split; [done|by exists c']|done]].
  eapply keeps_seq; [apply keeps_require|done| |done]. intros _ t6 Ht6.
  eapply keeps_seq; [apply keeps_mangle_last|done| |done]. intros _ t7 Ht7.
  do 3 (eapply header_seq; [done| |done]; intros; cbn beta iota;
        eapply keeps_seq; [apply keeps_require|done| |done]; intros;
        eapply keeps_seq; [first [apply keeps_ulong|apply keeps_uint]|done| |done]; intros).
  apply wp_ret. split; [done|]. exists c. split; [done|by exists c'].
Qed.

End Books.

(** ** A message *)
Section Message.
Context (m0 : list Z) (c0 b : Z) (map : oct1_map) (h0 : gmap positive Z) (strict : Prop).
Context (Hb : 3221225472 < b) (Hlen : b + Z.of_nat (length m0) < 4294967296)
  (Hm0 : Z.of_nat (length m0) < 65536) (Hsmall : strict → Z.of_nat (length m0) <= 32000)
  (Hfrom : is_u8 (from map)) (Hto : is_u8 (to map)).

Local Abbreviation own := (own m0 c0 b map h0 strict).
Local Abbreviation reached := (reached m0 c0 map h0).
Local Abbreviation wpa := (wp False reached).

Lemma own_obj ob ob' h s : own ob h s → own ob' h (s <| obj := ob' |>).
Proof. by intros []. Qed.

(** An object that was read: its own block and that of its identifier. *)
Definition object_live (h : gmap positive Z) (s : snmp) : Prop := ∃ o c c',
  h !! o_id o = None ∧ <[o_id o := c]> h !! o_addr o = None ∧
  own (Some o) (<[o_addr o := c']> (<[o_id o := c]> h)) s.

Lemma object_wp ob h s : own ob h s → wpa snmp_object_decode (λ _, object_live h) (own None h) s.
Proof.
  intros H. unfold snmp_object_decode. apply wp_bind.
  apply (own_obj _ None) in H. unfold modify at 1. unfold wp at 1. revert H. generalize (s <| obj := None |>). clear s.
  intros s H.
  eapply header_seq; try done. intros eoc cls con tag t Ht He. cbn beta iota.
  eapply keeps_seq; [apply keeps_require|done| |done]. intros _ t1 Ht1.
  eapply header_seq; try done. intros end_ cls' con' tag' t2 Ht2 He'. cbn beta iota.
  eapply keeps_seq; [apply keeps_require|done| |done]. intros _ t3 Ht3.
  eapply wp_seq; [eapply oid_wp; done| |done]. intros [id n] t4 (Hid & (c & Ht4) & _). cbn [fst snd] in *.
  eapply (wp_seq _ _ _ _ (λ r, taken m0 c0 b map h0 strict None (<[id := c]> h) r.1.2) (own None h)); [| |done].
  - eapply wp_on_fail; [|intros u Hu; eapply (free_taken _ _ _ _ _ _ _ h id (own None h)); [split; [done|exists c; exact Hu]|done]].
    eapply header_seq; try done. intros end1 cls1 con1 tag1 t5 Ht5 He1. cbn beta iota.
    eapply keeps_seq; [apply keeps_require|done| |exact (λ _ x, x)]. intros _ t6 Ht6.
    eapply keeps_seq; [|exact Ht6| |exact (λ _ x, x)].
    { unfold snmp_tag_cls2syntax. destruct (cls2syntax _ _ _); [apply keeps_ret|apply keeps_fail]. }
    intros type t7 Ht7. eapply wp_seq; [by eapply value_wp| |exact (λ _ x, x)]. by intros [o len] t8 Ht8.
  - intros [[type o] len] t5 (Ho & c' & Ht5). cbn [fst snd] in *. apply wp_bind. unfold modify at 1. unfold wp at 1.
    apply (own_obj _ (Some (mk_obj o id n type len))) in Ht5. revert Ht5. generalize (t5 <| obj := Some (mk_obj o id n type len) |>).
    clear t5. intros t5 Ht5. eapply wp_on_fail; [eapply wp_mono; [by eapply keeps_eoc| |exact (λ _ x, x)]|].
    + intros [] u Hu. by exists (mk_obj o id n type len), c, c'.
    + intros u Hu. apply lookup_insert_None in Ho as Ho'. destruct Ho' as [Ho' Hne]. apply wp_bind.
      eapply free_under; [exact Hid| |exact Hu|]; [congruence|]. intros v Hv. apply wp_bind.
      eapply wp_mono; [eapply (kfree_last _ _ _ _ _ _ _ h o c' (λ _, False)); [exact Ho'|exact Hv]| |done].
      intros [] w Hw. by eapply own_obj.
Qed.

Lemma free_object_wp h (Q : () → snmp → Prop) R s : object_live h s →
  (∀ ob t, own ob h t → Q () t) → wpa free_object Q R s.
Proof.
  intros (o & c & c' & Hi & Ha & H) HQ. unfold wp, free_object. rewrite (ow_obj _ _ _ _ _ _ _ _ _ H).
  apply lookup_insert_None in Ha as [Ha Hne]. apply (wp_bind False reached).
  eapply free_under; [exact Hi| |exact H|]; [congruence|]. intros v Hv.
  eapply wp_mono; [eapply (kfree_last _ _ _ _ _ _ _ h (o_addr o) c' (λ _, False)); [exact Ha|exact Hv]| |done].
  intros [] w Hw. by eapply HQ.
Qed.

Lemma mangle_object_wp h R s : object_live h s → wpa (mangle_object map) (λ _, object_live h) R s.
Proof.
  intros (o & c & c' & Hi & Ha & H). unfold wp, mangle_object. rewrite (ow_obj _ _ _ _ _ _ _ _ _ H).
  destruct (o_type o =? SNMP_IPADDR); [|by exists o, c, c'].
  eapply (wp_mono False reached); [unfold mangle_last, wp; eapply (mangle_wp _ _ _ _ _ _ _ Hfrom Hto _ _ R); exact H| |done]. intros [] t Ht. by exists o, c, c'.
Qed.

(** The loop ends with the block of [*obj] in place, or frees it. *)
Lemma objects_wp fuel : ∀ ob h o c eoc s, h !! o = None → own ob (<[o := c]> h) s →
  wpa (snmp_objects fuel map eoc o) (λ _ t, ∃ ob, own ob (<[o := c]> h) t) (λ t, ∃ ob, own ob h t) s.
Proof.
  induction fuel as [|fuel IH]; intros ob h o c eoc s Ho H; [by eapply own_reached|]. cbn [snmp_objects].
  apply wp_bind, wp_attempt. eapply wp_mono; [eapply keeps_eoc; done| |].
  - intros [] t Ht. by exists ob.
  - intros t Ht. eapply (wp_seq _ _ _ _ (λ _, object_live (<[o := c]> h)) (λ t, ∃ ob, own ob h t)); [| |done].
    + eapply wp_on_fail; [by eapply object_wp|]. intros u Hu. apply wp_bind. unfold wp at 1, free_failed.
      rewrite (ow_obj _ _ _ _ _ _ _ _ _ Hu). eapply wp_mono; [eapply (kfree_last _ _ _ _ _ _ _ h o c (λ _, False)); done| |done].
      intros [] v Hv. by exists None.
    + intros [] u Hu. eapply wp_seq; [by eapply (mangle_object_wp _ (λ _, False))| |done].
      intros [] v Hv. eapply wp_bind, free_object_wp; [exact Hv|]. intros ob' w Hw. by eapply IH.
Qed.

(** Every path of the parser keeps the books. *)
Lemma parse_wp fuel s : msg s = m0 → check s = c0 → Forall is_u8 m0 → is_u16 c0 → (strict → oom s = []) → heap s = h0 →
  wpa (snmp_parse_mangle fuel b (Z.of_nat (length m0)) map) (λ _ t, ∃ ob, own ob ∅ t)
    (λ t, ∃ ob, own ob ∅ t) s.
Proof.
  intros Hm Hc Hy Hu Ho Hh. unfold snmp_parse_mangle. apply wp_bind. unfold asn1_open, modify at 1, wp at 1.
  set (s1 := mk_snmp _ _ _ _ _ _ _ _ _). assert (own (obj s) ∅ s1) as H.
  { split; cbn; rewrite ?map_union_empty, ?Hh; try done; [word_lia| |apply map_disjoint_empty_r]. split; rewrite ?Hm, ?Hc; try done; [|by left|by right].
    apply Forall_Forall2_diag, Forall_true. by left. }
  generalize dependent s1. generalize (∅ : gmap positive Z) as h, (obj s) as ob. clear s Hm Hc Ho Hh. intros h ob s H.
  assert (∀ ob t, own ob h t → ∃ ob, own ob h t) as HR by (intros; by eexists).
  eapply header_seq; [done..| |by eauto]. intros eoc cls con tag t Ht He. cbn beta iota.
  eapply keeps_seq; [apply keeps_require|done| |by eauto]. intros _ t1 Ht1.
  eapply header_seq; [done..| |by eauto]. intros end1 cls1 con1 tag1 t2 Ht2 He1. cbn beta iota.
  eapply keeps_seq; [apply keeps_require|done| |by eauto]. intros _ t3 Ht3.
  eapply keeps_seq; [by apply keeps_uint|done| |by eauto]. intros vers t4 Ht4.
  destruct (1 <? vers); [apply wp_ret; by eauto|].
  eapply header_seq; [done..| |by eauto]. intros end2 cls2 con2 tag2 t5 Ht5 He2. cbn beta iota.
  eapply keeps_seq; [apply keeps_require|done| |by eauto]. intros _ t6 Ht6.
  eapply wp_seq; [eapply octets_wp; done| |by eauto]. intros [comm n] t7 (Hc & (c & Ht7) & _). cbn [fst snd] in *.
  eapply wp_seq; [by eapply (kfree_last _ _ _ _ _ _ _ h comm c (λ _, False))| |done]. intros [] t8 Ht8.
  eapply header_seq; [done..| |by eauto]. intros end3 cls3 con3 pdutype t9 Ht9 He3. cbn beta iota.
  eapply keeps_seq; [apply keeps_require|done| |by eauto]. intros _ t10 Ht10.
  destruct (_ && _); [apply wp_ret; by eauto|].
  eapply (wp_seq _ _ _ _ (λ _, own ob h) (own ob h)); [| |by eauto].
  { destruct (pdutype =? SNMP_PDU_TRAP1); [|eapply keeps_request; done].
    eapply wp_seq; [eapply trap_wp; done| |done]. intros [id ip] u (Hi & c1 & Hip & c2 & Hw). cbn [fst snd] in *.
    apply lookup_insert_None in Hip as [Hip Hne]. apply wp_bind.
    eapply free_under; [exact Hi| |exact Hw|]; [congruence|]. intros v Hv. by eapply (kfree_last _ _ _ _ _ _ _ h ip c2). }
  intros [] t11 Ht11.
  eapply header_seq; [done..| |by eauto]. intros eoc4 cls4 con4 tag4 t12 Ht12 He4. cbn beta iota.
  eapply keeps_seq; [apply keeps_require|done| |by eauto]. intros _ t13 Ht13.
  eapply wp_seq; [eapply kmalloc_wp; done| |by eauto].
  intros [o|] t14 [_ Ht14]; [|destruct Ht14 as [Ht14 _]; cbn; by eauto].
  destruct Ht14 as (Ho' & c' & _ & _ & Ht14).
  eapply wp_seq; [eapply objects_wp; done| |done]. intros [] t15 [ob' Ht15].
  eapply wp_seq; [by eapply (kfree_last _ _ _ _ _ _ _ h o c' (λ _, False))| |done]. intros [] t16 Ht16.
  eapply wp_mono; [eapply keeps_eoc; done|intros [] ?|intros ?]; apply HR.
Qed.

End Message.
