(* ===== verification/SnmpMessages.v ===== *)
(** * The SNMP helper: messages

    Messages of SNMPv1 and SNMPv2c as an inductive type, their encoding in BER, the change
    of addresses that the helper stands for, and the run of the parser of [Snmp] over an
    encoded message. *)
From S2P Require Import Prelude Packet CtBase CtProtos Conntrack NatProto Csum Snmp SnmpFacts.

(** ** Messages *)

(** An object identifier, by its arcs. *)
Abbreviation oid := (list Z) (only parsing).

Inductive value :=
  | Null
  | NoSuchObject
  | NoSuchInstance
  | EndOfMibView
  | Integer (z : Z)
  | OctetString (c : list Z)
  | Opaque (c : list Z)
  | ObjectId (o : oid)
  | IpAddress (a : Z) (r : list Z)
  | Counter (z : Z)
  | Gauge (z : Z)
  | TimeTicks (z : Z)
  | BitString (c : list Z)
  | Counter64 (c : list Z).

Record varbind := mk_vb { vb_name : oid; vb_value : value }.

(** Other PDUs (requests) are told by their tag and contents. *)
Inductive pdu :=
  | Response (id status index : Z) (vbs : list varbind)
  | Trap2 (id status index : Z) (vbs : list varbind)
  | Trap1 (enterprise : oid) (agent : Z) (rest : list Z) (generic specific time : Z) (vbs : list varbind)
  | OtherPdu (tag : Z) (content : list Z).

Record message := mk_message { version : Z; community : list Z; body : pdu }.

(** The first octet of every address is mapped. *)
Definition map_octet (m : oct1_map) (a : Z) : Z := if from m =? a then to m else a.

Definition translate_value (m : oct1_map) (v : value) : value :=
  match v with IpAddress a r => IpAddress (map_octet m a) r | _ => v end.
Definition translate_vb (m : oct1_map) (v : varbind) : varbind :=
  mk_vb (vb_name v) (translate_value m (vb_value v)).
Definition translate_pdu (m : oct1_map) (p : pdu) : pdu :=
  match p with
  | Response i s x vbs => Response i s x (translate_vb m <$> vbs)
  | Trap2 i s x vbs => Trap2 i s x (translate_vb m <$> vbs)
  | Trap1 e a r g sp t vbs => Trap1 e (map_octet m a) r g sp t (translate_vb m <$> vbs)
  | OtherPdu _ _ => p
  end.
Definition translate (m : oct1_map) (x : message) : message :=
  mk_message (version x) (community x) (translate_pdu m (body x)).

(** ** Encoding *)
Definition enc_len (n : Z) : list Z :=
  if n <? 128 then [n] else if n <? 256 then [129; n] else [130; n / 256; n mod 256].

Definition tlv (tag : Z) (c : list Z) : list Z := tag :: enc_len (Z.of_nat (length c)) ++ c.

(** Two's complement in [n] octets, and in as few as possible. *)
Fixpoint be_octets (n : nat) (z : Z) : list Z :=
  match n with O => [] | S n => be_octets n (z / 256) ++ [z mod 256] end.

Definition enc_int (z : Z) : list Z :=
  if (-128 <=? z) && (z <? 128) then be_octets 1 z
  else if (-32768 <=? z) && (z <? 32768) then be_octets 2 z
  else if (-8388608 <=? z) && (z <? 8388608) then be_octets 3 z
  else if (-2147483648 <=? z) && (z <? 2147483648) then be_octets 4 z
  else be_octets 5 z.

(** Sub-identifiers in base 128, all octets but the last with the high bit. *)
Fixpoint septets (n : nat) (x : Z) : list Z :=
  match n with
  | O => []
  | S n => if x =? 0 then [] else septets n (x / 128) ++ [128 + x mod 128]
  end.
Definition enc_subid (x : Z) : list Z := septets 4 (x / 128) ++ [x mod 128].

Definition enc_oid (o : oid) : list Z :=
  match o with
  | a :: b :: r => enc_subid (40 * a + b) ++ concat (enc_subid <$> r)
  | _ => []
  end.

Definition enc_value (v : value) : list Z :=
  match v with
  | Null => tlv 5 []
  | NoSuchObject => tlv 128 []
  | NoSuchInstance => tlv 129 []
  | EndOfMibView => tlv 130 []
  | Integer z => tlv 2 (enc_int z)
  | OctetString c => tlv 4 c
  | Opaque c => tlv 68 c
  | ObjectId o => tlv 6 (enc_oid o)
  | IpAddress a r => tlv 64 (a :: r)
  | Counter z => tlv 65 (enc_int z)
  | Gauge z => tlv 66 (enc_int z)
  | TimeTicks z => tlv 67 (enc_int z)
  | BitString c => tlv 3 c
  | Counter64 c => tlv 70 c
  end.

Definition enc_vb (v : varbind) : list Z := tlv 48 (tlv 6 (enc_oid (vb_name v)) ++ enc_value (vb_value v)).
Definition enc_vbs (vbs : list varbind) : list Z := tlv 48 (concat (enc_vb <$> vbs)).
Definition enc_request (i s x : Z) (vbs : list varbind) : list Z :=
  tlv 2 (enc_int i) ++ tlv 2 (enc_int s) ++ tlv 2 (enc_int x) ++ enc_vbs vbs.

Definition enc_pdu (p : pdu) : list Z :=
  match p with
  | Response i s x vbs => tlv 162 (enc_request i s x vbs)
  | Trap2 i s x vbs => tlv 167 (enc_request i s x vbs)
  | Trap1 e a r g sp t vbs =>
      tlv 164 (tlv 6 (enc_oid e) ++ tlv 64 (a :: r) ++ tlv 2 (enc_int g) ++ tlv 2 (enc_int sp)
               ++ tlv 67 (enc_int t) ++ enc_vbs vbs)
  | OtherPdu t c => tlv t c
  end.

Definition encode (x : message) : list Z :=
  tlv 48 (tlv 2 (enc_int (version x)) ++ tlv 4 (community x) ++ enc_pdu (body x)).

(** ** Well-formed messages *)
Definition int32 (z : Z) : Prop := -2147483648 <= z < 2147483648.
Definition oid_ok (o : oid) : Prop := (2 <= length o)%nat ∧ Forall is_u32 o ∧ is_u32 (40 * hd 0 o + nth 1 o 0).

Definition value_ok (v : value) : Prop :=
  match v with
  | Integer z => int32 z
  | OctetString c | Opaque c | BitString c | Counter64 c => Forall is_u8 c
  | ObjectId o => oid_ok o
  | IpAddress a r => Forall is_u8 (a :: r) ∧ length r = 3%nat
  | Counter z | Gauge z | TimeTicks z => is_u32 z
  | _ => True
  end.
(** The decoder has no case for the last two. *)
Definition known_value (v : value) : bool :=
  match v with BitString _ | Counter64 _ => false | _ => true end.
Definition known_vb (v : varbind) : bool := known_value (vb_value v).

Definition vb_ok (v : varbind) : Prop := oid_ok (vb_name v) ∧ value_ok (vb_value v).

Definition pdu_ok (p : pdu) : Prop :=
  match p with
  | Response i s x vbs | Trap2 i s x vbs => int32 i ∧ int32 s ∧ int32 x ∧ Forall vb_ok vbs
  | Trap1 e a r g sp t vbs =>
      oid_ok e ∧ Forall is_u8 (a :: r) ∧ length r = 3%nat ∧ int32 g ∧ int32 sp ∧ is_u32 t ∧ Forall vb_ok vbs
  | OtherPdu t c => t ∈ [160; 161; 163; 165; 166; 168] ∧ Forall is_u8 c
  end.

Definition message_ok (x : message) : Prop :=
  0 <= version x <= 1 ∧ Forall is_u8 (community x) ∧ pdu_ok (body x) ∧
  Z.of_nat (length (encode x)) <= 32000.

(** ** Octets of encodings *)
Lemma be_octets_length n z : length (be_octets n z) = n.
Proof. revert z. induction n as [|n IH]; intros z; cbn [be_octets]; [done|]. rewrite length_app, IH. cbn. lia. Qed.
Lemma be_octets_u8 n z : Forall is_u8 (be_octets n z).
Proof.
  revert z. induction n as [|n IH]; intros z; cbn [be_octets]; [done|].
  apply Forall_app. split; [done|]. repeat constructor; word_lia.
Qed.

(** Contents that [asn1_long_decode] and [asn1_ulong_decode] accept. *)
Definition long_ok (c : list Z) : Prop := (1 <= length c <= 4)%nat.
Definition ulong_ok (c : list Z) : Prop := long_ok c ∨ length c = 5%nat ∧ hd 0 c = 0.

Lemma enc_int_u8 z : Forall is_u8 (enc_int z).
Proof. unfold enc_int. case_bool; apply be_octets_u8. Qed.
Lemma enc_int_long z : int32 z → long_ok (enc_int z).
Proof.
  unfold int32, enc_int, long_ok. intros Hz. case_bool; rewrite be_octets_length; lia.
Qed.
Lemma enc_int_ulong z : is_u32 z → ulong_ok (enc_int z).
Proof.
  intros Hz. destruct (Z.lt_ge_cases z 2147483648); [left; apply enc_int_long; unfold int32; word_lia|].
  right. unfold enc_int. assert (∀ a k, k <= 2147483648 → (a <=? z) && (z <? k) = false) as Hk.
  { intros a k Hk. apply andb_false_iff. right. apply Z.ltb_ge. lia. }
  rewrite !Hk by lia. rewrite be_octets_length. split; [done|]. cbn. word_lia.
Qed.
Lemma int32_ulong z : int32 z → ulong_ok (enc_int z).
Proof. intros H. left. by apply enc_int_long. Qed.

Lemma septets_high n x : Forall (λ y, 128 <= y < 256) (septets n x).
Proof.
  revert x. induction n as [|n IH]; intros x; cbn [septets]; [done|]. destruct (x =? 0); [done|].
  apply Forall_app. split; [done|]. repeat constructor; lia.
Qed.

Lemma enc_len_u8 n : 0 <= n < 65536 → Forall is_u8 (enc_len n).
Proof.
  intros H. unfold enc_len, is_u8. destruct (Z.ltb_spec n 128); [|destruct (Z.ltb_spec n 256)]; repeat constructor; lia.
Qed.

(** ** The calculus

    [at_ pre rest s]: the parser is at the end of [pre] with [rest] to come, in a message
    of [N] octets at address [b], and no allocation fails.  [reads m Q s]: [m] returns with
    [Q], or misuses the heap; where [bad], it may fail. *)
Section Reading.
Context (bad : Prop).

Definition reads {A} (m : M A) (Q : A → snmp → Prop) (s : snmp) : Prop := wp True (λ _, False) m Q (λ _, bad) s.

Lemma reads_seq {A B} (m : M A) (k : A → M B) Q' Q s :
  reads m Q' s → (∀ a t, Q' a t → reads (k a) Q t) → reads (m ≫= k) Q s.
Proof. intros Hm Hk. by eapply wp_seq. Qed.
Lemma reads_mono {A} (m : M A) (Q Q' : A → snmp → Prop) s : reads m Q s → (∀ a t, Q a t → Q' a t) → reads m Q' s.
Proof. intros Hm Hk. by eapply wp_mono. Qed.

(** Cleanup does not read the message. *)
Definition tame (c : M ()) : Prop := ∀ s, wp True (λ _, False) c (λ _ _, True) (λ _, True) s.

Lemma tame_kfree p : tame (kfree p).
Proof. intros s. unfold wp, kfree. by destruct (_ !! _). Qed.
Lemma tame_modify f : tame (modify f).
Proof. done. Qed.
Lemma tame_bind c (k : () → M ()) : tame c → (∀ a, tame (k a)) → tame (c ≫= k).
Proof. intros Hc Hk s. eapply wp_seq; [apply Hc|intros a t _; apply Hk|done]. Qed.
Lemma tame_failed : tame free_failed.
Proof.
  intros s. unfold wp, free_failed, free_object. destruct (obj s) as [o|]; [|done].
  apply (tame_bind (kfree (o_id o)) (λ _, kfree (o_addr o))); intros; apply tame_kfree.
Qed.

Lemma reads_on_fail {A} c (m : M A) Q s : tame c → reads m Q s → reads (on_fail c m) Q s.
Proof.
  intros Hc Hm. eapply wp_on_fail; [exact Hm|]. intros t Hb. eapply wp_mono; [apply Hc|intros ? ? _; exact Hb|intros ? _; exact Hb].
Qed.

Lemma reads_require b (Q : () → snmp → Prop) s : b = true → Q () s → reads (require b) Q s.
Proof. by intros ->. Qed.

Ltac tame := repeat first [apply tame_kfree|apply tame_modify|apply tame_failed|apply tame_bind; [|intros ?]].

Context (b N : Z) (Hb : 0 < b) (HbN : b + N < 4294967296) (HN : N <= 32000).

Record at_ (pre rest : list Z) (s : snmp) : Prop := {
  at_msg : msg s = pre ++ rest;
  at_len : Z.of_nat (length (pre ++ rest)) = N;
  at_begin : begin_ s = b;
  at_end : end_ s = b + N;
  at_pointer : pointer s = b + Z.of_nat (length pre);
  at_oom : oom s = [] }.

Lemma octet_reads pre x r s : at_ pre (x :: r) s →
  reads asn1_octet_decode (λ ch t, ch = x ∧ at_ (pre ++ [x]) r t) s.
Proof.
  intros [Hm Hl Hbg He Hp Ho]. unfold reads, wp, asn1_octet_decode, load.
  rewrite length_app in Hl. cbn [length] in Hl. rewrite He, Hp. destruct (Z.leb_spec (b + N) (b + Z.of_nat (length pre))); [lia|].
  unfold mbind, snmp_bind at 1. rewrite Hbg. destruct (Z.ltb_spec (b + Z.of_nat (length pre)) b); [lia|].
  assert (Z.to_nat (b + Z.of_nat (length pre) - b) = length pre) as -> by lia. rewrite Hm, list_lookup_middle by done.
  cbn. split; [done|]. split; cbn; rewrite <- ?app_assoc; try done.
  - rewrite length_app. cbn. lia.
  - rewrite Hp, length_app. cbn [length]. word_lia.
Qed.

Lemma kmalloc_reads pre r n s : at_ pre r s → n <= 131072 →
  reads (kmalloc n) (λ p t, (∃ q, p = Some q) ∧ at_ pre r t) s.
Proof.
  intros H Hn. unfold reads, wp, kmalloc. destruct (find_general_cachep n) eqn:E.
  - rewrite (at_oom _ _ _ H). cbn. split; [by eexists|]. by destruct H.
  - apply general_cachep_none in E. lia.
Qed.

Lemma kfree_reads pre r p s : at_ pre r s → reads (kfree p) (λ _, at_ pre r) s.
Proof. intros H. unfold reads, wp, kfree. destruct (_ !! _); [by destruct H|done]. Qed.
Lemma store_reads pre r p n s : at_ pre r s → reads (store p n) (λ _, at_ pre r) s.
Proof. intros H. unfold reads, wp, store. destruct (_ !! _); [by destruct (_ <=? _)|done]. Qed.

(** *** Headers *)
Definition hdr (tag : Z) (c : list Z) : list Z := tag :: enc_len (Z.of_nat (length c)).

Lemma tlv_app tag c : tlv tag c = hdr tag c ++ c.
Proof. done. Qed.
Lemma tlv_length tag c : length (tlv tag c) = (S (length (enc_len (Z.of_nat (length c)))) + length c)%nat.
Proof. unfold tlv. cbn [length]. by rewrite length_app. Qed.
Lemma tlv_hdr tag c r : tlv tag c ++ r = hdr tag c ++ (c ++ r).
Proof. unfold tlv, hdr. cbn. by rewrite <- app_assoc. Qed.

(** A position is the end of what was read. *)
Definition pos (pre : list Z) : Z := b + Z.of_nat (length pre).

Lemma add_octet_eq x ch : 0 <= x < 256 → is_u8 ch → add_octet x ch = 256 * x + ch.
Proof.
  intros Hx Hc. unfold add_octet. rewrite Z.shiftl_mul_pow2 by lia. rewrite (lor_add _ ch 8) by word_lia. word_lia.
Qed.

Lemma length_reads pre n r s : at_ pre (enc_len n ++ r) s → 0 <= n < 65536 →
  reads asn1_length_decode (λ l t, l = Some n ∧ at_ (pre ++ enc_len n) r t) s.
Proof.
  intros H Hn. unfold asn1_length_decode. unfold enc_len in *.
  destruct (Z.ltb_spec n 128); [|destruct (Z.ltb_spec n 256)]; cbn [app] in H.
  - eapply reads_seq; [by eapply octet_reads|]. intros ch t [-> Ht]. cbn beta.
    destruct (Z.eqb_spec n 128); [lia|]. by destruct (Z.ltb_spec n 128); [|lia].
  - eapply reads_seq; [by eapply octet_reads|]. intros ch t [-> Ht].
    change (129 =? 128) with false. change (129 <? 128) with false. cbv iota.
    change (Z.to_nat (Z.land 129 127)) with 1%nat. cbn [asn1_length_loop].
    eapply reads_seq; [eapply reads_seq; [by eapply octet_reads|]|].
    { intros ch u [-> Hu]. apply (wp_ret _ _ _ (λ l v, l = n ∧ at_ (pre ++ [129; n]) r v)).
      rewrite add_octet_eq by word_lia. split; [lia|]. by rewrite <- app_assoc in Hu. }
    intros l u [-> Hu]. by split.
  - eapply reads_seq; [by eapply octet_reads|]. intros ch t [-> Ht].
    change (130 =? 128) with false. change (130 <? 128) with false. cbv iota.
    change (Z.to_nat (Z.land 130 127)) with 2%nat. cbn [asn1_length_loop].
    eapply reads_seq; [eapply reads_seq; [by eapply octet_reads|]|].
    { intros ch u [-> Hu]. eapply reads_seq; [by eapply octet_reads|]. intros ch v [-> Hv].
      apply (wp_ret _ _ _ (λ l v, l = n ∧ at_ (pre ++ [130; n / 256; n mod 256]) r v)).
      rewrite !add_octet_eq by (rewrite ?add_octet_eq; word_lia). split; [lia|]. by rewrite <- !app_assoc in Hv. }
    intros l u [-> Hu]. by split.
Qed.

Definition ident (tag : Z) : Z * Z * Z := (Z.shiftr (Z.land tag 192) 6, Z.shiftr (Z.land tag 32) 5, Z.land tag 31).

Lemma header_reads pre tag c r s : at_ pre (tlv tag c ++ r) s → Z.land tag 31 ≠ 31 →
  reads asn1_header_decode
    (λ q t, q = (pos (pre ++ hdr tag c ++ c), (ident tag).1.1, (ident tag).1.2, (ident tag).2) ∧
            at_ (pre ++ hdr tag c) (c ++ r) t) s.
Proof.
  intros H Htag. rewrite tlv_hdr in H. unfold asn1_header_decode, asn1_id_decode, hdr in *.
  assert (0 <= Z.of_nat (length c) < 65536) as Hc.
  { destruct H as [_ Hl _ _ _ _]. rewrite !length_app in Hl. lia. }
  eapply reads_seq; [eapply (reads_seq _ _ _ (λ q t, q = ident tag ∧ at_ (pre ++ [tag]) (enc_len (Z.of_nat (length c)) ++ c ++ r) t)); [by eapply octet_reads|]|].
  { intros ch t [-> Ht]. cbv zeta. destruct (Z.eqb_spec (Z.land tag 31) 31); [done|]. by split. }
  intros q t [-> Ht]. cbn beta iota delta [ident].
  eapply reads_seq; [by eapply length_reads|]. intros l u [-> Hu].
  rewrite <- app_assoc in Hu. cbn [app] in Hu. unfold reads, wp, gets, mbind, snmp_bind. cbn.
  split; [|exact Hu]. do 3 f_equal.
  rewrite (at_pointer _ _ _ Hu). destruct Hu as [_ Hl _ _ _ _]. unfold pos. cbn [hdr].
  rewrite !length_app in *. cbn [length] in *. rewrite !length_app in *. word_lia.
Qed.

(** *** Contents *)
Lemma pos_app pre c : pos (pre ++ c) = pos pre + Z.of_nat (length c).
Proof. unfold pos. rewrite length_app. lia. Qed.

(** More to read, or at the end. *)
Lemma at_more pre x c r s : at_ pre ((x :: c) ++ r) s → (pointer s <? pos (pre ++ x :: c)) = true.
Proof. intros H. apply Z.ltb_lt. rewrite (at_pointer _ _ _ H), pos_app. unfold pos. cbn [length]. lia. Qed.
Lemma at_done pre r s : at_ pre r s → (pointer s <? pos (pre ++ [])) = false.
Proof. intros H. apply Z.ltb_ge. rewrite (at_pointer _ _ _ H), app_nil_r. done. Qed.
Lemma at_step pre x c r s : at_ (pre ++ [x]) (c ++ r) s → pos (pre ++ x :: c) = pos ((pre ++ [x]) ++ c).
Proof. by rewrite <- app_assoc. Qed.

Lemma int_loop_reads fuel : ∀ pre c r len x s, at_ pre (c ++ r) s → len + Z.of_nat (length c) <= 4 →
  (length c < fuel)%nat →
  reads (asn1_int_loop fuel (pos (pre ++ c)) len x) (λ y t, y = foldl add_octet x c ∧ at_ (pre ++ c) r t) s.
Proof.
  induction fuel as [|fuel IH]; intros pre c r len x s H Hl Hf; [lia|].
  unfold reads, wp. cbn [asn1_int_loop]. destruct c as [|ch c].
  - rewrite (at_done _ _ _ H). rewrite app_nil_r. by split.
  - rewrite (at_more _ _ _ _ _ H). cbn [length] in *. destruct (Z.ltb_spec 4 (len + 1)); [lia|].
    eapply (reads_seq); [by eapply octet_reads|]. intros ch' t [-> Ht].
    rewrite (at_step _ _ _ _ _ Ht). eapply reads_mono; [eapply IH; [exact Ht|lia|lia]|].
    intros y u [-> Hu]. split; [done|]. by rewrite <- app_assoc in Hu.
Qed.

Lemma ulong_reads pre c r s : at_ pre (c ++ r) s → ulong_ok c →
  reads (asn1_ulong_decode (pos (pre ++ c))) (λ y t, y = foldl add_octet (hd 0 c) (tl c) ∧ at_ (pre ++ c) r t) s.
Proof.
  intros H Hc. destruct c as [|x c]; [destruct Hc as [[]|[]]; cbn in *; lia|].
  unfold asn1_ulong_decode. eapply reads_seq; [by eapply octet_reads|]. intros ch t [-> Ht].
  rewrite (at_step _ _ _ _ _ Ht). cbn [hd tl]. replace (pre ++ x :: c) with ((pre ++ [x]) ++ c) by (by rewrite <- app_assoc).
  apply int_loop_reads; [exact Ht|..]; destruct Hc as [[? ?]|[? ?]]; cbn [length hd] in *; case_bool; lia.
Qed.
Lemma uint_reads pre c r s : at_ pre (c ++ r) s → ulong_ok c →
  reads (asn1_uint_decode (pos (pre ++ c))) (λ y t, y = foldl add_octet (hd 0 c) (tl c) ∧ at_ (pre ++ c) r t) s.
Proof. apply ulong_reads. Qed.

Lemma long_reads pre c r s : at_ pre (c ++ r) s → long_ok c →
  reads (asn1_long_decode (pos (pre ++ c))) (λ _, at_ (pre ++ c) r) s.
Proof.
  intros H Hc. destruct c as [|x c]; [destruct Hc; cbn in *; lia|]. unfold long_ok in Hc. cbn [length] in Hc.
  unfold asn1_long_decode. eapply reads_seq; [by eapply octet_reads|]. intros ch t [-> Ht].
  rewrite (at_step _ _ _ _ _ Ht). replace (pre ++ x :: c) with ((pre ++ [x]) ++ c) by (by rewrite <- app_assoc).
  eapply reads_seq; [eapply int_loop_reads; [exact Ht|lia|lia]|]. by intros y u [_ Hu].
Qed.

Lemma octets_loop_reads fuel : ∀ pre c r p len s, at_ pre (c ++ r) s → (length c < fuel)%nat →
  reads (asn1_octets_loop fuel (pos (pre ++ c)) p len) (λ n t, n = len + Z.of_nat (length c) ∧ at_ (pre ++ c) r t) s.
Proof.
  induction fuel as [|fuel IH]; intros pre c r p len s H Hf; [lia|].
  unfold reads, wp. cbn [asn1_octets_loop]. destruct c as [|ch c].
  - rewrite (at_done _ _ _ H), app_nil_r. split; [cbn; lia|done].
  - rewrite (at_more _ _ _ _ _ H). cbn [length] in *.
    eapply (reads_seq _ _ (λ _, at_ (pre ++ [ch]) (c ++ r))).
    { apply reads_on_fail; [tame|]. eapply reads_seq; [by eapply octet_reads|]. intros ch' t [-> Ht]. by apply store_reads. }
    intros _ t Ht. rewrite (at_step _ _ _ _ _ Ht). eapply reads_mono; [eapply IH; [exact Ht|lia]|].
    intros y u [-> Hu]. split; [lia|]. by rewrite <- app_assoc in Hu.
Qed.

Lemma at_eoc pre c r s : at_ pre (c ++ r) s → u32 (pos (pre ++ c) - pointer s) = Z.of_nat (length c) ∧
  (length c < S (length (msg s)))%nat ∧ Z.of_nat (length c) <= 32000.
Proof.
  intros [Hm Hl _ _ Hp _]. rewrite Hp, pos_app, Hm. unfold pos. rewrite !length_app in *. split_and!; word_lia.
Qed.

Lemma octets_reads pre c r s : at_ pre (c ++ r) s →
  reads (asn1_octets_decode (pos (pre ++ c))) (λ q t, q.2 = Z.of_nat (length c) ∧ at_ (pre ++ c) r t) s.
Proof.
  intros H. destruct (at_eoc _ _ _ _ H) as (Eu & _ & Hc). unfold asn1_octets_decode, reads, wp. rewrite Eu.
  eapply (reads_seq); [eapply kmalloc_reads; [exact H|lia]|]. intros o t [[p ->] Ht]. cbv iota.
  eapply reads_seq; [unfold octets_fuel, reads, wp; eapply octets_loop_reads; [exact Ht|apply (at_eoc _ _ _ _ Ht)]|].
  intros n u [-> Hu]. by split.
Qed.

(** *** Object identifiers *)
Lemma high_bit ch : is_u8 ch → (Z.land ch 128 =? 128) = (128 <=? ch).
Proof.
  intros H. assert (forallb (λ n, eqb (Z.land (Z.of_nat n) 128 =? 128) (128 <=? Z.of_nat n)) (seq 0 256) = true) as F by reflexivity.
  rewrite forallb_forall in F. specialize (F (Z.to_nat ch)). rewrite in_seq, Z2Nat.id in F by word_lia.
  apply eqb_prop, F. word_lia.
Qed.

Lemma subid_loop_reads fuel : ∀ pre h l r x s, at_ pre ((h ++ [l]) ++ r) s → Forall (λ y, 128 <= y < 256) h →
  0 <= l < 128 → (length h < fuel)%nat →
  reads (asn1_subid_loop fuel x) (λ _, at_ (pre ++ h ++ [l]) r) s.
Proof.
  induction fuel as [|fuel IH]; intros pre h l r x s H Hh Hl Hf; [lia|]. cbn [asn1_subid_loop].
  destruct h as [|y h]; cbn [app length] in *.
  - eapply reads_seq; [by eapply octet_reads|]. intros ch t [-> Ht]. cbv zeta. rewrite high_bit by word_lia.
    by destruct (Z.leb_spec 128 l); [lia|].
  - apply Forall_cons_iff in Hh as [Hy Hh]. eapply reads_seq; [by eapply octet_reads|]. intros ch t [-> Ht]. cbv zeta.
    rewrite high_bit by word_lia. destruct (Z.leb_spec 128 y); [|lia].
    eapply reads_mono; [eapply IH; [exact Ht|done|done|lia]|]. intros z u Hu. by rewrite <- app_assoc in Hu.
Qed.

Lemma subid_reads pre x r s : at_ pre (enc_subid x ++ r) s →
  reads asn1_subid_decode (λ _, at_ (pre ++ enc_subid x) r) s.
Proof.
  intros H. destruct (at_eoc _ _ _ _ H) as (_ & Hf & _). unfold enc_subid in *. rewrite length_app in Hf. cbn [length] in Hf.
  eapply subid_loop_reads; [exact H|apply septets_high|lia|lia].
Qed.

Lemma enc_subid_length x : (1 <= length (enc_subid x))%nat.
Proof. unfold enc_subid. rewrite length_app. cbn [length]. lia. Qed.
Lemma subids_length l : (length l <= length (concat (enc_subid <$> l)))%nat.
Proof.
  induction l as [|x l IH]; [cbn; lia|]. rewrite fmap_cons. cbn [concat length]. rewrite length_app.
  pose proof (enc_subid_length x). lia.
Qed.

Lemma oid_loop_reads fuel : ∀ pre l r size p len s, at_ pre (concat (enc_subid <$> l) ++ r) s →
  0 <= len → len + Z.of_nat (length l) <= size → is_u32 size → (length l < fuel)%nat →
  reads (asn1_oid_loop fuel (pos (pre ++ concat (enc_subid <$> l))) size p len)
    (λ n t, n = len + Z.of_nat (length l) ∧ at_ (pre ++ concat (enc_subid <$> l)) r t) s.
Proof.
  induction fuel as [|fuel IH]; intros pre l r size p len s H Hn Hl Hs Hf; [lia|].
  unfold reads, wp. cbn [asn1_oid_loop]. destruct l as [|x l]; [|rewrite fmap_cons in *]; cbn [concat length] in *.
  - cbn [fmap list_fmap concat] in *. rewrite (at_done _ _ _ H), app_nil_r. split; [lia|done].
  - assert ((pointer s <? pos (pre ++ enc_subid x ++ concat (enc_subid <$> l))) = true) as ->.
    { apply Z.ltb_lt. rewrite (at_pointer _ _ _ H), pos_app, length_app. pose proof (enc_subid_length x). unfold pos. lia. }
    assert (u32 (len + 1) = len + 1) as -> by word_lia. destruct (Z.ltb_spec size (len + 1)); [lia|].
    eapply (reads_seq); [by apply store_reads|]. intros z0 t Ht. rewrite <- app_assoc in Ht.
    eapply reads_seq; [apply reads_on_fail; [tame|]; by eapply subid_reads|]. intros y u Hu. rewrite app_assoc.
    eapply reads_mono; [eapply IH; [exact Hu|lia|lia|done|lia]|]. intros n v [-> Hv]. split; [lia|done].
Qed.

Lemma oid_reads pre o r s : at_ pre (enc_oid o ++ r) s → oid_ok o →
  reads (asn1_oid_decode (pos (pre ++ enc_oid o)))
    (λ q t, 0 <= q.2 <= Z.of_nat (length (enc_oid o)) + 1 ∧ at_ (pre ++ enc_oid o) r t) s.
Proof.
  intros H (Ho & _). destruct o as [|a [|a' l]]; [cbn in Ho; lia..|]. cbn [enc_oid] in *.
  set (x := 40 * a + a') in *. destruct (at_eoc _ _ _ _ H) as (Eu & Hf & Hc).
  pose proof (subids_length l) as Hsub. pose proof (enc_subid_length x) as H1.
  set (c := enc_subid x ++ concat (enc_subid <$> l)) in *.
  assert (length c = (length (enc_subid x) + length (concat (enc_subid <$> l)))%nat) as Ec by apply length_app.
  unfold asn1_oid_decode, reads, wp. rewrite Eu.
  assert (u32 (Z.of_nat (length c) + 1) = Z.of_nat (length c) + 1) as -> by word_lia.
  assert (u32 ((Z.of_nat (length c) + 1) * sizeof_long) = (Z.of_nat (length c) + 1) * 4) as -> by (unfold sizeof_long; word_lia).
  eapply (reads_seq); [eapply kmalloc_reads; [exact H|lia]|]. intros q t [[p ->] Ht]. cbv iota.
  unfold c in Ht. rewrite <- app_assoc in Ht.
  eapply reads_seq; [apply reads_on_fail; [tame|]; by eapply subid_reads|]. intros y u Hu.
  eapply reads_seq; [eapply store_reads; exact Hu|]. intros z0 v Hv. unfold c at 1. rewrite app_assoc.
  destruct (at_eoc _ _ _ _ Hv) as (_ & Hf' & _).
  eapply reads_seq; [unfold octets_fuel, reads, wp; eapply oid_loop_reads; [exact Hv|lia|lia|word_lia|lia]|].
  intros n w [-> Hw]. split; [cbn [snd]; lia|]. unfold c. by rewrite app_assoc.
Qed.

(** *** Objects *)
Lemma new_object_reads pre r len s : at_ pre r s → 0 <= len <= 131056 →
  reads (new_object len) (λ _, at_ pre r) s.
Proof.
  intros H Hl. unfold new_object. assert (u32 (sizeof_snmp_object + len) = 16 + len) as -> by (unfold sizeof_snmp_object; word_lia).
  eapply reads_seq; [eapply kmalloc_reads; [exact H|lia]|]. by intros q t [[p ->] Ht].
Qed.

Definition value_tag (v : value) : Z :=
  match v with
  | Null => 5 | NoSuchObject => 128 | NoSuchInstance => 129 | EndOfMibView => 130 | Integer _ => 2
  | OctetString _ => 4 | Opaque _ => 68 | ObjectId _ => 6 | IpAddress _ _ => 64 | Counter _ => 65
  | Gauge _ => 66 | TimeTicks _ => 67 | BitString _ => 3 | Counter64 _ => 70
  end.
Definition value_content (v : value) : list Z :=
  match v with
  | Null | NoSuchObject | NoSuchInstance | EndOfMibView => []
  | Integer z | Counter z | Gauge z | TimeTicks z => enc_int z
  | OctetString c | Opaque c | BitString c | Counter64 c => c
  | ObjectId o => enc_oid o
  | IpAddress a r => a :: r
  end.
Definition value_type (v : value) : Z :=
  match v with
  | Null => SNMP_NULL | NoSuchObject => SNMP_NOSUCHOBJECT | NoSuchInstance => SNMP_NOSUCHINSTANCE
  | EndOfMibView => SNMP_ENDOFMIBVIEW | Integer _ => SNMP_INTEGER | OctetString _ => SNMP_OCTETSTR
  | Opaque _ => SNMP_OPAQUE | ObjectId _ => SNMP_OBJECTID | IpAddress _ _ => SNMP_IPADDR
  | Counter _ => SNMP_COUNTER | Gauge _ => SNMP_GAUGE | TimeTicks _ => SNMP_TIMETICKS
  | BitString _ => SNMP_BITSTR | Counter64 _ => SNMP_COUNTER64
  end.
Lemma enc_value_tlv v : enc_value v = tlv (value_tag v) (value_content v).
Proof. by destruct v. Qed.

Lemma null_reads pre r s : at_ pre r s → reads (asn1_null_decode (pos (pre ++ []))) (λ _, at_ (pre ++ []) r) s.
Proof. rewrite app_nil_r. intros []. by split. Qed.

Lemma plain_reads pre r len s : at_ pre r s → 0 <= len <= 131056 →
  reads (o ← new_object len; _ ← store o (sizeof_snmp_object + len); mret (o, len)) (λ _, at_ pre r) s.
Proof.
  intros H Hl. eapply reads_seq; [by eapply new_object_reads|]. intros o t Ht.
  eapply reads_seq; [eapply store_reads; exact Ht|]. by intros [] u Hu.
Qed.
Lemma copy_reads pre r len p s : at_ pre r s → 0 <= len <= 131056 →
  reads (o ← new_object len; _ ← store o (sizeof_snmp_object + len); _ ← kfree p; mret (o, len)) (λ _, at_ pre r) s.
Proof.
  intros H Hl. eapply reads_seq; [by eapply new_object_reads|]. intros o t Ht.
  eapply reads_seq; [eapply store_reads; exact Ht|]. intros [] u Hu.
  eapply reads_seq; [eapply kfree_reads; exact Hu|]. by intros [] v Hv.
Qed.

Lemma value_reads pre v r s : at_ pre (value_content v ++ r) s → value_ok v → (known_value v = false → bad) →
  reads (snmp_value_decode (value_type v) (pos (pre ++ value_content v)))
    (λ _ t, known_value v = true ∧ at_ (pre ++ value_content v) r t) s.
Proof.
  intros H Hv Hbad. destruct (known_value v) eqn:Ek.
  2: destruct v; try discriminate Ek; by apply Hbad.
  eapply (reads_mono _ (λ _, at_ (pre ++ value_content v) r)); [|done]. clear Hbad. destruct (at_eoc _ _ _ _ H) as (_ & _ & Hc).
  assert (∀ eoc, eoc = pos (pre ++ []) → at_ pre r s →
    reads (o ← new_object 0; _ ← on_fail (kfree o) (asn1_null_decode eoc); mret (o, 0)) (λ _, at_ (pre ++ []) r) s) as Hnull.
  { intros eoc -> H'. eapply reads_seq; [by eapply new_object_reads|]. intros o t Ht.
    eapply reads_seq; [apply reads_on_fail; [tame|]; eapply null_reads; exact Ht|]. by intros [] u Hu. }
  assert (∀ c, at_ pre (c ++ r) s → ulong_ok c →
    reads (_ ← asn1_ulong_decode (pos (pre ++ c)); o ← new_object 4; _ ← store o (sizeof_snmp_object + 4); mret (o, 4))
      (λ _, at_ (pre ++ c) r) s) as Hulong.
  { intros c H' Hu. eapply reads_seq; [by eapply ulong_reads|]. intros y t [_ Ht]. by apply plain_reads. }
  assert (∀ c, at_ pre (c ++ r) s → Z.of_nat (length c) <= 32000 →
    reads ('(p, len) ← asn1_octets_decode (pos (pre ++ c)); o ← new_object len;
           _ ← store o (sizeof_snmp_object + len); _ ← kfree p; mret (o, len)) (λ _, at_ (pre ++ c) r) s) as Hoctets.
  { intros c H' Hl. eapply reads_seq; [by eapply octets_reads|]. intros [p len] t [E Ht]. cbn [snd] in E.
    apply copy_reads; [done|lia]. }
  destruct v; try discriminate Ek; cbn [value_content value_ok] in *; unfold snmp_value_decode, value_type;
    repeat match goal with |- context [if ?c then _ else _] => let x := eval vm_compute in c in change c with x; cbv iota end.
  1-4: by apply Hnull.
  - eapply reads_seq; [eapply long_reads; [exact H|by apply enc_int_long]|]. intros y t Ht. by apply plain_reads.
  - by apply Hoctets.
  - by apply Hoctets.
  - eapply reads_seq; [by eapply oid_reads|]. intros [p len] t [E Ht]. cbn [snd] in E. cbv zeta.
    apply copy_reads; [done|]. unfold sizeof_long. word_lia.
  - destruct Hv as [_ Hr]. eapply reads_seq; [by eapply octets_reads|]. intros [p len] t [E Ht]. cbn [snd length] in E.
    eapply (reads_seq _ _ (λ _, at_ (pre ++ a :: r0) r)).
    { apply reads_on_fail; [tame|]. eapply (reads_seq _ _ (λ _, at_ (pre ++ a :: r0) r)); [apply reads_require; [apply Z.eqb_eq; lia|done]|].
      intros _ u Hu. eapply new_object_reads; [exact Hu|lia]. }
    intros o u Hu. eapply reads_seq; [eapply store_reads; exact Hu|]. intros [] w Hw.
    eapply reads_seq; [eapply kfree_reads; exact Hw|]. by intros [] x Hx.
  - by apply Hulong, enc_int_ulong.
  - by apply Hulong, enc_int_ulong.
  - by apply Hulong, enc_int_ulong.
Qed.

Lemma header_step {B} (k : Z * Z * Z * Z → M B) pre tag c r Q s :
  at_ pre (tlv tag c ++ r) s → Z.land tag 31 ≠ 31 →
  (∀ t, at_ (pre ++ hdr tag c) (c ++ r) t →
    reads (k (pos ((pre ++ hdr tag c) ++ c), (ident tag).1.1, (ident tag).1.2, (ident tag).2)) Q t) →
  reads (asn1_header_decode ≫= k) Q s.
Proof.
  intros H Ht Hk. eapply reads_seq; [by eapply header_reads|]. intros q t [-> H']. rewrite app_assoc. by apply Hk.
Qed.

Lemma require_step {B} (k : () → M B) x pre r Q s : at_ pre r s → x = true →
  (∀ t, at_ pre r t → reads (k ()) Q t) → reads (require x ≫= k) Q s.
Proof. intros H -> Hk. by apply Hk. Qed.

(** A header with the expected identifier. *)
Ltac expect H t Ht :=
  eapply header_step; [exact H|done|]; clear H; intros t H; cbn beta iota;
  eapply require_step; [exact H|reflexivity|]; clear t H; intros t Ht.

Lemma eoc_returns pre r (Q : () → snmp → Prop) R s : at_ pre r s → Q () s →
  wp True (λ _, False) (asn1_eoc_decode (pos pre)) Q R s.
Proof.
  intros H HQ. unfold asn1_eoc_decode. destruct (Z.eqb_spec (pos pre) 0) as [E|_]; [unfold pos in E; lia|].
  unfold wp. rewrite (at_pointer _ _ _ H), Z.eqb_refl. exact HQ.
Qed.
Lemma eoc_reads pre r (Q : () → snmp → Prop) s : at_ pre r s → Q () s → reads (asn1_eoc_decode (pos pre)) Q s.
Proof. apply eoc_returns. Qed.

Lemma value_ident v : Z.land (value_tag v) 31 ≠ 31 ∧ (ident (value_tag v)).1.2 = ASN1_PRI ∧
  cls2syntax snmp_conv (ident (value_tag v)).2 (ident (value_tag v)).1.1 = Some (value_type v).
Proof. by destruct v. Qed.

Lemma object_reads pre v r s : at_ pre (enc_vb v ++ r) s → vb_ok v → (known_vb v = false → bad) →
  reads snmp_object_decode
    (λ _ t, known_vb v = true ∧ at_ (pre ++ enc_vb v) r t ∧ ∃ o, obj t = Some o ∧ o_type o = value_type (vb_value v)) s.
Proof.
  intros H [Ho Hv] Hbad. unfold snmp_object_decode, enc_vb in *.
  set (name := tlv 6 (enc_oid (vb_name v))) in *. rewrite enc_value_tlv in *.
  set (body := name ++ tlv (value_tag (vb_value v)) (value_content (vb_value v))) in *.
  eapply (reads_seq _ _ (λ _, at_ pre (tlv 48 body ++ r))); [by destruct H|]. intros [] s1 H1.
  expect H1 s2 H2. unfold body at 2 in H2. rewrite <- app_assoc in H2. unfold name at 1 in H2.
  expect H2 s3 H3.
  eapply reads_seq; [eapply oid_reads; [exact H3|exact Ho]|]. intros [id n] s4 [_ H4]. clear H3. cbn [fst snd].
  destruct (value_ident (vb_value v)) as (Hi1 & Hi2 & Hi3).
  eapply (reads_seq _ _ (λ q t, (q.1.1 = value_type (vb_value v) ∧ known_vb v = true) ∧ at_ (pre ++ tlv 48 body) r t)).
  - apply reads_on_fail; [tame|]. eapply header_step; [exact H4|done|]. clear H4. intros s5 H5. cbn beta iota.
    rewrite Hi2. eapply require_step; [exact H5|reflexivity|]. intros s6 H6.
    unfold snmp_tag_cls2syntax. rewrite Hi3. cbn [mbind]. 
    eapply (reads_seq _ _ (λ q t, q = value_type (vb_value v) ∧ at_ _ _ t)); [split; [done|exact H6]|].
    intros q s7 [-> H7]. eapply reads_seq; [eapply value_reads; [exact H7|exact Hv|exact Hbad]|]. intros [o len] s8 [Hk H8]. apply wp_ret. cbn [fst].
    split; [done|]. change (tlv 48 body) with (hdr 48 body ++ body). unfold body at 2, name.
    by rewrite !tlv_app, <- !app_assoc in *.
  - intros [[type o] len] s5 [[E5 Hk] H5]. cbn [fst] in E5. subst type.
    eapply (reads_seq _ _ (λ _ t, at_ (pre ++ tlv 48 body) r t ∧ obj t = Some (mk_obj o id n (value_type (vb_value v)) len))).
    { split; [by destruct H5|done]. }
    intros [] s6 [H6 E6]. apply reads_on_fail; [tame|]. rewrite <- app_assoc, <- tlv_app.
    eapply eoc_reads; [exact H6|]. do 2 (split; [done|]). by eexists.
Qed.

(** *** Addresses *)
Context (map : oct1_map).

Lemma mangle_reads pre a q r s : at_ (pre ++ a :: q) r s → is_u8 a → length q = 3%nat →
  reads (mangle_last map) (λ _, at_ (pre ++ map_octet map a :: q) r) s.
Proof.
  intros H Ha Hq. pose proof (at_pointer _ _ _ H) as Hp. rewrite length_app in Hp. cbn [length] in Hp. rewrite Hq in Hp.
  unfold reads, wp, mangle_last, mangle_address, mbind, snmp_bind, load.
  pose proof (at_begin _ _ _ H) as Hbg. pose proof (at_len _ _ _ H) as Hl. rewrite !length_app in Hl. cbn [length] in Hl.
  assert (u32 (pointer s - 4) = b + Z.of_nat (length pre)) as -> by word_lia. rewrite Hbg.
  destruct (Z.ltb_spec (b + Z.of_nat (length pre)) b); [lia|].
  assert (Z.to_nat (b + Z.of_nat (length pre) - b) = length pre) as E by lia. rewrite E.
  rewrite (at_msg _ _ _ H), <- app_assoc. cbn [app]. rewrite list_lookup_middle by done.
  rewrite NOCT1_id by done. unfold map_octet. destruct (from map =? a); [|done].
  unfold modify. rewrite Hbg, E.
  assert (∀ t, msg t = <[length pre := to map]> (msg s) → begin_ t = begin_ s → end_ t = end_ s → pointer t = pointer s →
    oom t = oom s → at_ (pre ++ to map :: q) r t) as Hat.
  { intros t E1 E2 E3 E4 E5. destruct H as [Hm ? ? ? ? ?]. split; rewrite ?E1, ?E2, ?E3, ?E4, ?E5; try done.
    - rewrite Hm, <- !app_assoc. cbn [app]. by rewrite insert_app_r_alt, Nat.sub_diag by lia.
    - rewrite !length_app. cbn [length]. lia.
    - rewrite Hp, length_app. cbn [length]. lia. }
  cbn [check update upd_msg]. destruct (negb (check s =? 0)); by apply Hat.
Qed.

(** The object that was read is the last thing before the pointer. *)
Lemma mangle_object_reads pre v r s : vb_ok v → at_ (pre ++ enc_vb v) r s →
  (∃ o, obj s = Some o ∧ o_type o = value_type (vb_value v)) →
  reads (mangle_object map) (λ _, at_ (pre ++ enc_vb (translate_vb map v)) r) s.
Proof.
  intros [_ Hv] H (o & Eo & Et). unfold reads, wp, mangle_object. rewrite Eo, Et. destruct v as [nm v].
  cbn [vb_value vb_name translate_vb] in *. destruct v; try exact H. change (value_type _ =? SNMP_IPADDR) with true. cbv iota.
  destruct Hv as [Ha Hr]. apply Forall_cons_iff in Ha as [Ha _].
  change (reads (mangle_last map) (λ _, at_ (pre ++ tlv 48 (tlv 6 (enc_oid nm) ++ tlv 64 (map_octet map a :: r0))) r) s).
  change (enc_vb _) with (tlv 48 (tlv 6 (enc_oid nm) ++ tlv 64 (a :: r0))) in H.
  set (X := pre ++ hdr 48 (tlv 6 (enc_oid nm) ++ tlv 64 (a :: r0)) ++ tlv 6 (enc_oid nm) ++ hdr 64 (a :: r0)).
  assert (∀ c, pre ++ tlv 48 (tlv 6 (enc_oid nm) ++ tlv 64 (c :: r0)) = X ++ c :: r0) as EX.
  { intros c. unfold X. rewrite (tlv_app 48).
    assert (hdr 48 (tlv 6 (enc_oid nm) ++ tlv 64 (c :: r0)) = hdr 48 (tlv 6 (enc_oid nm) ++ tlv 64 (a :: r0))) as ->
      by (unfold hdr; by rewrite !length_app, !tlv_length).
    by rewrite (tlv_app 64 (c :: r0)), <- !app_assoc. }
  rewrite EX in H. eapply reads_mono; [by apply mangle_reads|]. intros [] t. by rewrite EX.
Qed.

Lemma free_object_reads pre r s : at_ pre r s → reads free_object (λ _, at_ pre r) s.
Proof.
  intros H. unfold reads, wp, free_object. destruct (obj s); [|done].
  eapply (reads_seq); [eapply kfree_reads; exact H|]. intros [] t Ht. by apply kfree_reads.
Qed.

Lemma enc_vb_length v : (1 <= length (enc_vb v))%nat.
Proof. unfold enc_vb, tlv. cbn [length]. lia. Qed.
Lemma translate_vb_length v : length (enc_vb (translate_vb map v)) = length (enc_vb v).
Proof. destruct v as [nm []]; [done..| |done|done|done|done|done]. unfold enc_vb. cbn [translate_vb translate_value vb_name vb_value enc_value]. by rewrite !tlv_length, !length_app, !tlv_length. Qed.
Lemma translate_vbs_length vbs :
  length (concat (enc_vb <$> (translate_vb map <$> vbs))) = length (concat (enc_vb <$> vbs)).
Proof.
  induction vbs as [|v vbs IH]; [done|]. rewrite !fmap_cons. cbn [concat]. by rewrite !length_app, translate_vb_length, IH.
Qed.

Lemma objects_reads fuel : ∀ pre vbs r o eoc s, at_ pre (concat (enc_vb <$> vbs) ++ r) s → Forall vb_ok vbs →
  eoc = pos (pre ++ concat (enc_vb <$> vbs)) → (length vbs < fuel)%nat → (forallb known_vb vbs = false → bad) →
  reads (snmp_objects fuel map eoc o)
    (λ _ t, forallb known_vb vbs = true ∧ at_ (pre ++ concat (enc_vb <$> (translate_vb map <$> vbs))) r t) s.
Proof.
  induction fuel as [|fuel IH]; intros pre vbs r o eoc s H Hv He Hf Hbad; [lia|]. cbn [snmp_objects].
  destruct vbs as [|v vbs].
  - cbn [fmap list_fmap concat app] in *. rewrite app_nil_r in *. subst eoc.
    eapply (reads_seq _ _ (λ x t, x = true ∧ at_ pre r t)); [|by intros ? t [-> Ht]].
    apply wp_attempt. by eapply eoc_returns.
  - rewrite !fmap_cons in *. cbn [concat length] in *. apply Forall_cons_iff in Hv as [Hv1 Hv]. rewrite <- app_assoc in H.
    eapply (reads_seq _ _ (λ x t, x = false ∧ at_ pre (enc_vb v ++ concat (enc_vb <$> vbs) ++ r) t)).
    { apply wp_attempt. unfold asn1_eoc_decode. destruct (Z.eqb_spec eoc 0) as [E|_]; [unfold pos in *; lia|].
      unfold wp. destruct (Z.eqb_spec (pointer s) eoc) as [E|_]; [|cbn; split; [done|]; by destruct H].
      rewrite (at_pointer _ _ _ H), He, pos_app, length_app in E. pose proof (enc_vb_length v). unfold pos in E. lia. }
    intros x t [-> Ht]. eapply reads_seq; [apply reads_on_fail; [tame|]; eapply object_reads; [exact Ht|done|]|].
    { intros E. apply Hbad. cbn [forallb]. by rewrite E. }
    intros [] u (Hk & Hu & Eu). cbn [forallb] in *. rewrite Hk in *. eapply reads_seq; [by eapply mangle_object_reads|]. intros [] w Hw.
    eapply reads_seq; [eapply free_object_reads; exact Hw|]. intros [] y Hy.
    rewrite app_assoc. eapply IH; [exact Hy|done| |lia|done]. rewrite He, !pos_app, !length_app, translate_vb_length. lia.
Qed.

(** *** Whole messages *)

(** An INTEGER (or TimeTicks) is expected and read. *)
Ltac field H t R ok :=
  expect H t H; eapply reads_seq; [eapply R; [exact H|apply ok; done]|]; clear t H;
  intros ? t [_ H]; rewrite <- app_assoc, <- tlv_app in H.

Lemma request_reads pre i st ix r s : int32 i → int32 st → int32 ix →
  at_ pre (tlv 2 (enc_int i) ++ tlv 2 (enc_int st) ++ tlv 2 (enc_int ix) ++ r) s →
  reads snmp_request_decode (λ _, at_ (pre ++ tlv 2 (enc_int i) ++ tlv 2 (enc_int st) ++ tlv 2 (enc_int ix)) r) s.
Proof.
  intros Hi Hs Hx H. unfold snmp_request_decode. field H t ulong_reads int32_ulong.
  field H t' uint_reads int32_ulong. field H t'' uint_reads int32_ulong.
  apply wp_ret. by rewrite <- !app_assoc in H.
Qed.

Lemma trap_reads pre e a q g sp tm r s : oid_ok e → is_u8 a → length q = 3%nat → int32 g → int32 sp → is_u32 tm →
  at_ pre (tlv 6 (enc_oid e) ++ tlv 64 (a :: q) ++ tlv 2 (enc_int g) ++ tlv 2 (enc_int sp) ++ tlv 67 (enc_int tm) ++ r) s →
  reads (snmp_trap_decode map)
    (λ _, at_ (pre ++ tlv 6 (enc_oid e) ++ tlv 64 (map_octet map a :: q) ++ tlv 2 (enc_int g) ++ tlv 2 (enc_int sp)
               ++ tlv 67 (enc_int tm)) r) s.
Proof.
  intros He Ha Hq Hg Hsp Htm H. unfold snmp_trap_decode. expect H t H.
  eapply reads_seq; [eapply oid_reads; [exact H|exact He]|]. clear t H. intros [id n] t [_ H].
  rewrite <- app_assoc, <- tlv_app in H. apply reads_on_fail; [tame|].
  expect H u H. eapply reads_seq; [eapply octets_reads; exact H|]. clear u H. intros [ip len] u [E H]. cbn [snd length] in E.
  apply reads_on_fail; [tame|]. eapply require_step; [exact H|apply Z.eqb_eq; lia|]. clear u H. intros u H.
  eapply reads_seq; [eapply mangle_reads; [exact H|done|done]|]. clear u H. intros [] u H.
  change (hdr 64 (a :: q)) with (hdr 64 (map_octet map a :: q)) in H. rewrite <- app_assoc, <- tlv_app in H.
  field H t1 uint_reads int32_ulong. field H t2 uint_reads int32_ulong. field H t3 ulong_reads enc_int_ulong.
  apply wp_ret. by rewrite <- !app_assoc in H.
Qed.

Lemma vbs_reads pre vbs r fuel s : at_ pre (enc_vbs vbs ++ r) s → Forall vb_ok vbs →
  (length vbs < fuel)%nat → (forallb known_vb vbs = false → bad) →
  reads ('(eoc, cls, con, tag) ← asn1_header_decode;
         _ ← require (is_hdr cls con tag ASN1_UNI ASN1_CON ASN1_SEQ);
         o ← kmalloc sizeof_snmp_object;
         match o with
         | None => fail
         | Some o => _ ← snmp_objects fuel map eoc o; _ ← kfree o; asn1_eoc_decode eoc
         end) (λ _ t, forallb known_vb vbs = true ∧ at_ (pre ++ enc_vbs (translate_vb map <$> vbs)) r t) s.
Proof.
  intros H Hv Hf Hbad. unfold enc_vbs in *. expect H t H.
  eapply reads_seq; [eapply kmalloc_reads; [exact H|unfold sizeof_snmp_object; lia]|]. clear t H. intros o t [[p ->] H]. cbv iota.
  eapply reads_seq; [eapply objects_reads; [exact H|done|reflexivity|done|exact Hbad]|]. clear t H. intros [] t [Hk H].
  eapply reads_seq; [eapply kfree_reads; exact H|]. clear t H. intros [] t H.
  set (c := concat (enc_vb <$> vbs)) in *. set (c' := concat (enc_vb <$> (translate_vb map <$> vbs))) in *.
  assert (length c' = length c) as El by apply translate_vbs_length.
  assert (hdr 48 c = hdr 48 c') as Eh by (unfold hdr; by rewrite El). rewrite Eh in *.
  rewrite pos_app, <- El, <- pos_app. eapply eoc_reads; [exact H|]. split; [done|]. by rewrite tlv_app, app_assoc.
Qed.

Definition pdu_vbs (p : pdu) : list varbind :=
  match p with Response _ _ _ vbs | Trap2 _ _ _ vbs | Trap1 _ _ _ _ _ _ vbs => vbs | OtherPdu _ _ => [] end.
Definition known_pdu (p : pdu) : bool := forallb known_vb (pdu_vbs p).

(** A header and the PDU in it. *)
Definition pdu_tag (p : pdu) : Z :=
  match p with Response _ _ _ _ => 162 | Trap2 _ _ _ _ => 167 | Trap1 _ _ _ _ _ _ _ => 164 | OtherPdu t _ => t end.
Definition pdu_content (p : pdu) : list Z :=
  match p with
  | Response i s x vbs | Trap2 i s x vbs => enc_request i s x vbs
  | Trap1 e a r g sp t vbs =>
      tlv 6 (enc_oid e) ++ tlv 64 (a :: r) ++ tlv 2 (enc_int g) ++ tlv 2 (enc_int sp) ++ tlv 67 (enc_int t) ++ enc_vbs vbs
  | OtherPdu _ c => c
  end.
Lemma enc_pdu_tlv p : enc_pdu p = tlv (pdu_tag p) (pdu_content p).
Proof. by destruct p. Qed.
Lemma translate_content_length p : length (pdu_content (translate_pdu map p)) = length (pdu_content p).
Proof.
  destruct p; cbn [translate_pdu pdu_content]; unfold enc_request, enc_vbs; try done;
    by rewrite !length_app, !tlv_length, !translate_vbs_length.
Qed.
Lemma translate_hdr p : hdr (pdu_tag p) (pdu_content p) = hdr (pdu_tag (translate_pdu map p)) (pdu_content (translate_pdu map p)).
Proof. unfold hdr. rewrite translate_content_length. by destruct p. Qed.

(** The part of [snmp_parse_mangle] after the header of the PDU. *)
Definition parse_pdu (fuel : nat) (pdutype : Z) : M () :=
  if negb (pdutype =? SNMP_PDU_RESPONSE) && negb (pdutype =? SNMP_PDU_TRAP1)
     && negb (pdutype =? SNMP_PDU_TRAP2) then mret ()
  else
    _ ← (if pdutype =? SNMP_PDU_TRAP1
         then '(id, ip_address) ← snmp_trap_decode map; _ ← kfree id; kfree ip_address
         else snmp_request_decode);
    '(eoc, cls, con, tag) ← asn1_header_decode;
    _ ← require (is_hdr cls con tag ASN1_UNI ASN1_CON ASN1_SEQ);
    o ← kmalloc sizeof_snmp_object;
    match o with
    | None => fail
    | Some o => _ ← snmp_objects fuel map eoc o; _ ← kfree o; asn1_eoc_decode eoc
    end.

Lemma parse_pdu_reads pre p r fuel s : pdu_ok p → (length (pdu_vbs p) < fuel)%nat → at_ pre (pdu_content p ++ r) s →
  (known_pdu p = false → bad) →
  reads (parse_pdu fuel (ident (pdu_tag p)).2)
    (λ _ t, known_pdu p = true ∧ msg t = pre ++ pdu_content (translate_pdu map p) ++ r) s.
Proof.
  intros Hp Hf H Hbad. unfold known_pdu in *. assert (∀ q t, at_ (pre ++ q) r t → msg t = pre ++ q ++ r) as Hend.
  { intros q t []. by rewrite app_assoc. }
  assert (∀ i st x vbs, pdu_ok (Response i st x vbs) → (length vbs < fuel)%nat → at_ pre (enc_request i st x vbs ++ r) s →
    (forallb known_vb vbs = false → bad) →
    reads (parse_pdu fuel SNMP_PDU_RESPONSE) (λ _ t, forallb known_vb vbs = true ∧ msg t = pre ++ enc_request i st x (translate_vb map <$> vbs) ++ r) s) as Hreq.
  { intros i st x vbs (Hi & Hs & Hx & Hv) Hf' H' Hk. unfold enc_request in *. rewrite <- !app_assoc in H'.
    eapply reads_seq; [eapply request_reads; [..|exact H']; done|]. intros [] t Ht.
    eapply reads_mono; [eapply vbs_reads; [exact Ht|done|done|done]|]. intros [] u [? Hu]. split; [done|]. apply Hend. by rewrite <- !app_assoc in *. }
  destruct p; cbn [pdu_content pdu_tag pdu_vbs translate_pdu] in *.
  - by apply Hreq.
  - by apply Hreq.
  - destruct Hp as (He & Ha & Hq & Hg & Hsp & Ht & Hv). apply Forall_cons_iff in Ha as [Ha _]. rewrite <- !app_assoc in H.
    unfold parse_pdu. change (ident 164).2 with SNMP_PDU_TRAP1. change (SNMP_PDU_TRAP1 =? SNMP_PDU_TRAP1) with true. cbv iota.
    eapply (reads_seq); [eapply reads_seq; [eapply trap_reads; [..|exact H]; done|]|].
    + intros [id ip] t Ht'. eapply reads_seq; [eapply kfree_reads; exact Ht'|]. intros [] u Hu. eapply kfree_reads. exact Hu.
    + intros [] t Ht'. eapply reads_mono; [eapply vbs_reads; [exact Ht'|done|done|done]|]. intros [] u [? Hu]. split; [done|]. apply Hend.
      by rewrite <- !app_assoc in *.
  - destruct Hp as [Ht _]. assert (msg s = pre ++ content ++ r) as Hm by apply H. clear Hreq.
    repeat (apply elem_of_cons in Ht as [->|Ht]; [by split|]). by apply elem_of_nil in Ht.
Qed.

Lemma parse_reads fuel x s : message_ok x → Z.of_nat (length (encode x)) = N → (length (pdu_vbs (body x)) < fuel)%nat →
  msg s = encode x → oom s = [] → (known_pdu (body x) = false → bad) →
  reads (snmp_parse_mangle fuel b N map) (λ _ t, known_pdu (body x) = true ∧ msg t = encode (translate map x)) s.
Proof.
  intros ([Hv0 Hv1] & Hc & Hp & _) HNx Hf Hm Ho Hbad. unfold snmp_parse_mangle.
  set (C := tlv 2 (enc_int (version x)) ++ tlv 4 (community x) ++ enc_pdu (body x)).
  eapply (reads_seq _ _ (λ _, at_ [] (tlv 48 C ++ []))).
  { rewrite app_nil_r. split; cbn; try done; [word_lia|lia]. }
  intros [] t H. expect H t1 H. unfold C at 2 in H. rewrite <- !app_assoc in H.
  expect H t2 H. eapply reads_seq; [eapply uint_reads; [exact H|apply int32_ulong; unfold int32; lia]|].
  clear t2 H. intros vers t2 [-> H]. rewrite <- app_assoc, <- tlv_app in H.
  assert (foldl add_octet (hd 0 (enc_int (version x))) (tl (enc_int (version x))) = version x) as ->.
  { assert (version x = 0 ∨ version x = 1) as [-> | ->] by lia; reflexivity. }
  destruct (Z.ltb_spec 1 (version x)); [lia|].
  expect H t3 H. eapply reads_seq; [eapply octets_reads; exact H|]. clear t3 H. intros [comm n] t3 [_ H].
  rewrite <- app_assoc, <- tlv_app, enc_pdu_tlv in H.
  eapply reads_seq; [eapply kfree_reads; exact H|]. clear t3 H. intros [] t3 H.
  assert (Z.land (pdu_tag (body x)) 31 ≠ 31 ∧ (ident (pdu_tag (body x))).1.1 = ASN1_CTX ∧ (ident (pdu_tag (body x))).1.2 = ASN1_CON) as (Hi & Hi1 & Hi2).
  { destruct (body x) as [| | |tg ct]; try done. destruct Hp as [Ht _]. cbn [pdu_tag].
    repeat (apply elem_of_cons in Ht as [->|Ht]; [done|]). by apply elem_of_nil in Ht. }
  eapply header_step; [exact H|done|]. clear t3 H. intros t3 H. cbn beta iota. rewrite Hi1, Hi2.
  eapply require_step; [exact H|reflexivity|]. clear t3 H. intros t3 H.
  eapply reads_mono; [eapply parse_pdu_reads; [exact Hp|exact Hf|exact H|exact Hbad]|]. intros [] u [Hk Hu]. split; [exact Hk|]. rewrite Hu.
  unfold encode, translate. cbn [version community body].
  set (C' := tlv 2 (enc_int (version x)) ++ tlv 4 (community x) ++ enc_pdu (translate_pdu map (body x))).
  assert (hdr 48 C = hdr 48 C') as ->.
  { unfold hdr, C, C'. by rewrite !enc_pdu_tlv, !length_app, !tlv_length, translate_content_length. }
  change (tlv 48 C') with (hdr 48 C' ++ C'). unfold C' at 3. rewrite enc_pdu_tlv, (tlv_app (pdu_tag (translate_pdu map (body x)))), translate_hdr.
  cbn [app]. by rewrite <- !app_assoc, app_nil_r.
Qed.

End Reading.
