(* ===== verification/SnmpSpec.v ===== *)
(** * The SNMP helper: theorems

    What the helper does with any octets ([snmp_books]) and with well-formed messages
    ([snmp_translates]); the lemmas at the end show how a crafted message defeats it. *)
From S2P Require Import Prelude Packet CtBase CtProtos Conntrack NatProto Csum Snmp SnmpFacts SnmpMessages.

(** ** Encodings are octets *)
Lemma tlv_u8 t c : is_u8 t → Z.of_nat (length c) < 65536 → Forall is_u8 c → Forall is_u8 (tlv t c).
Proof. intros Ht Hl Hc. constructor; [done|]. apply Forall_app. split; [apply enc_len_u8; lia|done]. Qed.

Lemma tlv_long t c : (length c <= length (tlv t c))%nat.
Proof. rewrite tlv_length. lia. Qed.

Lemma enc_subid_u8 x : Forall is_u8 (enc_subid x).
Proof.
  unfold enc_subid. apply Forall_app. split.
  { eapply Forall_impl; [|exact (septets_high 4 (x / 128))]. intros y Hy. word_lia. }
  repeat constructor; word_lia.
Qed.
Lemma concat_u8 {A} (f : A → list Z) (P : A → Prop) l : (∀ x, P x → Forall is_u8 (f x)) → Forall P l →
  Forall is_u8 (concat (f <$> l)).
Proof. intros Hf. induction 1; [done|]. cbn [fmap list_fmap concat]. apply Forall_app. eauto. Qed.
Lemma enc_oid_u8 o : Forall is_u8 (enc_oid o).
Proof.
  destruct o as [|a [|a' o]]; [done..|]. apply Forall_app. split; [apply enc_subid_u8|].
  apply (concat_u8 _ (λ _, True)); [intros; apply enc_subid_u8|by apply Forall_true].
Qed.

(** [fits c]: [c] is short enough for the encoding of lengths. *)
Definition fits (c : list Z) : Prop := Z.of_nat (length c) <= 32000.

Lemma fits_tlv t c : fits (tlv t c) → fits c.
Proof. unfold fits. pose proof (tlv_long t c). lia. Qed.
Lemma fits_app c c' : fits (c ++ c') → fits c ∧ fits c'.
Proof. unfold fits. rewrite length_app. lia. Qed.

Lemma fits_tlv_u8 t c : is_u8 t → fits (tlv t c) → (fits c → Forall is_u8 c) → Forall is_u8 (tlv t c).
Proof. intros Ht Hf Hc. apply fits_tlv in Hf. apply tlv_u8; [done| |by apply Hc]. unfold fits in Hf. lia. Qed.
Lemma fits_app_u8 c c' : fits (c ++ c') → (fits c → Forall is_u8 c) → (fits c' → Forall is_u8 c') → Forall is_u8 (c ++ c').
Proof. intros [? ?]%fits_app ? ?. apply Forall_app. auto. Qed.

(** [octets] proves that an encoding consists of octets, along its structure; [tac] is
    for the parts that are known. *)
Ltac octets tac := repeat first
  [ assumption | tac | apply enc_int_u8 | apply enc_oid_u8
  | apply fits_tlv_u8; [word_lia|assumption|intros ?] | apply fits_app_u8; [assumption|intros ?..] ].

Lemma enc_value_u8 v : value_ok v → fits (enc_value v) → Forall is_u8 (enc_value v).
Proof. destruct v; cbn [value_ok enc_value]; intros Hv Hf; octets ltac:(fail); try done. apply Hv. Qed.
Lemma enc_vb_u8 v : vb_ok v → fits (enc_vb v) → Forall is_u8 (enc_vb v).
Proof. intros [_ Hv] Hf. unfold enc_vb in *. octets ltac:(fail). by apply enc_value_u8. Qed.
Lemma enc_vbs_u8 vbs : Forall vb_ok vbs → fits (enc_vbs vbs) → Forall is_u8 (enc_vbs vbs).
Proof.
  intros Hv Hf. unfold enc_vbs in *. octets ltac:(fail). clear Hf. rename H into Hf.
  induction Hv as [|v vbs Hv1 Hv IH]; [done|]. rewrite fmap_cons in *. cbn [concat] in *.
  apply fits_app_u8; [done|intros ?; by apply enc_vb_u8|exact IH].
Qed.
Lemma encode_u8 x : message_ok x → Forall is_u8 (encode x).
Proof.
  intros (Hv & Hc & Hp & Hl). assert (fits (encode x)) as Hf by exact Hl. clear Hl. unfold encode in *.
  octets ltac:(fail). destruct (body x); cbn [enc_pdu pdu_ok] in *; unfold enc_request in *;
    octets ltac:(apply enc_vbs_u8; [tauto|assumption]); try tauto.
  destruct Hp as [Ht Hct]. apply fits_tlv_u8; [|done|done].
  repeat (apply elem_of_cons in Ht as [->|Ht]; [word_lia|]). by apply elem_of_nil in Ht.
Qed.

(** ** Any octets *)

(** C30: The books of the SNMP parser.  Whatever the octets of a packet are, and whichever
    allocations fail, [snmp_parse_mangle] never stores outside a block of the heap and never
    frees what is not allocated.  At every time, blocks of others are untouched, no octet
    was changed but from the one to be replaced to its replacement, and the checksum was
    kept in step, or the packet has none.  When it returns, it has also freed what it took,
    unless an allocation failed.  Two more ends are possible: the parser comes to read
    outside the message ([Stray], as in [snmp_null_pointer]), where what was said of every
    time holds up to that read, and what the memory there makes of it is not followed; or
    it has not returned after [fuel] objects ([NoFuel]), which can go on for ever
    ([snmp_loops]), and what was said holds for every [fuel]. *)
Theorem snmp_books fuel buf map s : let len := Z.of_nat (length (msg s)) in
  3221225472 < buf → buf + len < 4294967296 → len < 65536 → Forall is_u8 (msg s) → is_u16 (check s) →
  is_u8 (from map) → is_u8 (to map) →
  match snmp_parse_mangle fuel buf len map s with
  | Ret _ t | Fail t =>
      heap s ⊆ heap t ∧ (oom s = [] → len <= 32000 → heap t = heap s) ∧
      mangled (msg s) (check s) map (msg t) (check t)
  | Stray t | NoFuel t => heap s ⊆ heap t ∧ mangled (msg s) (check s) map (msg t) (check t)
  | Fault => False
  end.
Proof.
  intros len Hb Hl H16 Hm Hc Hf Ht.
  pose proof (parse_wp (msg s) (check s) buf map (heap s) (oom s = [] ∧ len <= 32000) Hb Hl H16 ltac:(by intros []) Hf Ht fuel s
    eq_refl eq_refl Hm Hc ltac:(by intros []) eq_refl) as H. unfold wp in H. fold len in H.
  destruct (snmp_parse_mangle _ _ _ _ _); try done.
  3-4: by destruct H.
  all: destruct H as [ob H]; destruct (own_reached _ _ _ _ _ _ _ _ _ H) as [Hr Hh]; split_and!; [done| |done];
    intros Eo E32; rewrite (ow_strict _ _ _ _ _ _ _ _ _ H (conj Eo E32)); apply map_union_empty.
Qed.

(** ** Messages *)
Lemma parse_translates fuel buf map x s : 3221225472 < buf → buf + 32000 < 4294967296 → message_ok x →
  (length (pdu_vbs (body x)) < fuel)%nat → msg s = encode x → is_u16 (check s) → oom s = [] →
  is_u8 (from map) → is_u8 (to map) →
  ∃ t, snmp_parse_mangle fuel buf (Z.of_nat (length (encode x))) map s =
         (if known_pdu (body x) then Ret () t else Fail t) ∧
    (known_pdu (body x) = true → msg t = encode (translate map x)) ∧ heap t = heap s ∧ oom t = [] ∧
    mangled (encode x) (check s) map (msg t) (check t).
Proof.
  intros Hb Hl Hx Hfu Hm Hc Ho Hf Ht. assert (Z.of_nat (length (encode x)) <= 32000) as H32 by apply Hx.
  pose proof (parse_wp (msg s) (check s) buf map (heap s) True Hb) as Ha. rewrite Hm in Ha.
  specialize (Ha ltac:(lia) ltac:(lia) ltac:(done) Hf Ht fuel s Hm eq_refl (encode_u8 x Hx) Hc ltac:(done) eq_refl).
  pose proof (parse_reads (known_pdu (body x) = false) buf (Z.of_nat (length (encode x))) ltac:(lia) ltac:(lia) H32 map fuel x s Hx eq_refl Hfu Hm Ho (λ E, E)) as Hr.
  unfold reads, wp in *. destruct (snmp_parse_mangle _ _ _ _ _) as [[] t|t|t| |t]; try done;
    [destruct Hr as [Hr Et]|]; exists t; destruct Ha as [ob Ha];
    assert (heap t = heap s) by (by rewrite (ow_strict _ _ _ _ _ _ _ _ _ Ha I), map_union_empty);
    rewrite Hr; split_and!; try done; by apply Ha.
Qed.

Lemma NOCT1_u8 n : is_u8 (NOCT1 n).
Proof. unfold NOCT1. change 255 with (Z.ones 8). rewrite Z.land_ones by done. word_lia. Qed.
Lemma snmp_map_u8 ct d : is_u8 (from (snmp_map ct d)) ∧ is_u8 (to (snmp_map ct d)).
Proof. destruct d; split; apply NOCT1_u8. Qed.

(** The sum of a UDP datagram after a change of its payload and of its checksum. *)
Lemma udp_sum hd p p' h c : 0 <= h → Z.of_nat (length hd) = h + 8 → length p' = length p → is_u16 c →
  wsum true (drop (Z.to_nat h) (st16 (h + 6) c (hd ++ p'))) =
  wsum true (drop (Z.to_nat h) (hd ++ p)) + (c + wsum true p') - (ld16 (hd ++ p) (h + 6) + wsum true p).
Proof.
  intros Hh Hl Hp Hc. assert (∀ d, (length hd <= length d)%nat → drop (Z.to_nat h) d = seg d h (Z.of_nat (length d) - h)) as Hseg.
  { intros d Hd. unfold seg. rewrite take_ge; [done|]. rewrite length_drop. lia. }
  assert (∀ q, wsum true (drop (Z.to_nat h) (hd ++ q)) = wsum true (drop (Z.to_nat h) hd) + wsum true q) as Hq.
  { intros q. rewrite drop_app_le by lia. apply wsum_app. rewrite length_drop. by replace (length hd - Z.to_nat h)%nat with 8%nat by lia. }
  rewrite Hseg by (rewrite st16_length, length_app; lia). rewrite st16_length, wsum_seg_st16; try lia.
  2: rewrite length_app; lia.
  2: by replace (h + 6 - h) with 6 by lia.
  2: done.
  rewrite <- Hseg by (rewrite length_app; lia). rewrite !Hq.
  assert (∀ o q, 0 <= o → o < h + 8 → ld8 (hd ++ q) o = ld8 hd o) as H8.
  { intros o q H0 H1. unfold ld8. rewrite lookup_app_l by lia. done. }
  unfold ld16. rewrite !H8 by lia. lia.
Qed.

(** A packet that is not turned away comes to the parser. *)
Lemma help_parses fuel ct ctinfo skb env hd p : let h := ihl (skb_iph skb) * 4 in
  let udph := udphdr_at (data skb) h in let map := snmp_map ct (CTINFO2DIR ctinfo) in
  data skb = hd ++ p → Z.of_nat (length hd) = h + 8 → ntohs (uh_len udph) = 8 + Z.of_nat (length p) →
  flag (status ct) IPS_NAT_MASK = true →
  (uh_source udph = ntohs SNMP_PORT → CTINFO2DIR ctinfo = IP_CT_DIR_REPLY) →
  (uh_dest udph = ntohs SNMP_TRAP_PORT → CTINFO2DIR ctinfo = IP_CT_DIR_ORIGINAL) →
  Z.of_nat (length p) <= 32000 → from map ≠ to map →
  let out s := (skb <| data := st16 (h + 6) (check s) (hd ++ msg s) |>, mk_senv (heap s) (oom s) (e_addr env)) in
  snmp_help fuel true ct ctinfo skb env =
  match snmp_parse_mangle fuel (e_addr env) (Z.of_nat (length p)) map
          (mk_snmp p (ld16 (data skb) (h + 6)) 0 0 0 0 None (e_heap env) (e_oom env)) with
  | Ret _ s => Some (NF_ACCEPT, (out s).1, (out s).2)
  | Fail s => Some (NF_DROP, (out s).1, (out s).2)
  | Stray _ | Fault | NoFuel _ => None
  end.
Proof.
  intros h udph map Hd Hhd Hlen Hnat Hsrc Hdst H32 Hne out.
  assert (0 <= h) as Hh by (unfold h, skb_iph, iphdr_at; cbn [ihl]; pose proof (Z.land_nonneg (ld8 (data skb) 0) 15); lia).
  assert (skb_len skb = h + 8 + Z.of_nat (length p)) as El by (unfold skb_len; rewrite Hd, length_app; lia).
  assert (skb_make_writable true skb (skb_len skb) = true) as Hw by (unfold skb_make_writable; by rewrite Z.ltb_irrefl).
  unfold snmp_help. cbv zeta. fold h udph. unfold sizeof_udphdr. destruct (Z.ltb_spec (skb_len skb) (h + 8)); [lia|].
  assert ((uh_source udph =? ntohs SNMP_PORT) &&
    negb match CTINFO2DIR ctinfo with IP_CT_DIR_REPLY => true | IP_CT_DIR_ORIGINAL => false end = false) as ->.
  { destruct (Z.eqb_spec (uh_source udph) (ntohs SNMP_PORT)) as [E|]; [by rewrite (Hsrc E)|done]. }
  assert ((uh_dest udph =? ntohs SNMP_TRAP_PORT) &&
    match CTINFO2DIR ctinfo with IP_CT_DIR_REPLY => true | IP_CT_DIR_ORIGINAL => false end = false) as ->.
  { destruct (Z.eqb_spec (uh_dest udph) (ntohs SNMP_TRAP_PORT)) as [E|]; [by rewrite (Hdst E)|done]. }
  rewrite Hnat, (proj2 (Z.eqb_eq _ _)), Hw by lia. cbn [negb].
  unfold snmp_translate. cbv zeta. fold h udph map. unfold sizeof_udphdr. rewrite (proj2 (Z.eqb_neq _ _) Hne), Hlen.
  assert (u16 (8 + Z.of_nat (length p) - 8) = Z.of_nat (length p)) as -> by word_lia.
  assert (drop (Z.to_nat (h + 8)) (data skb) = p) as -> by (rewrite Hd; apply drop_app_length'; lia).
  assert (take (Z.to_nat (h + 8)) (data skb) = hd) as -> by (rewrite Hd; apply take_app_length'; lia).
  reflexivity.
Qed.

(** C29: The SNMP helper does what it stands for.  A well-formed reply or trap of SNMPv1 or
    SNMPv2c, in a UDP packet of a connection with NAT that changes the first octet of an
    address, is accepted, and its payload becomes the encoding of the same message with
    the first octet of every address in it changed the same way, the agent's address of a
    trap included; a message with a value of one of the two types that the decoder has no
    case for, BIT STRING and Counter64, is dropped.  Nothing is left on the heap.  A packet
    without a checksum stays without one; otherwise the sum of the datagram is what it was,
    unless the checksum is written as 0, which for UDP means none: that happens only where
    0 is the right checksum of the datagram with some of the octets replaced. *)
Theorem snmp_translates fuel ct ctinfo skb env hd x : let h := ihl (skb_iph skb) * 4 in
  let udph := udphdr_at (data skb) h in let map := snmp_map ct (CTINFO2DIR ctinfo) in
  let same_sum d := wsum true (drop (Z.to_nat h) d) ≡₁ wsum true (drop (Z.to_nat h) (data skb)) in
  data skb = hd ++ encode x → Z.of_nat (length hd) = h + sizeof_udphdr → Forall is_u8 hd →
  ntohs (uh_len udph) = sizeof_udphdr + Z.of_nat (length (encode x)) → message_ok x →
  (length (pdu_vbs (body x)) < fuel)%nat → flag (status ct) IPS_NAT_MASK = true →
  (uh_source udph = ntohs SNMP_PORT → CTINFO2DIR ctinfo = IP_CT_DIR_REPLY) →
  (uh_dest udph = ntohs SNMP_TRAP_PORT → CTINFO2DIR ctinfo = IP_CT_DIR_ORIGINAL) →
  e_oom env = [] → 3221225472 < e_addr env → e_addr env + 32000 < 4294967296 → from map ≠ to map →
  if known_pdu (body x) then
    ∃ c, let d := st16 (h + 6) c (hd ++ encode (translate map x)) in
      snmp_help fuel true ct ctinfo skb env = Some (NF_ACCEPT, skb <| data := d |>, env) ∧
      (uh_check udph = 0 → c = 0) ∧
      (c ≠ 0 → same_sum d) ∧
      (c = 0 → uh_check udph = 0 ∨ ∃ p, replaced (encode x) map p ∧ same_sum (st16 (h + 6) 0 (hd ++ p)))
  else ∃ skb', snmp_help fuel true ct ctinfo skb env = Some (NF_DROP, skb', env).
Proof.
  intros h udph map same_sum Hd Hhd Hb Hlen Hx Hfu Hnat Hsrc Hdst Hoom Hlo Hhi Hne. unfold sizeof_udphdr in *.
  assert (0 <= h) as Hh by (unfold h, skb_iph, iphdr_at; cbn [ihl]; pose proof (Z.land_nonneg (ld8 (data skb) 0) 15); lia).
  assert (Z.of_nat (length (encode x)) <= 32000) as H32 by apply Hx.
  destruct (snmp_map_u8 ct (CTINFO2DIR ctinfo)) as [Hf Ht]. fold map in Hf, Ht.
  assert (is_u16 (ld16 (data skb) (h + 6))) as Hc.
  { apply ld16_range. rewrite Hd. apply Forall_app. split; [done|by apply encode_u8]. }
  set (s := mk_snmp (encode x) (ld16 (data skb) (h + 6)) 0 0 0 0 None (e_heap env) (e_oom env)).
  destruct (parse_translates fuel (e_addr env) map x s) as (t & Et & Em & Eh & Eo & Hm); [done..|].
  pose proof (help_parses fuel ct ctinfo skb env hd (encode x) Hd Hhd Hlen Hnat Hsrc Hdst H32 Hne) as Hhelp.
  cbv zeta in Hhelp. fold h map s in Hhelp. rewrite Et in Hhelp.
  change (heap s) with (e_heap env) in Eh.
  assert (mk_senv (e_heap env) (e_oom env) (e_addr env) = env) as Ee by (by destruct env).
  destruct (known_pdu (body x)); cbn [fst snd] in Hhelp; rewrite Eh, Eo, <- Hoom, Ee in Hhelp; [|by eexists].
  specialize (Em eq_refl). rewrite Em in Hhelp.
  assert (∀ p c, replaced (encode x) map p → is_u16 c → c + wsum true p ≡₁ check s + wsum true (encode x) →
            same_sum (st16 (h + 6) c (hd ++ p))) as Hsame.
  { intros p c Hp Hu Hs. unfold same_sum. cbn [check s] in Hs. rewrite Hd in *. pose proof (Forall2_length Hp) as Hl.
    rewrite (udp_sum hd (encode x) p h c); [|lia|done|done|done]. clear - Hs. ones. }
  exists (check t). split_and!.
  - exact Hhelp.
  - apply Hm.
  - intros Hne0. rewrite <- Em. apply Hsame; [apply Hm..|]. by destruct (mg_sum _ _ _ _ _ Hm).
  - intros E. destruct (mg_lost _ _ _ _ _ Hm E) as [|(p & Hp & Hs)]; [by left|]. right. exists p. split; [done|].
    apply Hsame; [done|by unfold is_u16|exact Hs].
Qed.

(** ** Which connections get the helper *)
(** A comparison under a mask of [k] ones. *)
Lemma masked_differs a b k : 0 <= k → 0 <= a < 2 ^ k → 0 <= b < 2 ^ k → flag (Z.lxor a b) (Z.ones k) = negb (a =? b).
Proof.
  intros Hk Ha Hb. unfold flag. f_equal. destruct (Z.eqb_spec a b) as [->|Hne].
  { rewrite Z.lxor_nilpotent. done. }
  apply Z.eqb_neq. intros H. apply Hne. apply Z.bits_inj'. intros i Hi. destruct (Z.lt_ge_cases i k).
  - assert (Z.testbit (Z.land (Z.lxor a b) (Z.ones k)) i = false) as E by (by rewrite H, Z.bits_0).
    rewrite Z.land_spec, Z.lxor_spec, Z.ones_spec_low in E by lia. by destruct (Z.testbit a i), (Z.testbit b i).
  - rewrite <- (Z.mod_small a (2 ^ k)), <- (Z.mod_small b (2 ^ k)) by done. by rewrite !Z.mod_pow2_bits_high by lia.
Qed.

(** The helpers are for UDP with the port 161 or 162 at the far end. *)
Lemma snmp_helpers_apply t : is_u16 (src_u t) → is_u8 (protonum t) →
  ip_ct_tuple_mask_cmp t (h_tuple snmp_helper) (h_mask snmp_helper) =
    (src_u t =? htons 161) && (protonum t =? IPPROTO_UDP) ∧
  ip_ct_tuple_mask_cmp t (h_tuple snmp_trap_helper) (h_mask snmp_trap_helper) =
    (src_u t =? htons 162) && (protonum t =? IPPROTO_UDP).
Proof.
  intros Hu Hp. unfold ip_ct_tuple_mask_cmp. cbn [h_tuple h_mask snmp_helper snmp_trap_helper src_ip dst_ip src_u dst_u protonum].
  assert (∀ x, flag x 0 = false) as H0 by (intros x; unfold flag; by rewrite Z.land_0_r). rewrite !H0.
  change 65535 with (Z.ones 16). change 255 with (Z.ones 8).
  assert (∀ p, p = 161 ∨ p = 162 → 0 <= htons p < 2 ^ 16) as Hport by (intros p [-> | ->]; vm_compute; split; congruence).
  unfold SNMP_PORT, SNMP_TRAP_PORT, IPPROTO_UDP.
  rewrite !(masked_differs (src_u t)), !(masked_differs (protonum t)); try (apply Hport; tauto); try (unfold is_u16, is_u8 in *; lia).
Qed.

(** ** Witnesses: a manager at 10.9.9.9 asks 10.0.0.1, which is mapped to 192.168.1.9 *)
Definition sample : message := mk_message 0 [112; 117; 98; 108; 105; 99]
  (Response 7 0 0 [mk_vb [1; 3; 6; 1; 2; 1; 4; 20; 1; 1] (IpAddress 192 [168; 1; 9]);
                   mk_vb [1; 3; 6; 1; 2; 1; 2; 2; 1; 10; 3] (Counter 3000000000)]).

Definition udp_header : list Z :=
  be16 161 ++ be16 1024 ++ be16 (8 + Z.of_nat (length (encode sample))) ++ [18; 52].
Definition sample_skb : sk_buff := ip_pkt 17 3232235785 168364297 (udp_header ++ encode sample).
Definition sample_ct : ip_conntrack :=
  (blank_ct (mk_tuple (htonl 168364297) (htons 1024) (htonl 167772161) (htons 161) 17 IP_CT_DIR_ORIGINAL)
     (mk_tuple (htonl 3232235785) (htons 161) (htonl 168364297) (htons 1024) 17 IP_CT_DIR_REPLY))
    <| status := 32 |>.
Definition sample_env : snmp_env := mk_senv ∅ [] 3238002688.

Lemma sample_ok : message_ok sample.
Proof.
  unfold message_ok. split_and!; [by cbn..| | |vm_compute; congruence].
  - unfold sample, is_u8. cbn [community]. repeat first [lia|constructor].
  - unfold sample, vb_ok, oid_ok, int32, is_u8, is_u32.
    cbn [body pdu_ok vb_name vb_value value_ok length hd nth]. repeat first [lia|done|split|constructor].
Qed.

Definition snmp_start (m : list Z) : snmp := mk_snmp m 4660 0 0 0 0 None ∅ [].

Lemma snmp_books_witness :
  match snmp_parse_mangle 5 3238002688 (Z.of_nat (length (encode sample))) (mk_map 192 10) (snmp_start (encode sample)) with
  | Ret _ t => heap t = ∅ ∧ mangled (encode sample) 4660 (mk_map 192 10) (msg t) (check t)
  | _ => False
  end.
Proof.
  pose proof (snmp_books 5 3238002688 (mk_map 192 10) (snmp_start (encode sample))) as H. cbv zeta in H.
  assert (∃ t, snmp_parse_mangle 5 3238002688 (Z.of_nat (length (encode sample))) (mk_map 192 10) (snmp_start (encode sample)) = Ret () t) as [t E]
    by (eexists; vm_compute; reflexivity).
  cbn [msg snmp_start check from to heap oom] in H. rewrite E in H |- *.
  destruct H as (_ & Hh & Hm).
  1,6,7: unfold is_u16, is_u8; lia.
  1-2: vm_compute; reflexivity.
  1: apply encode_u8, sample_ok.
  1: unfold is_u16; lia.
  - split; [apply Hh; [done|vm_compute; congruence]|exact Hm].
Defined.

Lemma snmp_translates_witness : ∃ c,
  snmp_help 5 true sample_ct (IP_CT_IS_REPLY) sample_skb sample_env =
  Some (NF_ACCEPT, sample_skb <| data := st16 26 c (take 28 (data sample_skb) ++ encode (translate (mk_map 192 10) sample)) |>,
        sample_env).
Proof.
  destruct (snmp_translates 5 sample_ct IP_CT_IS_REPLY sample_skb sample_env (take 28 (data sample_skb)) sample) as (c & H & _).
  1-2,4: vm_compute; reflexivity.
  - unfold is_u8. vm_compute data. repeat first [lia|constructor].
  - apply sample_ok.
  - cbn. lia.
  - reflexivity.
  - reflexivity.
  - intros H. vm_compute in H. discriminate H.
  - reflexivity.
  - vm_compute. reflexivity.
  - vm_compute. reflexivity.
  - vm_compute. congruence.
  - exists c. exact H.
Defined.

(** ** What the decoder does not check

    No length is compared with what is left of the message, and a NULL takes the pointer to
    wherever its length says. *)

(** Up to the list of variables. *)
Definition reply_prefix : list Z :=
  [48; 100; 2; 1; 0; 4; 6; 112; 117; 98; 108; 105; 99; 162; 80; 2; 1; 7; 2; 1; 0; 2; 1; 0; 48; 70].

Definition run (fuel : nat) (m : list Z) : outcome () :=
  snmp_parse_mangle fuel 3238002688 (Z.of_nat (length m)) (mk_map 192 10) (snmp_start m).

(** A variable whose lengths lead back to its own start. *)
Definition loop_message : list Z :=
  reply_prefix ++ [48; 132; 255; 255; 255; 250; 6; 1; 0; 5; 132; 255; 255; 255; 241].

(** The state in front of the variable, after the first turn. *)
Definition loop_object : snmp_object := mk_obj 3 2 2 0 0.
Definition loop_state (ob : option snmp_object) (err : Z) : snmp :=
  mk_snmp loop_message 4660 err 3238002714 3238002688 3238002729 ob {[1%positive := 32]} [].

(** A turn of the loop ends where it began. *)
Lemma loop_turn fuel ob err :
  snmp_objects (S fuel) (mk_map 192 10) 3238002784 1 (loop_state ob err) =
  snmp_objects fuel (mk_map 192 10) 3238002784 1 (loop_state (Some loop_object) ASN1_ERR_DEC_LENGTH_MISMATCH).
Proof. reflexivity. Qed.

(** A message of 41 octets keeps [snmp_parse_mangle] in its loop for ever, with the lock
    of the helper held and no other packet served. *)
Lemma snmp_loops fuel : ∃ t, run fuel loop_message = NoFuel t.
Proof.
  assert (∀ ob err, ∃ t, snmp_objects fuel (mk_map 192 10) 3238002784 1 (loop_state ob err) = NoFuel t) as H.
  { induction fuel as [|fuel IH]; intros ob err; [by eexists|]. rewrite loop_turn. apply IH. }
  assert (run fuel loop_message = (snmp_objects fuel (mk_map 192 10) 3238002784 1 ≫= λ _,
            _ ← kfree 1; asn1_eoc_decode 3238002784) (loop_state None 0)) as -> by reflexivity.
  unfold mbind, snmp_bind at 1. destruct (H None 0) as [t E]. rewrite E. exists t. reflexivity.
Qed.

(** A NULL of indefinite length makes the parser read through the pointer 0. *)
Lemma snmp_null_pointer : ∃ t, run 5 (reply_prefix ++ [48; 128; 6; 1; 0; 5; 128]) = Stray t ∧ pointer t = 0.
Proof. eexists. split; vm_compute; reflexivity. Qed.

(** A Counter64, which the table of types knows, makes the parser fail, so that the whole
    reply is dropped. *)
Lemma snmp_counter64_refused : ∃ t,
  run 5 [48; 37; 2; 1; 1; 4; 6; 112; 117; 98; 108; 105; 99; 162; 24; 2; 1; 7; 2; 1; 0; 2; 1; 0;
         48; 13; 48; 11; 6; 2; 43; 6; 70; 5; 1; 2; 3; 4; 5] = Fail t.
Proof. eexists. vm_compute. reflexivity. Qed.

(** The checksum 65535, which stands for 0, is written as 0: the packet has none then. *)
Lemma snmp_checksum_lost : fast_csum 9 192 201 true = 0.
Proof. reflexivity. Qed.

(** When the object cannot be allocated, the copy of its octet string stays behind. *)
Lemma snmp_leaks : ∃ t,
  (let m := reply_prefix ++ tlv 48 (tlv 6 [43; 6] ++ tlv 4 [1; 2; 3]) in
   snmp_parse_mangle 5 3238002688 (Z.of_nat (length m)) (mk_map 192 10)
     ((snmp_start m) <| oom := [false; false; false; false; true] |>) = Fail t) ∧ size (heap t) = 1%nat.
Proof. eexists. split; vm_compute; reflexivity. Qed.
