(* ===== verification/IpTables.v ===== *)
(** * Packet filter tables: [net/ipv4/netfilter/ip_tables.c]

    A table is a blob of entries; an entry is addressed by its byte offset.  The
    model keeps the blob as a map from offsets to entries, laid out one behind the
    other by [layout]; an access at an offset where no entry starts has no meaning
    in the model and makes the operation return [None].

    The match and target extensions are what they are in the kernel: modules with
    operations behind an interface.  The type class [IptExt] is that interface, for
    some type [M] of match data, [T] of target data (both may be changed when they
    run) and [W] of the state the extensions share with the rest of the kernel. *)
From S2P Require Import Prelude Packet CtBase.

(** ** Rules *)
Record ipt_ip := mk_ipt_ip {
  ip_src : Z; ip_dst : Z; ip_smsk : Z; ip_dmsk : Z;
  iniface : list Z; outiface : list Z; iniface_mask : list Z; outiface_mask : list Z;
  ip_proto : Z; ip_flags : Z; ip_invflags : Z }.

Definition IPT_F_FRAG := 1.
Definition IPT_F_GOTO := 2.
Definition IPT_F_MASK := 3.
Definition IPT_INV_VIA_IN := 1.
Definition IPT_INV_VIA_OUT := 2.
Definition IPT_INV_TOS := 4.
Definition IPT_INV_SRCIP := 8.
Definition IPT_INV_DSTIP := 16.
Definition IPT_INV_FRAG := 32.
Definition IPT_INV_PROTO := 64.
Definition IPT_INV_MASK := 127.
Definition IFNAMSIZ := 16.

Definition IPT_CONTINUE := 4294967295.
Definition IPT_RETURN := - NF_REPEAT - 1.

(** [FWINV]: a condition, inverted when the flag is set. *)
Definition FWINV (invflags : Z) (b : bool) (invflg : Z) : bool := xorb b (flag invflags invflg).

(** The loop over the words of an interface name. *)
Definition iface_differs (dev name mask : list Z) : bool :=
  let word (l : list Z) (i : Z) := ld32 l (4 * i) in
  negb (fold_left (λ ret i, Z.lor ret (Z.land (Z.lxor (word dev i) (word name i)) (word mask i)))
          [0; 1; 2; 3] 0 =? 0).

Definition ip_packet_match (ip : iphdr) (indev outdev : list Z) (ipinfo : ipt_ip) (isfrag : bool)
    : bool :=
  let fwinv := FWINV (ip_invflags ipinfo) in
  if fwinv (negb (Z.land (saddr ip) (ip_smsk ipinfo) =? ip_src ipinfo)) IPT_INV_SRCIP
     || fwinv (negb (Z.land (daddr ip) (ip_dmsk ipinfo) =? ip_dst ipinfo)) IPT_INV_DSTIP
  then false
  else if fwinv (iface_differs indev (iniface ipinfo) (iniface_mask ipinfo)) IPT_INV_VIA_IN
  then false
  else if fwinv (iface_differs outdev (outiface ipinfo) (outiface_mask ipinfo)) IPT_INV_VIA_OUT
  then false
  else if negb (ip_proto ipinfo =? 0)
          && fwinv (negb (protocol ip =? ip_proto ipinfo)) IPT_INV_PROTO
  then false
  else if fwinv (flag (ip_flags ipinfo) IPT_F_FRAG && negb isfrag) IPT_INV_FRAG
  then false
  else true.

Definition ip_checkentry (ip : ipt_ip) : bool :=
  if flag (ip_flags ip) (255 - IPT_F_MASK) then false
  else if flag (ip_invflags ip) (255 - IPT_INV_MASK) then false
  else true.

(** All bytes of the structure are zero. *)
Definition unconditional (ip : ipt_ip) : bool :=
  forallb (λ x, x =? 0)
    ([ip_src ip; ip_dst ip; ip_smsk ip; ip_dmsk ip; ip_proto ip; ip_flags ip; ip_invflags ip]
     ++ iniface ip ++ outiface ip ++ iniface_mask ip ++ outiface_mask ip).

(** ** Extensions *)
Record net_device := mk_dev { dev_name : list Z; ifindex : Z; dev_mac : list Z }.
Definition nulldevname : list Z := replicate 16 0.

Class IptExt (M T W : Type) := {
  (** [match->match]: the result, [*hotdrop], and the changed data and state *)
  ext_match : M → sk_buff → option net_device → option net_device → Z → Z → W → bool * bool * M * W;
  (** [target->target] *)
  ext_target : T → sk_buff → option net_device → option net_device → Z → W → Z * sk_buff * T * W;
  (** [checkentry]: accepted or not, and the data, which the function may fill in *)
  ext_match_check : M → list Z → ipt_ip → Z → W → bool * M;
  ext_target_check : T → list Z → ipt_ip → list M → Z → W → bool * T }.

Definition sizeof_ipt_entry := 112.
Definition sizeof_ipt_entry_target := 32.
Definition sizeof_ipt_standard_target := 36.

Inductive ipt_target (T : Type) :=
  | T_standard (size verdict : Z)
  | T_error
  | T_ext (t : T).
Arguments T_standard {T} size verdict.
Arguments T_error {T}.
Arguments T_ext {T} t.

Record ipt_entry (M T : Type) := mk_entry {
  e_ip : ipt_ip; target_offset : Z; next_offset : Z; comefrom : Z; bcnt : Z; pcnt : Z;
  e_matches : list M; e_target : ipt_target T }.
Arguments mk_entry {M T}.
Arguments e_ip {M T}.
Arguments target_offset {M T}.
Arguments next_offset {M T}.
Arguments comefrom {M T}.
Arguments bcnt {M T}.
Arguments pcnt {M T}.
Arguments e_matches {M T}.
Arguments e_target {M T}.

#[export] Instance upd_comefrom {M T} : Update (@comefrom M T) := λ v e,
  mk_entry (e_ip e) (target_offset e) (next_offset e) v (bcnt e) (pcnt e) (e_matches e) (e_target e).
#[export] Instance upd_bcnt {M T} : Update (@bcnt M T) := λ v e,
  mk_entry (e_ip e) (target_offset e) (next_offset e) (comefrom e) v (pcnt e) (e_matches e) (e_target e).
#[export] Instance upd_pcnt {M T} : Update (@pcnt M T) := λ v e,
  mk_entry (e_ip e) (target_offset e) (next_offset e) (comefrom e) (bcnt e) v (e_matches e) (e_target e).
#[export] Instance upd_e_matches {M T} : Update (@e_matches M T) := λ v e,
  mk_entry (e_ip e) (target_offset e) (next_offset e) (comefrom e) (bcnt e) (pcnt e) v (e_target e).
#[export] Instance upd_e_target {M T} : Update (@e_target M T) := λ v e,
  mk_entry (e_ip e) (target_offset e) (next_offset e) (comefrom e) (bcnt e) (pcnt e) (e_matches e) v.

Section IpTables.
Context {M T W : Type} `{IptExt M T W}.
Abbreviation entry := (ipt_entry M T).
Abbreviation blob := (gmap Z entry).

(** ** Traversal *)

(** [IPT_MATCH_ITERATE(e, do_match, ...)]: stop at the first match that fails. *)
Fixpoint do_matches (ms : list M) (skb : sk_buff) (inp out : option net_device) (offset : Z)
    (hotdrop : bool) (w : W) : bool * bool * list M * W :=
  match ms with
  | [] => (true, hotdrop, [], w)
  | m :: ms =>
      let '(ok, drop, m, w) := ext_match m skb inp out offset (ihl (skb_iph skb) * 4) w in
      if ok : bool then
        let '(ok, drop, ms, w) := do_matches ms skb inp out offset (hotdrop || drop) w in
        (ok, drop, m :: ms, w)
      else (false, hotdrop || drop, m :: ms, w)
  end.

Inductive rule_outcome :=
  | RO_next                    (** go on with the next entry *)
  | RO_verdict (v : Z)
  | RO_return
  | RO_jump (v : Z).

Definition indev_name (dev : option net_device) : list Z :=
  match dev with Some d => dev_name d | None => nulldevname end.

(** The body of the loop of [ipt_do_table] for the entry [e], up to the changes of
    [e] and [back]: the outcome, [hotdrop], the changed entry, buffer and state. *)
Definition exec_rule (e : entry) (skb : sk_buff) (inp out : option net_device) (hook offset : Z)
    (w : W) : rule_outcome * bool * entry * sk_buff * W :=
  if negb (ip_packet_match (skb_iph skb) (indev_name inp) (indev_name out) (e_ip e)
             (negb (offset =? 0)))
  then (RO_next, false, e, skb, w)
  else
    let '(ok, hotdrop, ms, w) := do_matches (e_matches e) skb inp out offset false w in
    let e := e <| e_matches := ms |> in
    if negb ok then (RO_next, hotdrop, e, skb, w)
    else
      let e := e <| bcnt := u64 (bcnt e + ntohs (tot_len (skb_iph skb))) |>
                 <| pcnt := u64 (pcnt e + 1) |> in
      match e_target e with
      | T_standard _ v =>
          (if v <? 0 then
             if negb (v =? IPT_RETURN) then RO_verdict (- v - 1) else RO_return
           else RO_jump v, hotdrop, e, skb, w)
      | T_error => (RO_verdict NF_DROP, hotdrop, e, skb, w)
      | T_ext t =>
          let '(verdict, skb, t, w) := ext_target t skb inp out hook w in
          (if verdict =? IPT_CONTINUE then RO_next else RO_verdict verdict,
           hotdrop, e <| e_target := T_ext t |>, skb, w)
      end.

(** The loop.  [e] and [back] are the offsets of the current entry and of the entry
    to return to; the return address of [back] is in its [comefrom].  [None]: [fuel]
    iterations were not enough, or an access where there is no entry. *)
Fixpoint ipt_do_table_loop (fuel : nat) (tbl : blob) (e back : Z) (skb : sk_buff)
    (inp out : option net_device) (hook offset : Z) (w : W) : option (Z * blob * sk_buff * W) :=
  match fuel with
  | O => None
  | S fuel =>
      en ← tbl !! e;
      let '(outcome, hotdrop, en, skb, w) := exec_rule en skb inp out hook offset w in
      let tbl := <[e := en]> tbl in
      let next := e + next_offset en in
      let continue tbl e back :=
        if hotdrop : bool then Some (NF_DROP, tbl, skb, w)
        else ipt_do_table_loop fuel tbl e back skb inp out hook offset w in
      match outcome with
      | RO_next => continue tbl next back
      | RO_verdict v => Some (if hotdrop then NF_DROP else v, tbl, skb, w)
      | RO_return => b ← tbl !! back; continue tbl back (comefrom b)
      | RO_jump v =>
          if negb (v =? next) && negb (flag (ip_flags (e_ip en)) IPT_F_GOTO) then
            n ← tbl !! next;
            continue (<[next := n <| comefrom := back |>]> tbl) v next
          else continue tbl v back
      end
  end.

Record xt_table_info := mk_info {
  t_size : Z; t_number : Z; hook_entry : Z → Z; underflow : Z → Z; t_entries : blob }.

Definition ipt_do_table (fuel : nat) (private : xt_table_info) (skb : sk_buff) (hook : Z)
    (inp out : option net_device) (w : W) : option (Z * blob * sk_buff * W) :=
  let offset := Z.land (ntohs (frag_off (skb_iph skb))) IP_OFFSET in
  ipt_do_table_loop fuel (t_entries private) (hook_entry private hook) (underflow private hook)
    skb inp out hook offset w.

(** ** Loading a table *)

(** The blob a list of entries forms. *)
Fixpoint layout (pos : Z) (l : list entry) : blob :=
  match l with
  | [] => ∅
  | e :: l => <[pos := e]> (layout (pos + next_offset e) l)
  end.

(** [mark_source_chains]: the walk along all rules reachable from a hook.  The path
    back to the start is kept in [pcnt], the entries on it carry the bit
    [1 << NF_IP_NUMHOOKS] in [comefrom]. *)
Inductive msc_result :=
  | MSC_ok (tbl : blob)
  | MSC_loop                   (** the return value 0 *)
  | MSC_wild                   (** an access where there is no entry *)
  | MSC_fuel.

Definition MARK := 32.

Definition is_standard (e : entry) : option Z :=
  match e_target e with T_standard _ v => Some v | _ => None end.

(** "Unconditional return/END." *)
Definition is_end (e : entry) : bool :=
  (target_offset e =? sizeof_ipt_entry)
  && match is_standard e with Some v => v <? 0 | None => false end
  && unconditional (e_ip e).

(** The [do ... while] loop that backtracks through the last big jump; the result is
    the position of the jump, or [None] when it reached the start. *)
Fixpoint msc_back (fuel : nat) (tbl : blob) (pos : Z) : option (option Z * blob) :=
  match fuel with
  | O => None
  | S fuel =>
      e ← tbl !! pos;
      let e := e <| comefrom := Z.lxor (comefrom e) MARK |> in
      let oldpos := pos in
      let pos := u32 (pcnt e) in
      let tbl := <[oldpos := e <| pcnt := 0 |>]> tbl in
      if pos =? oldpos then Some (None, tbl)
      else
        e ← tbl !! pos;
        if oldpos =? pos + next_offset e then msc_back fuel tbl pos
        else Some (Some pos, tbl)
  end.

Fixpoint msc_walk (fuel : nat) (hook : Z) (tbl : blob) (pos : Z) : msc_result :=
  match fuel with
  | O => MSC_fuel
  | S fuel =>
      match tbl !! pos with
      | None => MSC_wild
      | Some e =>
          if flag (comefrom e) MARK then MSC_loop
          else
            let e := e <| comefrom := Z.lor (comefrom e) (Z.lor (Z.shiftl 1 hook) MARK) |> in
            let tbl := <[pos := e]> tbl in
            let goto tbl newpos :=
              match tbl !! newpos with
              | None => MSC_wild
              | Some e' => msc_walk fuel hook (<[newpos := e' <| pcnt := pos |>]> tbl) newpos
              end in
            if is_end e then
              match msc_back (S (size tbl)) tbl pos with
              | None => MSC_wild
              | Some (None, tbl) => MSC_ok tbl
              | Some (Some jump, tbl) =>
                  match tbl !! jump with
                  | None => MSC_wild
                  | Some ej =>
                      let newpos := jump + next_offset ej in
                      match tbl !! newpos with
                      | None => MSC_wild
                      | Some e' => msc_walk fuel hook (<[newpos := e' <| pcnt := jump |>]> tbl) newpos
                      end
                  end
              end
            else match is_standard e with
            | Some v => if 0 <=? v then goto tbl v else goto tbl (pos + next_offset e)
            | None => goto tbl (pos + next_offset e)
            end
      end
  end.

Fixpoint msc_hooks (fuel : nat) (hooks : list Z) (valid_hooks : Z) (hook_entry : Z → Z)
    (tbl : blob) : msc_result :=
  match hooks with
  | [] => MSC_ok tbl
  | hook :: hooks =>
      if negb (flag valid_hooks (Z.shiftl 1 hook))
      then msc_hooks fuel hooks valid_hooks hook_entry tbl
      else
        let pos := hook_entry hook in
        match tbl !! pos with
        | None => MSC_wild
        | Some e =>
            match msc_walk fuel hook (<[pos := e <| pcnt := pos |>]> tbl) pos with
            | MSC_ok tbl => msc_hooks fuel hooks valid_hooks hook_entry tbl
            | r => r
            end
        end
  end.

Definition mark_source_chains (fuel : nat) (valid_hooks : Z) (hook_entry : Z → Z) (tbl : blob)
    : msc_result :=
  msc_hooks fuel [0; 1; 2; 3; 4] valid_hooks hook_entry tbl.

Definition EINVAL := 22.
Definition ELOOP := 40.

Definition standard_check (target_size verdict max_offset : Z) : bool :=
  if negb (target_size =? sizeof_ipt_standard_target) then false
  else if (0 <=? verdict) && (u32 (max_offset - sizeof_ipt_entry) <? verdict) then false
  else if verdict <? - NF_MAX_VERDICT - 1 then false
  else true.

(** [IPT_MATCH_ITERATE(e, check_match, ...)] *)
Fixpoint check_matches (ms : list M) (name : list Z) (ip : ipt_ip) (hookmask : Z) (w : W) : bool * list M :=
  match ms with
  | [] => (true, [])
  | m :: ms =>
      let (ok, m) := ext_match_check m name ip hookmask w in
      if negb ok then (false, m :: ms)
      else let (ok, ms) := check_matches ms name ip hookmask w in (ok, m :: ms)
  end.

Definition check_entry (e : entry) (name : list Z) (size : Z) (w : W) : Z * entry :=
  if negb (ip_checkentry (e_ip e)) then (- EINVAL, e)
  else
    let (ok, ms) := check_matches (e_matches e) name (e_ip e) (comefrom e) w in
    let e := e <| e_matches := ms |> in
    if negb ok then (- EINVAL, e)
    else match e_target e with
    | T_standard target_size verdict =>
        (if standard_check target_size verdict size then 0 else - EINVAL, e)
    | T_error => (0, e)
    | T_ext t =>
        let (ok, t) := ext_target_check t name (e_ip e) (e_matches e) (comefrom e) w in
        (if ok : bool then 0 else - EINVAL, e <| e_target := T_ext t |>)
    end.

(** [newinfo->hook_entry] and [newinfo->underflow] while they are filled in. *)
Definition set_hooks (i : Z) (wanted : Z → Z) (have : Z → Z) (h : Z) : Z :=
  if (0 <=? h) && (h <? NF_IP_NUMHOOKS) && (i =? wanted h) then wanted h else have h.

Definition check_entry_size_and_hooks (e : entry) (i limit : Z) (hook_entries underflows : Z → Z)
    (newinfo : xt_table_info) : Z * xt_table_info :=
  if negb (i mod 4 =? 0) || (limit <=? i + sizeof_ipt_entry) then (- EINVAL, newinfo)
  else if next_offset e <? sizeof_ipt_entry + sizeof_ipt_entry_target then (- EINVAL, newinfo)
  else
    (0, mk_info (t_size newinfo) (t_number newinfo)
          (set_hooks i hook_entries (hook_entry newinfo))
          (set_hooks i underflows (underflow newinfo))
          (<[i := e <| bcnt := 0 |> <| pcnt := 0 |> <| comefrom := 0 |>]> (t_entries newinfo))).

(** The first [IPT_ENTRY_ITERATE] of [translate_table]: the return value, the number
    of entries seen, and [newinfo]. *)
Fixpoint check_sizes (fuel : nat) (i n : Z) (hook_entries underflows : Z → Z)
    (newinfo : xt_table_info) : option (Z * Z * xt_table_info) :=
  if t_size newinfo <=? i then Some (0, n, newinfo)
  else match fuel with
  | O => None
  | S fuel =>
      e ← t_entries newinfo !! i;
      let (ret, newinfo) :=
        check_entry_size_and_hooks e i (t_size newinfo) hook_entries underflows newinfo in
      if negb (ret =? 0) then Some (ret, n, newinfo)
      else check_sizes fuel (i + next_offset e) (n + 1) hook_entries underflows newinfo
  end.

Definition set_entries (tbl : blob) (newinfo : xt_table_info) : xt_table_info :=
  mk_info (t_size newinfo) (t_number newinfo) (hook_entry newinfo) (underflow newinfo) tbl.

Fixpoint check_entries (fuel : nat) (i : Z) (name : list Z) (newinfo : xt_table_info) (w : W)
    : option (Z * xt_table_info) :=
  if t_size newinfo <=? i then Some (0, newinfo)
  else match fuel with
  | O => None
  | S fuel =>
      e ← t_entries newinfo !! i;
      let (ret, e) := check_entry e name (t_size newinfo) w in
      let newinfo := set_entries (<[i := e]> (t_entries newinfo)) newinfo in
      if negb (ret =? 0) then Some (ret, newinfo)
      else check_entries fuel (i + next_offset e) name newinfo w
  end.

Definition hooks_assigned (valid_hooks : Z) (newinfo : xt_table_info) : bool :=
  forallb (λ i, negb (flag valid_hooks (Z.shiftl 1 i))
                || (negb (hook_entry newinfo i =? 4294967295)
                    && negb (underflow newinfo i =? 4294967295))) [0; 1; 2; 3; 4].

(** The return value and the checked table; [None] when the code reads something that
    is no entry, or [fuel] is not enough. *)
Definition translate_table (fuel : nat) (name : list Z) (valid_hooks : Z) (entries : list entry)
    (size number : Z) (hook_entries underflows : Z → Z) (w : W) : option (Z * xt_table_info) :=
  let newinfo := mk_info size number (λ _, 4294967295) (λ _, 4294967295) (layout 0 entries) in
  '(ret, i, newinfo) ← check_sizes (S (length entries)) 0 0 hook_entries underflows newinfo;
  if negb (ret =? 0) then Some (ret, newinfo)
  else if negb (i =? number) then Some (- EINVAL, newinfo)
  else if negb (hooks_assigned valid_hooks newinfo) then Some (- EINVAL, newinfo)
  else match mark_source_chains fuel valid_hooks (hook_entry newinfo) (t_entries newinfo) with
  | MSC_loop => Some (- ELOOP, newinfo)
  | MSC_wild | MSC_fuel => None
  | MSC_ok tbl => check_entries (S (length entries)) 0 name (set_entries tbl newinfo) w
  end.

(** ** What a table means

    The chains as a programming language: a chain is run from [pos] until a rule
    gives a verdict or returns; a jump runs the called chain and goes on behind the
    jump when that returns, a goto (or a jump to the next entry) does not come
    back.  No back pointers. *)
Inductive chain_result := CR_verdict (v : Z) | CR_return.

Fixpoint chain_eval (fuel : nat) (tbl : blob) (pos : Z) (skb : sk_buff)
    (inp out : option net_device) (hook offset : Z) (w : W)
    : option (chain_result * blob * sk_buff * W) :=
  match fuel with
  | O => None
  | S fuel =>
      en ← tbl !! pos;
      let '(outcome, hotdrop, en, skb, w) := exec_rule en skb inp out hook offset w in
      let tbl := <[pos := en]> tbl in
      let next := pos + next_offset en in
      if hotdrop : bool then Some (CR_verdict NF_DROP, tbl, skb, w)
      else match outcome with
      | RO_next => chain_eval fuel tbl next skb inp out hook offset w
      | RO_verdict v => Some (CR_verdict v, tbl, skb, w)
      | RO_return => Some (CR_return, tbl, skb, w)
      | RO_jump v =>
          '(r, tbl, skb, w) ← chain_eval fuel tbl v skb inp out hook offset w;
          match r with
          | CR_verdict _ => Some (r, tbl, skb, w)
          | CR_return =>
              if negb (v =? next) && negb (flag (ip_flags (e_ip en)) IPT_F_GOTO)
              then chain_eval fuel tbl next skb inp out hook offset w
              else Some (CR_return, tbl, skb, w)
          end
      end
  end.

(** A built-in chain: where it returns, its policy decides. *)
Definition table_eval (fuel : nat) (private : xt_table_info) (skb : sk_buff) (hook : Z)
    (inp out : option net_device) (w : W) : option (chain_result * blob * sk_buff * W) :=
  let offset := Z.land (ntohs (frag_off (skb_iph skb))) IP_OFFSET in
  '(r, tbl, skb, w) ← chain_eval fuel (t_entries private) (hook_entry private hook)
                        skb inp out hook offset w;
  match r with
  | CR_verdict _ => Some (r, tbl, skb, w)
  | CR_return => chain_eval fuel tbl (underflow private hook) skb inp out hook offset w
  end.
End IpTables.
