(* ===== verification/XtMatches.v ===== *)
(** * Match extensions

    [net/netfilter/xt_tcpudp.c], [xt_conntrack.c], [xt_state.c], [xt_limit.c],
    [xt_length.c], [xt_mark.c], [net/ipv4/netfilter/ipt_multiport.c], [ipt_iprange.c],
    [ipt_ttl.c], [ipt_tos.c] and the ICMP match of [ip_tables.c].

    A match function returns whether it matched and whether it set [*hotdrop].  The
    size of the match data that [checkentry] compares is implied by its type here. *)
From S2P Require Import Prelude Packet CtBase TcpTrack CtProtos Conntrack NatProto IpTables.

(** What the hardware-NAT module answers when it is present. *)
Record shnat_hooks := mk_shnat {
  preadd_hnatable : sk_buff → Z; check_ftponly_enable : Z; check_shnat_enable : Z }.

(** What the extensions share with the rest of the kernel: the tracker, NAT's
    counters, the conntrack that stands for "not tracked"; and what they get from
    outside of it: whether [skb_make_writable] can have memory, the room behind the packet
    in hand ([skb_tailroom]) and whether [skb_copy_expand] can have memory, the offset of
    [skb->h.raw] and the route of the packet in hand ([skb->dst]), addresses of
    devices, the reverse route (hop limit and MTU) that a RST would take, the
    hardware-NAT module.  [w_sent] are the packets and ICMP errors handed to the
    output path, and [w_bug] says that the kernel has run into a [BUG]. *)
Record fw_world := mk_world {
  w_env : ct_env; w_ct : ct_state; w_nat : nat_vars;
  w_untracked : positive * ip_conntrack; w_writable : bool;
  w_tailroom : Z; w_expand : bool; w_h_raw : Z;
  w_dst_mtu : option Z; w_select_addr : net_device → Z; w_reverse : sk_buff → option (Z * Z);
  w_shnat : option shnat_hooks; w_sent : list (Z + sk_buff); w_bug : bool }.

#[export] Instance upd_w_ct : Update w_ct := λ v w,
  mk_world (w_env w) v (w_nat w) (w_untracked w) (w_writable w)
    (w_tailroom w) (w_expand w) (w_h_raw w) (w_dst_mtu w)
    (w_select_addr w) (w_reverse w) (w_shnat w) (w_sent w) (w_bug w).
#[export] Instance upd_w_nat : Update w_nat := λ v w,
  mk_world (w_env w) (w_ct w) v (w_untracked w) (w_writable w)
    (w_tailroom w) (w_expand w) (w_h_raw w) (w_dst_mtu w)
    (w_select_addr w) (w_reverse w) (w_shnat w) (w_sent w) (w_bug w).
#[export] Instance upd_w_sent : Update w_sent := λ v w,
  mk_world (w_env w) (w_ct w) (w_nat w) (w_untracked w) (w_writable w)
    (w_tailroom w) (w_expand w) (w_h_raw w) (w_dst_mtu w)
    (w_select_addr w) (w_reverse w) (w_shnat w) v (w_bug w).
#[export] Instance upd_w_bug : Update w_bug := λ v w,
  mk_world (w_env w) (w_ct w) (w_nat w) (w_untracked w) (w_writable w)
    (w_tailroom w) (w_expand w) (w_h_raw w) (w_dst_mtu w)
    (w_select_addr w) (w_reverse w) (w_shnat w) (w_sent w) v.
#[export] Instance upd_w_dst_mtu : Update w_dst_mtu := λ v w,
  mk_world (w_env w) (w_ct w) (w_nat w) (w_untracked w) (w_writable w)
    (w_tailroom w) (w_expand w) (w_h_raw w) v
    (w_select_addr w) (w_reverse w) (w_shnat w) (w_sent w) (w_bug w).

(** The conntrack a packet refers to. *)
Definition skb_ct (w : fw_world) (skb : sk_buff) : option ip_conntrack :=
  p ← nfct skb;
  if decide (p = (w_untracked w).1) then Some (w_untracked w).2 else cts (w_ct w) !! p.
Definition is_untracked (w : fw_world) (skb : sk_buff) : bool :=
  bool_decide (nfct skb = Some (w_untracked w).1).

(** ** TCP and UDP: [xt_tcpudp.c] *)
Record xt_tcp := mk_xt_tcp {
  tcp_spts : Z * Z; tcp_dpts : Z * Z; tcp_option : Z; flg_mask : Z; flg_cmp : Z; tcp_invflags : Z }.
Record xt_udp := mk_xt_udp { udp_spts : Z * Z; udp_dpts : Z * Z; udp_invflags : Z }.

Definition XT_TCP_INV_SRCPT := 1.
Definition XT_TCP_INV_DSTPT := 2.
Definition XT_TCP_INV_FLAGS := 4.
Definition XT_TCP_INV_OPTION := 8.
Definition XT_TCP_INV_MASK := 15.
Definition XT_UDP_INV_SRCPT := 1.
Definition XT_UDP_INV_DSTPT := 2.
Definition XT_UDP_INV_MASK := 3.

Definition port_match (min max port : Z) (invert : bool) : bool :=
  xorb ((min <=? port) && (port <=? max)) invert.

(** The loop over the options; at most [optlen] iterations. *)
Fixpoint find_option_loop (fuel : nat) (option : Z) (op : list Z) (i optlen : Z) : bool :=
  match fuel with
  | O => false
  | S fuel =>
      if i <? optlen then
        if ld8 op i =? option then true
        else if ld8 op i <? 2 then find_option_loop fuel option op (i + 1) optlen
        else
          let len := ld8 op (i + 1) in
          find_option_loop fuel option op (i + (if len =? 0 then 1 else len)) optlen
      else false
  end.

Definition tcp_find_option (option : Z) (skb : sk_buff) (protoff optlen : Z) (invert hotdrop : bool)
    : bool * bool :=
  if optlen =? 0 then (invert, hotdrop)
  else match skb_header_pointer skb (protoff + 20) optlen with
  | None => (false, true)
  | Some op => (xorb (find_option_loop (Z.to_nat optlen) option op 0 optlen) invert, hotdrop)
  end.

Definition tcp_match (tcpinfo : xt_tcp) (skb : sk_buff) (offset protoff : Z) : bool * bool :=
  if negb (offset =? 0) then (false, offset =? 1)
  else match skb_header_pointer skb protoff 20 with
  | None => (false, true)
  | Some hdr =>
      let th := tcphdr_at hdr 0 in
      let inv f := flag (tcp_invflags tcpinfo) f in
      if negb (port_match (tcp_spts tcpinfo).1 (tcp_spts tcpinfo).2 (ntohs (th_source th))
                 (inv XT_TCP_INV_SRCPT)) then (false, false)
      else if negb (port_match (tcp_dpts tcpinfo).1 (tcp_dpts tcpinfo).2 (ntohs (th_dest th))
                      (inv XT_TCP_INV_DSTPT)) then (false, false)
      else if negb (xorb (Z.land (th_flags th) (flg_mask tcpinfo) =? flg_cmp tcpinfo)
                      (inv XT_TCP_INV_FLAGS)) then (false, false)
      else if negb (tcp_option tcpinfo =? 0) then
        if th_doff th * 4 <? 20 then (false, true)
        else tcp_find_option (tcp_option tcpinfo) skb protoff (th_doff th * 4 - 20)
               (inv XT_TCP_INV_OPTION) false
      else (true, false)
  end.

Definition tcp_checkentry (tcpinfo : xt_tcp) (ip : ipt_ip) : bool :=
  (ip_proto ip =? IPPROTO_TCP) && negb (flag (ip_invflags ip) IPT_INV_PROTO)
  && negb (flag (tcp_invflags tcpinfo) (255 - XT_TCP_INV_MASK)).

Definition udp_match (udpinfo : xt_udp) (skb : sk_buff) (offset protoff : Z) : bool * bool :=
  if negb (offset =? 0) then (false, false)
  else match skb_header_pointer skb protoff 8 with
  | None => (false, true)
  | Some hdr =>
      let uh := udphdr_at hdr 0 in
      (port_match (udp_spts udpinfo).1 (udp_spts udpinfo).2 (ntohs (uh_source uh))
         (flag (udp_invflags udpinfo) XT_UDP_INV_SRCPT)
       && port_match (udp_dpts udpinfo).1 (udp_dpts udpinfo).2 (ntohs (uh_dest uh))
            (flag (udp_invflags udpinfo) XT_UDP_INV_DSTPT), false)
  end.

Definition udp_checkentry (udpinfo : xt_udp) (ip : ipt_ip) : bool :=
  if negb (ip_proto ip =? IPPROTO_UDP) || flag (ip_invflags ip) IPT_INV_PROTO then false
  else negb (flag (udp_invflags udpinfo) (255 - XT_UDP_INV_MASK)).

(** ** ICMP: [ip_tables.c] *)
Record ipt_icmp := mk_ipt_icmp { im_type : Z; im_code : Z * Z; im_invflags : Z }.
Definition IPT_ICMP_INV := 1.

Definition icmp_type_code_match (test_type min_code max_code type code : Z) (invert : bool) : bool :=
  xorb ((test_type =? 255) || ((type =? test_type) && (min_code <=? code) && (code <=? max_code))) invert.

Definition icmp_match (icmpinfo : ipt_icmp) (skb : sk_buff) (offset protoff : Z) : bool * bool :=
  if negb (offset =? 0) then (false, false)
  else match skb_header_pointer skb protoff 8 with
  | None => (false, true)
  | Some hdr =>
      let ic := icmphdr_at hdr 0 in
      (icmp_type_code_match (im_type icmpinfo) (im_code icmpinfo).1 (im_code icmpinfo).2
         (icmp_type ic) (icmp_code ic) (flag (im_invflags icmpinfo) IPT_ICMP_INV), false)
  end.

Definition icmp_checkentry (icmpinfo : ipt_icmp) (ip : ipt_ip) : bool :=
  (ip_proto ip =? IPPROTO_ICMP) && negb (flag (ip_invflags ip) IPT_INV_PROTO)
  && negb (flag (im_invflags icmpinfo) (255 - IPT_ICMP_INV)).

(** ** Port lists: [ipt_multiport.c] *)
Definition IPT_MULTIPORT_SOURCE := 0.
Definition IPT_MULTIPORT_DESTINATION := 1.
Definition IPT_MULTIPORT_EITHER := 2.

Record ipt_multiport := mk_multiport { mp_flags : Z; mp_count : Z; mp_ports : list Z }.
Record ipt_multiport_v1 := mk_multiport_v1 {
  mp1_flags : Z; mp1_count : Z; mp1_ports : list Z; mp1_pflags : list Z; mp1_invert : Z }.

(** [a[i]] of an array; a read behind the end has no meaning and is 0 here. *)
Definition arr (a : list Z) (i : nat) : Z := default 0 (a !! i).

Definition ports_match (portlist : list Z) (flags count src dst : Z) : bool :=
  existsb (λ i, (negb (flags =? IPT_MULTIPORT_DESTINATION) && (arr portlist i =? src))
                || (negb (flags =? IPT_MULTIPORT_SOURCE) && (arr portlist i =? dst)))
    (seq 0 (Z.to_nat count)).

(** The value of [1 ^ minfo->invert] and of [minfo->invert] as a truth value. *)
Definition mp1_hit (minfo : ipt_multiport_v1) : bool := negb (Z.lxor 1 (mp1_invert minfo) =? 0).
Definition mp1_miss (minfo : ipt_multiport_v1) : bool := negb (mp1_invert minfo =? 0).

Fixpoint ports_match_v1_loop (fuel : nat) (minfo : ipt_multiport_v1) (i : nat) (src dst : Z) : bool :=
  match fuel with
  | O => mp1_miss minfo
  | S fuel =>
      if Z.of_nat i <? mp1_count minfo then
        let s := arr (mp1_ports minfo) i in
        if negb (arr (mp1_pflags minfo) i =? 0) then
          let e := arr (mp1_ports minfo) (S i) in
          let in_s := (s <=? src) && (src <=? e) in
          let in_d := (s <=? dst) && (dst <=? e) in
          if (mp1_flags minfo =? IPT_MULTIPORT_SOURCE) && in_s then mp1_hit minfo
          else if (mp1_flags minfo =? IPT_MULTIPORT_DESTINATION) && in_d then mp1_hit minfo
          else if (mp1_flags minfo =? IPT_MULTIPORT_EITHER) && (in_d || in_s) then mp1_hit minfo
          else ports_match_v1_loop fuel minfo (S (S i)) src dst
        else if (mp1_flags minfo =? IPT_MULTIPORT_SOURCE) && (src =? s) then mp1_hit minfo
        else if (mp1_flags minfo =? IPT_MULTIPORT_DESTINATION) && (dst =? s) then mp1_hit minfo
        else if (mp1_flags minfo =? IPT_MULTIPORT_EITHER) && ((src =? s) || (dst =? s)) then mp1_hit minfo
        else ports_match_v1_loop fuel minfo (S i) src dst
      else mp1_miss minfo
  end.

Definition ports_match_v1 (minfo : ipt_multiport_v1) (src dst : Z) : bool :=
  ports_match_v1_loop (Z.to_nat (mp1_count minfo)) minfo 0 src dst.

Definition multiport_match (multiinfo : ipt_multiport) (skb : sk_buff) (offset protoff : Z) : bool * bool :=
  if negb (offset =? 0) then (false, false)
  else match skb_header_pointer skb protoff 4 with
  | None => (false, true)
  | Some pptr =>
      (ports_match (mp_ports multiinfo) (mp_flags multiinfo) (mp_count multiinfo)
         (ntohs (ld16 pptr 0)) (ntohs (ld16 pptr 2)), false)
  end.

Definition multiport_match_v1 (multiinfo : ipt_multiport_v1) (skb : sk_buff) (offset protoff : Z)
    : bool * bool :=
  if negb (offset =? 0) then (false, false)
  else match skb_header_pointer skb protoff 4 with
  | None => (false, true)
  | Some pptr => (ports_match_v1 multiinfo (ntohs (ld16 pptr 0)) (ntohs (ld16 pptr 2)), false)
  end.

(** ** Connection state: [xt_conntrack.c], [xt_state.c] *)
Definition IP_CT_NUMBER := IP_CT_IS_REPLY * 2 - 1.
Definition XT_CONNTRACK_STATE_BIT (ctinfo : Z) : Z := Z.shiftl 1 (ctinfo mod IP_CT_IS_REPLY + 1).
Definition XT_CONNTRACK_STATE_INVALID := 1.
Definition XT_CONNTRACK_STATE_SNAT := Z.shiftl 1 (IP_CT_NUMBER + 1).
Definition XT_CONNTRACK_STATE_DNAT := Z.shiftl 1 (IP_CT_NUMBER + 2).
Definition XT_CONNTRACK_STATE_UNTRACKED := Z.shiftl 1 (IP_CT_NUMBER + 3).
Definition XT_STATE_UNTRACKED := Z.shiftl 1 (IP_CT_NUMBER + 1).
Definition XT_CONNTRACK_STATE := 1.
Definition XT_CONNTRACK_PROTO := 2.
Definition XT_CONNTRACK_ORIGSRC := 4.
Definition XT_CONNTRACK_ORIGDST := 8.
Definition XT_CONNTRACK_REPLSRC := 16.
Definition XT_CONNTRACK_REPLDST := 32.
Definition XT_CONNTRACK_STATUS := 64.
Definition XT_CONNTRACK_EXPIRES := 128.

(** The tuples of the rule and the masks, per direction. *)
Record xt_conntrack_info := mk_ct_info {
  statemask : Z; statusmask : Z;
  si_proto : Z; orig_src : Z; orig_dst : Z; repl_src : Z; repl_dst : Z;
  orig_smsk : Z; orig_dmsk : Z; repl_smsk : Z; repl_dmsk : Z;
  expires_min : Z; expires_max : Z; si_flags : Z; si_invflags : Z }.

Definition ct_statebit (w : fw_world) (skb : sk_buff) : Z :=
  if is_untracked w skb then XT_CONNTRACK_STATE_UNTRACKED
  else match skb_ct w skb with
  | Some _ => XT_CONNTRACK_STATE_BIT (nfctinfo skb)
  | None => XT_CONNTRACK_STATE_INVALID
  end.

Definition ct_nat_statebits (ct : ip_conntrack) : Z :=
  Z.lor (if negb (src_ip (tuple_orig ct) =? dst_ip (tuple_reply ct)) then XT_CONNTRACK_STATE_SNAT else 0)
        (if negb (dst_ip (tuple_orig ct) =? src_ip (tuple_reply ct)) then XT_CONNTRACK_STATE_DNAT else 0).

Definition ct_expires (w : fw_world) (ct : ip_conntrack) : Z :=
  if pending (timeout ct) then u32 (expires (timeout ct) - jiffies (w_env w)) / HZ else 0.

Definition conntrack_match (sinfo : xt_conntrack_info) (skb : sk_buff) (w : fw_world) : bool :=
  let ct := skb_ct w skb in
  let statebit := ct_statebit w skb in
  let fwinv b f := xorb b (flag (si_invflags sinfo) f) in
  (* [if (sinfo->flags & f) { if (!ct || FWINV(test, f)) return 0; }] *)
  let fails f test :=
    flag (si_flags sinfo) f && match ct with None => true | Some c => fwinv (test c) f end in
  let bits := Z.lor statebit (match ct with Some c => ct_nat_statebits c | None => 0 end) in
  if flag (si_flags sinfo) XT_CONNTRACK_STATE
     && fwinv (negb (flag bits (statemask sinfo))) XT_CONNTRACK_STATE then false
  else if fails XT_CONNTRACK_PROTO (λ c, negb (protonum (tuple_orig c) =? si_proto sinfo)) then false
  else if fails XT_CONNTRACK_ORIGSRC
            (λ c, negb (Z.land (src_ip (tuple_orig c)) (orig_smsk sinfo) =? orig_src sinfo)) then false
  else if fails XT_CONNTRACK_ORIGDST
            (λ c, negb (Z.land (dst_ip (tuple_orig c)) (orig_dmsk sinfo) =? orig_dst sinfo)) then false
  else if fails XT_CONNTRACK_REPLSRC
            (λ c, negb (Z.land (src_ip (tuple_reply c)) (repl_smsk sinfo) =? repl_src sinfo)) then false
  else if fails XT_CONNTRACK_REPLDST
            (λ c, negb (Z.land (dst_ip (tuple_reply c)) (repl_dmsk sinfo) =? repl_dst sinfo)) then false
  else if fails XT_CONNTRACK_STATUS (λ c, negb (flag (status c) (statusmask sinfo))) then false
  else if fails XT_CONNTRACK_EXPIRES
            (λ c, negb ((expires_min sinfo <=? ct_expires w c) && (ct_expires w c <=? expires_max sinfo)))
  then false
  else true.

Definition state_match (mask : Z) (skb : sk_buff) (w : fw_world) : bool :=
  let statebit :=
    if is_untracked w skb then XT_STATE_UNTRACKED
    else match skb_ct w skb with
    | None => XT_CONNTRACK_STATE_INVALID
    | Some _ => XT_CONNTRACK_STATE_BIT (nfctinfo skb)
    end in
  flag mask statebit.

(** ** Rate limits: [xt_limit.c] *)
Record xt_rateinfo := mk_rate {
  avg : Z; burst : Z; prev : Z; credit : Z; credit_cap : Z; cost : Z }.

Definition XT_LIMIT_SCALE := 10000.
Definition MAX_CPJ := 4294967295 / (HZ * 60 * 60 * 24).
Definition POW2_BELOW32 (x : Z) : Z :=
  let below2 x := Z.lor x (Z.shiftr x 1) in
  let below4 x := Z.lor (below2 x) (below2 (Z.shiftr x 2)) in
  let below8 x := Z.lor (below4 x) (below4 (Z.shiftr x 4)) in
  let below16 x := Z.lor (below8 x) (below8 (Z.shiftr x 8)) in
  let below32 x := Z.lor (below16 x) (below16 (Z.shiftr x 16)) in
  Z.shiftr (below32 x) 1 + 1.
Definition CREDITS_PER_JIFFY := POW2_BELOW32 MAX_CPJ.

Definition ipt_limit_match (r : xt_rateinfo) (now : Z) : bool * xt_rateinfo :=
  let c := u32 (credit r + u32 (u32 (now - prev r) * CREDITS_PER_JIFFY)) in
  let c := if credit_cap r <? c then credit_cap r else c in
  let r' c := mk_rate (avg r) (burst r) now c (credit_cap r) (cost r) in
  if cost r <=? c then (true, r' (u32 (c - cost r))) else (false, r' c).

Definition user2credits (user : Z) : Z :=
  if 4294967295 / (HZ * CREDITS_PER_JIFFY) <? user
  then u32 (user / XT_LIMIT_SCALE * HZ * CREDITS_PER_JIFFY)
  else u32 (user * HZ * CREDITS_PER_JIFFY) / XT_LIMIT_SCALE.

Definition ipt_limit_checkentry (r : xt_rateinfo) (now : Z) : bool * xt_rateinfo :=
  let cap := user2credits (u32 (avg r * burst r)) in
  if (burst r =? 0) || (cap <? user2credits (avg r)) then (false, r)
  else (true, mk_rate (avg r) (burst r) now cap cap (user2credits (avg r))).

(** ** Header fields and marks *)
Record ipt_iprange_info := mk_iprange {
  ipr_src : Z * Z; ipr_dst : Z * Z; ipr_flags : Z }.
Definition IPRANGE_SRC := 1.
Definition IPRANGE_DST := 2.
Definition IPRANGE_SRC_INV := 16.
Definition IPRANGE_DST_INV := 32.

Definition iprange_match (info : ipt_iprange_info) (skb : sk_buff) : bool :=
  let iph := skb_iph skb in
  let outside ip (r : Z * Z) := (ntohl ip <? ntohl r.1) || (ntohl r.2 <? ntohl ip) in
  if flag (ipr_flags info) IPRANGE_SRC
     && xorb (outside (saddr iph) (ipr_src info)) (flag (ipr_flags info) IPRANGE_SRC_INV) then false
  else if flag (ipr_flags info) IPRANGE_DST
          && xorb (outside (daddr iph) (ipr_dst info)) (flag (ipr_flags info) IPRANGE_DST_INV) then false
  else true.

Record xt_length_info := mk_length { len_min : Z; len_max : Z; len_invert : Z }.

(** [b ^ invert] for the truth value [b] and a byte. *)
Definition xor_byte (b : bool) (invert : Z) : bool := negb (Z.lxor (Z.b2z b) invert =? 0).

Definition length_match (info : xt_length_info) (skb : sk_buff) : bool :=
  let pktlen := ntohs (tot_len (skb_iph skb)) in
  xor_byte ((len_min info <=? pktlen) && (pktlen <=? len_max info)) (len_invert info).

Record xt_mark_info := mk_mark { mi_mark : Z; mi_mask : Z; mi_invert : Z }.
Definition mark_match (info : xt_mark_info) (skb : sk_buff) : bool :=
  xor_byte (Z.land (nfmark skb) (mi_mask info) =? mi_mark info) (mi_invert info).
Definition mark_checkentry (minfo : xt_mark_info) : bool :=
  negb ((4294967295 <? mi_mark minfo) || (4294967295 <? mi_mask minfo)).

Inductive ttl_mode := IPT_TTL_EQ | IPT_TTL_NE | IPT_TTL_LT | IPT_TTL_GT | IPT_TTL_other.
Record ipt_ttl_info := mk_ttl { ti_mode : ttl_mode; ti_ttl : Z }.
Definition ttl_match (info : ipt_ttl_info) (skb : sk_buff) : bool :=
  let t := ttl (skb_iph skb) in
  match ti_mode info with
  | IPT_TTL_EQ => t =? ti_ttl info
  | IPT_TTL_NE => negb (t =? ti_ttl info)
  | IPT_TTL_LT => t <? ti_ttl info
  | IPT_TTL_GT => ti_ttl info <? t
  | IPT_TTL_other => false
  end.

Record ipt_tos_info := mk_tos { to_tos : Z; to_invert : Z }.
Definition tos_match (info : ipt_tos_info) (skb : sk_buff) : bool :=
  xor_byte (tos (skb_iph skb) =? to_tos info) (to_invert info).

(** ** All of them behind the interface of [ip_tables.c] *)
Inductive xt_match :=
  | X_tcp (info : xt_tcp)
  | X_udp (info : xt_udp)
  | X_icmp (info : ipt_icmp)
  | X_multiport (info : ipt_multiport)
  | X_multiport_v1 (info : ipt_multiport_v1)
  | X_conntrack (info : xt_conntrack_info)
  | X_state (mask : Z)
  | X_limit (info : xt_rateinfo)
  | X_iprange (info : ipt_iprange_info)
  | X_length (info : xt_length_info)
  | X_mark (info : xt_mark_info)
  | X_ttl (info : ipt_ttl_info)
  | X_tos (info : ipt_tos_info).

Definition xt_run_match (m : xt_match) (skb : sk_buff) (offset protoff : Z) (w : fw_world)
    : bool * bool * xt_match :=
  match m with
  | X_tcp i => (tcp_match i skb offset protoff, m)
  | X_udp i => (udp_match i skb offset protoff, m)
  | X_icmp i => (icmp_match i skb offset protoff, m)
  | X_multiport i => (multiport_match i skb offset protoff, m)
  | X_multiport_v1 i => (multiport_match_v1 i skb offset protoff, m)
  | X_conntrack i => (conntrack_match i skb w, false, m)
  | X_state mask => (state_match mask skb w, false, m)
  | X_limit r => let (ok, r) := ipt_limit_match r (jiffies (w_env w)) in (ok, false, X_limit r)
  | X_iprange i => (iprange_match i skb, false, m)
  | X_length i => (length_match i skb, false, m)
  | X_mark i => (mark_match i skb, false, m)
  | X_ttl i => (ttl_match i skb, false, m)
  | X_tos i => (tos_match i skb, false, m)
  end.

Definition xt_check_match (m : xt_match) (ip : ipt_ip) (w : fw_world) : bool * xt_match :=
  match m with
  | X_tcp i => (tcp_checkentry i ip, m)
  | X_udp i => (udp_checkentry i ip, m)
  | X_icmp i => (icmp_checkentry i ip, m)
  | X_limit r => let (ok, r) := ipt_limit_checkentry r (jiffies (w_env w)) in (ok, X_limit r)
  | X_mark i => (mark_checkentry i, m)
  | _ => (true, m)
  end.
