(* ===== verification/XtTargets.v ===== *)
(** * Target extensions

    [net/ipv4/netfilter/ipt_TCPMSS.c], [ipt_REJECT.c], [ipt_MASQUERADE.c] and the SNAT
    and DNAT targets of [ip_nat_rule.c]; [net/core/dev.c:skb_checksum_help].

    At the end, matches and targets together as the instance of the interface
    [IptExt] of [ip_tables.c]. *)
From S2P Require Import Prelude Packet CtBase TcpTrack CtProtos Conntrack NatProto NatCore NatHelper IpTables XtMatches.

(** ** [skb_checksum_help]

    [None] is a [BUG_ON]; otherwise whether it failed. *)
Definition skb_checksum_help (w : fw_world) (skb : sk_buff) (inward : bool) : option (bool * sk_buff) :=
  if inward then Some (false, skb <| ip_summed := CHECKSUM_NONE |>)
  else if negb (w_writable w) then Some (true, skb)
  else
    let offset := w_h_raw w in
    if skb_len skb <? offset then None
    else
      let sum := skb_checksum skb offset (skb_len skb - offset) 0 in
      let room := skb_len skb - offset in
      if (room <=? 0) || (room <? csum skb + 2) then None
      else Some (false, skb <| data := st16 (offset + csum skb) (csum_fold sum) (data skb) |>
                            <| ip_summed := CHECKSUM_NONE |>).

(** ** TCPMSS *)

Definition TCPOPT_MSS := 2.
Definition TCPOLEN_MSS := 4.
Definition IPT_TCPMSS_CLAMP_PMTU := 65535.

Definition cheat_check (oldvalinv newval oldcheck : Z) : Z :=
  u16 (csum_fold (csum_partial (le32 oldvalinv ++ le32 newval) (Z.lxor oldcheck 65535))).

Definition mss_optlen (d : list Z) (offset : Z) : Z :=
  if (ld8 d offset <=? TCPOPT_NOP) || (ld8 d (offset + 1) =? 0) then 1 else ld8 d (offset + 1).

(** The loop over the options of the header at [h], which has [hlen] bytes: the
    offset of the MSS option in it. *)
Fixpoint find_mss (fuel : nat) (d : list Z) (h hlen i : Z) : option Z :=
  match fuel with
  | O => None
  | S fuel =>
      if i <? hlen then
        if (ld8 d (h + i) =? TCPOPT_MSS) && (TCPOLEN_MSS <=? hlen - i)
           && (ld8 d (h + i + 1) =? TCPOLEN_MSS)
        then Some i
        else find_mss fuel d h hlen (i + mss_optlen d (h + i))
      else None
  end.

Definition memmove_bytes (dst src n : Z) (d : list Z) : list Z :=
  take (Z.to_nat dst) d ++ take (Z.to_nat n) (drop (Z.to_nat src) d) ++ drop (Z.to_nat (dst + n)) d.

(** The part of [ipt_tcpmss_target] that replaces the option at offset [i]. *)
Definition replace_mss (d : list Z) (h i oldmss newmss : Z) : list Z :=
  let d := st8 (h + i + 3) (Z.land newmss 255)
             (st8 (h + i + 2) (Z.shiftr (Z.land newmss 65280) 8) d) in
  st16 (h + 16) (cheat_check (Z.lxor (htons oldmss) 65535) (htons newmss) (ld16 d (h + 16))) d.

(** The parts that add an option: the old options move up, the option is written behind
    the header and the header's length goes up by one word, then the IP header follows. *)
Definition move_options (d : list Z) (h tcplen : Z) : list Z :=
  memmove_bytes (h + 20 + TCPOLEN_MSS) (h + 20) (tcplen - 20) (d ++ replicate 4 0).

Definition put_mss (opt newmss : Z) (d : list Z) : list Z :=
  st8 (opt + 3) (Z.land newmss 255) (st8 (opt + 2) (Z.shiftr (Z.land newmss 65280) 8)
    (st8 (opt + 1) TCPOLEN_MSS (st8 opt TCPOPT_MSS d))).

(** The 4-bit field [doff] of the byte [b]. *)
Definition raise_doff (b : Z) : Z := Z.lor (Z.shiftl (Z.land (Z.shiftr b 4 + 1) 15) 4) (Z.land b 15).

Definition tcp_add_mss (d : list Z) (h tcplen newmss : Z) : list Z :=
  let opt := h + 20 in
  let d1 := st16 (h + 16) (cheat_check (Z.lxor (htons tcplen) 65535) (htons (tcplen + TCPOLEN_MSS))
                             (ld16 d (h + 16))) d in
  let d2 := put_mss opt newmss d1 in
  let d3 := st16 (h + 16) (cheat_check 4294967295 (ld32 d2 opt) (ld16 d2 (h + 16))) d2 in
  let d4 := st8 (h + 12) (raise_doff (ld8 d3 (h + 12))) d3 in
  st16 (h + 16) (cheat_check (Z.lxor (ld16 d3 (h + 12)) 65535) (ld16 d4 (h + 12)) (ld16 d4 (h + 16))) d4.

Definition ip_add_mss (d : list Z) : list Z :=
  let newtotlen := htons (ntohs (ld16 d 2) + TCPOLEN_MSS) in
  st16 2 newtotlen (st16 10 (cheat_check (Z.lxor (ld16 d 2) 65535) newtotlen (ld16 d 10)) d).

(** [None]: [memmove] is called with a negative size. *)
Definition add_mss (d : list Z) (h tcplen newmss : Z) : option (list Z) :=
  if tcplen - 20 <? 0 then None
  else Some (ip_add_mss (tcp_add_mss (move_options d h tcplen) h tcplen newmss)).

(** A packet without room for the option is copied into a larger buffer, if there is
    memory.  The [BUG] cases leave the packet alone and are recorded in [w_bug]. *)
Definition ipt_tcpmss_target (mss : Z) (skb : sk_buff) (out : option net_device) (w : fw_world)
    : Z * sk_buff * fw_world :=
  let drop skb := (NF_DROP, skb, w) in
  let bug := (NF_DROP, skb, w <| w_bug := true |>) in
  if negb (skb_make_writable (w_writable w) skb (skb_len skb)) then drop skb
  else match (if ip_summed skb =? CHECKSUM_HW
              then skb_checksum_help w skb (match out with None => true | _ => false end)
              else Some (false, skb)) with
  | None => bug
  | Some (true, skb) => drop skb
  | Some (false, skb) =>
      let d := data skb in
      let h := ihl (skb_iph skb) * 4 in
      let tcplen := u16 (skb_len skb - h) in
      let hlen := Z.shiftr (ld8 d (h + 12)) 4 * 4 in
      if negb (tcplen =? hlen) then drop skb
      else match (if mss =? IPT_TCPMSS_CLAMP_PMTU then
                    match w_dst_mtu w with
                    | None => None
                    | Some mtu => if mtu <=? 20 + 20 then None else Some (u16 (mtu - 20 - 20))
                    end
                  else Some mss) with
      | None => drop skb
      | Some newmss =>
          match find_mss (Z.to_nat hlen) d h hlen 20 with
          | Some i =>
              let oldmss := Z.lor (Z.shiftl (ld8 d (h + i + 2)) 8) (ld8 d (h + i + 3)) in
              if (mss =? IPT_TCPMSS_CLAMP_PMTU) && (oldmss <=? newmss)
              then (IPT_CONTINUE, skb, w)
              else (IPT_CONTINUE, skb <| data := replace_mss d h i oldmss newmss |>, w)
          | None =>
              if (w_tailroom w <? TCPOLEN_MSS) && negb (w_expand w) then drop skb
              else match add_mss d h tcplen newmss with
              | Some d => (IPT_CONTINUE, skb <| data := d |>, w)
              | None => bug
              end
          end
      end
  end.

Definition find_syn_match (m : xt_match) : bool :=
  match m with
  | X_tcp tcpinfo => flag (flg_cmp tcpinfo) TH_SYN && negb (flag (tcp_invflags tcpinfo) XT_TCP_INV_FLAGS)
  | _ => false
  end.

(** [hook_mask & ~mask] *)
Definition hooks_outside (hook_mask allowed : Z) : bool := negb (Z.ldiff hook_mask allowed =? 0).

Definition ipt_tcpmss_checkentry (mss : Z) (ip : ipt_ip) (ms : list xt_match) (hook_mask : Z) : bool :=
  if (mss =? IPT_TCPMSS_CLAMP_PMTU)
     && hooks_outside hook_mask (Z.lor (Z.shiftl 1 NF_IP_FORWARD)
          (Z.lor (Z.shiftl 1 NF_IP_LOCAL_OUT) (Z.shiftl 1 NF_IP_POST_ROUTING))) then false
  else (ip_proto ip =? IPPROTO_TCP) && negb (flag (ip_invflags ip) IPT_INV_PROTO)
       && existsb find_syn_match ms.

(** ** REJECT *)
Inductive ipt_reject_with :=
  | IPT_ICMP_NET_UNREACHABLE | IPT_ICMP_HOST_UNREACHABLE | IPT_ICMP_PROT_UNREACHABLE
  | IPT_ICMP_PORT_UNREACHABLE | IPT_ICMP_ECHOREPLY | IPT_ICMP_NET_PROHIBITED
  | IPT_ICMP_HOST_PROHIBITED | IPT_TCP_RESET | IPT_ICMP_ADMIN_PROHIBITED.

Definition ICMP_NET_UNREACH := 0.
Definition ICMP_HOST_UNREACH := 1.
Definition ICMP_PROT_UNREACH := 2.
Definition ICMP_PORT_UNREACH := 3.
Definition ICMP_NET_ANO := 9.
Definition ICMP_HOST_ANO := 10.
Definition ICMP_PKT_FILTERED := 13.
Definition IP_DF := 16384.

(** The segment that [send_reset] builds from the copy [d] of the packet [oth] it
    answers; [ttl] is the hop limit of the route. *)
Definition build_reset (d : list Z) (ttl : Z) : list Z :=
  let iph := iphdr_at d 0 in
  let h := ihl iph * 4 in
  let oth := tcphdr_at d h in
  let n := take (Z.to_nat (h + 20)) d in
  let n := st32 16 (saddr iph) (st32 12 (daddr iph) n) in
  let n := st16 (h + 2) (th_source oth) (st16 h (th_dest oth) n) in
  let n := st8 (h + 12) (Z.lor (Z.shiftl 5 4) (Z.land (ld8 n (h + 12)) 15)) n in
  let n := st16 2 (htons (h + 20)) n in
  let '(needs_ack, seq, ack_seq) :=
    if th_ack oth then (0, th_ack_seq oth, 0)
    else (1, 0, htonl (ntohl (th_seq oth) + Z.b2z (th_syn oth) + Z.b2z (th_fin oth)
                       + Z.of_nat (length d) - h - Z.shiftl (th_doff oth) 2)) in
  let n := st32 (h + 8) ack_seq (st32 (h + 4) seq n) in
  let n := st8 (h + 13) (TH_RST + TH_ACK * needs_ack) n in
  let n := st16 (h + 18) 0 (st16 (h + 14) 0 n) in
  let n := st16 (h + 16) 0 n in
  let n := st16 (h + 16) (csum_tcpudp_magic (ld32 n 12) (ld32 n 16) 20 IPPROTO_TCP
                            (csum_partial (take 20 (drop (Z.to_nat h) n)) 0)) n in
  let n := st16 4 0 (st16 6 (htons IP_DF) (st8 8 ttl n)) in
  let n := st16 10 0 n in
  st16 10 (csum_fold (csum_partial (take (Z.to_nat h) n) 0)) n.

Definition send_reset (oldskb : sk_buff) (hook : Z) (w : fw_world) : fw_world :=
  let d := data oldskb in
  let iph := skb_iph oldskb in
  let h := ihl iph * 4 in
  if flag (frag_off iph) (htons IP_OFFSET) then w
  else match skb_header_pointer oldskb h 20 with
  | None => w
  | Some hdr =>
      let oth := tcphdr_at hdr 0 in
      let tcplen := skb_len oldskb - h in
      let local_in := hook =? NF_IP_LOCAL_IN in
      let sum := if ip_summed oldskb =? CHECKSUM_HW then csum oldskb
                 else skb_checksum oldskb h tcplen 0 in
      if th_rst oth then w
      else if ((negb local_in && negb (ip_summed oldskb =? CHECKSUM_HW))
               || (local_in && negb (ip_summed oldskb =? CHECKSUM_UNNECESSARY)))
              && negb (csum_tcpudp_magic (saddr iph) (daddr iph) tcplen IPPROTO_TCP sum =? 0)
      then w
      else match w_reverse w oldskb with
      | None => w
      | Some (ttl, mtu) =>
          let n := build_reset d ttl in
          if mtu <? Z.of_nat (length n) then w
          else
            let nskb := oldskb <| data := n |> <| nfct := None |> <| nfmark := 0 |> in
            let (nskb, s) := ip_conntrack_attach nskb oldskb (w_ct w) in
            w <| w_ct := s |> <| w_sent := w_sent w ++ [inr nskb] |>
      end
  end.

Definition reject (with_ : ipt_reject_with) (skb : sk_buff) (hooknum : Z) (w : fw_world)
    : Z * sk_buff * fw_world :=
  let unreach code := (NF_DROP, skb, w <| w_sent := w_sent w ++ [inl code] |>) in
  if negb (ihl (skb_iph skb) * 4 =? 20) then (NF_DROP, skb, w)
  else match with_ with
  | IPT_ICMP_NET_UNREACHABLE => unreach ICMP_NET_UNREACH
  | IPT_ICMP_HOST_UNREACHABLE => unreach ICMP_HOST_UNREACH
  | IPT_ICMP_PROT_UNREACHABLE => unreach ICMP_PROT_UNREACH
  | IPT_ICMP_PORT_UNREACHABLE => unreach ICMP_PORT_UNREACH
  | IPT_ICMP_NET_PROHIBITED => unreach ICMP_NET_ANO
  | IPT_ICMP_HOST_PROHIBITED => unreach ICMP_HOST_ANO
  | IPT_ICMP_ADMIN_PROHIBITED => unreach ICMP_PKT_FILTERED
  | IPT_TCP_RESET => (NF_DROP, skb, send_reset skb hooknum w)
  | IPT_ICMP_ECHOREPLY => (NF_DROP, skb, w)
  end.

(** Table names. *)
Definition name_filter : list Z := [102; 105; 108; 116; 101; 114].
Definition name_nat : list Z := [110; 97; 116].

Definition reject_check (with_ : ipt_reject_with) (tablename : list Z) (ip : ipt_ip) (hook_mask : Z) : bool :=
  if negb (bool_decide (tablename = name_filter)) then false
  else if hooks_outside hook_mask (Z.lor (Z.shiftl 1 NF_IP_LOCAL_IN)
            (Z.lor (Z.shiftl 1 NF_IP_FORWARD) (Z.shiftl 1 NF_IP_LOCAL_OUT))) then false
  else match with_ with
  | IPT_ICMP_ECHOREPLY => false
  | IPT_TCP_RESET => (ip_proto ip =? IPPROTO_TCP) && negb (flag (ip_invflags ip) IPT_INV_PROTO)
  | _ => true
  end.

(** ** SNAT, DNAT *)

(** [struct ip_nat_multi_range_compat]; only [range[0]] is used. *)
Record ip_nat_multi_range := mk_mr { rangesize : Z; range0 : ip_nat_range }.

(** [ip_nat_setup_info] on a conntrack, and on the conntrack of a packet. *)
Definition setup_ct (p : positive) (range : ip_nat_range) (hooknum : Z) (w : fw_world) : Z * fw_world :=
  match ip_nat_setup_info (w_env w) p range hooknum (w_nat w) (w_ct w) with
  | Some (ret, v, s) => (ret, w <| w_nat := v |> <| w_ct := s |>)
  | None => (NF_DROP, w <| w_bug := true |>)
  end.
Definition setup_for (skb : sk_buff) (range : ip_nat_range) (hooknum : Z) (w : fw_world) : Z * fw_world :=
  match nfct skb with
  | Some p => setup_ct p range hooknum w
  | None => (NF_DROP, w <| w_bug := true |>)
  end.

Definition ipt_snat_target (mr : ip_nat_multi_range) (skb : sk_buff) (hooknum : Z) (w : fw_world)
    : Z * fw_world :=
  setup_for skb (range0 mr) hooknum w.

(** [warn_if_extra_mangle] only prints. *)
Definition ipt_dnat_target (mr : ip_nat_multi_range) (skb : sk_buff) (hooknum : Z) (w : fw_world)
    : Z * fw_world :=
  setup_for skb (range0 mr) hooknum w.

Definition ipt_snat_checkentry (mr : ip_nat_multi_range) (tablename : list Z) (hook_mask : Z) : bool :=
  if negb (rangesize mr =? 1) then false
  else if negb (bool_decide (tablename = name_nat)) then false
  else if hooks_outside hook_mask (Z.shiftl 1 NF_IP_POST_ROUTING) then false
  else true.

Definition ipt_dnat_checkentry (mr : ip_nat_multi_range) (tablename : list Z) (hook_mask : Z) : bool :=
  if negb (rangesize mr =? 1) then false
  else if negb (bool_decide (tablename = name_nat)) then false
  else if hooks_outside hook_mask (Z.lor (Z.shiftl 1 NF_IP_PRE_ROUTING) (Z.shiftl 1 NF_IP_LOCAL_OUT))
  then false
  else true.

(** ** MASQUERADE *)
Definition HNAT_SOURCE_PORT_BASE := 50000.

Definition masquerade_check (mr : ip_nat_multi_range) (tablename : list Z) (hook_mask : Z) : bool :=
  if negb (bool_decide (tablename = name_nat)) then false
  else if hooks_outside hook_mask (Z.shiftl 1 NF_IP_POST_ROUTING) then false
  else if flag (r_flags (range0 mr)) IP_NAT_RANGE_MAP_IPS then false
  else if negb (rangesize mr =? 1) then false
  else true.

(** With [CONFIG_STR9100_SHNAT] the range of the rule itself is rewritten. *)
Definition shnat_range (w : fw_world) (skb : sk_buff) (r : ip_nat_range) : ip_nat_range :=
  match w_shnat w with
  | None => r
  | Some hooks =>
      let hnat_hash := preadd_hnatable hooks skb in
      if (0 <=? hnat_hash) && (check_ftponly_enable hooks =? 0) then
        mk_range IP_NAT_RANGE_PROTO_SPECIFIED (min_ip r) (max_ip r) (htons hnat_hash) (htons hnat_hash)
      else if check_shnat_enable hooks =? 1 then
        mk_range (r_flags r) (min_ip r) (max_ip r) (htons 0) (htons (HNAT_SOURCE_PORT_BASE - 1))
      else r
  end.

Definition set_masq_index (p : positive) (i : Z) (w : fw_world) : fw_world :=
  w <| w_ct := upd_ct p (λ c, c <| masq_index := i |>) (w_ct w) |>.

(** The verdict, the rule's data and the state. *)
Definition masquerade_target (mr : ip_nat_multi_range) (skb : sk_buff) (out : option net_device)
    (hooknum : Z) (w : fw_world) : Z * ip_nat_multi_range * fw_world :=
  match p ← nfct skb; ct ← cts (w_ct w) !! p; dev ← out; Some (p, ct, dev) with
  | None => (NF_DROP, mr, w <| w_bug := true |>)
  | Some (p, ct, dev) =>
      if src_ip (tuple_orig ct) =? 0 then (NF_ACCEPT, mr, w)
      else
        let newsrc := w_select_addr w dev in
        if newsrc =? 0 then (NF_DROP, mr, w)
        else
          let w := set_masq_index p (ifindex dev) w in
          let mr := mk_mr (rangesize mr) (shnat_range w skb (range0 mr)) in
          let r := range0 mr in
          let newrange := mk_range (Z.lor (r_flags r) IP_NAT_RANGE_MAP_IPS) newsrc newsrc
                            (r_min r) (r_max r) in
          let (ret, w) := setup_for skb newrange hooknum w in
          (ret, mr, w)
  end.

Definition device_cmp (i : Z) (ct : ip_conntrack) : bool := masq_index ct =? i.

(** [masq_device_event] and [masq_inet_event] for [NETDEV_DOWN]; other events do
    nothing. *)
Definition masq_device_event (fuel : nat) (env : ct_env) (down : bool) (i : Z) (s : ct_state)
    : option ct_state :=
  if down then ip_ct_iterate_cleanup fuel env (device_cmp i) 0 s else Some s.

(** ** The interface *)
Inductive xt_target :=
  | X_TCPMSS (mss : Z)
  | X_REJECT (with_ : ipt_reject_with)
  | X_SNAT (mr : ip_nat_multi_range)
  | X_DNAT (mr : ip_nat_multi_range)
  | X_MASQUERADE (mr : ip_nat_multi_range).

Definition xt_run_target (t : xt_target) (skb : sk_buff) (out : option net_device) (hooknum : Z)
    (w : fw_world) : Z * sk_buff * xt_target * fw_world :=
  match t with
  | X_TCPMSS mss =>
      let '(v, skb, w) := ipt_tcpmss_target mss skb out w in (v, skb, t, w)
  | X_REJECT r => let '(v, skb, w) := reject r skb hooknum w in (v, skb, t, w)
  | X_SNAT mr => let (v, w) := ipt_snat_target mr skb hooknum w in (v, skb, t, w)
  | X_DNAT mr => let (v, w) := ipt_dnat_target mr skb hooknum w in (v, skb, t, w)
  | X_MASQUERADE mr =>
      let '(v, mr, w) := masquerade_target mr skb out hooknum w in (v, skb, X_MASQUERADE mr, w)
  end.

Definition xt_check_target (t : xt_target) (name : list Z) (ip : ipt_ip) (ms : list xt_match)
    (hook_mask : Z) : bool :=
  match t with
  | X_TCPMSS mss => ipt_tcpmss_checkentry mss ip ms hook_mask
  | X_REJECT r => reject_check r name ip hook_mask
  | X_SNAT mr => ipt_snat_checkentry mr name hook_mask
  | X_DNAT mr => ipt_dnat_checkentry mr name hook_mask
  | X_MASQUERADE mr => masquerade_check mr name hook_mask
  end.

#[export] Instance fw_ext : IptExt xt_match xt_target fw_world := {
  ext_match m skb inp out offset protoff w :=
    let '(ok, drop, m) := xt_run_match m skb offset protoff w in (ok, drop, m, w);
  ext_target t skb inp out hook w := xt_run_target t skb out hook w;
  ext_match_check m name ip hook_mask w := xt_check_match m ip w;
  ext_target_check t name ip ms hook_mask w := (xt_check_target t name ip ms hook_mask, t) }.
