(* ===== verification/NatHooks.v ===== *)
(** * NAT at the netfilter hooks

    [net/ipv4/netfilter/ip_nat_standalone.c] and the rest of [ip_nat_rule.c]: the nat
    table decides about the first packet of a connection, the result is recorded in the
    conntrack, and this and all later packets are translated by it.

    A hook function returns the verdict, the nat table (its counters, and the range of a
    MASQUERADE rule, change), the packet and the state.  [None] is a [BUG_ON], an
    indeterminate value or, for the traversal of the table, missing fuel. *)
From S2P Require Import Prelude Packet CtBase TcpTrack CtProtos Conntrack NatProto NatCore NatHelper IpTables XtMatches XtTargets.

Abbreviation nat_info := (xt_table_info (M:=xt_match) (T:=xt_target)).
Abbreviation nat_blob := (gmap Z (ipt_entry xt_match xt_target)).

(** ** [ip_nat_rule.c] *)

(** The address that a null binding keeps. *)
Definition bound_ip (conntrack : ip_conntrack) (hooknum : Z) : Z :=
  match HOOK2MANIP hooknum with
  | IP_NAT_MANIP_SRC => dst_ip (tuple_reply conntrack)
  | IP_NAT_MANIP_DST => src_ip (tuple_reply conntrack)
  end.

Definition alloc_null_binding (p : positive) (conntrack : ip_conntrack) (hooknum : Z) (w : fw_world)
    : Z * fw_world :=
  let ip := bound_ip conntrack hooknum in
  setup_ct p (mk_range IP_NAT_RANGE_MAP_IPS ip ip 0 0) hooknum w.

Definition alloc_null_binding_confirmed (p : positive) (conntrack : ip_conntrack) (hooknum : Z)
    (w : fw_world) : Z * fw_world :=
  let ip := bound_ip conntrack hooknum in
  let all := match HOOK2MANIP hooknum with
             | IP_NAT_MANIP_SRC => dst_u (tuple_reply conntrack)
             | IP_NAT_MANIP_DST => src_u (tuple_reply conntrack)
             end in
  setup_ct p (mk_range IP_NAT_RANGE_MAP_IPS ip ip all all) hooknum w.

Definition ip_nat_rule_find (fuel : nat) (nat_table : nat_info) (skb : sk_buff) (hooknum : Z)
    (inp out : option net_device) (p : positive) (w : fw_world)
    : option (Z * nat_blob * sk_buff * fw_world) :=
  '(ret, tbl, skb, w) ← ipt_do_table fuel nat_table skb hooknum inp out w;
  if ret =? NF_ACCEPT then
    ct ← cts (w_ct w) !! p;
    if negb (ip_nat_initialized ct (HOOK2MANIP hooknum)) then
      let (ret, w) := alloc_null_binding p ct hooknum w in Some (ret, tbl, skb, w)
    else Some (ret, tbl, skb, w)
  else Some (ret, tbl, skb, w).

(** ** [ip_nat_standalone.c] *)

(** An ICMP redirect that belongs to no connection. *)
Definition stray_redirect (skb : sk_buff) : bool :=
  (protocol (skb_iph skb) =? IPPROTO_ICMP)
  && match skb_header_pointer skb (ihl (skb_iph skb) * 4) sizeof_icmphdr with
     | Some hp => icmp_type (icmphdr_at hp 0) =? ICMP_REDIRECT
     | None => false
     end.

(** The set-up of a conntrack whose packet has not been through this hook yet. *)
Definition nat_setup (fuel : nat) (nat_table : nat_info) (skb : sk_buff) (hooknum : Z)
    (inp out : option net_device) (p : positive) (ct : ip_conntrack) (w : fw_world)
    : option (Z * nat_blob * sk_buff * fw_world) :=
  if is_confirmed ct then
    let (ret, w) := alloc_null_binding_confirmed p ct hooknum w in Some (ret, t_entries nat_table, skb, w)
  else if hooknum =? NF_IP_LOCAL_IN then
    let (ret, w) := alloc_null_binding p ct hooknum w in Some (ret, t_entries nat_table, skb, w)
  else ip_nat_rule_find fuel nat_table skb hooknum inp out p w.

(** The part of [ip_nat_fn] for a packet of the conntrack [p]. *)
Definition nat_fn_ct (fuel : nat) (nat_table : nat_info) (skb : sk_buff) (hooknum : Z)
    (inp out : option net_device) (p : positive) (ct : ip_conntrack) (w : fw_world)
    : option (Z * nat_blob * sk_buff * fw_world) :=
  let tbl := t_entries nat_table in
  let maniptype := HOOK2MANIP hooknum in
  let ctinfo := nfctinfo skb in
  let related := (ctinfo =? IP_CT_RELATED) || (ctinfo =? IP_CT_RELATED + IP_CT_IS_REPLY) in
  if related && (protocol (skb_iph skb) =? IPPROTO_ICMP) then
    '(r, skb) ← ip_nat_icmp_reply_translation (w_writable w) skb ct maniptype (CTINFO2DIR ctinfo);
    Some (if r : bool then NF_ACCEPT else NF_DROP, tbl, skb, w)
  else
    '(ret, tbl, skb, w) ←
      (if (related || (ctinfo =? IP_CT_NEW)) && negb (ip_nat_initialized ct maniptype)
       then nat_setup fuel nat_table skb hooknum inp out p ct w
       else Some (NF_ACCEPT, tbl, skb, w));
    if negb (ret =? NF_ACCEPT) then Some (ret, tbl, skb, w)
    else
      ct ← cts (w_ct w) !! p;
      '(ret, skb) ← ip_nat_packet (w_writable w) ct ctinfo hooknum skb;
      Some (ret, tbl, skb, w).

Definition ip_nat_fn (fuel : nat) (nat_table : nat_info) (hooknum : Z) (skb : sk_buff)
    (inp out : option net_device) (w : fw_world) : option (Z * nat_blob * sk_buff * fw_world) :=
  let tbl := t_entries nat_table in
  '(failed, skb) ← (if ip_summed skb =? CHECKSUM_HW
                    then skb_checksum_help w skb (match out with None => true | _ => false end)
                    else Some (false, skb));
  if failed : bool then Some (NF_DROP, tbl, skb, w)
  else match nfct skb with
  | None => Some (if stray_redirect skb then NF_DROP else NF_ACCEPT, tbl, skb, w)
  | Some p =>
      if is_untracked w skb then Some (NF_ACCEPT, tbl, skb, w)
      else ct ← cts (w_ct w) !! p; nat_fn_ct fuel nat_table skb hooknum inp out p ct w
  end.

Definition verdict_passed (ret : Z) : bool := negb (ret =? NF_DROP) && negb (ret =? NF_STOLEN).

(** The route of a packet with a new destination is forgotten. *)
Definition ip_nat_in (fuel : nat) (nat_table : nat_info) (hooknum : Z) (skb : sk_buff)
    (inp out : option net_device) (w : fw_world) : option (Z * nat_blob * sk_buff * fw_world) :=
  let daddr0 := daddr (skb_iph skb) in
  '(ret, tbl, skb, w) ← ip_nat_fn fuel nat_table hooknum skb inp out w;
  Some (ret, tbl, skb,
        if verdict_passed ret && negb (daddr0 =? daddr (skb_iph skb)) then w <| w_dst_mtu := None |> else w).

(** "root is playing with raw sockets" *)
Definition raw_packet (skb : sk_buff) : bool := (skb_len skb <? 20) || (ihl (skb_iph skb) * 4 <? 20).

(** [xfrm_me_harder] and [route_me_harder] say whether the packet's new route could be
    found ([net/ipv4/netfilter.c]). *)
Section Rerouting.
Context (xfrm_me_harder route_me_harder : sk_buff → bool).

Definition ip_nat_out (fuel : nat) (nat_table : nat_info) (hooknum : Z) (skb : sk_buff)
    (inp out : option net_device) (w : fw_world) : option (Z * nat_blob * sk_buff * fw_world) :=
  if raw_packet skb then Some (NF_ACCEPT, t_entries nat_table, skb, w)
  else
    '(ret, tbl, skb, w) ← ip_nat_fn fuel nat_table hooknum skb inp out w;
    let ret := match (if verdict_passed ret then skb_ct w skb else None) with
               | Some ct =>
                   let dir := CTINFO2DIR (nfctinfo skb) in
                   let this := tuplehash ct dir in
                   let other := tuplehash ct (dir_neg dir) in
                   if negb (src_ip this =? dst_ip other) || negb (src_u this =? dst_u other)
                   then if xfrm_me_harder skb then ret else NF_DROP
                   else ret
               | None => ret
               end in
    Some (ret, tbl, skb, w).

Definition ip_nat_local_fn (fuel : nat) (nat_table : nat_info) (hooknum : Z) (skb : sk_buff)
    (inp out : option net_device) (w : fw_world) : option (Z * nat_blob * sk_buff * fw_world) :=
  if raw_packet skb then Some (NF_ACCEPT, t_entries nat_table, skb, w)
  else
    '(ret, tbl, skb, w) ← ip_nat_fn fuel nat_table hooknum skb inp out w;
    let ret := match (if verdict_passed ret then skb_ct w skb else None) with
               | Some ct =>
                   let dir := CTINFO2DIR (nfctinfo skb) in
                   let this := tuplehash ct dir in
                   let other := tuplehash ct (dir_neg dir) in
                   if negb (dst_ip this =? src_ip other) || negb (dst_u this =? src_u other)
                   then if route_me_harder skb then ret else NF_DROP
                   else ret
               | None => ret
               end in
    Some (ret, tbl, skb, w).
End Rerouting.

Definition ip_nat_adjust (skb : sk_buff) (w : fw_world) : option (Z * sk_buff * fw_world) :=
  match nfct skb, skb_ct w skb with
  | Some p, Some ct =>
      if test_bit IPS_SEQ_ADJUST_BIT ct then
        '(r, skb, ct) ← ip_nat_seq_adjust (w_writable w) skb ct (nfctinfo skb);
        Some (if r : bool then NF_ACCEPT else NF_DROP, skb,
              w <| w_ct := upd_ct p (λ _, ct) (w_ct w) |>)
      else Some (NF_ACCEPT, skb, w)
  | _, _ => Some (NF_ACCEPT, skb, w)
  end.

(** ** The addresses that IPsec policies see

    [nat_decode_session], with the fields of [struct flowi] it sets. *)
Record flowi := mk_flowi { fl4_dst : Z; fl4_src : Z; fl_ip_dport : Z; fl_ip_sport : Z }.

Definition nat_decode_session (skb : sk_buff) (fl : flowi) (w : fw_world) : flowi :=
  match skb_ct w skb with
  | None => fl
  | Some ct =>
      let dir := CTINFO2DIR (nfctinfo skb) in
      let t := tuplehash ct dir in
      let ports := (protonum t =? IPPROTO_TCP) || (protonum t =? IPPROTO_UDP) in
      let statusbit := match dir with IP_CT_DIR_ORIGINAL => IPS_DST_NAT | IP_CT_DIR_REPLY => IPS_SRC_NAT end in
      let fl := if flag (status ct) statusbit
                then mk_flowi (dst_ip t) (fl4_src fl) (if ports then dst_u t else fl_ip_dport fl) (fl_ip_sport fl)
                else fl in
      let statusbit := Z.lxor statusbit IPS_NAT_MASK in
      if flag (status ct) statusbit
      then mk_flowi (fl4_dst fl) (src_ip t) (fl_ip_dport fl) (if ports then src_u t else fl_ip_sport fl)
      else fl
  end.

(** ** Expected connections follow their master

    [ip_nat_follow_master] of [ip_nat_helper.c].  [exp_dir] and [saved_proto] are the
    fields of the expectation, the ports of the first range are not initialised and not
    read; [preadd] is the hardware-NAT module's hook (source
    address, source port, destination port, protocol).  [None]: the [BUG_ON], or no
    master. *)
Definition follow_range (preadd : Z → Z → Z → Z → Z) (exp_dir : ip_conntrack_dir)
    (ct master : ip_conntrack) (range : ip_nat_range) (w : fw_world) : ip_nat_range :=
  match w_shnat w with
  | None => range
  | Some hooks =>
      if (ntohs (dst_u (tuple_orig master)) =? 21)
         && (((ntohs (dst_u (tuple_reply ct)) =? 20) && (dst_ip (tuple_orig master) =? dst_ip (tuple_orig ct)))
             || ((ntohs (dst_u (tuple_orig master)) =? 21)
                 && (dst_ip (tuple_orig ct) =? dst_ip (tuple_orig master))
                 && negb (dst_ip (tuple_reply ct) =? dst_ip (tuple_reply master))))
      then
        let t := tuplehash ct exp_dir in
        let hnat_hash := preadd (src_ip t) (src_u t) (dst_u t) IPPROTO_TCP + HNAT_SOURCE_PORT_BASE in
        if (0 <=? hnat_hash) && (check_ftponly_enable hooks =? 0) then
          mk_range (Z.lor (r_flags range) IP_NAT_RANGE_PROTO_SPECIFIED) (min_ip range) (max_ip range)
            (htons hnat_hash) (htons hnat_hash)
        else if check_shnat_enable hooks =? 1 then
          mk_range (r_flags range) (min_ip range) (max_ip range) (htons 0) (htons (HNAT_SOURCE_PORT_BASE - 1))
        else range
      else range
  end.

Definition ip_nat_follow_master (preadd : Z → Z → Z → Z → Z) (p : positive)
    (exp_dir : ip_conntrack_dir) (saved_proto : Z) (w : fw_world) : option fw_world :=
  ct ← cts (w_ct w) !! p;
  if flag (status ct) IPS_NAT_DONE_MASK then None
  else
    m ← ct_master ct;
    master ← cts (w_ct w) !! m;
    let reply := tuplehash master (dir_neg exp_dir) in
    let range := follow_range preadd exp_dir ct master
                   (mk_range IP_NAT_RANGE_MAP_IPS (dst_ip reply) (dst_ip reply) 0 0) w in
    let w := (setup_ct p range NF_IP_POST_ROUTING w).2 in
    master ← cts (w_ct w) !! m;
    let reply := tuplehash master (dir_neg exp_dir) in
    let range := mk_range (Z.lor IP_NAT_RANGE_MAP_IPS IP_NAT_RANGE_PROTO_SPECIFIED)
                   (src_ip reply) (src_ip reply) saved_proto saved_proto in
    Some (setup_ct p range NF_IP_PRE_ROUTING w).2.
