(* ===== verification/XtFacts.v ===== *)
(** * Match extensions: rate limits and port lists

    The token bucket of [xt_limit.c] against its description (never faster than the
    rate, never refusing traffic below it) and where 32-bit arithmetic breaks that; the
    encoded port lists of [ipt_multiport.c] against the list of ports and ranges they
    stand for. *)
From S2P Require Import Prelude Packet CtBase TcpTrack CtProtos Conntrack NatProto IpTables XtMatches.

(** ** The token bucket *)
Lemma credits_per_jiffy : CREDITS_PER_JIFFY = 256.
Proof. reflexivity. Qed.

Record rate_wf (r : xt_rateinfo) : Prop := mk_rate_wf {
  rw_credit : 0 <= credit r <= credit_cap r;
  rw_cap : credit_cap r < 4294967296;
  rw_cost : 0 <= cost r <= credit_cap r;
  rw_prev : is_u32 (prev r) }.

Lemma user2credits_range u : is_u32 (user2credits u).
Proof.
  unfold user2credits, HZ. rewrite credits_per_jiffy. unfold XT_LIMIT_SCALE.
  destruct (_ <? u); [apply u32_range|]. pose proof (u32_range (u * 100 * 256)). unfold is_u32 in *.
  split; [apply Z.div_pos; lia|]. apply Z.div_lt_upper_bound; lia.
Qed.

Lemma limit_checkentry_wf r now r' : is_u32 now → ipt_limit_checkentry r now = (true, r') →
  rate_wf r' ∧ prev r' = now ∧ credit r' = credit_cap r'.
Proof.
  intros Hn. unfold ipt_limit_checkentry. destruct (_ || _) eqn:E; [done|]. intros [= <-].
  apply orb_false_iff in E as [_ Hlt%Z.ltb_ge].
  pose proof (user2credits_range (u32 (avg r * burst r))). pose proof (user2credits_range (avg r)).
  unfold is_u32 in *. split; [|done]. split; simpl; unfold is_u32; lia.
Qed.

(** One packet: what is charged is covered by the credit and the time that passed. *)
Lemma limit_match_step r now : rate_wf r → is_u32 now →
  let '(ok, r') := ipt_limit_match r now in
  rate_wf r' ∧ prev r' = now ∧ cost r' = cost r ∧ credit_cap r' = credit_cap r ∧
  (if ok then cost r else 0) + credit r' <= credit r + 256 * u32 (now - prev r).
Proof.
  intros [Hc Hcap Hcost Hp] Hn. unfold ipt_limit_match. rewrite credits_per_jiffy.
  pose proof (u32_range (now - prev r)) as Hd. set (d := u32 (now - prev r)) in *.
  assert (u32 (credit r + u32 (d * 256)) <= credit r + 256 * d) as Hle.
  { unfold is_u32 in Hd. pose proof (Z.mod_le (credit r + u32 (d * 256)) 4294967296).
    pose proof (Z.mod_le (d * 256) 4294967296). pose proof (u32_range (d * 256)). unfold u32, is_u32 in *. lia. }
  pose proof (u32_range (credit r + u32 (d * 256))) as Hx. set (x := u32 (credit r + u32 (d * 256))) in *.
  clearbody x d. unfold is_u32 in *.
  set (c := if credit_cap r <? x then credit_cap r else x).
  assert (0 <= c <= credit_cap r ∧ c <= x) as [Hc' Hcx] by (subst c; destruct (Z.ltb_spec (credit_cap r) x); lia).
  clearbody c. destruct (Z.leb_spec (cost r) c).
  - assert (u32 (c - cost r) = c - cost r) as Hu by (apply u32_id; unfold is_u32; lia).
    split_and!; try done; simpl; rewrite ?Hu; try lia; split; simpl; rewrite ?Hu; unfold is_u32; lia.
  - split_and!; try done; simpl; try lia; split; simpl; unfold is_u32; lia.
Qed.

(** Packets at the times [ts] (in jiffies since boot, which the counter shows modulo
    [2^32]): the results, and the state behind the last one. *)
Fixpoint limit_run (r : xt_rateinfo) (ts : list Z) : list bool * xt_rateinfo :=
  match ts with
  | [] => ([], r)
  | t :: ts =>
      let (ok, r) := ipt_limit_match r (u32 t) in
      let (oks, r) := limit_run r ts in
      (ok :: oks, r)
  end.

(** The times are in order, starting from [t]. *)
Fixpoint ordered_from (t : Z) (ts : list Z) : Prop :=
  match ts with [] => True | t' :: ts => t <= t' ∧ ordered_from t' ts end.

Definition passed (oks : list bool) : Z := Z.of_nat (length (filter (λ b, Is_true b) oks)).

Lemma passed_cons b oks : passed (b :: oks) = (if b then 1 else 0) + passed oks.
Proof. unfold passed. rewrite filter_cons. destruct b; simpl; lia. Qed.

Lemma elapsed_le t t' : t <= t' → u32 (u32 t' - u32 t) <= t' - t.
Proof.
  intros Hle. unfold u32. rewrite <- Zminus_mod. apply Z.mod_le; lia.
Qed.

(** C40: The token bucket never lets packets through faster than its rate: whatever the
    arrival times, over a period of [d] jiffies at most (bucket size + 256 * d) / cost
    packets match, and the bucket stays within its size.  This holds across overflow of
    the jiffies counter and of the credit computation, which can only lose credit. *)
Theorem limit_rate_bound r t ts oks r' :
  rate_wf r → prev r = u32 t → ordered_from t ts → limit_run r ts = (oks, r') →
  rate_wf r' ∧
  passed oks * cost r + credit r' <= credit r + 256 * (List.last ts t - t) ∧
  passed oks * cost r <= credit_cap r + 256 * (List.last ts t - t).
Proof.
  intros Hr Hp Ho Hrun.
  enough (rate_wf r' ∧ passed oks * cost r + credit r' <= credit r + 256 * (List.last ts t - t)) as [H1 H2].
  { split_and!; [done..|]. pose proof (rw_credit r Hr). pose proof (rw_credit r' H1). lia. }
  revert r t oks r' Hr Hp Ho Hrun.
  induction ts as [|t1 ts IH]; intros r t oks r' Hr Hp Ho Hrun.
  { simpl in Hrun. injection Hrun as <- <-. split; [done|]. unfold passed. simpl. lia. }
  simpl in Ho. destruct Ho as [Hle Ho]. cbn [limit_run] in Hrun.
  pose proof (limit_match_step r (u32 t1) Hr (u32_range t1)) as Hs.
  destruct (ipt_limit_match r (u32 t1)) as [ok r1]. destruct Hs as (Hr1 & Hp1 & Hc1 & _ & Hb).
  destruct (limit_run r1 ts) as [oks1 r2] eqn:E. injection Hrun as <- <-.
  destruct (IH r1 t1 oks1 r2 Hr1 Hp1 Ho E) as [Hr2 Hb2]. split; [done|].
  pose proof (elapsed_le t t1 Hle). rewrite <- Hp in H. rewrite passed_cons. rewrite Hc1 in Hb2.
  assert (List.last (t1 :: ts) t = List.last ts t1) as ->.
  { destruct ts; [done|]. simpl. clear. generalize t1 t. induction ts; intros; [done|]. simpl. destruct ts; done. }
  destruct ok; lia.
Qed.

(** A packet that comes when the credit has been earned matches. *)
Lemma limit_match_ok r t t1 : rate_wf r → prev r = u32 t → 0 <= t1 - t →
  cost r <= 256 * (t1 - t) → credit_cap r + 256 * (t1 - t) < 4294967296 →
  (ipt_limit_match r (u32 t1)).1 = true.
Proof.
  intros [Hc Hcap Hcost _] Hp H0 Hlo Hhi. unfold ipt_limit_match. rewrite credits_per_jiffy, Hp.
  assert (u32 (u32 t1 - u32 t) = t1 - t) as ->.
  { unfold u32. rewrite <- Zminus_mod. apply Z.mod_small. lia. }
  rewrite (u32_id ((t1 - t) * 256)), u32_id by (unfold is_u32; lia).
  destruct (Z.ltb_spec (credit_cap r) (credit r + (t1 - t) * 256)).
  - by rewrite (proj2 (Z.leb_le _ _)) by lia.
  - by rewrite (proj2 (Z.leb_le _ _)) by lia.
Qed.

(** The gaps between the times, starting from [t], are all between [lo] and [hi]. *)
Fixpoint gaps_between (lo hi t : Z) (ts : list Z) : Prop :=
  match ts with [] => True | t' :: ts => lo <= t' - t <= hi ∧ gaps_between lo hi t' ts end.

(** Traffic that keeps to the rate is never refused: when at least cost / 256 jiffies
    pass between packets (and not so many that the 32-bit credit overflows), every
    packet matches, from any state of the bucket. *)
Lemma limit_passes r t ts lo hi oks r' :
  rate_wf r → prev r = u32 t → cost r <= 256 * lo → credit_cap r + 256 * hi < 4294967296 →
  gaps_between lo hi t ts → limit_run r ts = (oks, r') → Forall (λ ok, ok = true) oks.
Proof.
  intros Hr Hp Hlo Hhi Hg Hrun. revert r t oks r' Hr Hp Hlo Hhi Hg Hrun.
  induction ts as [|t1 ts IH]; intros r t oks r' Hr Hp Hlo Hhi Hg Hrun.
  { simpl in Hrun. by injection Hrun as <- <-. }
  destruct Hg as [Hgap Hg]. cbn [limit_run] in Hrun.
  pose proof (limit_match_step r (u32 t1) Hr (u32_range t1)) as Hs.
  destruct (ipt_limit_match r (u32 t1)) as [ok r1] eqn:Em. destruct Hs as (Hr1 & Hp1 & Hc1 & Hcap1 & _).
  destruct (limit_run r1 ts) as [oks1 r2] eqn:E. injection Hrun as <- <-.
  constructor; [|eapply (IH r1 t1); eauto; by rewrite ?Hc1, ?Hcap1].
  pose proof (rw_cost r Hr). pose proof (limit_match_ok r t t1 Hr Hp) as Hok. rewrite Em in Hok.
  apply Hok; lia.
Qed.

(** The credit of an idle rule overflows: [2^24] jiffies (46 hours and 36 minutes)
    after its bucket was emptied, a rule has earned [2^32] credits, which is 0, and refuses
    the next packet, whatever its rate. *)
Lemma limit_idle_overflow r t : credit r = 0 → 0 < cost r → 0 <= credit_cap r → prev r = u32 t →
  (ipt_limit_match r (u32 (t + 16777216))).1 = false.
Proof.
  intros Hc Hcost Hcap Hp. unfold ipt_limit_match. rewrite credits_per_jiffy, Hp, Hc.
  assert (u32 (u32 (t + 16777216) - u32 t) = 16777216) as ->.
  { unfold u32. rewrite <- Zminus_mod. replace (t + 16777216 - t) with 16777216 by lia. done. }
  change (u32 (0 + u32 (16777216 * 256))) with 0.
  destruct (Z.ltb_spec (credit_cap r) 0); [lia|]. by rewrite (proj2 (Z.leb_gt _ _)).
Qed.

(** One per day with a burst of 6: the product of period and burst overflows to a little
    more than one period, which the test in [checkentry] does not notice, and the
    bucket holds one packet. *)
Lemma limit_burst_overflow :
  let '(ok, r) := ipt_limit_checkentry (mk_rate (86400 * XT_LIMIT_SCALE) 6 0 0 0 0) 0 in
  ok = true ∧ 0 < cost r ∧ credit_cap r < 2 * cost r.
Proof. vm_compute. done. Qed.

(** Witnesses: 5 per second with a burst of 3, one packet per half second. *)
Definition demo_rate : xt_rateinfo := (ipt_limit_checkentry (mk_rate 2000 3 0 0 0 0) 1000).2.

Lemma demo_rate_wf : rate_wf demo_rate.
Proof. split; vm_compute; split; congruence. Defined.

Lemma limit_rate_bound_witness :
  let ts := [1000; 1000; 1000; 1000; 1050] in
  let run := limit_run demo_rate ts in
  run.1 = [true; true; true; false; true] ∧
  passed run.1 * cost demo_rate + credit run.2 <= credit demo_rate + 256 * (1050 - 1000).
Proof.
  intros ts run. split; [vm_compute; reflexivity|].
  apply (limit_rate_bound demo_rate 1000 ts run.1 run.2 demo_rate_wf);
    [vm_compute; reflexivity|simpl; lia|apply surjective_pairing].
Defined.

Lemma limit_passes_witness : Forall (λ ok, ok = true) (limit_run demo_rate [1050; 1100; 1150]).1.
Proof.
  apply (limit_passes demo_rate 1000 [1050; 1100; 1150] 50 50 _ (limit_run demo_rate [1050; 1100; 1150]).2
           demo_rate_wf);
    [vm_compute; reflexivity|vm_compute; congruence|vm_compute; congruence|simpl; lia|apply surjective_pairing].
Defined.


(** ** Port lists *)
Inductive port_spec := P_one (p : Z) | P_range (s e : Z).

(** As the code stores them: a range takes two places, the first one flagged. *)
Fixpoint encode_ports (l : list port_spec) : list Z * list Z :=
  match l with
  | [] => ([], [])
  | P_one p :: l => let (ports, pflags) := encode_ports l in (p :: ports, 0 :: pflags)
  | P_range s e :: l => let (ports, pflags) := encode_ports l in (s :: e :: ports, 1 :: 0 :: pflags)
  end.

Definition spec_has (port : Z) (sp : port_spec) : bool :=
  match sp with P_one p => port =? p | P_range s e => (s <=? port) && (port <=? e) end.

Definition spec_matches (flags src dst : Z) (sp : port_spec) : bool :=
  ((flags =? IPT_MULTIPORT_SOURCE) && spec_has src sp)
  || ((flags =? IPT_MULTIPORT_DESTINATION) && spec_has dst sp)
  || ((flags =? IPT_MULTIPORT_EITHER) && (spec_has src sp || spec_has dst sp)).

Definition minfo_of (flags : Z) (l : list port_spec) (invert : bool) : ipt_multiport_v1 :=
  let (ports, pflags) := encode_ports l in
  mk_multiport_v1 flags (Z.of_nat (length ports)) ports pflags (Z.b2z invert).

Lemma encode_lengths l : length (encode_ports l).1 = length (encode_ports l).2.
Proof.
  induction l as [|[p|s e] l IH]; [done|..]; simpl; destruct (encode_ports l); simpl in *; by rewrite IH.
Qed.

Lemma arr_middle pre x post n : length pre = n → arr (pre ++ x :: post) n = x.
Proof. intros <-. unfold arr. by rewrite list_lookup_middle. Qed.

Lemma arr_middle_S pre x y post n : length pre = n → arr (pre ++ x :: y :: post) (S n) = y.
Proof.
  intros <-. unfold arr. rewrite lookup_app_r by lia.
  by replace (S (length pre) - length pre)%nat with 1%nat by lia.
Qed.

Lemma three_tests (a b c e inv : bool) :
  (if a then negb inv else if b then negb inv else if c then negb inv else xorb e inv)
  = xorb ((a || b || c) || e) inv.
Proof. by destruct a, b, c, e, inv. Qed.

(** The loop at the position behind the ports that have been read. *)
Lemma ports_loop_spec flags invert src dst l : ∀ pp pf fuel,
  length pp = length pf → (length (encode_ports l).1 <= fuel)%nat →
  ports_match_v1_loop fuel
    (mk_multiport_v1 flags (Z.of_nat (length (pp ++ (encode_ports l).1))) (pp ++ (encode_ports l).1)
       (pf ++ (encode_ports l).2) (Z.b2z invert)) (length pp) src dst
  = xorb (existsb (spec_matches flags src dst) l) invert.
Proof.
  induction l as [|sp l IH]; intros pp pf fuel Hlen Hfuel.
  { simpl. rewrite !app_nil_r. destruct fuel; [by destruct invert|]. simpl. rewrite Z.ltb_irrefl.
    by destruct invert. }
  assert (∀ b, mp1_hit (mk_multiport_v1 flags b (pp ++ (encode_ports (sp :: l)).1)
                          (pf ++ (encode_ports (sp :: l)).2) (Z.b2z invert)) = negb invert) as Hhit
    by by destruct invert.
  destruct fuel as [|fuel]; [destruct sp; simpl in Hfuel; destruct (encode_ports l); simpl in Hfuel; lia|].
  cbn [ports_match_v1_loop mp1_count mp1_ports mp1_pflags mp1_flags].
  rewrite (proj2 (Z.ltb_lt _ _)) by (rewrite length_app; destruct sp; simpl; destruct (encode_ports l); simpl; lia).
  rewrite !Hhit. cbn [existsb].
  destruct sp as [p|s e]; cbn [encode_ports] in *; destruct (encode_ports l) as [ports pflags] eqn:El;
    cbn [fst snd length] in *.
  - rewrite !arr_middle by done. cbn [Z.eqb negb].
    specialize (IH (pp ++ [p]) (pf ++ [0]) fuel). rewrite <- !app_assoc, !last_length in IH.
    cbn [app] in IH. rewrite IH by lia. apply three_tests.
  - rewrite !arr_middle, arr_middle_S by done. cbn [Z.eqb negb].
    specialize (IH ((pp ++ [s]) ++ [e]) ((pf ++ [1]) ++ [0]) fuel).
    rewrite !last_length, <- !app_assoc in IH. cbn [app] in IH. rewrite IH by lia.
    rewrite (orb_comm (_ && (dst <=? e))). apply three_tests.
Qed.

(** The port list of a [multiport] rule means what it says: for every list of ports
    and ranges, the encoded form (a range in two array places) matches exactly the
    packets that have one of the ports, in the direction the rule selects, inverted or
    not. *)
Lemma multiport_v1_spec flags l invert src dst :
  ports_match_v1 (minfo_of flags l invert) src dst
  = xorb (existsb (spec_matches flags src dst) l) invert.
Proof.
  unfold ports_match_v1, minfo_of. pose proof (ports_loop_spec flags invert src dst l [] []) as H.
  destruct (encode_ports l) as [ports pflags]. cbn [mp1_count app fst snd length] in *.
  rewrite Nat2Z.id. apply H; lia.
Qed.
