(* ===== verification/TcpmssFacts.v ===== *)
(** * The TCPMSS target: theorems

    [ipt_tcpmss_target] with [--clamp-mss-to-pmtu], as [userfs/firewall.sh] uses it, on
    a segment without payload. *)
From S2P Require Import Prelude Packet CtBase TcpTrack CtProtos Conntrack Csum NatProto NatCore NatCsum NatHelper NatHelperFacts IpTables XtMatches XtTargets.

(** ** Finding the option *)
Lemma mss_optlen_pos d o : Forall is_u8 d → 1 <= mss_optlen d o.
Proof.
  intros Hb. unfold mss_optlen. pose proof (ld8_range d (o + 1) Hb).
  destruct (_ || _) eqn:E; [lia|]. apply orb_false_iff in E as [_ E]. word_lia.
Qed.

(** The options of a header of [hl] bytes at [h] begin at these offsets; the first MSS
    option is the one that counts. *)
Inductive opt_at (d : list Z) (h hl : Z) : Z → Z → Prop :=
  | oa_here i : opt_at d h hl i i
  | oa_next i j : i < hl → opt_at d h hl (i + mss_optlen d (h + i)) j → opt_at d h hl i j.
Record is_mss (d : list Z) (h hl i : Z) : Prop := {
  im_room : i + 4 <= hl; im_kind : ld8 d (h + i) = TCPOPT_MSS; im_len : ld8 d (h + i + 1) = TCPOLEN_MSS }.
Record first_mss (d : list Z) (h hl i : Z) : Prop := {
  fm_at : opt_at d h hl 20 i; fm_mss : is_mss d h hl i;
  fm_first : ∀ j, opt_at d h hl 20 j → is_mss d h hl j → i <= j }.

Lemma opt_at_le d h hl i j : Forall is_u8 d → opt_at d h hl i j → i <= j.
Proof. intros Hb. induction 1 as [|i j _ _ IH]; [done|]. pose proof (mss_optlen_pos d (h + i) Hb). lia. Qed.

Lemma find_mss_spec d h hl fuel : Forall is_u8 d → ∀ i0, hl - i0 <= Z.of_nat fuel →
  match find_mss fuel d h hl i0 with
  | Some i => opt_at d h hl i0 i ∧ is_mss d h hl i ∧ ∀ j, opt_at d h hl i0 j → is_mss d h hl j → i <= j
  | None => ∀ j, opt_at d h hl i0 j → ¬ is_mss d h hl j
  end.
Proof.
  intros Hb. induction fuel as [|fuel IH]; intros i0 Hf; cbn [find_mss].
  - intros j Hj [Hr _ _]. apply opt_at_le in Hj; [|done]. lia.
  - destruct (Z.ltb_spec i0 hl).
    2: { intros j Hj [Hr _ _]. apply opt_at_le in Hj; [|done]. lia. }
    destruct (_ && _ && _) eqn:E.
    + apply andb_true_iff in E as [[E1 E2]%andb_true_iff E3]. unfold TCPOLEN_MSS in *. split_and!.
      * constructor.
      * split; unfold TCPOLEN_MSS; lia.
      * intros j Hj _. by apply opt_at_le in Hj.
    + assert (¬ is_mss d h hl i0) as Hno.
      { intros [Hr Hk Hl]. rewrite Hk, Hl, !Z.eqb_refl in E. unfold TCPOLEN_MSS in E. lia. }
      specialize (IH (i0 + mss_optlen d (h + i0))). pose proof (mss_optlen_pos d (h + i0) Hb).
      specialize (IH ltac:(lia)). destruct (find_mss fuel d h hl _) as [i|].
      * destruct IH as (H1 & H2 & H3). split_and!; [by constructor|done|].
        intros j Hj Hm. inversion Hj; subst; [done|by apply H3].
      * intros j Hj Hm. inversion Hj; subst; [done|by eapply IH].
Qed.

(** ** Replacing it *)

(** The value of an MSS option whose value is at [o]. *)
Definition mss_at (d : list Z) (o : Z) : Z := ntohs (ld16 d o).

(** The file's copy of the incremental checksum update. *)
Lemma mss_check_port old new c : is_u16 old → is_u16 new → is_u16 c →
  is_u16 (cheat_check (Z.lxor old 65535) new c) ∧ cheat_check (Z.lxor old 65535) new c ≡₁ c + old - new.
Proof. exact (cheat_check_port old new c). Qed.
Lemma mss_check_insert new c : is_u32 new → is_u16 c →
  is_u16 (cheat_check 4294967295 new c) ∧ cheat_check 4294967295 new c ≡₁ c - new.
Proof.
  intros Hn Hc. destruct (cheat_check_spec 4294967295 new c ltac:(word_lia) Hn Hc) as (H1 & H2 & _).
  change (ip_nat_cheat_check 4294967295 new c) with (cheat_check 4294967295 new c) in H1, H2.
  split; [exact H1|]. clear - H2. ones.
Qed.

Lemma be_bytes a b : is_u8 a → is_u8 b → Z.lor (Z.shiftl a 8) b = a * 256 + b.
Proof. unfold is_u8. intros Ha Hb. rewrite Z.shiftl_mul_pow2 by lia. apply (lor_add _ b 8); lia. Qed.

Lemma old_mss d o : Forall is_u8 d →
  let v := Z.lor (Z.shiftl (ld8 d o) 8) (ld8 d (o + 1)) in v = mss_at d o ∧ htons v = ld16 d o.
Proof.
  intros Hb v. pose proof (ld8_range d o Hb) as H0. pose proof (ld8_range d (o + 1) Hb) as H1.
  assert (v = mss_at d o) as Ev.
  { unfold v. rewrite be_bytes by done. unfold mss_at, ld16, ntohs, swab16. word_lia. }
  split; [done|]. rewrite Ev. apply htons_ntohs. unfold ld16. word_lia.
Qed.

Lemma store_mss o v d : is_u16 v →
  st8 (o + 1) (Z.land v 255) (st8 o (Z.shiftr (Z.land v 65280) 8) d) = st16 o (htons v) d.
Proof.
  intros Hv. unfold st16, st8.
  assert (Z.land v 255 = v mod 256) as -> by (apply (Z.land_ones v 8); lia).
  assert (Z.shiftr (Z.land v 65280) 8 = v / 256 mod 256) as ->.
  { rewrite Z.shiftr_land. change (Z.shiftr 65280 8) with 255. rewrite Z.shiftr_div_pow2 by lia.
    apply (Z.land_ones (v / 256) 8). lia. }
  unfold htons, swab16. f_equal; [|f_equal]; word_lia.
Qed.

Lemma put_mss_eq o v e : is_u16 v → put_mss o v e = st16 (o + 2) (htons v) (st16 o 1026 e).
Proof. intros Hv. rewrite <- store_mss by done. unfold put_mss. by replace (o + 2 + 1) with (o + 3) by lia. Qed.

(** The segment with the option's value at [o] replaced. *)
Lemma replace_mss_spec d h i v : ip_wf d → protocol (iphdr_at d 0) = IPPROTO_TCP → h = hlen d 0 →
  20 <= i → h + i + 4 <= Z.of_nat (length d) → is_u16 v →
  let o := h + i + 2 in
  let d' := replace_mss d h i (Z.lor (Z.shiftl (ld8 d o) 8) (ld8 d (o + 1))) v in
  length d' = length d ∧ mss_at d' o = v ∧
  (∀ x, 0 <= x → outside o 2 x → outside (h + 16) 2 x → ld8 d' x = ld8 d x) ∧
  (Z.even i = true → l4_sum_ok d' ↔ l4_sum_ok d).
Proof.
  intros Hip Hp -> Hi Hl Hv o d'. destruct (h_range _ Hip) as [Hh _]. set (h := hlen d 0) in *.
  pose proof (iw_bytes _ Hip) as Hb. destruct (old_mss d o Hb) as [_ Eold].
  subst d'. unfold replace_mss. replace (h + i + 3) with (o + 1) by (unfold o; lia). fold o.
  rewrite (store_mss o v d Hv), Eold. set (d1 := st16 o (htons v) d).
  assert (length d1 = length d) as L1 by apply st16_length.
  assert (ld16 d1 (h + 16) = ld16 d (h + 16)) as Ec by (apply ld16_st16_ne; unfold o; lia). rewrite Ec.
  destruct (mss_check_port (ld16 d o) (htons v) (ld16 d (h + 16))) as [W E];
    [auto with words|apply swab16_range|auto with words|].
  set (c := cheat_check _ _ _) in *. split_and!.
  - by rewrite !st16_length.
  - unfold mss_at. rewrite ld16_st16_ne by (unfold o; lia). unfold d1.
    rewrite ld16_st16 by first [unfold o; lia | apply swab16_range]. by apply ntohs_htons.
  - unfold outside. intros x Hx Ho Hc. rewrite ld8_st16_ne by lia. apply ld8_st16_ne; unfold o in *; lia.
  - intros He. apply l4_edit_sum_ok; [done..|]. fold h. eapply l4_edit_delta.
    + eapply l4_edit_trans.
      * apply (l4_edit_st16 h d o (htons v)); [done|unfold o; lia..| |apply swab16_range].
        unfold o. replace (h + i + 2 - h) with (i + 2) by lia. by rewrite Z.even_add, He.
      * apply (l4_edit_st16 h d1 (h + 16) c); [unfold d1; auto with words|lia..|by apply even_sub|done].
    + rewrite Ec. clear W He. ones.
Qed.

(** ** Adding it *)
Lemma l4_edit_st8 h d o v : Forall is_u8 d → 0 <= h → h <= o → o < Z.of_nat (length d) →
  Z.even (o - h) = true → is_u8 v → l4_edit h (v - ld8 d o) d (st8 o v d).
Proof.
  intros Hb H0 Ho Hl He Hv. split.
  - split; [apply st8_length|]. intros x Hx. rewrite ld8_st8 by lia. by rewrite (proj2 (Z.eqb_neq _ _)) by lia.
  - auto with words.
  - rewrite wsum_seg_st8 by lia. rewrite He. replace (u8 v) with v by word_lia. ones.
Qed.

Section AddMss.
Context (d : list Z) (h tl v : Z).
Context (Hip : ip_wf d) (Hp : protocol (iphdr_at d 0) = IPPROTO_TCP) (Hh : h = hlen d 0).
Context (Htl : tl = Z.of_nat (length d) - h) (Htl20 : 20 <= tl) (Hv : is_u16 v).
Let o := h + 20.

(** The buffer after [memmove]: room for the option behind the header. *)
Let moved : list Z := move_options d h tl.

Lemma h_bounds : 20 <= h <= 60 ∧ h + tl = Z.of_nat (length d).
Proof. destruct (h_range _ Hip) as [H1 _]. pose proof (ihl_bound d 0). unfold hlen in *. lia. Qed.

Lemma moved_eq : ∃ g, length g = 4%nat ∧ Forall is_u8 g ∧
  moved = take (Z.to_nat o) d ++ g ++ drop (Z.to_nat o) d.
Proof.
  destruct h_bounds as [Hb Hn]. unfold moved, move_options, memmove_bytes, TCPOLEN_MSS, o. set (e := d ++ replicate 4 0).
  assert (length e = length d + 4)%nat as Le by (unfold e; rewrite length_app; done).
  exists (take 4 (drop (Z.to_nat (h + 20)) e)). split_and!.
  - rewrite length_take, length_drop. lia.
  - apply Forall_take, Forall_drop. unfold e. apply Forall_app. split; [apply Hip|].
    repeat constructor; unfold is_u8; lia.
  - replace (Z.to_nat (h + 20 + 4)) with (Z.to_nat (h + 20) + 4)%nat by lia.
    rewrite <- take_take_drop, <- app_assoc. f_equal; [unfold e; by rewrite take_app_le by lia|]. f_equal.
    rewrite (drop_ge e (Z.to_nat (h + 20 + 4 + (tl - 20)))) by lia. rewrite app_nil_r. unfold e. rewrite drop_app_le by lia.
    rewrite take_app_le by (rewrite length_drop; lia). apply take_ge. rewrite length_drop. lia.
Qed.

Lemma moved_spec : Z.of_nat (length moved) = Z.of_nat (length d) + 4 ∧ Forall is_u8 moved ∧
  (∀ x, 0 <= x < o → ld8 moved x = ld8 d x) ∧ (∀ x, o <= x → ld8 moved (x + 4) = ld8 d x) ∧
  wsum true (seg moved h (tl + 4)) = wsum true (seg d h tl) + ld16 moved o + ld16 moved (o + 2).
Proof.
  destruct h_bounds as [Hb Hn]. destruct moved_eq as (g & Lg & Bg & ->). pose proof (iw_bytes _ Hip) as Bd.
  assert (length (take (Z.to_nat o) d) = Z.to_nat o) as Lo by (rewrite length_take; unfold o; lia).
  assert (∀ k, (k < 4)%nat → ld8 (take (Z.to_nat o) d ++ g ++ drop (Z.to_nat o) d) (o + Z.of_nat k) = default 0 (g !! k)) as Hg.
  { intros k Hk. unfold ld8. rewrite lookup_app_r by (rewrite Lo; unfold o; lia). rewrite Lo.
    replace (Z.to_nat (o + Z.of_nat k) - Z.to_nat o)%nat with k by (unfold o; lia).
    by rewrite lookup_app_l by lia. }
  split_and!.
  - rewrite !length_app, Lo, Lg, length_drop. unfold o. lia.
  - rewrite !Forall_app. split_and!; [by apply Forall_take|done|by apply Forall_drop].
  - intros x Hx. apply ld8_take_app; unfold o in *; lia.
  - intros x Hx. unfold ld8. rewrite lookup_app_r by (rewrite Lo; lia). rewrite Lo.
    rewrite lookup_app_r by lia. rewrite Lg, lookup_drop. do 2 f_equal. unfold o in *. lia.
  - unfold ld16. replace (o + 2 + 1) with (o + Z.of_nat 3) by lia. replace (o + 2) with (o + Z.of_nat 2) by lia.
    replace (o + 1) with (o + Z.of_nat 1) by lia. replace (ld8 _ o) with (default 0 (g !! 0%nat))
      by (rewrite <- Hg by lia; by rewrite Z.add_0_r).
    rewrite !Hg by lia. destruct g as [|g0 [|g1 [|g2 [|g3 [|]]]]]; try done. cbn [lookup list_lookup default].
    unfold seg. rewrite drop_app_le by (rewrite Lo; unfold o; lia).
    assert (drop (Z.to_nat h) (take (Z.to_nat o) d) = take 20 (drop (Z.to_nat h) d)) as ->.
    { rewrite take_drop_commute. do 2 f_equal. unfold o. lia. }
    rewrite (take_ge (_ ++ _)) by (rewrite !length_app, length_take, !length_drop; cbn [length]; unfold o; lia).
    assert (take (Z.to_nat tl) (drop (Z.to_nat h) d) =
            take 20 (drop (Z.to_nat h) d) ++ drop (Z.to_nat o) d) as ->.
    { rewrite take_ge by (rewrite length_drop; lia). rewrite <- (take_drop 20 (drop (Z.to_nat h) d)) at 1.
      f_equal. rewrite drop_drop. f_equal. unfold o. lia. }
    assert (Nat.even (length (take 20 (drop (Z.to_nat h) d))) = true) as He
      by (rewrite length_take, length_drop; by replace (20 `min` _)%nat with 20%nat by lia).
    rewrite !(wsum_app (take 20 _)) by exact He.
    cbn [app wsum negb]. unfold id. lia.
Qed.

End AddMss.

Lemma raise_doff_range b : is_u8 b → is_u8 (raise_doff b) ∧
  Z.shiftr (raise_doff b) 4 = (Z.shiftr b 4 + 1) mod 16.
Proof.
  intros Hb. assert (∀ x, is_u8 x → In x (map Z.of_nat (seq 0 256))) as Hall.
  { intros x Hx. apply in_map_iff. exists (Z.to_nat x). unfold is_u8 in Hx. split; [lia|]. apply in_seq. lia. }
  assert (forallb (λ x, (0 <=? raise_doff x) && (raise_doff x <? 256)
            && (Z.shiftr (raise_doff x) 4 =? (Z.shiftr x 4 + 1) mod 16))
            (map Z.of_nat (seq 0 256)) = true) as Hc by (vm_compute; reflexivity).
  rewrite forallb_forall in Hc. specialize (Hc b (Hall b Hb)). unfold is_u8. lia.
Qed.

Section TcpAdd.
Context (d : list Z) (h tl v : Z).
Context (Hb : Forall is_u8 d) (Hh : 0 <= h) (Hl : h + 24 <= Z.of_nat (length d)) (Hv : is_u16 v).
Let o := h + 20.
Let d' := tcp_add_mss d h tl v.

Lemma tcp_add_length : length d' = length d.
Proof. unfold d', tcp_add_mss. by rewrite !put_mss_eq, ?st16_length, ?st8_length, ?st16_length by exact Hv. Qed.

Lemma tcp_add_frame :
  (∀ x, 0 <= x → outside (h + 12) 1 x → outside (h + 16) 2 x → outside o 4 x → ld8 d' x = ld8 d x) ∧
  ld8 d' (h + 12) = raise_doff (ld8 d (h + 12)) ∧ ld16 d' o = 1026 ∧ ld16 d' (o + 2) = htons v.
Proof.
  unfold d', tcp_add_mss, outside. fold o. rewrite !put_mss_eq by exact Hv.
  set (c1 := cheat_check (Z.lxor (htons tl) _) _ _). set (d1 := st16 (h + 16) c1 d).
  set (d2 := st16 (o + 2) _ _). set (c2 := cheat_check 4294967295 _ _). set (d3 := st16 (h + 16) c2 d2).
  set (c3 := cheat_check _ _ _).
  assert (length d1 = length d ∧ length d2 = length d ∧ length d3 = length d) as (L1 & L2 & L3)
    by (unfold d3, d2, d1; by rewrite !st16_length).
  assert (∀ x, 0 <= x → outside (h + 16) 2 x → outside o 4 x → ld8 d3 x = ld8 d x) as F3.
  { unfold outside. intros x Hx Hc Ho. unfold d3. rewrite ld8_st16_ne by lia. unfold d2.
    rewrite !ld8_st16_ne by (rewrite ?st16_length; lia). apply ld8_st16_ne; lia. }
  pose proof (raise_doff_range (ld8 d (h + 12)) ltac:(by apply ld8_range)) as [Hr _].
  assert (ld8 d3 (h + 12) = ld8 d (h + 12)) as E12 by (apply F3; unfold outside, o; lia). rewrite E12.
  split_and!.
  - intros x Hx H12 H16 Ho. rewrite ld8_st16_ne by (rewrite ?st8_length; lia).
    rewrite ld8_st8 by lia. rewrite (proj2 (Z.eqb_neq _ _)) by lia. by apply F3.
  - rewrite ld8_st16_ne by (rewrite ?st8_length; lia). rewrite ld8_st8, Z.eqb_refl by lia. word_lia.
  - unfold ld16. rewrite !ld8_st16_ne by (rewrite ?st8_length; unfold o; lia).
    rewrite !ld8_st8 by (unfold o; lia). rewrite !(proj2 (Z.eqb_neq _ _)) by (unfold o; lia).
    change (ld16 d3 o = 1026). unfold d3. rewrite ld16_st16_ne by (unfold o; lia). unfold d2.
    rewrite ld16_st16_ne by (rewrite ?st16_length; unfold o; lia). apply ld16_st16; [unfold o; lia..|word_lia].
  - unfold ld16. rewrite !ld8_st16_ne by (rewrite ?st8_length; unfold o; lia).
    rewrite !ld8_st8 by (unfold o; lia). rewrite !(proj2 (Z.eqb_neq _ _)) by (unfold o; lia).
    change (ld16 d3 (o + 2) = htons v). unfold d3. rewrite ld16_st16_ne by (unfold o; lia). unfold d2.
    apply ld16_st16; [rewrite ?st16_length; unfold o; lia..|apply swab16_range].
Qed.

Lemma tcp_add_edit : l4_edit h (htons tl - htons (tl + 4) - ld16 d o - ld16 d (o + 2)) d d'.
Proof.
  unfold d', tcp_add_mss. cbv zeta. fold o. rewrite !put_mss_eq by exact Hv.
  change TCPOLEN_MSS with 4.
  destruct (mss_check_port (htons tl) (htons (tl + 4)) (ld16 d (h + 16))) as [W1 E1];
    [apply swab16_range..|auto with words|].
  set (c1 := cheat_check (Z.lxor (htons tl) _) _ _) in *. set (d1 := st16 (h + 16) c1 d).
  set (d1' := st16 o 1026 d1). set (d2 := st16 (o + 2) (htons v) d1').
  assert (length d1 = length d ∧ length d1' = length d ∧ length d2 = length d) as (L1 & L1' & L2)
    by (unfold d2, d1', d1; by rewrite !st16_length).
  assert (Forall is_u8 d1 ∧ Forall is_u8 d1' ∧ Forall is_u8 d2) as (B1 & B1' & B2)
    by (unfold d2, d1', d1; split_and!; auto with words).
  assert (ld32 d2 o = 1026 + 65536 * htons v) as Eo.
  { unfold ld32. f_equal; [|f_equal].
    - unfold d2. rewrite ld16_st16_ne by (unfold o; lia). apply ld16_st16; [unfold o; lia..|word_lia].
    - apply ld16_st16; [unfold o; lia..|apply swab16_range]. }
  assert (ld16 d2 (h + 16) = c1) as Ec2.
  { unfold d2, d1'. rewrite !ld16_st16_ne by (rewrite ?st16_length; unfold o; lia). apply ld16_st16; [lia..|done]. }
  pose proof (swab16_range (u16 v)) as Hsv. fold (htons v) in Hsv.
  rewrite Eo, Ec2. destruct (mss_check_insert (1026 + 65536 * htons v) c1) as [W2 E2]; [word_lia|done|].
  set (c2 := cheat_check 4294967295 _ _) in *. set (d3 := st16 (h + 16) c2 d2).
  assert (length d3 = length d) as L3 by (unfold d3; by rewrite st16_length).
  assert (Forall is_u8 d3) as B3 by (unfold d3; auto with words).
  pose proof (raise_doff_range (ld8 d3 (h + 12)) ltac:(by apply ld8_range)) as [Hr _].
  set (nb := raise_doff _) in *. set (d4 := st8 (h + 12) nb d3).
  assert (length d4 = length d) as L4 by (unfold d4; by rewrite st8_length).
  assert (Forall is_u8 d4) as B4 by (unfold d4; auto with words).
  assert (ld16 d4 (h + 16) = c2) as Ec4.
  { unfold d4, ld16. rewrite !ld8_st8 by lia. rewrite !(proj2 (Z.eqb_neq _ _)) by lia.
    change (ld16 d3 (h + 16) = c2). apply ld16_st16; [lia..|done]. }
  rewrite Ec4. destruct (mss_check_port (ld16 d3 (h + 12)) (ld16 d4 (h + 12)) c2) as [W3 E3]; [auto with words..|].
  set (c3 := cheat_check _ _ c2) in *.
  assert (ld16 d4 (h + 12) - ld16 d3 (h + 12) = nb - ld8 d3 (h + 12)) as E12.
  { unfold d4, ld16. rewrite !ld8_st8 by lia. rewrite Z.eqb_refl. rewrite (proj2 (Z.eqb_neq _ _)) by lia. word_lia. }
  eapply l4_edit_delta.
  - eapply l4_edit_trans; [eapply l4_edit_trans; [eapply l4_edit_trans; [eapply l4_edit_trans; [eapply l4_edit_trans|]|]|]|].
    + apply (l4_edit_st16 h d (h + 16) c1); [done|lia..|by apply even_sub|done].
    + apply (l4_edit_st16 h d1 o 1026); [done|unfold o; lia..|unfold o; by apply even_sub|word_lia].
    + apply (l4_edit_st16 h d1' (o + 2) (htons v)); [done|unfold o; lia..| |apply swab16_range].
      unfold o. by replace (h + 20 + 2 - h) with 22 by lia.
    + apply (l4_edit_st16 h d2 (h + 16) c2); [done|lia..|by apply even_sub|done].
    + apply (l4_edit_st8 h d3 (h + 12) nb); [done|lia..|by apply even_sub|done].
    + apply (l4_edit_st16 h d4 (h + 16) c3); [done|lia..|by apply even_sub|done].
  - rewrite Ec2, Ec4. unfold d1' at 1. rewrite (ld16_st16_ne o (o + 2)) by (unfold o; lia).
    unfold d1. rewrite !(ld16_st16_ne (h + 16)) by (unfold o; lia).
    clear - E1 E2 E3 E12. ones.
Qed.
End TcpAdd.

Lemma seg_ext d d' off len : 0 <= off → 0 <= len → off + len <= Z.of_nat (length d) →
  off + len <= Z.of_nat (length d') → (∀ x, off <= x < off + len → ld8 d' x = ld8 d x) →
  seg d' off len = seg d off len.
Proof.
  intros ???? H. unfold seg. apply list_eq_same_length with (Z.to_nat len);
    [rewrite length_take, length_drop; lia..|].
  intros i x y Hi. rewrite !lookup_take_lt, !lookup_drop by lia. intros Hx Hy.
  specialize (H (off + Z.of_nat i) ltac:(lia)). unfold ld8 in H.
  replace (Z.to_nat (off + Z.of_nat i)) with (Z.to_nat off + i)%nat in H by lia.
  by rewrite Hx, Hy in H.
Qed.

(** The IP header's part. *)
Lemma ip_add_spec e : ip_wf e →
  let e' := ip_add_mss e in
  length e' = length e ∧ Forall is_u8 e' ∧
  (∀ x, 0 <= x → outside 2 2 x → outside 10 2 x → ld8 e' x = ld8 e x) ∧
  ntohs (ld16 e' 2) = u16 (ntohs (ld16 e 2) + 4) ∧ (ip_sum_ok e' ↔ ip_sum_ok e).
Proof.
  intros Hip e'. destruct (h_range _ Hip) as [Hh Hl]. pose proof (iw_bytes _ Hip) as Hb.
  unfold e', ip_add_mss. change TCPOLEN_MSS with 4. set (nt := htons _).
  pose proof (swab16_range (u16 (ntohs (ld16 e 2) + 4))) as Hnt. fold (htons (ntohs (ld16 e 2) + 4)) in Hnt. fold nt in Hnt.
  destruct (mss_check_port (ld16 e 2) nt (ld16 e 10)) as [W E]; [auto with words|done|auto with words|].
  set (c := cheat_check _ _ _) in *. set (e1 := st16 10 c e).
  assert (length e1 = length e) as L1 by apply st16_length.
  assert (∀ x, 0 <= x → outside 2 2 x → outside 10 2 x → ld8 (st16 2 nt e1) x = ld8 e x) as F.
  { unfold outside. intros x Hx H2 H10. rewrite ld8_st16_ne by lia. apply ld8_st16_ne; lia. }
  split_and!.
  - by rewrite st16_length.
  - unfold e1. auto with words.
  - exact F.
  - rewrite ld16_st16 by (done || lia). unfold nt, htons, ntohs at 1.
    rewrite swab16_involutive by apply u16_range. done.
  - assert (hlen (st16 2 nt e1) 0 = hlen e 0) as Eh
      by (unfold hlen, iphdr_at; cbn [ihl]; by rewrite F by (unfold outside; lia)).
    assert (ip_wf (st16 2 nt e1)) as Hip'.
    { split; [unfold e1; auto with words| |rewrite Eh, st16_length; lia].
      pose proof (iw_ihl _ Hip). unfold hlen in Eh. lia. }
    pose proof (ip_header_pos _ Hip') as P'. rewrite Eh in P'.
    unfold ip_sum_ok. rewrite Eh, !fold_seg_ok;
      [|done|by apply ip_header_pos|unfold e1; auto with words|done].
    rewrite wsum_seg_st16 by (done || lia). unfold e1 at 1. rewrite wsum_seg_st16 by (done || lia).
    unfold e1. rewrite ld16_st16_ne by lia. clear - E. ones.
Qed.

(** A segment to which the option is added. *)
Lemma add_mss_spec d h v : tcp_wf d → h = hlen d 0 →
  Z.of_nat (length d) = h + th_doff (tcphdr_at d h) * 4 → is_u16 v →
  ∃ d', add_mss d h (Z.of_nat (length d) - h) v = Some d' ∧
  Z.of_nat (length d') = Z.of_nat (length d) + 4 ∧ hlen d' 0 = h ∧
  th_doff (tcphdr_at d' h) = (th_doff (tcphdr_at d h) + 1) mod 16 ∧
  ntohs (ld16 d' 2) = u16 (ntohs (ld16 d 2) + 4) ∧
  ld8 d' (h + 20) = TCPOPT_MSS ∧ ld8 d' (h + 21) = TCPOLEN_MSS ∧ mss_at d' (h + 22) = v ∧
  (∀ x, h + 20 <= x → ld8 d' (x + 4) = ld8 d x) ∧
  (∀ x, 0 <= x < h + 20 → outside 2 2 x → outside 10 2 x → outside (h + 12) 1 x → outside (h + 16) 2 x →
     ld8 d' x = ld8 d x) ∧
  (ip_sum_ok d' ↔ ip_sum_ok d) ∧ (l4_sum_ok d' ↔ l4_sum_ok d).
Proof.
  intros [Hip Hp Hdo _] -> Hlen Hv. set (h := hlen d 0) in *. set (tl := Z.of_nat (length d) - h).
  destruct (h_range _ Hip) as [Hh _]. fold h in Hh. pose proof (iw_bytes _ Hip) as Hb.
  pose proof (doff_bound d h Hb) as Hdb. assert (20 <= tl <= 60) as Htl by (unfold tl; lia).
  destruct (moved_spec d h tl Hip eq_refl eq_refl ltac:(lia)) as (Lm & Bm & Fm & Gm & Sm).
  set (m := move_options d h tl) in *. unfold add_mss. rewrite (proj2 (Z.ltb_ge _ _)) by lia. fold m.
  pose proof (tcp_add_length m h tl v Hv) as Lt.
  destruct (tcp_add_frame m h tl v Bm ltac:(lia) ltac:(lia) Hv) as (Ft & Ft12 & Fto & Fto2).
  destruct (tcp_add_edit m h tl v Bm ltac:(lia) ltac:(lia) Hv) as [_ Bt St].
  set (t := tcp_add_mss m h tl v) in *.
  assert (∀ x, 0 <= x < h → ld8 t x = ld8 d x) as Fd
    by (intros x Hx; rewrite Ft by (unfold outside; lia); apply Fm; lia).
  assert (iphdr_at t 0 = iphdr_at d 0) as Ei by (unfold iphdr_at, ld32, ld16; by rewrite !Fd by lia).
  assert (hlen t 0 = h) as Eht by (unfold hlen; by rewrite Ei).
  assert (ip_wf t) as Hipt by (split; [done|rewrite Ei; apply Hip|lia]).
  destruct (ip_add_spec t Hipt) as (Lp & Bp & Fp & Etot & Hsum). set (d' := ip_add_mss t) in *.
  assert (∀ x, h <= x → ld8 d' x = ld8 t x) as Fh by (intros x Hx; apply Fp; unfold outside; lia).
  assert (∀ x, h <= x → ld16 d' x = ld16 t x) as Fh16 by (intros x Hx; unfold ld16; by rewrite !Fh by lia).
  assert (iphdr_at d' 0 = mk_iphdr (ihl (iphdr_at d 0)) (tos (iphdr_at d 0)) (ld16 d' 2) (frag_off (iphdr_at d 0))
            (ttl (iphdr_at d 0)) (protocol (iphdr_at d 0)) (ld16 d' 10) (saddr (iphdr_at d 0)) (daddr (iphdr_at d 0))) as Ei'.
  { rewrite <- Ei. unfold iphdr_at, ld32. cbn [ihl tos frag_off ttl protocol saddr daddr].
    unfold ld16 at 2 4 5 6 7. by rewrite !Fp by (unfold outside; lia). }
  assert (hlen d' 0 = h) as Eh' by (unfold hlen; by rewrite Ei').
  exists d'. split; [done|]. split_and!.
  - lia.
  - exact Eh'.
  - unfold tcphdr_at. cbn [th_doff]. rewrite Fh by lia. rewrite Ft12, Fm by lia.
    apply raise_doff_range. by apply ld8_range.
  - rewrite Etot. do 2 f_equal. unfold ld16. by rewrite !Fd by lia.
  - rewrite Fh by lia. unfold ld16 in Fto. pose proof (ld8_range t (h + 20) Bt).
    pose proof (ld8_range t (h + 20 + 1) Bt). unfold TCPOPT_MSS. word_lia.
  - rewrite Fh by lia. unfold ld16 in Fto. pose proof (ld8_range t (h + 20) Bt).
    pose proof (ld8_range t (h + 20 + 1) Bt). replace (h + 21) with (h + 20 + 1) by lia. unfold TCPOLEN_MSS. word_lia.
  - unfold mss_at. rewrite Fh16 by lia. replace (h + 22) with (h + 20 + 2) by lia. rewrite Fto2. by apply ntohs_htons.
  - intros x Hx. rewrite Fh, Ft by (unfold outside; lia). by apply Gm.
  - intros x Hx H2 H10 H12 H16. rewrite Fp by (done || lia). rewrite Ft by (unfold outside in *; lia). apply Fm. lia.
  - rewrite Hsum. unfold ip_sum_ok. rewrite Eht. fold h. by rewrite (seg_ext d t 0 h) by (lia || intros; apply Fd; lia).
  - unfold l4_sum_ok, l4_sum, l4_len. rewrite Eh', Ei', Hp. cbn [protocol saddr daddr]. fold h.
    change ((IPPROTO_TCP =? IPPROTO_TCP) || (IPPROTO_TCP =? IPPROTO_UDP)) with true. cbv iota.
    replace (Z.of_nat (length d') - h) with (tl + 4) by (unfold tl; lia). fold tl.
    rewrite (seg_ext t d' h (tl + 4)) by (lia || intros; apply Fh; lia).
    destruct (csum_partial_spec (seg t h (tl + 4)) 0) as (U1 & E1 & _); [auto with words|word_lia|].
    destruct (csum_partial_spec (seg d h tl) 0) as (U2 & E2 & _); [auto with words|word_lia|].
    rewrite !tcpudp_magic_ok by first [done | unfold iphdr_at; cbn [saddr daddr]; auto with words].
    replace (Z.of_nat (length m) - h) with (tl + 4) in St by (unfold tl; lia). rewrite Sm in St.
    change (ntohs (u16 (tl + 4))) with (htons (tl + 4)). change (ntohs (u16 tl)) with (htons tl).
    clear - E1 E2 St. ones.
Qed.

(** ** The target *)

(** A segment without payload in a packet that can be written to. *)
Definition syn_packet (w : fw_world) (skb : sk_buff) : Prop :=
  let d := data skb in
  tcp_wf d ∧ Z.of_nat (length d) = hlen d 0 + th_doff (tcphdr_at d (hlen d 0)) * 4 ∧
  ip_summed skb ≠ CHECKSUM_HW ∧ w_writable w = true.

(** The value that the rule stands for: its own, or what the MTU of the route leaves. *)
Definition rule_mss (w : fw_world) (mss v : Z) : Prop :=
  if mss =? IPT_TCPMSS_CLAMP_PMTU
  then ∃ mtu, w_dst_mtu w = Some mtu ∧ 40 < mtu < 65576 ∧ v = mtu - 40
  else v = mss ∧ is_u16 mss.

(** The value of an option with value [old]: clamping only makes it smaller. *)
Definition mss_result (mss v old : Z) : Z := if mss =? IPT_TCPMSS_CLAMP_PMTU then Z.min old v else v.

Lemma rule_mss_u16 w mss v : rule_mss w mss v → is_u16 v.
Proof.
  unfold rule_mss. destruct (_ =? _).
  - intros (mtu & _ & Hm & ->). word_lia.
  - by intros [-> ?].
Qed.

Lemma tcpmss_eq mss v skb out w : syn_packet w skb → rule_mss w mss v →
  let d := data skb in
  let h := hlen d 0 in
  let hl := th_doff (tcphdr_at d h) * 4 in
  ipt_tcpmss_target mss skb out w =
  match find_mss (Z.to_nat hl) d h hl 20 with
  | Some i =>
      let old := Z.lor (Z.shiftl (ld8 d (h + i + 2)) 8) (ld8 d (h + i + 2 + 1)) in
      if (mss =? IPT_TCPMSS_CLAMP_PMTU) && (old <=? v) then (IPT_CONTINUE, skb, w)
      else (IPT_CONTINUE, skb <| data := replace_mss d h i old v |>, w)
  | None =>
      if (w_tailroom w <? TCPOLEN_MSS) && negb (w_expand w) then (NF_DROP, skb, w)
      else match add_mss d h (Z.of_nat (length d) - h) v with
           | Some d' => (IPT_CONTINUE, skb <| data := d' |>, w)
           | None => (NF_DROP, skb, w <| w_bug := true |>)
           end
  end.
Proof.
  intros (Hwf & Hlen & Hs & Hw) Hv d h hl. fold d in Hlen, Hwf. fold h in Hlen. fold hl in Hlen.
  pose proof (doff_bound d h (iw_bytes _ (tw_ip _ Hwf))) as Hdb. pose proof (tw_doff _ Hwf) as Hdo. fold h in Hdo.
  unfold ipt_tcpmss_target, skb_make_writable. rewrite Z.ltb_irrefl, Hw, (proj2 (Z.eqb_neq _ _) Hs). cbn [negb].
  unfold skb_iph, skb_len. fold d. fold (hlen d 0). fold h.
  change (Z.shiftr (ld8 d (h + 12)) 4) with (th_doff (tcphdr_at d h)). fold hl.
  assert (u16 (Z.of_nat (length d) - h) = hl) as Etl by (unfold hl in *; word_lia).
  rewrite Etl, Z.eqb_refl. cbn [negb].
  assert ((if mss =? IPT_TCPMSS_CLAMP_PMTU
           then match w_dst_mtu w with
                | None => None
                | Some mtu => if mtu <=? 20 + 20 then None else Some (u16 (mtu - 20 - 20))
                end
           else Some mss) = Some v) as ->.
  { unfold rule_mss in Hv. destruct (mss =? _); [|by destruct Hv as [-> _]].
    destruct Hv as (mtu & -> & Hm & ->). rewrite (proj2 (Z.leb_gt mtu (20 + 20))) by lia. f_equal. word_lia. }
  replace (Z.of_nat (length d) - h) with hl by lia. destruct (find_mss _ _ _ _ _) as [i|]; [|done].
  by replace (h + i + 3) with (h + i + 2 + 1) by lia.
Qed.

(** C28: The MSS of a SYN.  On a segment without payload in a writable packet, under a rule
    with a fixed MSS or one that clamps to an MTU of more than 40: if the header has an MSS
    option, the packet goes on, the option has the rule's value, with clamping the smaller
    of that and its own, and nothing else changes but the checksum, which stays valid if
    the option is at an even offset.  If it has none, the packet is dropped unchanged when
    there is neither room behind it nor memory for a larger one; else it goes on with the
    option added in front of the others: the packet grows by 4 bytes, the lengths in both
    headers follow (that of a TCP header of 15 words wraps to 0), both checksums stay
    valid, and every other byte is as it was. *)
Theorem tcpmss_clamp mss v skb out w : syn_packet w skb → rule_mss w mss v →
  let d := data skb in
  let h := hlen d 0 in
  let doff := th_doff (tcphdr_at d h) in
  (∀ i, first_mss d h (doff * 4) i → ∃ d',
     ipt_tcpmss_target mss skb out w = (IPT_CONTINUE, skb <| data := d' |>, w) ∧
     length d' = length d ∧ mss_at d' (h + i + 2) = mss_result mss v (mss_at d (h + i + 2)) ∧
     (∀ x, 0 <= x → outside (h + i + 2) 2 x → outside (h + 16) 2 x → ld8 d' x = ld8 d x) ∧
     (Z.even i = true → l4_sum_ok d' ↔ l4_sum_ok d)) ∧
  ((∀ i, opt_at d h (doff * 4) 20 i → ¬ is_mss d h (doff * 4) i) →
   if (w_tailroom w <? TCPOLEN_MSS) && negb (w_expand w)
   then ipt_tcpmss_target mss skb out w = (NF_DROP, skb, w)
   else ∃ d',
     ipt_tcpmss_target mss skb out w = (IPT_CONTINUE, skb <| data := d' |>, w) ∧
     Z.of_nat (length d') = Z.of_nat (length d) + 4 ∧ hlen d' 0 = h ∧
     th_doff (tcphdr_at d' h) = (doff + 1) mod 16 ∧ ntohs (ld16 d' 2) = u16 (ntohs (ld16 d 2) + 4) ∧
     is_mss d' h ((doff + 1) * 4) 20 ∧ mss_at d' (h + 22) = v ∧
     (∀ x, h + 20 <= x → ld8 d' (x + 4) = ld8 d x) ∧
     (∀ x, 0 <= x < h + 20 → outside 2 2 x → outside 10 2 x → outside (h + 12) 1 x → outside (h + 16) 2 x →
        ld8 d' x = ld8 d x) ∧
     (ip_sum_ok d' ↔ ip_sum_ok d) ∧ (l4_sum_ok d' ↔ l4_sum_ok d)).
Proof.
  intros Hsyn Hv d h doff. rewrite (tcpmss_eq mss v skb out w Hsyn Hv). fold d. fold h. fold doff.
  apply rule_mss_u16 in Hv. destruct Hsyn as (Hwf & Hlen & _). fold d in Hwf, Hlen. fold h in Hlen. fold doff in Hlen.
  pose proof Hwf as [Hip Hp Hdo _]. fold h in Hdo. fold doff in Hdo. pose proof (iw_bytes _ Hip) as Hb.
  destruct (h_range _ Hip) as [Hh _]. fold h in Hh.
  pose proof (find_mss_spec d h (doff * 4) (Z.to_nat (doff * 4)) Hb 20 ltac:(lia)) as HF.
  destruct (find_mss _ _ _ _ _) as [i0|].
  - destruct HF as (Hat & Hm & Hfirst). split; [|intros Hno; by destruct (Hno i0 Hat)].
    intros i [Hat' Hm' Hfirst']. assert (i0 = i) as -> by (apply Z.le_antisymm; auto).
    pose proof (opt_at_le _ _ _ _ _ Hb Hat') as H20. destruct Hm' as [Hroom _ _].
    destruct (old_mss d (h + i + 2) Hb) as [Eold _]. cbn zeta. unfold mss_result. rewrite Eold.
    destruct ((mss =? _) && _) eqn:Ec.
    + apply andb_true_iff in Ec as [-> Hle%Z.leb_le]. exists d. split; [by destruct skb|]. split_and!; [done|lia|done|done].
    + rewrite <- Eold.
      destruct (replace_mss_spec d h i v Hip Hp eq_refl H20 ltac:(lia) Hv) as (R1 & R2 & R3 & R4).
      eexists. split; [reflexivity|]. split_and!; [exact R1| |exact R3|exact R4]. rewrite R2.
      destruct (mss =? _); [|done]. cbn [andb] in Ec. apply Z.leb_gt in Ec. lia.
  - split; [intros i [Hat Hm _]; by destruct (HF i Hat)|]. intros _. destruct (_ && _); [done|].
    destruct (add_mss_spec d h v Hwf eq_refl Hlen Hv)
      as (d' & -> & A1 & A2 & A3 & A4 & A5 & A6 & A7 & A8 & A9 & A10 & A11).
    exists d'. split; [done|]. split_and!; try done. split; [lia|done|].
    by replace (h + 20 + 1) with (h + 21) by lia.
Qed.

(** ** A witness and two findings *)
Definition syn_seg (opts : list Z) : sk_buff := tcp_pkt 3232236034 134744072 1025 80 1000 0 TH_SYN 4096 opts [].
Definition mss_1460 : list Z := [2; 4; 5; 180].
Definition mss_world : fw_world :=
  let t := mk_tuple 0 0 0 0 0 IP_CT_DIR_ORIGINAL in
  mk_world (mk_env (ct_defaults true) 0 true 4096 512 0 (λ _, 0) (λ _ _ _ s, s))
    (mk_cs ∅ ∅ [] ∅ [] ∅ [] 0 0 0 ∅) (mk_nv 0 0 0) (1%positive, blank_ct t t) true 0 true 20 (Some 1492)
    (λ _, 0) (λ _, None) None [] false.

#[local] Ltac concrete := first [apply bytes_ok; vm_compute; reflexivity | vm_compute; intuition congruence].

Lemma tcpmss_clamp_witness : ∃ d',
  ipt_tcpmss_target IPT_TCPMSS_CLAMP_PMTU (syn_seg mss_1460) None mss_world
  = (IPT_CONTINUE, (syn_seg mss_1460) <| data := d' |>, mss_world) ∧
  mss_at d' 42 = 1452 ∧ (l4_sum_ok d' ↔ l4_sum_ok (data (syn_seg mss_1460))).
Proof.
  destruct (tcpmss_clamp IPT_TCPMSS_CLAMP_PMTU 1452 (syn_seg mss_1460) None mss_world) as [H _].
  - repeat split; concrete.
  - exists 1492. split; [reflexivity|]. split; [lia|reflexivity].
  - destruct (H 20) as (d' & E & _ & Hm & _ & Hs).
    + split; [constructor|split; concrete|]. intros j Hj _. eapply opt_at_le; [|exact Hj]. concrete.
    + exists d'. split; [exact E|]. split; [exact Hm|exact (Hs eq_refl)].
Defined.

(** An MSS option at an odd offset, behind a single NOP: the update treats its value as
    an aligned word, and a valid checksum becomes wrong. *)
Lemma odd_mss_breaks_checksum :
  let skb := (syn_seg ([1] ++ mss_1460 ++ [1; 1; 1])) in
  let skb := skb <| data := st16 36 56810 (data skb) |> in
  l4_sum_ok (data skb) ∧
  let '(v, skb', _) := ipt_tcpmss_target IPT_TCPMSS_CLAMP_PMTU skb None mss_world in
  v = IPT_CONTINUE ∧ ¬ l4_sum_ok (data skb').
Proof. split; [vm_compute; reflexivity|]. vm_compute. split; [reflexivity|congruence]. Qed.

(** A header that is full already, with 40 bytes of options but no MSS: [doff] is 15 and
    wraps around to 0 when the option is added. *)
Lemma full_header_loses_doff :
  let '(v, skb', _) :=
    ipt_tcpmss_target IPT_TCPMSS_CLAMP_PMTU (syn_seg (replicate 40 1)) None mss_world in
  v = IPT_CONTINUE ∧ th_doff (tcphdr_at (data skb') 20) = 0.
Proof. vm_compute. split; reflexivity. Qed.
