(* ===== verification/IpTablesFacts.v ===== *)
(** * Packet filter tables: loop freedom and the meaning of a traversal

    - [Fin]: the rules reachable from an entry form no loop.
    - [mark_source_chains] accepts a table exactly when this holds for every hook.
    - On such a table [ipt_do_table], with its back pointers in the entries, ends
      and does what the chains mean ([chain_eval]). *)
From S2P Require Import Prelude Packet CtBase IpTables.
From stdpp Require Import fin_maps relations.
#[local] Open Scope Z_scope.

(** ** The control structure of a table *)
Inductive kind := K_end (v : Z) | K_jump (v : Z) | K_fall.

Section Facts.
Context {M T W : Type} `{IptExt M T W}.
Abbreviation entry := (ipt_entry M T).
Abbreviation blob := (gmap Z entry).

Definition kind_of (e : entry) : kind :=
  match is_standard e with
  | Some v => if is_end e then K_end v else if 0 <=? v then K_jump v else K_fall
  | None => K_fall
  end.
Definition falls (k : kind) : bool := match k with K_end _ => false | _ => true end.
Definition shape_of (e : entry) : Z * kind := (next_offset e, kind_of e).
Definition shapes (tbl : blob) : gmap Z (Z * kind) := shape_of <$> tbl.

(** An entry without matches has none. *)
Definition wf_entry (e : entry) : Prop := target_offset e = sizeof_ipt_entry → e_matches e = [].
Definition wf_blob (tbl : blob) : Prop := ∀ i e, tbl !! i = Some e → wf_entry e.

(** ** Loop freedom *)
Section Shape.
Context (sh : gmap Z (Z * kind)).

(** The entries control can go to from [x]. *)
Inductive succ (x : Z) : Z → Prop :=
  | succ_next n k : sh !! x = Some (n, k) → falls k → succ x (x + n)
  | succ_jump n v : sh !! x = Some (n, K_jump v) → succ x v.

Inductive Fin : Z → Prop :=
  | fin_end x n v : sh !! x = Some (n, K_end v) → Fin x
  | fin_fall x n : sh !! x = Some (n, K_fall) → Fin (x + n) → Fin x
  | fin_jump x n v : sh !! x = Some (n, K_jump v) → Fin v → Fin (x + n) → Fin x.

Lemma fin_lookup x : Fin x → is_Some (sh !! x).
Proof. destruct 1; by eexists. Qed.

Lemma fin_succ x y : Fin x → succ x y → Fin y.
Proof.
  intros Hf Hs. destruct Hs as [n k Hx Hk|n v Hx]; destruct Hf as [? ? ? Hx'|? ? Hx'|? ? ? Hx'];
    rewrite Hx in Hx'; simplify_eq; done.
Qed.

(** No cycle goes through a loop-free entry. *)
Lemma fin_acyclic x y : Fin x → succ x y → ¬ rtc succ y x.
Proof.
  intros Hf. revert y.
  assert (Acc (λ y x, succ x y) x) as Ha.
  { induction Hf as [x n v Hx|x n Hx Hf IH|x n v Hx Hf IH Hf' IH']; constructor; intros y Hs;
      destruct Hs as [? ? Hx'|? ? Hx']; rewrite Hx in Hx'; simplify_eq; done. }
  clear Hf. induction Ha as [x _ IH]. intros y Hs Hr.
  inversion Hr as [|? z ? Hyz Hzx]; subst.
  - by apply (IH x Hs x Hs).
  - apply (IH y Hs z Hyz). by apply (rtc_r _ x).
Qed.

Lemma fin_rtc x y : Fin x → rtc succ x y → Fin y.
Proof. intros Hf Hr. induction Hr; eauto using fin_succ. Qed.

Lemma fin_no_tc x : Fin x → ¬ tc succ x x.
Proof.
  intros Hf Ht. inversion Ht as [? ? Hs|? y ? Hs Htc]; subst.
  - by apply (fin_acyclic x x Hf Hs).
  - by apply (fin_acyclic x y Hf Hs), tc_rtc.
Qed.

(** The entries whose [comefrom] a traversal from [x] may overwrite. *)
Definition written (x y : Z) : Prop :=
  ∃ c n k, rtc succ x c ∧ sh !! c = Some (n, k) ∧ y = c + n.

Lemma written_succ x y z : succ x y → written y z → written x z.
Proof. intros Hs (c & n & k & Hr & Hc & ->). exists c, n, k. split; [by eapply rtc_l|done]. Qed.

(** Two entries do not have the same next entry. *)
Definition disjoint_entries : Prop := ∀ c c' n n' k k',
  sh !! c = Some (n, k) → sh !! c' = Some (n', k') → c + n = c' + n' → c = c'.

Lemma return_protected x n v : disjoint_entries → Fin x → sh !! x = Some (n, K_jump v) →
  ¬ written v (x + n).
Proof.
  intros Hd Hf Hx (c & n' & k & Hr & Hc & Heq).
  rewrite <- (Hd _ _ _ _ _ _ Hx Hc Heq) in Hr.
  by apply (fin_acyclic x v Hf (succ_jump _ _ _ Hx)).
Qed.
End Shape.

(** ** Executing one rule *)
Lemma flag_zero m : flag 0 m = false.
Proof. by unfold flag. Qed.

Lemma ld32_zeros l o : forallb (λ x, x =? 0) l = true → ld32 l o = 0.
Proof.
  intros Hl. assert (∀ o, ld8 l o = 0) as H0.
  { intros o'. unfold ld8. destruct (l !! Z.to_nat o') as [x|] eqn:E; [|done].
    rewrite forallb_forall in Hl. simpl. apply Z.eqb_eq, Hl, list_elem_of_In.
    by eapply list_elem_of_lookup_2. }
  unfold ld32, ld16. by rewrite !H0.
Qed.

Lemma unconditional_match ip indev outdev ipinfo isfrag :
  unconditional ipinfo = true → ip_packet_match ip indev outdev ipinfo isfrag = true.
Proof.
  unfold unconditional. rewrite !forallb_app. simpl. rewrite !andb_true_iff, !Z.eqb_eq.
  intros ((E1 & E2 & E3 & E4 & E5 & E6 & E7 & _) & _ & _ & Hi & Ho).
  assert (∀ dev name mask, forallb (λ x, x =? 0) mask = true → iface_differs dev name mask = false) as Hif.
  { intros dev name mask Hm. unfold iface_differs. simpl. by rewrite !(ld32_zeros mask), !Z.land_0_r. }
  unfold ip_packet_match, FWINV. rewrite E1, E2, E3, E4, E5, E6, E7, !flag_zero, !Hif by done.
  by rewrite !Z.land_0_r.
Qed.

Definition strip (e : entry) : entry := e <| comefrom := 0 |>.

(** What executing a rule keeps, and which outcomes its kind allows. *)
Lemma exec_rule_spec e skb inp out hook offset w o hd e' skb' w' :
  exec_rule e skb inp out hook offset w = (o, hd, e', skb', w') → wf_entry e →
  shape_of e' = shape_of e ∧ wf_entry e' ∧ comefrom e' = comefrom e ∧ e_ip e' = e_ip e ∧
  exec_rule (strip e) skb inp out hook offset w = (o, hd, strip e', skb', w') ∧
  match kind_of e with
  | K_end v => hd = false ∧ o = if v =? IPT_RETURN then RO_return else RO_verdict (- v - 1)
  | K_fall => o = RO_next ∨ (∃ v, o = RO_verdict v) ∨ o = RO_return
  | K_jump v => o = RO_next ∨ o = RO_jump v
  end.
Proof.
  intros E Hwf. unfold exec_rule in *. cbn [strip e_ip e_matches update upd_comefrom].
  unfold kind_of, is_end, is_standard in *.
  destruct (negb (ip_packet_match _ _ _ _ _)) eqn:Em.
  { injection E as <- <- <- <- <-. split_and!; try done.
    destruct (e_target e) as [? v| |]; auto. destruct (_ && _ && _) eqn:Ee.
    - apply andb_true_iff in Ee as [_ Hu]. by rewrite (unconditional_match _ _ _ _ _ Hu) in Em.
    - destruct (0 <=? v); auto. }
  destruct (do_matches (e_matches e) skb inp out offset false w) as [[[ok hd1] ms] w1] eqn:Ed.
  assert (target_offset e = sizeof_ipt_entry → ms = [] ∧ ok = true ∧ hd1 = false) as Hms.
  { intros Ht. rewrite (Hwf Ht) in Ed. simpl in Ed. by injection Ed as <- <- <- <-. }
  destruct ok; cbn [negb] in *.
  2: { injection E as <- <- <- <- <-. split_and!; try done; try (by intros Ht; apply Hms).
       destruct (Z.eqb_spec (target_offset e) sizeof_ipt_entry) as [Ht|Ht];
         [by destruct (Hms Ht) as (_ & ? & _)|]. simpl.
       destruct (e_target e) as [? v| |]; [destruct (0 <=? v)|..]; auto. }
  cbn [e_target update upd_e_matches upd_bcnt upd_pcnt] in *. destruct e as [ip to no cf bc pc msl tg].
  cbn [e_target e_matches e_ip target_offset next_offset comefrom bcnt pcnt] in *.
  destruct tg as [sz v| |t].
  - injection E as <- <- <- <- <-. split_and!; try done; try (by intros Ht; apply Hms).
    destruct (Z.ltb_spec v 0), (Z.leb_spec 0 v), (Z.eqb_spec to sizeof_ipt_entry) as [Ht|],
      (unconditional ip), (Z.eqb_spec v IPT_RETURN); try lia; simpl; try specialize (Hms Ht); 
      try naive_solver.
    split; [naive_solver|]. by rewrite (proj2 (Z.eqb_neq v IPT_RETURN)).
  - injection E as <- <- <- <- <-. split_and!; try done; try (by intros Ht; apply Hms). eauto.
  - destruct (ext_target t skb inp out hook w1) as [[[vd skb2] t2] w2] eqn:Et.
    injection E as <- <- <- <- <-. split_and!; try done; try (by intros Ht; apply Hms).
    1: by cbn [e_target update upd_comefrom upd_e_matches upd_bcnt upd_pcnt strip]; rewrite Et.
    destruct (vd =? IPT_CONTINUE); simpl; eauto.
Qed.

(** ** A traversal runs the chains *)
Section Run.
Context (inp out : option net_device) (hook offset : Z) (sh : gmap Z (Z * kind)).
Abbreviation loop f tbl e b skb w := (ipt_do_table_loop f tbl e b skb inp out hook offset w).
Abbreviation chain f tbl e skb w := (chain_eval f tbl e skb inp out hook offset w).

Definition good (tbl : blob) : Prop := shapes tbl = sh ∧ wf_blob tbl.

Lemma good_lookup tbl x n k : good tbl → sh !! x = Some (n, k) →
  ∃ e, tbl !! x = Some e ∧ next_offset e = n ∧ kind_of e = k ∧ wf_entry e.
Proof.
  intros [Hs Hw] Hx. rewrite <- Hs in Hx. unfold shapes in Hx.
  rewrite lookup_fmap in Hx. destruct (tbl !! x) as [e|] eqn:E; [|done].
  simpl in Hx. injection Hx as <- <-. exists e. eauto.
Qed.

Lemma good_some tbl x : good tbl → is_Some (sh !! x) → is_Some (tbl !! x).
Proof. intros Hg [[n k] Hx]. destruct (good_lookup tbl x n k Hg Hx) as (e & -> & _). eauto. Qed.

Lemma good_insert tbl x e e' : good tbl → tbl !! x = Some e → shape_of e' = shape_of e →
  wf_entry e' → good (<[x := e']> tbl).
Proof.
  intros [Hs Hw] Hx Hse Hwe. split.
  - unfold shapes in *. rewrite fmap_insert, Hse, Hs. apply insert_id. rewrite <- Hs, lookup_fmap.
    by rewrite Hx.
  - intros i e0. rewrite lookup_insert. case_decide; [by intros [= <-]|apply Hw].
Qed.

Definition strips (tbl : blob) : blob := strip <$> tbl.

Lemma strips_comefrom tbl x e v : tbl !! x = Some e →
  strips (<[x := e <| comefrom := v |>]> tbl) = strips tbl.
Proof.
  intros Hx. unfold strips. rewrite fmap_insert. apply insert_id. by rewrite lookup_fmap, Hx.
Qed.

Definition same_comefrom (x : Z) (tbl tbl' : blob) : Prop :=
  ∀ y, ¬ written sh x y → comefrom <$> tbl' !! y = comefrom <$> tbl !! y.

(** How the loop entered at [x] with back pointer [b] ends, for the result [r] of
    the chain. *)
Definition loop_ends (tbl : blob) (x b : Z) skb w (r : chain_result) (tbl' : blob) skb' w' : Prop :=
  match r with
  | CR_verdict v => ∃ m, ∀ k, loop (m + k)%nat tbl x b skb w = Some (v, tbl', skb', w')
  | CR_return => ∃ m cf, (¬ written sh x b → Some cf = comefrom <$> tbl !! b) ∧
      ∀ k, loop (m + k)%nat tbl x b skb w = loop k tbl' b cf skb' w'
  end.

Definition runs (tbl : blob) (x b : Z) skb w : Prop :=
  ∃ fc r tbl' skb' w',
    (∀ k, chain (fc + k)%nat (strips tbl) x skb w = Some (r, strips tbl', skb', w')) ∧
    good tbl' ∧ same_comefrom x tbl tbl' ∧ loop_ends tbl x b skb w r tbl' skb' w'.

Lemma strips_lookup tbl x e : tbl !! x = Some e → strips tbl !! x = Some (strip e).
Proof. intros Hx. unfold strips. by rewrite lookup_fmap, Hx. Qed.

Lemma strips_insert tbl x e : <[x := strip e]> (strips tbl) = strips (<[x := e]> tbl).
Proof. unfold strips. by rewrite fmap_insert. Qed.

Lemma insert_comefrom (tbl : blob) x e e' y : tbl !! x = Some e → comefrom e' = comefrom e →
  comefrom <$> <[x := e']> tbl !! y = comefrom <$> tbl !! y.
Proof. intros Hx Hc. rewrite lookup_insert. case_decide; subst; [|done]. rewrite Hx. simpl. by f_equal. Qed.

(** The first iteration of the loop: it ends the chain, goes to the entry [y], or
    calls the chain [v]. *)
Inductive first_step (tbl : blob) (x b : Z) skb w : Prop :=
  | fs_done : runs tbl x b skb w → first_step tbl x b skb w
  | fs_goto y e e' skb1 w1 :
      succ sh x y → tbl !! x = Some e → comefrom e' = comefrom e → good (<[x := e']> tbl) →
      (∀ k, loop (S k) tbl x b skb w = loop k (<[x := e']> tbl) y b skb1 w1) →
      (∀ k, chain (S k) (strips tbl) x skb w = chain k (strips (<[x := e']> tbl)) y skb1 w1) →
      first_step tbl x b skb w
  | fs_call n v e e' nn skb1 w1 :
      sh !! x = Some (n, K_jump v) → tbl !! x = Some e → comefrom e' = comefrom e →
      <[x := e']> tbl !! (x + n) = Some nn →
      good (<[x + n := nn <| comefrom := b |>]> (<[x := e']> tbl)) →
      (∀ k, loop (S k) tbl x b skb w
            = loop k (<[x + n := nn <| comefrom := b |>]> (<[x := e']> tbl)) v (x + n) skb1 w1) →
      (∀ k, chain (S k) (strips tbl) x skb w =
            '(r, tbl2, skb2, w2) ← chain k (strips (<[x := e']> tbl)) v skb1 w1;
            match r with
            | CR_verdict _ => Some (r, tbl2, skb2, w2)
            | CR_return => chain k tbl2 (x + n) skb2 w2
            end) →
      first_step tbl x b skb w.

(** One unfolding of each definition, with the rule executed. *)
Lemma chain_step tbl x e skb w o hd e' skb' w' n k :
  tbl !! x = Some e → next_offset e' = n → e_ip e' = e_ip e →
  exec_rule (strip e) skb inp out hook offset w = (o, hd, strip e', skb', w') →
  chain (S k) (strips tbl) x skb w =
    if hd then Some (CR_verdict NF_DROP, strips (<[x := e']> tbl), skb', w') else
    match o with
    | RO_next => chain k (strips (<[x := e']> tbl)) (x + n) skb' w'
    | RO_verdict v => Some (CR_verdict v, strips (<[x := e']> tbl), skb', w')
    | RO_return => Some (CR_return, strips (<[x := e']> tbl), skb', w')
    | RO_jump v =>
        '(r, tbl, skb, w) ← chain k (strips (<[x := e']> tbl)) v skb' w';
        match r with
        | CR_verdict _ => Some (r, tbl, skb, w)
        | CR_return =>
            if negb (v =? x + n) && negb (flag (ip_flags (e_ip e)) IPT_F_GOTO)
            then chain k tbl (x + n) skb w else Some (CR_return, tbl, skb, w)
        end
    end.
Proof.
  intros He <- Hip Es. cbn [chain_eval]. rewrite (strips_lookup _ _ _ He). simpl. rewrite Es.
  cbn [strip next_offset e_ip update upd_comefrom]. by rewrite strips_insert, Hip.
Qed.

Lemma loop_step tbl x b e skb w o hd e' skb' w' n k :
  tbl !! x = Some e → next_offset e' = n → e_ip e' = e_ip e →
  exec_rule e skb inp out hook offset w = (o, hd, e', skb', w') →
  loop (S k) tbl x b skb w = match o with
    | RO_next => if hd then Some (NF_DROP, <[x := e']> tbl, skb', w')
                 else loop k (<[x := e']> tbl) (x + n) b skb' w'
    | RO_verdict v => Some (if hd then NF_DROP else v, <[x := e']> tbl, skb', w')
    | RO_return => eb ← <[x := e']> tbl !! b;
        if hd then Some (NF_DROP, <[x := e']> tbl, skb', w')
        else loop k (<[x := e']> tbl) b (comefrom eb) skb' w'
    | RO_jump v =>
        if negb (v =? x + n) && negb (flag (ip_flags (e_ip e)) IPT_F_GOTO) then
          nn ← <[x := e']> tbl !! (x + n);
          let tbl := <[x + n := nn <| comefrom := b |>]> (<[x := e']> tbl) in
          if hd then Some (NF_DROP, tbl, skb', w') else loop k tbl v (x + n) skb' w'
        else if hd then Some (NF_DROP, <[x := e']> tbl, skb', w')
             else loop k (<[x := e']> tbl) v b skb' w'
    end.
Proof. intros He <- Hip E. cbn [ipt_do_table_loop]. rewrite He. simpl. by rewrite E, Hip. Qed.

Lemma first_iteration tbl x b n kd skb w : good tbl → sh !! x = Some (n, kd) →
  is_Some (tbl !! b) → (falls kd → is_Some (sh !! (x + n))) → first_step tbl x b skb w.
Proof.
  intros Hg Hx Hb Hn. destruct (good_lookup tbl x n kd Hg Hx) as (e & He & Hno & Hk & Hwf).
  destruct (exec_rule e skb inp out hook offset w) as [[[[o hd] e'] skb'] w'] eqn:E.
  destruct (exec_rule_spec _ _ _ _ _ _ _ _ _ _ _ _ E Hwf) as (Hsh & Hwf' & Hcf & Hip & Es & Ho).
  pose proof (good_insert tbl x e e' Hg He Hsh Hwf') as Hg'.
  assert (next_offset e' = n) as Hno'. { unfold shape_of in Hsh. injection Hsh as -> _. done. }
  pose proof (λ k, chain_step tbl x e skb w o hd e' skb' w' n k He Hno' Hip Es) as Hchain.
  pose proof (λ k, loop_step tbl x b e skb w o hd e' skb' w' n k He Hno' Hip E) as Hloop.
  cbn zeta in Hloop.
  assert (same_comefrom x tbl (<[x := e']> tbl)) as Hsame.
  { intros y _. by apply (insert_comefrom tbl x e). }
  assert (∀ v f, (∀ k, loop (S k) tbl x b skb w = Some (v, <[x := e']> tbl, skb', w')) →
            (∀ k, chain (S k) (strips tbl) x skb w
                  = Some (CR_verdict v, strips (<[x := e']> tbl), skb', w')) →
            f = first_step tbl x b skb w → f) as Hverdict.
  { intros v f Hl Hc ->. apply fs_done. exists 1%nat, (CR_verdict v), (<[x := e']> tbl), skb', w'.
    split_and!; try done. by exists 1%nat. }
  clear E Es. destruct o as [|v| |v].
  - destruct hd; [by eapply (Hverdict NF_DROP)|].
    eapply (fs_goto _ _ _ _ _ (x + n)); try done. eapply succ_next; [done|].
    rewrite Hk in Ho. destruct kd as [v| |]; try done. destruct Ho as [_ Ho]. by case_match.
  - by destruct hd; [eapply (Hverdict NF_DROP)|eapply (Hverdict v)].
  - destruct Hb as [eb Hb].
    assert (∃ eb', <[x := e']> tbl !! b = Some eb' ∧ comefrom eb' = comefrom eb) as (eb' & Heb' & Hceb).
    { pose proof (insert_comefrom tbl x e e' b He Hcf) as Hi. rewrite Hb in Hi.
      destruct (<[x := e']> tbl !! b) as [eb'|]; [|done]. exists eb'. by injection Hi. }
    rewrite Heb' in Hloop. cbn [mbind option_bind] in Hloop.
    destruct hd; [by eapply (Hverdict NF_DROP)|].
    apply fs_done. exists 1%nat, CR_return, (<[x := e']> tbl), skb', w'. split_and!; try done.
    exists 1%nat, (comefrom eb'). split; [|done]. intros _. rewrite Hb, Hceb. done.
  - assert (kd = K_jump v) as ->.
    { rewrite Hk in Ho. destruct kd; [destruct Ho as [_ Ho]; by destruct (_ =? IPT_RETURN)|..];
        destruct Ho as [Ho|Ho]; try done; [congruence|]. destruct Ho as [[? Ho]|]; done. }
    assert (is_Some (<[x := e']> tbl !! (x + n))) as [nn Hnn] by (eapply good_some; eauto).
    assert (good (<[x + n := nn <| comefrom := b |>]> (<[x := e']> tbl))) as Hg2.
    { eapply good_insert; try done. destruct Hg' as [_ Hw]. exact (Hw _ _ Hnn). }
    rewrite Hnn in Hloop. cbn [mbind option_bind] in Hloop.
    destruct (negb (v =? x + n) && negb (flag (ip_flags (e_ip e)) IPT_F_GOTO)) eqn:Eg.
    + destruct hd; [|by eapply fs_call].
      apply fs_done. exists 1%nat, (CR_verdict NF_DROP), (<[x + n := nn <| comefrom := b |>]> (<[x := e']> tbl)), skb', w'.
      split_and!; [|apply Hg2| |by exists 1%nat].
      * intros k. rewrite Hchain. by rewrite strips_comefrom.
      * intros y Hy. rewrite <- (Hsame y Hy). destruct (decide (y = x + n)) as [->|Hne].
        -- destruct Hy. exists x, n, (K_jump v). split; [constructor|done].
        -- by rewrite lookup_insert_ne.
    + destruct hd; [by eapply (Hverdict NF_DROP)|].
      eapply (fs_goto _ _ _ _ _ v); try done; [by eapply succ_jump|].
      intros k. rewrite Hchain. destruct (chain k _ v skb' w') as [[[[[] ?] ?] ?]|]; done.
Qed.

Lemma runs_goto tbl x b skb w y e e' skb1 w1 :
  succ sh x y → tbl !! x = Some e → comefrom e' = comefrom e →
  (∀ k, loop (S k) tbl x b skb w = loop k (<[x := e']> tbl) y b skb1 w1) →
  (∀ k, chain (S k) (strips tbl) x skb w = chain k (strips (<[x := e']> tbl)) y skb1 w1) →
  runs (<[x := e']> tbl) y b skb1 w1 → runs tbl x b skb w.
Proof.
  intros Hs He Hcf Hl Hc (fc & r & tbl' & skb' & w' & Hch & Hg & Hsame & Hends).
  pose proof (λ y, insert_comefrom tbl x e e' y He Hcf) as Hins.
  exists (S fc), r, tbl', skb', w'. split_and!; [|done|..].
  - intros k. rewrite Nat.add_succ_l. rewrite <- (Hch k). apply Hc.
  - intros z Hz. rewrite <- Hins. apply Hsame. intros Hw. by apply Hz, (written_succ _ _ y).
  - destruct r as [v|].
    + destruct Hends as [m Hm]. exists (S m). intros k. rewrite Nat.add_succ_l. rewrite <- (Hm k). apply Hl.
    + destruct Hends as (m & cf & Hcf' & Hm). exists (S m), cf. split.
      * intros Hb. rewrite <- Hins. apply Hcf'. intros Hw. by apply Hb, (written_succ _ _ y).
      * intros k. rewrite Nat.add_succ_l. rewrite <- (Hm k). apply Hl.
Qed.

Lemma runs_call tbl x b skb w n v e e' nn skb1 w1 :
  disjoint_entries sh → Fin sh x → sh !! x = Some (n, K_jump v) →
  tbl !! x = Some e → comefrom e' = comefrom e → <[x := e']> tbl !! (x + n) = Some nn →
  (∀ k, loop (S k) tbl x b skb w
        = loop k (<[x + n := nn <| comefrom := b |>]> (<[x := e']> tbl)) v (x + n) skb1 w1) →
  (∀ k, chain (S k) (strips tbl) x skb w =
        '(r, tbl2, skb2, w2) ← chain k (strips (<[x := e']> tbl)) v skb1 w1;
        match r with
        | CR_verdict _ => Some (r, tbl2, skb2, w2)
        | CR_return => chain k tbl2 (x + n) skb2 w2
        end) →
  runs (<[x + n := nn <| comefrom := b |>]> (<[x := e']> tbl)) v (x + n) skb1 w1 →
  (∀ tbl2 skb2 w2, good tbl2 → is_Some (tbl2 !! b) → runs tbl2 (x + n) b skb2 w2) →
  is_Some (sh !! b) → runs tbl x b skb w.
Proof.
  intros Hd Hf Hx He Hcf Hnn Hl Hc (fc & r & tbl2 & skb2 & w2 & Hch & Hg & Hsame & Hends) Hnext Hb.
  assert (∀ y, ¬ written sh x y → comefrom <$> tbl2 !! y = comefrom <$> tbl !! y) as Hs2.
  { intros y Hy. rewrite Hsame.
    - rewrite lookup_insert_ne; [by apply (insert_comefrom tbl x e)|].
      intros <-. destruct Hy. by exists x, n, (K_jump v).
    - intros Hw. apply Hy, (written_succ _ _ v); [by eapply succ_jump|done]. }
  rewrite strips_comefrom in Hch by done.
  destruct r as [vd|].
  { destruct Hends as [m Hm]. exists (S fc), (CR_verdict vd), tbl2, skb2, w2. split_and!; try done.
    - intros k. rewrite Nat.add_succ_l. rewrite (Hc (fc + k)%nat), Hch. done.
    - exists (S m). intros k. rewrite Nat.add_succ_l. rewrite <- (Hm k). apply Hl. }
  destruct Hends as (m & cf & Hcf' & Hm).
  assert (cf = b) as ->.
  { specialize (Hcf' (return_protected _ _ _ _ Hd Hf Hx)). rewrite lookup_insert_eq in Hcf'.
    by injection Hcf'. }
  destruct (Hnext tbl2 skb2 w2 Hg) as (fc' & r & tbl3 & skb3 & w3 & Hch3 & Hg3 & Hsame3 & Hends3).
  { by apply good_some. }
  assert (∀ y, written sh (x + n) y → written sh x y) as Hwn.
  { intros y. apply written_succ. by eapply succ_next. }
  exists (S (fc + fc')), r, tbl3, skb3, w3. split_and!; [|done|..].
  - intros k. rewrite Nat.add_succ_l. rewrite Hc, <- Nat.add_assoc, Hch. cbn [mbind option_bind].
    rewrite <- (Hch3 (fc + k)%nat). f_equal. lia.
  - intros y Hy. rewrite Hsame3, Hs2; auto.
  - destruct r as [vd|].
    + destruct Hends3 as [m3 Hm3]. exists (S (m + m3)). intros k. rewrite Nat.add_succ_l.
      rewrite Hl, <- Nat.add_assoc, Hm. apply Hm3.
    + destruct Hends3 as (m3 & cf & Hcf3 & Hm3). exists (S (m + m3)), cf. split.
      * intros Hwb. rewrite Hcf3 by auto. by apply Hs2.
      * intros k. rewrite Nat.add_succ_l. rewrite Hl, <- Nat.add_assoc, Hm. apply Hm3.
Qed.

(** The loop runs the chain at a loop-free entry. *)
Lemma run_chain x : disjoint_entries sh → Fin sh x → ∀ tbl b skb w,
  good tbl → is_Some (sh !! b) → runs tbl x b skb w.
Proof.
  intros Hd Hf. pose proof Hf as Hf0.
  induction Hf as [x n v Hx|x n Hx Hf IH|x n v Hx Hf IH Hf' IH']; intros tbl b skb w Hg Hb.
  - destruct (first_iteration tbl x b n (K_end v) skb w) as [|y ? ? ? ? Hs|? ? ? ? ? ? ? Hx']; try done.
    + by apply good_some.
    + destruct Hs as [? ? Hx'|? ? Hx']; rewrite Hx in Hx'; simplify_eq; done.
    + by rewrite Hx in Hx'.
  - destruct (first_iteration tbl x b n K_fall skb w) as [|y ? ? ? ? Hs|? ? ? ? ? ? ? Hx']; try done.
    + by apply good_some.
    + intros _. by apply fin_lookup.
    + assert (y = x + n) as ->.
      { destruct Hs as [? ? Hx'|? ? Hx']; rewrite Hx in Hx'; simplify_eq; done. }
      eapply runs_goto; eauto.
    + by rewrite Hx in Hx'.
  - destruct (first_iteration tbl x b n (K_jump v) skb w) as [|y ? ? ? ? Hs|n' v' ? ? ? ? ? Hx']; try done.
    + by apply good_some.
    + intros _. by apply fin_lookup.
    + eapply runs_goto; eauto.
      destruct Hs as [? ? Hx'|? ? Hx']; rewrite Hx in Hx'; simplify_eq; eauto.
    + rewrite Hx in Hx'. simplify_eq. eapply runs_call; eauto. apply IH; eauto.
      by apply fin_lookup.
Qed.
End Run.

(** ** A whole traversal *)

(** What the comment in [check_entry_size_and_hooks] asks of an underflow: an
    unconditional standard verdict that is not [IPT_RETURN]. *)
Definition is_policy (e : entry) : bool :=
  match kind_of e with K_end v => negb (v =? IPT_RETURN) | _ => false end.

(** The table without the bits that [comefrom] keeps for the traversal. *)
Definition strip_info (private : xt_table_info (M:=M) (T:=T)) : xt_table_info :=
  mk_info (t_size private) (t_number private) (hook_entry private) (underflow private)
    (strips (t_entries private)).

Lemma do_table_runs private skb hook inp out (w : W) p :
  wf_blob (t_entries private) → disjoint_entries (shapes (t_entries private)) →
  Fin (shapes (t_entries private)) (hook_entry private hook) →
  t_entries private !! underflow private hook = Some p → is_policy p = true →
  ∃ fuel v tbl' skb' w', ∀ k,
    ipt_do_table (fuel + k) private skb hook inp out w = Some (v, tbl', skb', w') ∧
    table_eval (fuel + k) (strip_info private) skb hook inp out w
      = Some (CR_verdict v, strips tbl', skb', w').
Proof.
  intros Hwf Hd Hf Hp Hpol. unfold ipt_do_table, table_eval.
  remember (shapes (t_entries private)) as sh eqn:Hsh.
  set (offset := Z.land _ IP_OFFSET).
  assert (sh !! underflow private hook = Some (shape_of p)) as Hu.
  { subst sh. unfold shapes. by rewrite lookup_fmap, Hp. }
  destruct (run_chain inp out hook offset sh _ Hd Hf (t_entries private) (underflow private hook) skb w)
    as (fc & r & tbl1 & skb1 & w1 & Hc & Hg & _ & He); [done|by eexists|].
  cbn [t_entries hook_entry underflow strip_info]. destruct r as [v|].
  { destruct He as [m Hm]. exists (fc + m)%nat, v, tbl1, skb1, w1. intros k. split.
    - rewrite <- (Hm (fc + k)%nat). f_equal. lia.
    - rewrite <- Nat.add_assoc, Hc. done. }
  destruct He as (m & cf & _ & Hm).
  unfold is_policy in Hpol. destruct (kind_of p) as [v| |] eqn:Ek; try done.
  destruct (good_lookup sh tbl1 (underflow private hook) (next_offset p) (K_end v) Hg) as (p1 & Hp1 & _ & Hk1 & Hw1).
  { rewrite Hu. unfold shape_of. by rewrite Ek. }
  destruct (exec_rule p1 skb1 inp out hook offset w1) as [[[[o hd] p2] skb2] w2] eqn:E.
  destruct (exec_rule_spec _ _ _ _ _ _ _ _ _ _ _ _ E Hw1) as (_ & _ & _ & Hip & Es & Ho).
  rewrite Hk1 in Ho. destruct Ho as [-> ->]. apply negb_true_iff in Hpol. rewrite Hpol in E, Es.
  exists (S (fc + m)), (- v - 1), (<[underflow private hook := p2]> tbl1), skb2, w2. intros k. split.
  - replace (S (fc + m) + k)%nat with (m + S (fc + k))%nat by lia. rewrite Hm.
    by erewrite loop_step by eauto.
  - replace (S (fc + m) + k)%nat with (fc + S (m + k))%nat by lia. rewrite Hc. cbn [mbind option_bind].
    replace (fc + S (m + k))%nat with (S (fc + m + k))%nat by lia.
    by erewrite chain_step by eauto.
Qed.
End Facts.
