(* ===== verification/IpTablesChains.v ===== *)
(** * Packet filter tables: [mark_source_chains]

    The walk keeps the path to the current entry in the entries themselves: each entry
    on it is marked in [comefrom] and has its predecessor in [pcnt].  [Rep] says that a
    table represents a path.  From it follow that the walk ends for every table, that
    it succeeds exactly on the tables whose chains have no loop, and that it leaves in
    [comefrom] the hooks from which an entry can be reached. *)
From S2P Require Import Prelude Packet CtBase IpTables IpTablesFacts.
From stdpp Require Import fin_maps relations.
#[local] Open Scope Z_scope.

(** ** Bits of [comefrom] *)
Lemma flag_MARK c : flag c MARK = Z.testbit c 5.
Proof. exact (flag_testbit c 5 ltac:(lia)). Qed.

Lemma testbit_mark c hook h : 0 <= hook → 0 <= h →
  Z.testbit (Z.lor c (Z.lor (Z.shiftl 1 hook) MARK)) h = Z.testbit c h || (h =? hook) || (h =? 5).
Proof.
  intros Hk Hh. change MARK with (2 ^ 5).
  rewrite !Z.lor_spec, Z.shiftl_1_l, !Z.pow2_bits_eqb, (Z.eqb_sym hook), (Z.eqb_sym 5) by lia.
  apply orb_assoc.
Qed.

Lemma testbit_unmark c h : 0 <= h → Z.testbit (Z.lxor c MARK) h = xorb (Z.testbit c h) (h =? 5).
Proof.
  intros Hh. rewrite Z.lxor_spec. change MARK with (2 ^ 5). rewrite Z.pow2_bits_eqb by lia.
  by rewrite (Z.eqb_sym 5 h).
Qed.

Section Chains.
Context {M T : Type}.
Abbreviation entry := (ipt_entry M T).
Abbreviation blob := (gmap Z entry).

(** Two versions of an entry that differ in the two fields the walk uses. *)
Definition same_static (e e' : entry) : Prop :=
  e' = e <| comefrom := comefrom e' |> <| pcnt := pcnt e' |>.

Lemma same_static_shape e e' : same_static e e' → shape_of e' = shape_of e.
Proof. intros ->. by destruct e. Qed.
Lemma same_static_trans e e' e'' : same_static e e' → same_static e' e'' → same_static e e''.
Proof.
  unfold same_static, update, upd_comefrom, upd_pcnt. destruct e, e', e''. cbn. intros E1 E2.
  by injection E1 as -> -> -> -> -> ->; injection E2 as -> -> -> -> -> ->.
Qed.
Lemma same_static_refl e : same_static e e.
Proof. by destruct e. Qed.

(** The walk from a hook: [tbl'] is [tbl] with the bit of the hook added at the
    entries in [R]. *)
Definition touches (hook : Z) (R : Z → Prop) (tbl tbl' : blob) : Prop := ∀ x,
  match tbl !! x, tbl' !! x with
  | Some e, Some e' => same_static e e' ∧
      ∀ h, 0 <= h → h ≠ 5 →
        (Z.testbit (comefrom e') h = true ↔ Z.testbit (comefrom e) h = true ∨ (h = hook ∧ R x))
  | None, None => True
  | _, _ => False
  end.

Lemma touches_trans hook R1 R2 R t1 t2 t3 : touches hook R1 t1 t2 → touches hook R2 t2 t3 →
  (∀ x, R x ↔ R1 x ∨ R2 x) → touches hook R t1 t3.
Proof.
  intros H1 H2 HR x. specialize (H1 x). specialize (H2 x).
  destruct (t1 !! x) as [e1|], (t2 !! x) as [e2|], (t3 !! x) as [e3|]; try done.
  destruct H1 as [Hs1 Hb1], H2 as [Hs2 Hb2]. split; [by eapply same_static_trans|].
  intros h Hh Hne. rewrite Hb2, Hb1, HR by done. tauto.
Qed.

Lemma touches_ext hook R R' t1 t2 : touches hook R t1 t2 → (∀ x, R x ↔ R' x) → touches hook R' t1 t2.
Proof.
  intros Ht HR x. specialize (Ht x). destruct (t1 !! x), (t2 !! x); try done.
  by setoid_rewrite <- (HR x).
Qed.

Lemma touches_insert hook R (tbl : blob) x e e' : tbl !! x = Some e → same_static e e' →
  (∀ h, 0 <= h → h ≠ 5 →
     (Z.testbit (comefrom e') h = true ↔ Z.testbit (comefrom e) h = true ∨ (h = hook ∧ R x))) →
  (∀ y, R y → y = x) → touches hook R tbl (<[x := e']> tbl).
Proof.
  intros Hx Hs Hb HR y. rewrite lookup_insert. case_decide; subst.
  - rewrite Hx. done.
  - destruct (tbl !! y) as [ey|]; [|done]. split; [apply same_static_refl|].
    intros h _ _. split; [by left|]. intros [?|[_ Hy]]; [done|]. by rewrite (HR y Hy) in *.
Qed.

Lemma touches_shapes hook R tbl tbl' : touches hook R tbl tbl' → shapes tbl' = shapes tbl.
Proof.
  intros Ht. apply map_eq. intros x. unfold shapes. rewrite !lookup_fmap. specialize (Ht x).
  destruct (tbl !! x), (tbl' !! x); try done. destruct Ht as [Hs _]. simpl.
  by rewrite (same_static_shape _ _ Hs).
Qed.

(** ** Paths in the table *)
Definition parent (path : list Z) (pos : Z) : Z := match path with [] => pos | q :: _ => q end.

Fixpoint linked (tbl : blob) (path : list Z) : Prop :=
  match path with
  | [] => True
  | p :: path => (∃ e, tbl !! p = Some e ∧ pcnt e = parent path p) ∧ linked tbl path
  end.

Definition marks (tbl : blob) (path : list Z) : Prop := ∀ x e, tbl !! x = Some e →
  Z.testbit (comefrom e) 5 = bool_decide (x ∈ path) ∧ (x ∉ path → pcnt e = 0).

Record Rep (sh : gmap Z (Z * kind)) (tbl : blob) (path : list Z) : Prop := mk_Rep {
  rep_shapes : shapes tbl = sh;
  rep_nodup : NoDup path;
  rep_linked : linked tbl path;
  rep_marks : marks tbl path }.

Lemma linked_insert tbl path x e : x ∉ path → linked tbl path → linked (<[x := e]> tbl) path.
Proof.
  induction path as [|p path IH]; [done|]. intros [Hx Hxs]%not_elem_of_cons [(e0 & Hp & Hc) Hl].
  split; [|by apply IH]. exists e0. by rewrite lookup_insert_ne.
Qed.

Lemma linked_dom tbl path p : linked tbl path → p ∈ path → is_Some (tbl !! p).
Proof.
  induction path as [|q path IH]; [by intros _ ?%not_elem_of_nil|].
  intros [(e & Hq & _) Hl] [->|Hp]%elem_of_cons; eauto.
Qed.

Lemma rep_length sh tbl path : Rep sh tbl path → (length path ≤ size tbl)%nat.
Proof.
  intros HR. rewrite <- size_dom. rewrite <- (size_list_to_set (C:=gset Z) path) by apply HR.
  apply subseteq_size. intros x Hx%elem_of_list_to_set. apply elem_of_dom.
  eapply linked_dom; [apply HR|done].
Qed.

Lemma shapes_insert tbl x (e e' : entry) : tbl !! x = Some e → shape_of e' = shape_of e →
  shapes (<[x := e']> tbl) = shapes tbl.
Proof.
  intros Hx Hs. unfold shapes. rewrite fmap_insert, Hs. apply insert_id. by rewrite lookup_fmap, Hx.
Qed.

Lemma rep_lookup sh tbl path x n k : Rep sh tbl path → sh !! x = Some (n, k) →
  ∃ e, tbl !! x = Some e ∧ next_offset e = n ∧ kind_of e = k.
Proof.
  intros HR Hx. rewrite <- (rep_shapes _ _ _ HR) in Hx. unfold shapes in Hx.
  rewrite lookup_fmap in Hx. destruct (tbl !! x) as [e|]; [|done].
  simpl in Hx. injection Hx as <- <-. by exists e.
Qed.

Lemma rep_none sh tbl path x : Rep sh tbl path → sh !! x = None → tbl !! x = None.
Proof.
  intros HR Hx. rewrite <- (rep_shapes _ _ _ HR) in Hx. unfold shapes in Hx.
  rewrite lookup_fmap in Hx. by destruct (tbl !! x).
Qed.

(** *** Leaving the entry on top of the path *)
Definition left_entry (e : entry) : entry := e <| comefrom := Z.lxor (comefrom e) MARK |> <| pcnt := 0 |>.

Lemma rep_leave sh tbl path c e : Rep sh tbl (c :: path) → tbl !! c = Some e →
  Rep sh (<[c := left_entry e]> tbl) path ∧ ∀ hook, touches hook (λ _, False) tbl (<[c := left_entry e]> tbl).
Proof.
  intros [Hs [Hc Hnd]%NoDup_cons [_ Hl] Hm] He. split; [split|].
  - rewrite <- Hs. by apply (shapes_insert _ _ e).
  - done.
  - by apply linked_insert.
  - intros x ex. rewrite lookup_insert. case_decide as Heq; subst.
    + intros [= <-]. cbn [left_entry comefrom pcnt update upd_comefrom upd_pcnt]. rewrite testbit_unmark by lia. destruct (Hm x e He) as [-> _].
      rewrite !bool_decide_eq_true_2 by by left. by rewrite bool_decide_eq_false_2.
    + intros Hx. destruct (Hm x ex Hx) as [-> Hp]. split.
      * apply bool_decide_ext. rewrite elem_of_cons. naive_solver.
      * intros Hn. apply Hp. rewrite elem_of_cons. naive_solver.
  - intros hook. apply (touches_insert _ _ _ _ e); [done|by destruct e| |done].
    intros h Hh Hne. cbn [left_entry comefrom pcnt update upd_comefrom upd_pcnt]. rewrite testbit_unmark by done.
    rewrite (proj2 (Z.eqb_neq h 5)) by done. rewrite xorb_false_r. tauto.
Qed.

(** *** Entering an entry *)
Definition marked_entry (hook : Z) (path : list Z) (pos : Z) (e : entry) : entry :=
  e <| pcnt := parent path pos |>
    <| comefrom := Z.lor (comefrom e) (Z.lor (Z.shiftl 1 hook) MARK) |>.

Lemma rep_enter sh tbl path hook pos e : 0 <= hook < 5 → Rep sh tbl path → pos ∉ path →
  tbl !! pos = Some e →
  Rep sh (<[pos := marked_entry hook path pos e]> tbl) (pos :: path) ∧
  touches hook (eq pos) tbl (<[pos := marked_entry hook path pos e]> tbl).
Proof.
  intros Hh [Hs Hnd Hl Hm] Hp He. split; [split|].
  - rewrite <- Hs. by apply (shapes_insert _ _ e).
  - by apply NoDup_cons.
  - split; [|by apply linked_insert]. eexists. by rewrite lookup_insert_eq.
  - intros x ex. rewrite lookup_insert. case_decide as Heq; subst.
    + intros [= <-]. cbn [marked_entry comefrom pcnt update upd_comefrom upd_pcnt]. rewrite testbit_mark by lia. rewrite orb_true_r.
      rewrite bool_decide_eq_true_2 by by left. split; [done|]. rewrite elem_of_cons. naive_solver.
    + intros Hx. destruct (Hm x ex Hx) as [-> Hpc]. split.
      * apply bool_decide_ext. rewrite elem_of_cons. naive_solver.
      * intros Hn. apply Hpc. rewrite elem_of_cons in Hn. naive_solver.
  - apply (touches_insert _ _ _ _ e); [done|by destruct e| |done].
    intros h Hh' Hne. cbn [marked_entry comefrom pcnt update upd_comefrom upd_pcnt]. rewrite testbit_mark by lia.
    rewrite (proj2 (Z.eqb_neq h 5)) by done. rewrite orb_false_r, orb_true_iff, Z.eqb_eq. naive_solver.
Qed.

(** ** Backtracking *)
Section Walk.
Context (sh : gmap Z (Z * kind)) (Hu32 : ∀ x, is_Some (sh !! x) → is_u32 x).
Context (hook : Z) (Hhook : 0 <= hook < 5).

Lemma rep_dom_u32 tbl path x e : Rep sh tbl path → tbl !! x = Some e → is_u32 x.
Proof.
  intros HR He. apply Hu32. rewrite <- (rep_shapes _ _ _ HR). unfold shapes.
  rewrite lookup_fmap, He. by eexists.
Qed.

(** One iteration of the loop. *)
Lemma msc_back_step tbl path c e n : Rep sh tbl (c :: path) → tbl !! c = Some e →
  msc_back (S n) tbl c =
    let tbl' := <[c := left_entry e]> tbl in
    match path with
    | [] => Some (None, tbl')
    | p :: _ => ep ← tbl !! p; if c =? p + next_offset ep then msc_back n tbl' p else Some (Some p, tbl')
    end.
Proof.
  intros HR He. cbn [msc_back]. rewrite He. cbn [mbind option_bind].
  destruct (rep_linked _ _ _ HR) as [(e0 & He0 & Hpc) Hl]. rewrite He in He0. injection He0 as <-.
  change (pcnt (e <| comefrom := _ |>)) with (pcnt e). rewrite Hpc. cbn zeta.
  destruct path as [|p path]; cbn [parent].
  { rewrite u32_id by by eapply rep_dom_u32. by rewrite Z.eqb_refl. }
  destruct Hl as [(ep & Hp & _) _].
  rewrite u32_id by by eapply rep_dom_u32.
  assert (p ≠ c) as Hne.
  { intros ->. pose proof (rep_nodup _ _ _ HR) as [Hc _]%NoDup_cons. apply Hc. by left. }
  rewrite (proj2 (Z.eqb_neq p c)), lookup_insert_ne by done. done.
Qed.

Lemma msc_back_fuel path : ∀ tbl c n, Rep sh tbl (c :: path) → (length path < n)%nat →
  msc_back n tbl c = msc_back (S (length path)) tbl c.
Proof.
  induction path as [|p path IH]; intros tbl c n HR Hn; (destruct n as [|n]; [simpl in Hn; lia|]);
    destruct (rep_linked _ _ _ HR) as [(e & He & _) Hl];
    rewrite !(msc_back_step _ _ _ _ _ HR He); [done|].
  destruct Hl as [(ep & Hp & _) _]. rewrite Hp. cbn [mbind option_bind]. case_bool; [|done].
  apply IH; [by apply rep_leave|simpl in Hn; lia].
Qed.

(** The continuation of the walk once the entry [pos] is done with. *)
Definition finish (fuel : nat) (tbl : blob) (pos : Z) : msc_result (M:=M) (T:=T) :=
  match msc_back (S (size tbl)) tbl pos with
  | None => MSC_wild
  | Some (None, tbl) => MSC_ok tbl
  | Some (Some jump, tbl) =>
      match tbl !! jump with
      | None => MSC_wild
      | Some ej =>
          let newpos := jump + next_offset ej in
          match tbl !! newpos with
          | None => MSC_wild
          | Some e' => msc_walk fuel hook (<[newpos := e' <| pcnt := jump |>]> tbl) newpos
          end
      end
  end.

Definition enter (fuel : nat) (tbl : blob) (path : list Z) (pos : Z) : msc_result (M:=M) (T:=T) :=
  match tbl !! pos with
  | None => MSC_wild
  | Some e => msc_walk fuel hook (<[pos := e <| pcnt := parent path pos |>]> tbl) pos
  end.

Lemma finish_root fuel tbl c e : Rep sh tbl [c] → tbl !! c = Some e →
  finish fuel tbl c = MSC_ok (<[c := left_entry e]> tbl).
Proof. intros HR He. unfold finish. by rewrite (msc_back_step _ _ _ _ _ HR He). Qed.

Lemma finish_next fuel tbl path c p e n k : Rep sh tbl (c :: p :: path) → tbl !! c = Some e →
  sh !! p = Some (n, k) → c = p + n →
  finish fuel tbl c = finish fuel (<[c := left_entry e]> tbl) p.
Proof.
  intros HR He Hp ->. unfold finish. rewrite (msc_back_step _ _ _ _ _ HR He).
  destruct (rep_lookup _ _ _ _ _ _ HR Hp) as (ep & Hep & <- & _). rewrite Hep. cbn [mbind option_bind].
  rewrite Z.eqb_refl. destruct (rep_leave _ _ _ _ _ HR He) as [HR' _].
  pose proof (rep_length _ _ _ HR). pose proof (rep_length _ _ _ HR'). cbn [length] in *.
  rewrite (msc_back_fuel _ _ _ (size tbl) HR') by lia. symmetry.
  by rewrite (msc_back_fuel _ _ _ (S (size _)) HR') by lia.
Qed.

Lemma finish_jump fuel tbl path c p e n k : Rep sh tbl (c :: p :: path) → tbl !! c = Some e →
  sh !! p = Some (n, k) → c ≠ p + n →
  finish fuel tbl c = enter fuel (<[c := left_entry e]> tbl) (p :: path) (p + n).
Proof.
  intros HR He Hp Hne. unfold finish. rewrite (msc_back_step _ _ _ _ _ HR He).
  destruct (rep_leave _ _ _ _ _ HR He) as [HR' _].
  destruct (rep_lookup _ _ _ _ _ _ HR Hp) as (ep & Hep & <- & _). rewrite Hep. cbn [mbind option_bind].
  rewrite (proj2 (Z.eqb_neq _ _)) by done.
  assert (p ≠ c) as Hpc.
  { intros ->. pose proof (rep_nodup _ _ _ HR) as [Hc _]%NoDup_cons. apply Hc. by left. }
  by rewrite lookup_insert_ne, Hep by done.
Qed.

(** ** The walk *)
Lemma enter_loop fuel tbl path pos : Rep sh tbl path → pos ∈ path →
  enter (S fuel) tbl path pos = MSC_loop.
Proof.
  intros HR Hp. unfold enter. destruct (linked_dom _ _ _ (rep_linked _ _ _ HR) Hp) as [e He].
  rewrite He. cbn [msc_walk]. rewrite lookup_insert_eq, flag_MARK.
  change (comefrom (e <| pcnt := _ |>)) with (comefrom e).
  destruct (rep_marks _ _ _ HR _ _ He) as [-> _]. by rewrite bool_decide_eq_true_2.
Qed.

Lemma enter_step fuel tbl path pos e n k : Rep sh tbl path → pos ∉ path →
  tbl !! pos = Some e → sh !! pos = Some (n, k) →
  enter (S fuel) tbl path pos =
    let tbl' := <[pos := marked_entry hook path pos e]> tbl in
    match k with
    | K_end _ => finish fuel tbl' pos
    | K_jump v => enter fuel tbl' (pos :: path) v
    | K_fall => enter fuel tbl' (pos :: path) (pos + n)
    end.
Proof.
  intros HR Hp He Hs. unfold enter at 1. rewrite He. cbn [msc_walk].
  rewrite lookup_insert_eq, flag_MARK.
  change (comefrom (e <| pcnt := _ |>)) with (comefrom e).
  destruct (rep_marks _ _ _ HR _ _ He) as [-> _]. rewrite bool_decide_eq_false_2 by done.
  rewrite insert_insert_eq. fold (marked_entry hook path pos e).
  destruct (rep_lookup _ _ _ _ _ _ HR Hs) as (e0 & He0 & <- & <-). rewrite He in He0. injection He0 as <-.
  change (is_end (marked_entry _ _ _ e)) with (is_end e).
  change (is_standard (marked_entry _ _ _ e)) with (is_standard e).
  unfold kind_of. destruct (is_standard e) as [v|] eqn:Es.
  - destruct (is_end e); [done|]. by destruct (0 <=? v).
  - unfold is_end. by rewrite Es, andb_false_r.
Qed.

(** The walk [f] comes to the end of what can be reached from [pos]. *)
Definition finishes (tbl : blob) (f : nat → msc_result) (path : list Z) (pos : Z) (R : Z → Prop) : Prop :=
  ∃ m tbl', (∀ k, f (m + k)%nat = finish k tbl' pos) ∧ Rep sh tbl' (pos :: path) ∧
            touches hook R tbl tbl'.

Lemma finishes_next tbl f path pos R n k : finishes tbl f (pos :: path) (pos + n) R →
  sh !! pos = Some (n, k) → finishes tbl f path pos R.
Proof.
  intros (m & tbl' & Hf & HR & Ht) Hs.
  destruct (rep_linked _ _ _ HR) as [(e & He & _) _].
  destruct (rep_leave _ _ _ _ _ HR He) as [HR' Ht'].
  exists m, (<[pos + n := left_entry e]> tbl'). split_and!; [|done|].
  - intros i. rewrite Hf. by eapply finish_next.
  - eapply touches_trans; [done|apply Ht'|]. naive_solver.
Qed.

Lemma finishes_jump tbl f path pos v R n k : finishes tbl f (pos :: path) v R →
  sh !! pos = Some (n, k) → v ≠ pos + n →
  ∃ m tbl', (∀ k, f (m + k)%nat = enter k tbl' (pos :: path) (pos + n)) ∧
    Rep sh tbl' (pos :: path) ∧ touches hook R tbl tbl'.
Proof.
  intros (m & tbl' & Hf & HR & Ht) Hs Hne.
  destruct (rep_linked _ _ _ HR) as [(e & He & _) _].
  destruct (rep_leave _ _ _ _ _ HR He) as [HR' Ht'].
  exists m, (<[v := left_entry e]> tbl'). split_and!; [|done|].
  - intros i. rewrite Hf. by eapply finish_jump.
  - eapply touches_trans; [done|apply Ht'|]. naive_solver.
Qed.

Inductive outcome (tbl : blob) (f : nat → msc_result) (path : list Z) (pos : Z) : Prop :=
  | out_wild m x : (∀ k, f (m + k)%nat = MSC_wild) → rtc (succ sh) pos x → sh !! x = None →
      outcome tbl f path pos
  | out_loop m x : (∀ k, f (m + k)%nat = MSC_loop) → rtc (succ sh) pos x → tc (succ sh) x x →
      outcome tbl f path pos
  | out_done : Fin sh pos → finishes tbl f path pos (rtc (succ sh) pos) → outcome tbl f path pos.

(** The outcome at a successor [y] of [pos], seen from [pos]. *)
Lemma outcome_pre tbl tbl' (f g : nat → msc_result) path path' pos y m :
  succ sh pos y → (∀ k, f (m + k)%nat = g k) → outcome tbl' g path' y →
  outcome tbl f path pos ∨ (Fin sh y ∧ finishes tbl' f path' y (rtc (succ sh) y)).
Proof.
  intros Hs Hfg [m' x Hf Hr Hx|m' x Hf Hr Hx|Hfin (m' & tbl2 & Hf & HR & Ht)].
  - left. apply (out_wild _ _ _ _ (m + m') x); [|by eapply rtc_l|done].
    intros k. by rewrite <- Nat.add_assoc, Hfg.
  - left. apply (out_loop _ _ _ _ (m + m') x); [|by eapply rtc_l|done].
    intros k. by rewrite <- Nat.add_assoc, Hfg.
  - right. split; [done|]. exists (m + m')%nat, tbl2. split_and!; [|done..].
    intros k. by rewrite <- Nat.add_assoc, Hfg.
Qed.

Lemma finishes_touch tbl0 tbl f path pos R0 R R' : touches hook R0 tbl0 tbl →
  finishes tbl f path pos R → (∀ x, R' x ↔ R0 x ∨ R x) → finishes tbl0 f path pos R'.
Proof.
  intros H0 (m & tbl' & Hf & HR & Ht) HR'. exists m, tbl'. split_and!; [done..|].
  by eapply touches_trans.
Qed.

Lemma rtc_end pos n v x : sh !! pos = Some (n, K_end v) → pos = x ↔ rtc (succ sh) pos x.
Proof.
  intros Hs. split; [by intros ->|]. intros Hr. inversion Hr as [|? y ? Hy _]; subst; [done|].
  destruct Hy as [? ? Hs'|? ? Hs']; rewrite Hs in Hs'; by simplify_eq.
Qed.

Lemma rtc_fall pos n x : sh !! pos = Some (n, K_fall) →
  rtc (succ sh) pos x ↔ pos = x ∨ rtc (succ sh) (pos + n) x.
Proof.
  intros Hs. split.
  - intros Hr. inversion Hr as [|? y ? Hy Hyx]; subst; [by left|right].
    destruct Hy as [? ? Hs'|? ? Hs']; rewrite Hs in Hs'; by simplify_eq.
  - intros [->|Hr]; [done|]. eapply rtc_l; [by eapply succ_next|done].
Qed.

Lemma rtc_jump pos n v x : sh !! pos = Some (n, K_jump v) →
  rtc (succ sh) pos x ↔ pos = x ∨ rtc (succ sh) v x ∨ rtc (succ sh) (pos + n) x.
Proof.
  intros Hs. split.
  - intros Hr. inversion Hr as [|? y ? Hy Hyx]; subst; [by left|right].
    destruct Hy as [? ? Hs'|? ? Hs']; rewrite Hs in Hs'; simplify_eq; auto.
  - intros [->|[Hr|Hr]]; [done|..].
    + eapply rtc_l; [by eapply succ_jump|done].
    + eapply rtc_l; [by eapply succ_next|done].
Qed.

Lemma path_succ path pos y : (∀ p, p ∈ path → tc (succ sh) p pos) → succ sh pos y →
  ∀ p, p ∈ pos :: path → tc (succ sh) p y.
Proof. intros Hp Hs p [->|Hin]%elem_of_cons; [by constructor|]. eapply tc_r; eauto. Qed.

Lemma enter_outcome N : ∀ tbl path pos, Rep sh tbl path →
  (∀ p, p ∈ path → tc (succ sh) p pos) → (size sh - length path < N)%nat →
  outcome tbl (λ k, enter k tbl path pos) path pos.
Proof.
  induction N as [|N IH]; [lia|]. intros tbl path pos HR Hpath HN.
  destruct (sh !! pos) as [[n k]|] eqn:Hs.
  2: { apply (out_wild _ _ _ _ 0 pos); [|done..]. intros k. unfold enter.
       by rewrite (rep_none _ _ _ _ HR Hs). }
  destruct (decide (pos ∈ path)) as [Hp|Hp].
  { apply (out_loop _ _ _ _ 1 pos); [|done|by apply Hpath]. intros k'. by apply enter_loop. }
  destruct (rep_lookup _ _ _ _ _ _ HR Hs) as (e & He & _).
  pose proof (λ f, enter_step f _ _ _ _ _ _ HR Hp He Hs) as Hstep. cbn zeta in Hstep.
  destruct (rep_enter sh tbl path hook pos e Hhook HR Hp He) as [HR1 Ht1].
  set (tbl1 := <[pos := marked_entry hook path pos e]> tbl) in *.
  assert (∀ tbl y, Rep sh tbl (pos :: path) → succ sh pos y →
            outcome tbl (λ k, enter k tbl (pos :: path) y) (pos :: path) y) as IH'.
  { intros tbl' y HR' Hy. apply IH; [done|by apply path_succ|].
    assert (size sh = size tbl') as Hsz.
    { rewrite <- (rep_shapes _ _ _ HR'). unfold shapes. apply map_size_fmap. }
    pose proof (rep_length _ _ _ HR'). cbn [length] in *. lia. }
  destruct k as [v|v|].
  - apply out_done; [by eapply fin_end|]. exists 1%nat, tbl1. split_and!; [done..|].
    eapply touches_ext; [done|]. intros x. by apply (rtc_end pos n v).
  - assert (succ sh pos v) as Hv by by eapply succ_jump.
    assert (succ sh pos (pos + n)) as Hnx by by eapply succ_next.
    destruct (outcome_pre tbl tbl1 (λ k, enter k tbl path pos) _ path _ pos v 1 Hv Hstep (IH' _ _ HR1 Hv))
      as [?|[Hf Hfin]]; [done|].
    destruct (decide (v = pos + n)) as [->|Hne].
    + apply out_done; [by eapply fin_jump|]. eapply finishes_touch; [done|by eapply finishes_next|].
      intros x. rewrite (rtc_jump _ _ _ _ Hs). tauto.
    + destruct (finishes_jump _ _ _ _ _ _ _ _ Hfin Hs Hne) as (m & tbl2 & Hf2 & HR2 & Ht2).
      destruct (outcome_pre tbl tbl2 (λ k, enter k tbl path pos) _ path _ pos (pos + n) m Hnx Hf2 (IH' _ _ HR2 Hnx))
        as [?|[Hf3 Hfin3]]; [done|].
      apply out_done; [by eapply fin_jump|].
      eapply finishes_touch; [exact (touches_trans _ _ _ (λ x, pos = x ∨ rtc (succ sh) v x) _ _ _ Ht1 Ht2 (λ x, iff_refl _))
        |by eapply finishes_next|].
      intros x. rewrite (rtc_jump _ _ _ _ Hs). tauto.
  - assert (succ sh pos (pos + n)) as Hnx by by eapply succ_next.
    destruct (outcome_pre tbl tbl1 (λ k, enter k tbl path pos) _ path _ pos (pos + n) 1 Hnx Hstep (IH' _ _ HR1 Hnx))
      as [?|[Hf Hfin]]; [done|].
    apply out_done; [by eapply fin_fall|]. eapply finishes_touch; [done|by eapply finishes_next|].
    intros x. by apply rtc_fall.
Qed.

(** A whole walk, from the start of a hook's chain. *)
Lemma hook_outcome tbl pos : Rep sh tbl [] →
  (∃ m x, (∀ k, enter (m + k) tbl [] pos = MSC_wild) ∧ rtc (succ sh) pos x ∧ sh !! x = None) ∨
  (∃ m x, (∀ k, enter (m + k) tbl [] pos = MSC_loop) ∧ rtc (succ sh) pos x ∧ tc (succ sh) x x) ∨
  (Fin sh pos ∧ ∃ m tbl', (∀ k, enter (m + k) tbl [] pos = MSC_ok tbl') ∧ Rep sh tbl' [] ∧
     touches hook (rtc (succ sh) pos) tbl tbl').
Proof.
  intros HR. destruct (enter_outcome (S (size sh)) tbl [] pos HR) as [m x|m x|Hf (m & tbl' & Hf' & HR' & Ht)].
  - by intros p ?%not_elem_of_nil.
  - simpl. lia.
  - left. by exists m, x.
  - right. left. by exists m, x.
  - right. right. split; [done|]. destruct (rep_linked _ _ _ HR') as [(e & He & _) _].
    destruct (rep_leave _ _ _ _ _ HR' He) as [HR2 Ht2].
    exists m, (<[pos := left_entry e]> tbl'). split_and!; [|done|].
    + intros k. rewrite Hf'. by apply finish_root.
    + eapply touches_trans; [done|apply Ht2|]. naive_solver.
Qed.
End Walk.

(** ** All hooks *)
Section Hooks.
Context (sh : gmap Z (Z * kind)) (Hu32 : ∀ x, is_Some (sh !! x) → is_u32 x).
Context (valid_hooks : Z) (he : Z → Z).

Definition valid_hook (h : Z) : Prop := flag valid_hooks (Z.shiftl 1 h) = true.

(** [tbl'] is [tbl] with the bit of every hook in [hooks] added to the entries
    reachable from it. *)
Definition sources (hooks : list Z) (tbl tbl' : blob) : Prop := ∀ x,
  match tbl !! x, tbl' !! x with
  | Some e, Some e' => same_static e e' ∧
      ∀ h, 0 <= h → h ≠ 5 →
        (Z.testbit (comefrom e') h = true ↔
         Z.testbit (comefrom e) h = true ∨ (h ∈ hooks ∧ valid_hook h ∧ rtc (succ sh) (he h) x))
  | None, None => True
  | _, _ => False
  end.

Definition hooks_result (hooks : list Z) (tbl : blob) (r : msc_result) : Prop :=
  match r with
  | MSC_ok tbl' => (∀ h, h ∈ hooks → valid_hook h → Fin sh (he h)) ∧ Rep sh tbl' [] ∧ sources hooks tbl tbl'
  | MSC_loop => ∃ h x, h ∈ hooks ∧ valid_hook h ∧ rtc (succ sh) (he h) x ∧ tc (succ sh) x x
  | MSC_wild => ∃ h x, h ∈ hooks ∧ valid_hook h ∧ rtc (succ sh) (he h) x ∧ sh !! x = None
  | MSC_fuel => False
  end.

Lemma sources_nil tbl : sources [] tbl tbl.
Proof.
  intros x. destruct (tbl !! x) as [e|]; [|done]. split; [by destruct e|]. intros h _ _.
  split; [by left|]. intros [?|[?%not_elem_of_nil _]]; done.
Qed.

Lemma sources_cons h hooks tbl tbl' tbl'' : valid_hook h →
  touches h (rtc (succ sh) (he h)) tbl tbl' → sources hooks tbl' tbl'' →
  sources (h :: hooks) tbl tbl''.
Proof.
  intros Hv Ht Hs x. specialize (Ht x). specialize (Hs x).
  destruct (tbl !! x), (tbl' !! x), (tbl'' !! x); try done.
  destruct Ht as [Hs1 Hb1], Hs as [Hs2 Hb2]. split; [by eapply same_static_trans|].
  intros hk Hhk Hne. rewrite Hb2, Hb1, elem_of_cons by done. naive_solver.
Qed.

Lemma hooks_result_skip h hooks tbl r : ¬ valid_hook h → hooks_result hooks tbl r →
  hooks_result (h :: hooks) tbl r.
Proof.
  intros Hv. unfold hooks_result. destruct r as [tbl'| | |]; [|set_solver..].
  intros (Hf & HR & Hs). split_and!; [|done|].
  - intros h' [->|?]%elem_of_cons; [done|by apply Hf].
  - intros x. specialize (Hs x). destruct (tbl !! x), (tbl' !! x); try done.
    destruct Hs as [Hs Hb]. split; [done|]. intros hk Hhk Hne. rewrite Hb by done. set_solver.
Qed.

Lemma msc_hooks_spec hooks : ∀ tbl, (∀ h, h ∈ hooks → 0 <= h < 5) → Rep sh tbl [] →
  ∃ m r, (∀ k, msc_hooks (m + k) hooks valid_hooks he tbl = r) ∧ hooks_result hooks tbl r.
Proof.
  induction hooks as [|h hooks IH]; intros tbl Hh HR.
  { exists 0%nat, (MSC_ok tbl). split; [done|]. split_and!; [by intros ? ?%not_elem_of_nil|done|apply sources_nil]. }
  assert (∀ h, h ∈ hooks → 0 <= h < 5) as Hh' by set_solver.
  destruct (flag valid_hooks (Z.shiftl 1 h)) eqn:Ev.
  2: { destruct (IH tbl Hh' HR) as (m & r & Hm & Hr). exists m, r. split.
       - intros k. cbn [msc_hooks]. rewrite Ev. apply Hm.
       - apply hooks_result_skip; [|done]. unfold valid_hook. by rewrite Ev. }
  assert (∀ k, msc_hooks k (h :: hooks) valid_hooks he tbl
               = match enter h k tbl [] (he h) with
                 | MSC_ok tbl' => msc_hooks k hooks valid_hooks he tbl'
                 | r => r
                 end) as Hstep.
  { intros k. cbn [msc_hooks]. rewrite Ev. unfold enter. cbn [negb parent]. by destruct (tbl !! he h). }
  destruct (hook_outcome sh Hu32 h (Hh h ltac:(set_solver)) tbl (he h) HR)
    as [(m & x & Hm & Hr & Hx)|[(m & x & Hm & Hr & Hx)|(Hf & m & tbl' & Hm & HR' & Ht)]].
  - exists m, MSC_wild. split; [intros k; by rewrite Hstep, Hm|]. exists h, x. set_solver.
  - exists m, MSC_loop. split; [intros k; by rewrite Hstep, Hm|]. exists h, x. set_solver.
  - destruct (IH tbl' Hh' HR') as (m' & r & Hm' & Hr). exists (m + m')%nat, r. split.
    + intros k. rewrite Hstep, <- Nat.add_assoc, Hm. rewrite <- (Hm' (m + k)%nat). f_equal. lia.
    + destruct r as [tbl''| | |]; [|set_solver..].
      destruct Hr as (Hf' & HR'' & Hs). split_and!; [|done|by eapply sources_cons].
      intros h' [->|?]%elem_of_cons Hv; [done|by apply Hf'].
Qed.
End Hooks.

(** ** More fuel does not change a result *)
Lemma msc_walk_mono n k hook : ∀ (tbl : blob) pos r, msc_walk n hook tbl pos = r → r ≠ MSC_fuel →
  msc_walk (n + k) hook tbl pos = r.
Proof.
  induction n as [|n IH]; intros tbl pos r; [by intros <-|]. rewrite Nat.add_succ_l. cbn [msc_walk].
  repeat (case_match; try done); intros Hr Hne; by apply IH.
Qed.

Lemma msc_hooks_mono n k valid he hooks : ∀ (tbl tbl' : blob),
  msc_hooks n hooks valid he tbl = MSC_ok tbl' → msc_hooks (n + k) hooks valid he tbl = MSC_ok tbl'.
Proof.
  induction hooks as [|h hooks IH]; intros tbl tbl'; [done|]. cbn [msc_hooks].
  case_match; [apply IH|]. case_match; [|done].
  destruct (msc_walk n h _ _) eqn:E; try done. rewrite (msc_walk_mono _ k _ _ _ _ E) by done. apply IH.
Qed.
End Chains.
