(* ===== verification/IpTablesSpec.v ===== *)
(** * Packet filter tables: what the loader guarantees for the traversal

    [translate_table] lays out the entries, checks their sizes, finds the hooks and
    runs [mark_source_chains].  Composed with the traversal: a table it accepts is
    traversed to a verdict for every packet, and the verdict is the one the chains
    give. *)
From S2P Require Import Prelude Packet CtBase IpTables IpTablesFacts IpTablesChains.
From stdpp Require Import fin_maps relations.
#[local] Open Scope Z_scope.

Section Spec.
Context {M T W : Type} `{IptExt M T W}.
Abbreviation entry := (ipt_entry M T).
Abbreviation blob := (gmap Z entry).

(** ** Layout *)
Definition long_enough (e : entry) : Prop := sizeof_ipt_entry + sizeof_ipt_entry_target <= next_offset e.

Lemma long_pos e : long_enough e → 0 < next_offset e.
Proof. unfold long_enough, sizeof_ipt_entry, sizeof_ipt_entry_target. lia. Qed.

Lemma layout_below (l : list entry) pos x : Forall long_enough l → x < pos → layout pos l !! x = None.
Proof.
  revert pos. induction l as [|e l IH]; intros pos Hl Hx; [done|].
  apply Forall_cons_iff in Hl as [He%long_pos Hl]. simpl.
  rewrite lookup_insert_ne by lia. apply IH; [done|lia].
Qed.

Lemma layout_order (l : list entry) pos c c' e e' : Forall long_enough l →
  layout pos l !! c = Some e → layout pos l !! c' = Some e' → c < c' → c + next_offset e <= c'.
Proof.
  revert pos. induction l as [|e0 l IH]; intros pos Hl; [done|].
  apply Forall_cons_iff in Hl as [He Hl]. simpl.
  rewrite !lookup_insert. repeat case_decide; subst; intros E1 E2 Hlt; simplify_eq; try lia.
  - destruct (decide (c' < c + next_offset e)) as [Hb|]; [|lia].
    by rewrite (layout_below l _ _ Hl Hb) in E2.
  - rewrite layout_below in E1; try done. apply long_pos in He. lia.
  - by eapply IH.
Qed.

Lemma layout_disjoint (l : list entry) pos : Forall long_enough l →
  disjoint_entries (shapes (layout pos l)).
Proof.
  intros Hl c c' n n' k k'. unfold shapes. rewrite !lookup_fmap.
  destruct (layout pos l !! c) as [e|] eqn:Ec; [|done].
  destruct (layout pos l !! c') as [e'|] eqn:Ec'; [|done].
  simpl. intros [= <- _] [= <- _] Heq.
  assert (∀ x ex, layout pos l !! x = Some ex → 0 < next_offset ex) as Hpos.
  { clear -Hl. revert pos. induction l as [|e0 l IH]; intros pos x ex; [done|].
    apply Forall_cons_iff in Hl as [He Hl]. simpl. rewrite lookup_insert. case_decide.
    - intros [= ->]. by apply long_pos.
    - by apply IH. }
  destruct (Z.lt_trichotomy c c') as [Hlt|[->|Hlt]]; [|done|].
  - pose proof (layout_order l pos c c' e e' Hl Ec Ec' Hlt). pose proof (Hpos _ _ Ec'). lia.
  - pose proof (layout_order l pos c' c e' e Hl Ec' Ec Hlt). pose proof (Hpos _ _ Ec). lia.
Qed.

Definition cleared (e : entry) : entry := e <| bcnt := 0 |> <| pcnt := 0 |> <| comefrom := 0 |>.

Lemma cleared_long e : long_enough (cleared e) ↔ long_enough e.
Proof. done. Qed.

(** ** The first pass *)
Definition hook_found (wanted before after : Z → Z) (tbl : blob) : Prop := ∀ h,
  after h = before h ∨ (after h = wanted h ∧ is_Some (tbl !! wanted h)).

Lemma set_hooks_found wanted have after pos e (tbl : blob) :
  hook_found wanted (set_hooks pos wanted have) after tbl →
  hook_found wanted have after (<[pos := e]> tbl).
Proof.
  intros Hf h. destruct (Hf h) as [->|[-> Hs]].
  - unfold set_hooks. destruct (_ && _) eqn:Eh; [|by left]. right. split; [done|].
    apply andb_true_iff in Eh as [_ <-%Z.eqb_eq]. by rewrite lookup_insert_eq.
  - right. split; [done|]. rewrite lookup_insert. by case_decide.
Qed.

Lemma check_sizes_spec (l : list entry) : ∀ pos n he uf (info info' : xt_table_info) n',
  (∀ x, pos <= x → t_entries info !! x = layout pos l !! x) →
  (∀ x e, layout pos l !! x = Some e → x < t_size info) →
  check_sizes (S (length l)) pos n he uf info = Some (0, n', info') →
  Forall long_enough l ∧ t_size info' = t_size info ∧
  (∀ x, x < pos → t_entries info' !! x = t_entries info !! x) ∧
  (∀ x, pos <= x → t_entries info' !! x = layout pos (cleared <$> l) !! x) ∧
  hook_found he (hook_entry info) (hook_entry info') (layout pos l) ∧
  hook_found uf (underflow info) (underflow info') (layout pos l).
Proof.
  induction l as [|e l IH]; intros pos n he uf info info' n' Hl Hlt E.
  { cbn [check_sizes length] in E. destruct (Z.leb_spec (t_size info) pos).
    - injection E as <- <-. split_and!; try done; by left.
    - rewrite Hl in E by lia. done. }
  cbn [length] in E. remember (S (length l)) as f eqn:Hf. cbn [check_sizes] in E.
  assert (layout pos (e :: l) !! pos = Some e) as He by apply lookup_insert_eq.
  destruct (Z.leb_spec (t_size info) pos); [pose proof (Hlt _ _ He); lia|].
  rewrite Hl, He in E by lia. cbn [mbind option_bind] in E.
  unfold check_entry_size_and_hooks in E.
  destruct (negb (pos mod 4 =? 0) || _); [by cbn in E|].
  destruct (Z.ltb_spec (next_offset e) (sizeof_ipt_entry + sizeof_ipt_entry_target)) as [|Hlong]; [by cbn in E|].
  cbn [negb Z.eqb] in E. pose proof (long_pos e Hlong) as Hpos.
  match type of E with check_sizes _ _ _ _ _ ?i = _ => set (info1 := i) in E end. subst f.
  apply IH in E as (Hll & Hsz & Hlow & Hhigh & Hhe & Huf).
  - split_and!.
    + by constructor.
    + by rewrite Hsz.
    + intros x Hx. rewrite Hlow by lia. cbn [info1 t_entries]. by rewrite lookup_insert_ne by lia.
    + intros x Hx. cbn [layout fmap list_fmap]. change (next_offset (cleared e)) with (next_offset e).
      destruct (decide (x = pos)) as [->|Hne].
      * rewrite Hlow by lia. cbn [info1 t_entries]. by rewrite !lookup_insert_eq.
      * rewrite (lookup_insert_ne _ pos) by done.
        destruct (decide (pos + next_offset e <= x)); [by apply Hhigh|].
        rewrite Hlow by lia. cbn [info1 t_entries]. rewrite lookup_insert_ne by done.
        rewrite Hl by lia. cbn [layout]. rewrite lookup_insert_ne by done.
        rewrite !layout_below; try done; try lia. by rewrite Forall_fmap.
    + by apply set_hooks_found.
    + by apply set_hooks_found.
  - intros x Hx. cbn [info1 t_entries]. rewrite lookup_insert_ne by lia. rewrite Hl by lia.
    cbn [layout]. by rewrite lookup_insert_ne by lia.
  - intros x ex Hx. cbn [info1 t_size]. 
    destruct (decide (x = pos)) as [->|Hne]; [by eapply Hlt|].
    apply (Hlt x ex). cbn [layout]. by rewrite lookup_insert_ne.
Qed.

(** ** Tables as [mark_source_chains] gets and leaves them *)
Definition is_cleared (tbl : blob) : Prop := ∀ x e, tbl !! x = Some e → comefrom e = 0 ∧ pcnt e = 0.

Lemma cleared_rep tbl : is_cleared tbl → Rep (shapes tbl) tbl [].
Proof.
  intros Hc. split; [done|constructor|done|]. intros x e He. destruct (Hc x e He) as [-> ->].
  by rewrite Z.bits_0, bool_decide_eq_false_2 by by apply not_elem_of_nil.
Qed.

Lemma layout_cleared (l : list entry) : ∀ pos, is_cleared (layout pos (cleared <$> l)).
Proof.
  induction l as [|e l IH]; intros pos x ex; [done|]. cbn [fmap list_fmap layout].
  rewrite lookup_insert. case_decide; [intros [= <-]; done|]. by apply IH.
Qed.

Lemma layout_wf (l : list entry) : ∀ pos, Forall wf_entry l → wf_blob (layout pos l).
Proof.
  induction l as [|e l IH]; intros pos Hl x ex; [done|]. apply Forall_cons_iff in Hl as [He Hl].
  cbn [layout]. rewrite lookup_insert. case_decide; [by intros [= <-]|]. by apply IH.
Qed.

Lemma sources_wf sh valid he hooks (tbl tbl' : blob) : sources sh valid he hooks tbl tbl' → wf_blob tbl → wf_blob tbl'.
Proof.
  intros Hs Hw x e' He'. specialize (Hs x). rewrite He' in Hs.
  destruct (tbl !! x) as [e|] eqn:He; [|done]. destruct Hs as [Hss _]. rewrite Hss. exact (Hw x e He).
Qed.

Lemma all_hooks h : h ∈ [0; 1; 2; 3; 4] ↔ 0 <= h < 5.
Proof. rewrite !elem_of_cons, elem_of_nil. lia. Qed.

Lemma layout_fmap_dom (l : list entry) : ∀ pos x e, layout pos (cleared <$> l) !! x = Some e →
  ∃ e0, layout pos l !! x = Some e0.
Proof.
  induction l as [|e0 l IH]; intros pos x e; [done|]. cbn [fmap list_fmap layout].
  rewrite !lookup_insert. case_decide; [by eexists|]. apply IH.
Qed.

(** An entry after the walk. *)
Lemma sources_entry sh valid he (tbl tbl' : blob) x e : is_cleared tbl → Rep sh tbl' [] →
  sources sh valid he [0; 1; 2; 3; 4] tbl tbl' → tbl !! x = Some e →
  ∃ e', tbl' !! x = Some e' ∧ e' = e <| comefrom := comefrom e' |> ∧
    ∀ h, 0 <= h → (Z.testbit (comefrom e') h = true ↔
                   h < 5 ∧ valid_hook valid h ∧ rtc (succ sh) (he h) x).
Proof.
  intros Hc HR Hs He. specialize (Hs x). rewrite He in Hs.
  destruct (tbl' !! x) as [e'|] eqn:He'; [|done]. destruct Hs as [Hss Hb]. exists e'.
  destruct (Hc x e He) as [Hce Hpe]. destruct (rep_marks _ _ _ HR x e' He') as [Hm Hp].
  rewrite bool_decide_eq_false_2 in Hm by apply not_elem_of_nil.
  specialize (Hp (not_elem_of_nil x)). split_and!; [done|..].
  - unfold same_static in Hss. rewrite Hp, <- Hpe in Hss. etrans; [exact Hss|]. by destruct e.
  - intros h Hh. destruct (decide (h = 5)) as [->|Hne]; [rewrite Hm; split; [done|lia]|].
    rewrite Hb, Hce, Z.bits_0, all_hooks by done. naive_solver lia.
Qed.

(** ** The last pass *)
Lemma check_entry_keeps e name size (w : W) ret e' : check_entry e name size w = (ret, e') →
  shape_of e' = shape_of e ∧ (wf_entry e → wf_entry e').
Proof.
  unfold check_entry. destruct (negb (ip_checkentry _)); [by intros [= _ <-]|].
  destruct (check_matches _ _ _ _ _) as [ok ms] eqn:Em.
  assert (wf_entry e → wf_entry (e <| e_matches := ms |>)) as Hw.
  { intros Hwf Ht. rewrite (Hwf Ht) in Em. by injection Em as _ <-. }
  destruct e as [ip to no cf bc pc msl tg]. cbn [e_target update upd_e_matches].
  destruct (negb ok); [by intros [= _ <-]|].
  destruct tg as [sz v| |t]; [by intros [= _ <-]..|].
  destruct (ext_target_check _ _ _ _ _ _) as [ok' t']. by intros [= _ <-].
Qed.

Lemma check_entries_keeps fuel : ∀ i name (info info' : xt_table_info) (w : W) ret,
  check_entries fuel i name info w = Some (ret, info') → wf_blob (t_entries info) →
  shapes (t_entries info') = shapes (t_entries info) ∧ hook_entry info' = hook_entry info ∧
  wf_blob (t_entries info').
Proof.
  induction fuel as [|fuel IH]; intros i name info info' w ret; cbn [check_entries];
    (destruct (t_size info <=? i); [by intros [= _ <-]|]); [done|].
  destruct (t_entries info !! i) as [e|] eqn:He; [|done]. cbn [mbind option_bind].
  destruct (check_entry e name (t_size info) w) as [r e'] eqn:Ec. intros E Hw.
  apply check_entry_keeps in Ec as [Hsh Hwe].
  destruct (good_insert (shapes (t_entries info)) (t_entries info) i e e') as [Hg1 Hg2]; try done.
  { apply Hwe, (Hw i e He). }
  destruct (negb (r =? 0)).
  - injection E as _ <-. cbn [t_entries set_entries hook_entry]. by rewrite Hg1.
  - apply IH in E; [|done]. cbn [t_entries hook_entry set_entries] in E. by rewrite Hg1 in E.
Qed.

(** What is true of a table that [translate_table] accepts. *)
Lemma translate_spec fuel name valid entries size number he uf w0 (info : xt_table_info) :
  Forall wf_entry entries → is_u32 size → (∀ x e, layout 0 entries !! x = Some e → x < size) →
  translate_table fuel name valid entries size number he uf w0 = Some (0, info) →
  wf_blob (t_entries info) ∧ disjoint_entries (shapes (t_entries info)) ∧
  ∀ h, 0 <= h < 5 → valid_hook valid h → Fin (shapes (t_entries info)) (hook_entry info h).
Proof.
  intros Hwf Hsz Hfit. unfold translate_table.
  destruct (check_sizes _ _ _ _ _ _) as [[[ret i] info1]|] eqn:E1; [|done]. cbn [mbind option_bind].
  destruct (Z.eqb_spec ret 0) as [->|]; cbn [negb]; [|by intros [= ? _]].
  destruct (negb (i =? number)); [done|]. destruct (negb (hooks_assigned _ _)); [done|].
  apply check_sizes_spec in E1 as (Hlong & _ & Hneg & Htbl & _ & _); [|done|done].
  assert (t_entries info1 = layout 0 (cleared <$> entries)) as Ht1.
  { apply map_eq. intros x. destruct (decide (0 <= x)); [by apply Htbl|].
    rewrite Hneg by lia. cbn [t_entries].
    rewrite !layout_below; try done; try lia. by rewrite Forall_fmap. }
  assert (∀ x, is_Some (shapes (t_entries info1) !! x) → is_u32 x) as Hu32.
  { intros x. unfold shapes. rewrite lookup_fmap, fmap_is_Some, Ht1. intros [e He].
    assert (0 <= x); [|split; [done|]].
    { destruct (decide (0 <= x)); [done|]. rewrite layout_below in He; try done; [|lia].
      by rewrite Forall_fmap. }
    apply Z.lt_le_trans with size; [|unfold is_u32 in Hsz; lia].
    destruct (layout_fmap_dom entries 0 x e He) as [e0 He0]. by apply (Hfit x e0). }
  destruct (msc_hooks_spec (shapes (t_entries info1)) Hu32 valid (hook_entry info1) [0; 1; 2; 3; 4] (t_entries info1))
    as (m & r & Hm & Hr); [by intros h ?%all_hooks|by apply cleared_rep; rewrite Ht1; apply layout_cleared|].
  unfold mark_source_chains. destruct (msc_hooks fuel _ _ _ _) as [tbl| | |] eqn:E2; try done.
  assert (r = MSC_ok tbl) as ->.
  { rewrite <- (Hm fuel), Nat.add_comm. by apply msc_hooks_mono. }
  destruct Hr as (Hfin & HR & Hs).
  intros (Hsh & Hhe & Hw)%check_entries_keeps.
  - rewrite Hsh, Hhe. cbn [t_entries hook_entry set_entries]. rewrite (rep_shapes _ _ _ HR). split_and!; [done|..].
    + rewrite Ht1. apply layout_disjoint. by rewrite Forall_fmap.
    + intros h Hh. apply Hfin. by apply all_hooks.
  - eapply sources_wf; [done|]. rewrite Ht1. apply layout_wf. by rewrite Forall_fmap.
Qed.

(** C37: [mark_source_chains] ends on every table, whatever its jumps (its loop has no
    bound in the code, and the path it follows is kept in the entries themselves).
    It succeeds exactly when no chain that a valid hook can reach contains a loop or
    leaves the table; it reports a loop only when there is one.  When it succeeds,
    every entry is as before except that its [comefrom] is exactly the set of hooks
    from which it can be reached, and its counter is zero again. *)
Theorem mark_source_chains_decides valid he (tbl : blob) :
  is_cleared tbl → (∀ x, is_Some (tbl !! x) → is_u32 x) →
  let sh := shapes tbl in
  ∃ fuel r, (∀ k, mark_source_chains (fuel + k) valid he tbl = r) ∧
    ((∃ tbl', r = MSC_ok tbl') ↔ ∀ h, 0 <= h < 5 → valid_hook valid h → Fin sh (he h)) ∧
    match r with
    | MSC_ok tbl' => ∀ x e, tbl !! x = Some e →
        ∃ e', tbl' !! x = Some e' ∧ e' = e <| comefrom := comefrom e' |> ∧
          ∀ h, 0 <= h → (Z.testbit (comefrom e') h = true ↔
                         h < 5 ∧ valid_hook valid h ∧ rtc (succ sh) (he h) x)
    | MSC_loop => ∃ h x, 0 <= h < 5 ∧ valid_hook valid h ∧ rtc (succ sh) (he h) x ∧ tc (succ sh) x x
    | MSC_wild => ∃ h x, 0 <= h < 5 ∧ valid_hook valid h ∧ rtc (succ sh) (he h) x ∧ tbl !! x = None
    | MSC_fuel => False
    end.
Proof.
  intros Hc Hu32 sh.
  assert (∀ x, is_Some (sh !! x) → is_u32 x) as Hu.
  { intros x. unfold sh, shapes. rewrite lookup_fmap, fmap_is_Some. apply Hu32. }
  destruct (msc_hooks_spec sh Hu valid he [0; 1; 2; 3; 4] tbl) as (m & r & Hm & Hr);
    [by intros h ?%all_hooks|by apply cleared_rep|].
  exists m, r. split_and!; [done|split|].
  - intros [tbl' ->] h Hh. apply Hr. by apply all_hooks.
  - intros Hf. destruct r as [tbl'| | |]; [by eexists|exfalso..]; [..|done];
      destruct Hr as (h & x & Hh%all_hooks & Hv & Hrt & Hx);
      assert (Fin sh x) as Hfx by (eapply fin_rtc; eauto).
    + eapply fin_no_tc; eauto.
    + destruct (fin_lookup _ _ Hfx). congruence.
  - destruct r as [tbl'| | |]; [|destruct Hr as (h & x & ?%all_hooks & ?); by exists h, x| |done].
    + intros x e He. destruct Hr as (_ & HR & Hs). by apply (sources_entry sh valid he tbl).
    + destruct Hr as (h & x & ?%all_hooks & ? & ? & Hx). exists h, x. split_and!; try done; try lia.
      unfold sh, shapes in Hx. rewrite lookup_fmap in Hx. by destruct (tbl !! x).
Qed.

(** C4: A table that [translate_table] accepts is safe to traverse: for every packet
    and every state of the extensions, [ipt_do_table] (which keeps its return
    addresses in the [comefrom] fields of the entries) ends with a verdict, and
    verdict, packet, counters and state are those that the chains mean when they are
    run as procedures.  The underflow of the hook has to be an unconditional
    absolute verdict, which the code asks for in a comment but does not check. *)
Theorem accepted_traversal fuel name valid entries size number he uf (w0 : W)
    (info : xt_table_info (M:=M) (T:=T)) skb hook inp out (w : W) p :
  Forall wf_entry entries → is_u32 size → (∀ x e, layout 0 entries !! x = Some e → x < size) →
  translate_table fuel name valid entries size number he uf w0 = Some (0, info) →
  0 <= hook < 5 → valid_hook valid hook →
  t_entries info !! underflow info hook = Some p → is_policy p = true →
  ∃ fuel v tbl' skb' w', ∀ k,
    ipt_do_table (fuel + k) info skb hook inp out w = Some (v, tbl', skb', w') ∧
    table_eval (fuel + k) (strip_info info) skb hook inp out w
      = Some (CR_verdict v, strips tbl', skb', w').
Proof.
  intros Hwf Hsz Hfit Ht Hh Hv Hp Hpol.
  destruct (translate_spec _ _ _ _ _ _ _ _ _ _ Hwf Hsz Hfit Ht) as (Hw & Hd & Hf).
  by apply (do_table_runs info skb hook inp out w p Hw Hd (Hf hook Hh Hv)).
Qed.
End Spec.

(** ** Concrete tables *)
Definition any_ip : ipt_ip :=
  mk_ipt_ip 0 0 0 0 (replicate 16 0) (replicate 16 0) (replicate 16 0) (replicate 16 0) 0 0 0.

(** A rule for all packets with a standard target. *)
Definition rule {M T} (verdict : Z) : ipt_entry M T :=
  mk_entry any_ip sizeof_ipt_entry (sizeof_ipt_entry + sizeof_ipt_standard_target) 0 0 0 []
    (T_standard sizeof_ipt_standard_target verdict).

#[export] Instance no_extensions : IptExt Empty_set Empty_set unit := {
  ext_match m := match m with end;
  ext_target t := match t with end;
  ext_match_check m := match m with end;
  ext_target_check t := match t with end }.

(** The INPUT chain jumps to a user chain that returns; the policy accepts. *)
Definition demo_entries : list (ipt_entry Empty_set Empty_set) :=
  [rule 296; rule (- NF_ACCEPT - 1); rule IPT_RETURN].
Definition demo_info : xt_table_info :=
  match translate_table 20 [] 2 demo_entries 444 3 (λ _, 0) (λ _, 148) tt with
  | Some (_, info) => info
  | None => mk_info 0 0 (λ _, 0) (λ _, 0) ∅
  end.

Lemma mark_source_chains_decides_witness :
  let tbl := layout 0 demo_entries in
  ∃ fuel r, (∀ k, mark_source_chains (fuel + k) 2 (λ _, 0) tbl = r) ∧
    ((∃ tbl', r = MSC_ok tbl') ↔ ∀ h, 0 <= h < 5 → valid_hook 2 h → Fin (shapes tbl) 0).
Proof.
  intros tbl. destruct (mark_source_chains_decides 2 (λ _, 0) tbl) as (fuel & r & Hm & Hr & _).
  - intros x e. unfold tbl, demo_entries, rule. cbn [layout next_offset]. rewrite !lookup_insert.
    repeat case_decide; [intros [= <-]; done..|done].
  - intros x [e He]. revert He. unfold tbl, demo_entries, rule. cbn [layout next_offset].
    rewrite !lookup_insert. repeat case_decide; try done; intros _; subst; by split; vm_compute.
  - by exists fuel, r.
Defined.

Lemma accepted_traversal_witness :
  ∃ fuel v tbl' skb' w', ∀ k,
    ipt_do_table (fuel + k) demo_info (mk_skb (replicate 40 0) 0 0 None 0 0 0) 1 None None tt = Some (v, tbl', skb', w') ∧
    table_eval (fuel + k) (strip_info demo_info) (mk_skb (replicate 40 0) 0 0 None 0 0 0) 1 None None tt
      = Some (CR_verdict v, strips tbl', skb', w').
Proof.
  apply (accepted_traversal 20 [] 2 demo_entries 444 3 (λ _, 0) (λ _, 148) tt demo_info _ 1 None None tt
           ((rule (- NF_ACCEPT - 1)) <| comefrom := 2 |>)).
  - repeat constructor.
  - unfold is_u32. lia.
  - intros x e. unfold demo_entries, rule. cbn [layout next_offset]. rewrite !lookup_insert.
    repeat case_decide; try done; by intros _; subst; vm_compute.
  - vm_compute. reflexivity.
  - lia.
  - reflexivity.
  - vm_compute. reflexivity.
  - vm_compute. reflexivity.
Defined.

(** The table of a rule that jumps to [v], with its policy behind it. *)
Definition jump_entries (v : Z) : list (ipt_entry Empty_set Empty_set) := [rule v; rule (- NF_ACCEPT - 1)].

Lemma jump_wild (tbl : gmap Z (ipt_entry Empty_set Empty_set)) v fuel hook e : 0 <= v → v ≠ 0 →
  tbl !! 0 = Some e → is_standard e = Some v → comefrom e = 0 → tbl !! v = None →
  msc_walk (S fuel) hook tbl 0 = MSC_wild.
Proof.
  intros Hv H0 He Hs Hc Hw. cbn [msc_walk]. rewrite He, Hc. cbn [flag Z.land Z.eqb negb].
  unfold is_end. change (is_standard (e <| comefrom := _ |>)) with (is_standard e). rewrite Hs.
  rewrite (proj2 (Z.ltb_ge v 0)), (proj2 (Z.leb_le 0 v)) by done. rewrite andb_false_r. cbn [andb].
  by rewrite lookup_insert_ne, Hw by done.
Qed.

(** The offset of a jump is compared with the size of the table by [standard_check],
    which runs in the last pass; [mark_source_chains] has followed the jump before.  For
    a table whose first rule jumps to any offset that is no entry, the loader reads
    what is there as an entry, instead of answering [-EINVAL]. *)
Lemma jump_followed_before_check fuel name v : 0 <= v → v ≠ 0 → v ≠ 148 →
  mark_source_chains (S fuel) 2 (λ _, 0) (layout 0 (jump_entries v)) = MSC_wild ∧
  translate_table (S fuel) name 2 (jump_entries v) 296 2 (λ _, 0) (λ _, 148) tt = None ∧
  (184 < v → fst (check_entry (rule v : ipt_entry Empty_set Empty_set) name 296 tt) = - EINVAL).
Proof.
  intros Hv H0 H1.
  assert (∀ he tbl, tbl = layout 0 (jump_entries v) → he 1 = 0 →
            mark_source_chains (S fuel) 2 he tbl = MSC_wild) as Hm.
  { intros he tbl -> Hhe. unfold mark_source_chains. cbn [msc_hooks flag Z.shiftl Z.land Z.eqb negb Pos.eqb].
    change (flag 2 (Z.shiftl 1 0)) with false. change (flag 2 (Z.shiftl 1 1)) with true. cbn [negb].
    rewrite Hhe. cbn [jump_entries layout]. rewrite lookup_insert_eq.
    rewrite (jump_wild _ v _ _ ((rule v) <| pcnt := 0 |>)); try done.
    change (0 + next_offset (rule v)) with 148. by rewrite !lookup_insert_ne by done. }
  split_and!.
  - by apply Hm.
  - unfold translate_table. cbn [length jump_entries].
    assert (∃ info, check_sizes 3 0 0 (λ _, 0) (λ _, 148)
              (mk_info 296 2 (λ _, 4294967295) (λ _, 4294967295) (layout 0 (jump_entries v)))
              = Some (0, 2, info) ∧ hooks_assigned 2 info = true ∧
              t_entries info = layout 0 (jump_entries v) ∧ hook_entry info 1 = 0) as (info & -> & Ha & Ht & Hh).
    { eexists. split_and!; vm_compute; reflexivity. }
    cbn [mbind option_bind negb Z.eqb Pos.eqb]. rewrite Ha. cbn [negb]. by rewrite Hm.
  - intros Hlt. unfold check_entry, standard_check. cbn [rule e_ip e_matches e_target check_matches update upd_e_matches fst].
    rewrite (proj2 (Z.leb_le 0 v)) by done.
    change (u32 (296 - sizeof_ipt_entry)) with 184. by rewrite (proj2 (Z.ltb_lt 184 v)).
Qed.

Lemma jump_followed_before_check_witness :
  translate_table 7 [] 2 (jump_entries 1000000) 296 2 (λ _, 0) (λ _, 148) tt = None.
Proof. apply (jump_followed_before_check 6 [] 1000000); lia. Defined.
