(* ===== verification/IptReplace.v ===== *)
(** * Replacing tables: [ip_tables.c] and [x_tables.c]

    User space changes a table by handing over a complete new one
    ([IPT_SO_SET_REPLACE]); it gets the counters of the old one back and adds them to
    the new one ([IPT_SO_SET_ADD_COUNTERS]).  [IpTables] models the checks and the
    traversal; here are the references that tables hold on the modules of their
    extensions, the list of tables, and the operations on them with all their exits.

    The pointer to an extension that the kernel stores in a rule ([u.kernel.match]) is
    what [match_ext] gives for the rule's data.  The extensions of this library have no
    [destroy] function.  [x_signals] says of every coming [down_interruptible] whether a
    signal interrupts it. *)
From S2P Require Import Prelude Packet CtBase IpTables.

Definition EPERM := 1.
Definition ENOENT := 2.
Definition EINTR := 4.
Definition EAGAIN := 11.
Definition ENOMEM := 12.
Definition EFAULT := 14.
Definition EEXIST := 17.
Definition EPROTOTYPE := 91.
Definition ENOPROTOOPT := 92.

(** [struct xt_match] and [struct xt_target], as far as finding and counting goes. *)
Record xt_ext := mk_ext { x_name : list Z; x_revision : Z; x_me : option positive }.

(** Which extension the data of a rule belongs to. *)
Class XtModules (M T : Type) := { match_ext : M → xt_ext; target_ext : T → xt_ext }.

Definition ipt_standard_target : xt_ext := mk_ext [] 0 None.
Definition ipt_error_target : xt_ext := mk_ext [69; 82; 82; 79; 82] 0 None.

Section Replace.
Context {M T W : Type} `{IptExt M T W} `{XtModules M T}.
Abbreviation entry := (ipt_entry M T).
Abbreviation blob := (gmap Z entry).
Abbreviation info := (xt_table_info (M:=M) (T:=T)).

(** ** State *)

(** [initial_entries] is the field of [struct xt_table_info] that the traversal does
    not need. *)
Record xt_private := mk_private { p_info : info; initial_entries : Z }.

Record xt_table := mk_table {
  tb_name : list Z; tb_hooks : Z; tb_me : option positive; private : xt_private }.

(** The reference counts of modules and the list [xt[AF_INET].tables]. *)
Record xt_state := mk_xt {
  x_refs : positive → Z; x_signals : list bool; x_tables : list xt_table }.

(** The registered extensions, the modules that are not being removed, the size of
    the memory in pages. *)
Record xt_env := mk_xtenv {
  reg_matches : list xt_ext; reg_targets : list xt_ext; module_live : positive → bool;
  num_physpages : Z }.

Definition ref_add (m : positive) (n : Z) (s : xt_state) : xt_state :=
  mk_xt (λ q, x_refs s q + if bool_decide (q = m) then n else 0) (x_signals s) (x_tables s).

Definition try_module_get (env : xt_env) (me : option positive) (s : xt_state) : bool * xt_state :=
  match me with
  | None => (true, s)
  | Some m => if module_live env m then (true, ref_add m 1 s) else (false, s)
  end.

Definition module_put (me : option positive) (s : xt_state) : xt_state :=
  match me with None => s | Some m => ref_add m (-1) s end.

(** Whether a signal came, for [down_interruptible]. *)
Definition down_interruptible (s : xt_state) : bool * xt_state :=
  (hd false (x_signals s), mk_xt (x_refs s) (tl (x_signals s)) (x_tables s)).

(** ** Finding extensions and tables *)

(** A pointer or [ERR_PTR(err)]; [NULL] is [ERR_PTR(0)]. *)
Inductive found (A : Type) := F_ok (a : A) | F_err (err : Z).
#[global] Arguments F_ok {A} a.
#[global] Arguments F_err {A} err.

Fixpoint find_loop (env : xt_env) (l : list xt_ext) (name : list Z) (revision err : Z) (s : xt_state)
    : found xt_ext * xt_state :=
  match l with
  | [] => (F_err err, s)
  | m :: l =>
      if bool_decide (x_name m = name) then
        if x_revision m =? revision then
          let (ok, s) := try_module_get env (x_me m) s in
          if ok : bool then (F_ok m, s) else find_loop env l name revision err s
        else find_loop env l name revision (- EPROTOTYPE) s
      else find_loop env l name revision err s
  end.

(** [xt_find_match] and [xt_find_target], on the list of each. *)
Definition xt_find (env : xt_env) (l : list xt_ext) (name : list Z) (revision : Z) (s : xt_state)
    : found xt_ext * xt_state :=
  let (intr, s) := down_interruptible s in
  if intr : bool then (F_err (- EINTR), s) else find_loop env l name revision 0 s.

(** Without [CONFIG_KMOD] [request_module] does nothing, and the search is repeated. *)
Definition try_then_request_module {A} (f : xt_state → found A * xt_state) (s : xt_state)
    : found A * xt_state :=
  let (r, s) := f s in
  match r with
  | F_ok _ => (r, s)
  | F_err err => if err =? 0 then f s else (r, s)
  end.

Definition not_found (err : Z) : Z := if err =? 0 then - ENOENT else err.

(** The index of the table found, with a reference on its module. *)
Fixpoint find_table_loop (env : xt_env) (l : list xt_table) (name : list Z) (i : nat) (s : xt_state)
    : found nat * xt_state :=
  match l with
  | [] => (F_err 0, s)
  | t :: l =>
      if bool_decide (tb_name t = name) then
        let (ok, s) := try_module_get env (tb_me t) s in
        if ok : bool then (F_ok i, s) else find_table_loop env l name (S i) s
      else find_table_loop env l name (S i) s
  end.

Definition xt_find_table_lock (env : xt_env) (name : list Z) (s : xt_state) : found nat * xt_state :=
  let (intr, s) := down_interruptible s in
  if intr : bool then (F_err (- EINTR), s) else find_table_loop env (x_tables s) name 0 s.

(** ** Checking entries, with their references *)

Definition cleanup_match (m : M) (s : xt_state) : xt_state := module_put (x_me (match_ext m)) s.

(** [IPT_MATCH_ITERATE(e, check_match, ..., &j)]: the return value, [j], the matches. *)
Fixpoint check_match_iterate (env : xt_env) (ms : list M) (name : list Z) (ip : ipt_ip) (hookmask : Z)
    (w : W) (s : xt_state) : Z * nat * list M * xt_state :=
  match ms with
  | [] => (0, 0%nat, [], s)
  | m :: ms =>
      let x := match_ext m in
      let (r, s) := try_then_request_module (xt_find env (reg_matches env) (x_name x) (x_revision x)) s in
      match r with
      | F_err err => (not_found err, 0%nat, m :: ms, s)
      | F_ok x =>
          let (ok, m) := ext_match_check m name ip hookmask w in
          if negb ok then (- EINVAL, 0%nat, m :: ms, module_put (x_me x) s)
          else
            let '(ret, j, ms, s) := check_match_iterate env ms name ip hookmask w s in
            (ret, S j, m :: ms, s)
      end
  end.

Definition entry_target (e : entry) : xt_ext :=
  match e_target e with
  | T_standard _ _ => ipt_standard_target
  | T_error => ipt_error_target
  | T_ext t => target_ext t
  end.

Definition check_entry_refs (env : xt_env) (e : entry) (name : list Z) (size : Z) (w : W) (s : xt_state)
    : Z * entry * xt_state :=
  if negb (ip_checkentry (e_ip e)) then (- EINVAL, e, s)
  else
    let '(ret, j, ms, s) := check_match_iterate env (e_matches e) name (e_ip e) (comefrom e) w s in
    let e := e <| e_matches := ms |> in
    let cleanup_matches s := foldl (λ s m, cleanup_match m s) s (take j ms) in
    if negb (ret =? 0) then (ret, e, cleanup_matches s)
    else
      let x := entry_target e in
      let (r, s) := try_then_request_module (xt_find env (reg_targets env) (x_name x) (x_revision x)) s in
      match r with
      | F_err err => (not_found err, e, cleanup_matches s)
      | F_ok x =>
          match e_target e with
          | T_standard target_size verdict =>
              if standard_check target_size verdict size then (0, e, s)
              else (- EINVAL, e, cleanup_matches s)
          | T_error => (0, e, s)
          | T_ext t =>
              let (ok, t) := ext_target_check t name (e_ip e) (e_matches e) (comefrom e) w in
              let e := e <| e_target := T_ext t |> in
              if ok : bool then (0, e, s) else (- EINVAL, e, cleanup_matches (module_put (x_me x) s))
          end
      end.

Definition cleanup_entry (e : entry) (s : xt_state) : xt_state :=
  module_put (x_me (entry_target e)) (foldl (λ s m, cleanup_match m s) s (e_matches e)).

(** ** Walking along the entries *)

(** [IPT_ENTRY_ITERATE]: the offsets and entries it passes. *)
Fixpoint iterate (fuel : nat) (tbl : blob) (i size : Z) : option (list (Z * entry)) :=
  if size <=? i then Some []
  else match fuel with
  | O => None
  | S fuel => e ← tbl !! i; l ← iterate fuel tbl (i + next_offset e) size; Some ((i, e) :: l)
  end.

Definition table_entries (t : info) : option (list (Z * entry)) :=
  iterate (size (t_entries t)) (t_entries t) 0 (t_size t).

Definition cleanup_entries (l : list (Z * entry)) (s : xt_state) : xt_state :=
  foldl (λ s ie, cleanup_entry ie.2 s) s l.

(** The last [IPT_ENTRY_ITERATE] of [translate_table]: the return value, [i], the table. *)
Fixpoint check_entries_refs (env : xt_env) (fuel : nat) (pos : Z) (name : list Z) (newinfo : info) (w : W)
    (s : xt_state) : option (Z * nat * info * xt_state) :=
  if t_size newinfo <=? pos then Some (0, 0%nat, newinfo, s)
  else match fuel with
  | O => None
  | S fuel =>
      e ← t_entries newinfo !! pos;
      let '(ret, e, s) := check_entry_refs env e name (t_size newinfo) w s in
      let newinfo := set_entries (<[pos := e]> (t_entries newinfo)) newinfo in
      if negb (ret =? 0) then Some (ret, 0%nat, newinfo, s)
      else
        '(ret, i, newinfo, s) ← check_entries_refs env fuel (pos + next_offset e) name newinfo w s;
        Some (ret, S i, newinfo, s)
  end.

Definition translate_table_refs (env : xt_env) (fuel : nat) (name : list Z) (valid_hooks : Z)
    (entries : list entry) (size number : Z) (hook_entries underflows : Z → Z) (w : W) (s : xt_state)
    : option (Z * info * xt_state) :=
  let newinfo := mk_info size number (λ _, 4294967295) (λ _, 4294967295) (layout 0 entries) in
  '(ret, i, newinfo) ← check_sizes (S (length entries)) 0 0 hook_entries underflows newinfo;
  if negb (ret =? 0) then Some (ret, newinfo, s)
  else if negb (i =? number) then Some (- EINVAL, newinfo, s)
  else if negb (hooks_assigned valid_hooks newinfo) then Some (- EINVAL, newinfo, s)
  else match mark_source_chains fuel valid_hooks (hook_entry newinfo) (t_entries newinfo) with
  | MSC_loop => Some (- ELOOP, newinfo, s)
  | MSC_wild | MSC_fuel => None
  | MSC_ok tbl =>
      '(ret, i, newinfo, s) ← check_entries_refs env (S (length entries)) 0 name (set_entries tbl newinfo) w s;
      if negb (ret =? 0) then
        l ← table_entries newinfo;
        Some (ret, newinfo, cleanup_entries (take i l) s)
      else Some (ret, newinfo, s)
  end.

(** ** Counters *)
Definition xt_counters : Type := Z * Z.

(** [set_entry_to_counter] for all entries, of the one CPU; [None] when the array of
    [num] counters is too short. *)
Definition get_counters (t : info) (num : Z) : option (list xt_counters) :=
  l ← table_entries t;
  if num <? Z.of_nat (length l) then None else Some ((λ ie, (bcnt ie.2, pcnt ie.2)) <$> l).

(** [add_counter_to_entry] for all entries. *)
Fixpoint add_counters (l : list (Z * entry)) (paddc : list xt_counters) (tbl : blob) : option blob :=
  match l, paddc with
  | [], _ => Some tbl
  | _, [] => None
  | (i, e) :: l, (b, p) :: paddc =>
      add_counters l paddc (<[i := e <| bcnt := u64 (bcnt e + b) |> <| pcnt := u64 (pcnt e + p) |>]> tbl)
  end.

(** ** The operations of [x_tables.c] *)

Definition set_table (i : nat) (t : xt_table) (s : xt_state) : xt_state :=
  mk_xt (x_refs s) (x_signals s) (<[i := t]> (x_tables s)).

(** The error, or the old table and the new [table]. *)
Definition xt_replace_table (table : xt_table) (num_counters : Z) (newinfo : info)
    : Z + xt_private * xt_table :=
  let oldinfo := private table in
  if negb (num_counters =? t_number (p_info oldinfo)) then inl (- EAGAIN)
  else inr (oldinfo, mk_table (tb_name table) (tb_hooks table) (tb_me table)
                       (mk_private newinfo (initial_entries oldinfo))).

Definition bootstrap : xt_private := mk_private (mk_info 0 0 (λ _, 0) (λ _, 0) ∅) 0.

Definition xt_register_table (table : xt_table) (newinfo : info) (s : xt_state) : Z * xt_state :=
  let (intr, s) := down_interruptible s in
  if intr : bool then (- EINTR, s)
  else if existsb (λ t, bool_decide (tb_name t = tb_name table)) (x_tables s) then (- EEXIST, s)
  else
    match xt_replace_table (mk_table (tb_name table) (tb_hooks table) (tb_me table) bootstrap) 0 newinfo with
    | inl ret => (ret, s)
    | inr (_, table) =>
        let private := mk_private newinfo (t_number newinfo) in
        (0, mk_xt (x_refs s) (x_signals s)
              (mk_table (tb_name table) (tb_hooks table) (tb_me table) private :: x_tables s))
    end.

(** ** System calls *)

(** [struct ipt_replace] with the entries behind it. *)
Record ipt_replace := mk_replace {
  rp_name : list Z; rp_valid_hooks : Z; rp_num_entries : Z; rp_size : Z;
  rp_hook_entry : Z → Z; rp_underflow : Z → Z; rp_num_counters : Z; rp_entries : list entry }.

(** Whether copying from and to user space succeeds, and whether there is memory for the
    table and the counters. *)
Record syscall := mk_syscall {
  copy_head : bool; copy_body : bool; copy_back : bool; mem_table : bool; mem_counters : bool }.

Definition sizeof_ipt_replace := 92.
Definition sizeof_xt_table_info := 56.
Definition sizeof_xt_counters := 16.
Definition sizeof_xt_counters_info := 36.
Definition SMP_CACHE_BYTES := 32.
Definition INT_MAX := 2147483647.
Definition PAGE_SHIFT := 12.

Definition SMP_ALIGN (x : Z) : Z := Z.land (u32 (x + SMP_CACHE_BYTES - 1)) (4294967296 - SMP_CACHE_BYTES).

Definition xt_alloc_table_info (env : xt_env) (sc : syscall) (size : Z) : bool :=
  if num_physpages env <? Z.shiftr (SMP_ALIGN size) PAGE_SHIFT + 2 then false else mem_table sc.

Definition PAGE_ALIGN (x : Z) : Z := Z.land (u32 (x + 4095)) (4294967296 - 4096).

(** [vmalloc]: no memory of size 0. *)
Definition vmalloc (env : xt_env) (ok : bool) (size : Z) : bool :=
  let size := PAGE_ALIGN size in
  if (size =? 0) || (num_physpages env <? Z.shiftr size PAGE_SHIFT) then false else ok.

(** The return value and the counters that were copied to user space. *)
Definition do_replace (env : xt_env) (sc : syscall) (fuel : nat) (tmp : ipt_replace) (len : Z) (w : W)
    (s : xt_state) : option (Z * option (list xt_counters) * xt_state) :=
  if negb (copy_head sc) then Some (- EFAULT, None, s)
  else if negb (len =? u32 (sizeof_ipt_replace + rp_size tmp)) then Some (- ENOPROTOOPT, None, s)
  else if INT_MAX - sizeof_xt_table_info - SMP_CACHE_BYTES <=? rp_size tmp then Some (- ENOMEM, None, s)
  else if INT_MAX / sizeof_xt_counters <=? rp_num_counters tmp then Some (- ENOMEM, None, s)
  else if negb (xt_alloc_table_info env sc (rp_size tmp)) then Some (- ENOMEM, None, s)
  else if negb (copy_body sc) then Some (- EFAULT, None, s)
  else if negb (vmalloc env (mem_counters sc) (rp_num_counters tmp * sizeof_xt_counters))
  then Some (- ENOMEM, None, s)
  else
    '(ret, newinfo, s) ← translate_table_refs env fuel (rp_name tmp) (rp_valid_hooks tmp) (rp_entries tmp)
                           (rp_size tmp) (rp_num_entries tmp) (rp_hook_entry tmp) (rp_underflow tmp) w s;
    if negb (ret =? 0) then Some (ret, None, s)
    else
      new ← table_entries newinfo;
      let (r, s) := try_then_request_module (xt_find_table_lock env (rp_name tmp)) s in
      match r with
      | F_err err => Some (not_found err, None, cleanup_entries new s)
      | F_ok i =>
          t ← x_tables s !! i;
          if negb (rp_valid_hooks tmp =? tb_hooks t)
          then Some (- EINVAL, None, cleanup_entries new (module_put (tb_me t) s))
          else
            match xt_replace_table t (rp_num_counters tmp) newinfo with
            | inl ret => Some (ret, None, cleanup_entries new (module_put (tb_me t) s))
            | inr (oldinfo, t) =>
                let s := set_table i t s in
                let many (n : Z) := initial_entries oldinfo <? n in
                let oldnum := t_number (p_info oldinfo) in
                let newnum := t_number newinfo in
                let s := if many oldnum || negb (many newnum) then module_put (tb_me t) s else s in
                let s := if many oldnum && negb (many newnum) then module_put (tb_me t) s else s in
                counters ← get_counters (p_info oldinfo) (rp_num_counters tmp);
                old ← table_entries (p_info oldinfo);
                let s := cleanup_entries old s in
                if copy_back sc then Some (ret, Some counters, s) else Some (- EFAULT, None, s)
            end
      end.

(** [struct xt_counters_info]: the name and the counters. *)
Definition do_add_counters (env : xt_env) (sc : syscall) (name : list Z) (num_counters : Z)
    (paddc : list xt_counters) (len : Z) (s : xt_state) : option (Z * xt_state) :=
  if negb (copy_head sc) then Some (- EFAULT, s)
  else if negb (len =? u32 (sizeof_xt_counters_info + u32 (num_counters * sizeof_xt_counters)))
  then Some (- EINVAL, s)
  else if negb (vmalloc env (mem_counters sc) len) then Some (- ENOMEM, s)
  else if negb (copy_body sc) then Some (- EFAULT, s)
  else
    let (r, s) := xt_find_table_lock env name s in
    match r with
    | F_err err => Some (not_found err, s)
    | F_ok i =>
        t ← x_tables s !! i;
        let info := p_info (private t) in
        if negb (t_number info =? num_counters) then Some (- EINVAL, module_put (tb_me t) s)
        else
          l ← table_entries info;
          tbl ← add_counters l paddc (t_entries info);
          let t := mk_table (tb_name t) (tb_hooks t) (tb_me t)
                     (mk_private (set_entries tbl info) (initial_entries (private t))) in
          Some (0, module_put (tb_me t) (set_table i t s))
    end.

(** [IPT_SO_GET_INFO] after the copy of the name: valid hooks, entry points, number and
    size. *)
Definition get_info (env : xt_env) (sc : syscall) (name : list Z) (s : xt_state)
    : option (Z * option (Z * (Z → Z) * (Z → Z) * Z * Z) * xt_state) :=
  let (r, s) := try_then_request_module (xt_find_table_lock env name) s in
  match r with
  | F_err err => Some (not_found err, None, s)
  | F_ok i =>
      t ← x_tables s !! i;
      let info := p_info (private t) in
      let s := module_put (tb_me t) s in
      if copy_back sc
      then Some (0, Some (tb_hooks t, hook_entry info, underflow info, t_number info, t_size info), s)
      else Some (- EFAULT, None, s)
  end.

(** [copy_entries_to_user]: the entries with a snapshot of the counters. *)
Definition copy_entries_to_user (env : xt_env) (sc : syscall) (info : info)
    : option (Z * option (list (Z * entry))) :=
  if negb (vmalloc env (mem_counters sc) (u32 (sizeof_xt_counters * t_number info)))
  then Some (- ENOMEM, None)
  else
    counters ← get_counters info (t_number info);
    l ← table_entries info;
    if negb (copy_back sc) then Some (- EFAULT, None)
    else Some (0, Some (zip_with (λ (ie : Z * entry) c, (ie.1, ie.2 <| bcnt := c.1 |> <| pcnt := c.2 |>))
                          l counters)).

Definition get_entries (env : xt_env) (sc : syscall) (name : list Z) (size : Z) (s : xt_state)
    : option (Z * option (list (Z * entry)) * xt_state) :=
  let (r, s) := xt_find_table_lock env name s in
  match r with
  | F_err err => Some (not_found err, None, s)
  | F_ok i =>
      t ← x_tables s !! i;
      let info := p_info (private t) in
      '(ret, l) ← (if size =? t_size info then copy_entries_to_user env sc info
                   else Some (- EINVAL, None));
      Some (ret, l, module_put (tb_me t) s)
  end.

(** ** Registration *)
Definition ipt_register_table (env : xt_env) (sc : syscall) (fuel : nat) (table : xt_table)
    (repl : ipt_replace) (w : W) (s : xt_state) : option (Z * xt_state) :=
  if negb (xt_alloc_table_info env sc (rp_size repl)) then Some (- ENOMEM, s)
  else
    '(ret, newinfo, s) ← translate_table_refs env fuel (tb_name table) (tb_hooks table) (rp_entries repl)
                           (rp_size repl) (rp_num_entries repl) (rp_hook_entry repl) (rp_underflow repl) w s;
    if negb (ret =? 0) then Some (ret, s)
    else
      let (r, s) := xt_register_table table newinfo s in
      Some (if negb (r =? 0) then ret else 0, s).

(** The table at [i] of the list. *)
Definition ipt_unregister_table (i : nat) (s : xt_state) : option xt_state :=
  t ← x_tables s !! i;
  l ← table_entries (p_info (private t));
  Some (cleanup_entries l (mk_xt (x_refs s) (x_signals s) (delete i (x_tables s)))).

(** ** Packets *)

(** A packet runs through the table at [i]. *)
Definition table_packet (fuel : nat) (i : nat) (skb : sk_buff) (hook : Z) (inp out : option net_device)
    (w : W) (s : xt_state) : option (Z * sk_buff * W * xt_state) :=
  t ← x_tables s !! i;
  let info := p_info (private t) in
  '(v, tbl, skb, w) ← ipt_do_table fuel info skb hook inp out w;
  Some (v, skb, w, set_table i (mk_table (tb_name t) (tb_hooks t) (tb_me t)
                      (mk_private (set_entries tbl info) (initial_entries (private t)))) s).
End Replace.
