(* ===== verification/IptReplaceFacts.v ===== *)
(** * Replacing tables: references and walks

    What every step of [IptReplace] does to the reference counts, and that the entries a
    walk passes are kept by everything that works on a table. *)
From S2P Require Import Prelude Packet CtBase IpTables IpTablesFacts IptReplace.
From stdpp Require Import fin_maps.
#[local] Open Scope Z_scope.

(** The operations of an extension leave its identity alone. *)
Class XtLaws (M T W : Type) `{IptExt M T W} `{XtModules M T} : Prop := {
  match_check_ext : ∀ m name ip hookmask w,
    match_ext (ext_match_check m name ip hookmask w).2 = match_ext m;
  match_run_ext : ∀ m skb inp out offset protoff w,
    match_ext (ext_match m skb inp out offset protoff w).1.2 = match_ext m;
  target_check_ext : ∀ t name ip ms hookmask w,
    target_ext (ext_target_check t name ip ms hookmask w).2 = target_ext t;
  target_run_ext : ∀ t skb inp out hook w,
    target_ext (ext_target t skb inp out hook w).1.2 = target_ext t }.

Section Facts.
Context {M T W : Type} `{HX : IptExt M T W} `{HM : XtModules M T} `{HL : !XtLaws M T W}.
Abbreviation entry := (ipt_entry M T).
Abbreviation blob := (gmap Z entry).
Abbreviation info := (xt_table_info (M:=M) (T:=T)).

(** ** Changes of the reference counts *)

(** From [s] to [s'] the counts grow by [f], and the tables stay. *)
Definition refs_by (f : positive → Z) (s s' : xt_state (M:=M) (T:=T)) : Prop :=
  x_tables s' = x_tables s ∧ ∀ q, x_refs s' q = x_refs s q + f q.

Lemma refs_by_zero s : refs_by (λ _, 0) s s.
Proof. split; [done|]. intros q. lia. Qed.

Lemma refs_by_trans f g h s s' s'' : refs_by f s s' → refs_by g s' s'' → (∀ q, f q + g q = h q) → refs_by h s s''.
Proof. intros [H1 H2] [H3 H4] Hh. split; [by rewrite H3|]. intros q. rewrite H4, H2, <- Hh. lia. Qed.

Lemma refs_by_ext f g s s' : refs_by f s s' → (∀ q, f q = g q) → refs_by g s s'.
Proof. intros [H1 H2] Hh. split; [done|]. intros q. by rewrite H2, Hh. Qed.

Lemma ref_add_by m n s : refs_by (λ q, n * one (Some m) q) s (ref_add m n s).
Proof.
  split; [done|]. intros q. cbn [ref_add x_refs]. unfold one.
  destruct (decide (q = m)) as [->|Hne]; [rewrite !bool_decide_true by done; lia|].
  rewrite !bool_decide_false by congruence. lia.
Qed.

Lemma try_module_get_by env me s ok s' : try_module_get env me s = (ok, s') →
  refs_by (if ok then one me else λ _, 0) s s'.
Proof.
  unfold try_module_get. destruct me as [m|]; [destruct (module_live env m)|]; intros [= <- <-].
  - eapply refs_by_ext; [apply ref_add_by|]. intros q. cbv beta iota. lia.
  - apply refs_by_zero.
  - eapply refs_by_ext; [apply refs_by_zero|]. done.
Qed.

Lemma module_put_by me s : refs_by (λ q, - one me q) s (module_put me s).
Proof.
  destruct me as [m|]; cbn [module_put].
  - eapply refs_by_ext; [apply ref_add_by|]. intros q. cbv beta. lia.
  - eapply refs_by_ext; [apply refs_by_zero|]. done.
Qed.

Lemma down_by s intr s' : down_interruptible s = (intr, s') → refs_by (λ _, 0) s s'.
Proof. intros [= <- <-]. split; [done|]. intros q. cbn. lia. Qed.

(** ** Searches *)

(** A search that finds leaves one reference, one that fails leaves none. *)
Definition search_by {A} (me : A → option positive) (P : A → Prop) (s : xt_state) (r : found A * xt_state) : Prop :=
  match r with
  | (F_ok a, s') => P a ∧ refs_by (one (me a)) s s'
  | (F_err err, s') => err <= 0 ∧ refs_by (λ _, 0) s s'
  end.

Lemma search_by_trans {A} (me : A → option positive) (P : A → Prop) s s1 r :
  refs_by (λ _, 0) s s1 → search_by me P s1 r → search_by me P s r.
Proof.
  intros H1. destruct r as [[a|err] s2]; cbn [search_by]; intros [H2 H3]; (split; [done|]);
    (eapply refs_by_trans; [done..|]; intros q; cbv beta; lia).
Qed.

Lemma find_loop_by env name revision l : ∀ err s, err <= 0 →
  search_by x_me (λ x, x ∈ l ∧ x_name x = name ∧ x_revision x = revision) s (find_loop env l name revision err s).
Proof.
  induction l as [|m l IH]; intros err s Herr; cbn [find_loop]; [split; [done|apply refs_by_zero]|].
  assert (∀ err s', err <= 0 → refs_by (λ _, 0) s s' → search_by x_me
    (λ x, x ∈ m :: l ∧ x_name x = name ∧ x_revision x = revision) s (find_loop env l name revision err s')) as Hnext.
  { intros err' s' He Hs. eapply search_by_trans; [exact Hs|]. specialize (IH err' s' He).
    destruct (find_loop _ _ _ _ _ _) as [[x|e] s2]; cbn [search_by] in *; [|done].
    destruct IH as [[Hin Hx] Hr]. split; [|done]. split; [by apply list_elem_of_further|done]. }
  case_bool_decide as Hn; [|by apply Hnext; [|apply refs_by_zero]].
  destruct (Z.eqb_spec (x_revision m) revision) as [Hr|]; [|apply Hnext; [unfold EPROTOTYPE; lia|apply refs_by_zero]].
  destruct (try_module_get env (x_me m) s) as [[|] s'] eqn:Eg; apply try_module_get_by in Eg.
  - split; [|done]. split; [by apply list_elem_of_here|done].
  - by apply Hnext.
Qed.

Lemma xt_find_by env l name revision s :
  search_by x_me (λ x, x ∈ l ∧ x_name x = name ∧ x_revision x = revision) s (xt_find env l name revision s).
Proof.
  unfold xt_find. destruct (down_interruptible s) as [intr s1] eqn:Ed. apply down_by in Ed.
  destruct intr; [split; [unfold EINTR; lia|done]|]. eapply search_by_trans; [done|]. by apply find_loop_by.
Qed.

Lemma try_then_by {A} (me : A → option positive) (P : A → Prop) f s :
  (∀ s1, x_tables s1 = x_tables s → search_by me P s1 (f s1)) → search_by me P s (try_then_request_module f s).
Proof.
  intros Hf. unfold try_then_request_module. pose proof (Hf s eq_refl) as H1. destruct (f s) as [[a|err] s1]; [done|].
  destruct (err =? 0); [|done]. destruct H1 as [_ H1]. eapply search_by_trans; [done|]. apply Hf, H1.
Qed.

Lemma find_table_loop_by env name tbls l : ∀ i s, l = drop i tbls →
  search_by (λ i, t ← tbls !! i; tb_me t) (λ i, ∃ t, tbls !! i = Some t ∧ tb_name t = name) s
    (find_table_loop env l name i s).
Proof.
  induction l as [|t l IH]; intros i s El; cbn [find_table_loop]; [split; [done|apply refs_by_zero]|].
  assert (tbls !! i = Some t) as Ht by (rewrite <- (Nat.add_0_r i), <- lookup_drop, <- El; done).
  assert (l = drop (S i) tbls) as El' by (by rewrite <- Nat.add_1_r, <- drop_drop, <- El).
  case_bool_decide as Hn; [|by apply IH].
  destruct (try_module_get env (tb_me t) s) as [[|] s'] eqn:Eg; apply try_module_get_by in Eg.
  - split; [by exists t|]. rewrite Ht. exact Eg.
  - eapply search_by_trans; [exact Eg|]. by apply IH.
Qed.

Lemma find_table_by env name tbls s : x_tables s = tbls →
  search_by (λ i, t ← tbls !! i; tb_me t) (λ i, ∃ t, tbls !! i = Some t ∧ tb_name t = name) s
    (xt_find_table_lock env name s).
Proof.
  intros <-. unfold xt_find_table_lock. destruct (down_interruptible s) as [intr s1] eqn:Ed.
  apply down_by in Ed. pose proof (proj1 Ed) as Et. destruct intr; [split; [unfold EINTR; lia|done]|].
  eapply search_by_trans; [done|]. rewrite Et. by apply find_table_loop_by.
Qed.

Lemma not_found_neg err : err <= 0 → not_found err < 0.
Proof. intros He. unfold not_found, ENOENT. destruct (Z.eqb_spec err 0); lia. Qed.

(** ** The shape of entries *)

(** How far to the next entry, and which extensions are in use. *)
Definition ext_shape (e : entry) : Z * list xt_ext * xt_ext :=
  (next_offset e, match_ext <$> e_matches e, entry_target e).
Definition exts (tbl : blob) : gmap Z (Z * list xt_ext * xt_ext) := ext_shape <$> tbl.

Definition shape_uses (sh : Z * list xt_ext * xt_ext) (q : positive) : Z :=
  sum_refs (λ x, one (x_me x)) sh.1.2 q + one (x_me sh.2) q.
Definition entry_uses (ie : Z * entry) (q : positive) : Z := shape_uses (ext_shape ie.2) q.

Lemma exts_insert (tbl : blob) x e e' : tbl !! x = Some e → ext_shape e' = ext_shape e →
  exts (<[x := e']> tbl) = exts tbl.
Proof.
  intros Hx Hs. unfold exts. rewrite fmap_insert, Hs. apply insert_id. by rewrite lookup_fmap, Hx.
Qed.

Lemma exts_lookup (tbl tbl' : blob) x e : exts tbl' = exts tbl → tbl !! x = Some e →
  ∃ e', tbl' !! x = Some e' ∧ ext_shape e' = ext_shape e.
Proof.
  intros He Hx. assert (exts tbl' !! x = Some (ext_shape e)) as H1 by (by rewrite He; unfold exts; rewrite lookup_fmap, Hx).
  unfold exts in H1. rewrite lookup_fmap in H1. destruct (tbl' !! x) as [e'|]; [|done]. exists e'. split; [done|]. by apply (inj Some) in H1.
Qed.

(** The walk along a table of the same shape passes entries of the same shape. *)
Lemma iterate_exts fuel : ∀ (tbl tbl' : blob) i size l, exts tbl' = exts tbl →
  iterate fuel tbl i size = Some l →
  ∃ l', iterate fuel tbl' i size = Some l' ∧ (λ ie, (ie.1, ext_shape ie.2)) <$> l' = (λ ie, (ie.1, ext_shape ie.2)) <$> l.
Proof.
  induction fuel as [|fuel IH]; intros tbl tbl' i size l He; cbn [iterate]; (destruct (size <=? i); [intros [= <-]; by exists []|]); [done|].
  intros (e & Hx & (k & Ek & [= <-])%bind_Some)%bind_Some. destruct (exts_lookup tbl tbl' i e He Hx) as (e' & Hx' & Hs).
  rewrite Hx'. cbn [mbind option_bind]. assert (next_offset e' = next_offset e) as -> by (unfold ext_shape in Hs; congruence).
  destruct (IH tbl tbl' _ _ _ He Ek) as (k' & -> & Hk). cbn [mbind option_bind]. eexists. split; [done|].
  rewrite !fmap_cons, Hk. cbn [fst snd]. by rewrite Hs.
Qed.

Lemma uses_shapes l l' q : (λ ie : Z * entry, (ie.1, ext_shape ie.2)) <$> l' = (λ ie, (ie.1, ext_shape ie.2)) <$> l →
  sum_refs entry_uses l' q = sum_refs entry_uses l q.
Proof.
  intros Hl. unfold entry_uses. rewrite <- (sum_refs_fmap (λ ie : Z * entry, (ie.1, ext_shape ie.2)) (λ sh, shape_uses sh.2)).
  by rewrite Hl, sum_refs_fmap.
Qed.

Lemma iterate_more fuel : ∀ (tbl : blob) i size l k, iterate fuel tbl i size = Some l → (length l <= k)%nat →
  iterate k tbl i size = Some l.
Proof.
  induction fuel as [|fuel IH]; intros tbl i size l k; cbn [iterate].
  { destruct (size <=? i) eqn:E; [|done]. intros [= <-] _. destruct k; cbn [iterate]; by rewrite E. }
  destruct (size <=? i) eqn:E; [intros [= <-] _; destruct k; cbn [iterate]; by rewrite E|].
  intros (e & Hx & (k0 & Ek & [= <-])%bind_Some)%bind_Some Hk. destruct k as [|k]; [cbn [length] in Hk; lia|].
  cbn [iterate]. rewrite E, Hx. cbn [mbind option_bind length] in *. rewrite (IH _ _ _ _ k Ek ltac:(lia)). done.
Qed.

(** Entries that are long enough are passed once each. *)
Lemma iterate_offsets fuel : ∀ (tbl : blob) i size l, iterate fuel tbl i size = Some l →
  (∀ x e, (x, e) ∈ l → 0 < next_offset e) →
  (∀ x e, (x, e) ∈ l → i <= x ∧ tbl !! x = Some e) ∧ NoDup l.*1.
Proof.
  induction fuel as [|fuel IH]; intros tbl i size l; cbn [iterate];
    (destruct (size <=? i); [intros [= <-] _; split; [by intros x e ?%elem_of_nil|constructor]|]); [done|].
  intros (e & Hx & (k & Ek & [= <-])%bind_Some)%bind_Some Hp.
  assert (0 < next_offset e) as Hpe by (apply (Hp i e); by apply list_elem_of_here).
  destruct (IH _ _ _ _ Ek) as [Hin Hnd]; [intros x e0 Hin; apply (Hp x e0); by apply list_elem_of_further|].
  split.
  - intros x e0 [[= -> ->]|Hk]%elem_of_cons; [split; [lia|done]|]. destruct (Hin x e0 Hk). split; [lia|done].
  - cbn [fmap list_fmap]. apply NoDup_cons. split; [|done]. intros ([x e0] & Hxe & Hk)%list_elem_of_fmap. cbn [fst] in Hxe.
    destruct (Hin x e0 Hk). lia.
Qed.

Lemma iterate_size fuel (tbl : blob) i sz l : iterate fuel tbl i sz = Some l →
  (∀ x e, (x, e) ∈ l → 0 < next_offset e) → iterate (size tbl) tbl i sz = Some l.
Proof.
  intros E Hp. apply (iterate_more fuel); [done|]. destruct (iterate_offsets _ _ _ _ _ E Hp) as [Hin Hnd].
  rewrite <- (length_fmap fst), <- (size_list_to_set (C := gset Z) (fst <$> l)) by done.
  rewrite <- (size_dom (D := gset Z) tbl). apply subseteq_size. intros x.
  rewrite elem_of_list_to_set, elem_of_dom. intros ([y e] & -> & Hy)%list_elem_of_fmap. destruct (Hin y e Hy). by exists e.
Qed.

(** ** Checking entries *)

(** An extension is registered once. *)
Record registered_once (env : xt_env) : Prop := {
  once_match : ∀ x (m : M), x ∈ reg_matches env → x_name x = x_name (match_ext m) →
    x_revision x = x_revision (match_ext m) → x = match_ext m;
  once_target : ∀ x (e : entry), x ∈ reg_targets env → x_name x = x_name (entry_target e) →
    x_revision x = x_revision (entry_target e) → x = entry_target e }.

Abbreviation match_uses := (sum_refs (λ m : M, one (x_me (match_ext m)))).

Lemma cleanup_matches_by ms : ∀ s, refs_by (λ q, - match_uses ms q) s (foldl (λ s m, cleanup_match m s) s ms).
Proof.
  induction ms as [|m ms IH]; intros s; cbn [foldl sum_refs]; [apply refs_by_zero|].
  eapply refs_by_trans; [apply module_put_by|apply IH|]. intros q. cbv beta. lia.
Qed.

Lemma cleanup_entry_by ie s : refs_by (λ q, - entry_uses ie q) s (cleanup_entry ie.2 s).
Proof.
  unfold cleanup_entry. eapply refs_by_trans; [apply cleanup_matches_by|apply module_put_by|].
  intros q. unfold entry_uses, shape_uses, ext_shape. cbn [fst snd]. rewrite sum_refs_fmap. lia.
Qed.

Lemma cleanup_entries_by l : ∀ s, refs_by (λ q, - sum_refs entry_uses l q) s (cleanup_entries l s).
Proof.
  unfold cleanup_entries. induction l as [|ie l IH]; intros s; cbn [foldl sum_refs]; [apply refs_by_zero|].
  eapply refs_by_trans; [apply cleanup_entry_by|apply IH|]. intros q. cbv beta. lia.
Qed.

Section check.
Context (env : xt_env).
Hypothesis Henv : registered_once env.

Lemma check_match_by name ip hookmask (w : W) ms : ∀ s ret j ms' s',
  check_match_iterate env ms name ip hookmask w s = (ret, j, ms', s') →
  match_ext <$> ms' = match_ext <$> ms ∧ ret <= 0 ∧ refs_by (match_uses (take j ms')) s s' ∧
  (ret = 0 → j = length ms' ∧ check_matches ms name ip hookmask w = (true, ms')).
Proof.
  induction ms as [|m ms IH]; intros s ret j ms' s'; cbn [check_match_iterate check_matches].
  { intros [= <- <- <- <-]. split_and!; [done|done|apply refs_by_zero|done]. }
  pose proof (try_then_by x_me _ _ s (λ s' _, xt_find_by env (reg_matches env) (x_name (match_ext m)) (x_revision (match_ext m)) s')) as Hf.
  destruct (try_then_request_module _ s) as [[x|err] s1]; cbn [search_by] in Hf.
  2: { destruct Hf as [He%not_found_neg Hs]. intros [= <- <- <- <-]. split_and!; [done|lia|done|lia]. }
  destruct Hf as [(Hin & Hn & Hr) Hs]. pose proof (once_match env Henv x m Hin Hn Hr) as ->.
  pose proof (match_check_ext m name ip hookmask w) as Hm. destruct (ext_match_check m name ip hookmask w) as [ok m'].
  cbn [snd] in Hm. destruct ok; cbn [negb].
  - destruct (check_match_iterate env ms name ip hookmask w s1) as [[[ret1 j1] ms1] s2] eqn:E.
    apply IH in E as (H1 & H2 & H3 & H4). intros [= <- <- <- <-]. split_and!.
    + rewrite !fmap_cons. by rewrite Hm, H1.
    + done.
    + eapply refs_by_trans; [exact Hs|exact H3|]. intros q. cbn [take sum_refs]. by rewrite Hm.
    + intros H0. destruct (H4 H0) as [-> ->]. by split.
  - intros [= <- <- <- <-]. split_and!.
    + rewrite !fmap_cons. by rewrite Hm.
    + unfold EINVAL. lia.
    + eapply refs_by_trans; [exact Hs|apply module_put_by|]. intros q. cbn [take sum_refs]. lia.
    + unfold EINVAL. lia.
Qed.

Lemma check_entry_by e name size (w : W) s ret e' s' :
  check_entry_refs env e name size w s = (ret, e', s') →
  ext_shape e' = ext_shape e ∧ ret <= 0 ∧ (ret ≠ 0 → refs_by (λ _, 0) s s') ∧
  (ret = 0 → refs_by (shape_uses (ext_shape e)) s s' ∧ check_entry e name size w = (0, e')).
Proof.
  unfold check_entry_refs, check_entry. destruct (negb (ip_checkentry _)).
  { intros [= <- <- <-]. split_and!; [done|unfold EINVAL; lia|intros _; apply refs_by_zero|unfold EINVAL; lia]. }
  destruct (check_match_iterate _ _ _ _ _ _ _) as [[[ret1 j] ms] s1] eqn:Em.
  apply check_match_by in Em as (Hms & Hret & Hs1 & H0).
  assert (ext_shape (e <| e_matches := ms |>) = ext_shape e) as Hsh by (unfold ext_shape; cbn; by rewrite Hms).
  assert (∀ s2, refs_by (λ _, 0) s1 s2 → refs_by (λ _, 0) s (foldl (λ s m, cleanup_match m s) s2 (take j ms))) as Hclean.
  { intros s2 Hs2. eapply refs_by_trans; [exact Hs1| |]; [eapply refs_by_trans; [exact Hs2|apply cleanup_matches_by|]; reflexivity|].
    intros q. cbv beta. lia. }
  destruct (Z.eqb_spec ret1 0) as [->|Hne]; cbn [negb].
  2: { intros [= <- <- <-]. split_and!; [done|lia|intros _; apply Hclean, refs_by_zero|lia]. }
  destruct (H0 eq_refl) as [-> ->]. cbn [negb]. rewrite firstn_all in Hs1, Hclean.
  set (e1 := e <| e_matches := ms |>) in *.
  pose proof (try_then_by x_me _ _ s1 (λ s' _, xt_find_by env (reg_targets env) (x_name (entry_target e1)) (x_revision (entry_target e1)) s')) as Hf.
  destruct (try_then_request_module _ s1) as [[x|err] s2]; cbn [search_by] in Hf.
  2: { destruct Hf as [He%not_found_neg Hs]. intros [= <- <- <-]. rewrite firstn_all.
       split_and!; [done|lia|intros _; by apply Hclean|lia]. }
  destruct Hf as [(Hin & Hn & Hr) Hs2]. pose proof (once_target env Henv x e1 Hin Hn Hr) as ->.
  assert (refs_by (shape_uses (ext_shape e)) s s2) as Hall.
  { rewrite <- Hsh. eapply refs_by_trans; [exact Hs1|exact Hs2|]. intros q. unfold shape_uses, ext_shape. cbn [fst snd].
    by rewrite sum_refs_fmap. }
  unfold entry_target in Hs2. destruct (e_target e1) as [sz v| |t] eqn:Et.
  - destruct (standard_check sz v size); intros [= <- <- <-]; [by split_and!|]. rewrite firstn_all.
    split_and!; [done|unfold EINVAL; lia|intros _; by apply Hclean|unfold EINVAL; lia].
  - intros [= <- <- <-]. by split_and!.
  - pose proof (target_check_ext t name (e_ip e1) (e_matches e1) (comefrom e1) w) as Ht.
    destruct (ext_target_check t name (e_ip e1) (e_matches e1) (comefrom e1) w) as [ok t']. cbn [snd] in Ht.
    assert (ext_shape (e1 <| e_target := T_ext t' |>) = ext_shape e) as Hsh2.
    { rewrite <- Hsh. unfold ext_shape, entry_target. cbn. rewrite Ht. assert (e_target e = T_ext t) as -> by exact Et. done. }
    destruct ok; intros [= <- <- <-]; [by split_and!|]. rewrite firstn_all.
    split_and!; [done|unfold EINVAL; lia| |unfold EINVAL; lia]. intros _. apply Hclean.
    eapply refs_by_trans; [exact Hs2|apply module_put_by|]. intros q. cbv beta. unfold entry_target. rewrite Et. lia.
Qed.

Lemma check_entries_by fuel : ∀ pos name (newinfo : info) (w : W) s ret i newinfo' s' k l,
  iterate k (t_entries newinfo) pos (t_size newinfo) = Some l →
  check_entries_refs env fuel pos name newinfo w s = Some (ret, i, newinfo', s') →
  exts (t_entries newinfo') = exts (t_entries newinfo) ∧ t_size newinfo' = t_size newinfo ∧
  t_number newinfo' = t_number newinfo ∧ ret <= 0 ∧ refs_by (sum_refs entry_uses (take i l)) s s' ∧
  (ret = 0 → i = length l ∧ check_entries fuel pos name newinfo w = Some (0, newinfo')).
Proof.
  induction fuel as [|fuel IH]; intros pos name newinfo w s ret i newinfo' s' k l Hl; cbn [check_entries_refs check_entries];
    (destruct (t_size newinfo <=? pos) eqn:Ep;
     [intros [= <- <- <- <-]; assert (l = []) as -> by (destruct k; cbn [iterate] in Hl; rewrite Ep in Hl; congruence);
      split_and!; [done..|apply refs_by_zero|done]|]); [done|].
  destruct k as [|k]; cbn [iterate] in Hl; rewrite Ep in Hl; [done|].
  apply bind_Some in Hl as (e & He & (l1 & Hl & [= <-])%bind_Some). rewrite He. cbn [mbind option_bind].
  destruct (check_entry_refs env e name (t_size newinfo) w s) as [[r e'] s1] eqn:Ee.
  apply check_entry_by in Ee as (Hsh & Hr & Hfail & Hok).
  pose proof (exts_insert (t_entries newinfo) pos e e' He Hsh) as Hx.
  destruct (Z.eqb_spec r 0) as [->|Hne]; cbn [negb].
  2: { intros [= <- <- <- <-]. split_and!; [done|done|done|done|by apply Hfail|lia]. }
  destruct (Hok eq_refl) as [Hs1 ->]. cbn [negb Z.eqb].
  assert (next_offset e' = next_offset e) as -> by (unfold ext_shape in Hsh; congruence).
  set (info1 := set_entries _ newinfo) in *.
  destruct (iterate_exts k (t_entries newinfo) (t_entries info1) (pos + next_offset e) (t_size newinfo) l1 Hx Hl) as (l2 & Hl2 & Hsh2).
  intros ([[[ret1 i1] info2] s2] & E & [= <- <- <- <-])%bind_Some.
  apply (IH _ _ _ _ _ _ _ _ _ k l2) in E as (H1 & H2 & H3 & H4 & H5 & H6); [|done].
  split_and!; [by rewrite H1|done|done|done| |].
  - eapply refs_by_trans; [exact Hs1|exact H5|]. intros q. cbn [take sum_refs]. f_equal. apply uses_shapes.
    by rewrite !fmap_take, Hsh2.
  - intros H0. destruct (H6 H0) as [-> ->]. split; [|done]. cbn [length]. f_equal.
    apply (f_equal length) in Hsh2. by rewrite !length_fmap in Hsh2.
Qed.
End check.
End Facts.
