(* ===== verification/IptReplaceSpec.v ===== *)
(** * Replacing tables: theorems

    A replacement happens completely or not at all, returns the counters of the old
    table, and keeps the books: every module has exactly the references that the rules
    of the tables need. *)
From S2P Require Import Prelude Packet CtBase IpTables IpTablesFacts IpTablesSpec IptReplace IptReplaceFacts.
From stdpp Require Import fin_maps.
#[local] Open Scope Z_scope.

Section Spec.
Context {M T W : Type} `{HX : IptExt M T W} `{HM : XtModules M T} `{HL : !XtLaws M T W}.
Abbreviation entry := (ipt_entry M T).
Abbreviation blob := (gmap Z entry).
Abbreviation info := (xt_table_info (M:=M) (T:=T)).
Abbreviation state := (xt_state (M:=M) (T:=T)).

(** ** The passes over a new table keep its shape *)
Abbreviation shaped := (λ ie : Z * entry, (ie.1, ext_shape ie.2)).
Definition positive_steps (l : list (Z * entry)) : Prop := Forall (λ ie, 0 < next_offset ie.2) l.

Lemma positive_shapes l l' : shaped <$> l' = shaped <$> l → positive_steps l → positive_steps l'.
Proof.
  unfold positive_steps. revert l. induction l' as [|ie' l' IH]; intros [|ie l] E; try done.
  rewrite !fmap_cons in E. injection E as _ En _ _ El. intros [Hi Hl]%Forall_cons_iff.
  apply Forall_cons_iff. split; [by rewrite En|by apply (IH l)].
Qed.

Lemma walk_exts fuel (tbl tbl' : blob) i sz l : exts tbl' = exts tbl → iterate fuel tbl i sz = Some l → positive_steps l →
  ∃ l', iterate fuel tbl' i sz = Some l' ∧ positive_steps l' ∧ length l' = length l ∧
    ∀ q, sum_refs entry_uses l' q = sum_refs entry_uses l q.
Proof.
  intros Hx Hl Hp. destruct (iterate_exts _ _ _ _ _ _ Hx Hl) as (l' & H1 & H2). exists l'. split; [done|].
  split; [by apply (positive_shapes l)|]. split; [|intros q; by apply uses_shapes].
  apply (f_equal length) in H2. by rewrite !length_fmap in H2.
Qed.

Lemma walk_size fuel (tbl : blob) i sz l : iterate fuel tbl i sz = Some l → positive_steps l →
  iterate (size tbl) tbl i sz = Some l.
Proof.
  intros Hl Hp. apply (iterate_size fuel); [done|]. intros x e Hin. unfold positive_steps in Hp.
  rewrite Forall_forall in Hp. by apply (Hp (x, e)).
Qed.

Lemma check_sizes_walk fuel : ∀ i n he uf (newinfo newinfo' : info) n',
  check_sizes fuel i n he uf newinfo = Some (0, n', newinfo') →
  ∃ l, iterate fuel (t_entries newinfo) i (t_size newinfo) = Some l ∧ n' = n + Z.of_nat (length l) ∧ positive_steps l ∧
    exts (t_entries newinfo') = exts (t_entries newinfo) ∧ t_size newinfo' = t_size newinfo ∧ t_number newinfo' = t_number newinfo.
Proof.
  induction fuel as [|fuel IH]; intros i n he uf newinfo newinfo' n'; cbn [check_sizes iterate];
    (destruct (t_size newinfo <=? i);
     [intros [= <- <-]; exists []; split_and!; [done|cbn [length]; lia|constructor|done..]|]); [done|].
  intros (e & He & E)%bind_Some. rewrite He. cbn [mbind option_bind].
  unfold check_entry_size_and_hooks in E. destruct (_ || _); [done|].
  destruct (Z.ltb_spec (next_offset e) (sizeof_ipt_entry + sizeof_ipt_entry_target)) as [|Hlong]; [done|]. cbn [negb Z.eqb] in E.
  apply IH in E as (l & Hl & -> & Hp & Hx & Hs & Hn). cbn [t_entries t_size t_number] in *.
  assert (exts (t_entries newinfo) = exts (<[i := cleared e]> (t_entries newinfo))) as Hx1 by (symmetry; by apply (exts_insert _ _ e)).
  destruct (walk_exts _ _ _ _ _ _ Hx1 Hl Hp) as (l' & -> & Hp' & Hlen & _). cbn [mbind option_bind].
  eexists. split; [done|]. split_and!; [cbn [length]; lia| |by rewrite Hx|done|done].
  constructor; [|done]. cbn [snd]. unfold sizeof_ipt_entry, sizeof_ipt_entry_target in Hlong. lia.
Qed.

Lemma check_sizes_ret fuel : ∀ i n he uf (newinfo newinfo' : info) ret n',
  check_sizes fuel i n he uf newinfo = Some (ret, n', newinfo') → ret <= 0.
Proof.
  induction fuel as [|fuel IH]; intros i n he uf newinfo newinfo' ret n'; cbn [check_sizes];
    (destruct (t_size newinfo <=? i); [intros [= <- _ _]; lia|]); [done|].
  intros (e & _ & E)%bind_Some. unfold check_entry_size_and_hooks in E.
  assert (negb (- EINVAL =? 0) = true) as H0 by done.
  destruct (_ || _); [|destruct (_ <? _)]; rewrite ?H0 in E; [injection E as <- _ _; done..|by apply IH in E].
Qed.

Lemma msc_back_exts fuel : ∀ (tbl tbl' : blob) pos r, msc_back fuel tbl pos = Some (r, tbl') → exts tbl' = exts tbl.
Proof.
  induction fuel as [|fuel IH]; intros tbl tbl' pos r; cbn [msc_back]; [done|].
  intros (e & He & E)%bind_Some. cbv zeta in E.
  match type of E with context [<[pos := ?e']> tbl] => set (tbl1 := <[pos := e']> tbl) in E;
    assert (exts tbl1 = exts tbl) as <- by (by apply (exts_insert _ _ e)) end.
  destruct (_ =? pos); [by injection E as _ <-|]. apply bind_Some in E as (e1 & _ & E).
  destruct (pos =? _); [by apply IH in E|by injection E as _ <-].
Qed.

Lemma msc_walk_exts fuel hook : ∀ (tbl tbl' : blob) pos, msc_walk fuel hook tbl pos = MSC_ok tbl' → exts tbl' = exts tbl.
Proof.
  induction fuel as [|fuel IH]; intros tbl tbl' pos; cbn [msc_walk]; [done|].
  destruct (tbl !! pos) as [e|] eqn:He; [|done]. destruct (flag _ MARK); [done|]. cbv zeta.
  match goal with |- context [<[pos := ?e']> tbl] => set (e2 := e'); set (tbl1 := <[pos := e2]> tbl);
    assert (exts tbl1 = exts tbl) as <- by (by apply (exts_insert _ _ e)) end.
  assert (∀ tbl2 v p, exts tbl2 = exts tbl1 →
    match tbl2 !! v with None => MSC_wild | Some e' => msc_walk fuel hook (<[v := e' <| pcnt := p |>]> tbl2) v end = MSC_ok tbl' →
    exts tbl' = exts tbl1) as Hgo.
  { intros tbl2 v p H2. destruct (tbl2 !! v) as [ev|] eqn:Ev; [|done]. intros E%IH. rewrite E, <- H2. by apply (exts_insert _ _ ev). }
  destruct (is_end e2).
  - destruct (msc_back _ tbl1 pos) as [[[jump|] tbl2]|] eqn:Eb; [| |done]; apply msc_back_exts in Eb; [|by intros [= <-]].
    destruct (tbl2 !! jump); [|done]. by apply Hgo.
  - destruct (is_standard e2) as [v|]; [destruct (0 <=? v)|]; by apply Hgo.
Qed.

Lemma msc_hooks_exts fuel valid he hooks : ∀ (tbl tbl' : blob), msc_hooks fuel hooks valid he tbl = MSC_ok tbl' → exts tbl' = exts tbl.
Proof.
  induction hooks as [|hook hooks IH]; intros tbl tbl'; cbn [msc_hooks]; [by intros [= <-]|].
  destruct (negb _); [apply IH|]. destruct (tbl !! he hook) as [e|] eqn:He; [|done].
  destruct (msc_walk _ _ _ _) as [tbl1| | |] eqn:Ew; [|done..]. intros E%IH. apply msc_walk_exts in Ew.
  rewrite E, Ew. by apply (exts_insert _ _ e).
Qed.

(** ** Checking a new table *)
Section translate.
Context (env : xt_env) (fuel : nat) (name : list Z) (valid_hooks : Z) (entries : list entry)
  (sz number : Z) (he uf : Z → Z) (w : W).
Hypothesis Henv : registered_once (M:=M) (T:=T) env.

(** The code cannot read the table: entries are missing, a jump leads between entries, or
    the bound for [mark_source_chains] was too small. *)
Definition unreadable : Prop :=
  match check_sizes (S (length entries)) 0 0 he uf
          (mk_info sz number (λ _, 4294967295) (λ _, 4294967295) (layout 0 entries)) with
  | None => True
  | Some (_, _, info1) =>
      match mark_source_chains fuel valid_hooks (hook_entry info1) (t_entries info1) with
      | MSC_wild | MSC_fuel => True
      | _ => False
      end
  end.

Lemma check_entries_total k : ∀ pos (newinfo : info) s l, iterate k (t_entries newinfo) pos (t_size newinfo) = Some l →
  is_Some (check_entries_refs env k pos name newinfo w s).
Proof.
  induction k as [|k IH]; intros pos newinfo s l; cbn [iterate check_entries_refs]; (destruct (t_size newinfo <=? pos); [by eexists|]); [done|].
  intros (e & He & (l1 & Hl & _)%bind_Some)%bind_Some. rewrite He. cbn [mbind option_bind].
  destruct (check_entry_refs env e name (t_size newinfo) w s) as [[r e'] s1] eqn:Ee.
  apply check_entry_by in Ee as (Hsh & _); [|done]. destruct (negb _); [by eexists|].
  assert (next_offset e' = next_offset e) as -> by (unfold ext_shape in Hsh; congruence).
  destruct (iterate_exts k (t_entries newinfo) (<[pos := e']> (t_entries newinfo)) (pos + next_offset e) (t_size newinfo) l1) as (l2 & Hl2 & _);
    [by apply (exts_insert _ _ e)|done|].
  destruct (IH (pos + next_offset e) (set_entries (<[pos := e']> (t_entries newinfo)) newinfo) s1 l2 Hl2) as [[[[? ?] ?] ?] ->]. by eexists.
Qed.

(** What the check of a table does to the books: nothing when it fails; when it
    succeeds, the references its entries need are taken. *)
Definition translated (s : state) (r : option (Z * info * state)) : Prop :=
  match r with
  | None => unreadable
  | Some (ret, newinfo, s') =>
      ret <= 0 ∧
      if ret =? 0 then
        ∃ l, table_entries newinfo = Some l ∧ t_number newinfo = Z.of_nat (length l) ∧ number = Z.of_nat (length l) ∧
          positive_steps l ∧ refs_by (sum_refs entry_uses l) s s' ∧
          translate_table fuel name valid_hooks entries sz number he uf w = Some (0, newinfo)
      else refs_by (λ _, 0) s s'
  end.

Lemma translate_by s : translated s (translate_table_refs env fuel name valid_hooks entries sz number he uf w s).
Proof.
  unfold translated, unreadable, translate_table_refs, translate_table.
  set (info0 := mk_info _ _ _ _ _).
  destruct (check_sizes (S (length entries)) 0 0 he uf info0) as [[[ret i] info1]|] eqn:Es; cbn [mbind option_bind]; [|done].
  assert (∀ r (P : Prop), r < 0 → r <= 0 ∧ (if r =? 0 then P else refs_by (λ _, 0) s s)) as Hfail.
  { intros r P Hr. split; [lia|]. rewrite (proj2 (Z.eqb_neq _ _)) by lia. apply refs_by_zero. }
  assert (ret <= 0) as Hret by (by eapply check_sizes_ret).
  destruct (Z.eqb_spec ret 0) as [->|Hne]; cbn [negb]; [|apply Hfail; lia].
  destruct (Z.eqb_spec i number) as [->|]; cbn [negb]; [|apply Hfail; unfold EINVAL; lia].
  destruct (negb (hooks_assigned _ _)); [apply Hfail; unfold EINVAL; lia|].
  destruct (mark_source_chains _ _ _ _) as [tbl| | |] eqn:Em; [|apply Hfail; unfold ELOOP; lia|done|done].
  apply check_sizes_walk in Es as (l & Hl & Hn & Hp & Hx & Hs & Hnum). apply msc_hooks_exts in Em. rewrite Hx in Em.
  set (info2 := set_entries tbl info1) in *. change (t_entries info0) with (layout 0 entries) in *.
  destruct (walk_exts _ _ tbl _ _ _ Em Hl Hp) as (l2 & Hl2 & Hp2 & Hlen2 & _).
  assert (iterate (S (length entries)) (t_entries info2) 0 (t_size info2) = Some l2) as Hl2' by (cbn [info2 t_size set_entries t_entries]; by rewrite Hs).
  destruct (check_entries_total _ _ _ s _ Hl2') as [[[[ret2 i2] info3] s3] E3]. rewrite E3. cbn [mbind option_bind].
  destruct (check_entries_by env Henv _ _ _ _ _ _ _ _ _ _ _ _ Hl2' E3) as (Hx3 & Hs3 & Hn3 & Hr3 & Hrefs & Hok).
  destruct (walk_exts _ (t_entries info2) (t_entries info3) _ _ _ Hx3 Hl2' Hp2) as (l3 & Hl3 & Hp3 & Hlen3 & Huses).
  assert (table_entries info3 = Some l3) as Ht3 by (unfold table_entries; rewrite Hs3; by apply (walk_size _ _ _ _ _ Hl3)).
  destruct (Z.eqb_spec ret2 0) as [->|Hne]; cbn [negb Z.eqb].
  - destruct (Hok eq_refl) as [-> Ec]. split; [lia|]. exists l3. rewrite Ht3, Hn3. cbn [info2 t_number set_entries]. rewrite Hnum.
    cbn [info0 t_number]. split_and!; [done|lia|lia|done| |done]. eapply refs_by_ext; [exact Hrefs|]. intros q. by rewrite firstn_all, Huses.
  - rewrite Ht3. cbn [mbind option_bind]. split; [done|]. rewrite (proj2 (Z.eqb_neq _ _) Hne).
    eapply refs_by_trans; [exact Hrefs|apply cleanup_entries_by|]. intros q. cbv beta.
    destruct (iterate_exts _ _ (t_entries info3) _ _ _ Hx3 Hl2') as (l3' & E3' & Hsh). rewrite Hl3 in E3'. injection E3' as <-.
    assert (sum_refs entry_uses (take i2 l3) q = sum_refs entry_uses (take i2 l2) q) as ->; [|lia].
    apply uses_shapes. by rewrite !fmap_take, Hsh.
Qed.
End translate.

(** ** A traversal keeps the shape *)
Lemma do_matches_ext ms : ∀ skb inp out offset hd (w w' : W) ok hd' ms',
  do_matches ms skb inp out offset hd w = (ok, hd', ms', w') → match_ext <$> ms' = match_ext <$> ms.
Proof.
  induction ms as [|m ms IH]; intros skb inp out offset hd w w' ok hd' ms'; cbn [do_matches]; [by intros [= _ _ <- _]|].
  pose proof (match_run_ext m skb inp out offset (ihl (skb_iph skb) * 4) w) as Hm.
  destruct (ext_match _ _ _ _ _ _ _) as [[[ok1 dr] m1] w1]. cbn [fst snd] in Hm. destruct ok1.
  - destruct (do_matches ms _ _ _ _ _ _) as [[[ok2 dr2] ms2] w2] eqn:E. intros [= _ _ <- _]. rewrite !fmap_cons.
    by rewrite Hm, (IH _ _ _ _ _ _ _ _ _ _ E).
  - intros [= _ _ <- _]. rewrite !fmap_cons. by rewrite Hm.
Qed.

Lemma exec_rule_ext e skb inp out hook offset (w : W) o hd e' skb' w' :
  exec_rule e skb inp out hook offset w = (o, hd, e', skb', w') → ext_shape e' = ext_shape e.
Proof.
  unfold exec_rule. destruct (negb (ip_packet_match _ _ _ _ _)); [by intros [= _ _ <- _ _]|].
  destruct (do_matches _ _ _ _ _ _ _) as [[[ok hd1] ms] w1] eqn:Em. apply do_matches_ext in Em.
  assert (ext_shape (e <| e_matches := ms |>) = ext_shape e) as Hsh by (unfold ext_shape; cbn; by rewrite Em).
  destruct (negb ok); [by intros [= _ _ <- _ _]|]. rewrite <- Hsh. destruct e as [ip to no cf bc pc msl tg].
  cbn [e_target update upd_e_matches upd_bcnt upd_pcnt]. destruct tg as [z v| |t]; [by intros [= _ _ <- _ _]..|].
  cbn. pose proof (target_run_ext t skb inp out hook w1) as Ht. destruct (ext_target t skb inp out hook w1) as [[[v skb2] t'] w2].
  cbn [fst snd] in Ht. intros [= _ _ <- _ _]. unfold ext_shape, entry_target. cbn. by rewrite Ht.
Qed.

Lemma do_table_exts fuel inp out hook offset : ∀ (tbl : blob) e back skb (w : W) v tbl' skb' w',
  ipt_do_table_loop fuel tbl e back skb inp out hook offset w = Some (v, tbl', skb', w') → exts tbl' = exts tbl.
Proof.
  induction fuel as [|fuel IH]; intros tbl e back skb w v tbl' skb' w'; cbn [ipt_do_table_loop]; [done|].
  intros (en & He & E)%bind_Some. destruct (exec_rule en skb inp out hook offset w) as [[[[o hd] en'] skb1] w1] eqn:Ex.
  apply exec_rule_ext in Ex. pose proof (exts_insert tbl e en en' He Ex) as Hx. cbv zeta in E.
  set (tbl1 := <[e := en']> tbl) in *. rewrite <- Hx. clearbody tbl1.
  assert (∀ tbl2 e2 b2, exts tbl2 = exts tbl1 →
    (if hd then Some (NF_DROP, tbl2, skb1, w1) else ipt_do_table_loop fuel tbl2 e2 b2 skb1 inp out hook offset w1)
    = Some (v, tbl', skb', w') → exts tbl' = exts tbl1) as Hgo.
  { intros tbl2 e2 b2 H2. destruct hd; [by intros [= _ <- _ _]|]. intros E2%IH. by rewrite E2. }
  destruct o as [|vd| |vj].
  - by apply Hgo in E.
  - by injection E as _ <- _ _.
  - apply bind_Some in E as (b & _ & E). by apply Hgo in E.
  - destruct (_ && _); [|by apply Hgo in E]. apply bind_Some in E as (n & Hn & E).
    apply Hgo in E; [done|]. by apply (exts_insert _ _ n).
Qed.

(** ** The invariant *)

(** The walk along a table ends and passes as many entries as the table has. *)
Definition table_wf (t : xt_table (M:=M) (T:=T)) : Prop :=
  ∃ l, table_entries (p_info (private t)) = Some l ∧ t_number (p_info (private t)) = Z.of_nat (length l) ∧ positive_steps l.

(** The references a table holds: those of its entries, and one on its own module while
    it has more entries than at the start. *)
Definition own_uses (t : xt_table (M:=M) (T:=T)) (q : positive) : Z :=
  if initial_entries (private t) <? t_number (p_info (private t)) then one (tb_me t) q else 0.
Definition table_uses (t : xt_table (M:=M) (T:=T)) (q : positive) : Z :=
  sum_refs entry_uses (default [] (table_entries (p_info (private t)))) q + own_uses t q.

Record xt_wf (base : positive → Z) (s : state) : Prop := {
  xw_names : NoDup (tb_name <$> x_tables s);
  xw_tables : Forall table_wf (x_tables s);
  xw_refs : ∀ q, x_refs s q = base q + sum_refs table_uses (x_tables s) q }.

Lemma xt_wf_same base s s' : refs_by (λ _, 0) s s' → xt_wf base s → xt_wf base s'.
Proof.
  intros [Ht Hr] [H1 H2 H3]. split; [by rewrite Ht|by rewrite Ht|]. intros q. rewrite Hr, Ht, H3. lia.
Qed.

(** One table changes, and the references with it. *)
Lemma xt_wf_set base s s' i t t' : xt_wf base s → x_tables s !! i = Some t → tb_name t' = tb_name t → table_wf t' →
  x_tables s' = <[i := t']> (x_tables s) → (∀ q, x_refs s' q = x_refs s q - table_uses t q + table_uses t' q) → xt_wf base s'.
Proof.
  intros [H1 H2 H3] Hi Hn Hw Ht Hr. split.
  - rewrite Ht. rewrite list_fmap_insert, Hn, list_insert_id; [done|]. by rewrite list_lookup_fmap, Hi.
  - rewrite Ht. by apply Forall_insert.
  - intros q. rewrite Hr, Ht, (sum_refs_insert _ _ _ t), H3 by done. lia.
Qed.

Lemma table_wf_lookup base s i t : xt_wf base s → x_tables s !! i = Some t → table_wf t.
Proof. intros HW Hi. apply (Forall_lookup_1 _ _ _ _ (xw_tables _ _ HW) Hi). Qed.

(** A table whose entries keep their shape. *)
Definition with_blob (t : xt_table (M:=M) (T:=T)) (tbl : blob) : xt_table :=
  mk_table (tb_name t) (tb_hooks t) (tb_me t)
    (mk_private (set_entries tbl (p_info (private t))) (initial_entries (private t))).

Lemma with_blob_wf t tbl : exts tbl = exts (t_entries (p_info (private t))) → table_wf t →
  table_wf (with_blob t tbl) ∧ ∀ q, table_uses (with_blob t tbl) q = table_uses t q.
Proof.
  intros Hx (l & Hl & Hn & Hp). destruct (walk_exts _ _ _ _ _ _ Hx Hl Hp) as (l' & Hl' & Hp' & Hlen & Hu).
  assert (table_entries (p_info (private (with_blob t tbl))) = Some l') as He by (by apply (walk_size _ _ _ _ _ Hl')).
  split.
  - exists l'. split; [done|]. split; [|done]. cbn [with_blob private p_info set_entries t_number]. rewrite Hn. by rewrite Hlen.
  - intros q. unfold table_uses. rewrite He, Hl. cbn [default from_option]. by rewrite Hu.
Qed.

Lemma table_packet_wf base fuel i skb hook inp out (w : W) s v skb' w' s' : xt_wf base s →
  table_packet fuel i skb hook inp out w s = Some (v, skb', w', s') → xt_wf base s'.
Proof.
  intros HW. unfold table_packet. intros (t & Hi & E)%bind_Some.
  cbv zeta in E. apply bind_Some in E as ([[[v1 tbl] skb1] w1] & E & E2). injection E2 as <- <- <- <-. apply do_table_exts in E.
  destruct (with_blob_wf t tbl E (table_wf_lookup _ _ _ _ HW Hi)) as [Hw Hu].
  apply (xt_wf_set base s _ i t (with_blob t tbl)); [done|done|done|done|reflexivity|]. intros q. cbn [set_table x_refs]. rewrite Hu. lia.
Qed.

(** ** Replacing *)
Definition counters_of (t : info) : list xt_counters :=
  (λ ie, (bcnt ie.2, pcnt ie.2)) <$> default [] (table_entries t).

Definition installed (t : xt_table (M:=M) (T:=T)) (newinfo : info) : xt_table :=
  mk_table (tb_name t) (tb_hooks t) (tb_me t) (mk_private newinfo (initial_entries (private t))).

(** The two ends of a replacement: nothing has happened, or the table of that name, with
    those hooks and that many counters, is the new one, and user space has the
    counters of the old one, if they could be copied. *)
Definition untouched (s : state) (ret : Z) (c : option (list xt_counters)) (s' : state) : Prop :=
  ret < 0 ∧ c = None ∧ refs_by (λ _, 0) s s'.

Definition replaced (sc : syscall) (fuel : nat) (tmp : ipt_replace) (w : W) (s : state) (ret : Z)
    (c : option (list xt_counters)) (s' : state) : Prop :=
  ∃ i t newinfo, x_tables s !! i = Some t ∧ tb_name t = rp_name tmp ∧ tb_hooks t = rp_valid_hooks tmp ∧
    t_number (p_info (private t)) = rp_num_counters tmp ∧
    translate_table fuel (rp_name tmp) (rp_valid_hooks tmp) (rp_entries tmp) (rp_size tmp) (rp_num_entries tmp)
      (rp_hook_entry tmp) (rp_underflow tmp) w = Some (0, newinfo) ∧
    x_tables s' = <[i := installed t newinfo]> (x_tables s) ∧
    (ret, c) = if copy_back sc then (0, Some (counters_of (p_info (private t)))) else (- EFAULT, None).

Lemma get_counters_all t : table_wf t →
  get_counters (p_info (private t)) (t_number (p_info (private t))) = Some (counters_of (p_info (private t))).
Proof.
  intros (l & Hl & Hn & _). unfold get_counters, counters_of. rewrite Hl. cbn [mbind option_bind default from_option].
  by rewrite (proj2 (Z.ltb_ge _ _)) by lia.
Qed.

Lemma do_replace_spec base env sc fuel tmp len (w : W) s : registered_once (M:=M) (T:=T) env → xt_wf base s →
  match do_replace env sc fuel tmp len w s with
  | None => unreadable fuel (rp_valid_hooks tmp) (rp_entries tmp) (rp_size tmp) (rp_num_entries tmp)
              (rp_hook_entry tmp) (rp_underflow tmp)
  | Some (ret, c, s') => xt_wf base s' ∧ (untouched s ret c s' ∨ replaced sc fuel tmp w s ret c s')
  end.
Proof.
  intros Henv HW. unfold do_replace.
  assert (∀ ret s', ret < 0 → refs_by (λ _, 0) s s' →
    xt_wf base s' ∧ (untouched s ret None s' ∨ replaced sc fuel tmp w s ret None s')) as Hfail.
  { intros ret s' Hr Hs. split; [by apply (xt_wf_same _ s)|]. left. done. }
  destruct (negb (copy_head sc)); [by apply Hfail, refs_by_zero|].
  destruct (negb _); [by apply Hfail, refs_by_zero|]. destruct (_ <=? _); [by apply Hfail, refs_by_zero|].
  destruct (_ <=? _); [by apply Hfail, refs_by_zero|]. destruct (negb (xt_alloc_table_info _ _ _)); [by apply Hfail, refs_by_zero|].
  destruct (negb (copy_body sc)); [by apply Hfail, refs_by_zero|]. destruct (negb (vmalloc _ _ _)); [by apply Hfail, refs_by_zero|].
  pose proof (translate_by env fuel (rp_name tmp) (rp_valid_hooks tmp) (rp_entries tmp) (rp_size tmp) (rp_num_entries tmp)
    (rp_hook_entry tmp) (rp_underflow tmp) w Henv s) as Htr. unfold translated in Htr.
  destruct (translate_table_refs _ _ _ _ _ _ _ _ _ _ _) as [[[ret newinfo] s1]|]; cbn [mbind option_bind]; [|exact Htr].
  destruct Htr as [Hret Htr]. destruct (Z.eqb_spec ret 0) as [->|Hne]; cbn [negb]; [|apply Hfail; [lia|done]].
  destruct Htr as (l & Hl & Hn & _ & Hp & Hr1 & Htr). rewrite Hl. cbn [mbind option_bind].
  assert (∀ s2, refs_by (λ _, 0) s1 s2 → refs_by (λ _, 0) s (cleanup_entries l s2)) as Hclean.
  { intros s2 H2. eapply refs_by_trans; [exact Hr1| |]; [eapply refs_by_trans; [exact H2|apply cleanup_entries_by|]; reflexivity|].
    intros q. cbv beta. lia. }
  pose proof (try_then_by _ _ (xt_find_table_lock env (rp_name tmp)) s1 (λ s' H', find_table_by env (rp_name tmp) (x_tables s1) s' H')) as Hf.
  destruct (try_then_request_module _ s1) as [[i|err] s2]; cbn [search_by] in Hf.
  2: { destruct Hf as [He%not_found_neg Hs2]. apply Hfail; [done|by apply Hclean]. }
  destruct Hf as [(t & Hi & Hname) Hs2]. rewrite Hi in Hs2. cbn [mbind option_bind] in Hs2.
  rewrite (proj1 Hs2), Hi. cbn [mbind option_bind]. rewrite (proj1 Hr1) in Hi.
  assert (refs_by (λ _, 0) s1 (module_put (tb_me t) s2)) as Hput.
  { eapply refs_by_trans; [exact Hs2|apply module_put_by|]. intros q. cbv beta. lia. }
  destruct (Z.eqb_spec (rp_valid_hooks tmp) (tb_hooks t)) as [Hh|]; cbn [negb]; [|by apply Hfail; [|apply Hclean]].
  unfold xt_replace_table. destruct (Z.eqb_spec (rp_num_counters tmp) (t_number (p_info (private t)))) as [Hc|]; cbn [negb];
    [|by apply Hfail; [|apply Hclean]].
  cbn [initial_entries p_info tb_me]. rewrite Hc. pose proof (table_wf_lookup _ _ _ _ HW Hi) as Htw.
  rewrite (get_counters_all t Htw). cbn [mbind option_bind]. pose proof Htw as (l0 & Hl0 & Hn0 & Hp0).
  rewrite Hl0. cbn [mbind option_bind]. fold (installed t newinfo).
  set (s3 := set_table i (installed t newinfo) s2).
  set (old := initial_entries (private t) <? t_number (p_info (private t))).
  set (new := initial_entries (private t) <? t_number newinfo).
  set (s4 := if old || negb new then module_put (tb_me t) s3 else s3).
  set (s5 := if old && negb new then module_put (tb_me t) s4 else s4).
  assert (refs_by (λ q, (if new then one (tb_me t) q else 0) - (if old then one (tb_me t) q else 0) - one (tb_me t) q) s3 s5) as H5.
  { unfold s5, s4. destruct old, new; cbn [orb andb negb].
    - eapply refs_by_ext; [apply module_put_by|]. intros q. cbv beta. lia.
    - eapply refs_by_trans; [apply module_put_by..|]. intros q. cbv beta. lia.
    - eapply refs_by_ext; [apply refs_by_zero|]. intros q. cbv beta. lia.
    - eapply refs_by_ext; [apply module_put_by|]. intros q. cbv beta. lia. }
  assert (x_tables (cleanup_entries l0 s5) = <[i := installed t newinfo]> (x_tables s)) as Ht5.
  { rewrite (proj1 (cleanup_entries_by l0 s5)), (proj1 H5). cbn [s3 set_table x_tables]. by rewrite (proj1 Hs2), (proj1 Hr1). }
  assert (xt_wf base (cleanup_entries l0 s5)) as HW5.
  { apply (xt_wf_set base s _ i t (installed t newinfo)); [done|done|done|by exists l|exact Ht5|]. intros q.
    rewrite (proj2 (cleanup_entries_by l0 s5)), (proj2 H5). cbn [s3 set_table x_refs]. rewrite (proj2 Hs2), (proj2 Hr1).
    unfold table_uses, own_uses. cbn [installed private p_info initial_entries tb_me]. rewrite Hl, Hl0. cbn [default from_option].
    fold old. fold new. unfold id. cbv beta. lia. }
  destruct (copy_back sc) eqn:Ecb; (split; [exact HW5|]); right; exists i, t, newinfo; rewrite Ecb; split_and!; auto; congruence.
Qed.

(** ** Adding counters *)
Definition added (ie : Z * entry) (c : xt_counters) : Z * entry :=
  (ie.1, ie.2 <| bcnt := u64 (bcnt ie.2 + c.1) |> <| pcnt := u64 (pcnt ie.2 + c.2) |>).

Lemma add_counters_all l : ∀ paddc (tbl : blob), NoDup l.*1 → (∀ i e, (i, e) ∈ l → tbl !! i = Some e) →
  length paddc = length l →
  ∃ tbl', add_counters l paddc tbl = Some tbl' ∧ exts tbl' = exts tbl ∧
    (∀ i e, (i, e) ∈ zip_with added l paddc → tbl' !! i = Some e) ∧ (∀ x, x ∉ l.*1 → tbl' !! x = tbl !! x).
Proof.
  induction l as [|[i e] l IH]; intros [|[b p] paddc] tbl Hnd Hin Hlen; try done; cbn [add_counters zip_with].
  { exists tbl. split; [done|]. split; [done|]. split; [by intros ? ? ?%elem_of_nil|done]. }
  cbn [fmap list_fmap] in Hnd. apply NoDup_cons in Hnd as [Hi Hnd]. cbn [fst] in Hi.
  assert (tbl !! i = Some e) as Hie by (apply Hin, list_elem_of_here).
  set (e1 := e <| bcnt := _ |> <| pcnt := _ |>).
  destruct (IH paddc (<[i := e1]> tbl)) as (tbl' & H1 & H2 & H3 & H4); [done| |cbn [length] in Hlen; lia|].
  { intros x ex Hx. rewrite lookup_insert_ne; [by apply Hin, list_elem_of_further|]. intros ->. apply Hi.
    apply list_elem_of_fmap. by exists (x, ex). }
  exists tbl'. split; [done|]. split; [rewrite H2; by apply (exts_insert _ _ e)|]. split.
  - intros x ex [Ex|Hx]%elem_of_cons; [|by apply H3]. injection Ex as -> ->. rewrite H4 by done. apply lookup_insert_eq.
  - intros x Hx. cbn [fmap list_fmap fst] in Hx. apply not_elem_of_cons in Hx as [Hne Hx]. rewrite H4 by done.
    by rewrite lookup_insert_ne.
Qed.

Lemma iterate_zip fuel : ∀ (tbl tbl' : blob) i sz l paddc, iterate fuel tbl i sz = Some l → length paddc = length l →
  (∀ x e, (x, e) ∈ zip_with added l paddc → tbl' !! x = Some e) → iterate fuel tbl' i sz = Some (zip_with added l paddc).
Proof.
  induction fuel as [|fuel IH]; intros tbl tbl' i sz l paddc; cbn [iterate];
    (destruct (sz <=? i); [intros [= <-] _ _; done|]); [done|].
  intros (e & Hx & (k & Ek & [= <-])%bind_Some)%bind_Some. destruct paddc as [|c paddc]; [done|]. intros Hlen Hin.
  rewrite (Hin i _ (list_elem_of_here _ _)). cbn [mbind option_bind zip_with].
  assert (∀ e c, next_offset (added (i, e) c).2 = next_offset e) as Hno by done.
  match goal with |- context [i + next_offset ?x] => change (next_offset x) with (next_offset e) end.
  rewrite (IH tbl tbl' _ _ k paddc Ek); [done|cbn [length] in Hlen; lia|]. intros x ex Hxe. apply Hin, list_elem_of_further, Hxe.
Qed.

(** Nothing has happened, or every entry of the table has its counters increased. *)
Definition counters_added (name : list Z) (paddc : list xt_counters) (s s' : state) : Prop :=
  ∃ i t tbl l, x_tables s !! i = Some t ∧ tb_name t = name ∧ table_entries (p_info (private t)) = Some l ∧
    length l = length paddc ∧ x_tables s' = <[i := with_blob t tbl]> (x_tables s) ∧
    (∀ q, x_refs s' q = x_refs s q) ∧
    table_entries (p_info (private (with_blob t tbl))) = Some (zip_with added l paddc).

Lemma do_add_spec base env sc name num paddc len s : xt_wf base s → num = Z.of_nat (length paddc) →
  ∃ ret s', do_add_counters env sc name num paddc len s = Some (ret, s') ∧ xt_wf base s' ∧
    (ret < 0 ∧ refs_by (λ _, 0) s s' ∨ ret = 0 ∧ counters_added name paddc s s').
Proof.
  intros HW ->. unfold do_add_counters.
  assert (∀ ret s1, ret < 0 → refs_by (λ _, 0) s s1 → ∃ ret' s', Some (ret, s1) = Some (ret', s') ∧ xt_wf base s' ∧
    (ret' < 0 ∧ refs_by (λ _, 0) s s' ∨ ret' = 0 ∧ counters_added name paddc s s')) as Hfail.
  { intros ret s1 Hr Hs. exists ret, s1. split; [done|]. split; [by apply (xt_wf_same _ s)|by left]. }
  destruct (negb (copy_head sc)); [by apply Hfail, refs_by_zero|]. destruct (negb _); [by apply Hfail, refs_by_zero|].
  destruct (negb (vmalloc _ _ _)); [by apply Hfail, refs_by_zero|]. destruct (negb (copy_body sc)); [by apply Hfail, refs_by_zero|].
  pose proof (find_table_by env name (x_tables s) s eq_refl) as Hf.
  destruct (xt_find_table_lock env name s) as [[i|err] s1]; cbn [search_by] in Hf.
  2: { destruct Hf as [He%not_found_neg Hs1]. by apply Hfail. }
  destruct Hf as [(t & Hi & Hname) Hs1]. rewrite Hi in Hs1. cbn [mbind option_bind] in Hs1.
  rewrite (proj1 Hs1), Hi. cbn [mbind option_bind]. pose proof (table_wf_lookup _ _ _ _ HW Hi) as Htw.
  pose proof Htw as (l & Hl & Hn & Hp). destruct (Z.eqb_spec (t_number (p_info (private t))) (Z.of_nat (length paddc))) as [Hc|]; cbn [negb].
  2: { apply Hfail; [done|]. eapply refs_by_trans; [exact Hs1|apply module_put_by|]. intros q. cbv beta. lia. }
  rewrite Hl. cbn [mbind option_bind].
  destruct (iterate_offsets _ _ _ _ _ Hl) as [Hin Hnd].
  { intros x e Hx. unfold positive_steps in Hp. rewrite Forall_forall in Hp. by apply (Hp (x, e)). }
  destruct (add_counters_all l paddc (t_entries (p_info (private t)))) as (tbl & -> & Hx & Htbl & _); [done| |lia|].
  { intros x e Hxe. by apply Hin. }
  cbn [mbind option_bind]. destruct (with_blob_wf t tbl Hx Htw) as [Hw Hu]. fold (with_blob t tbl). cbn [with_blob tb_me].
  fold (with_blob t tbl). set (s2 := set_table i (with_blob t tbl) s1).
  assert (∀ q, x_refs (module_put (tb_me t) s2) q = x_refs s q) as Hrefs.
  { intros q. rewrite (proj2 (module_put_by (tb_me t) s2)). cbn [s2 set_table x_refs]. rewrite (proj2 Hs1). cbv beta. lia. }
  assert (x_tables (module_put (tb_me t) s2) = <[i := with_blob t tbl]> (x_tables s)) as Ht2.
  { rewrite (proj1 (module_put_by (tb_me t) s2)). cbn [s2 set_table x_tables]. by rewrite (proj1 Hs1). }
  eexists _, _. split; [done|]. split.
  - apply (xt_wf_set base s _ i t (with_blob t tbl)); [done|done|done|done|exact Ht2|]. intros q. rewrite Hrefs, Hu. lia.
  - right. split; [done|]. exists i, t, tbl, l. split_and!; [done|done|done|lia|exact Ht2|exact Hrefs|].
    unfold table_entries. cbn [with_blob private p_info set_entries t_entries t_size]. apply (walk_size (size (t_entries (p_info (private t))))).
    + by apply (iterate_zip _ (t_entries (p_info (private t)))); [exact Hl|lia|].
    + destruct (walk_exts _ _ tbl _ _ _ Hx Hl Hp) as (l' & Hl' & Hp' & _).
      rewrite (iterate_zip _ (t_entries (p_info (private t))) tbl 0 _ l paddc Hl ltac:(lia) Htbl) in Hl'. by injection Hl' as ->.
Qed.

(** ** Reading *)
Lemma get_info_wf base env sc name s ret v s' : xt_wf base s → get_info env sc name s = Some (ret, v, s') → xt_wf base s'.
Proof.
  intros HW. unfold get_info.
  pose proof (try_then_by _ _ (xt_find_table_lock env name) s (λ s' H', find_table_by env name (x_tables s) s' H')) as Hf.
  destruct (try_then_request_module _ s) as [[i|err] s1]; cbn [search_by] in Hf.
  2: { destruct Hf as [_ Hf]. intros [= _ _ <-]. by apply (xt_wf_same _ s). }
  destruct Hf as [(t & Hi & _) Hs1]. rewrite Hi in Hs1. cbn [mbind option_bind] in Hs1. rewrite (proj1 Hs1), Hi. cbn [mbind option_bind].
  assert (refs_by (λ _, 0) s (module_put (tb_me t) s1)) as Hput.
  { eapply refs_by_trans; [exact Hs1|apply module_put_by|]. intros q. cbv beta. lia. }
  destruct (copy_back sc); intros [= _ _ <-]; by apply (xt_wf_same _ s).
Qed.

(** User space gets the entries as they are, with their counters. *)
Lemma get_entries_spec base env sc name sz s : xt_wf base s →
  ∃ ret r s', get_entries env sc name sz s = Some (ret, r, s') ∧ refs_by (λ _, 0) s s' ∧
    match r with
    | None => ret < 0
    | Some l => ret = 0 ∧ ∃ t, t ∈ x_tables s ∧ tb_name t = name ∧ table_entries (p_info (private t)) = Some l
    end.
Proof.
  intros HW. unfold get_entries.
  assert (∀ ret s1, ret < 0 → refs_by (λ _, 0) s s1 → ∃ ret' r s', Some (ret, @None (list (Z * entry)), s1) = Some (ret', r, s') ∧
    refs_by (λ _, 0) s s' ∧ match r with None => ret' < 0 | Some l =>
      ret' = 0 ∧ ∃ t, t ∈ x_tables s ∧ tb_name t = name ∧ table_entries (p_info (private t)) = Some l end) as Hfail.
  { intros ret s1 Hr Hs. by exists ret, None, s1. }
  pose proof (find_table_by env name (x_tables s) s eq_refl) as Hf.
  destruct (xt_find_table_lock env name s) as [[i|err] s1]; cbn [search_by] in Hf.
  2: { destruct Hf as [He%not_found_neg Hs1]. by apply Hfail. }
  destruct Hf as [(t & Hi & Hname) Hs1]. rewrite Hi in Hs1. cbn [mbind option_bind] in Hs1. rewrite (proj1 Hs1), Hi. cbn [mbind option_bind].
  assert (refs_by (λ _, 0) s (module_put (tb_me t) s1)) as Hput.
  { eapply refs_by_trans; [exact Hs1|apply module_put_by|]. intros q. cbv beta. lia. }
  pose proof (table_wf_lookup _ _ _ _ HW Hi) as Htw. pose proof Htw as (l & Hl & _).
  destruct (sz =? _); cbn [mbind option_bind]; [|by apply Hfail].
  unfold copy_entries_to_user. destruct (negb (vmalloc _ _ _)); cbn [mbind option_bind]; [by apply Hfail|].
  rewrite (get_counters_all t Htw), Hl. cbn [mbind option_bind]. destruct (negb (copy_back sc)); cbn [mbind option_bind]; [by apply Hfail|].
  eexists _, _, _. split; [done|]. split; [done|]. split; [done|]. exists t. split; [by eapply list_elem_of_lookup_2|]. split; [done|].
  rewrite Hl. f_equal. unfold counters_of. rewrite Hl. cbn [default from_option]. clear. unfold id.
  induction l as [|[i e] l IH]; [done|]. rewrite fmap_cons. cbn [zip_with fst snd]. rewrite <- IH. by destruct e.
Qed.

(** ** Registration *)

(** [xt_register_table] refuses a table that has been checked: a signal comes while it waits
    for the semaphore, or there is a table of that name. *)
Definition refused (env : xt_env) (sc : syscall) (fuel : nat) (table : xt_table (M:=M) (T:=T)) (repl : ipt_replace)
    (w : W) (s : state) : option info :=
  if negb (xt_alloc_table_info env sc (rp_size repl)) then None
  else
    '(ret, newinfo, s1) ← translate_table_refs env fuel (tb_name table) (tb_hooks table) (rp_entries repl) (rp_size repl)
                            (rp_num_entries repl) (rp_hook_entry repl) (rp_underflow repl) w s;
    if (ret =? 0) && (hd false (x_signals s1) || existsb (λ t, bool_decide (tb_name t = tb_name table)) (x_tables s))
    then Some newinfo else None.

(** The rules whose references are lost then. *)
Definition lost_rules env sc fuel table repl (w : W) s : list (Z * entry) :=
  default [] (newinfo ← refused env sc fuel table repl w s; table_entries newinfo).

Lemma register_wf base env sc fuel table repl (w : W) s ret s' : registered_once (M:=M) (T:=T) env → xt_wf base s →
  ipt_register_table env sc fuel table repl w s = Some (ret, s') →
  xt_wf (λ q, base q + sum_refs entry_uses (lost_rules env sc fuel table repl w s) q) s'.
Proof.
  intros Henv HW. unfold ipt_register_table, lost_rules, refused.
  assert (∀ s1, refs_by (λ _, 0) s s1 → xt_wf (λ q, base q + sum_refs entry_uses [] q) s1) as Hsame.
  { intros s1 Hs. apply (xt_wf_same _ s); [done|]. destruct HW as [H1 H2 H3]. split; [done|done|].
    intros q. cbn [sum_refs]. rewrite H3. lia. }
  destruct (negb (xt_alloc_table_info _ _ _)); [intros [= _ <-]; apply Hsame, refs_by_zero|].
  pose proof (translate_by env fuel (tb_name table) (tb_hooks table) (rp_entries repl) (rp_size repl) (rp_num_entries repl)
    (rp_hook_entry repl) (rp_underflow repl) w Henv s) as Htr. unfold translated in Htr.
  destruct (translate_table_refs _ _ _ _ _ _ _ _ _ _ _) as [[[r newinfo] s1]|]; cbn [mbind option_bind]; [|done].
  destruct Htr as [Hr Htr]. destruct (Z.eqb_spec r 0) as [->|Hne]; cbn [negb andb].
  2: { intros [= _ <-]. by apply Hsame. }
  destruct Htr as (l & Hl & Hn & _ & Hp & Hr1 & _). unfold xt_register_table, down_interruptible.
  destruct HW as [H1 H2 H3].
  destruct (hd false (x_signals s1)); cbn [orb negb Z.eqb mbind option_bind].
  { intros [= _ <-]. rewrite Hl. cbn [default from_option]. unfold id. split; cbn [x_tables x_refs]; rewrite ?(proj1 Hr1); [done|done|].
    intros q. rewrite (proj2 Hr1), H3. lia. }
  cbn [x_tables]. rewrite (proj1 Hr1). destruct (existsb _ (x_tables s)) eqn:Ee; cbn [mbind option_bind].
  { intros [= _ <-]. rewrite Hl. cbn [default from_option]. unfold id. split; cbn [x_tables x_refs]; rewrite ?(proj1 Hr1); [done|done|].
    intros q. rewrite (proj2 Hr1), H3. lia. }
  cbn [xt_replace_table private bootstrap p_info t_number Z.eqb negb tb_name tb_hooks tb_me]. intros [= _ <-].
  split; cbn [x_tables x_refs].
  - rewrite fmap_cons. apply NoDup_cons. split; [|done]. intros (t & Ht & Hin)%list_elem_of_fmap. apply not_true_iff_false in Ee.
    apply Ee, existsb_exists. exists t. split; [by apply list_elem_of_In|by apply bool_decide_eq_true].
  - constructor; [by exists l|done].
  - intros q. cbn [sum_refs default from_option]. rewrite (proj2 Hr1), H3. unfold table_uses at 2, own_uses.
    cbn [private p_info initial_entries]. rewrite Hl, Z.ltb_irrefl. cbn [default from_option]. unfold id. lia.
Qed.

(** When there is a table of the name, [ipt_register_table] returns 0 all the same, and the
    references that the check of the new table took are never released. *)
Lemma register_existing_leaks env sc fuel table repl (w : W) s s1 newinfo :
  xt_alloc_table_info env sc (rp_size repl) = true → registered_once (M:=M) (T:=T) env →
  tb_name table ∈ tb_name <$> x_tables s →
  translate_table_refs env fuel (tb_name table) (tb_hooks table) (rp_entries repl) (rp_size repl)
    (rp_num_entries repl) (rp_hook_entry repl) (rp_underflow repl) w s = Some (0, newinfo, s1) →
  ∃ s', ipt_register_table env sc fuel table repl w s = Some (0, s') ∧ x_tables s' = x_tables s ∧
    ∃ l, table_entries newinfo = Some l ∧ ∀ q, x_refs s' q = x_refs s q + sum_refs entry_uses l q.
Proof.
  intros Ha Henv Hin Etr. unfold ipt_register_table. rewrite Ha, Etr. cbn [negb mbind option_bind Z.eqb].
  pose proof (translate_by env fuel (tb_name table) (tb_hooks table) (rp_entries repl) (rp_size repl) (rp_num_entries repl)
    (rp_hook_entry repl) (rp_underflow repl) w Henv s) as Htr. rewrite Etr in Htr. destruct Htr as [_ (l & Hl & _ & _ & _ & Hr1 & _)].
  unfold xt_register_table, down_interruptible. destruct (hd false (x_signals s1)).
  { eexists. split; [done|]. cbn [x_tables x_refs]. split; [apply Hr1|]. exists l. split; [done|apply Hr1]. }
  cbn [x_tables]. assert (existsb (λ t, bool_decide (tb_name t = tb_name table)) (x_tables s1) = true) as ->.
  { rewrite (proj1 Hr1). apply existsb_exists. apply list_elem_of_fmap in Hin as (t & Hn & Ht). exists t.
    split; [by apply list_elem_of_In|by apply bool_decide_eq_true]. }
  eexists. split; [done|]. cbn [x_tables x_refs]. split; [apply Hr1|]. exists l. split; [done|apply Hr1].
Qed.

Lemma unregister_wf base i t s s' : xt_wf base s → x_tables s !! i = Some t →
  t_number (p_info (private t)) <= initial_entries (private t) → ipt_unregister_table i s = Some s' → xt_wf base s'.
Proof.
  intros HW Hi Hn. unfold ipt_unregister_table. rewrite Hi. cbn [mbind option_bind].
  destruct (table_wf_lookup _ _ _ _ HW Hi) as (l & Hl & _). rewrite Hl. cbn [mbind option_bind]. intros [= <-].
  set (s1 := mk_xt _ _ _). destruct HW as [H1 H2 H3]. pose proof (cleanup_entries_by l s1) as [Ht Hr]. split.
  - rewrite Ht. cbn [s1 x_tables]. rewrite list_fmap_delete. eapply sublist_NoDup; [exact H1|apply sublist_delete].
  - rewrite Ht. by apply Forall_delete.
  - intros q. rewrite Ht, Hr. cbn [s1 x_tables x_refs]. rewrite (sum_refs_delete _ _ _ t), H3 by done.
    unfold table_uses at 3, own_uses. rewrite Hl, (proj2 (Z.ltb_ge _ _)) by lia. cbn [default from_option]. unfold id. lia.
Qed.
End Spec.
