(* ===== verification/IptModules.v ===== *)
(** * Replacing tables: the tables as a system

    The operations on tables as steps; the invariant of their reference counts in every
    state that can be reached; the extensions of the firmware as an instance. *)
From Stdlib Require Import String Ascii.
From S2P Require Import Prelude Packet CtBase CtProtos Conntrack IpTables XtMatches XtTargets IpTablesFacts IpTablesSpec IptReplace IptReplaceFacts IptReplaceSpec.
From stdpp Require Import fin_maps relations.
#[local] Open Scope Z_scope.

Section System.
Context {M T W : Type} `{HX : IptExt M T W} `{HM : XtModules M T} `{HL : !XtLaws M T W}.
Abbreviation state := (xt_state (M:=M) (T:=T)).

(** A state, with the rules that registrations have lost. *)
Abbreviation books := (state * list (Z * ipt_entry M T))%type.

(** The system calls, packets, and the life of tables.  A table is taken away with the
    module it belongs to, which holds no reference on itself then.  A registration may
    fail in any way: for lack of memory, by its rules, by a signal, by its name. *)
Inductive xt_step : books → books → Prop :=
  | step_replace env sc fuel tmp len w ret c s s' lost : registered_once (M:=M) (T:=T) env →
      do_replace env sc fuel tmp len w s = Some (ret, c, s') → xt_step (s, lost) (s', lost)
  | step_add env sc name paddc len ret s s' lost :
      do_add_counters env sc name (Z.of_nat (length paddc)) paddc len s = Some (ret, s') → xt_step (s, lost) (s', lost)
  | step_info env sc name ret v s s' lost : get_info env sc name s = Some (ret, v, s') → xt_step (s, lost) (s', lost)
  | step_entries env sc name sz ret l s s' lost :
      get_entries env sc name sz s = Some (ret, l, s') → xt_step (s, lost) (s', lost)
  | step_packet fuel i skb hook inp out (w w' : W) v skb' s s' lost :
      table_packet fuel i skb hook inp out w s = Some (v, skb', w', s') → xt_step (s, lost) (s', lost)
  | step_register env sc fuel table repl w ret s s' lost : registered_once (M:=M) (T:=T) env →
      ipt_register_table env sc fuel table repl w s = Some (ret, s') →
      xt_step (s, lost) (s', lost_rules env sc fuel table repl w s ++ lost)
  | step_unregister i t s s' lost : x_tables s !! i = Some t →
      t_number (p_info (private t)) <= initial_entries (private t) → ipt_unregister_table i s = Some s' →
      xt_step (s, lost) (s', lost)
  | step_signal sig s lost : xt_step (s, lost) (mk_xt (x_refs s) sig (x_tables s), lost).

(** The invariant, with the lost references on the side of the base. *)
Definition books_wf (base : positive → Z) (b : books) : Prop :=
  xt_wf (λ q, base q + sum_refs entry_uses b.2 q) b.1.

Lemma xt_step_wf base b b' : xt_step b b' → books_wf base b → books_wf base b'.
Proof.
  unfold books_wf. intros HS HW. destruct HS as [env sc fuel tmp len w ret c s s' lost He E|env sc name paddc len ret s s' lost E|
    env sc name ret v s s' lost E|env sc name sz ret l s s' lost E|fuel i skb hook inp out w w' v skb' s s' lost E|
    env sc fuel table repl w ret s s' lost He E|i t s s' lost Hi Hn E|sig s lost]; cbn [fst snd] in *.
  - pose proof (do_replace_spec _ env sc fuel tmp len w s He HW) as H. rewrite E in H. apply H.
  - destruct (do_add_spec _ env sc name _ paddc len s HW eq_refl) as (ret1 & s1 & E1 & H & _). by rewrite E in E1; injection E1 as -> ->.
  - by eapply get_info_wf.
  - destruct (get_entries_spec _ env sc name sz s HW) as (ret1 & l1 & s1 & E1 & H & _). rewrite E in E1. injection E1 as -> -> ->.
    by apply (xt_wf_same _ s).
  - by eapply table_packet_wf.
  - pose proof (register_wf _ env sc fuel table repl w s ret s' He HW E) as [H1 H2 H3]. split; [done|done|].
    intros q. rewrite H3, sum_refs_app. lia.
  - by eapply unregister_wf.
  - destruct HW as [H1 H2 H3]. by split.
Qed.

(** C10: The books of the tables are right in every state.  Whatever tables are
    registered, replaced, read, counted up and removed, with whatever failures, and
    whatever packets pass through them: the walk along each table ends and passes as many
    entries as it has, names are unique, and each module has exactly the references it
    had without tables, one for each use in a rule, one for each table of its own
    that has more rules than it was registered with, and one for each use in the rules of
    a table that was refused after its check, because of a signal or of its name: these
    are never given back. *)
Theorem xt_books base sig s lost : rtc xt_step (mk_xt base sig [], []) (s, lost) →
  NoDup (tb_name <$> x_tables s) ∧
  (∀ t, t ∈ x_tables s → ∃ l, table_entries (p_info (private t)) = Some l ∧
     t_number (p_info (private t)) = Z.of_nat (length l)) ∧
  ∀ q, x_refs s q = base q + sum_refs table_uses (x_tables s) q + sum_refs entry_uses lost q.
Proof.
  intros HS. assert (books_wf base (s, lost)) as [H1 H2 H3].
  { apply (rtc_ind_r (λ b, books_wf base b) (mk_xt base sig [], [])) in HS; [done| |].
    - split; cbn; [constructor|constructor|intros q; lia].
    - intros b1 b2 _ Hstep HW. by apply (xt_step_wf _ b1). }
  cbn [fst snd] in *. split; [done|]. split.
  - intros t Ht. rewrite Forall_forall in H2. destruct (H2 t Ht) as (l & Hl & Hn & _). by exists l.
  - intros q. rewrite H3. lia.
Qed.

(** C11: A replacement is made completely or not at all.  In every consistent state
    [do_replace] returns, unless the new table cannot be read; the state is consistent
    afterwards.  Either it returns an error, and all tables and all reference counts are
    as before; or the table of that name, which had these hooks and as many entries as
    counters were asked for, is now the accepted new table, and user space has the
    counters of the old one as they were; only when these cannot be copied an error is
    returned with the new table in place. *)
Theorem replace_all_or_nothing base env sc fuel tmp len (w : W) s : registered_once (M:=M) (T:=T) env → xt_wf base s →
  match do_replace env sc fuel tmp len w s with
  | None => unreadable fuel (rp_valid_hooks tmp) (rp_entries tmp) (rp_size tmp) (rp_num_entries tmp)
              (rp_hook_entry tmp) (rp_underflow tmp)
  | Some (ret, c, s') => xt_wf base s' ∧ (untouched s ret c s' ∨ replaced sc fuel tmp w s ret c s')
  end.
Proof. apply do_replace_spec. Qed.

(** C26: Counters are added exactly.  In every consistent state [do_add_counters] returns;
    either with an error and nothing changed, or the table of that name has as many
    entries as there are counters, each entry has its own two counters increased, modulo
    [2^64], and nothing else has changed. *)
Theorem add_counters_exact base env sc name paddc len s : xt_wf base s →
  ∃ ret s', do_add_counters env sc name (Z.of_nat (length paddc)) paddc len s = Some (ret, s') ∧ xt_wf base s' ∧
    (ret < 0 ∧ refs_by (λ _, 0) s s' ∨ ret = 0 ∧ counters_added name paddc s s').
Proof. intros HW. by apply do_add_spec. Qed.
End System.

(** ** The extensions of the firmware *)
Definition codes (s : string) : list Z := (λ a, Z.of_nat (nat_of_ascii a)) <$> list_ascii_of_string s.

(** The names under which the extensions register; the modules have numbers. *)
Definition xt_match_ext (m : xt_match) : xt_ext :=
  match m with
  | X_tcp _ => mk_ext (codes "tcp") 0 (Some 1%positive)
  | X_udp _ => mk_ext (codes "udp") 0 (Some 1%positive)
  | X_icmp _ => mk_ext (codes "icmp") 0 None
  | X_multiport _ => mk_ext (codes "multiport") 0 (Some 2%positive)
  | X_multiport_v1 _ => mk_ext (codes "multiport") 1 (Some 2%positive)
  | X_conntrack _ => mk_ext (codes "conntrack") 0 (Some 3%positive)
  | X_state _ => mk_ext (codes "state") 0 (Some 4%positive)
  | X_limit _ => mk_ext (codes "limit") 0 (Some 5%positive)
  | X_iprange _ => mk_ext (codes "iprange") 0 (Some 6%positive)
  | X_length _ => mk_ext (codes "length") 0 (Some 7%positive)
  | X_mark _ => mk_ext (codes "mark") 0 (Some 8%positive)
  | X_ttl _ => mk_ext (codes "ttl") 0 (Some 9%positive)
  | X_tos _ => mk_ext (codes "tos") 0 (Some 10%positive)
  end.
Definition xt_target_ext (t : xt_target) : xt_ext :=
  match t with
  | X_TCPMSS _ => mk_ext (codes "TCPMSS") 0 (Some 11%positive)
  | X_REJECT _ => mk_ext (codes "REJECT") 0 (Some 12%positive)
  | X_SNAT _ => mk_ext (codes "SNAT") 0 None
  | X_DNAT _ => mk_ext (codes "DNAT") 0 None
  | X_MASQUERADE _ => mk_ext (codes "MASQUERADE") 0 (Some 13%positive)
  end.

#[export] Instance fw_modules : XtModules xt_match xt_target := {
  match_ext := xt_match_ext; target_ext := xt_target_ext }.

#[export] Instance fw_laws : XtLaws xt_match xt_target fw_world.
Proof.
  split.
  - intros m name ip hookmask w. destruct m; try done. cbn. by destruct (ipt_limit_checkentry _ _).
  - intros m skb inp out offset protoff w.
    assert (∀ r : bool * bool * xt_match, xt_match_ext r.2 = xt_match_ext m →
      xt_match_ext (let '(ok, drop, m1) := r in (ok, drop, m1, w)).1.2 = xt_match_ext m) as Hr by (by intros [[? ?] ?]).
    cbn [match_ext fw_modules ext_match fw_ext]. apply Hr. destruct m; cbn [xt_run_match];
      try done; try (by match goal with |- context [(?x, _)] => destruct x end).
    by destruct (ipt_limit_match _ _).
  - done.
  - intros t skb inp out hook w. cbn [target_ext fw_modules ext_target fw_ext]. destruct t; cbn [xt_run_target].
    + by destruct (ipt_tcpmss_target _ _ _ _) as [[? ?] ?].
    + by destruct (reject _ _ _ _) as [[? ?] ?].
    + by destruct (ipt_snat_target _ _ _ _).
    + by destruct (ipt_dnat_target _ _ _ _).
    + by destruct (masquerade_target _ _ _ _ _) as [[? ?] ?].
Qed.
