(* ===== verification/Firewall.v ===== *)
(** * The firmware's packet filter: [userfs/firewall.sh]

    The filter table that the script leaves in the kernel, as entries in the layout
    that [iptables] uses (the chains INPUT, FORWARD and OUTPUT, each closed by its
    policy, and the final error entry), loaded by [translate_table] and traversed by
    [ipt_do_table] with the extensions of [XtMatches] and [XtTargets].

    [net/netfilter] without [CONFIG_IP_NF_MATCH_MULTIPORT], as [def_config] has it,
    refuses the two rules that use the multiport match; the parameter [multiport] says
    whether they are there. *)
From S2P Require Import Prelude Packet CtBase TcpTrack CtProtos Conntrack NatProto NatCore IpTables XtMatches XtTargets IpTablesFacts IpTablesChains IpTablesSpec.
#[local] Open Scope Z_scope.

(** ** Building rules *)

(** [xtables_parse_interface]: the name and its mask; [None] is the error exit. *)
Definition pad_ifname (l : list Z) : list Z := take 16 (l ++ replicate 16 0).
Definition xtables_parse_interface (arg : list Z) : option (list Z * list Z) :=
  let vialen := length arg in
  if (16 <? vialen + 1)%nat then None
  else if (vialen =? 0)%nat then Some (pad_ifname [], pad_ifname [])
  else if List.last arg 0 =? 43 then Some (pad_ifname arg, pad_ifname (replicate (vialen - 1) 255))
  else Some (pad_ifname arg, pad_ifname (replicate (vialen + 1) 255)).

Definition ifname_part (arg : list Z) : list Z * list Z :=
  default (pad_ifname [], pad_ifname []) (xtables_parse_interface arg).

(** [-p proto -i inif -o outif] *)
Definition rule_ip (proto : Z) (inif outif : list Z) : ipt_ip :=
  let (i, im) := ifname_part inif in
  let (o, om) := ifname_part outif in
  mk_ipt_ip 0 0 0 0 i o im om proto 0 0.

(** Sizes of the match and target structures with their headers. *)
Definition match_size (m : xt_match) : Z :=
  32 + match m with
       | X_tcp _ => 12 | X_conntrack _ => 68 | X_multiport_v1 _ => 48 | _ => 0
       end.
Definition target_size (t : ipt_target xt_target) : Z :=
  match t with
  | T_standard n _ => n
  | T_error => 64
  | T_ext (X_TCPMSS _) | T_ext (X_REJECT _) => 36
  | T_ext _ => 52
  end.

Definition fw_rule (ip : ipt_ip) (ms : list xt_match) (t : ipt_target xt_target)
    : ipt_entry xt_match xt_target :=
  let to := fold_left Z.add (match_size <$> ms) sizeof_ipt_entry in
  mk_entry ip to (to + target_size t) 0 0 0 ms t.

Definition verdict_target (v : Z) : ipt_target xt_target := T_standard sizeof_ipt_standard_target (- v - 1).
Definition ACCEPT := verdict_target NF_ACCEPT.
Definition DROP := verdict_target NF_DROP.

(** [-m conntrack --ctstate] with the given bits. *)
Definition ctstate (mask : Z) : xt_match := X_conntrack (mk_ct_info mask 0 0 0 0 0 0 0 0 0 0 0 0 XT_CONNTRACK_STATE 0).
Definition st_INVALID := XT_CONNTRACK_STATE_INVALID.
Definition st_NEW := XT_CONNTRACK_STATE_BIT IP_CT_NEW.
Definition st_ESTABLISHED := XT_CONNTRACK_STATE_BIT IP_CT_ESTABLISHED.
Definition st_RELATED := XT_CONNTRACK_STATE_BIT IP_CT_RELATED.

Definition any_ports : Z * Z := (0, 65535).
Definition tcp_flags (mask cmp invflags : Z) : xt_match :=
  X_tcp (mk_xt_tcp any_ports any_ports 0 mask cmp invflags).
(** [! --syn] *)
Definition not_syn : xt_match :=
  tcp_flags (TH_SYN + TH_RST + TH_ACK + TH_FIN) TH_SYN XT_TCP_INV_FLAGS.
(** [--tcp-flags SYN,RST SYN] *)
Definition syn_not_rst : xt_match := tcp_flags (TH_SYN + TH_RST) TH_SYN 0.
Definition dport (p : Z) : xt_match := X_tcp (mk_xt_tcp any_ports (p, p) 0 0 0 0).
Definition dports (l : list Z) : xt_match :=
  X_multiport_v1 (mk_multiport_v1 IPT_MULTIPORT_DESTINATION (Z.of_nat (length l)) l
                    (replicate (length l) 0) 0).

(** ** The script *)
Definition dev_lo : list Z := [108; 111].
Definition dev_LAN : list Z := [101; 116; 104; 48; 46; 49].
Definition dev_EXT : list Z := [101; 116; 104; 49].

Definition INPUT_rules : list (ipt_entry xt_match xt_target) :=
  [ fw_rule (rule_ip 0 dev_lo []) [] ACCEPT;
    fw_rule (rule_ip 0 dev_LAN []) [] ACCEPT;
    fw_rule (rule_ip 0 [] []) [ctstate (st_ESTABLISHED + st_RELATED)] ACCEPT;
    fw_rule (rule_ip 0 [] []) [ctstate st_INVALID] DROP;
    fw_rule (rule_ip IPPROTO_TCP [] []) [not_syn; ctstate st_NEW] DROP;
    fw_rule (rule_ip 0 [] []) [] DROP ].

Definition FORWARD_rules (multiport : bool) : list (ipt_entry xt_match xt_target) :=
  [ fw_rule (rule_ip IPPROTO_TCP [] []) [syn_not_rst] (T_ext (X_TCPMSS IPT_TCPMSS_CLAMP_PMTU));
    fw_rule (rule_ip 0 [] []) [ctstate (st_NEW + st_ESTABLISHED + st_RELATED)] ACCEPT;
    fw_rule (rule_ip IPPROTO_TCP [] []) [ctstate st_NEW; dport 22] ACCEPT ]
  ++ (if multiport then
        [ fw_rule (rule_ip IPPROTO_TCP [] [])
            [ctstate st_NEW; dports [80; 443; 995; 993; 25; 25565; 5222; 5001; 5000]] ACCEPT;
          fw_rule (rule_ip IPPROTO_UDP [] [])
            [ctstate st_NEW; dports [80; 443; 25565; 5222; 5001]] ACCEPT ]
      else [])
  ++ [ fw_rule (rule_ip 0 [] []) [ctstate st_INVALID] DROP;
       fw_rule (rule_ip 0 dev_LAN dev_EXT) [] ACCEPT;
       fw_rule (rule_ip 0 dev_EXT dev_LAN) [] (T_ext (X_REJECT IPT_ICMP_PORT_UNREACHABLE));
       fw_rule (rule_ip 0 [] []) [] DROP ].

Definition OUTPUT_rules : list (ipt_entry xt_match xt_target) :=
  [ fw_rule (rule_ip 0 [] dev_lo) [] ACCEPT;
    fw_rule (rule_ip 0 [] dev_LAN) [] ACCEPT;
    fw_rule (rule_ip 0 [] []) [ctstate (st_NEW + st_ESTABLISHED + st_RELATED)] ACCEPT;
    fw_rule (rule_ip IPPROTO_TCP [] []) [not_syn; ctstate st_NEW] DROP;
    fw_rule (rule_ip 0 [] []) [] DROP ].

Definition filter_entries (multiport : bool) : list (ipt_entry xt_match xt_target) :=
  INPUT_rules ++ FORWARD_rules multiport ++ OUTPUT_rules ++ [fw_rule (rule_ip 0 [] []) [] T_error].

Definition rules_size (l : list (ipt_entry xt_match xt_target)) : Z :=
  fold_left Z.add (next_offset <$> l) 0.

(** Hook entries and underflows as [iptables] sets them; 0xFFFFFFFF for the hooks the
    table does not have. *)
Definition chain_starts (multiport : bool) (hook : Z) : Z :=
  if hook =? NF_IP_LOCAL_IN then 0
  else if hook =? NF_IP_FORWARD then rules_size INPUT_rules
  else if hook =? NF_IP_LOCAL_OUT then rules_size (INPUT_rules ++ FORWARD_rules multiport)
  else 4294967295.
Definition policy_size := sizeof_ipt_entry + sizeof_ipt_standard_target.
Definition chain_policies (multiport : bool) (hook : Z) : Z :=
  if hook =? NF_IP_LOCAL_IN then rules_size INPUT_rules - policy_size
  else if hook =? NF_IP_FORWARD then rules_size (INPUT_rules ++ FORWARD_rules multiport) - policy_size
  else if hook =? NF_IP_LOCAL_OUT
  then rules_size (INPUT_rules ++ FORWARD_rules multiport ++ OUTPUT_rules) - policy_size
  else 4294967295.

Definition FILTER_VALID_HOOKS := 14.

Definition load_filter (multiport : bool) (w : fw_world) : option (Z * xt_table_info) :=
  let entries := filter_entries multiport in
  translate_table 200 name_filter FILTER_VALID_HOOKS entries (rules_size entries)
    (Z.of_nat (length entries)) (chain_starts multiport) (chain_policies multiport) w.

(** ** The nat table of the script

    The chains PREROUTING, POSTROUTING and OUTPUT; only POSTROUTING has rules.  The
    range of the MASQUERADE rule is as [iptables] leaves it without [--to-ports]; it is a
    parameter since the hardware-NAT code rewrites it. *)
Definition LAN_NET := htonl 3232236032.
Definition LAN_MASK := htonl 4294967040.
Definition WAN_IP := htonl 3232235806.

(** [-o outif -s 192.168.2.0/24] *)
Definition from_LAN (outif : list Z) : ipt_ip :=
  let (i, im) := ifname_part [] in
  let (o, om) := ifname_part outif in
  mk_ipt_ip LAN_NET 0 LAN_MASK 0 i o im om 0 0 0.

Definition no_range : ip_nat_multi_range := mk_mr 1 (mk_range 0 0 0 0 0).
Definition masq_rule (mr : ip_nat_multi_range) : ipt_entry xt_match xt_target :=
  fw_rule (from_LAN dev_EXT) [] (T_ext (X_MASQUERADE mr)).
Definition POSTROUTING_rules (mr : ip_nat_multi_range) : list (ipt_entry xt_match xt_target) :=
  [ masq_rule mr;
    fw_rule (rule_ip 0 [] dev_LAN) []
      (T_ext (X_SNAT (mk_mr 1 (mk_range IP_NAT_RANGE_MAP_IPS WAN_IP WAN_IP 0 0))));
    fw_rule (rule_ip 0 [] []) [] ACCEPT ].

Definition nat_entries : list (ipt_entry xt_match xt_target) :=
  [fw_rule (rule_ip 0 [] []) [] ACCEPT] ++ POSTROUTING_rules no_range
  ++ [fw_rule (rule_ip 0 [] []) [] ACCEPT; fw_rule (rule_ip 0 [] []) [] T_error].

Definition NAT_VALID_HOOKS :=
  Z.lor (Z.shiftl 1 NF_IP_PRE_ROUTING) (Z.lor (Z.shiftl 1 NF_IP_POST_ROUTING) (Z.shiftl 1 NF_IP_LOCAL_OUT)).
Definition nat_starts (hook : Z) : Z :=
  if hook =? NF_IP_PRE_ROUTING then 0
  else if hook =? NF_IP_POST_ROUTING then policy_size
  else if hook =? NF_IP_LOCAL_OUT then policy_size + rules_size (POSTROUTING_rules no_range)
  else 4294967295.
Definition nat_policies (hook : Z) : Z :=
  if hook =? NF_IP_PRE_ROUTING then 0
  else if hook =? NF_IP_POST_ROUTING then rules_size (POSTROUTING_rules no_range)
  else if hook =? NF_IP_LOCAL_OUT then policy_size + rules_size (POSTROUTING_rules no_range)
  else 4294967295.

Definition load_nat (w : fw_world) : option (Z * xt_table_info) :=
  translate_table 200 name_nat NAT_VALID_HOOKS nat_entries (rules_size nat_entries)
    (Z.of_nat (length nat_entries)) nat_starts nat_policies w.
