(* ===== verification/FirewallFacts.v ===== *)
(** * What the firmware's packet filter does

    A chain without jumps is a list of rules of which the first that matches decides
    ([flat_run]); the table as loaded holds the chains of the script in this form. *)
From S2P Require Import Prelude Packet CtBase TcpTrack CtProtos Conntrack NatProto NatCore IpTables XtMatches XtTargets IpTablesFacts IpTablesChains IpTablesSpec Firewall.
From stdpp Require Import fin_maps.
#[local] Open Scope Z_scope.

Abbreviation fw_entry := (ipt_entry xt_match xt_target).

(** ** Chains without jumps *)
Section Flat.
Context (inp out : option net_device) (hook offset : Z).

Fixpoint flat_run (rules : list fw_entry) (skb : sk_buff) (w : fw_world) : option (Z * sk_buff * fw_world) :=
  match rules with
  | [] => None
  | e :: rules =>
      let '(o, hotdrop, _, skb, w) := exec_rule e skb inp out hook offset w in
      match o with
      | RO_next => if hotdrop : bool then Some (NF_DROP, skb, w) else flat_run rules skb w
      | RO_verdict v => Some (if hotdrop then NF_DROP else v, skb, w)
      | _ => None
      end
  end.

(** An entry of the table and the rule it comes from: counters and [comefrom], which
    traversals change, do not matter. *)
Record like (e e' : fw_entry) : Prop := {
  lk_ip : e_ip e' = e_ip e; lk_next : next_offset e' = next_offset e;
  lk_matches : e_matches e' = e_matches e; lk_target : e_target e' = e_target e }.

(** [rules] stand one behind the other from [pos]. *)
Fixpoint placed (tbl : gmap Z fw_entry) (pos : Z) (rules : list fw_entry) : Prop :=
  match rules with
  | [] => True
  | e :: rules =>
      (∃ e', tbl !! pos = Some e' ∧ like e e') ∧ 0 < next_offset e ∧
      placed tbl (pos + next_offset e) rules
  end.

Lemma placed_insert rules : ∀ tbl pos x e, x < pos → placed tbl pos rules →
  placed (<[x := e]> tbl) pos rules.
Proof.
  induction rules as [|r rules IH]; intros tbl pos x e Hx; [done|]. intros (Hp & Hn & Hr).
  split_and!; [by rewrite lookup_insert_ne by lia|done|]. apply IH; [lia|done].
Qed.

Lemma exec_like (e e0 : fw_entry) skb w o hd e1 skb1 w1 : like e e0 →
  exec_rule e skb inp out hook offset w = (o, hd, e1, skb1, w1) →
  ∃ e1', exec_rule e0 skb inp out hook offset w = (o, hd, e1', skb1, w1) ∧ next_offset e1' = next_offset e.
Proof.
  intros [H1 H2 H3 H4]. destruct e as [ip to no cf bc pc ms tg], e0 as [ip0 to0 no0 cf0 bc0 pc0 ms0 tg0].
  cbn [e_ip next_offset e_matches e_target] in *. subst. unfold exec_rule.
  cbn [e_ip e_matches e_target update upd_comefrom upd_e_matches upd_bcnt upd_pcnt upd_e_target].
  destruct (negb (ip_packet_match _ _ _ _ _)); [intros [= <- <- _ <- <-]; by eexists|].
  destruct (do_matches _ _ _ _ _ _ _) as [[[ok hd0] ms'] w2]. destruct (negb ok); [intros [= <- <- _ <- <-]; by eexists|].
  destruct tg as [sz v| |t]; [intros [= <- <- _ <- <-]; by eexists..|].
  destruct (ext_target _ _ _ _ _ _) as [[[v skb'] t'] w3]. intros [= <- <- _ <- <-]. by eexists.
Qed.

Lemma flat_loop rules : ∀ tbl pos back skb w v skb' w', placed tbl pos rules →
  flat_run rules skb w = Some (v, skb', w') →
  ∃ tbl', ∀ k, ipt_do_table_loop (length rules + k) tbl pos back skb inp out hook offset w
               = Some (v, tbl', skb', w').
Proof.
  induction rules as [|e rules IH]; intros tbl pos back skb w v skb' w' Hp; [done|].
  destruct Hp as ((e0 & He & Hlk) & Hn & Hr). cbn [flat_run length].
  destruct (exec_rule e skb inp out hook offset w) as [[[[o hd] e'] skb1] w1] eqn:E.
  destruct (exec_like _ _ _ _ _ _ _ _ _ Hlk E) as (e1 & E1 & Hno).
  assert (∀ k, ipt_do_table_loop (S k) tbl pos back skb inp out hook offset w =
            match o with
            | RO_next => if hd then Some (NF_DROP, <[pos := e1]> tbl, skb1, w1)
                         else ipt_do_table_loop k (<[pos := e1]> tbl)
                                (pos + next_offset e) back skb1 inp out hook offset w1
            | RO_verdict v => Some (if hd then NF_DROP else v, <[pos := e1]> tbl, skb1, w1)
            | _ => ipt_do_table_loop (S k) tbl pos back skb inp out hook offset w
            end) as Hstep.
  { intros k. destruct o; try done; cbn [ipt_do_table_loop]; rewrite He; cbn [mbind option_bind];
      rewrite E1; [|done]. by rewrite Hno. }
  destruct o as [|vd| |]; [| |done..].
  - destruct hd.
    + intros [= <- <- <-]. eexists. intros k. apply Hstep.
    + intros Hf. destruct (IH (<[pos := e1]> tbl) (pos + next_offset e) back skb1 w1 v skb' w')
        as [tbl' Hl]; [apply placed_insert; [lia|done]|done|].
      exists tbl'. intros k. rewrite Nat.add_succ_l, Hstep. apply Hl.
  - intros [= <- <- <-]. eexists. intros k. apply Hstep.
Qed.
End Flat.

(** ** What traversals change in a table *)

(** A MASQUERADE rule whose range can be used; the hardware-NAT hooks keep it so. *)
Definition mr_ok (mr : ip_nat_multi_range) : Prop :=
  flag (r_flags (range0 mr)) IP_NAT_RANGE_MAP_IPS = false ∧
  ntohs (r_min (range0 mr)) <= ntohs (r_max (range0 mr)).

Definition target_evolves (t t' : ipt_target xt_target) : Prop :=
  match t with
  | T_ext (X_MASQUERADE mr) => ∃ mr', t' = T_ext (X_MASQUERADE mr') ∧ (mr_ok mr → mr_ok mr')
  | _ => t' = t
  end.
Definition match_evolves (m m' : xt_match) : Prop :=
  match m with X_limit _ => ∃ r, m' = X_limit r | _ => m' = m end.
Record evolves (e e' : fw_entry) : Prop := {
  ev_ip : e_ip e' = e_ip e; ev_next : next_offset e' = next_offset e;
  ev_matches : Forall2 match_evolves (e_matches e) (e_matches e');
  ev_target : target_evolves (e_target e) (e_target e') }.

#[export] Instance match_evolves_preorder : PreOrder match_evolves.
Proof.
  split.
  - intros m. destruct m; try done. by eexists.
  - intros m1 m2 m3 H1 H2. destruct m1; simpl in *; try (by subst). destruct H1 as [r ->]. exact H2.
Qed.
#[export] Instance target_evolves_preorder : PreOrder target_evolves.
Proof.
  split.
  - intros t. destruct t as [| |[]]; try done. by eexists.
  - intros t1 t2 t3 H1 H2. destruct t1 as [| |[]]; simpl in *; try (by subst).
    destruct H1 as (mr1 & -> & H1), H2 as (mr2 & -> & H2). naive_solver.
Qed.
#[export] Instance evolves_preorder : PreOrder evolves.
Proof.
  split.
  - intros e. by split.
  - intros e1 e2 e3 [A1 A2 A3 A4] [B1 B2 B3 B4]. split; [congruence..|by etrans|by etrans].
Qed.

Lemma shnat_range_ok w skb mr : mr_ok mr → mr_ok (mk_mr (rangesize mr) (shnat_range w skb (range0 mr))).
Proof.
  intros [Hf Hp]. unfold mr_ok, shnat_range. cbn [range0]. destruct (w_shnat w); [|done].
  destruct (_ && _); [split; [done|reflexivity]|]. destruct (_ =? 1); [|done].
  split; [done|]. vm_compute. discriminate.
Qed.

Lemma run_match_evolves m skb offset protoff w ok hd m' :
  xt_run_match m skb offset protoff w = (ok, hd, m') → match_evolves m m'.
Proof.
  destruct m; cbn [xt_run_match match_evolves]; try (by intros [= _ _ <-]);
    try (destruct (tcp_match _ _ _ _) || destruct (udp_match _ _ _ _) || destruct (icmp_match _ _ _ _)
         || destruct (multiport_match _ _ _ _) || destruct (multiport_match_v1 _ _ _ _); by intros [= _ _ <-]).
  destruct (ipt_limit_match _ _). intros [= _ _ <-]. by eexists.
Qed.

Lemma do_matches_evolve ms skb inp out offset : ∀ hd (w : fw_world) ok hd' ms' w',
  do_matches ms skb inp out offset hd w = (ok, hd', ms', w') → Forall2 match_evolves ms ms'.
Proof.
  induction ms as [|m ms IH]; intros hd w ok hd' ms' w'; [intros [= _ _ <- _]; constructor|]. cbn [do_matches].
  unfold ext_match, fw_ext. destruct (xt_run_match m skb offset _ w) as [[ok1 drop] m1] eqn:E1.
  apply run_match_evolves in E1. destruct ok1; [|intros [= _ _ <- _]; by constructor].
  destruct (do_matches ms _ _ _ _ _ _) as [[[? ?] ?] ?] eqn:E2. intros [= _ _ <- _].
  constructor; [done|]. by eapply IH.
Qed.

Lemma run_target_evolves t skb out hook w v skb' t' w' :
  xt_run_target t skb out hook w = (v, skb', t', w') → target_evolves (T_ext t) (T_ext t').
Proof.
  destruct t as [mss|r|mr|mr|mr]; cbn [xt_run_target target_evolves].
  - destruct (ipt_tcpmss_target _ _ _ _) as [[? ?] ?]. by intros [= _ _ <- _].
  - destruct (reject _ _ _ _) as [[? ?] ?]. by intros [= _ _ <- _].
  - destruct (ipt_snat_target _ _ _ _). by intros [= _ _ <- _].
  - destruct (ipt_dnat_target _ _ _ _). by intros [= _ _ <- _].
  - destruct (masquerade_target mr skb out hook w) as [[v1 mr'] w1] eqn:E. intros [= _ _ <- _].
    exists mr'. split; [done|]. unfold masquerade_target in E.
    destruct (p ← nfct skb; _) as [[[p ct] dev]|]; [|by injection E as _ <- _].
    destruct (_ =? 0); [by injection E as _ <- _|]. destruct (_ =? 0); [by injection E as _ <- _|].
    destruct (setup_for _ _ _ _). injection E as _ <- _. apply shnat_range_ok.
Qed.

Lemma exec_evolves (e : fw_entry) skb inp out hook offset w o hd e' skb' w' :
  exec_rule e skb inp out hook offset w = (o, hd, e', skb', w') → evolves e e'.
Proof.
  unfold exec_rule. destruct (negb (ip_packet_match _ _ _ _ _)); [by intros [= _ _ <- _ _]|].
  destruct (do_matches _ _ _ _ _ _ _) as [[[ok hd1] ms'] w1] eqn:Em. apply do_matches_evolve in Em.
  destruct (negb ok); [by intros [= _ _ <- _ _]|].
  cbn [e_target update upd_e_matches upd_bcnt upd_pcnt].
  destruct (e_target e) as [sz v| |t] eqn:Et; [intros [= _ _ <- _ _]; by split..|].
  unfold ext_target, fw_ext. destruct (xt_run_target t skb out hook w1) as [[[v skb1] t'] w2] eqn:Er.
  intros [= _ _ <- _ _]. split; [done..|]. cbn [e_target update upd_e_target]. rewrite Et. by eapply run_target_evolves.
Qed.

(** Tables of which one is the other after some traversals. *)
Definition tbl_evolves (tbl tbl' : gmap Z fw_entry) : Prop :=
  ∀ x, option_Forall2 evolves (tbl !! x) (tbl' !! x).
#[export] Instance tbl_evolves_preorder : PreOrder tbl_evolves.
Proof.
  split; [intros t x; reflexivity|]. intros t1 t2 t3 H1 H2 x. specialize (H1 x). specialize (H2 x). by etrans.
Qed.
Lemma tbl_evolves_insert (tbl : gmap Z fw_entry) x e e' : tbl !! x = Some e → evolves e e' → tbl_evolves tbl (<[x := e']> tbl).
Proof.
  intros Hx He y. destruct (decide (y = x)) as [->|Hne].
  - rewrite Hx, lookup_insert_eq. by constructor.
  - by rewrite lookup_insert_ne.
Qed.

Lemma loop_evolves fuel : ∀ (tbl : gmap Z fw_entry) e back skb inp out hook offset w v tbl' skb' w',
  ipt_do_table_loop fuel tbl e back skb inp out hook offset w = Some (v, tbl', skb', w') → tbl_evolves tbl tbl'.
Proof.
  induction fuel as [|fuel IH]; intros tbl e back skb inp out hook offset w v tbl' skb' w'; [done|].
  cbn [ipt_do_table_loop]. intros (en & Hen & H)%bind_Some.
  destruct (exec_rule en skb inp out hook offset w) as [[[[o hd] e1] skb1] w1] eqn:E.
  apply exec_evolves in E. pose proof (tbl_evolves_insert _ _ _ _ Hen E) as Hi.
  assert (∀ t x b, tbl_evolves tbl t →
    (if hd then Some (NF_DROP, t, skb1, w1) else ipt_do_table_loop fuel t x b skb1 inp out hook offset w1)
    = Some (v, tbl', skb', w') → tbl_evolves tbl tbl') as Hc.
  { intros t x b Ht Hl. etrans; [exact Ht|]. destruct hd; [by injection Hl as _ -> _ _|by eapply IH]. }
  destruct o as [|vd| |j].
  - by eapply Hc.
  - by injection H as _ <- _ _.
  - apply bind_Some in H as (b & _ & H). by eapply Hc.
  - destruct (_ && _); [|by eapply Hc]. apply bind_Some in H as (n & Hn & H). eapply Hc; [|exact H].
    etrans; [exact Hi|]. eapply tbl_evolves_insert; [exact Hn|]. by split.
Qed.

(** Rules that no traversal changes. *)
Definition static_rule (e : fw_entry) : bool :=
  forallb (λ m, match m with X_limit _ => false | _ => true end) (e_matches e)
  && match e_target e with T_ext (X_MASQUERADE _) => false | _ => true end.

Lemma like_evolves e e1 e2 : static_rule e = true → like e e1 → evolves e1 e2 → like e e2.
Proof.
  intros [Hs Ht]%andb_true_iff [L1 L2 L3 L4] [E1 E2 E3 E4]. split; [congruence..| |].
  - rewrite L3 in E3. clear - Hs E3. revert Hs. induction E3 as [|m m' l l' Hm _ IH]; [done|]. simpl.
    intros [H1 H2]%andb_true_iff. f_equal; [by destruct m|by apply IH].
  - rewrite L4 in E4. destruct (e_target e) as [| |[]]; done.
Qed.

Lemma placed_evolves rules : ∀ tbl tbl' pos, forallb static_rule rules = true → tbl_evolves tbl tbl' →
  placed tbl pos rules → placed tbl' pos rules.
Proof.
  induction rules as [|e rules IH]; intros tbl tbl' pos; [done|]. cbn [forallb placed].
  intros [Hs Hr]%andb_true_iff Hev ((e1 & He & Hlk) & Hn & Hp). split_and!; [|done|by eapply IH].
  specialize (Hev pos). rewrite He in Hev. inversion Hev as [? e2 Hee E1 E2|]; subst.
  exists e2. split; [done|]. by eapply like_evolves.
Qed.

(** ** The filter table in service *)

(** The tables that the kernel has after the script was run and any packets went through
    any of the table's hooks. *)
Inductive in_service (mp : bool) : @xt_table_info xt_match xt_target → Prop :=
  | sv_loaded w0 info : load_filter mp w0 = Some (0, info) → in_service mp info
  | sv_packet info fuel skb hook inp out w v tbl' skb' w' :
      in_service mp info →
      ipt_do_table fuel info skb hook inp out w = Some (v, tbl', skb', w') →
      in_service mp (mk_info (t_size info) (t_number info) (hook_entry info) (underflow info) tbl').

Lemma rules_static mp :
  forallb static_rule (INPUT_rules ++ FORWARD_rules mp ++ OUTPUT_rules) = true.
Proof. destruct mp; vm_compute; reflexivity. Qed.

(** [placed] of a concrete table. *)
Ltac placed_goals :=
  repeat match goal with
  | |- True => exact I
  | |- _ ∧ _ => split
  | |- ∃ _, _ => eexists
  | |- like _ _ => by split
  | |- _ = _ => reflexivity
  end.

Lemma loaded mp info : in_service mp info →
  (∀ h, 1 <= h <= 3 → hook_entry info h = chain_starts mp h) ∧
  placed (t_entries info) (chain_starts mp 1) INPUT_rules ∧
  placed (t_entries info) (chain_starts mp 2) (FORWARD_rules mp) ∧
  placed (t_entries info) (chain_starts mp 3) OUTPUT_rules.
Proof.
  induction 1 as [w0 info H|info fuel skb hook inp out w v tbl' skb' w' _ (IH & I1 & I2 & I3) H].
  - assert (∀ h, 1 <= h <= 3 → h = 1 ∨ h = 2 ∨ h = 3) as Hh by lia.
    destruct mp; vm_compute in H; injection H as <-.
    all: split; [intros h [->|[->| ->]]%Hh; vm_compute; reflexivity|].
    all: vm_compute; placed_goals.
  - apply loop_evolves in H. pose proof (rules_static mp) as Hs. rewrite !forallb_app, !andb_true_iff in Hs.
    cbn [hook_entry t_entries]. split; [done|]. split_and!; (eapply placed_evolves; [|done..]); tauto.
Qed.

(** ** Rules *)

(** [-i]/[-o]: the interface has the name given. *)
Definition via (name : list Z) (dev : option net_device) : bool :=
  negb (iface_differs (indev_name dev) (ifname_part name).1 (ifname_part name).2).

Lemma rule_ip_match ip inp out proto i o isfrag :
  ip_packet_match ip (indev_name inp) (indev_name out) (rule_ip proto i o) isfrag
  = via i inp && via o out && ((proto =? 0) || (protocol ip =? proto)).
Proof.
  unfold rule_ip, via. destruct (ifname_part i) as [ni mi], (ifname_part o) as [no mo].
  unfold ip_packet_match, FWINV.
  cbn [ip_src ip_dst ip_smsk ip_dmsk iniface outiface iniface_mask outiface_mask ip_proto ip_flags ip_invflags fst snd].
  rewrite !Z.land_0_r. cbn [Z.eqb negb xorb orb]. unfold flag. cbn [Z.land Z.eqb negb xorb andb]. rewrite !xorb_false_r.
  destruct (iface_differs _ ni mi), (iface_differs _ no mo), (proto =? 0), (protocol ip =? proto); done.
Qed.

Lemma via_nil dev : via [] dev = true.
Proof.
  unfold via, iface_differs. change (ifname_part []).2 with (replicate 16 0). simpl.
  by rewrite !(ld32_zeros (replicate 16 0)), !Z.land_0_r.
Qed.

(** The state bits the conntrack match looks at. *)
Definition statebits (w : fw_world) (skb : sk_buff) : Z :=
  Z.lor (ct_statebit w skb) (match skb_ct w skb with Some c => ct_nat_statebits c | None => 0 end).

Lemma ctstate_match mask skb offset protoff w :
  xt_run_match (ctstate mask) skb offset protoff w = (flag (statebits w skb) mask, false, ctstate mask).
Proof.
  unfold xt_run_match, ctstate, conntrack_match. cbn [si_flags si_invflags statemask].
  change (flag XT_CONNTRACK_STATE XT_CONNTRACK_STATE) with true.
  change (flag 0 XT_CONNTRACK_STATE) with false. rewrite xorb_false_r.
  unfold statebits. destruct (flag _ mask); done.
Qed.

Lemma do_matches_state ms skb inp out offset : ∀ hd (w : fw_world),
  (do_matches ms skb inp out offset hd w).2 = w.
Proof.
  induction ms as [|m ms IH]; intros hd w; [done|]. cbn [do_matches]. unfold ext_match, fw_ext.
  destruct (xt_run_match m skb offset _ w) as [[ok drop] m']. destruct ok; [|done].
  specialize (IH (hd || drop) w). by destruct (do_matches ms _ _ _ _ _ _) as [[[? ?] ?] ?].
Qed.

(** A rule with an absolute verdict: it decides or does not, and changes neither packet
    nor state. *)
Lemma exec_verdict ip ms v skb inp out hook offset w : 0 <= v < 4 →
  ∃ e' hd m, exec_rule (fw_rule ip ms (verdict_target v)) skb inp out hook offset w
             = (if m : bool then RO_verdict v else RO_next, hd, e', skb, w) ∧
    let pm := ip_packet_match (skb_iph skb) (indev_name inp) (indev_name out) ip (negb (offset =? 0)) in
    (ms = [] → hd = false ∧ m = pm) ∧
    (∀ mask, ms = [ctstate mask] → hd = false ∧ m = pm && flag (statebits w skb) mask).
Proof.
  intros Hv. unfold exec_rule, fw_rule. cbn [e_ip e_matches e_target].
  destruct (ip_packet_match _ _ _ ip _) eqn:Epm; cbn [negb].
  2: { eexists _, false, false. split; [done|]. split; [done|]. by intros mask _. }
  pose proof (do_matches_state ms skb inp out offset false w) as Hw.
  destruct (do_matches ms skb inp out offset false w) as [[[ok hd] ms'] w1] eqn:Ed. cbn [snd] in Hw. subst w1.
  assert (ms = [] → hd = false ∧ ok = true) as H0.
  { intros ->. simpl in Ed. by injection Ed as <- <- <-. }
  assert (∀ mask, ms = [ctstate mask] → hd = false ∧ ok = flag (statebits w skb) mask) as H1.
  { intros mask ->. cbn [do_matches] in Ed. unfold ext_match, fw_ext in Ed. rewrite ctstate_match in Ed.
    destruct (flag _ mask); by injection Ed as <- <- <-. }
  destruct ok; cbn [negb].
  - eexists _, hd, true. unfold verdict_target. cbn [e_target update upd_e_matches upd_bcnt upd_pcnt].
    rewrite (proj2 (Z.ltb_lt _ _)) by lia.
    rewrite (proj2 (Z.eqb_neq (- v - 1) IPT_RETURN)) by (unfold IPT_RETURN, NF_REPEAT; lia). cbn [negb].
    replace (- (- v - 1) - 1) with v by lia. split; [done|]. naive_solver.
  - eexists _, hd, false. split; [done|]. split; [naive_solver|]. intros mask Hm. by destruct (H1 mask Hm) as [-> <-].
Qed.
