(* ===== verification/FirewallSpec.v ===== *)
(** * The verdicts of the firmware's packet filter

    For every packet and every state of the tracker: what the INPUT, FORWARD and OUTPUT
    chains of [userfs/firewall.sh] decide once loaded. *)
From S2P Require Import Prelude Packet CtBase TcpTrack CtProtos Conntrack NatProto NatCore IpTables XtMatches XtTargets IpTablesFacts IpTablesChains IpTablesSpec Firewall FirewallFacts.
#[local] Open Scope Z_scope.

(** ** Interfaces and states in the terms of the script *)

(** The interface is called [name]: a C string in an array of 16 bytes. *)
Definition dev_named (name : list Z) (dev : option net_device) : bool :=
  match dev with
  | Some d => bool_decide (take (S (length name)) (dev_name d) = name ++ [0])
  | None => false
  end.

Definition dev_ok (dev : option net_device) : Prop :=
  match dev with Some d => length (dev_name d) = 16%nat ∧ Forall is_u8 (dev_name d) | None => True end.

Lemma land_lxor_zero x y m : Z.land (Z.lxor x y) m = 0 ↔ Z.land x m = Z.land y m.
Proof.
  assert (Z.land (Z.lxor x y) m = Z.lxor (Z.land x m) (Z.land y m)) as ->.
  { apply Z.bits_inj. intros n. rewrite Z.land_spec, !Z.lxor_spec, !Z.land_spec.
    by destruct (Z.testbit x n), (Z.testbit y n), (Z.testbit m n). }
  split; [apply Z.lxor_eq|intros ->; apply Z.lxor_nilpotent].
Qed.

Lemma iface_same dev name mask : iface_differs dev name mask = false ↔
  let same i := Z.land (ld32 dev i) (ld32 mask i) = Z.land (ld32 name i) (ld32 mask i) in
  same 0 ∧ same 4 ∧ same 8 ∧ same 12.
Proof.
  unfold iface_differs. cbn [fold_left]. rewrite negb_false_iff, Z.eqb_eq, !Z.lor_eq_0_iff, !land_lxor_zero.
  cbn [Z.mul Pos.mul]. tauto.
Qed.

(** Masks of whole bytes. *)
Lemma land_bytes x : Z.land x 4294967295 = x mod 4294967296 ∧ Z.land x 16777215 = x mod 16777216 ∧
  Z.land x 255 = x mod 256.
Proof.
  split_and!; [exact (Z.land_ones x 32 ltac:(lia))|exact (Z.land_ones x 24 ltac:(lia))|
    exact (Z.land_ones x 8 ltac:(lia))].
Qed.

Lemma ld32_words a b c d a' b' c' d' l :
  ld32 (a :: b :: c :: d :: a' :: b' :: c' :: d' :: l) 0 = a + 256 * b + 65536 * (c + 256 * d) ∧
  ld32 (a :: b :: c :: d :: a' :: b' :: c' :: d' :: l) 4 = a' + 256 * b' + 65536 * (c' + 256 * d').
Proof. done. Qed.

(** The names of the script, compared word by word under their masks. *)
Lemma via_named dev : dev_ok dev →
  via dev_lo dev = dev_named dev_lo dev ∧ via dev_LAN dev = dev_named dev_LAN dev ∧
  via dev_EXT dev = dev_named dev_EXT dev.
Proof.
  destruct dev as [[l ix mac]|]; [|by vm_compute]. intros [Hlen Hl]. cbn [dev_name] in *.
  do 8 (destruct l as [|? l]; [done|]). clear Hlen.
  rewrite !Forall_cons_iff in Hl. unfold is_u8 in Hl.
  destruct Hl as (H0 & H1 & H2 & H3 & H4 & H5 & H6 & H7 & _).
  unfold via, dev_named.
  split_and!; apply eq_true_iff_eq; rewrite negb_true_iff, iface_same, bool_decide_eq_true; cbn zeta;
    cbn [indev_name dev_name]; rewrite (proj1 (ld32_words _ _ _ _ _ _ _ _ _)), (proj2 (ld32_words _ _ _ _ _ _ _ _ _)).
  - change (ld32 (ifname_part dev_lo).2 0) with 16777215. change (ld32 (ifname_part dev_lo).1 0) with 28524.
    change (ld32 (ifname_part dev_lo).2 4) with 0. change (ld32 (ifname_part dev_lo).2 8) with 0.
    change (ld32 (ifname_part dev_lo).2 12) with 0. rewrite !Z.land_0_r, !(proj1 (proj2 (land_bytes _))).
    cbn [take length app dev_lo]. split; [|intros [= -> -> ->]; repeat split; lia].
    intros (Hw & _). assert (z = 108 ∧ z0 = 111 ∧ z1 = 0) as (-> & -> & ->) by lia. done.
  - change (ld32 (ifname_part dev_LAN).2 0) with 4294967295. change (ld32 (ifname_part dev_LAN).1 0) with 812151909.
    change (ld32 (ifname_part dev_LAN).2 4) with 16777215. change (ld32 (ifname_part dev_LAN).1 4) with 12590.
    change (ld32 (ifname_part dev_LAN).2 8) with 0. change (ld32 (ifname_part dev_LAN).2 12) with 0.
    rewrite !Z.land_0_r, !(proj1 (proj2 (land_bytes _))), !(proj1 (land_bytes _)).
    cbn [take length app dev_LAN]. split; [|intros [= -> -> -> -> -> -> ->]; repeat split; lia].
    intros (Hw & Hw' & _). assert (z = 101 ∧ z0 = 116 ∧ z1 = 104 ∧ z2 = 48) as (-> & -> & -> & ->) by (clear Hw'; lia).
    assert (z3 = 46 ∧ z4 = 49 ∧ z5 = 0) as (-> & -> & ->) by lia. done.
  - change (ld32 (ifname_part dev_EXT).2 0) with 4294967295. change (ld32 (ifname_part dev_EXT).1 0) with 828929125.
    change (ld32 (ifname_part dev_EXT).2 4) with 255. change (ld32 (ifname_part dev_EXT).1 4) with 0.
    change (ld32 (ifname_part dev_EXT).2 8) with 0. change (ld32 (ifname_part dev_EXT).2 12) with 0.
    rewrite !Z.land_0_r, !(proj2 (proj2 (land_bytes _))), !(proj1 (land_bytes _)).
    cbn [take length app dev_EXT]. split; [|intros [= -> -> -> -> ->]; repeat split; lia].
    intros (Hw & Hw' & _). assert (z = 101 ∧ z0 = 116 ∧ z1 = 104 ∧ z2 = 49) as (-> & -> & -> & ->) by (clear Hw'; lia).
    assert (z3 = 0) as -> by lia. done.
Qed.

(** The packet belongs to a connection of the tracker; it opens it. *)
Definition tracked (w : fw_world) (skb : sk_buff) : bool :=
  negb (is_untracked w skb) && bool_decide (is_Some (skb_ct w skb)).
Definition is_new (skb : sk_buff) : bool := nfctinfo skb mod IP_CT_IS_REPLY =? IP_CT_NEW.

Lemma statebits_flags w skb :
  flag (statebits w skb) (st_ESTABLISHED + st_RELATED) = tracked w skb && negb (is_new skb) ∧
  flag (statebits w skb) (st_NEW + st_ESTABLISHED + st_RELATED) = tracked w skb ∧
  flag (statebits w skb) st_NEW = tracked w skb && is_new skb ∧
  flag (statebits w skb) st_INVALID = negb (tracked w skb) && negb (is_untracked w skb).
Proof.
  unfold statebits, tracked, is_new, ct_statebit, ct_nat_statebits.
  assert (nfctinfo skb mod IP_CT_IS_REPLY = 0 ∨ nfctinfo skb mod IP_CT_IS_REPLY = 1 ∨
          nfctinfo skb mod IP_CT_IS_REPLY = 2) as Hr by (unfold IP_CT_IS_REPLY; lia).
  destruct (is_untracked w skb).
  - destruct (skb_ct w skb) as [c|]; [|by vm_compute].
    by destruct (negb (src_ip _ =? _)), (negb (dst_ip _ =? _)); vm_compute.
  - destruct (skb_ct w skb) as [c|]; [rewrite bool_decide_eq_true_2 by eauto|by vm_compute].
    unfold XT_CONNTRACK_STATE_BIT.
    by destruct Hr as [->|[->| ->]], (negb (src_ip _ =? _)), (negb (dst_ip _ =? _)); vm_compute.
Qed.

(** ** Evaluating a chain *)
Section Chain.
Context (inp out : option net_device) (hook offset : Z) (w : fw_world).
Abbreviation run l skb := (flat_run inp out hook offset l skb w).
Abbreviation pm ip skb :=
  (ip_packet_match (skb_iph skb) (indev_name inp) (indev_name out) ip (negb (offset =? 0))).

Lemma run_plain ip v rules skb : 0 <= v < 4 →
  run (fw_rule ip [] (verdict_target v) :: rules) skb
  = if pm ip skb then Some (v, skb, w) else run rules skb.
Proof.
  intros Hv. destruct (exec_verdict ip [] v skb inp out hook offset w Hv) as (e' & hd & m & E & H & _).
  destruct (H eq_refl) as [-> ->]. cbn [flat_run]. rewrite E. by destruct (ip_packet_match _ _ _ _ _).
Qed.

Lemma run_state ip mask v rules skb : 0 <= v < 4 →
  run (fw_rule ip [ctstate mask] (verdict_target v) :: rules) skb
  = if pm ip skb && flag (statebits w skb) mask then Some (v, skb, w) else run rules skb.
Proof.
  intros Hv. destruct (exec_verdict ip [ctstate mask] v skb inp out hook offset w Hv) as (e' & hd & m & E & _ & H).
  destruct (H mask eq_refl) as [-> ->]. cbn [flat_run]. rewrite E. by destruct (_ && _).
Qed.

(** A rule for a state the packet is not in. *)
Lemma run_other_state ip mask ms t rules skb : flag (statebits w skb) mask = false →
  run (fw_rule ip (ctstate mask :: ms) t :: rules) skb = run rules skb.
Proof.
  intros Hf. cbn [flat_run]. unfold exec_rule. cbn [fw_rule e_ip e_matches].
  destruct (negb (ip_packet_match _ _ _ _ _)); [done|]. cbn [do_matches]. unfold ext_match, fw_ext.
  by rewrite ctstate_match, Hf.
Qed.

(** A rule that can only drop, in front of rules that drop. *)
Lemma run_drop ip ms rules skb : run rules skb = Some (NF_DROP, skb, w) →
  run (fw_rule ip ms (verdict_target NF_DROP) :: rules) skb = Some (NF_DROP, skb, w).
Proof.
  intros Hr. destruct (exec_verdict ip ms NF_DROP skb inp out hook offset w ltac:(done)) as (e' & hd & m & E & _).
  cbn [flat_run]. rewrite E. by destruct m, hd.
Qed.
End Chain.

Ltac chain_step :=
  first [rewrite run_plain by done | rewrite run_state by done];
  rewrite ?rule_ip_match, ?via_nil; cbn [andb orb Z.eqb].

(** C6: What reaches the router itself: once the script's table is loaded, and
    whatever packets have gone through it since, a packet to the INPUT chain is accepted if it comes in on the loopback or the LAN interface, or
    if it belongs to a tracked connection and does not open it; every other packet,
    that is every connection attempt and every packet of unknown state from the WAN, is
    dropped.  The traversal ends, and changes neither the packet nor the tracker. *)
Theorem firewall_input mp info skb inp out w : in_service mp info → dev_ok inp →
  ∃ fuel tbl', ∀ k,
    ipt_do_table (fuel + k) info skb NF_IP_LOCAL_IN inp out w
    = Some (if dev_named dev_lo inp || dev_named dev_LAN inp || (tracked w skb && negb (is_new skb))
            then NF_ACCEPT else NF_DROP, tbl', skb, w).
Proof.
  intros Hl Hd. destruct (loaded mp info Hl) as (Hh & Hp & _ & _).
  destruct (via_named inp Hd) as (Hlo & Hlan & _). destruct (statebits_flags w skb) as (Hb & _ & _ & _).
  unfold ipt_do_table. rewrite Hh by done. eexists.
  eapply flat_loop; [done|]. unfold INPUT_rules, ACCEPT, DROP.
  chain_step. rewrite Hlo. destruct (dev_named dev_lo inp); [done|]. cbn [andb orb].
  chain_step. rewrite Hlan. destruct (dev_named dev_LAN inp); [done|]. cbn [andb orb].
  chain_step. rewrite Hb. destruct (tracked w skb && negb (is_new skb)); [done|].
  chain_step. destruct (flag _ st_INVALID); [done|].
  apply run_drop. chain_step. done.
Qed.

(** ** Forwarding *)

(** The first FORWARD rule, which clamps the MSS of SYN segments: whether it refuses the
    packet, and the packet it leaves. *)
Definition mss_clamp (skb : sk_buff) (out : option net_device) (w : fw_world) : bool * sk_buff :=
  if protocol (skb_iph skb) =? IPPROTO_TCP then
    let offset := Z.land (ntohs (frag_off (skb_iph skb))) IP_OFFSET in
    let syn := mk_xt_tcp any_ports any_ports 0 (TH_SYN + TH_RST) TH_SYN 0 in
    let (ok, hotdrop) := tcp_match syn skb offset (ihl (skb_iph skb) * 4) in
    if ok then
      let '(v, skb', _) := ipt_tcpmss_target IPT_TCPMSS_CLAMP_PMTU skb out w in
      (negb (v =? IPT_CONTINUE), skb')
    else (hotdrop, skb)
  else (false, skb).

Lemma tcpmss_verdict mss skb out w v skb' w' : ipt_tcpmss_target mss skb out w = (v, skb', w') →
  v = NF_DROP ∨ (v = IPT_CONTINUE ∧ w' = w ∧ nfct skb' = nfct skb ∧ nfctinfo skb' = nfctinfo skb).
Proof.
  unfold ipt_tcpmss_target. destruct (negb (skb_make_writable _ _ _)); [intros [= <- _ _]; by left|].
  assert (∀ fail skb1, (if ip_summed skb =? CHECKSUM_HW
             then skb_checksum_help w skb (match out with None => true | _ => false end)
             else Some (false, skb)) = Some (fail, skb1) →
             nfct skb1 = nfct skb ∧ nfctinfo skb1 = nfctinfo skb) as Hh.
  { intros fail skb1. unfold skb_checksum_help.
    repeat (case_match; try done); by intros [= _ <-]. }
  destruct (if ip_summed skb =? CHECKSUM_HW then _ else _) as [[[] skb1]|]; [by intros [= <- _ _]; left| |by intros [= <- _ _]; left].
  destruct (Hh _ _ eq_refl) as [Hn Hi].
  destruct (negb (_ =? _)); [intros [= <- _ _]; by left|].
  repeat (case_match; try (intros [= <- _ _]; by left)); intros [= <- <- <-]; right; by rewrite ?Hn, ?Hi.
Qed.

Lemma tcp_match_hot tcpinfo skb offset protoff : tcp_option tcpinfo = 0 →
  (tcp_match tcpinfo skb offset protoff).1 = true → (tcp_match tcpinfo skb offset protoff).2 = false.
Proof.
  intros Ho. unfold tcp_match. rewrite Ho. cbn [Z.eqb negb].
  repeat (case_match; try done).
Qed.

(** The rule in front of the rest of the chain. *)
Lemma run_clamp inp out hook w rules skb refused skb' :
  mss_clamp skb out w = (refused, skb') →
  let offset := Z.land (ntohs (frag_off (skb_iph skb))) IP_OFFSET in
  let chain := fw_rule (rule_ip IPPROTO_TCP [] []) [syn_not_rst] (T_ext (X_TCPMSS IPT_TCPMSS_CLAMP_PMTU)) :: rules in
  if refused then ∃ w', flat_run inp out hook offset chain skb w = Some (NF_DROP, skb', w')
  else flat_run inp out hook offset chain skb w = flat_run inp out hook offset rules skb' w ∧
       nfct skb' = nfct skb ∧ nfctinfo skb' = nfctinfo skb.
Proof.
  intros E offset chain. unfold chain. cbn [flat_run]. unfold exec_rule.
  cbn [fw_rule e_ip e_matches]. rewrite rule_ip_match, !via_nil. change (IPPROTO_TCP =? 0) with false. cbn [andb orb].
  unfold mss_clamp in E. fold offset in E. 
  destruct (protocol (skb_iph skb) =? IPPROTO_TCP) eqn:Ep; cbn [negb orb].
  2: { injection E as <- <-. done. }
  cbn [do_matches].
  assert (∀ p, ext_match syn_not_rst skb inp out offset p w =
    let (ok, hd) := tcp_match (mk_xt_tcp any_ports any_ports 0 (TH_SYN + TH_RST) TH_SYN 0) skb offset p in
    (ok, hd, syn_not_rst, w)) as Hext.
  { intros p. unfold ext_match, fw_ext, xt_run_match, syn_not_rst, tcp_flags. by destruct (tcp_match _ _ _ _). }
  rewrite Hext. cbn [orb negb].
  match type of E with context [tcp_match ?i ?s ?o ?p] =>
    pose proof (tcp_match_hot i s o p eq_refl) as Hhot; destruct (tcp_match i s o p) as [ok hd] eqn:Em end.
  rewrite ?Em. cbn [fst snd] in Hhot. destruct ok; cbn [negb orb].
  - rewrite (Hhot eq_refl). change (e_target _) with (T_ext (T:=xt_target) (X_TCPMSS IPT_TCPMSS_CLAMP_PMTU)).
    cbn [ext_target fw_ext xt_run_target orb].
    destruct (ipt_tcpmss_target IPT_TCPMSS_CLAMP_PMTU skb out w) as [[v skb1] w1] eqn:Et.
    injection E as <- <-. destruct (tcpmss_verdict _ _ _ _ _ _ _ Et) as [->|(-> & -> & Hn & Hi)].
    + by exists w1.
    + done.
  - injection E as <- <-. destruct hd; [by exists w|done].
Qed.

Lemma tracked_ext w skb skb' : nfct skb' = nfct skb → nfctinfo skb' = nfctinfo skb →
  tracked w skb' = tracked w skb ∧ is_untracked w skb' = is_untracked w skb.
Proof. intros Hn Hi. unfold tracked, is_untracked, skb_ct. by rewrite Hn. Qed.

(** The verdict of the FORWARD chain. *)
Lemma forward_verdict mp info skb inp out w skb' :
  in_service mp info → mss_clamp skb out w = (false, skb') →
  is_untracked w skb = false →
  ∃ fuel tbl', ∀ k,
    ipt_do_table (fuel + k) info skb NF_IP_FORWARD inp out w
    = Some (if tracked w skb then NF_ACCEPT else NF_DROP, tbl', skb', w).
Proof.
  intros Hl Hc Hu. destruct (loaded mp info Hl) as (Hh & _ & Hp & _).
  destruct (run_clamp inp out NF_IP_FORWARD w (tail (FORWARD_rules mp)) skb false skb' Hc) as (Hrun & Hn & Hi).
  destruct (tracked_ext w skb skb' Hn Hi) as [Ht Hu']. rewrite Hu in Hu'.
  destruct (statebits_flags w skb') as (_ & Hb & Hnew & Hinv). rewrite Ht, ?Hu' in Hb, Hnew, Hinv.
  unfold ipt_do_table. rewrite Hh by done. eexists. eapply flat_loop; [done|].
  etrans; [exact Hrun|]. clear Hrun Hp Hl. unfold FORWARD_rules, ACCEPT, DROP. cbn [tail app].
  chain_step. rewrite Hb. destruct (tracked w skb); [done|]. cbn [negb andb] in *.
  rewrite run_other_state by done. destruct mp; cbn [app].
  - rewrite !run_other_state by done. chain_step. by rewrite Hinv, Hu'.
  - chain_step. by rewrite Hinv, Hu'.
Qed.

(** A packet that the first rule refuses. *)
Lemma forward_refused mp info skb inp out w skb' : in_service mp info → mss_clamp skb out w = (true, skb') →
  ∃ fuel tbl' w', ∀ k, ipt_do_table (fuel + k) info skb NF_IP_FORWARD inp out w = Some (NF_DROP, tbl', skb', w').
Proof.
  intros Hl Hc. destruct (loaded mp info Hl) as (Hh & _ & Hp & _).
  destruct (run_clamp inp out NF_IP_FORWARD w (tail (FORWARD_rules mp)) skb true skb' Hc) as [w' Hrun].
  unfold ipt_do_table. rewrite Hh by done.
  match goal with |- context [ipt_do_table_loop _ ?t ?pos ?back] =>
    destruct (flat_loop inp out NF_IP_FORWARD _ (FORWARD_rules mp) t pos back skb w NF_DROP skb' w' Hp Hrun) as [tbl' H] end.
  by exists (length (FORWARD_rules mp)), tbl', w'.
Qed.

(** C38: The verdict of the FORWARD chain on every packet that the tracker has not been told
    to leave alone.  What the MSS rule in front refuses ([mss_clamp]: a SYN with data, on a
    route without a usable MTU, without memory, or with a broken header) is dropped.  Of
    the rest every packet of a tracked connection is accepted, opening packets included,
    between any two interfaces, and every packet of unknown state is dropped.  So a
    connection from the WAN to a host of the LAN is forwarded: the rule that the script
    announces as "disabling wan to lan traffic" is never reached by it. *)
Theorem firewall_forward mp info skb inp out w :
  in_service mp info → is_untracked w skb = false →
  ∃ fuel tbl' w', (∀ k,
    ipt_do_table (fuel + k) info skb NF_IP_FORWARD inp out w
    = Some (if (mss_clamp skb out w).1 then NF_DROP else if tracked w skb then NF_ACCEPT else NF_DROP,
            tbl', (mss_clamp skb out w).2, w')) ∧
    ((mss_clamp skb out w).1 = false → w' = w).
Proof.
  intros Hl Hu. destruct (mss_clamp skb out w) as [refused skb'] eqn:Hc. cbn [fst snd]. destruct refused.
  - destruct (forward_refused mp info skb inp out w skb' Hl Hc) as (fuel & tbl' & w' & H). by exists fuel, tbl', w'.
  - destruct (forward_verdict mp info skb inp out w skb' Hl Hc Hu) as (fuel & tbl' & H). by exists fuel, tbl', w.
Qed.

(** The OUTPUT chain lets out everything to the loopback and the LAN, and every packet of
    a tracked connection; its last rule, against connections that do not start with a
    SYN, comes behind the one that accepts them. *)
Lemma firewall_output mp info skb inp out w : in_service mp info → dev_ok out →
  ∃ fuel tbl', ∀ k,
    ipt_do_table (fuel + k) info skb NF_IP_LOCAL_OUT inp out w
    = Some (if dev_named dev_lo out || dev_named dev_LAN out || tracked w skb
            then NF_ACCEPT else NF_DROP, tbl', skb, w).
Proof.
  intros Hl Hd. destruct (loaded mp info Hl) as (Hh & _ & _ & Hp).
  destruct (via_named out Hd) as (Hlo & Hlan & _). destruct (statebits_flags w skb) as (_ & Hb & _ & _).
  unfold ipt_do_table. rewrite Hh by done. eexists.
  eapply flat_loop; [done|]. unfold OUTPUT_rules, ACCEPT, DROP.
  chain_step. rewrite Hlo. destruct (dev_named dev_lo out); [done|]. cbn [andb orb].
  chain_step. rewrite Hlan. destruct (dev_named dev_LAN out); [done|]. cbn [andb orb].
  chain_step. rewrite Hb. destruct (tracked w skb); [done|].
  apply run_drop. chain_step. done.
Qed.

(** ** Witnesses

    A UDP packet from the WAN to a host of the LAN that opens a connection. *)
Definition demo_tuple : ip_conntrack_tuple := mk_tuple 1 2 3 4 17 IP_CT_DIR_ORIGINAL.
Definition demo_world : fw_world :=
  mk_world (mk_env (ct_defaults true) 0 true 4096 512 0 (λ _, 0) (λ _ _ _ s, s))
    (mk_cs {[2%positive := blank_ct demo_tuple demo_tuple]} ∅ [] ∅ [] ∅ [] 1 0 0 ∅) (mk_nv 0 0 0)
    (1%positive, blank_ct demo_tuple demo_tuple) true 4 true 20 (Some 1500) (λ _, 0) (λ _, None) None [] false.
Definition demo_filter : xt_table_info :=
  match load_filter true demo_world with
  | Some (_, info) => info
  | None => mk_info 0 0 (λ _, 0) (λ _, 0) ∅
  end.
Definition demo_packet : sk_buff :=
  (ip_pkt 17 134744072 3232236034 (replicate 8 0)) <| nfct := Some 2%positive |> <| nfctinfo := IP_CT_NEW |>.
Definition demo_dev (name : list Z) : option net_device := Some (mk_dev (pad_ifname name) 1 []).

Lemma demo_in_service : in_service true demo_filter.
Proof. apply (sv_loaded true demo_world). vm_compute. reflexivity. Qed.

Lemma firewall_input_witness : ∃ fuel tbl', ∀ k,
  ipt_do_table (fuel + k) demo_filter demo_packet NF_IP_LOCAL_IN (demo_dev dev_EXT) None demo_world
  = Some (NF_DROP, tbl', demo_packet, demo_world).
Proof.
  apply (firewall_input true demo_filter demo_packet (demo_dev dev_EXT) None demo_world).
  - apply demo_in_service.
  - split; [reflexivity|]. repeat (constructor; [vm_compute; split; congruence|]). constructor.
Defined.

Lemma firewall_forward_witness : ∃ fuel tbl', ∀ k,
  ipt_do_table (fuel + k) demo_filter demo_packet NF_IP_FORWARD (demo_dev dev_EXT) (demo_dev dev_LAN) demo_world
  = Some (NF_ACCEPT, tbl', demo_packet, demo_world).
Proof.
  destruct (firewall_forward true demo_filter demo_packet (demo_dev dev_EXT) (demo_dev dev_LAN) demo_world demo_in_service)
    as (fuel & tbl' & w' & H & Hw); [vm_compute; reflexivity|].
  rewrite (Hw ltac:(vm_compute; reflexivity)) in H. exists fuel, tbl'. intros k. etrans; [apply H|vm_compute; reflexivity].
Defined.
