(* ===== verification/IptBoot.v ===== *)
(** * The tables of the kernel at boot: [iptable_filter.c]

    The filter and nat tables start with three chains that have only a policy; the
    firmware's script then replaces them.  The examples follow the filter table through
    its registration and its replacement by the rules of [Firewall]. *)
From Stdlib Require Import String.
From S2P Require Import Prelude Packet CtBase TcpTrack CtProtos Conntrack NatProto NatCore IpTables XtMatches XtTargets IpTablesFacts IpTablesSpec IptReplace IptReplaceFacts IptReplaceSpec IptModules Firewall FirewallFacts FirewallSpec.
From stdpp Require Import fin_maps relations.
#[local] Open Scope Z_scope.

Abbreviation fw_state := (xt_state (M:=xt_match) (T:=xt_target)).
Abbreviation fw_table := (xt_table (M:=xt_match) (T:=xt_target)).

(** ** Initial tables *)

(** [initial_table] and [nat_initial_table]: the chains start at the hooks [h0], [h1] and
    [h2]; [forward] is the policy of the second. *)
Definition initial_table (name : list Z) (valid_hooks h0 h1 h2 forward : Z) : ipt_replace :=
  let at_hook h :=
    if h =? h0 then 0 else if h =? h1 then policy_size else if h =? h2 then policy_size * 2 else 0 in
  let entries :=
    [ fw_rule (rule_ip 0 [] []) [] ACCEPT; fw_rule (rule_ip 0 [] []) [] (verdict_target forward);
      fw_rule (rule_ip 0 [] []) [] ACCEPT; fw_rule (rule_ip 0 [] []) [] T_error ] in
  mk_replace name valid_hooks 4 (rules_size entries) at_hook at_hook 0 entries.

Definition packet_filter (me : option positive) : fw_table :=
  mk_table name_filter FILTER_VALID_HOOKS me bootstrap.
Definition nat_table (me : option positive) : fw_table :=
  mk_table name_nat NAT_VALID_HOOKS me bootstrap.

(** The tables before any rule. *)
Definition filter_start (forward : Z) : ipt_replace :=
  initial_table name_filter FILTER_VALID_HOOKS NF_IP_LOCAL_IN NF_IP_FORWARD NF_IP_LOCAL_OUT forward.
Definition nat_start : ipt_replace :=
  initial_table name_nat NAT_VALID_HOOKS NF_IP_PRE_ROUTING NF_IP_POST_ROUTING NF_IP_LOCAL_OUT NF_ACCEPT.

(** [init] of [iptable_filter.c] up to the registration of the hooks. *)
Definition filter_init (env : xt_env) (sc : syscall) (fuel : nat) (me : option positive) (forward : Z)
    (w : fw_world) (s : fw_state) : option (Z * fw_state) :=
  if (forward <? 0) || (NF_MAX_VERDICT <? forward) then Some (- EINVAL, s)
  else ipt_register_table env sc fuel (packet_filter me) (filter_start forward) w s.

(** ** Hooks *)
Definition ipt_hook (fuel : nat) (private : xt_table_info) (skb : sk_buff) (hook : Z)
    (inp out : option net_device) (w : fw_world) :=
  ipt_do_table fuel private skb hook inp out w.

Definition ipt_local_out_hook (fuel : nat) (private : xt_table_info) (skb : sk_buff) (hook : Z)
    (inp out : option net_device) (w : fw_world) :=
  if (skb_len skb <? 20) || (ihl (skb_iph skb) * 4 <? 20)
  then Some (NF_ACCEPT, t_entries private, skb, w)
  else ipt_do_table fuel private skb hook inp out w.

(** ** All extensions registered *)
Definition all_matches : list xt_ext :=
  [ mk_ext (codes "tcp") 0 (Some 1%positive); mk_ext (codes "udp") 0 (Some 1%positive);
    mk_ext (codes "icmp") 0 None; mk_ext (codes "multiport") 1 (Some 2%positive);
    mk_ext (codes "multiport") 0 (Some 2%positive); mk_ext (codes "conntrack") 0 (Some 3%positive);
    mk_ext (codes "state") 0 (Some 4%positive); mk_ext (codes "limit") 0 (Some 5%positive);
    mk_ext (codes "iprange") 0 (Some 6%positive); mk_ext (codes "length") 0 (Some 7%positive);
    mk_ext (codes "mark") 0 (Some 8%positive); mk_ext (codes "ttl") 0 (Some 9%positive);
    mk_ext (codes "tos") 0 (Some 10%positive) ].
Definition all_targets : list xt_ext :=
  [ mk_ext (codes "MASQUERADE") 0 (Some 13%positive); mk_ext (codes "SNAT") 0 None;
    mk_ext (codes "DNAT") 0 None; mk_ext (codes "TCPMSS") 0 (Some 11%positive);
    mk_ext (codes "REJECT") 0 (Some 12%positive); ipt_standard_target; ipt_error_target ].
Definition all_env : xt_env := mk_xtenv all_matches all_targets (λ _, true) 4096.

Lemma all_once : registered_once (M:=xt_match) (T:=xt_target) all_env.
Proof.
  split.
  - intros x m Hin Hn Hr. unfold all_env, reg_matches, all_matches in Hin. rewrite !elem_of_cons in Hin.
    destruct m; vm_compute in Hn, Hr;
      repeat (destruct Hin as [->|Hin]; [vm_compute in Hn, Hr; first [reflexivity|discriminate Hn|discriminate Hr]|]);
      by apply elem_of_nil in Hin.
  - intros x e Hin Hn Hr. unfold all_env, reg_targets, all_targets in Hin. rewrite !elem_of_cons in Hin.
    unfold entry_target in *. destruct (e_target e) as [z v| |t]; [..|destruct t];
      repeat (destruct Hin as [->|Hin]; [vm_compute in Hn, Hr; first [reflexivity|discriminate Hn|discriminate Hr]|]);
      by apply elem_of_nil in Hin.
Qed.

(** ** From boot to firewall *)

(** The replacement that brings the rules of the script. *)
Definition script_filter (multiport : bool) (num_counters : Z) : ipt_replace :=
  let entries := filter_entries multiport in
  mk_replace name_filter FILTER_VALID_HOOKS (Z.of_nat (length entries)) (rules_size entries)
    (chain_starts multiport) (chain_policies multiport) num_counters entries.

(** When the replacement by the rules of the script succeeds, the filter table of the
    kernel is one for which the theorems on the firewall hold. *)
Lemma script_in_service base env sc num len w (s s' : fw_state) c multiport :
  registered_once (M:=xt_match) (T:=xt_target) env → xt_wf base s →
  do_replace env sc 200 (script_filter multiport num) len w s = Some (0, Some c, s') →
  ∃ t, t ∈ x_tables s' ∧ tb_name t = name_filter ∧ in_service multiport (p_info (private t)).
Proof.
  intros Henv HW E. pose proof (do_replace_spec base env sc 200 (script_filter multiport num) len w s Henv HW) as H.
  rewrite E in H. destruct H as [_ [(Hr & _)|(i & t & newinfo & Hi & Hn & _ & _ & Ht & Es & _)]]; [lia|].
  exists (installed t newinfo). split; [|split; [exact Hn|]].
  - rewrite Es. apply list_elem_of_lookup_2 with i. apply list_lookup_insert_eq. by apply lookup_lt_Some in Hi.
  - apply (sv_loaded multiport w). exact Ht.
Qed.

Definition good_call : syscall := mk_syscall true true true true true.
Definition blank_state : fw_state := mk_xt (λ _, 0) [] [].

(** The filter table is registered by a module, and filled. *)
Definition booted : fw_state :=
  match filter_init all_env good_call 50 (Some 20%positive) NF_ACCEPT demo_world blank_state with
  | Some (_, s) => s
  | None => blank_state
  end.
Definition script_len : Z := sizeof_ipt_replace + rules_size (filter_entries true).
Definition filled : fw_state :=
  match do_replace all_env good_call 200 (script_filter true 4) script_len demo_world booted with
  | Some (_, _, s) => s
  | None => booted
  end.

Lemma some_is {A} (o : option A) : match o with Some _ => true | None => false end = true → is_Some o.
Proof. destruct o; [by eexists|done]. Qed.

Lemma booted_register : ∃ ret, ipt_register_table all_env good_call 50 (packet_filter (Some 20%positive)) (filter_start NF_ACCEPT)
    demo_world blank_state = Some (ret, booted).
Proof.
  destruct (some_is (ipt_register_table all_env good_call 50 (packet_filter (Some 20%positive)) (filter_start NF_ACCEPT)
    demo_world blank_state)) as [[ret s] E]; [vm_compute; reflexivity|].
  exists ret. unfold booted, filter_init. change ((NF_ACCEPT <? 0) || (NF_MAX_VERDICT <? NF_ACCEPT)) with false. cbv iota. by rewrite E.
Qed.
Lemma booted_keeps : lost_rules all_env good_call 50 (packet_filter (Some 20%positive)) (filter_start NF_ACCEPT)
    demo_world blank_state = [].
Proof. vm_compute. reflexivity. Qed.

Lemma booted_step : xt_step (blank_state, []) (booted, []).
Proof.
  destruct booted_register as [ret E]. rewrite <- (app_nil_r []), <- booted_keeps at 2.
  by apply (step_register all_env good_call 50 (packet_filter (Some 20%positive)) (filter_start NF_ACCEPT) demo_world ret);
    [apply all_once|].
Qed.

Lemma filled_step : xt_step (booted, []) (filled, []).
Proof.
  destruct (some_is (do_replace all_env good_call 200 (script_filter true 4) script_len demo_world booted))
    as [[[ret c] s] E]; [vm_compute; reflexivity|].
  apply (step_replace all_env good_call 200 (script_filter true 4) script_len demo_world ret c); [apply all_once|].
  unfold filled. by rewrite E.
Qed.

Lemma booted_wf : xt_wf (λ _, 0) booted.
Proof.
  destruct booted_register as [ret E].
  destruct (register_wf (λ _, 0) all_env good_call 50 (packet_filter (Some 20%positive)) (filter_start NF_ACCEPT) demo_world
    blank_state ret booted all_once) as [H1 H2 H3];
    [split; cbn; [constructor|constructor|done]|exact E|].
  split; [exact H1|exact H2|]. intros q. rewrite H3, booted_keeps. cbn [sum_refs]. lia.
Qed.

Lemma xt_books_witness : rtc xt_step (blank_state, []) (filled, []) ∧
  x_refs filled 3%positive = 0 + sum_refs table_uses (x_tables filled) 3%positive + 0.
Proof.
  assert (rtc xt_step (blank_state, []) (filled, [])) as HS
    by (apply (rtc_l _ _ (booted, [])); [apply booted_step|]; apply (rtc_l _ _ (filled, [])); [apply filled_step|]; constructor).
  split; [exact HS|]. destruct (xt_books (λ _, 0) [] filled [] HS) as (_ & _ & H). exact (H 3%positive).
Defined.

Lemma replace_all_or_nothing_witness : ∃ c s',
  do_replace all_env good_call 200 (script_filter true 4) script_len demo_world booted = Some (0, c, s') ∧
  xt_wf (λ _, 0) s' ∧ replaced good_call 200 (script_filter true 4) demo_world booted 0 c s'.
Proof.
  pose proof (replace_all_or_nothing (λ _, 0) all_env good_call 200 (script_filter true 4) script_len demo_world booted
    all_once booted_wf) as H.
  assert (match do_replace all_env good_call 200 (script_filter true 4) script_len demo_world booted with
          | Some (r, _, _) => r | None => 1 end = 0) as H0 by (vm_compute; reflexivity).
  destruct (do_replace all_env good_call 200 (script_filter true 4) script_len demo_world booted) as [[[ret c] s']|]; [|discriminate H0].
  subst ret. exists c, s'. split; [reflexivity|]. destruct H as [HW [[Hr _]|Hr]]; [lia|]. split; [exact HW|exact Hr].
Defined.

Lemma add_counters_exact_witness : ∃ ret s',
  do_add_counters all_env good_call name_filter 4 (replicate 4 (100, 1)) 100 booted = Some (ret, s') ∧
  xt_wf (λ _, 0) s' ∧ (ret < 0 ∧ refs_by (λ _, 0) booted s' ∨ ret = 0 ∧ counters_added name_filter (replicate 4 (100, 1)) booted s').
Proof. apply (add_counters_exact (λ _, 0) all_env good_call name_filter (replicate 4 (100, 1)) 100 booted booted_wf). Defined.

(** The counts are there, and the modules of the script's rules are held. *)
Example booted_counts :
  match do_add_counters all_env good_call name_filter 4 (replicate 4 (100, 1)) 100 booted with
  | Some (ret, s) => (ret, (λ t, counters_of (p_info (private t))) <$> x_tables s)
  | None => (1, [])
  end = (0, [replicate 4 (100, 1)]).
Proof. vm_compute. reflexivity. Qed.
Example filled_refs : x_refs filled <$> [1; 3; 2; 11; 12; 20]%positive = [4; 10; 2; 1; 1; 1].
Proof. vm_compute. reflexivity. Qed.
