(* ===== verification/NfCore.v ===== *)
(** * Netfilter's hooks: [net/netfilter/core.c] and [nf_queue.c]

    Parts of the kernel register functions at the five points of a packet's way; each
    point has a list of them, ordered by priority.  [nf_hook_slow] sends a packet along
    such a list.  A function can hand the packet to user space ([NF_QUEUE]); it comes
    back through [nf_reinject], which goes on behind that function.

    Packets [P], devices [D], the functions [K] that a packet goes to at the end
    ([okfn]), the state [W] that the hook functions work on and the data [R] that is
    saved for a queued packet are parameters of this file; [FwHooks] instantiates them.
    A position in a list of hooks is the number of elements up to and including the
    current one, so that 0 is the list head.  A list does not change during one
    traversal, which is what RCU grants to its readers. *)
From S2P Require Import Prelude CtBase IpTables IptReplace.

Definition NF_VERDICT_MASK := 65535.
Definition NF_VERDICT_BITS := 16.
Definition INT_MIN := -2147483648.
Definition NPROTO := 33.
Definition PF_INET := 2.
Definition EBUSY := 16.

Section NfCore.
Context {P D K W R : Type} `{EqDecision D}.

(** ** Data *)

(** A hook function gives the verdict, the packet ([*skb]) and the state. *)
Definition nf_hookfn : Type := Z → P → option D → option D → K → W → option (Z * P * W).

(** [ops_id] is the address of the structure. *)
Record nf_hook_ops := mk_ops {
  ops_id : positive; ops_hook : nf_hookfn; ops_owner : option positive; ops_pf : Z;
  ops_hooknum : Z; ops_priority : Z }.

Record nf_info := mk_nf_info {
  i_elem : nf_hook_ops; i_pf : Z; i_hook : Z; i_indev : option D; i_outdev : option D; i_okfn : K;
  i_saved : R }.

(** The handler that takes packets out, by its address and the value it returns. *)
Record nf_queue_handler := mk_qh { qh_id : positive; qh_outfn : P → nf_info → Z → Z }.

(** What is saved of a packet, and its routing when it comes back. *)
Record nf_queue_rerouter := mk_rerouter {
  rer_save : P → Z → R; rer_reroute : P → Z → R → W → Z * P * W }.

(** The lists of hooks by family and hook number, the handlers, the reference counts of
    modules and devices, and the packets that handlers have taken. *)
Record nf_state := mk_nf {
  nf_hooks : Z → Z → list nf_hook_ops; queue_handler : Z → option nf_queue_handler;
  queue_rerouter : Z → option nf_queue_rerouter; nf_refs : positive → Z; dev_refs : D → Z;
  nf_queued : list (P * nf_info) }.

(** Whether [kmalloc] succeeds when the function of this address queues the packet, and
    the modules that are not being removed. *)
Record nf_env := mk_nfenv { nf_mem : positive → bool; nf_live : positive → bool }.

Definition set_hooks_at (pf hook : Z) (l : list nf_hook_ops) (s : nf_state) : nf_state :=
  mk_nf (λ p h, if (p =? pf) && (h =? hook) then l else nf_hooks s p h) (queue_handler s)
    (queue_rerouter s) (nf_refs s) (dev_refs s) (nf_queued s).
Definition set_handler (pf : Z) (q : option nf_queue_handler) (s : nf_state) : nf_state :=
  mk_nf (nf_hooks s) (λ p, if p =? pf then q else queue_handler s p) (queue_rerouter s) (nf_refs s)
    (dev_refs s) (nf_queued s).
Definition set_rerouter (pf : Z) (r : option nf_queue_rerouter) (s : nf_state) : nf_state :=
  mk_nf (nf_hooks s) (queue_handler s) (λ p, if p =? pf then r else queue_rerouter s p) (nf_refs s)
    (dev_refs s) (nf_queued s).
Definition set_queued (l : list (P * nf_info)) (s : nf_state) : nf_state :=
  mk_nf (nf_hooks s) (queue_handler s) (queue_rerouter s) (nf_refs s) (dev_refs s) l.

(** [__module_get], [module_put], [dev_hold] and [dev_put]. *)
Definition owner_add (me : option positive) (n : Z) (s : nf_state) : nf_state :=
  mk_nf (nf_hooks s) (queue_handler s) (queue_rerouter s) (λ q, nf_refs s q + n * one me q)
    (dev_refs s) (nf_queued s).
Definition dev_add (dev : option D) (n : Z) (s : nf_state) : nf_state :=
  mk_nf (nf_hooks s) (queue_handler s) (queue_rerouter s) (nf_refs s)
    (λ d, dev_refs s d + n * one dev d) (nf_queued s).

(** ** Registration *)

(** In front of the first element with a larger priority. *)
Fixpoint list_add_prio (reg : nf_hook_ops) (l : list nf_hook_ops) : list nf_hook_ops :=
  match l with
  | [] => [reg]
  | i :: l => if ops_priority reg <? ops_priority i then reg :: i :: l else i :: list_add_prio reg l
  end.

Definition nf_register_hook (reg : nf_hook_ops) (s : nf_state) : nf_state :=
  set_hooks_at (ops_pf reg) (ops_hooknum reg)
    (list_add_prio reg (nf_hooks s (ops_pf reg) (ops_hooknum reg))) s.

Definition nf_unregister_hook (reg : nf_hook_ops) (s : nf_state) : nf_state :=
  set_hooks_at (ops_pf reg) (ops_hooknum reg)
    (filter (λ o, ops_id o ≠ ops_id reg) (nf_hooks s (ops_pf reg) (ops_hooknum reg))) s.

Definition nf_register_queue_handler (pf : Z) (qh : nf_queue_handler) (s : nf_state) : Z * nf_state :=
  if NPROTO <=? pf then (- EINVAL, s)
  else match queue_handler s pf with
  | Some q => (if bool_decide (qh_id q = qh_id qh) then - EEXIST else - EBUSY, s)
  | None => (0, set_handler pf (Some qh) s)
  end.

Definition nf_unregister_queue_handler (pf : Z) (s : nf_state) : Z * nf_state :=
  if NPROTO <=? pf then (- EINVAL, s) else (0, set_handler pf None s).

Definition nf_register_queue_rerouter (pf : Z) (rer : nf_queue_rerouter) (s : nf_state) : Z * nf_state :=
  if NPROTO <=? pf then (- EINVAL, s) else (0, set_rerouter pf (Some rer) s).

Definition nf_unregister_queue_rerouter (pf : Z) (s : nf_state) : Z * nf_state :=
  if NPROTO <=? pf then (- EINVAL, s) else (0, set_rerouter pf None s).

Definition nf_unregister_queue_handlers (qh : nf_queue_handler) (s : nf_state) : nf_state :=
  mk_nf (nf_hooks s)
    (λ pf, match queue_handler s pf with
           | Some q => if (0 <=? pf) && (pf <? NPROTO) && bool_decide (qh_id q = qh_id qh) then None else Some q
           | None => None
           end) (queue_rerouter s) (nf_refs s) (dev_refs s) (nf_queued s).

(** ** Traversal *)

(** The verdict, the position ([*i]), the packet and the state.  Every turn of the loop
    uses fuel, because [NF_REPEAT] calls the same function again. *)
Fixpoint nf_iterate (fuel : nat) (head : list nf_hook_ops) (i : nat) (skb : P) (hook : Z)
    (indev outdev : option D) (okfn : K) (hook_thresh : Z) (w : W) : option (Z * nat * P * W) :=
  match fuel with
  | O => None
  | S fuel =>
      match head !! i with
      | None => Some (NF_ACCEPT, i, skb, w)
      | Some elem =>
          if ops_priority elem <? hook_thresh
          then nf_iterate fuel head (S i) skb hook indev outdev okfn hook_thresh w
          else
            '(verdict, skb, w) ← ops_hook elem hook skb indev outdev okfn w;
            if verdict =? NF_ACCEPT then nf_iterate fuel head (S i) skb hook indev outdev okfn hook_thresh w
            else if verdict =? NF_REPEAT then nf_iterate fuel head i skb hook indev outdev okfn hook_thresh w
            else Some (verdict, S i, skb, w)
      end
  end.

(** What became of the packet: it is the caller's, freed, taken by a handler, given to
    [okfn], or left to the function that returned the verdict. *)
Inductive fate := Kept | Freed | Held | Passed | Left.

(** [None]: the size of the rerouter's data is read through a [NULL] pointer. *)
Definition nf_queue (env : nf_env) (skb : P) (elem : nf_hook_ops) (pf hook : Z)
    (indev outdev : option D) (okfn : K) (queuenum : Z) (s : nf_state) : option (Z * fate * nf_state) :=
  match queue_handler s pf with
  | None => Some (1, Freed, s)
  | Some qh =>
      rerouter ← queue_rerouter s pf;
      if negb (nf_mem env (ops_id elem)) then Some (1, Freed, s)
      else
        let ok := match ops_owner elem with None => true | Some m => nf_live env m end in
        if negb ok then Some (0, Kept, s)
        else
          let s := dev_add outdev 1 (dev_add indev 1 (owner_add (ops_owner elem) 1 s)) in
          let info := mk_nf_info elem pf hook indev outdev okfn (rer_save rerouter skb hook) in
          if qh_outfn qh skb info queuenum <? 0
          then Some (1, Freed, owner_add (ops_owner elem) (-1) (dev_add outdev (-1) (dev_add indev (-1) s)))
          else Some (1, Held, set_queued (nf_queued s ++ [(skb, info)]) s)
  end.

(** From [next_hook] on. *)
Fixpoint nf_hook_loop (env : nf_env) (fuel : nat) (i : nat) (pf hook : Z) (skb : P)
    (indev outdev : option D) (okfn : K) (hook_thresh : Z) (w : W) (s : nf_state)
    : option (Z * fate * P * W * nf_state) :=
  match fuel with
  | O => None
  | S fuel =>
      '(verdict, i, skb, w) ← nf_iterate fuel (nf_hooks s pf hook) i skb hook indev outdev okfn hook_thresh w;
      if (verdict =? NF_ACCEPT) || (verdict =? NF_STOP) then Some (1, Kept, skb, w, s)
      else if verdict =? NF_DROP then Some (- EPERM, Freed, skb, w, s)
      else if Z.land verdict NF_VERDICT_MASK =? NF_QUEUE then
        elem ← nf_hooks s pf hook !! pred i;
        '(r, f, s) ← nf_queue env skb elem pf hook indev outdev okfn (Z.shiftr verdict NF_VERDICT_BITS) s;
        if r =? 0 then nf_hook_loop env fuel i pf hook skb indev outdev okfn hook_thresh w s
        else Some (0, f, skb, w, s)
      else Some (0, Left, skb, w, s)
  end.

(** The return value, the packet's fate, the packet and the states. *)
Definition nf_hook_slow (env : nf_env) (fuel : nat) (pf hook : Z) (skb : P) (indev outdev : option D)
    (okfn : K) (hook_thresh : Z) (w : W) (s : nf_state) : option (Z * fate * P * W * nf_state) :=
  nf_hook_loop env fuel 0 pf hook skb indev outdev okfn hook_thresh w s.

Definition nf_hook_thresh (env : nf_env) (fuel : nat) (pf hook : Z) (skb : P) (indev outdev : option D)
    (okfn : K) (thresh : Z) (cond : bool) (w : W) (s : nf_state) : option (Z * fate * P * W * nf_state) :=
  if negb cond then Some (1, Kept, skb, w, s)
  else match nf_hooks s pf hook with
  | [] => Some (1, Kept, skb, w, s)
  | _ => nf_hook_slow env fuel pf hook skb indev outdev okfn thresh w s
  end.

(** ** Packets that come back *)

(** From [next_hook] on, with the verdict [NF_ACCEPT], and the [switch] that follows. *)
Fixpoint nf_reinject_loop (env : nf_env) (fuel : nat) (i : nat) (info : nf_info) (skb : P) (w : W)
    (s : nf_state) : option (fate * P * W * nf_state) :=
  match fuel with
  | O => None
  | S fuel =>
      let l := nf_hooks s (i_pf info) (i_hook info) in
      '(verdict, i, skb, w) ← nf_iterate fuel l i skb (i_hook info) (i_indev info) (i_outdev info)
                                (i_okfn info) INT_MIN w;
      let v := Z.land verdict NF_VERDICT_MASK in
      if v =? NF_ACCEPT then Some (Passed, skb, w, s)
      else if v =? NF_QUEUE then
        elem ← l !! pred i;
        '(r, f, s) ← nf_queue env skb elem (i_pf info) (i_hook info) (i_indev info) (i_outdev info)
                       (i_okfn info) (Z.shiftr verdict NF_VERDICT_BITS) s;
        if r =? 0 then nf_reinject_loop env fuel i info skb w s else Some (f, skb, w, s)
      else Some (if verdict =? NF_DROP then Freed else Left, skb, w, s)
  end.

(** The handler gives the packet [skb] back that it took as the [n]th, with a verdict of
    user space. *)
Definition nf_reinject (env : nf_env) (fuel : nat) (n : nat) (skb : P) (verdict : Z) (w : W) (s : nf_state)
    : option (fate * P * W * nf_state) :=
  '(_, info) ← nf_queued s !! n;
  let elem := i_elem info in
  let s := set_queued (delete n (nf_queued s)) s in
  let s := owner_add (ops_owner elem) (-1) (dev_add (i_outdev info) (-1) (dev_add (i_indev info) (-1) s)) in
  let '(verdict, i) := match list_find (λ o, ops_id o = ops_id elem) (nf_hooks s (i_pf info) (i_hook info)) with
                       | None => (NF_DROP, 0%nat)
                       | Some (i, _) => if verdict =? NF_REPEAT then (NF_ACCEPT, i) else (verdict, S i)
                       end in
  let '(verdict, skb, w) :=
    if verdict =? NF_ACCEPT then
      match queue_rerouter s (i_pf info) with
      | Some rerouter => let '(r, skb, w) := rer_reroute rerouter skb (i_hook info) (i_saved info) w in
                         (if r <? 0 then NF_DROP else verdict, skb, w)
      | None => (verdict, skb, w)
      end
    else (verdict, skb, w) in
  if verdict =? NF_ACCEPT then nf_reinject_loop env fuel i info skb w s
  else
    let v := Z.land verdict NF_VERDICT_MASK in
    if v =? NF_ACCEPT then Some (Passed, skb, w, s)
    else if v =? NF_QUEUE then
      '(r, f, s) ← nf_queue env skb elem (i_pf info) (i_hook info) (i_indev info) (i_outdev info)
                     (i_okfn info) (Z.shiftr verdict NF_VERDICT_BITS) s;
      if r =? 0 then nf_reinject_loop env fuel i info skb w s else Some (f, skb, w, s)
    else Some (if verdict =? NF_DROP then Freed else Left, skb, w, s).
End NfCore.

#[global] Arguments nf_hookfn : clear implicits.
#[global] Arguments nf_hook_ops : clear implicits.
#[global] Arguments nf_info : clear implicits.
#[global] Arguments nf_queue_handler : clear implicits.
#[global] Arguments nf_queue_rerouter : clear implicits.
#[global] Arguments nf_state : clear implicits.
