(* ===== verification/NfCoreSpec.v ===== *)
(** * Netfilter's hooks: order of the functions, queueing, reference counts *)
From S2P Require Import Prelude CtBase IpTables IptReplace NfCore.
From stdpp Require Import relations sorting.
#[local] Open Scope Z_scope.

Section Spec.
Context {P D K W R : Type} `{EqDecision D}.
Abbreviation ops := (nf_hook_ops P D K W).
Abbreviation state := (nf_state P D K W R).

(** ** Lists by priority *)
Definition prio_le (a b : ops) : Prop := ops_priority a <= ops_priority b.
Definition of_prio (p : Z) (l : list ops) : list ops := filter (λ o, ops_priority o = p) l.

Lemma of_prio_cons p o l : of_prio p (o :: l) = if decide (ops_priority o = p) then o :: of_prio p l else of_prio p l.
Proof. reflexivity. Qed.

Lemma of_prio_app p l k : of_prio p (l ++ k) = of_prio p l ++ of_prio p k.
Proof. apply filter_app. Qed.

Lemma add_elem (reg : ops) l o : o ∈ list_add_prio reg l ↔ o = reg ∨ o ∈ l.
Proof.
  induction l as [|i l IH]; cbn [list_add_prio]; [set_solver|].
  destruct (_ <? _); [set_solver|]. rewrite !elem_of_cons, IH. tauto.
Qed.

Lemma add_sorted (reg : ops) l : StronglySorted prio_le l → StronglySorted prio_le (list_add_prio reg l).
Proof.
  induction 1 as [|i l Hl IH Hi]; cbn [list_add_prio]; [by repeat constructor|].
  destruct (Z.ltb_spec (ops_priority reg) (ops_priority i)) as [Hlt|Hge].
  - constructor; [by constructor|]. constructor; [unfold prio_le; lia|].
    eapply Forall_impl; [exact Hi|]. unfold prio_le. intros o ?. lia.
  - constructor; [done|]. apply Forall_forall. intros o Ho. apply add_elem in Ho as [->|Ho]; [exact Hge|].
    by eapply Forall_forall in Hi.
Qed.

Lemma of_prio_above p l : Forall (λ o, p < ops_priority o) l → of_prio p l = [].
Proof.
  induction 1 as [|o l Ho Hl IH]; [done|]. rewrite of_prio_cons, IH. case_decide; [lia|done].
Qed.

(** A new function comes last among those of its priority. *)
Lemma add_of_prio reg l p : StronglySorted prio_le l →
  of_prio p (list_add_prio reg l) = of_prio p l ++ of_prio p [reg].
Proof.
  induction 1 as [|i l Hl IH Hi]; cbn [list_add_prio]; [done|].
  destruct (Z.ltb_spec (ops_priority reg) (ops_priority i)) as [Hlt|Hge].
  - rewrite (of_prio_cons p reg (i :: l)), (of_prio_cons p reg []). case_decide as E; [|by rewrite app_nil_r].
    rewrite (of_prio_above p (i :: l)); [done|]. constructor; [lia|].
    eapply Forall_impl; [exact Hi|]. unfold prio_le. intros o ?. lia.
  - rewrite !(of_prio_cons p i), IH. by case_decide.
Qed.


Lemma of_prio_elem p l o : o ∈ of_prio p l ↔ ops_priority o = p ∧ o ∈ l.
Proof. unfold of_prio. by rewrite list_elem_of_filter. Qed.

(** A sorted list is determined by what it has of each priority. *)
Lemma sorted_unique l k : StronglySorted prio_le l → StronglySorted prio_le k →
  (∀ p, of_prio p l = of_prio p k) → l = k.
Proof.
  intros Hl. revert k. induction Hl as [|a l Hl IH Ha]; intros k Hk E.
  - destruct k as [|b k]; [done|]. specialize (E (ops_priority b)). rewrite of_prio_cons, decide_True in E; done.
  - destruct k as [|b k]; [specialize (E (ops_priority a)); rewrite of_prio_cons, decide_True in E; done|].
    assert (ops_priority a = ops_priority b) as Eab.
    { assert (b ∈ a :: l) as Hb.
      { apply (of_prio_elem (ops_priority b)). rewrite E, of_prio_cons, decide_True; [left|done]. }
      assert (a ∈ b :: k) as Hak.
      { apply (of_prio_elem (ops_priority a)). rewrite <- E, of_prio_cons, decide_True; [left|done]. }
      apply StronglySorted_inv in Hk as [_ Hk]. rewrite Forall_forall in Ha, Hk.
      apply elem_of_cons in Hb as [->|Hb]; [done|]. apply elem_of_cons in Hak as [->|Hak]; [done|].
      specialize (Ha _ Hb). specialize (Hk _ Hak). unfold prio_le in *. lia. }
    pose proof (E (ops_priority a)) as E0. rewrite !of_prio_cons, decide_True, decide_True in E0 by done.
    injection E0 as <- _. f_equal. apply IH; [by apply StronglySorted_inv in Hk as [? _]|].
    intros p. specialize (E p). rewrite !of_prio_cons in E. case_decide; [by injection E|done].
Qed.

(** ** The books *)

(** The functions of a history of registrations that belong to one point. *)
Definition at_point (pf hook : Z) (log : list ops) : list ops :=
  filter (λ o, ops_pf o = pf ∧ ops_hooknum o = hook) log.

Definition owner_uses (e : P * nf_info P D K W R) : positive → Z := one (ops_owner (i_elem e.2)).
Definition dev_uses (e : P * nf_info P D K W R) (d : D) : Z := one (i_indev e.2) d + one (i_outdev e.2) d.

(** The reference counts are those of [base] and [dbase] and one for each packet out. *)
Record counts_ok (base : positive → Z) (dbase : D → Z) (s : state) : Prop := {
  co_refs q : nf_refs s q = base q + sum_refs owner_uses (nf_queued s) q;
  co_devs d : dev_refs s d = dbase d + sum_refs dev_uses (nf_queued s) d }.

Record chains_ok (log : list ops) (s : state) : Prop := {
  ch_sorted pf hook : StronglySorted prio_le (nf_hooks s pf hook);
  ch_prio pf hook p : of_prio p (nf_hooks s pf hook) = of_prio p (at_point pf hook log) }.

(** An operation that only moves packets keeps the lists of functions. *)
Definition same_config (s s' : state) : Prop :=
  nf_hooks s' = nf_hooks s ∧ queue_handler s' = queue_handler s ∧ queue_rerouter s' = queue_rerouter s.

Lemma same_config_refl s : same_config s s.
Proof. done. Qed.
Lemma same_config_trans s1 s2 s3 : same_config s1 s2 → same_config s2 s3 → same_config s1 s3.
Proof. intros (E1 & E2 & E3) (F1 & F2 & F3). by split_and!; etrans. Qed.

Lemma chains_same log s s' : same_config s s' → chains_ok log s → chains_ok log s'.
Proof. intros (E & _) [H1 H2]. split; intros *; rewrite E; [apply H1|apply H2]. Qed.

Lemma register_chains log reg s : chains_ok log s → chains_ok (log ++ [reg]) (nf_register_hook reg s).
Proof.
  intros [H1 H2]. split.
  - intros pf hook. cbn [nf_register_hook set_hooks_at nf_hooks]. destruct (_ && _); [by apply add_sorted|apply H1].
  - intros pf hook p. cbn [nf_register_hook set_hooks_at nf_hooks]. unfold at_point. rewrite filter_app.
    rewrite of_prio_app. fold (at_point pf hook log). rewrite <- H2.
    destruct ((pf =? ops_pf reg) && (hook =? ops_hooknum reg)) eqn:E.
    + apply andb_true_iff in E as [->%Z.eqb_eq ->%Z.eqb_eq]. rewrite add_of_prio by apply H1. f_equal.
      rewrite filter_cons_True by done. reflexivity.
    + rewrite filter_cons_False; [by rewrite app_nil_r|].
      intros [<- <-]. by rewrite !Z.eqb_refl in E.
Qed.

Lemma filter_sorted (Q : ops → Prop) `{∀ o, Decision (Q o)} l :
  StronglySorted prio_le l → StronglySorted prio_le (filter Q l).
Proof.
  induction 1 as [|a l Hl IH Ha]; [constructor|]. rewrite filter_cons. case_decide; [|done].
  constructor; [done|]. apply Forall_forall. intros o [_ Ho]%list_elem_of_filter. by eapply Forall_forall in Ha.
Qed.

Lemma filter_comm {A} (Q1 Q2 : A → Prop) `{∀ o, Decision (Q1 o)} `{∀ o, Decision (Q2 o)} (l : list A) :
  filter Q1 (filter Q2 l) = filter Q2 (filter Q1 l).
Proof.
  induction l as [|a l IH]; [done|]. rewrite (filter_cons Q2), (filter_cons Q1).
  repeat case_decide; rewrite ?(filter_cons_True Q1), ?(filter_cons_True Q2), ?(filter_cons_False Q1), ?(filter_cons_False Q2) by done;
    by rewrite IH.
Qed.

Lemma filter_all {A} (Q : A → Prop) `{∀ o, Decision (Q o)} (l : list A) : Forall Q l → filter Q l = l.
Proof. induction 1 as [|a l Ha Hl IH]; [done|]. by rewrite filter_cons_True, IH. Qed.

Lemma unregister_chains log reg s : reg ∈ log → NoDup (ops_id <$> log) → chains_ok log s →
  chains_ok (filter (λ o, ops_id o ≠ ops_id reg) log) (nf_unregister_hook reg s).
Proof.
  intros Hin Hnd [H1 H2]. split.
  - intros pf hook. cbn [nf_unregister_hook set_hooks_at nf_hooks]. destruct (_ && _); [by apply filter_sorted|apply H1].
  - intros pf hook p. cbn [nf_unregister_hook set_hooks_at nf_hooks].
    assert (of_prio p (at_point pf hook (filter (λ o, ops_id o ≠ ops_id reg) log))
            = filter (λ o, ops_id o ≠ ops_id reg) (of_prio p (nf_hooks s pf hook))) as ->.
    { rewrite H2. unfold of_prio, at_point. by rewrite (filter_comm _ (λ o, ops_id o ≠ ops_id reg)), (filter_comm _ (λ o, ops_id o ≠ ops_id reg)). }
    destruct ((pf =? ops_pf reg) && (hook =? ops_hooknum reg)) eqn:E.
    + apply andb_true_iff in E as [->%Z.eqb_eq ->%Z.eqb_eq]. unfold of_prio. apply filter_comm.
    + symmetry. apply filter_all. rewrite H2. apply Forall_forall. intros o [_ [[Hp Hh] Ho]%list_elem_of_filter]%of_prio_elem Hid.
      assert (o = reg) as ->; [|by rewrite Hp, Hh, !Z.eqb_refl in E].
      apply list_elem_of_lookup_1 in Ho as [i Hi]. apply list_elem_of_lookup_1 in Hin as [j Hj].
      assert (i = j) as <-; [|congruence]. eapply NoDup_lookup; [exact Hnd|by rewrite list_lookup_fmap, Hi|].
      rewrite list_lookup_fmap, Hj. cbn. by rewrite Hid.
Qed.

(** ** Packets that are taken out *)

(** From [s] to [s'] the packets [es] are taken out, with their references. *)
Record took (es : list (P * nf_info P D K W R)) (s s' : state) : Prop := {
  tk_config : same_config s s';
  tk_queued : nf_queued s' = nf_queued s ++ es;
  tk_refs q : nf_refs s' q = nf_refs s q + sum_refs owner_uses es q;
  tk_devs d : dev_refs s' d = dev_refs s d + sum_refs dev_uses es d }.

Lemma took_nil s : took [] s s.
Proof. split; [done|by rewrite app_nil_r|intros q; cbn; lia..]. Qed.

Lemma took_counts es base dbase s s' : took es s s' → counts_ok base dbase s → counts_ok base dbase s'.
Proof.
  intros [_ H2 H3 H4] [C1 C2]. split; intros q; rewrite H2, sum_refs_app; [rewrite H3, C1|rewrite H4, C2]; lia.
Qed.

Lemma nf_queue_took env skb elem pf hook indev outdev okfn n s r f s' :
  nf_queue env skb elem pf hook indev outdev okfn n s = Some (r, f, s') →
  r = 0 ∧ f = Kept ∧ s' = s ∨ r = 1 ∧ f = Freed ∧ took [] s s' ∨
  ∃ saved, r = 1 ∧ f = Held ∧ took [(skb, mk_nf_info elem pf hook indev outdev okfn saved)] s s'.
Proof.
  unfold nf_queue. destruct (queue_handler s pf) as [qh|].
  2:{ intros E. injection E as <- <- <-. right; left. split_and!; [done..|apply took_nil]. }
  destruct (queue_rerouter s pf) as [rer|]; cbn [mbind option_bind]; [|done].
  destruct (nf_mem env _); cbn [negb]; [|intros E; injection E as <- <- <-; right; left; split_and!; [done..|apply took_nil]].
  destruct (match ops_owner elem with Some m => nf_live env m | None => true end); cbn [negb].
  2:{ intros E. injection E as <- <- <-. by left. }
  destruct (_ <? 0); intros E; injection E as <- <- <-.
  - right; left. split_and!; [done..|]. split; [done|cbn; by rewrite app_nil_r|intros q; cbn; lia|intros d; cbn; lia].
  - right; right. eexists. split_and!; [done..|]. split; [done|done|intros q; cbn; unfold owner_uses; cbn; lia|].
    intros d; cbn; unfold dev_uses; cbn. lia.
Qed.

Lemma nf_iterate_bound fuel (l : list ops) i skb hook indev outdev okfn thresh w v j skb' w' :
  nf_iterate fuel l i skb hook indev outdev okfn thresh w = Some (v, j, skb', w') → v ≠ NF_ACCEPT → (i < j)%nat.
Proof.
  revert i skb w. induction fuel as [|fuel IH]; intros i skb w; [done|]. cbn [nf_iterate].
  destruct (l !! i) as [elem|]; [|intros E; injection E as <- <- <- <-; done].
  destruct (_ <? thresh); [intros E Hv; specialize (IH _ _ _ E Hv); lia|].
  destruct (ops_hook elem _ _ _ _ _ _) as [[[v1 skb1] w1]|]; cbn [mbind option_bind]; [|done].
  destruct (v1 =? NF_ACCEPT) eqn:E1; [intros E Hv; specialize (IH _ _ _ E Hv); lia|].
  destruct (v1 =? NF_REPEAT); [intros E Hv; exact (IH _ _ _ E Hv)|]. intros E. injection E as <- <- <- <-. lia.
Qed.

(** What [nf_hook_slow] does with the packet.  The return value tells its fate. *)
Lemma nf_hook_loop_took env fuel i pf hook skb indev outdev okfn thresh w s ret f skb' w' s' :
  nf_hook_loop env fuel i pf hook skb indev outdev okfn thresh w s = Some (ret, f, skb', w', s') →
  took [] s s' ∧ (ret = 1 ∧ f = Kept ∨ ret = - EPERM ∧ f = Freed ∨ ret = 0 ∧ (f = Freed ∨ f = Left)) ∨
  ∃ j elem saved, ret = 0 ∧ f = Held ∧ (i <= j)%nat ∧ nf_hooks s pf hook !! j = Some elem ∧
    took [(skb', mk_nf_info elem pf hook indev outdev okfn saved)] s s'.
Proof.
  revert i skb w s. induction fuel as [|fuel IH]; intros i skb w s; [done|]. cbn [nf_hook_loop].
  destruct (nf_iterate _ _ _ _ _ _ _ _ _ _) as [[[[v j] skb1] w1]|] eqn:Ei; cbn [mbind option_bind]; [|done].
  destruct ((v =? NF_ACCEPT) || (v =? NF_STOP)) eqn:E1.
  { intros E. injection E as <- <- <- <- <-. left. split; [apply took_nil|by left]. }
  destruct (v =? NF_DROP).
  { intros E. injection E as <- <- <- <- <-. left. split; [apply took_nil|by right; left]. }
  destruct (_ =? NF_QUEUE); [|intros E; injection E as <- <- <- <- <-; left; split; [apply took_nil|by right; right; split; [|right]]].
  destruct (nf_hooks s pf hook !! pred j) as [elem|] eqn:Ej; cbn [mbind option_bind]; [|done].
  destruct (nf_queue _ _ _ _ _ _ _ _ _ _) as [[[r f1] s1]|] eqn:Eq; cbn [mbind option_bind]; [|done].
  assert (i < j)%nat as Hij.
  { eapply nf_iterate_bound; [exact Ei|]. intros ->. by rewrite Z.eqb_refl in E1. }
  apply nf_queue_took in Eq as [(-> & -> & ->)|[(-> & -> & Ht)|(saved & -> & -> & Ht)]].
  - change (0 =? 0) with true. cbv iota. intros E. apply IH in E as [?|(j' & elem' & saved & ? & ? & Hj' & ? & ?)]; [by left|].
    right. exists j', elem', saved. split_and!; try done. lia.
  - change (1 =? 0) with false. intros E. injection E as <- <- <- <- <-. left. split; [done|]. by right; right; split; [|left].
  - change (1 =? 0) with false. intros E. injection E as <- <- <- <- <-. right. exists (pred j), elem, saved. split_and!; try done. lia.
Qed.

(** The packet that comes back leaves the books. *)
Definition given_back (n : nat) (info : nf_info P D K W R) (s : state) : state :=
  owner_add (ops_owner (i_elem info)) (-1) (dev_add (i_outdev info) (-1) (dev_add (i_indev info) (-1)
    (set_queued (delete n (nf_queued s)) s))).

Lemma given_back_counts n skb info base dbase s : nf_queued s !! n = Some (skb, info) →
  counts_ok base dbase s → counts_ok base dbase (given_back n info s).
Proof.
  intros Hn [C1 C2]. split; intros q; cbn [given_back owner_add dev_add set_queued nf_refs dev_refs nf_queued];
    rewrite (sum_refs_delete _ _ _ _ _ Hn); [rewrite C1; unfold owner_uses|rewrite C2; unfold dev_uses]; cbn [snd]; lia.
Qed.

Lemma nf_reinject_loop_took env fuel i info skb w s f skb' w' s' :
  nf_reinject_loop env fuel i info skb w s = Some (f, skb', w', s') → ∃ es, took es s s'.
Proof.
  revert i skb w s. induction fuel as [|fuel IH]; intros i skb w s; [done|]. cbn [nf_reinject_loop].
  destruct (nf_iterate _ _ _ _ _ _ _ _ _ _) as [[[[v j] skb1] w1]|]; cbn [mbind option_bind]; [|done].
  destruct (_ =? NF_ACCEPT); [intros E; injection E as <- <- <- <-; exists []; apply took_nil|].
  destruct (_ =? NF_QUEUE); [|intros E; injection E as <- <- <- <-; exists []; apply took_nil].
  destruct (_ !! pred j) as [elem|]; cbn [mbind option_bind]; [|done].
  destruct (nf_queue _ _ _ _ _ _ _ _ _ _) as [[[r f1] s1]|] eqn:Eq; cbn [mbind option_bind]; [|done].
  apply nf_queue_took in Eq as [(-> & -> & ->)|[(-> & -> & Ht)|(saved & -> & -> & Ht)]].
  - change (0 =? 0) with true. apply IH.
  - change (1 =? 0) with false. intros E. injection E as <- <- <- <-. by eexists.
  - change (1 =? 0) with false. intros E. injection E as <- <- <- <-. by eexists.
Qed.

(** [nf_reinject] in three parts: the verdict and the position by the list, the route,
    and the rest. *)
Definition reinject_at (verdict : Z) (info : nf_info P D K W R) (s : state) : Z * nat :=
  match list_find (λ o, ops_id o = ops_id (i_elem info)) (nf_hooks s (i_pf info) (i_hook info)) with
  | None => (NF_DROP, 0%nat)
  | Some (i, _) => if verdict =? NF_REPEAT then (NF_ACCEPT, i) else (verdict, S i)
  end.

Definition rerouted (info : nf_info P D K W R) (skb : P) (w : W) (s : state) : bool * P * W :=
  match queue_rerouter s (i_pf info) with
  | Some rerouter => let '(r, skb, w) := rer_reroute rerouter skb (i_hook info) (i_saved info) w in (negb (r <? 0), skb, w)
  | None => (true, skb, w)
  end.

Definition reinject_end (env : nf_env) (fuel i : nat) (info : nf_info P D K W R) (verdict : Z) (skb : P) (w : W)
    (s : state) : option (fate * P * W * state) :=
  if Z.land verdict NF_VERDICT_MASK =? NF_ACCEPT then Some (Passed, skb, w, s)
  else if Z.land verdict NF_VERDICT_MASK =? NF_QUEUE then
    '(r, f, s) ← nf_queue env skb (i_elem info) (i_pf info) (i_hook info) (i_indev info) (i_outdev info)
                   (i_okfn info) (Z.shiftr verdict NF_VERDICT_BITS) s;
    if r =? 0 then nf_reinject_loop env fuel i info skb w s else Some (f, skb, w, s)
  else Some (if verdict =? NF_DROP then Freed else Left, skb, w, s).

Lemma nf_reinject_parts env fuel n skb verdict w s : nf_reinject env fuel n skb verdict w s =
  '(_, info) ← nf_queued s !! n;
  let s := given_back n info s in
  let (v, i) := reinject_at verdict info s in
  if v =? NF_ACCEPT then
    let '(ok, skb, w) := rerouted info skb w s in
    if ok : bool then nf_reinject_loop env fuel i info skb w s else Some (Freed, skb, w, s)
  else reinject_end env fuel i info v skb w s.
Proof.
  unfold nf_reinject. destruct (nf_queued s !! n) as [[skb0 info]|]; cbn [mbind option_bind]; [|done].
  fold (given_back n info s). set (t := given_back n info s).
  change (match list_find _ _ with Some (i, _) => _ | None => _ end) with (reinject_at verdict info t).
  destruct (reinject_at verdict info t) as [v i]. destruct (v =? NF_ACCEPT) eqn:Ev; [|by rewrite Ev].
  unfold rerouted. destruct (queue_rerouter t (i_pf info)) as [rer|]; [|by rewrite Ev].
  destruct (rer_reroute rer skb (i_hook info) (i_saved info) w) as [[r skb1] w1]. destruct (r <? 0); cbn [negb]; [reflexivity|by rewrite Ev].
Qed.

Lemma nf_reinject_took env fuel n skb verdict w s f skb' w' s' :
  nf_reinject env fuel n skb verdict w s = Some (f, skb', w', s') →
  ∃ skb0 info es, nf_queued s !! n = Some (skb0, info) ∧ took es (given_back n info s) s'.
Proof.
  rewrite nf_reinject_parts. destruct (nf_queued s !! n) as [[skb0 info]|]; cbn [mbind option_bind]; [|done].
  cbv zeta. set (t := given_back n info s). destruct (reinject_at _ _ _) as [v i]. intros E.
  assert (∃ es, took es t s') as [es Ht]; [|by exists skb0, info, es].
  destruct (v =? NF_ACCEPT).
  - destruct (rerouted _ _ _ _) as [[ok skb1] w1]. destruct ok; [by eapply nf_reinject_loop_took|].
    injection E as <- <- <- <-. exists []. apply took_nil.
  - unfold reinject_end in E. destruct (_ =? NF_ACCEPT); [injection E as <- <- <- <-; exists []; apply took_nil|].
    destruct (_ =? NF_QUEUE); [|injection E as <- <- <- <-; exists []; apply took_nil].
    destruct (nf_queue _ _ _ _ _ _ _ _ _ _) as [[[r f1] s1]|] eqn:Eq; cbn [mbind option_bind] in E; [|done].
    apply nf_queue_took in Eq as [(-> & -> & ->)|[(-> & -> & Ht)|(saved & -> & -> & Ht)]].
    + change (0 =? 0) with true in E. cbv iota in E. by eapply nf_reinject_loop_took.
    + change (1 =? 0) with false in E. injection E as <- <- <- <-. by eexists.
    + change (1 =? 0) with false in E. injection E as <- <- <- <-. by eexists.
Qed.

(** ** The hooks as a system

    The history of registrations is kept beside the state.  A structure is registered
    once, and unregistered when it is registered. *)
Inductive nf_step : list ops * state → list ops * state → Prop :=
  | step_register log s reg : ops_id reg ∉ ops_id <$> log → nf_step (log, s) (log ++ [reg], nf_register_hook reg s)
  | step_remove log s reg : reg ∈ log →
      nf_step (log, s) (filter (λ o, ops_id o ≠ ops_id reg) log, nf_unregister_hook reg s)
  | step_handler log s pf qh : nf_step (log, s) (log, (nf_register_queue_handler pf qh s).2)
  | step_no_handler log s pf : nf_step (log, s) (log, (nf_unregister_queue_handler pf s).2)
  | step_no_handlers log s qh : nf_step (log, s) (log, nf_unregister_queue_handlers qh s)
  | step_rerouter log s pf rer : nf_step (log, s) (log, (nf_register_queue_rerouter pf rer s).2)
  | step_no_rerouter log s pf : nf_step (log, s) (log, (nf_unregister_queue_rerouter pf s).2)
  | step_hook log s env fuel pf hook skb indev outdev okfn thresh w ret f skb' w' s' :
      nf_hook_slow env fuel pf hook skb indev outdev okfn thresh w s = Some (ret, f, skb', w', s') →
      nf_step (log, s) (log, s')
  | step_reinject log s env fuel n skb verdict w f skb' w' s' :
      nf_reinject env fuel n skb verdict w s = Some (f, skb', w', s') → nf_step (log, s) (log, s').

Definition nf_inv (base : positive → Z) (dbase : D → Z) (x : list ops * state) : Prop :=
  NoDup (ops_id <$> x.1) ∧ chains_ok x.1 x.2 ∧ counts_ok base dbase x.2.

Lemma filter_ids (Q : ops → Prop) `{∀ o, Decision (Q o)} l : NoDup (ops_id <$> l) → NoDup (ops_id <$> filter Q l).
Proof.
  induction l as [|o l IH]; [done|]. rewrite fmap_cons, NoDup_cons, filter_cons. intros [Ho Hl].
  case_decide; [|by apply IH]. rewrite fmap_cons, NoDup_cons. split; [|by apply IH].
  intros (o' & Ho' & [_ Hin]%list_elem_of_filter)%list_elem_of_fmap. apply Ho. rewrite Ho'. by apply list_elem_of_fmap_2.
Qed.

Lemma nf_step_inv base dbase x y : nf_step x y → nf_inv base dbase x → nf_inv base dbase y.
Proof.
  intros HS (HN & HC & HR). destruct HS as [log s reg Hn|log s reg Hin|log s pf qh|log s pf|log s qh|log s pf rer|log s pf|
    log s env fuel pf hook skb indev outdev okfn thresh w ret f skb' w' s' E|log s env fuel n skb verdict w f skb' w' s' E];
    cbn [fst snd] in *.
  - split_and!; [|by apply register_chains|by destruct HR; split].
    cbn [fst]. rewrite fmap_app. apply NoDup_app. split; [done|]. split; [set_solver|apply NoDup_singleton].
  - split_and!; [by apply filter_ids|by apply unregister_chains|by destruct HR; split].
  - unfold nf_register_queue_handler. repeat case_match; by split_and!; [..|destruct HC|destruct HR].
  - unfold nf_unregister_queue_handler. repeat case_match; by split_and!; [..|destruct HC|destruct HR].
  - by split_and!; [..|destruct HC|destruct HR].
  - unfold nf_register_queue_rerouter. repeat case_match; by split_and!; [..|destruct HC|destruct HR].
  - unfold nf_unregister_queue_rerouter. repeat case_match; by split_and!; [..|destruct HC|destruct HR].
  - assert (∃ es, took es s s') as [es Ht].
    { apply nf_hook_loop_took in E as [[? _]|(j & elem & saved & _ & _ & _ & _ & ?)]; by eexists. }
    split_and!; [done|eapply chains_same; [apply Ht|done]|by eapply took_counts].
  - apply nf_reinject_took in E as (skb0 & info & es & Hn & Ht).
    split_and!; [done| |eapply took_counts; [exact Ht|by eapply given_back_counts]].
    eapply chains_same; [apply Ht|]. by destruct HC.
Qed.

(** C12: The hooks are in order and the books of queued packets are right.  Whatever is
    registered and removed, and whatever packets pass, are queued, come back or get lost:
    each list has exactly the functions registered at that point, by ascending priority,
    those of the same priority in the order of their registration; and each module and
    each device is referenced once for every packet that is out on its behalf. *)
Theorem nf_books base dbase qh rr log (s : state) :
  rtc nf_step ([], mk_nf (λ _ _, []) qh rr base dbase []) (log, s) →
  (∀ pf hook, StronglySorted prio_le (nf_hooks s pf hook) ∧
     ∀ p, of_prio p (nf_hooks s pf hook) = of_prio p (at_point pf hook log)) ∧
  (∀ q, nf_refs s q = base q + sum_refs owner_uses (nf_queued s) q) ∧
  ∀ d, dev_refs s d = dbase d + sum_refs dev_uses (nf_queued s) d.
Proof.
  intros HS. assert (nf_inv base dbase (log, s)) as (_ & [H1 H2] & [H3 H4]).
  { eapply (rtc_ind_r (nf_inv base dbase)); [|intros x y _ Hstep; by apply nf_step_inv|exact HS].
    split; [constructor|]. split; split; cbn; [constructor|done|intros; lia..]. }
  split; [|done]. intros pf hook. split; [apply H1|apply H2].
Qed.

(** ** A queued packet goes on where it was *)

(** The verdicts that a function may return. *)
Definition legal (v : Z) : Prop :=
  v = NF_DROP ∨ v = NF_ACCEPT ∨ v = NF_STOLEN ∨ v = NF_REPEAT ∨ v = NF_STOP ∨ Z.land v NF_VERDICT_MASK = NF_QUEUE.
Definition legal_hooks (l : list ops) : Prop :=
  ∀ o, o ∈ l → ∀ hook skb indev outdev k w v skb' w',
    ops_hook o hook skb indev outdev k w = Some (v, skb', w') → legal v.

(** [t] is [s] with the list of that point from position [n] on. *)
Record resumes (n : nat) (pf hook : Z) (s t : state) : Prop := {
  re_chain : nf_hooks t pf hook = drop n (nf_hooks s pf hook);
  re_handler : queue_handler t = queue_handler s;
  re_rerouter : queue_rerouter t = queue_rerouter s;
  re_queued : nf_queued t = nf_queued s;
  re_refs : nf_refs t = nf_refs s;
  re_devs : dev_refs t = dev_refs s }.

Lemma nf_iterate_drop fuel (l : list ops) n i skb hook indev outdev okfn thresh w :
  nf_iterate fuel l (n + i) skb hook indev outdev okfn thresh w
  = (λ '(v, j, skb, w), (v, (n + j)%nat, skb, w)) <$> nf_iterate fuel (drop n l) i skb hook indev outdev okfn thresh w.
Proof.
  revert i skb w. induction fuel as [|fuel IH]; intros i skb w; [done|]. cbn [nf_iterate]. rewrite lookup_drop.
  destruct (l !! (n + i)%nat) as [elem|]; [|done]. rewrite <- Nat.add_succ_r.
  destruct (_ <? thresh); [apply IH|].
  destruct (ops_hook elem _ _ _ _ _ _) as [[[v skb1] w1]|]; cbn [mbind option_bind]; [|done].
  destruct (v =? NF_ACCEPT); [apply IH|]. destruct (v =? NF_REPEAT); [apply IH|]. done.
Qed.

Lemma nf_iterate_legal fuel (l : list ops) i skb hook indev outdev okfn thresh w v j skb' w' :
  legal_hooks l → nf_iterate fuel l i skb hook indev outdev okfn thresh w = Some (v, j, skb', w') → legal v ∧ v ≠ NF_REPEAT.
Proof.
  intros Hl. revert i skb w. induction fuel as [|fuel IH]; intros i skb w; [done|]. cbn [nf_iterate].
  destruct (l !! i) as [elem|] eqn:Ei; [|intros E; injection E as <- <- <- <-; split; [by right; left|done]].
  destruct (_ <? thresh); [apply IH|].
  destruct (ops_hook elem _ _ _ _ _ _) as [[[v1 skb1] w1]|] eqn:Eo; cbn [mbind option_bind]; [|done].
  destruct (v1 =? NF_ACCEPT); [apply IH|]. destruct (v1 =? NF_REPEAT) eqn:Er; [apply IH|].
  intros E. injection E as <- <- <- <-. split; [|by apply Z.eqb_neq].
  eapply Hl; [by eapply list_elem_of_lookup_2|exact Eo].
Qed.

(** Whether the run of [nf_hook_slow] from position [i] on ends with [NF_STOP]. *)
Fixpoint stops (env : nf_env) (fuel : nat) (i : nat) (pf hook : Z) (skb : P) (indev outdev : option D) (okfn : K)
    (w : W) (s : state) : bool :=
  match fuel with
  | O => false
  | S fuel =>
      match nf_iterate fuel (nf_hooks s pf hook) i skb hook indev outdev okfn INT_MIN w with
      | None => false
      | Some (v, i, skb, w) =>
          if v =? NF_STOP then true
          else if Z.land v NF_VERDICT_MASK =? NF_QUEUE then
            match elem ← nf_hooks s pf hook !! pred i;
                  nf_queue env skb elem pf hook indev outdev okfn (Z.shiftr v NF_VERDICT_BITS) s with
            | Some (r, _, s) => if r =? 0 then stops env fuel i pf hook skb indev outdev okfn w s else false
            | None => false
            end
          else false
      end
  end.

(** Both ends agree: a packet that [nf_hook_slow] lets its caller pass is passed, except
    that one it lets pass because of [NF_STOP] is left. *)
Definition same_end (n : nat) (pf hook : Z) (stop : bool) (a : option (fate * P * W * state))
    (b : option (Z * fate * P * W * state)) : Prop :=
  match a, b with
  | Some (f, skb, w, s), Some (ret, f0, skb0, w0, t) =>
      f = (if ret =? 1 then if stop then Left else Passed else f0) ∧ skb = skb0 ∧ w = w0 ∧ resumes n pf hook s t
  | None, None => True
  | _, _ => False
  end.

Lemma nf_queue_resumes env skb elem pf hook indev outdev okfn m n s t : resumes n pf hook s t →
  match nf_queue env skb elem pf hook indev outdev okfn m s, nf_queue env skb elem pf hook indev outdev okfn m t with
  | Some (r, f, s'), Some (r', f', t') => r' = r ∧ f' = f ∧ resumes n pf hook s' t'
  | None, None => True
  | _, _ => False
  end.
Proof.
  intros H. pose proof H as [R1 R2 R3 R4 R5 R6]. unfold nf_queue. rewrite R2, R3.
  destruct (queue_handler s pf) as [qh|]; [|done]. destruct (queue_rerouter s pf) as [rer|]; cbn [mbind option_bind]; [|done].
  destruct (nf_mem env _); cbn [negb]; [|done].
  destruct (match ops_owner elem with Some m => nf_live env m | None => true end); cbn [negb]; [|done].
  destruct (_ <? 0); split_and!; try done; split; cbn; by rewrite ?R1, ?R2, ?R3, ?R4, ?R5, ?R6.
Qed.

Lemma queue_not_accept v : Z.land v NF_VERDICT_MASK = NF_QUEUE → v ≠ NF_ACCEPT ∧ v ≠ NF_STOP ∧ v ≠ NF_DROP.
Proof. intros E. split_and!; intros ->; discriminate E. Qed.

Lemma resume_loop env fuel n i info skb w s t : resumes n (i_pf info) (i_hook info) s t →
  legal_hooks (nf_hooks t (i_pf info) (i_hook info)) →
  same_end n (i_pf info) (i_hook info)
    (stops env fuel i (i_pf info) (i_hook info) skb (i_indev info) (i_outdev info) (i_okfn info) w t)
    (nf_reinject_loop env fuel (n + i) info skb w s)
    (nf_hook_loop env fuel i (i_pf info) (i_hook info) skb (i_indev info) (i_outdev info) (i_okfn info) INT_MIN w t).
Proof.
  revert i skb w s t. induction fuel as [|fuel IH]; intros i skb w s t HR HP; [done|].
  cbn [nf_reinject_loop nf_hook_loop stops]. rewrite nf_iterate_drop, <- (re_chain _ _ _ _ _ HR).
  destruct (nf_iterate _ _ _ _ _ _ _ _ _ _) as [[[[v j] skb1] w1]|] eqn:Ei; cbn [fmap option_fmap option_map mbind option_bind]; [|done].
  pose proof (nf_iterate_legal _ _ _ _ _ _ _ _ _ _ _ _ _ _ HP Ei) as [Hv Hr].
  destruct Hv as [->|[->|[->|[->|[->|Hv]]]]]; [by split_and!..|done|by split_and!|].
  destruct (queue_not_accept v Hv) as (N1 & N2 & N3). rewrite Hv. change (NF_QUEUE =? NF_ACCEPT) with false.
  change (NF_QUEUE =? NF_QUEUE) with true. rewrite !(proj2 (Z.eqb_neq _ _)) by done. cbn [orb].
  pose proof (nf_iterate_bound _ _ _ _ _ _ _ _ _ _ _ _ _ _ Ei N1) as Hij.
  assert (nf_hooks s (i_pf info) (i_hook info) !! pred (n + j) = nf_hooks t (i_pf info) (i_hook info) !! pred j) as ->.
  { rewrite (re_chain _ _ _ _ _ HR), lookup_drop. f_equal. lia. }
  destruct (_ !! pred j) as [elem|]; cbn [mbind option_bind]; [|done].
  pose proof (nf_queue_resumes env skb1 elem (i_pf info) (i_hook info) (i_indev info) (i_outdev info) (i_okfn info)
    (Z.shiftr v NF_VERDICT_BITS) n s t HR) as HQ.
  destruct (nf_queue _ _ _ _ _ _ _ _ _ s) as [[[r f1] s1]|] eqn:Eq, (nf_queue _ _ _ _ _ _ _ _ _ t) as [[[r' f1'] t1]|] eqn:Eq';
    cbn [mbind option_bind]; [|done..]. destruct HQ as (-> & -> & HR1).
  destruct (r =? 0); [|by split_and!].
  apply IH; [done|]. assert (nf_hooks t1 = nf_hooks t) as ->; [|done].
  by apply nf_queue_took in Eq' as [(_ & _ & ->)|[(_ & _ & [[] ])|(? & _ & _ & [[] ])]].
Qed.

Lemma find_in_chain (l : list ops) pre elem post : l = pre ++ elem :: post → NoDup (ops_id <$> l) →
  list_find (λ o, ops_id o = ops_id elem) l = Some (length pre, elem).
Proof.
  intros -> Hn. apply list_find_Some. split_and!; [by rewrite list_lookup_middle|done|].
  intros j y Hj Hlt E. assert (j = length pre); [|lia].
  eapply NoDup_lookup; [exact Hn|by rewrite list_lookup_fmap, Hj|]. rewrite list_lookup_fmap, list_lookup_middle by done.
  cbn. by rewrite E.
Qed.

Lemma resumes_at pf hook k n (s : state) : k = drop n (nf_hooks s pf hook) → resumes n pf hook s (set_hooks_at pf hook k s).
Proof. intros ->. split; [|done..]. cbn. by rewrite !Z.eqb_refl. Qed.

(** C13: A queued packet goes on where it was.  When [nf_hook_slow] hands a packet to user
    space, the packet is out with a note of the function that queued it.  Whatever has
    happened since, the references are given back when the packet returns.  If that
    function is still registered, a packet that user space refuses is dropped, and so is
    an accepted one that cannot be routed anew; with any other accepted packet
    [nf_reinject] does what [nf_hook_slow] would do with the functions that come after this
    one in the list of that moment, and with [NF_REPEAT] from this one on - with one
    exception: where [nf_hook_slow] would let the packet pass because a function says
    [NF_STOP], [nf_reinject] neither passes nor frees it.  If the function is gone the
    packet is dropped. *)
Theorem queue_resumes env fuel pf hook skb indev outdev okfn thresh w s skb1 w1 s1 :
  nf_hook_slow env fuel pf hook skb indev outdev okfn thresh w s = Some (0, Held, skb1, w1, s1) →
  ∃ info, i_elem info ∈ nf_hooks s pf hook ∧ nf_queued s1 = nf_queued s ++ [(skb1, info)] ∧
    ∀ (t : state) n env' fuel' skb2 w2, nf_queued t !! n = Some (skb1, info) →
      (∀ pre post, nf_hooks t pf hook = pre ++ i_elem info :: post →
         NoDup (ops_id <$> nf_hooks t pf hook) → legal_hooks (nf_hooks t pf hook) →
         nf_reinject env' fuel' n skb2 NF_DROP w2 t = Some (Freed, skb2, w2, given_back n info t) ∧
         match rerouted info skb2 w2 t with
         | (true, skb3, w3) =>
             (let t' := set_hooks_at pf hook post (given_back n info t) in
              same_end (S (length pre)) pf hook (stops env' fuel' 0 pf hook skb3 indev outdev okfn w3 t')
                (nf_reinject env' fuel' n skb2 NF_ACCEPT w2 t)
                (nf_hook_slow env' fuel' pf hook skb3 indev outdev okfn INT_MIN w3 t')) ∧
             (let t' := set_hooks_at pf hook (i_elem info :: post) (given_back n info t) in
              same_end (length pre) pf hook (stops env' fuel' 0 pf hook skb3 indev outdev okfn w3 t')
                (nf_reinject env' fuel' n skb2 NF_REPEAT w2 t)
                (nf_hook_slow env' fuel' pf hook skb3 indev outdev okfn INT_MIN w3 t'))
         | (false, skb3, w3) =>
             nf_reinject env' fuel' n skb2 NF_ACCEPT w2 t = Some (Freed, skb3, w3, given_back n info t) ∧
             nf_reinject env' fuel' n skb2 NF_REPEAT w2 t = Some (Freed, skb3, w3, given_back n info t)
         end) ∧
      (ops_id (i_elem info) ∉ ops_id <$> nf_hooks t pf hook → ∀ verdict,
         nf_reinject env' fuel' n skb2 verdict w2 t = Some (Freed, skb2, w2, given_back n info t)).
Proof.
  intros E. apply nf_hook_loop_took in E as [(_ & [[? _]|[[? _]|(_ & [?|?])]])|(j & elem & saved & _ & _ & _ & Hj & [_ Hq _ _])]; try done.
  set (info := mk_nf_info elem pf hook indev outdev okfn saved) in *. exists info.
  split; [by eapply list_elem_of_lookup_2|]. split; [exact Hq|]. intros t n env' fuel' skb2 w2 Hn.
  split.
  - intros pre post Hl Hid HP. rewrite !nf_reinject_parts, Hn. cbn [mbind option_bind]. cbv zeta.
    unfold reinject_at. change (nf_hooks (given_back n info t)) with (nf_hooks t). change (i_pf info) with pf. change (i_hook info) with hook.
    change (i_elem info) with elem. rewrite (find_in_chain _ pre elem post Hl Hid). change (NF_ACCEPT =? NF_REPEAT) with false.
    change (NF_REPEAT =? NF_REPEAT) with true. change (NF_DROP =? NF_REPEAT) with false. cbv iota.
    change (NF_ACCEPT =? NF_ACCEPT) with true. change (NF_DROP =? NF_ACCEPT) with false. cbv iota.
    change (rerouted info skb2 w2 (given_back n info t)) with (rerouted info skb2 w2 t). split; [reflexivity|].
    destruct (rerouted info skb2 w2 t) as [[[] skb3] w3]; [|split; reflexivity].
    assert (∀ m k (t' := set_hooks_at pf hook k (given_back n info t)), k = drop m (nf_hooks t pf hook) →
      same_end m pf hook (stops env' fuel' 0 pf hook skb3 indev outdev okfn w3 t')
        (nf_reinject_loop env' fuel' m info skb3 w3 (given_back n info t))
        (nf_hook_slow env' fuel' pf hook skb3 indev outdev okfn INT_MIN w3 t')) as Hk.
    { intros m k t' Ek. pose proof (resume_loop env' fuel' m 0 info skb3 w3 (given_back n info t) t'
        (resumes_at pf hook k m (given_back n info t) Ek)) as Hs. rewrite Nat.add_0_r in Hs. apply Hs.
      cbn. rewrite !Z.eqb_refl. cbn. rewrite Ek. intros o Ho. apply HP. by eapply subseteq_drop. }
    split; apply Hk; rewrite Hl; change (i_elem info) with elem.
    + by rewrite (cons_middle elem pre post), app_assoc, drop_app_length' by (rewrite length_app; cbn; lia).
    + by rewrite drop_app_length.
  - intros Hg verdict. rewrite nf_reinject_parts, Hn. cbn [mbind option_bind]. cbv zeta. unfold reinject_at.
    change (nf_hooks (given_back n info t)) with (nf_hooks t). change (i_pf info) with pf. change (i_hook info) with hook.
    assert (list_find (λ o, ops_id o = ops_id (i_elem info)) (nf_hooks t pf hook) = None) as ->; [|reflexivity].
    apply list_find_None, Forall_forall. intros o Ho Eid. apply Hg. rewrite <- Eid. by apply list_elem_of_fmap_2.
Qed.

(** ** A packet along a list, function by function

    For functions that do not ask to be called again. *)
Fixpoint run_hooks (l : list ops) (hook : Z) (skb : P) (indev outdev : option D) (okfn : K) (w : W)
    : option (Z * P * W) :=
  match l with
  | [] => Some (NF_ACCEPT, skb, w)
  | o :: l =>
      '(v, skb, w) ← ops_hook o hook skb indev outdev okfn w;
      if v =? NF_ACCEPT then run_hooks l hook skb indev outdev okfn w else Some (v, skb, w)
  end.

Lemma nf_iterate_run l : ∀ i m fuel hook skb indev outdev okfn w v skb' w',
  drop i l = m → Forall (λ o, INT_MIN <= ops_priority o) m → (length m < fuel)%nat → v ≠ NF_REPEAT →
  run_hooks m hook skb indev outdev okfn w = Some (v, skb', w') →
  ∃ j, nf_iterate fuel l i skb hook indev outdev okfn INT_MIN w = Some (v, j, skb', w').
Proof.
  intros i m. revert i. induction m as [|o m IH]; intros i fuel hook skb indev outdev okfn w v skb' w' Hd Hp Hf Hv.
  - destruct fuel as [|fuel]; [cbn in Hf; lia|]. cbn [run_hooks nf_iterate]. intros E. injection E as <- <- <-.
    rewrite (lookup_ge_None_2 l i); [by eexists|]. apply (f_equal length) in Hd. rewrite length_drop in Hd. cbn in Hd. lia.
  - destruct fuel as [|fuel]; [cbn in Hf; lia|]. apply Forall_cons_iff in Hp as [Ho Hp]. cbn [run_hooks nf_iterate length] in *.
    assert (l !! i = Some o) as ->.
    { pose proof (lookup_drop l i 0) as E. rewrite Hd, Nat.add_0_r in E. by symmetry. }
    rewrite (proj2 (Z.ltb_ge _ _)) by done.
    destruct (ops_hook o _ _ _ _ _ _) as [[[v1 skb1] w1]|]; cbn [mbind option_bind]; [|done].
    assert (drop (S i) l = m) as Hd' by (by rewrite <- Nat.add_1_r, <- drop_drop, Hd).
    destruct (v1 =? NF_ACCEPT) eqn:E1; [apply IH; [done|done|lia|done]|].
    intros E. injection E as -> <- <-. rewrite (proj2 (Z.eqb_neq _ _)) by done. by eexists.
Qed.

(** What [nf_hook_slow] does for the verdicts [NF_ACCEPT] and [NF_DROP]. *)
Lemma hook_slow_run env fuel pf hook skb indev outdev okfn w (s : state) v skb' w' :
  Forall (λ o, INT_MIN <= ops_priority o) (nf_hooks s pf hook) → (length (nf_hooks s pf hook) + 1 < fuel)%nat →
  v = NF_ACCEPT ∨ v = NF_DROP →
  run_hooks (nf_hooks s pf hook) hook skb indev outdev okfn w = Some (v, skb', w') →
  nf_hook_slow env fuel pf hook skb indev outdev okfn INT_MIN w s
  = Some (if v =? NF_ACCEPT then 1 else - EPERM, if v =? NF_ACCEPT then Kept else Freed, skb', w', s).
Proof.
  intros Hp Hf Hv E. destruct fuel as [|fuel]; [lia|]. unfold nf_hook_slow. cbn [nf_hook_loop].
  destruct (nf_iterate_run (nf_hooks s pf hook) 0 (nf_hooks s pf hook) fuel hook skb indev outdev okfn w v skb' w') as [j ->];
    [done|done|lia|by destruct Hv as [->| ->]|done|]. cbn [mbind option_bind]. by destruct Hv as [->| ->].
Qed.

(** ** The lists do not depend on the order of registration

    as long as no two functions of a point have the same priority. *)
Definition register_all (order : list ops) (s : state) : state := foldl (λ s o, nf_register_hook o s) s order.

Lemma register_all_chains order log s : chains_ok log s → chains_ok (log ++ order) (register_all order s).
Proof.
  revert log s. induction order as [|o order IH]; intros log s H; [by rewrite app_nil_r|].
  rewrite cons_middle, app_assoc. apply (IH (log ++ [o]) (nf_register_hook o s)). by apply register_chains.
Qed.

Lemma short_perm {A} (l k : list A) : l ≡ₚ k → (length k <= 1)%nat → l = k.
Proof.
  intros H Hk. destruct k as [|a [|b k]]; [by apply Permutation_nil_r|by apply Permutation_singleton_r|cbn in Hk; lia].
Qed.

Lemma of_prio_short p l : NoDup (ops_priority <$> l) → (length (of_prio p l) <= 1)%nat.
Proof.
  induction l as [|o l IH]; [cbn; lia|]. rewrite fmap_cons, NoDup_cons, of_prio_cons. intros [Ho Hl].
  case_decide as E; [|by apply IH]. cbn [length]. destruct (of_prio p l) as [|a k] eqn:Ek; [cbn; lia|].
  exfalso. assert (a ∈ of_prio p l) as [Ea Ha]%of_prio_elem by (rewrite Ek; left).
  apply Ho. rewrite E, <- Ea. by apply list_elem_of_fmap_2.
Qed.

Lemma order_free order order' s : order' ≡ₚ order → chains_ok [] s →
  (∀ pf hook, NoDup (ops_priority <$> at_point pf hook order)) →
  ∀ pf hook, nf_hooks (register_all order' s) pf hook = nf_hooks (register_all order s) pf hook.
Proof.
  intros Hperm Hs Hnd pf hook. destruct (register_all_chains order [] s Hs) as [S1 P1].
  destruct (register_all_chains order' [] s Hs) as [S2 P2]. apply sorted_unique; [apply S2|apply S1|].
  intros p. rewrite P1, P2. cbn [app]. apply short_perm; [|by apply of_prio_short].
  unfold of_prio, at_point. by rewrite Hperm.
Qed.

Lemma register_all_at order s pf hook : nf_hooks (register_all order s) pf hook
  = foldl (λ l o, list_add_prio o l) (nf_hooks s pf hook) (at_point pf hook order).
Proof.
  revert s. induction order as [|o order IH]; intros s; [done|]. unfold register_all in *. cbn [foldl]. rewrite IH.
  unfold at_point. rewrite filter_cons. cbn [nf_register_hook set_hooks_at nf_hooks]. case_decide as Hc.
  - destruct Hc as [<- <-]. by rewrite !Z.eqb_refl.
  - destruct ((pf =? ops_pf o) && (hook =? ops_hooknum o)) eqn:E; [|done].
    apply andb_true_iff in E as [->%Z.eqb_eq ->%Z.eqb_eq]. by destruct Hc.
Qed.

Definition ops_key (o : ops) : Z * Z * Z := (ops_pf o, ops_hooknum o, ops_priority o).

Lemma keys_distinct order : NoDup (ops_key <$> order) → ∀ pf hook, NoDup (ops_priority <$> at_point pf hook order).
Proof.
  intros Hn pf hook. induction order as [|o order IH]; [constructor|]. rewrite fmap_cons, NoDup_cons in Hn.
  destruct Hn as [Ho Hn]. unfold at_point. rewrite filter_cons. case_decide as Hc; [|by apply IH].
  rewrite fmap_cons, NoDup_cons. split; [|by apply IH].
  intros (o' & E & [Hc' Ho']%list_elem_of_filter)%list_elem_of_fmap. apply Ho.
  apply list_elem_of_fmap. exists o'. split; [|done]. unfold ops_key. destruct Hc as [-> ->], Hc' as [-> ->]. by rewrite E.
Qed.

(** ** Slips *)

(** A packet that a function stops with [NF_STOP] is let through by [nf_hook_slow]; after
    a reinjection the same verdict loses it: it goes nowhere and is not freed. *)
Lemma reinject_stop_lost env fuel n skb w (s : state) skb0 info pre o post skb' w' skb2 w2 :
  nf_queued s !! n = Some (skb0, info) → nf_hooks s (i_pf info) (i_hook info) = pre ++ i_elem info :: o :: post →
  NoDup (ops_id <$> nf_hooks s (i_pf info) (i_hook info)) → rerouted info skb w s = (true, skb2, w2) →
  INT_MIN <= ops_priority o →
  ops_hook o (i_hook info) skb2 (i_indev info) (i_outdev info) (i_okfn info) w2 = Some (NF_STOP, skb', w') →
  nf_reinject env (S (S fuel)) n skb NF_ACCEPT w s = Some (Left, skb', w', given_back n info s).
Proof.
  intros Hn Hl Hid Hr Hp Ho. rewrite nf_reinject_parts, Hn. cbn [mbind option_bind]. cbv zeta.
  unfold reinject_at. change (nf_hooks (given_back n info s)) with (nf_hooks s).
  rewrite (find_in_chain _ pre _ _ Hl Hid). change (NF_ACCEPT =? NF_REPEAT) with false. cbv iota.
  change (NF_ACCEPT =? NF_ACCEPT) with true. cbv iota.
  change (rerouted info skb w (given_back n info s)) with (rerouted info skb w s). rewrite Hr.
  cbn [nf_reinject_loop]. change (nf_hooks (given_back n info s)) with (nf_hooks s). rewrite Hl. cbn [nf_iterate].
  assert ((pre ++ i_elem info :: o :: post) !! S (length pre) = Some o) as ->.
  { rewrite (cons_middle (i_elem info)), app_assoc. by rewrite list_lookup_middle by (rewrite length_app; cbn; lia). }
  rewrite (proj2 (Z.ltb_ge _ _)) by done. rewrite Ho. reflexivity.
Qed.

(** With a queue handler but no rerouter [nf_queue] reads through a [NULL] pointer. *)
Lemma queue_without_rerouter env skb elem pf hook indev outdev okfn m (s : state) qh :
  queue_handler s pf = Some qh → queue_rerouter s pf = None →
  nf_queue env skb elem pf hook indev outdev okfn m s = None.
Proof. intros E1 E2. unfold nf_queue. by rewrite E1, E2. Qed.
End Spec.

(** ** An example: one function that queues every packet, and one that lets it pass *)
Definition demo_queues : nf_hook_ops Z Z unit unit :=
  mk_ops 1 (λ _ skb _ _ _ w, Some (NF_QUEUE, skb, w)) (Some 7%positive) PF_INET 0 0.
Definition demo_passes : nf_hook_ops Z Z unit unit :=
  mk_ops 2 (λ _ skb _ _ _ w, Some (NF_ACCEPT, skb + 1, w)) None PF_INET 0 10.
Definition demo_rerouter : nf_queue_rerouter Z unit unit := mk_rerouter (λ _ _, ()) (λ skb _ _ w, (0, skb, w)).
Definition demo_handler : nf_queue_handler Z Z unit unit unit := mk_qh 9 (λ _ _ _, 0).
Definition demo_start : nf_state Z Z unit unit unit :=
  mk_nf (λ _ _, []) (λ _, Some demo_handler) (λ _, Some demo_rerouter) (λ _, 0) (λ _, 0) [].
Definition demo_hooks := nf_register_hook demo_queues (nf_register_hook demo_passes demo_start).
Definition demo_nf_env : nf_env := mk_nfenv (λ _, true) (λ _, true).
Definition demo_run := nf_hook_slow demo_nf_env 5 PF_INET 0 100 (Some 3) None () INT_MIN () demo_hooks.
Definition demo_out : nf_state Z Z unit unit unit := match demo_run with Some (_, _, _, _, s) => s | None => demo_start end.

Lemma demo_held : demo_run = Some (0, Held, 100, (), demo_out).
Proof. reflexivity. Qed.

Lemma demo_ids : ops_id demo_passes ∉ ([] : list positive) ∧ ops_id demo_queues ∉ [ops_id demo_passes].
Proof. split; [apply not_elem_of_nil|]. rewrite list_elem_of_singleton. discriminate. Qed.

Lemma nf_books_witness : nf_refs demo_out 7%positive = 1 ∧ dev_refs demo_out 3 = 1.
Proof.
  destruct (nf_books (λ _, 0) (λ _, 0) (λ _, Some demo_handler) (λ _, Some demo_rerouter) [demo_passes; demo_queues] demo_out)
    as (_ & H1 & H2).
  - eapply rtc_l; [apply (step_register [] demo_start demo_passes); apply demo_ids|].
    eapply rtc_l; [apply (step_register [demo_passes] _ demo_queues); apply demo_ids|].
    eapply rtc_l; [|apply rtc_refl]. eapply (step_hook _ demo_hooks). exact demo_held.
  - rewrite H1, H2. split; reflexivity.
Defined.

Lemma demo_legal : legal_hooks [demo_queues; demo_passes].
Proof.
  intros o Ho. rewrite !elem_of_cons in Ho. destruct Ho as [->|[->|Ho]]; [..|by apply elem_of_nil in Ho];
    intros hook skb indev outdev k w v skb' w' E; injection E as <- _ _; unfold legal; vm_compute; tauto.
Qed.

Lemma queue_resumes_witness : ∃ info, nf_queued demo_out = [(100, info)] ∧
  same_end 1 PF_INET 0 false (nf_reinject demo_nf_env 5 0 100 NF_ACCEPT () demo_out)
    (nf_hook_slow demo_nf_env 5 PF_INET 0 100 (Some 3) None () INT_MIN ()
       (set_hooks_at PF_INET 0 [demo_passes] (given_back 0 info demo_out))).
Proof.
  destruct (queue_resumes demo_nf_env 5 PF_INET 0 100 (Some 3) None () INT_MIN () demo_hooks 100 () demo_out demo_held)
    as (info & _ & Hq & H). exists info. split; [exact Hq|].
  assert (nf_queued demo_out = [(100, mk_nf_info demo_queues PF_INET 0 (Some 3) None () ())]) as Eq by reflexivity.
  rewrite Eq in Hq. injection Hq as <-.
  destruct (H demo_out 0%nat demo_nf_env 5%nat 100 () eq_refl) as [Ha _].
  apply (Ha [] [demo_passes]); [reflexivity| |exact demo_legal].
  vm_compute. repeat constructor; rewrite ?elem_of_cons, ?elem_of_nil; intuition discriminate.
Defined.
