(* ===== verification/FirewallNat.v ===== *)
(** * Masquerading, end to end

    The nat table of [userfs/firewall.sh] at the POST_ROUTING hook: a connection of the
    LAN leaves with the router's address, and what comes back reaches the host. *)
From S2P Require Import Prelude Packet CtBase TcpTrack CtProtos Conntrack ConntrackInv ConntrackFacts CtSteps Csum NatProto NatCore NatCsum NatFacts NatTranslate ConntrackSpec CtCleanup IpTables XtMatches XtTargets NatHooks Firewall FirewallFacts FirewallSpec.
From stdpp Require Import gmultiset fin_maps fin_sets.
#[local] Open Scope Z_scope.

(** ** The table in service *)
Inductive nat_in_service : nat_info → Prop :=
  | nsv_loaded w0 info : load_nat w0 = Some (0, info) → nat_in_service info
  | nsv_packet info fuel skb hook inp out w v tbl' skb' w' :
      nat_in_service info →
      ipt_do_table fuel info skb hook inp out w = Some (v, tbl', skb', w') →
      nat_in_service (mk_info (t_size info) (t_number info) (hook_entry info) (underflow info) tbl').

Lemma masq_evolves tbl tbl' pos mr : tbl_evolves tbl tbl' → mr_ok mr → placed tbl pos (POSTROUTING_rules mr) →
  ∃ mr', mr_ok mr' ∧ placed tbl' pos (POSTROUTING_rules mr').
Proof.
  intros Hev Hmr. unfold POSTROUTING_rules. set (rest := _ :: _ :: []).
  cbn [placed]. intros ((e1 & He & [L1 L2 L3 L4]) & Hn & Hp).
  specialize (Hev pos) as Hpos. rewrite He in Hpos. inversion Hpos as [? e2 [E1 E2 E3 E4] A B|]; subst.
  rewrite L4 in E4. destruct E4 as (mr' & E4 & Hmr'). exists mr'. split; [by apply Hmr'|].
  split_and!; [|done|].
  - exists e2. split; [done|]. split; [by rewrite E1, L1|by rewrite E2, L2| |done].
    rewrite L3 in E3. by inversion E3.
  - eapply placed_evolves; [|done|exact Hp]. vm_compute. reflexivity.
Qed.

Lemma nat_loaded info : nat_in_service info →
  hook_entry info NF_IP_POST_ROUTING = nat_starts NF_IP_POST_ROUTING ∧
  ∃ mr, mr_ok mr ∧ placed (t_entries info) (nat_starts NF_IP_POST_ROUTING) (POSTROUTING_rules mr).
Proof.
  induction 1 as [w0 info H|info fuel skb hook inp out w v tbl' skb' w' _ (IH & mr & Hmr & Hp) H].
  - vm_compute in H. injection H as <-. split; [vm_compute; reflexivity|].
    exists no_range. split; [split; vm_compute; congruence|]. vm_compute. placed_goals.
  - apply loop_evolves in H. split; [done|]. by eapply masq_evolves.
Qed.

(** ** The MASQUERADE target *)
Definition in_LAN (skb : sk_buff) : Prop := Z.land (saddr (skb_iph skb)) LAN_MASK = LAN_NET.

Lemma from_LAN_match skb inp dev isfrag : in_LAN skb → via dev_EXT (Some dev) = true →
  ip_packet_match (skb_iph skb) (indev_name inp) (indev_name (Some dev)) (from_LAN dev_EXT) isfrag = true.
Proof.
  intros Hl Hv. unfold from_LAN. unfold via in Hv. apply negb_true_iff in Hv.
  pose proof (via_nil inp) as Hi. unfold via in Hi. apply negb_true_iff in Hi.
  destruct (ifname_part []) as [ni mi], (ifname_part dev_EXT) as [no mo].
  unfold ip_packet_match, FWINV.
  cbn [ip_src ip_dst ip_smsk ip_dmsk iniface outiface iniface_mask outiface_mask ip_proto ip_flags ip_invflags fst snd] in *.
  rewrite Hl, Hv, Hi, Z.eqb_refl, Z.land_0_r. reflexivity.
Qed.

(** A connection that no NAT rule has changed so far, at the POST_ROUTING hook. *)
Record unmapped (w : fw_world) (p : positive) (c : ip_conntrack) : Prop := {
  um_ct : cts (w_ct w) !! p = Some c;
  um_new : is_confirmed c = false;
  um_init : ip_nat_initialized c IP_NAT_MANIP_SRC = false;
  um_status : flag (status c) IPS_NAT_MASK = false;
  um_reply : invert_tuplepr (tuple_orig c) = Some (tuple_reply c) }.

Lemma masq_index_inv w live ehold p i : Inv (w_env w) ∅ ∅ live ehold (w_ct w) → nat_ok (w_ct w) →
  let s := w_ct (set_masq_index p i w) in Inv (w_env w) ∅ ∅ live ehold s ∧ nat_ok s.
Proof.
  intros HI Hok s. split.
  - apply Inv_upd; [|done]. by intros c _.
  - intros q cq Hq. unfold s, set_masq_index in Hq. cbn [w_ct update upd_w_ct] in Hq. unfold upd_ct in Hq.
    cbn [cts update upd_cts] in Hq. destruct (decide (q = p)) as [->|Hne].
    + rewrite lookup_alter_eq in Hq. destruct (cts (w_ct w) !! p) as [c|] eqn:Hc; [|done].
      injection Hq as <-. destruct (Hok p c Hc) as [H1 H2 H3]. by split.
    + rewrite lookup_alter_ne in Hq by done. by apply (Hok q).
Qed.

Lemma map_ips_set f : flag (Z.lor f IP_NAT_RANGE_MAP_IPS) IP_NAT_RANGE_MAP_IPS = true.
Proof.
  change IP_NAT_RANGE_MAP_IPS with (2 ^ 0). rewrite flag_testbit, Z.lor_spec by done. apply orb_true_r.
Qed.

(** The helper of a connection after its mapping was recorded. *)
Lemma setup_helper env p range hooknum v s ret v' s' c c' :
  ip_nat_setup_info env p range hooknum v s = Some (ret, v', s') → cts s !! p = Some c → cts s' !! p = Some c' →
  ct_helper c' = ct_helper c ∨ ct_helper c' = __ip_conntrack_helper_find (tuple_reply c') s.
Proof.
  unfold ip_nat_setup_info. intros E Hc. rewrite Hc in E. cbn [mbind option_bind] in E.
  destruct (ip_nat_initialized c _); [done|]. apply bind_Some in E as (curr & _ & E).
  apply bind_Some in E as ([new v1] & _ & E). apply bind_Some in E as (s1 & E1 & E). injection E as _ _ <-.
  assert (∃ c1, cts s1 !! p = Some c1 ∧ (ct_helper c1 = ct_helper c ∨ ct_helper c1 = __ip_conntrack_helper_find (tuple_reply c1) s))
    as (c1 & Hc1 & Hh).
  { destruct (negb _); [|injection E1 as <-; exists c; by split; [|left]].
    apply bind_Some in E1 as (reply & _ & E1). injection E1 as <-. eexists. split.
    - unfold ip_conntrack_alter_reply, upd_ct. cbn [cts update upd_cts]. rewrite !lookup_alter_eq, Hc. reflexivity.
    - cbn. destruct (_ && _); cbn; auto. }
  intros Hc'. unfold upd_ct in Hc'. cbn [cts update upd_cts] in Hc'. rewrite lookup_alter_eq in Hc'.
  assert (cts (if negb (flag (status c) IPS_NAT_DONE_MASK)
    then s1 <| bysource := <[hash_by_src env (tuple_orig c) := p :: default [] (bysource s1 !! hash_by_src env (tuple_orig c))]> (bysource s1) |>
    else s1) !! p = Some c1) as Hc2 by (destruct (negb (flag (status c) _)); exact Hc1).
  rewrite Hc2 in Hc'. injection Hc' as <-. exact Hh.
Qed.

Section Masquerade.
Context (w : fw_world) (live ehold : gmultiset positive) (p : positive) (c : ip_conntrack).
Context (skb : sk_buff) (dev : net_device).
Context (HI : Inv (w_env w) ∅ ∅ live ehold (w_ct w)) (Hok : nat_ok (w_ct w)) (Hv : vars_ok (w_nat w)).
Context (Hu : unmapped w p c) (Hp : nfct skb = Some p).
Let ip := w_select_addr w dev.
Context (Hip0 : ip ≠ 0) (Hip : is_u32 ip) (Hsrc : src_ip (tuple_orig c) ≠ 0).

(** What the target leaves: the connection [c'] in the tracker [s']. *)
Record masqueraded (s' : ct_state) (v' : nat_vars) (c' : ip_conntrack) : Prop := {
  mq_inv : Inv (w_env w) ∅ ∅ live ehold s';
  mq_ok : nat_ok s';
  mq_vars : vars_ok v';
  mq_ct : cts s' !! p = Some c';
  mq_init : ip_nat_initialized c' IP_NAT_MANIP_SRC = true;
  mq_orig : tuple_orig c' = tuple_orig c;
  mq_addr : dst_ip (tuple_reply c') = ip;
  mq_dst : flag (status c') IPS_DST_NAT = false;
  mq_bits n : 0 <= n → n ≠ IPS_SRC_NAT_BIT → n ≠ IPS_SRC_NAT_DONE_BIT → test_bit n c' = test_bit n c;
  mq_to i : invert_tuplepr (tuple_reply c') = Some i → protonum i = protonum (tuple_orig c) ∧
    dst_ip i = dst_ip (tuple_orig c) ∧ dst_u i = dst_u (tuple_orig c);
  mq_helper : ct_helper c' = ct_helper c ∨
    ct_helper c' = __ip_conntrack_helper_find (tuple_reply c') (w_ct w) }.

Lemma masq_target mr : mr_ok mr → ∃ mr' s' v' c',
  masquerade_target mr skb (Some dev) NF_IP_POST_ROUTING w
  = (NF_ACCEPT, mr', w <| w_nat := v' |> <| w_ct := s' |>) ∧ masqueraded s' v' c'.
Proof.
  intros Hmr. destruct Hu as [Hc Hnew Hinit Hst Hrep].
  unfold masquerade_target. rewrite Hp. cbn [mbind option_bind]. rewrite Hc. cbn [mbind option_bind].
  rewrite (proj2 (Z.eqb_neq _ _) Hsrc). fold ip. rewrite (proj2 (Z.eqb_neq _ _) Hip0).
  set (w1 := set_masq_index p (ifindex dev) w). set (mr' := mk_mr _ _). set (range := mk_range _ _ _ _ _).
  destruct (masq_index_inv w live ehold p (ifindex dev) HI Hok) as [HI1 Hok1]. fold w1 in HI1, Hok1.
  pose proof (shnat_range_ok w1 skb mr Hmr) as [Hf' Hports]. fold mr' in Hf', Hports.
  assert (range_ok range) as Hr.
  { split; [by intros _|done|done|]. intros _. split; [done|]. cbn [min_ip max_ip range]. lia. }
  set (c1 := c <| masq_index := ifindex dev |>).
  assert (cts (w_ct w1) !! p = Some c1) as Hc1
    by (unfold w1, set_masq_index, upd_ct; cbn [w_ct cts update upd_w_ct upd_cts]; by rewrite lookup_alter_eq, Hc).
  destruct (setup_result (w_env w) live ehold (w_ct w1) p c1 range NF_IP_POST_ROUTING (w_nat w)
              HI1 Hok1 Hr Hv Hc1 Hnew Hinit)
    as (v' & s' & c' & i & i' & E & HI' & Hok' & Hv' & Hc' & Hin' & Hi & Hi' & HM & Ho & Hst').
  unfold setup_for. rewrite Hp. unfold setup_ct. change (w_env w1) with (w_env w). change (w_nat w1) with (w_nat w).
  rewrite E. exists mr', s', v', c'. split; [reflexivity|].
  pose proof (invert_fields _ _ Hi') as (F1 & F2 & F3 & F4).
  destruct HM as (G & HMo & Hrange & _). change (HOOK2MANIP NF_IP_POST_ROUTING) with IP_NAT_MANIP_SRC in *.
  split; try done.
  - rewrite F2. unfold ip_in_range in Hrange. cbn [range r_flags min_ip max_ip new_ip] in Hrange.
    specialize (Hrange (map_ips_set _)).
    assert (ntohl (src_ip i') = ntohl ip) as En by lia.
    rewrite <- (swab32_involutive (src_ip i')), <- (swab32_involutive ip) by (done || apply G).
    unfold ntohl in En. by rewrite En.
  - rewrite Hst'. change (status c1) with (status c). rewrite flag_dst, mapped_status_bit by lia.
    unfold flag in Hst. apply negb_false_iff, Z.eqb_eq in Hst.
    assert (Z.testbit (Z.land (status c) IPS_NAT_MASK) 5 = false) as Hb by (by rewrite Hst).
    rewrite Z.land_spec in Hb. change (Z.testbit IPS_NAT_MASK 5) with true in Hb. rewrite andb_true_r in Hb.
    rewrite Hb. change (5 =? 4) with false. by rewrite andb_false_r.
  - intros n Hn H4 H7. unfold test_bit. rewrite Hst', mapped_status_bit by done.
    change (nat_done_bit IP_NAT_MANIP_SRC) with IPS_SRC_NAT_DONE_BIT. rewrite (proj2 (Z.eqb_neq _ n)) by congruence.
    change 4 with IPS_SRC_NAT_BIT. rewrite (proj2 (Z.eqb_neq n _)) by done. by rewrite andb_false_r, orb_false_r.
  - intros j Hj. destruct (invert_tuplepr_involutive i' _ (tg_wf _ G) Hi') as [Hi'' _]. rewrite Hi'' in Hj. injection Hj as <-.
    destruct HMo as (M1 & _ & M2 & M3). pose proof (Hok p c Hc) as [Go _ _].
    destruct (invert_tuplepr_involutive _ _ (tg_wf _ Go) Hrep) as [Hio _].
    change (tuple_reply c1) with (tuple_reply c) in Hi. rewrite Hi in Hio. injection Hio as ->. done.
  - destruct (setup_helper _ _ _ _ _ _ _ _ _ _ _ E Hc1 Hc') as [Hh|Hh]; [by left|by right].
Qed.

(** The nat table maps the connection. *)
Lemma masq_table info inp : nat_in_service info → in_LAN skb → via dev_EXT (Some dev) = true →
  ∃ fuel tbl' s' v' c',
    (∀ k, ipt_do_table (fuel + k) info skb NF_IP_POST_ROUTING inp (Some dev) w
          = Some (NF_ACCEPT, tbl', skb, w <| w_nat := v' |> <| w_ct := s' |>)) ∧ masqueraded s' v' c'.
Proof.
  intros Hsv Hlan Hvia. destruct (nat_loaded info Hsv) as (Hh & mr & Hmr & Hpl).
  destruct (masq_target mr Hmr) as (mr' & s' & v' & c' & E & HM).
  destruct (flat_loop inp (Some dev) NF_IP_POST_ROUTING
              (Z.land (ntohs (frag_off (skb_iph skb))) IP_OFFSET) (POSTROUTING_rules mr) (t_entries info)
              (nat_starts NF_IP_POST_ROUTING) (underflow info NF_IP_POST_ROUTING) skb w NF_ACCEPT skb
              (w <| w_nat := v' |> <| w_ct := s' |>) Hpl) as [tbl' Hl].
  - unfold POSTROUTING_rules. cbn [flat_run]. unfold exec_rule. unfold masq_rule at 1, fw_rule at 1. cbn [e_ip].
    rewrite (from_LAN_match skb inp dev) by done. cbn [negb].
    unfold masq_rule, fw_rule. cbn [e_matches do_matches e_target update upd_e_matches upd_bcnt upd_pcnt].
    cbn [negb ext_target fw_ext xt_run_target]. rewrite E. done.
  - exists (length (POSTROUTING_rules mr)), tbl', s', v', c'. split; [|done].
    intros k. unfold ipt_do_table. rewrite Hh. apply Hl.
Qed.
End Masquerade.

(** ** Packets of a connection that is mapped on one side only *)
Lemma nat_one_hook c ctinfo hooknum skb x :
  nat_wf c → pkt_wf (data skb) → unfragmented (data skb) → pkt_tuple skb = Some x →
  let dir := CTINFO2DIR ctinfo in
  ip_ct_tuple_equal x (tuplehash c dir) = true →
  flag (status c) (nat_statusbit (manip_neg (HOOK2MANIP hooknum)) dir) = false →
  ∃ skb' y t, ip_nat_packet true c ctinfo hooknum skb = Some (NF_ACCEPT, skb') ∧ pkt_tuple skb' = Some y ∧
    ip_ct_tuple_equal y t = true ∧ invert_tuplepr (tuplehash c (dir_neg dir)) = Some t ∧
    covered (flag (status c) (nat_statusbit IP_NAT_MANIP_SRC dir))
      (flag (status c) (nat_statusbit IP_NAT_MANIP_DST dir)) x t.
Proof.
  intros Hc Hwf Hf Hx dir Heq Hother.
  destruct (nat_wf_covered c dir Hc) as (t & Hi & Htw & Hcov). apply (covered_ext _ _ _ _ _ Heq) in Hcov.
  assert (protonum x = protocol (skb_iph skb)) as Hpx.
  { rewrite (pkt_tuple_eq skb (pw_ip _ Hwf) Hf) in Hx. cbn zeta in Hx.
    destruct (__ip_nat_proto_find _); by injection Hx as <-. }
  assert (protonum t = protocol (skb_iph skb)) as Hpt by (rewrite <- Hpx; apply Hcov).
  destruct (nat_packet_step c ctinfo hooknum skb t Hwf Hf Hi Htw Hpt) as (skb' & E & _ & _ & _ & T).
  pose proof (retarget_twice _ _ _ _ Hcov) as Hy. fold dir in T. rewrite Hx in T.
  destruct (HOOK2MANIP hooknum); cbn [manip_neg] in Hother; rewrite Hother in Hy; cbn zeta in Hy.
  all: exists skb'; eexists; exists t; (split; [exact E|split; [|split; [exact Hy|split; [exact Hi|exact Hcov]]]]).
  all: rewrite T; clear; by destruct (flag _ _).
Qed.

(** ** The hooks *)

(** A packet of the connection [p] as the hooks get it: complete, not a fragment, with
    its checksum not left to the hardware. *)
Record hook_packet (w : fw_world) (p : positive) (skb : sk_buff) (x : ip_conntrack_tuple) : Prop := {
  hp_wf : pkt_wf (data skb); hp_frag : unfragmented (data skb); hp_sum : ip_summed skb ≠ CHECKSUM_HW;
  hp_ct : nfct skb = Some p; hp_tracked : p ≠ (w_untracked w).1; hp_tuple : pkt_tuple skb = Some x }.

Lemma nat_fn_packet fuel info hooknum skb inp out w p c x :
  hook_packet w p skb x → cts (w_ct w) !! p = Some c →
  ip_nat_fn fuel info hooknum skb inp out w = nat_fn_ct fuel info skb hooknum inp out p c w.
Proof.
  intros [_ _ Hs Hct Ht _] Hc. unfold ip_nat_fn. rewrite (proj2 (Z.eqb_neq _ _) Hs). cbn [mbind option_bind].
  rewrite Hct. unfold is_untracked. rewrite Hct, bool_decide_eq_false_2 by congruence. by rewrite Hc.
Qed.

Lemma not_raw skb : pkt_wf (data skb) → raw_packet skb = false.
Proof.
  intros [Hip _]. destruct (h_range _ Hip) as [H1 H2]. unfold raw_packet, skb_len, skb_iph, hlen in *. lia.
Qed.

Lemma LAN_source skb x : pkt_wf (data skb) → unfragmented (data skb) → pkt_tuple skb = Some x →
  in_LAN skb → src_ip x ≠ 0.
Proof.
  intros Hwf Hf Hx Hl E. rewrite (pkt_tuple_eq skb (pw_ip _ Hwf) Hf) in Hx. cbn zeta in Hx.
  assert (src_ip x = saddr (skb_iph skb)) as Es by (destruct (__ip_nat_proto_find _); by injection Hx as <-).
  unfold in_LAN in Hl. rewrite <- Es, E in Hl. vm_compute in Hl. congruence.
Qed.

(** Translation changes nothing but the bytes of a packet. *)
Lemma manip_meta ok proto skb off t m skb' : manip_pkt ok proto skb off t m = Some skb' →
  nfct skb' = nfct skb ∧ nfctinfo skb' = nfctinfo skb ∧ ip_summed skb' = ip_summed skb.
Proof.
  unfold manip_pkt. destruct (negb _); [done|]. intros (k & Ek & E)%bind_Some.
  assert (nfct k = nfct skb ∧ nfctinfo k = nfctinfo skb ∧ ip_summed k = ip_summed skb) as Hk.
  { unfold proto_manip_pkt, tcp_manip_pkt, udp_manip_pkt, icmp_manip_pkt, unknown_manip_pkt in Ek.
    repeat (case_match; simplify_eq); done. }
  repeat case_match; simplify_eq; exact Hk.
Qed.

Lemma nat_packet_meta ok c ctinfo hooknum skb v skb' : ip_nat_packet ok c ctinfo hooknum skb = Some (v, skb') →
  nfct skb' = nfct skb ∧ nfctinfo skb' = nfctinfo skb ∧ ip_summed skb' = ip_summed skb.
Proof.
  unfold ip_nat_packet. destruct (flag _ _); [|intros E; injection E as <- <-; done].
  intros (t & _ & E)%bind_Some. destruct (manip_pkt _ _ _ _ _ _) as [k|] eqn:Ek; injection E as <- <-; [|done].
  by apply manip_meta in Ek.
Qed.

(** Replies of a connection that only has a source mapping are given back their
    destination by the PRE_ROUTING hook. *)
Lemma reply_unmapped fuel info w p c skb x inp out :
  nat_wf c → cts (w_ct w) !! p = Some c → flag (status c) IPS_DST_NAT = false → w_writable w = true →
  hook_packet w p skb x → nfctinfo skb = IP_CT_ESTABLISHED + IP_CT_IS_REPLY →
  ip_ct_tuple_equal x (tuple_reply c) = true →
  ∃ skb' w' y t, ip_nat_in fuel info NF_IP_PRE_ROUTING skb inp out w
    = Some (NF_ACCEPT, t_entries info, skb', w') ∧
    pkt_tuple skb' = Some y ∧ ip_ct_tuple_equal y t = true ∧ invert_tuplepr (tuple_orig c) = Some t ∧
    nfct skb' = nfct skb ∧ nfctinfo skb' = nfctinfo skb ∧ (w' = w ∨ w' = w <| w_dst_mtu := None |>).
Proof.
  intros Hwf Hc Hd Hw Hp Hinfo Heq. unfold ip_nat_in. rewrite (nat_fn_packet _ _ _ _ _ _ _ _ _ _ Hp Hc).
  destruct Hp as [Hpw Hpf _ _ _ Hx].
  destruct (nat_one_hook c (nfctinfo skb) NF_IP_PRE_ROUTING skb x Hwf Hpw Hpf Hx) as (skb' & y & t & E & Ey & Hyt & Hi & _).
  { by rewrite Hinfo. }
  { rewrite Hinfo. change (nat_statusbit _ _) with IPS_DST_NAT. exact Hd. }
  unfold nat_fn_ct. rewrite Hinfo in *.
  change (IP_CT_ESTABLISHED + IP_CT_IS_REPLY =? IP_CT_RELATED) with false.
  change (IP_CT_ESTABLISHED + IP_CT_IS_REPLY =? IP_CT_RELATED + IP_CT_IS_REPLY) with false.
  change (IP_CT_ESTABLISHED + IP_CT_IS_REPLY =? IP_CT_NEW) with false.
  cbn [orb andb mbind option_bind]. change (negb (NF_ACCEPT =? NF_ACCEPT)) with false. cbv iota.
  rewrite Hc. cbn [mbind option_bind]. rewrite Hw, E. cbn [mbind option_bind].
  pose proof (nat_packet_meta _ _ _ _ _ _ _ E) as (N1 & N2 & _).
  do 4 eexists. split; [reflexivity|]. split; [exact Ey|]. split; [exact Hyt|]. split; [exact Hi|].
  split; [exact N1|]. split; [congruence|]. destruct (_ && _); auto.
Qed.

(** The first packet of a connection at the POST_ROUTING hook, when a rule has mapped it. *)
Lemma nat_out_new xfrm fuel info w w' p c c' skb skb' x inp out tbl' :
  (∀ s, xfrm s = true) → hook_packet w p skb x → nfctinfo skb = IP_CT_NEW →
  cts (w_ct w) !! p = Some c → is_confirmed c = false → ip_nat_initialized c IP_NAT_MANIP_SRC = false →
  ipt_do_table fuel info skb NF_IP_POST_ROUTING inp out w = Some (NF_ACCEPT, tbl', skb, w') →
  cts (w_ct w') !! p = Some c' → ip_nat_initialized c' IP_NAT_MANIP_SRC = true →
  ip_nat_packet (w_writable w') c' IP_CT_NEW NF_IP_POST_ROUTING skb = Some (NF_ACCEPT, skb') →
  ip_nat_out xfrm fuel info NF_IP_POST_ROUTING skb inp out w = Some (NF_ACCEPT, tbl', skb', w').
Proof.
  intros Hxf Hp Hnew Hc Hcf Hin Hrun Hc' Hin' E. pose proof (not_raw skb (hp_wf _ _ _ _ Hp)) as Hraw.
  unfold ip_nat_out. rewrite Hraw, (nat_fn_packet _ _ _ _ _ _ _ _ _ _ Hp Hc).
  unfold nat_fn_ct. rewrite Hnew. change (IP_CT_NEW =? IP_CT_RELATED) with false.
  change (IP_CT_NEW =? IP_CT_RELATED + IP_CT_IS_REPLY) with false. change (IP_CT_NEW =? IP_CT_NEW) with true.
  change (HOOK2MANIP NF_IP_POST_ROUTING) with IP_NAT_MANIP_SRC. rewrite Hin. cbn [orb andb negb].
  unfold nat_setup. rewrite Hcf. change (NF_IP_POST_ROUTING =? NF_IP_LOCAL_IN) with false. cbv iota.
  unfold ip_nat_rule_find. rewrite Hrun. cbn [mbind option_bind]. change (NF_ACCEPT =? NF_ACCEPT) with true. cbv iota.
  rewrite Hc'. cbn [mbind option_bind]. change (HOOK2MANIP NF_IP_POST_ROUTING) with IP_NAT_MANIP_SRC.
  rewrite Hin'. cbn [negb mbind option_bind]. change (negb (NF_ACCEPT =? NF_ACCEPT)) with false. cbv iota.
  rewrite Hc'. cbn [mbind option_bind]. rewrite E. cbn [mbind option_bind]. do 3 f_equal.
  destruct (if verdict_passed NF_ACCEPT then _ else _); [|done]. destruct (_ || _); [|done]. by rewrite Hxf.
Qed.

(** The first packet of a LAN connection at the POST_ROUTING hook of NAT. *)
Lemma lan_out xfrm info w live ehold p c skb x inp dev :
  nat_in_service info → Inv (w_env w) ∅ ∅ live ehold (w_ct w) → nat_ok (w_ct w) → vars_ok (w_nat w) →
  w_writable w = true → (∀ s, xfrm s = true) →
  unmapped w p c → hook_packet w p skb x → nfctinfo skb = IP_CT_NEW →
  ip_ct_tuple_equal x (tuple_orig c) = true →
  in_LAN skb → dev_ok (Some dev) → dev_named dev_EXT (Some dev) = true →
  w_select_addr w dev ≠ 0 → is_u32 (w_select_addr w dev) →
  ∃ fuel tbl' skb' s' v' c' y,
    (∀ k, ip_nat_out xfrm (fuel + k) info NF_IP_POST_ROUTING skb inp (Some dev) w
          = Some (NF_ACCEPT, tbl', skb', w <| w_nat := v' |> <| w_ct := s' |>)) ∧
    masqueraded w live ehold p c dev s' v' c' ∧
    nfct skb' = Some p ∧ nfctinfo skb' = IP_CT_NEW ∧
    pkt_tuple skb' = Some y ∧ src_ip y = w_select_addr w dev ∧ dst_ip y = dst_ip x ∧
    ∃ r, invert_tuplepr y = Some r ∧ ip_ct_tuple_equal r (tuple_reply c') = true.
Proof.
  intros Hsv HI Hok Hv Hw Hxf Hu Hp Hnew Heq Hlan Hdev Hext Hip0 Hip.
  pose proof Hp as [Hpw Hpf _ Hct _ Hx]. pose proof Heq as (Q1 & Q2 & Q3 & Q4 & Q5)%tuple_equal_spec.
  assert (src_ip (tuple_orig c) ≠ 0) as Hsrc by (rewrite <- Q1; by eapply LAN_source).
  assert (via dev_EXT (Some dev) = true) as Hvia by (destruct (via_named (Some dev) Hdev) as (_ & _ & ->); exact Hext).
  destruct (masq_table w live ehold p c skb dev HI Hok Hv Hu Hct Hip0 Hip Hsrc info inp Hsv Hlan Hvia)
    as (fuel & tbl' & s' & v' & c' & Hrun & HM). set (w' := w <| w_nat := v' |> <| w_ct := s' |>) in *.
  pose proof HM as [HI' Hok' Hv' Hc' Hin' Ho' Haddr Hdst _ _ _]. pose proof (Hok' p c' Hc') as Hwf'.
  destruct (nat_one_hook c' IP_CT_NEW NF_IP_POST_ROUTING skb x Hwf' Hpw Hpf Hx) as (skb' & y & t & E & Ey & Hyt & Hi & Hcov).
  { change (CTINFO2DIR IP_CT_NEW) with IP_CT_DIR_ORIGINAL. cbn [tuplehash]. by rewrite Ho'. }
  { exact Hdst. }
  change (CTINFO2DIR IP_CT_NEW) with IP_CT_DIR_ORIGINAL in Hi, Hcov. cbn [dir_neg tuplehash] in Hi.
  change (nat_statusbit IP_NAT_MANIP_DST IP_CT_DIR_ORIGINAL) with IPS_DST_NAT in Hcov. rewrite Hdst in Hcov.
  exists fuel, tbl', skb', s', v', c', y.
  pose proof Hyt as (T1 & T2 & T3 & T4 & T5)%tuple_equal_spec.
  pose proof (invert_fields _ _ Hi) as (F1 & F2 & F3 & F4).
  pose proof (nat_packet_meta _ _ _ _ _ _ _ E) as (N1 & N2 & _).
  split; [|split; [exact HM|]].
  - intros k. apply (nat_out_new _ _ _ w w' p c c' skb skb' x); try done; [apply Hu..|].
    change (w_writable w') with (w_writable w). by rewrite Hw.
  - split; [congruence|]. split; [congruence|]. split; [done|]. split; [congruence|]. split; [rewrite T3; by apply Hcov|].
    apply (invert_equal y t); [done|]. by apply (nat_wf_inverse c' IP_CT_DIR_REPLY).
Qed.

(** Masquerading, end to end.  Take any state of the tracker and of the nat table of
    the script, and the first packet of a connection from a host of the LAN that leaves
    through the WAN interface.  The POST_ROUTING hook maps the connection and lets the
    packet out with the router's WAN address as its source and its destination as it
    was; the tracker's and NAT's invariants hold again, and the answer to the packet as
    sent is the reply the connection now expects.  When such an answer comes in, the
    PRE_ROUTING hook accepts it and gives it the address of the host, and for TCP and
    UDP its port, as destination. *)
Lemma lan_masqueraded xfrm info w live ehold p c skb x inp dev :
  nat_in_service info → Inv (w_env w) ∅ ∅ live ehold (w_ct w) → nat_ok (w_ct w) → vars_ok (w_nat w) →
  w_writable w = true → (∀ s, xfrm s = true) →
  unmapped w p c → hook_packet w p skb x → nfctinfo skb = IP_CT_NEW →
  ip_ct_tuple_equal x (tuple_orig c) = true →
  in_LAN skb → dev_ok (Some dev) → dev_named dev_EXT (Some dev) = true →
  w_select_addr w dev ≠ 0 → is_u32 (w_select_addr w dev) →
  ∃ fuel tbl' skb' w' c' y,
    (∀ k, ip_nat_out xfrm (fuel + k) info NF_IP_POST_ROUTING skb inp (Some dev) w
          = Some (NF_ACCEPT, tbl', skb', w')) ∧
    Inv (w_env w') ∅ ∅ live ehold (w_ct w') ∧ nat_ok (w_ct w') ∧
    cts (w_ct w') !! p = Some c' ∧ tuple_orig c' = tuple_orig c ∧
    pkt_tuple skb' = Some y ∧ src_ip y = w_select_addr w dev ∧ dst_ip y = dst_ip x ∧
    (∃ r, invert_tuplepr y = Some r ∧ ip_ct_tuple_equal r (tuple_reply c') = true) ∧
    ∀ fuel' info' answer z inp' out',
      hook_packet w' p answer z → nfctinfo answer = IP_CT_ESTABLISHED + IP_CT_IS_REPLY →
      ip_ct_tuple_equal z (tuple_reply c') = true →
      ∃ answer' w'' y',
        ip_nat_in fuel' info' NF_IP_PRE_ROUTING answer inp' out' w'
        = Some (NF_ACCEPT, t_entries info', answer', w'') ∧
        pkt_tuple answer' = Some y' ∧ dst_ip y' = src_ip x ∧
        (protonum x = IPPROTO_TCP ∨ protonum x = IPPROTO_UDP → dst_u y' = src_u x).
Proof.
  intros Hsv HI Hok Hv Hw Hxf Hu Hp Hnew Heq Hlan Hdev Hext Hip0 Hip.
  destruct (lan_out xfrm info w live ehold p c skb x inp dev) as (fuel & tbl' & skb' & s' & v' & c' & y & Hrun & HM & _ & _ & Ey & Hs & Hd & Hr);
    try done. set (w' := w <| w_nat := v' |> <| w_ct := s' |>) in *. exists fuel, tbl', skb', w', c', y.
  destruct HM as [HI' Hok' Hv' Hc' Hin' Ho' Haddr Hdst _ _ _]. pose proof (Hok' p c' Hc') as Hwf'.
  apply tuple_equal_spec in Heq as (Q1 & Q2 & Q3 & Q4 & Q5). split_and!; try done.
  intros fuel' info' answer z inp' out' Hap Hai Haz.
  destruct (reply_unmapped fuel' info' w' p c' answer z inp' out' Hwf' Hc' Hdst Hw Hap Hai Haz)
    as (answer' & w'' & y' & t' & E' & Ey' & Hyt' & Hi' & _).
  exists answer', w'', y'. split; [exact E'|]. split; [exact Ey'|].
  apply tuple_equal_spec in Hyt' as (_ & _ & U3 & U4 & _). rewrite Ho' in Hi'.
  pose proof (invert_fields _ _ Hi') as (_ & G2 & _ & G4). split; [congruence|].
  intros Hpr. rewrite U4, Q2. rewrite <- Q5 in G4. by destruct Hpr as [Hpr|Hpr]; rewrite Hpr in G4; apply G4.
Qed.

(** ** A witness: a DNS query of the host 192.168.2.2 *)
Definition lan_query : sk_buff := udp_pkt 3232236034 134744072 4000 53.
Definition lan_run := enter lan_query ct_empty.
Definition lan_state : ct_state := lan_run.1.2.
Definition lan_tuple : ip_conntrack_tuple :=
  mk_tuple (htonl 3232236034) (htons 4000) (htonl 134744072) (htons 53) 17 IP_CT_DIR_ORIGINAL.
Definition lan_world : fw_world :=
  mk_world env0 lan_state (mk_nv 0 0 0) (2%positive, blank_ct lan_tuple lan_tuple) true 4 true 20 (Some 1500)
    (λ _, WAN_IP) (λ _, None) None [] false.
Definition lan_ct : ip_conntrack := default (blank_ct lan_tuple lan_tuple) (cts lan_state !! 1%positive).
Definition demo_nat : nat_info :=
  match load_nat lan_world with Some (_, info) => info | None => mk_info 0 0 (λ _, 0) (λ _, 0) ∅ end.

Lemma lan_inv : Inv env0 ∅ ∅ (∅ ⊎ skb_ref lan_run.2) ∅ lan_state.
Proof.
  apply (ip_conntrack_in_inv env0 ∅ ∅ NF_IP_PRE_ROUTING lan_query ct_empty lan_run.1.1 lan_state lan_run.2);
    [apply env0_ok|apply (sys_init_inv env0)|reflexivity|].
  assert (ip_conntrack_in env0 NF_IP_PRE_ROUTING lan_query ct_empty = Some lan_run) as -> by (vm_compute; reflexivity).
  unfold lan_state. by destruct lan_run as [[? ?] ?].
Qed.

Lemma lan_nat_ok : nat_ok lan_state.
Proof.
  intros p c Hc.
  assert (cts lan_state = <[1%positive := lan_ct]> ∅) as E by (vm_compute; reflexivity).
  rewrite E in Hc. apply lookup_insert_Some in Hc as [[_ <-]|[_ Hc]]; [|by rewrite lookup_empty in Hc].
  assert (tuple_orig lan_ct = lan_tuple) as Et by (vm_compute; reflexivity).
  apply new_nat_wf; rewrite ?Et.
  - apply good_tuple; [split|..]; try (vm_compute; intuition discriminate). eexists. vm_compute. reflexivity.
  - reflexivity.
  - vm_compute. reflexivity.
Qed.

Lemma lan_masqueraded_witness : ∃ fuel tbl' skb' w' y,
  (∀ k, ip_nat_out (λ _, true) (fuel + k) demo_nat NF_IP_POST_ROUTING lan_run.2 None (demo_dev dev_EXT) lan_world
        = Some (NF_ACCEPT, tbl', skb', w')) ∧
  pkt_tuple skb' = Some y ∧ src_ip y = WAN_IP ∧ dst_ip y = htonl 134744072.
Proof.
  destruct (lan_masqueraded (λ _, true) demo_nat lan_world (∅ ⊎ skb_ref lan_run.2) ∅ 1%positive lan_ct lan_run.2
              lan_tuple None (mk_dev (pad_ifname dev_EXT) 1 []))
    as (fuel & tbl' & skb' & w' & c' & y & H & _ & _ & _ & _ & Ey & Hs & Hd & _).
  - apply (nsv_loaded lan_world). vm_compute. reflexivity.
  - apply lan_inv.
  - apply lan_nat_ok.
  - vm_compute. intuition discriminate.
  - reflexivity.
  - reflexivity.
  - split; vm_compute; reflexivity.
  - split; try (vm_compute; congruence). split; [split|]; try (vm_compute; discriminate).
    apply bytes_ok. vm_compute. reflexivity.
  - vm_compute. reflexivity.
  - vm_compute. reflexivity.
  - vm_compute. reflexivity.
  - split; [reflexivity|]. repeat (constructor; [vm_compute; split; congruence|]). constructor.
  - vm_compute. reflexivity.
  - vm_compute. discriminate.
  - vm_compute. intuition discriminate.
  - exists fuel, tbl', skb', w', y. split; [exact H|]. split; [exact Ey|]. split; [exact Hs|exact Hd].
Defined.

(** ** The hardware-NAT code

    [masquerade_target] writes the single port that it gets for one connection into the
    rule.  When the hardware has no entry for the next connection and hardware NAT is
    not enabled for it, that connection is given the same single port. *)
Lemma masquerade_port_sticks w skb mr hooks :
  w_shnat w = Some hooks → preadd_hnatable hooks skb < 0 → check_shnat_enable hooks ≠ 1 →
  shnat_range w skb (range0 mr) = range0 mr.
Proof.
  intros Hw Hp He. unfold shnat_range. rewrite Hw.
  rewrite (proj2 (Z.leb_gt _ _)) by lia. cbn [andb]. by rewrite (proj2 (Z.eqb_neq _ _)).
Qed.

(** [ip_nat_follow_master] adds the base port before it tests for failure: a refusal of
    the hardware (-1) counts as port 49999. *)
Lemma follow_ignores_refusal w ct master dir hooks range :
  w_shnat w = Some hooks → check_ftponly_enable hooks = 0 →
  ntohs (dst_u (tuple_orig master)) = 21 → dst_ip (tuple_orig ct) = dst_ip (tuple_orig master) →
  dst_ip (tuple_reply ct) ≠ dst_ip (tuple_reply master) →
  let r := follow_range (λ _ _ _ _, -1) dir ct master range w in
  flag (r_flags r) IP_NAT_RANGE_PROTO_SPECIFIED = true ∧ r_min r = htons 49999 ∧ r_max r = htons 49999.
Proof.
  intros Hw Hf H21 Hd Hr. unfold follow_range. rewrite Hw, H21, Hd, Hf, !Z.eqb_refl.
  rewrite (proj2 (Z.eqb_neq _ _) Hr). cbn [andb orb negb]. rewrite orb_true_r.
  change (0 <=? -1 + HNAT_SOURCE_PORT_BASE) with true. cbn [andb r_flags r_min r_max].
  split; [|done]. change IP_NAT_RANGE_PROTO_SPECIFIED with (2 ^ 1). rewrite flag_testbit, Z.lor_spec by done.
  apply orb_true_r.
Qed.

(** ** An interface goes down *)
Lemma device_cmp_stable i : stable (device_cmp i).
Proof. by intros c u e st t. Qed.

(** When an interface goes down, the connections that were masqueraded on it are gone
    after a number of turns, and the other connections are tracked as before. *)
Lemma masq_device_down env live ehold i s :
  Inv env ∅ ∅ live ehold s → 0 < ip_conntrack_htable_size env →
  timers_run (device_cmp i) s → (∀ c, hook_refuses env c = false) →
  ∃ s', (∀ fuel, (size (cts s) < fuel)%nat → masq_device_event fuel env true i s = Some s') ∧
    Inv env ∅ ∅ live ehold s' ∧
    (∀ n c, tabled s' n → cts s' !! n.1 = Some c → masq_index c ≠ i) ∧
    (∀ n c, tabled s n → cts s !! n.1 = Some c → masq_index c ≠ i → tabled s' n).
Proof.
  intros HI Hsz Hrun Hhook.
  destruct (cleanup_result env live ehold (device_cmp i) s HI Hsz (device_cmp_stable i) Hrun Hhook)
    as (s' & Hr & HI' & Hleft & Hnone).
  exists s'. split_and!; [exact Hr|exact HI'| |].
  - intros n c Hn Hc. specialize (Hnone n Hn). unfold selected in Hnone. rewrite Hc in Hnone.
    by apply Z.eqb_neq in Hnone.
  - intros n c Hn Hc Hm. apply Hleft. split; [done|]. unfold selected. rewrite Hc. by apply Z.eqb_neq.
Qed.
