(* ===== verification/FwHooks.v ===== *)
(** * The hooks of the firmware

    The functions that connection tracking, NAT, the filter and the mangle table register
    ([ip_conntrack_standalone.c], [ip_nat_standalone.c], [iptable_filter.c],
    [iptable_mangle.c]) as the instance of [NfCore]: packets are [sk_buff]s, and the state
    is the record [kernel] of the parts that are modelled in their own files. *)
From S2P Require Import Prelude Packet CtBase TcpTrack CtProtos Conntrack NatProto NatCore NatHelper IpFrag IpTables XtMatches XtTargets NatHooks IptReplace Firewall IptModules IptBoot NfCore.
#[local] Open Scope Z_scope.

(** ** [iptable_mangle.c] *)
Definition name_mangle : list Z := [109; 97; 110; 103; 108; 101].
Definition MANGLE_VALID_HOOKS :=
  Z.lor (Z.shiftl 1 NF_IP_PRE_ROUTING) (Z.lor (Z.shiftl 1 NF_IP_LOCAL_IN) (Z.lor (Z.shiftl 1 NF_IP_FORWARD)
    (Z.lor (Z.shiftl 1 NF_IP_LOCAL_OUT) (Z.shiftl 1 NF_IP_POST_ROUTING)))).

(** Five chains, in the order of the hook numbers. *)
Definition mangle_start : ipt_replace :=
  let at_hook h := policy_size * h in
  let entries := replicate 5 (fw_rule (rule_ip 0 [] []) [] ACCEPT) ++ [fw_rule (rule_ip 0 [] []) [] T_error] in
  mk_replace name_mangle MANGLE_VALID_HOOKS 6 (rules_size entries) at_hook at_hook 0 entries.

Definition packet_mangler (me : option positive) : fw_table :=
  mk_table name_mangle MANGLE_VALID_HOOKS me bootstrap.

Definition ipt_route_hook (fuel : nat) (private : xt_table_info) (skb : sk_buff) (hook : Z)
    (inp out : option net_device) (w : fw_world) :=
  ipt_do_table fuel private skb hook inp out w.

(** [route_me_harder] says whether the packet's new route could be found. *)
Definition ipt_local_hook (route_me_harder : sk_buff → bool) (fuel : nat) (private : xt_table_info)
    (skb : sk_buff) (hook : Z) (inp out : option net_device) (w : fw_world)
    : option (Z * nat_blob * sk_buff * fw_world) :=
  if (skb_len skb <? 20) || (ihl (skb_iph skb) * 4 <? 20) then Some (NF_ACCEPT, t_entries private, skb, w)
  else
    let old := skb_iph skb in
    let mark := nfmark skb in
    '(ret, tbl, skb, w) ← ipt_do_table fuel private skb hook inp out w;
    let new := skb_iph skb in
    let ret := if negb (ret =? NF_DROP) && negb (ret =? NF_STOLEN) && negb (ret =? NF_QUEUE)
                  && (negb (saddr new =? saddr old) || negb (daddr new =? daddr old)
                      || negb (nfmark skb =? mark) || negb (tos new =? tos old))
               then if route_me_harder skb then ret else NF_DROP
               else ret in
    Some (ret, tbl, skb, w).

(** ** The state of the packet path *)
#[export] Instance net_device_eq : EqDecision net_device.
Proof. solve_decision. Defined.

Record kernel := mk_kernel {
  k_fw : fw_world; k_frag : frag_state; k_filter : nat_info; k_nat : nat_info; k_mangle : nat_info }.

#[export] Instance upd_k_fw : Update k_fw := λ v k, mk_kernel v (k_frag k) (k_filter k) (k_nat k) (k_mangle k).
#[export] Instance upd_k_frag : Update k_frag := λ v k, mk_kernel (k_fw k) v (k_filter k) (k_nat k) (k_mangle k).
#[export] Instance upd_k_filter : Update k_filter := λ v k, mk_kernel (k_fw k) (k_frag k) v (k_nat k) (k_mangle k).
#[export] Instance upd_k_nat : Update k_nat := λ v k, mk_kernel (k_fw k) (k_frag k) (k_filter k) v (k_mangle k).
#[export] Instance upd_k_mangle : Update k_mangle := λ v k, mk_kernel (k_fw k) (k_frag k) (k_filter k) (k_nat k) v.

(** ** [ip_conntrack_standalone.c] *)

(** [help] calls a helper's function for a packet of the connection. *)
Definition ip_conntrack_help (help : positive → positive → sk_buff → fw_world → option (Z * sk_buff * fw_world))
    (skb : sk_buff) (w : fw_world) : option (Z * sk_buff * fw_world) :=
  match nfct skb, skb_ct w skb with
  | Some p, Some ct =>
      match ct_helper ct with
      | Some h =>
          '(ret, skb, w) ← help h p skb w;
          if negb (ret =? NF_ACCEPT) then Some (ret, skb, w) else Some (NF_ACCEPT, skb, w)
      | None => Some (NF_ACCEPT, skb, w)
      end
  | _, _ => Some (NF_ACCEPT, skb, w)
  end.

Definition ip_confirm (skb : sk_buff) (w : fw_world) : Z * fw_world :=
  let (v, s) := ip_conntrack_confirm (w_env w) skb (w_ct w) in (v, w <| w_ct := s |>).

(** ** The functions as they are registered *)
Section Hooks.
Context (fuel : nat) (fenv : frag_env) (xfrm_me_harder route_me_harder : sk_buff → bool).
Context (help : positive → positive → sk_buff → fw_world → option (Z * sk_buff * fw_world)).
(** What reassembly asks of a packet: whether it can be pulled, its device and its size
    in memory. *)
Context (pulls : sk_buff → bool) (skb_dev : sk_buff → option Z) (truesize : sk_buff → Z).

Abbreviation hookfn := (nf_hookfn sk_buff net_device unit kernel).
Abbreviation hook_ops := (nf_hook_ops sk_buff net_device unit kernel).

Definition defrag_fn : hookfn := λ hook skb _ _ _ k,
  '(v, r, s) ← ip_conntrack_defrag fenv hook skb (pulls skb) (skb_dev skb) (truesize skb) (k_frag k);
  Some (v, default skb r, k <| k_frag := s |>).

Definition track_fn (track : ct_env → Z → sk_buff → ct_state → option (Z * ct_state * sk_buff)) : hookfn :=
  λ hook skb _ _ _ k,
  '(v, s, skb) ← track (w_env (k_fw k)) hook skb (w_ct (k_fw k));
  Some (v, skb, k <| k_fw := (k_fw k) <| w_ct := s |> |>).

Definition help_fn : hookfn := λ _ skb _ _ _ k,
  '(v, skb, w) ← ip_conntrack_help help skb (k_fw k); Some (v, skb, k <| k_fw := w |>).

Definition confirm_fn : hookfn := λ _ skb _ _ _ k,
  let (v, w) := ip_confirm skb (k_fw k) in Some (v, skb, k <| k_fw := w |>).


Definition nat_fn (f : nat → nat_info → Z → sk_buff → option net_device → option net_device → fw_world →
                       option (Z * nat_blob * sk_buff * fw_world)) : hookfn := λ hook skb inp out _ k,
  '(v, tbl, skb, w) ← f fuel (k_nat k) hook skb inp out (k_fw k);
  Some (v, skb, k <| k_nat := set_entries tbl (k_nat k) |> <| k_fw := w |>).

Definition adjust_fn : hookfn := λ _ skb _ _ _ k,
  '(v, skb, w) ← ip_nat_adjust skb (k_fw k); Some (v, skb, k <| k_fw := w |>).

Abbreviation table_hook := (nat → nat_info → sk_buff → Z → option net_device → option net_device → fw_world →
                            option (Z * nat_blob * sk_buff * fw_world)).

Definition filter_fn (f : table_hook) : hookfn := λ hook skb inp out _ k,
  '(v, tbl, skb, w) ← f fuel (k_filter k) skb hook inp out (k_fw k);
  Some (v, skb, k <| k_filter := set_entries tbl (k_filter k) |> <| k_fw := w |>).

Definition mangle_fn (f : table_hook) : hookfn := λ hook skb inp out _ k,
  '(v, tbl, skb, w) ← f fuel (k_mangle k) skb hook inp out (k_fw k);
  Some (v, skb, k <| k_mangle := set_entries tbl (k_mangle k) |> <| k_fw := w |>).

(** ** Priorities: [include/linux/netfilter_ipv4.h] *)
Definition NF_IP_PRI_CONNTRACK_DEFRAG := -400.
Definition NF_IP_PRI_CONNTRACK := -200.
Definition NF_IP_PRI_MANGLE := -150.
Definition NF_IP_PRI_NAT_DST := -100.
Definition NF_IP_PRI_FILTER := 0.
Definition NF_IP_PRI_NAT_SRC := 100.
Definition NF_IP_PRI_CONNTRACK_HELPER := INT_MAX - 2.
Definition NF_IP_PRI_NAT_SEQ_ADJUST := INT_MAX - 1.
Definition NF_IP_PRI_CONNTRACK_CONFIRM := INT_MAX.

(** The code is built in, so that [THIS_MODULE] is [NULL]. *)
Definition inet_ops (id : positive) (f : hookfn) (hooknum priority : Z) : hook_ops :=
  mk_ops id f None PF_INET hooknum priority.

Definition ip_conntrack_defrag_ops := inet_ops 1 defrag_fn NF_IP_PRE_ROUTING NF_IP_PRI_CONNTRACK_DEFRAG.
Definition ip_conntrack_defrag_local_out_ops := inet_ops 2 defrag_fn NF_IP_LOCAL_OUT NF_IP_PRI_CONNTRACK_DEFRAG.
Definition ip_conntrack_in_ops := inet_ops 3 (track_fn ip_conntrack_in) NF_IP_PRE_ROUTING NF_IP_PRI_CONNTRACK.
Definition ip_conntrack_local_out_ops := inet_ops 4 (track_fn ip_conntrack_local) NF_IP_LOCAL_OUT NF_IP_PRI_CONNTRACK.
Definition ip_conntrack_helper_in_ops := inet_ops 5 help_fn NF_IP_LOCAL_IN NF_IP_PRI_CONNTRACK_HELPER.
Definition ip_conntrack_helper_out_ops := inet_ops 6 help_fn NF_IP_POST_ROUTING NF_IP_PRI_CONNTRACK_HELPER.
Definition ip_conntrack_out_ops := inet_ops 7 confirm_fn NF_IP_POST_ROUTING NF_IP_PRI_CONNTRACK_CONFIRM.
Definition ip_conntrack_local_in_ops := inet_ops 8 confirm_fn NF_IP_LOCAL_IN NF_IP_PRI_CONNTRACK_CONFIRM.

Definition ip_nat_in_ops := inet_ops 9 (nat_fn ip_nat_in) NF_IP_PRE_ROUTING NF_IP_PRI_NAT_DST.
Definition ip_nat_out_ops := inet_ops 10 (nat_fn (ip_nat_out xfrm_me_harder)) NF_IP_POST_ROUTING NF_IP_PRI_NAT_SRC.
Definition ip_nat_adjust_in_ops := inet_ops 11 adjust_fn NF_IP_LOCAL_IN NF_IP_PRI_NAT_SEQ_ADJUST.
Definition ip_nat_adjust_out_ops := inet_ops 12 adjust_fn NF_IP_POST_ROUTING NF_IP_PRI_NAT_SEQ_ADJUST.
Definition ip_nat_local_out_ops := inet_ops 13 (nat_fn (ip_nat_local_fn route_me_harder)) NF_IP_LOCAL_OUT NF_IP_PRI_NAT_DST.
Definition ip_nat_local_in_ops := inet_ops 14 (nat_fn ip_nat_fn) NF_IP_LOCAL_IN NF_IP_PRI_NAT_SRC.

Definition filter_ops : list hook_ops :=
  [ inet_ops 15 (filter_fn ipt_hook) NF_IP_LOCAL_IN NF_IP_PRI_FILTER;
    inet_ops 16 (filter_fn ipt_hook) NF_IP_FORWARD NF_IP_PRI_FILTER;
    inet_ops 17 (filter_fn ipt_local_out_hook) NF_IP_LOCAL_OUT NF_IP_PRI_FILTER ].

Definition mangle_ops : list hook_ops :=
  [ inet_ops 18 (mangle_fn ipt_route_hook) NF_IP_PRE_ROUTING NF_IP_PRI_MANGLE;
    inet_ops 19 (mangle_fn ipt_route_hook) NF_IP_LOCAL_IN NF_IP_PRI_MANGLE;
    inet_ops 20 (mangle_fn ipt_route_hook) NF_IP_FORWARD NF_IP_PRI_MANGLE;
    inet_ops 21 (mangle_fn (ipt_local_hook route_me_harder)) NF_IP_LOCAL_OUT NF_IP_PRI_MANGLE;
    inet_ops 22 (mangle_fn ipt_route_hook) NF_IP_POST_ROUTING NF_IP_PRI_MANGLE ].

(** The registrations of the two [init_or_cleanup] functions. *)
Definition conntrack_ops : list hook_ops :=
  [ ip_conntrack_defrag_ops; ip_conntrack_defrag_local_out_ops; ip_conntrack_in_ops;
    ip_conntrack_local_out_ops; ip_conntrack_helper_in_ops; ip_conntrack_helper_out_ops;
    ip_conntrack_out_ops; ip_conntrack_local_in_ops ].
Definition nat_ops : list hook_ops :=
  [ ip_nat_in_ops; ip_nat_out_ops; ip_nat_adjust_in_ops; ip_nat_adjust_out_ops; ip_nat_local_out_ops;
    ip_nat_local_in_ops ].

Definition boot_ops : list hook_ops := conntrack_ops ++ nat_ops ++ filter_ops ++ mangle_ops.
End Hooks.

(** ** Rerouting of queued packets: [net/ipv4/netfilter.c] *)
Record ip_rt_info := mk_rt_info { rt_daddr : Z; rt_saddr : Z; rt_tos : Z }.

(** Only for local packets something is saved. *)
Definition queue_save (skb : sk_buff) (hook : Z) : option ip_rt_info :=
  if hook =? NF_IP_LOCAL_OUT
  then Some (mk_rt_info (daddr (skb_iph skb)) (saddr (skb_iph skb)) (tos (skb_iph skb)))
  else None.

Definition queue_reroute (route_me_harder : sk_buff → bool) (skb : sk_buff) (hook : Z)
    (rt : option ip_rt_info) (k : kernel) : Z * sk_buff * kernel :=
  match rt with
  | Some rt =>
      if (hook =? NF_IP_LOCAL_OUT)
         && negb ((tos (skb_iph skb) =? rt_tos rt) && (daddr (skb_iph skb) =? rt_daddr rt)
                  && (saddr (skb_iph skb) =? rt_saddr rt))
      then (if route_me_harder skb then 0 else -1, skb, k)
      else (0, skb, k)
  | None => (0, skb, k)
  end.

Definition ip_reroute (route_me_harder : sk_buff → bool)
    : nf_queue_rerouter sk_buff kernel (option ip_rt_info) :=
  mk_rerouter queue_save (queue_reroute route_me_harder).
