(* ===== verification/FwHooksSpec.v ===== *)
(** * The hooks of the firmware: their order, and a LAN connection from end to end *)
From S2P Require Import Prelude Packet CtBase TcpTrack CtProtos Conntrack ConntrackInv ConntrackFacts CtSteps Csum NatProto NatCore NatCsum NatFacts NatTranslate ConntrackSpec IpFrag IpTables XtMatches XtTargets NatHooks IptReplace Firewall FirewallFacts FirewallSpec IptBoot FirewallNat NfCore NfCoreSpec FwHooks.
From stdpp Require Import gmultiset fin_maps fin_sets sorting.
#[local] Open Scope Z_scope.

Section Boot.
Context (fuel : nat) (fenv : frag_env) (xfrm_me_harder route_me_harder : sk_buff → bool).
Context (help : positive → positive → sk_buff → fw_world → option (Z * sk_buff * fw_world)).
Context (pulls : sk_buff → bool) (skb_dev : sk_buff → option Z) (truesize : sk_buff → Z).
Context {R : Type}.
Abbreviation state := (nf_state sk_buff net_device unit kernel R).
Abbreviation ops := (nf_hook_ops sk_buff net_device unit kernel).

#[local] Abbreviation boot := (boot_ops fuel fenv xfrm_me_harder route_me_harder help pulls skb_dev truesize).

(** The functions of each point in the order in which packets meet them. *)
Definition hook_chain (hook : Z) : list ops :=
  let defrag := defrag_fn fenv pulls skb_dev truesize in
  let mangle := mangle_fn fuel ipt_route_hook in
  if hook =? NF_IP_PRE_ROUTING then
    [ inet_ops 1 defrag hook NF_IP_PRI_CONNTRACK_DEFRAG; inet_ops 3 (track_fn ip_conntrack_in) hook NF_IP_PRI_CONNTRACK;
      inet_ops 18 mangle hook NF_IP_PRI_MANGLE; inet_ops 9 (nat_fn fuel ip_nat_in) hook NF_IP_PRI_NAT_DST ]
  else if hook =? NF_IP_LOCAL_IN then
    [ inet_ops 19 mangle hook NF_IP_PRI_MANGLE; inet_ops 15 (filter_fn fuel ipt_hook) hook NF_IP_PRI_FILTER;
      inet_ops 14 (nat_fn fuel ip_nat_fn) hook NF_IP_PRI_NAT_SRC; inet_ops 5 (help_fn help) hook NF_IP_PRI_CONNTRACK_HELPER;
      inet_ops 11 adjust_fn hook NF_IP_PRI_NAT_SEQ_ADJUST; inet_ops 8 confirm_fn hook NF_IP_PRI_CONNTRACK_CONFIRM ]
  else if hook =? NF_IP_FORWARD then
    [ inet_ops 20 mangle hook NF_IP_PRI_MANGLE; inet_ops 16 (filter_fn fuel ipt_hook) hook NF_IP_PRI_FILTER ]
  else if hook =? NF_IP_LOCAL_OUT then
    [ inet_ops 2 defrag hook NF_IP_PRI_CONNTRACK_DEFRAG; inet_ops 4 (track_fn ip_conntrack_local) hook NF_IP_PRI_CONNTRACK;
      inet_ops 21 (mangle_fn fuel (ipt_local_hook route_me_harder)) hook NF_IP_PRI_MANGLE;
      inet_ops 13 (nat_fn fuel (ip_nat_local_fn route_me_harder)) hook NF_IP_PRI_NAT_DST;
      inet_ops 17 (filter_fn fuel ipt_local_out_hook) hook NF_IP_PRI_FILTER ]
  else if hook =? NF_IP_POST_ROUTING then
    [ inet_ops 22 mangle hook NF_IP_PRI_MANGLE; inet_ops 10 (nat_fn fuel (ip_nat_out xfrm_me_harder)) hook NF_IP_PRI_NAT_SRC;
      inet_ops 6 (help_fn help) hook NF_IP_PRI_CONNTRACK_HELPER; inet_ops 12 adjust_fn hook NF_IP_PRI_NAT_SEQ_ADJUST;
      inet_ops 7 confirm_fn hook NF_IP_PRI_CONNTRACK_CONFIRM ]
  else [].

Lemma boot_keys : NoDup (ops_key <$> boot).
Proof. apply (bool_decide_unpack _). vm_compute. exact I. Qed.

Lemma boot_chain order (s : state) hook : order ≡ₚ boot → (∀ pf hook, nf_hooks s pf hook = []) → 0 <= hook < 5 →
  nf_hooks (register_all order s) PF_INET hook = hook_chain hook.
Proof.
  intros Hp Hs Hh. rewrite (order_free boot order s Hp).
  - rewrite register_all_at, Hs.
    assert (hook = 0 ∨ hook = 1 ∨ hook = 2 ∨ hook = 3 ∨ hook = 4) as [->|[->|[->|[->| ->]]]] by lia; reflexivity.
  - split; intros; rewrite Hs; [constructor|done].
  - apply keys_distinct, boot_keys.
Qed.

(** C14: The order of the hooks does not depend on the order of initialisation.  In
    whatever order the parts of the kernel register their functions: a packet meets
    reassembly, tracking, the mangle table, destination NAT, the filter, source NAT, the
    helper, the correction of sequence numbers and the confirmation in this order, at the
    points where they are, and there are no other functions. *)
Theorem boot_order order (s : state) : order ≡ₚ boot → (∀ pf hook, nf_hooks s pf hook = []) →
  (∀ hook, 0 <= hook < 5 → nf_hooks (register_all order s) PF_INET hook = hook_chain hook) ∧
  ∀ pf hook, pf ≠ PF_INET ∨ ¬ 0 <= hook < 5 → nf_hooks (register_all order s) pf hook = [].
Proof.
  intros Hp Hs. split; [intros hook; by apply boot_chain|]. intros pf hook Hn.
  rewrite register_all_at, Hs. assert (at_point pf hook order = []) as ->; [|done].
  apply Permutation_nil_r. unfold at_point. rewrite Hp. apply Permutation_nil_r.
  assert (Forall (λ o, ops_pf o = PF_INET ∧ 0 <= ops_hooknum o < 5) boot) as Hb
    by (repeat (constructor; [vm_compute; intuition congruence|]); constructor).
  clear Hp. induction Hb as [|o l [H1 H2] Hl IH]; [done|]. rewrite filter_cons_False; [exact IH|]. intros [<- <-]. tauto.
Qed.
End Boot.

(** ** The mangle table *)
Definition load_mangle (w : fw_world) : option (Z * xt_table_info) :=
  translate_table 200 name_mangle MANGLE_VALID_HOOKS (rp_entries mangle_start) (rp_size mangle_start)
    (rp_num_entries mangle_start) (rp_hook_entry mangle_start) (rp_underflow mangle_start) w.

(** The script does not change it; packets count in it. *)
Inductive mangle_in_service : nat_info → Prop :=
  | msv_loaded w0 info : load_mangle w0 = Some (0, info) → mangle_in_service info
  | msv_packet info fuel skb hook inp out w v tbl' skb' w' :
      mangle_in_service info →
      ipt_do_table fuel info skb hook inp out w = Some (v, tbl', skb', w') →
      mangle_in_service (set_entries tbl' info).

Definition accept_all : list (ipt_entry xt_match xt_target) := [fw_rule (rule_ip 0 [] []) [] ACCEPT].

Lemma mangle_loaded info : mangle_in_service info → ∀ h, 0 <= h < 5 →
  hook_entry info h = policy_size * h ∧ placed (t_entries info) (policy_size * h) accept_all.
Proof.
  induction 1 as [w0 info H|info fuel skb hook inp out w v tbl' skb' w' _ IH H]; intros h Hh.
  - assert (h = 0 ∨ h = 1 ∨ h = 2 ∨ h = 3 ∨ h = 4) as Hc by lia. vm_compute in H. injection H as <-.
    destruct Hc as [->|[->|[->|[->| ->]]]]; (split; [vm_compute; reflexivity|vm_compute; placed_goals]).
  - destruct (IH h Hh) as [I1 I2]. apply loop_evolves in H. split; [exact I1|].
    eapply placed_evolves; [|done|exact I2]. vm_compute. reflexivity.
Qed.

Lemma mangle_accepts info skb hook inp out w : mangle_in_service info → 0 <= hook < 5 →
  ∃ tbl', ∀ k, ipt_do_table (1 + k) info skb hook inp out w = Some (NF_ACCEPT, tbl', skb, w).
Proof.
  intros Hs Hh. destruct (mangle_loaded info Hs hook Hh) as [He Hp].
  destruct (flat_loop inp out hook (Z.land (ntohs (frag_off (skb_iph skb))) IP_OFFSET) accept_all (t_entries info)
    (policy_size * hook) (underflow info hook) skb w NF_ACCEPT skb w Hp) as [tbl' Hl].
  - unfold accept_all. cbn [flat_run]. unfold exec_rule. cbn [fw_rule e_ip]. rewrite rule_ip_match, !via_nil.
    reflexivity.
  - exists tbl'. intros k. unfold ipt_do_table. rewrite He. apply Hl.
Qed.

(** ** The way of a LAN connection *)
Section Way.
Context (fenv : frag_env) (xfrm_me_harder route_me_harder : sk_buff → bool).
Context (help : positive → positive → sk_buff → fw_world → option (Z * sk_buff * fw_world)).
Context (pulls : sk_buff → bool) (skb_dev : sk_buff → option Z) (truesize : sk_buff → Z).
Context {R : Type}.
Abbreviation state := (nf_state sk_buff net_device unit kernel R).
Abbreviation boot fuel := (boot_ops fuel fenv xfrm_me_harder route_me_harder help pulls skb_dev truesize).
Abbreviation chain_at fuel := (hook_chain fuel fenv xfrm_me_harder route_me_harder help pulls skb_dev truesize).

(** The verdict [v] of the functions as the result of [nf_hook_slow] on the hooks as they
    are after boot, in whatever order they were registered. *)
Definition hook_gives (fuel : nat) (hook : Z) (skb : sk_buff) (inp out : option net_device) (k : kernel)
    (v : Z) (skb' : sk_buff) (k' : kernel) : Prop :=
  ∀ m order (s : state) env nfuel,
    order ≡ₚ boot (fuel + m)%nat → (∀ pf hook, nf_hooks s pf hook = []) → (7 < nfuel)%nat →
    nf_hook_slow env nfuel PF_INET hook skb inp out () INT_MIN k (register_all order s)
    = Some (if v =? NF_ACCEPT then 1 else - EPERM, if v =? NF_ACCEPT then Kept else Freed, skb', k',
            register_all order s).

Lemma chain_prio fuel hook : 0 <= hook < 5 →
  Forall (λ o, INT_MIN <= ops_priority o) (chain_at fuel hook) ∧ (length (chain_at fuel hook) <= 6)%nat.
Proof.
  intros Hh. assert (hook = 0 ∨ hook = 1 ∨ hook = 2 ∨ hook = 3 ∨ hook = 4) as [->|[->|[->|[->| ->]]]] by lia;
    (split; [repeat (constructor; [vm_compute; discriminate|]); constructor|cbn; lia]).
Qed.

Lemma hook_gives_run fuel hook skb inp out k v skb' k' : 0 <= hook < 5 → v = NF_ACCEPT ∨ v = NF_DROP →
  (∀ m, run_hooks (chain_at (fuel + m)%nat hook) hook skb inp out () k = Some (v, skb', k')) →
  hook_gives fuel hook skb inp out k v skb' k'.
Proof.
  intros Hh Hv Hrun m order s env nfuel Ho Hs Hf.
  pose proof (boot_chain (fuel + m) fenv xfrm_me_harder route_me_harder help pulls skb_dev truesize order s hook Ho Hs Hh) as Hc.
  destruct (chain_prio (fuel + m) hook Hh) as [Hp Hl]. apply hook_slow_run; rewrite ?Hc; [exact Hp|lia|exact Hv|apply Hrun].
Qed.

(** No helper is called for the connections to the destination of [t]. *)
Definition unhelped (s : ct_state) (t : ip_conntrack_tuple) : Prop :=
  ∀ i r, protonum i = protonum t → dst_ip i = dst_ip t → dst_u i = dst_u t → invert_tuplepr i = Some r →
    __ip_conntrack_helper_find r s = None.

Lemma help_none w p c skb : nfct skb = Some p → p ≠ (w_untracked w).1 → cts (w_ct w) !! p = Some c →
  ct_helper c = None → ip_conntrack_help help skb w = Some (NF_ACCEPT, skb, w).
Proof.
  intros Hn Hu Hc Hh. unfold ip_conntrack_help, skb_ct. rewrite Hn. cbn [mbind option_bind].
  rewrite decide_False by done. by rewrite Hc, Hh.
Qed.

Lemma adjust_none w p c skb : nfct skb = Some p → p ≠ (w_untracked w).1 → cts (w_ct w) !! p = Some c →
  test_bit IPS_SEQ_ADJUST_BIT c = false → ip_nat_adjust skb w = Some (NF_ACCEPT, skb, w).
Proof.
  intros Hn Hu Hc Hb. unfold ip_nat_adjust, skb_ct. rewrite Hn. cbn [mbind option_bind].
  rewrite decide_False by done. by rewrite Hc, Hb.
Qed.

(** The table of connections after the confirmation. *)
Definition departed (env : ct_env) (p : positive) (c : ip_conntrack) (r : ip_conntrack_tuple) (s : ct_state) : Prop :=
  __ip_conntrack_find env (tuple_orig c) None s = Some (p, IP_CT_DIR_ORIGINAL) ∧
  __ip_conntrack_find env r None s = Some (p, IP_CT_DIR_REPLY).

Lemma masq_unhelped w live ehold p c dev s' v' c' : masqueraded w live ehold p c dev s' v' c' →
  unhelped (w_ct w) (tuple_orig c) → ct_helper c = None → ct_helper c' = None.
Proof.
  intros HM Hun Hh. destruct (mq_helper _ _ _ _ _ _ _ _ _ HM) as [->|Hf]; [done|].
  destruct (mq_ok _ _ _ _ _ _ _ _ _ HM p c' (mq_ct _ _ _ _ _ _ _ _ _ HM)) as [_ _ (i & Gi & _ & Ii & _)].
  destruct (invert_tuplepr_involutive i _ (tg_wf _ Gi) Ii) as [Hi _].
  destruct (mq_to _ _ _ _ _ _ _ _ _ HM i Hi) as (E1 & E2 & E3). rewrite Hf. by eapply Hun.
Qed.

Lemma find_self env live ehold s p d t : Inv env ∅ ∅ live ehold s → ConntrackFacts.tracked s t p d →
  (∀ d', ConntrackFacts.tracked s t p d' → d' = d) → __ip_conntrack_find env t None s = Some (p, d).
Proof.
  intros HI Ht Hd. pose proof (inv_table _ _ _ _ _ _ HI) as HT. pose proof (find_tracked env ∅ s t None HT) as H.
  destruct (__ip_conntrack_find env t None s) as [[q d']|]; [|by specialize (H p d Ht)].
  destruct H as [H _]. assert (q = p) as -> by (by eapply tracked_unique). by rewrite (Hd d' H).
Qed.

(** The functions of POST_ROUTING for the first packet of a LAN connection, up to the
    confirmation. *)
Lemma post_routing_run k p c' skb skb' s' v' v s'' fuel tblm tbln inp out :
  (∀ m, ipt_do_table (1 + m) (k_mangle k) skb NF_IP_POST_ROUTING inp out (k_fw k) = Some (NF_ACCEPT, tblm, skb, k_fw k)) →
  let w' := (k_fw k) <| w_nat := v' |> <| w_ct := s' |> in
  (∀ m, ip_nat_out xfrm_me_harder (fuel + m) (k_nat k) NF_IP_POST_ROUTING skb inp out (k_fw k) = Some (NF_ACCEPT, tbln, skb', w')) →
  nfct skb' = Some p → p ≠ (w_untracked (k_fw k)).1 → cts s' !! p = Some c' → ct_helper c' = None →
  test_bit IPS_SEQ_ADJUST_BIT c' = false → ip_conntrack_confirm (w_env (k_fw k)) skb' s' = (v, s'') →
  ∀ m, run_hooks (chain_at (S fuel + m)%nat NF_IP_POST_ROUTING) NF_IP_POST_ROUTING skb inp out () k
    = Some (v, skb', mk_kernel (w' <| w_ct := s'' |>) (k_frag k) (k_filter k) (set_entries tbln (k_nat k))
                       (set_entries tblm (k_mangle k))).
Proof.
  intros Hm w' Hn Hp Hu Hc Hh Hb Ec m. unfold hook_chain. change (NF_IP_POST_ROUTING =? _) with false at 1 2 3 4.
  change (NF_IP_POST_ROUTING =? NF_IP_POST_ROUTING) with true. cbv iota zeta. cbn [run_hooks inet_ops ops_hook].
  unfold mangle_fn at 1, ipt_route_hook. rewrite (Hm (fuel + m)%nat : ipt_do_table (S fuel + m) _ _ _ _ _ _ = _).
  cbn [mbind option_bind]. change (NF_ACCEPT =? NF_ACCEPT) with true. cbv iota.
  unfold nat_fn at 1. cbn [k_nat k_fw update upd_k_mangle upd_k_fw].
  assert (S fuel + m = fuel + S m)%nat as -> by lia. rewrite Hn. cbn [mbind option_bind].
  change (NF_ACCEPT =? NF_ACCEPT) with true. cbv iota.
  unfold help_fn. cbn [k_fw update upd_k_nat upd_k_mangle upd_k_fw].
  rewrite (help_none w' p c') by done. cbn [mbind option_bind]. change (NF_ACCEPT =? NF_ACCEPT) with true. cbv iota.
  unfold adjust_fn. cbn [k_fw update upd_k_nat upd_k_mangle upd_k_fw].
  rewrite (adjust_none w' p c') by done. cbn [mbind option_bind]. change (NF_ACCEPT =? NF_ACCEPT) with true. cbv iota.
  unfold confirm_fn, ip_confirm. cbn [k_fw update upd_k_nat upd_k_mangle upd_k_fw].
  change (w_env w') with (w_env (k_fw k)). change (w_ct w') with s'. rewrite Ec. cbn [mbind option_bind].
  destruct (v =? NF_ACCEPT) eqn:Ev; [apply Z.eqb_eq in Ev as ->|]; reflexivity.
Qed.

(** C2: A LAN connection leaves the box.  Take any consistent state of the tracker and of
    the tables of the script, the hooks as the kernel registers them at boot (in any
    order), and the first packet of a connection from a host of the LAN that is not
    served by a helper, on its way out of the WAN interface.  [nf_hook_slow] at
    POST_ROUTING returns.  Unless the table of connections already has one of its two
    tuples, in which case the packet is dropped, it lets the packet out with the router's
    address as its source and its destination as it was, and the connection is in the
    table: its further packets and the answers to the packet as it was sent are found
    there.  The tracker is consistent again. *)
Theorem lan_departs k live ehold p c skb x inp dev : let w := k_fw k in
  mangle_in_service (k_mangle k) → nat_in_service (k_nat k) →
  Inv (w_env w) ∅ ∅ live ehold (w_ct w) → nat_ok (w_ct w) → vars_ok (w_nat w) →
  w_writable w = true → (∀ s, xfrm_me_harder s = true) →
  unmapped w p c → hook_packet w p skb x → nfctinfo skb = IP_CT_NEW → ip_ct_tuple_equal x (tuple_orig c) = true →
  ct_helper c = None → unhelped (w_ct w) (tuple_orig c) → test_bit IPS_SEQ_ADJUST_BIT c = false →
  in_LAN skb → dev_ok (Some dev) → dev_named dev_EXT (Some dev) = true →
  w_select_addr w dev ≠ 0 → is_u32 (w_select_addr w dev) → w_select_addr w dev ≠ src_ip x →
  ∃ fuel v skb' k' y r,
    hook_gives fuel NF_IP_POST_ROUTING skb inp (Some dev) k v skb' k' ∧
    Inv (w_env w) ∅ ∅ live ehold (w_ct (k_fw k')) ∧
    pkt_tuple skb' = Some y ∧ src_ip y = w_select_addr w dev ∧ dst_ip y = dst_ip x ∧ invert_tuplepr y = Some r ∧
    (v = NF_ACCEPT ∧ departed (w_env w) p c r (w_ct (k_fw k')) ∨
     v = NF_DROP ∧ ∃ t q d, (t = tuple_orig c ∨ ip_ct_tuple_equal r t = true) ∧ ConntrackFacts.tracked (w_ct (k_fw k')) t q d).
Proof.
  intros w Hms Hns HI Hok Hv Hw Hxf Hu Hp Hnew Heq Hh Hun Hsb Hlan Hdev Hext Hip0 Hip Hsrc.
  destruct (lan_out xfrm_me_harder (k_nat k) w live ehold p c skb x inp dev)
    as (fuel & tbln & skb' & s' & v' & c' & y & Hrun & HM & Hct & Hinfo & Ey & Hsy & Hdy & r & Hr & Heqr); try done.
  destruct (mangle_accepts (k_mangle k) skb NF_IP_POST_ROUTING inp (Some dev) w Hms ltac:(done)) as [tblm Hm].
  pose proof HM as [HI' Hok' _ Hc' _ Ho' _ _ Hbits _ _].
  assert (is_confirmed c' = false) as Hcf by (unfold is_confirmed; rewrite Hbits by done; apply Hu).
  pose proof (confirm_result (w_env w) live ehold skb' p c' s' HI' Hct Hc' Hcf) as HC. rewrite Hinfo in HC. specialize (HC eq_refl).
  destruct (ip_conntrack_confirm (w_env w) skb' s') as [v s''] eqn:Ec. destruct HC as [HI'' HC].
  exists (S fuel), v, skb', (mk_kernel (w <| w_nat := v' |> <| w_ct := s' |> <| w_ct := s'' |>) (k_frag k) (k_filter k)
    (set_entries tbln (k_nat k)) (set_entries tblm (k_mangle k))), y, r.
  split; [|split; [exact HI''|split; [exact Ey|split; [exact Hsy|split; [exact Hdy|split; [exact Hr|]]]]]].
  - apply hook_gives_run; [done|by destruct HC as [(_ & -> & _)|(_ & -> & _)]; auto|].
    eapply post_routing_run; [exact Hm|exact Hrun|exact Hct|apply Hp|exact Hc'| | |exact Ec].
    + by eapply masq_unhelped.
    + by rewrite Hbits.
  - cbn [k_fw w_ct update upd_w_ct]. destruct HC as [((d & q & d' & Ht) & -> & ->)|(_ & -> & Htr & _)].
    + right. split; [done|]. exists (tuplehash c' d), q, d'. split; [|exact Ht]. destruct d; cbn [tuplehash]; [by left|by right].
    + left. split; [done|]. pose proof (invert_fields _ _ Hr) as (F1 & F2 & _).
      apply tuple_equal_spec in Heq as (Q1 & _ & Q3 & _). pose proof Heqr as (G1 & _ & G3 & _)%tuple_equal_spec.
      assert (∀ t d, ConntrackFacts.tracked s'' t p d ↔ ip_ct_tuple_equal t (tuplehash c' d) = true) as Hself.
      { intros t d. rewrite Htr. split; [|by right]. intros [[Ht _]|[_ ?]]; [|done].
        exfalso. by apply (unconfirmed_not_tabled (w_env w) live ehold p c' s' HI' Hc' Hcf (p, d) Ht). }
      split; (eapply find_self; [exact HI''|rewrite Hself|]).
      * cbn [tuplehash]. rewrite Ho'. apply tuple_equal_refl.
      * intros [] Ht%Hself; [done|]. cbn [tuplehash] in Ht. apply tuple_equal_spec in Ht as (T1 & _ & T3 & _). congruence.
      * exact Heqr.
      * intros [] Ht%Hself; [|done]. cbn [tuplehash] in Ht. rewrite Ho' in Ht. apply tuple_equal_spec in Ht as (T1 & _ & T3 & _). congruence.
Qed.

(** ** Answers *)
Definition whole (skb : sk_buff) : Prop := flag (frag_off (skb_iph skb)) (htons (Z.lor IP_MF IP_OFFSET)) = false.

Lemma whole_unfragmented skb : whole skb → unfragmented (data skb).
Proof.
  unfold whole, unfragmented, flag, skb_iph. rewrite !negb_false_iff, !Z.eqb_eq. intros E.
  assert (htons IP_OFFSET = Z.land (htons (Z.lor IP_MF IP_OFFSET)) (htons IP_OFFSET)) as -> by (vm_compute; reflexivity).
  by rewrite Z.land_assoc, E.
Qed.

(** The bits that say what is mapped. *)
Lemma nat_wf_status c c' : nat_wf c → tuple_orig c' = tuple_orig c → tuple_reply c' = tuple_reply c →
  test_bit IPS_SRC_NAT_BIT c' = test_bit IPS_SRC_NAT_BIT c → test_bit IPS_DST_NAT_BIT c' = test_bit IPS_DST_NAT_BIT c →
  nat_wf c'.
Proof.
  intros [H1 H2 (i & G & Di & Ii & B)] Eo Er E4 E5. split; [by rewrite Eo..|]. exists i. rewrite Er, Eo.
  split; [done|]. split; [done|]. split; [done|]. unfold nat_between in *.
  assert (flag (status c') IPS_SRC_NAT = flag (status c) IPS_SRC_NAT) as ->.
  { change IPS_SRC_NAT with (2 ^ IPS_SRC_NAT_BIT). rewrite !flag_testbit by done. exact E4. }
  assert (flag (status c') IPS_DST_NAT = flag (status c) IPS_DST_NAT) as ->; [|exact B].
  change IPS_DST_NAT with (2 ^ IPS_DST_NAT_BIT). rewrite !flag_testbit by done. exact E5.
Qed.

(** A handler may end its connection: the answer to the last query of an ICMP connection
    does, and a RST that answers a SYN.  The packet still holds it, with its tuples and
    its status. *)
Definition ct_core (c : ip_conntrack) : ip_conntrack_tuple * ip_conntrack_tuple * Z :=
  (tuple_orig c, tuple_reply c, status c).
Definition same_core (s s' : ct_state) : Prop := ∀ q, ct_core <$> cts s' !! q = ct_core <$> cts s !! q.

Lemma upd_same_core p f s : (∀ c, ct_core (f c) = ct_core c) → same_core s (upd_ct p f s).
Proof.
  intros Hf q. cbn [upd_ct cts update upd_cts]. destruct (decide (q = p)) as [->|Hq]; [|by rewrite lookup_alter_ne].
  rewrite lookup_alter_eq. destruct (cts s !! p); [|done]. cbn. by rewrite Hf.
Qed.

Lemma drop_expectation_core i s : same_core s (drop_expectation i s).
Proof.
  unfold drop_expectation, exp_del_timer. destruct (match exps s !! i with Some _ => _ | None => _ end); [|done].
  intros q. rewrite expect_put_cts. unfold ip_ct_unlink_expect. destruct (exps _ !! i) as [x|]; [|done].
  rewrite expect_put_cts. exact (upd_same_core (exp_master x) (λ c, c <| expecting := u32 (expecting c - 1) |>) s
    ltac:(done) q).
Qed.

Lemma remove_expectations_core p s : same_core s (ip_ct_remove_expectations p s).
Proof.
  unfold ip_ct_remove_expectations. destruct (cts s !! p) as [c|]; [|done]. destruct (_ =? 0); [done|].
  generalize (ip_conntrack_expect_list s) as l. intros l. revert s.
  induction l as [|i l IH]; intros s; [done|]. cbn [drop_expectations]. intros q. rewrite IH.
  destruct (exps s !! i) as [x|]; [|done]. destruct (bool_decide _); [apply drop_expectation_core|done].
Qed.

Lemma put_self p s c1 : cts (nf_conntrack_put p s) !! p = Some c1 → ∃ c, cts s !! p = Some c ∧ ct_core c1 = ct_core c.
Proof.
  unfold nf_conntrack_put. cbn [put_loop]. set (s1 := upd_ct p _ s).
  assert (cts s1 !! p = (λ c, c <| ct_use := ct_use c - 1 |>) <$> cts s !! p) as H1
    by (unfold s1; cbn [upd_ct cts update upd_cts]; by rewrite lookup_alter_eq).
  destruct (cts s1 !! p) as [c2|] eqn:E2; [|congruence]. destruct (cts s !! p) as [c|]; [|done].
  injection H1 as ->. destruct (_ =? 0).
  - unfold destroy_conntrack. rewrite E2. cbv zeta. unfold ip_conntrack_free. cbn [cts update upd_cts].
    by rewrite lookup_delete_eq.
  - rewrite E2. intros [= <-]. by exists c.
Qed.

Lemma death_self env p s c1 : cts (death_by_timeout env p s) !! p = Some c1 →
  ∃ c, cts s !! p = Some c ∧ ct_core c1 = ct_core c.
Proof.
  unfold death_by_timeout. destruct (cts s !! p) as [c|] eqn:Ec; [|congruence].
  destruct (_ && _); [rewrite Ec; intros [= <-]; by exists c|]. intros (c2 & H2 & E)%put_self.
  pose proof (remove_expectations_core p (list_del_node (p, IP_CT_DIR_REPLY) (list_del_node (p, IP_CT_DIR_ORIGINAL) s)) p) as Hr.
  unfold clean_from_lists in H2. cbv zeta in H2. rewrite H2 in Hr.
  change (cts (list_del_node _ _)) with (cts s) in Hr. rewrite Ec in Hr. apply (inj Some) in Hr.
  exists c. split; [done|]. by rewrite E.
Qed.

(** What the tracker has to say about an answer to a connection it knows. *)
Record answer_of (env : ct_env) (s : ct_state) (p : positive) (c : ip_conntrack) (skb : sk_buff)
    (z : ip_conntrack_tuple) : Prop := {
  an_wf : pkt_wf (data skb); an_whole : whole skb; an_sum : ip_summed skb ≠ CHECKSUM_HW; an_new : nfct skb = None;
  an_tuple : pkt_tuple skb = Some z;
  an_find : __ip_conntrack_find env z None s = Some (p, IP_CT_DIR_REPLY);
  an_ct : cts s !! p = Some c;
  an_error : ∃ ret, proto_error env (__ip_conntrack_proto_find (protocol (skb_iph skb))) skb NF_IP_PRE_ROUTING s
               = (ret, s, skb) ∧ 0 < ret;
  an_packet : ∃ r, proto_packet (cfg env) (__ip_conntrack_proto_find (protocol (skb_iph skb))) (jiffies env)
      (c <| ct_use := ct_use c + 1 |>)
      (skb <| nfct := Some p |> <| nfctinfo := IP_CT_ESTABLISHED + IP_CT_IS_REPLY |>)
      (IP_CT_ESTABLISHED + IP_CT_IS_REPLY) = Some r ∧ pr_ret r = NF_ACCEPT }.

Lemma in_answer env live ehold s p c skb z : expectfn_ok env → Inv env ∅ ∅ live ehold s →
  answer_of env s p c skb z → ∃ s1 c1,
  ip_conntrack_in env NF_IP_PRE_ROUTING skb s
  = Some (NF_ACCEPT, s1, skb <| nfct := Some p |> <| nfctinfo := IP_CT_ESTABLISHED + IP_CT_IS_REPLY |>) ∧
  Inv env ∅ ∅ (live ⊎ {[+ p +]}) ehold s1 ∧
  cts s1 !! p = Some c1 ∧ tuple_orig c1 = tuple_orig c ∧ tuple_reply c1 = tuple_reply c ∧
  ∀ n, 0 <= n → n ≠ IPS_ASSURED_BIT → n ≠ IPS_SEEN_REPLY_BIT → test_bit n c1 = test_bit n c.
Proof.
  intros Hfn HI [_ Hwh _ Hn Hz Hf Hc (ret & He & Hpos) (r & Hr & Hret)].
  set (skb1 := skb <| nfct := Some p |> <| nfctinfo := IP_CT_ESTABLISHED + IP_CT_IS_REPLY |>) in *.
  set (s0 := upd_ct p (λ _, pr_ct r) (nf_conntrack_get p s)).
  set (s2 := if pr_kill r then death_by_timeout env p s0 else s0).
  assert (cts (nf_conntrack_get p s) !! p = Some (c <| ct_use := ct_use c + 1 |>)) as Hg
    by (unfold nf_conntrack_get, upd_ct; cbn [cts update upd_cts]; by rewrite lookup_alter_eq, Hc).
  assert (ip_conntrack_in env NF_IP_PRE_ROUTING skb s
          = Some (NF_ACCEPT, upd_ct p (set_bit IPS_SEEN_REPLY_BIT) s2, skb1)) as Hin.
  { unfold ip_conntrack_in. rewrite Hn. pose proof (whole_unfragmented skb Hwh) as Hu. unfold unfragmented in Hu.
    change (iphdr_at (data skb) 0) with (skb_iph skb) in Hu. cbv zeta. rewrite Hu, He.
    rewrite (proj2 (Z.leb_gt _ _)) by done. unfold resolve_normal_ct. unfold pkt_tuple in Hz. rewrite Hz.
    unfold ip_conntrack_find_get. rewrite Hf. cbn [mbind option_bind fst].
    unfold run_packet. rewrite Hg. cbn [mbind option_bind]. fold skb1. rewrite Hr. cbn [mbind option_bind].
    rewrite Hret. change (NF_ACCEPT <? 0) with false. cbv iota. reflexivity. }
  pose proof (ip_conntrack_in_inv _ _ _ _ _ _ _ _ _ Hfn HI Hn Hin) as HI1. change (skb_ref skb1) with ({[+ p +]} : gmultiset positive) in HI1.
  exists (upd_ct p (set_bit IPS_SEEN_REPLY_BIT) s2).
  assert (p ∈ dom (cts (upd_ct p (set_bit IPS_SEEN_REPLY_BIT) s2))) as [c1 Hc1]%elem_of_dom.
  { apply (ow_live _ _ _ _ (inv_own _ _ _ _ _ _ HI1)), gmultiset_elem_of_disj_union. right. by apply gmultiset_elem_of_singleton. }
  exists c1. split; [exact Hin|]. split; [exact HI1|]. split; [exact Hc1|].
  cbn [upd_ct cts update upd_cts] in Hc1. rewrite lookup_alter_eq in Hc1. destruct (cts s2 !! p) as [c2|] eqn:E2; [|done].
  injection Hc1 as <-. assert (cts s0 !! p = Some (pr_ct r)) as E0
    by (unfold s0; cbn [upd_ct cts update upd_cts]; by rewrite lookup_alter_eq, Hg).
  assert (ct_core c2 = ct_core (pr_ct r)) as E.
  { unfold s2 in E2. destruct (pr_kill r); [|congruence]. apply death_self in E2 as (c3 & E3 & ->). congruence. }
  injection E as F1 F2 F3. apply proto_packet_handler in Hr as [[S1 S2 _ _ _ _ S3 _] _].
  split; [etrans; [exact F1|exact S1]|]. split; [etrans; [exact F2|exact S2]|].
  intros n H0 H1 H2. unfold test_bit. rewrite status_set_bit, Z.setbit_eqb by done.
  rewrite (proj2 (Z.eqb_neq _ n)) by congruence. cbn [orb]. rewrite F3. destruct S3 as [->| ->]; [done|].
  rewrite Z.setbit_eqb by done. by rewrite (proj2 (Z.eqb_neq _ n)) by congruence.
Qed.

Lemma pre_routing_run k p skb skb1 skb' s1 w' tblm inp fuel :
  whole skb →
  ip_conntrack_in (w_env (k_fw k)) NF_IP_PRE_ROUTING skb (w_ct (k_fw k)) = Some (NF_ACCEPT, s1, skb1) →
  let w1 := (k_fw k) <| w_ct := s1 |> in
  (∀ m, ipt_do_table (1 + m) (k_mangle k) skb1 NF_IP_PRE_ROUTING inp None w1 = Some (NF_ACCEPT, tblm, skb1, w1)) →
  nfct skb1 = Some p →
  (∀ f, ip_nat_in f (k_nat k) NF_IP_PRE_ROUTING skb1 inp None w1 = Some (NF_ACCEPT, t_entries (k_nat k), skb', w')) →
  ∀ m, run_hooks (chain_at (S fuel + m)%nat NF_IP_PRE_ROUTING) NF_IP_PRE_ROUTING skb inp None () k
    = Some (NF_ACCEPT, skb', mk_kernel w' (k_frag k) (k_filter k) (set_entries (t_entries (k_nat k)) (k_nat k))
                       (set_entries tblm (k_mangle k))).
Proof.
  intros Hw Hin w1 Hm Hp Hn m. unfold hook_chain. change (NF_IP_PRE_ROUTING =? NF_IP_PRE_ROUTING) with true.
  cbv iota zeta. cbn [run_hooks inet_ops ops_hook].
  unfold defrag_fn at 1, ip_conntrack_defrag. unfold whole in Hw. rewrite Hw. cbn [mbind option_bind default].
  change (NF_ACCEPT =? NF_ACCEPT) with true. cbv iota. unfold id.
  unfold track_fn at 1. cbn [k_fw update upd_k_frag]. rewrite Hin. cbn [mbind option_bind].
  change (NF_ACCEPT =? NF_ACCEPT) with true. cbv iota.
  unfold mangle_fn at 1, ipt_route_hook. cbn [k_mangle k_fw update upd_k_frag upd_k_fw].
  match goal with |- context [ipt_do_table _ _ _ _ _ _ ?v] => change v with w1 end.
  rewrite (Hm (fuel + m)%nat : ipt_do_table (S fuel + m) _ _ _ _ _ _ = _). cbn [mbind option_bind].
  change (NF_ACCEPT =? NF_ACCEPT) with true. cbv iota.
  unfold nat_fn at 1. cbn [k_nat k_fw update upd_k_frag upd_k_fw upd_k_mangle]. rewrite Hn. reflexivity.
Qed.

Lemma forward_run k skb skb' tblm tblf inp out fuel :
  (∀ m, ipt_do_table (1 + m) (k_mangle k) skb NF_IP_FORWARD inp out (k_fw k) = Some (NF_ACCEPT, tblm, skb, k_fw k)) →
  (∀ m, ipt_do_table (fuel + m) (k_filter k) skb NF_IP_FORWARD inp out (k_fw k) = Some (NF_ACCEPT, tblf, skb', k_fw k)) →
  ∀ m, run_hooks (chain_at (S fuel + m)%nat NF_IP_FORWARD) NF_IP_FORWARD skb inp out () k
    = Some (NF_ACCEPT, skb', mk_kernel (k_fw k) (k_frag k) (set_entries tblf (k_filter k)) (k_nat k) (set_entries tblm (k_mangle k))).
Proof.
  intros Hm Hf m. unfold hook_chain. change (NF_IP_FORWARD =? _) with false at 1 2.
  change (NF_IP_FORWARD =? NF_IP_FORWARD) with true. cbv iota zeta. cbn [run_hooks inet_ops ops_hook].
  unfold mangle_fn at 1, ipt_route_hook. rewrite (Hm (fuel + m)%nat : ipt_do_table (S fuel + m) _ _ _ _ _ _ = _).
  cbn [mbind option_bind]. change (NF_ACCEPT =? NF_ACCEPT) with true. cbv iota.
  unfold filter_fn, ipt_hook. cbn [k_filter k_fw update upd_k_mangle upd_k_fw].
  assert (S fuel + m = fuel + S m)%nat as -> by lia. rewrite Hf. reflexivity.
Qed.

(** C3: Answers come back.  Take any consistent state and a whole packet from outside
    that the table of connections knows as an answer to a connection with a mapped
    source and an unmapped destination, and that the tracker finds valid, be it one that
    ends the connection (a RST to a SYN, the echo reply that balances the queries).  [nf_hook_slow] at PRE_ROUTING, with the
    hooks as registered at boot in any order, lets it in as an answer of that connection
    with the address of the host behind the router, and for TCP and UDP its port, as its
    destination, and the tracker is consistent.  At FORWARD the rules of the script then
    accept it, whatever the interfaces are, unless the MSS rule refuses it as a
    malformed SYN. *)
Theorem answer_delivered mp k live ehold p c skb z inp : let w := k_fw k in
  mangle_in_service (k_mangle k) → in_service mp (k_filter k) → expectfn_ok (w_env w) →
  Inv (w_env w) ∅ ∅ live ehold (w_ct w) → nat_wf c → test_bit IPS_DST_NAT_BIT c = false →
  w_writable w = true → p ≠ (w_untracked w).1 → answer_of (w_env w) (w_ct w) p c skb z →
  ip_ct_tuple_equal z (tuple_reply c) = true →
  ∃ fuel skb' k' y,
    hook_gives fuel NF_IP_PRE_ROUTING skb inp None k NF_ACCEPT skb' k' ∧
    Inv (w_env w) ∅ ∅ (live ⊎ {[+ p +]}) ehold (w_ct (k_fw k')) ∧
    nfct skb' = Some p ∧ nfctinfo skb' = IP_CT_ESTABLISHED + IP_CT_IS_REPLY ∧
    pkt_tuple skb' = Some y ∧ dst_ip y = src_ip (tuple_orig c) ∧
    (protonum z = IPPROTO_TCP ∨ protonum z = IPPROTO_UDP → dst_u y = src_u (tuple_orig c)) ∧
    ∀ out skb2, mss_clamp skb' out (k_fw k') = (false, skb2) →
      ∃ fuel' k2, hook_gives fuel' NF_IP_FORWARD skb' inp out k' NF_ACCEPT skb2 k2.
Proof.
  intros w Hms Hfs Hfn HI Hwf Hdst Hwr Hu Ha Hz.
  destruct (in_answer _ _ _ _ _ _ _ _ Hfn HI Ha) as (s1 & c1 & Hin & HI1 & Hc1 & Eo & Er & Hb).
  set (skb1 := skb <| nfct := Some p |> <| nfctinfo := IP_CT_ESTABLISHED + IP_CT_IS_REPLY |>) in *.
  set (w1 := w <| w_ct := s1 |>). pose proof Ha as [Hpw Hwh Hsum _ Hzt _ _ _ _].
  assert (nat_wf c1) as Hwf1 by (apply (nat_wf_status c); [done|done|done|by apply Hb|by apply Hb]).
  assert (flag (status c1) IPS_DST_NAT = false) as Hd1.
  { change IPS_DST_NAT with (2 ^ IPS_DST_NAT_BIT). rewrite flag_testbit by done. etrans; [by apply (Hb IPS_DST_NAT_BIT)|exact Hdst]. }
  pose proof (whole_unfragmented skb Hwh) as Hunf.
  assert (pkt_tuple skb1 = Some z) as Hzt1 by (rewrite <- Hzt, !pkt_tuple_eq; [reflexivity|apply Hpw|exact Hunf|apply Hpw|exact Hunf]).
  assert (hook_packet w1 p skb1 z) as Hp1 by (by split).
  assert (ip_ct_tuple_equal z (tuple_reply c1) = true) as Hz1 by (by rewrite Er).
  destruct (mangle_accepts (k_mangle k) skb1 NF_IP_PRE_ROUTING inp None w1 Hms ltac:(done)) as [tblm Hm].
  pose proof (λ f, reply_unmapped f (k_nat k) w1 p c1 skb1 z inp None Hwf1 Hc1 Hd1 Hwr Hp1 eq_refl Hz1) as Hr.
  destruct (Hr 0%nat) as (skb' & w' & y & t & E0 & Ey & Hyt & Hi & N1 & N2 & Hw').
  assert (∀ f, ip_nat_in f (k_nat k) NF_IP_PRE_ROUTING skb1 inp None w1 = Some (NF_ACCEPT, t_entries (k_nat k), skb', w')) as Hnat.
  { intros f. rewrite <- E0. unfold ip_nat_in. rewrite !(nat_fn_packet _ _ _ _ _ _ _ _ _ _ Hp1 Hc1). reflexivity. }
  exists 1%nat, skb'. eexists (mk_kernel w' _ _ _ _), y. split; [|split].
  - apply hook_gives_run; [done|by left|]. eapply pre_routing_run; [exact Hwh|exact Hin|exact Hm|done|exact Hnat].
  - assert (w_ct w' = s1) as E1 by (by destruct Hw' as [->| ->]). cbn [k_fw]. rewrite E1. exact HI1.
  - rewrite N1, N2. split; [done|]. split; [done|]. split; [exact Ey|].
    apply tuple_equal_spec in Hyt as (_ & _ & U3 & U4 & _). rewrite Eo in Hi.
    pose proof (invert_fields _ _ Hi) as (_ & G2 & _ & G4). split; [congruence|]. split.
    + intros Hpr. rewrite U4. apply tuple_equal_spec in Hz1 as (_ & _ & _ & _ & Z5).
      assert (protonum z = protonum (tuple_orig c)) as Epz.
      { rewrite Z5. destruct Hwf1 as [_ _ (i & Gi & _ & Ii & B & _)]. rewrite <- Eo, <- B. by apply (invert_fields _ _ Ii). }
      rewrite Epz in Hpr. by destruct Hpr as [Hpr|Hpr]; rewrite Hpr in G4; apply G4.
    + intros out skb2 Hmss. cbn [k_fw] in Hmss.
      assert (is_untracked w' skb' = false ∧ tracked w' skb' = true) as [Hun Htr].
      { assert (is_untracked w' skb' = false) as Hun.
        { unfold is_untracked. rewrite N1. apply bool_decide_eq_false_2. destruct Hw' as [->| ->]; cbn; congruence. }
        split; [done|]. unfold tracked. rewrite Hun. cbn [negb andb]. apply bool_decide_eq_true_2.
        unfold skb_ct. rewrite N1. cbn [mbind option_bind]. change (nfct skb1) with (Some p). cbn [mbind option_bind].
        rewrite decide_False by (by destruct Hw' as [->| ->]). assert (w_ct w' = s1) as -> by (by destruct Hw' as [->| ->]).
        rewrite Hc1. by eexists. }
      destruct (forward_verdict mp (k_filter k) skb' inp out w' skb2 Hfs Hmss Hun) as (f2 & tblf & Hf2). rewrite Htr in Hf2.
      destruct (mangle_accepts (set_entries tblm (k_mangle k)) skb' NF_IP_FORWARD inp out w') as [tblm2 Hm2]; [|done|].
      { eapply msv_packet; [exact Hms|exact (Hm 0%nat)]. }
      exists (S f2). eexists. apply hook_gives_run; [done|by left|]. eapply forward_run; [exact Hm2|exact Hf2].
Qed.
End Way.

(** ** Examples *)
Definition no_help (h p : positive) (skb : sk_buff) (w : fw_world) : option (Z * sk_buff * fw_world) := None.
Definition demo_fenv : frag_env := mk_fenv 0 262144 196608 64 3000 92 true true true (λ _, true) 0.
Definition no_frags : frag_state := mk_fs ∅ ∅ [] 0 0 0 ∅.
Definition demo_mangle : nat_info :=
  match load_mangle lan_world with Some (_, info) => info | None => mk_info 0 0 (λ _, 0) (λ _, 0) ∅ end.
Definition no_hooks : nf_state sk_buff net_device unit kernel unit :=
  mk_nf (λ _ _, []) (λ _, None) (λ _, None) (λ _, 0) (λ _, 0) [].

Lemma demo_mangle_loaded : mangle_in_service demo_mangle.
Proof. apply (msv_loaded lan_world). vm_compute. reflexivity. Qed.

(** The hooks registered in the opposite order. *)
Lemma boot_order_witness :
  nf_hooks (register_all (reverse (boot_ops 9 demo_fenv (λ _, true) (λ _, true) no_help (λ _, true) (λ _, None) (λ _, 256))) no_hooks)
    PF_INET NF_IP_FORWARD
  = [ inet_ops 20 (mangle_fn 9 ipt_route_hook) NF_IP_FORWARD NF_IP_PRI_MANGLE;
      inet_ops 16 (filter_fn 9 ipt_hook) NF_IP_FORWARD NF_IP_PRI_FILTER ].
Proof.
  apply (boot_order 9 demo_fenv (λ _, true) (λ _, true) no_help (λ _, true) (λ _, None) (λ _, 256));
    [apply reverse_Permutation|reflexivity|split; [discriminate|reflexivity]].
Defined.

Definition lan_kernel : kernel := mk_kernel lan_world no_frags demo_filter demo_nat demo_mangle.

Lemma lan_unhelped t : unhelped lan_state t.
Proof. intros i r _ _ _ _. vm_compute. reflexivity. Qed.

Lemma lan_departs_witness : ∃ fuel v skb' k' y,
  hook_gives demo_fenv (λ _, true) (λ _, true) no_help (λ _, true) (λ _, None) (λ _, 256) (R:=unit) fuel
    NF_IP_POST_ROUTING lan_run.2 None (demo_dev dev_EXT) lan_kernel v skb' k' ∧
  pkt_tuple skb' = Some y ∧ src_ip y = WAN_IP ∧ dst_ip y = htonl 134744072.
Proof.
  destruct (lan_departs demo_fenv (λ _, true) (λ _, true) no_help (λ _, true) (λ _, None) (λ _, 256) (R:=unit)
              lan_kernel (∅ ⊎ skb_ref lan_run.2) ∅ 1%positive lan_ct lan_run.2 lan_tuple None (mk_dev (pad_ifname dev_EXT) 1 []))
    as (fuel & v & skb' & k' & y & r & H & _ & Ey & Hs & Hd & _).
  - apply demo_mangle_loaded.
  - apply (nsv_loaded lan_world). vm_compute. reflexivity.
  - apply lan_inv.
  - apply lan_nat_ok.
  - vm_compute. intuition discriminate.
  - reflexivity.
  - reflexivity.
  - split; vm_compute; reflexivity.
  - split; try (vm_compute; congruence). split; [split|]; try (vm_compute; discriminate).
    apply bytes_ok. vm_compute. reflexivity.
  - vm_compute. reflexivity.
  - vm_compute. reflexivity.
  - vm_compute. reflexivity.
  - apply lan_unhelped.
  - vm_compute. reflexivity.
  - vm_compute. reflexivity.
  - split; [reflexivity|]. repeat (constructor; [vm_compute; split; congruence|]). constructor.
  - vm_compute. reflexivity.
  - vm_compute. discriminate.
  - vm_compute. intuition discriminate.
  - vm_compute. discriminate.
  - exists fuel, v, skb', k', y. split; [exact H|]. split; [exact Ey|]. split; [exact Hs|exact Hd].
Defined.

(** The connection is mapped to the router's address and confirmed; the name server
    answers. *)
Definition mapped_run :=
  ip_nat_setup_info env0 1%positive (mk_range IP_NAT_RANGE_MAP_IPS WAN_IP WAN_IP 0 0) NF_IP_POST_ROUTING (mk_nv 0 0 0) lan_state.
Definition mapped_state : ct_state := match mapped_run with Some (_, _, s) => s | None => lan_state end.
Definition sent_state : ct_state := (ip_conntrack_confirm env0 lan_run.2 mapped_state).2.
Definition sent_ct : ip_conntrack := default lan_ct (cts sent_state !! 1%positive).
Definition sent_kernel : kernel := mk_kernel (lan_world <| w_ct := sent_state |>) no_frags demo_filter demo_nat demo_mangle.
Definition dns_answer : sk_buff := udp_pkt 134744072 3232235806 53 4000.

Lemma mapped_ok : Inv env0 ∅ ∅ (∅ ⊎ skb_ref lan_run.2) ∅ mapped_state ∧ nat_ok mapped_state.
Proof.
  destruct (setup_result env0 (∅ ⊎ skb_ref lan_run.2) ∅ lan_state 1%positive lan_ct (mk_range IP_NAT_RANGE_MAP_IPS WAN_IP WAN_IP 0 0)
    NF_IP_POST_ROUTING (mk_nv 0 0 0)) as (v' & s' & c' & i & i' & E & HI & Hok & _).
  - apply lan_inv.
  - apply lan_nat_ok.
  - split; try done; vm_compute; intuition discriminate.
  - vm_compute. intuition discriminate.
  - vm_compute. reflexivity.
  - vm_compute. reflexivity.
  - vm_compute. reflexivity.
  - unfold mapped_state, mapped_run. by rewrite E.
Qed.

Lemma sent_wf : nat_wf sent_ct.
Proof.
  destruct mapped_ok as [_ Hok]. apply (nat_wf_status (default lan_ct (cts mapped_state !! 1%positive)));
    [apply (Hok 1%positive); vm_compute; reflexivity|vm_compute; reflexivity..].
Qed.

Lemma answer_delivered_witness : ∃ fuel skb' k' y,
  hook_gives demo_fenv (λ _, true) (λ _, true) no_help (λ _, true) (λ _, None) (λ _, 256) (R:=unit) fuel
    NF_IP_PRE_ROUTING dns_answer (demo_dev dev_EXT) None sent_kernel NF_ACCEPT skb' k' ∧
  pkt_tuple skb' = Some y ∧ dst_ip y = src_ip lan_tuple ∧ dst_u y = src_u lan_tuple.
Proof.
  destruct (answer_delivered demo_fenv (λ _, true) (λ _, true) no_help (λ _, true) (λ _, None) (λ _, 256) (R:=unit)
              true sent_kernel (∅ ⊎ skb_ref lan_run.2) ∅ 1%positive sent_ct dns_answer (default lan_tuple (pkt_tuple dns_answer))
              (demo_dev dev_EXT))
    as (fuel & skb' & k' & y & H & _ & _ & _ & Ey & Hd & Hu & _).
  - apply demo_mangle_loaded.
  - apply demo_in_service.
  - apply env0_ok.
  - apply confirm_inv, mapped_ok.
  - apply sent_wf.
  - vm_compute. reflexivity.
  - reflexivity.
  - vm_compute. discriminate.
  - split; try (vm_compute; congruence).
    + split; [split|]; try (vm_compute; discriminate). apply bytes_ok. vm_compute. reflexivity.
    + eexists. split; vm_compute; reflexivity.
    + eexists. split; [vm_compute; reflexivity|]. reflexivity.
  - vm_compute. reflexivity.
  - exists fuel, skb', k', y. split; [exact H|]. split; [exact Ey|]. split; [etrans; [exact Hd|]; vm_compute; reflexivity|].
    etrans; [apply Hu; right; vm_compute; reflexivity|]. vm_compute. reflexivity.
Defined.
